(* ===== verification/_CoqProject ===== *)
-Q . S2P
Prelude.v
Permissions.v
RingBuffer.v
RateLimiter.v
GoText.v
Wire.v
Json.v
GoTime.v
Crypto.v
Credentials.v
Rows.v
Store.v
StoreInv.v
StoreOk.v
StoreThms.v
Seed.v
Hub.v
Chat.v
Voice.v
Serve.v
WsInv.v
WsOk.v
WsRun.v
Replay.v
HubRun.v
WsAuth.v
Conns.v
Sessions.v
VoiceThms.v
Privacy.v
Cases.v
Net.v
LogStream.v
Updater.v
Migrate.v
Config.v
Http.v
JsonThms.v
AuthApi.v
RestApi.v
Storage.v
LiveKitProcess.v
LiveKitProxy.v
Status.v
Uploads.v
AdminApi.v
Updates.v
Routes.v
HttpInv.v
AuthThms.v
HttpFrame.v
Maintenance.v
Tls.v
Startup.v
ServerRun.v
LoginThms.v
DiskThms.v
AdminThms.v
RestThms.v
Messages.v
History.v
Records.v
RangeMap.v
Vp8.v
RtpMunger.v
Vp8Munger.v
Sequencer.v
Frames.v
Sps.v
MediaAuth.v
DownTrack.v
Layers.v
Forwarder.v
Allocator.v
StreamNumbers.v
Translation.v
ForwardThms.v
