(* ===== verification/Prelude.v ===== *)
(** * OwnCord server: a verification library

    OwnCord is a self-hosted chat server with text channels, direct messages
    and voice rooms. This library models the Go server under src/Server and
    proves what makes it correct. The repository also holds the LiveKit media
    server (src/livekit-1.11.0), which is built into the same image and carries
    voice and video: its admission and its forwarding of packets are modelled
    too. The desktop client is another program.

    ** The program and its model

    A user registers with an invite, logs in and gets a session token. A client
    opens a WebSocket, authenticates in-band with the token, receives the state
    of the server, and then sends messages; a hub goroutine takes broadcasts
    from a queue, numbers them, keeps the last 1000 in a ring buffer for
    clients that reconnect, and puts them in the send buffers of connections,
    from which a goroutine per connection writes them out. The REST API gives
    history, search, invites and files; the administration API manages users,
    channels, settings, backups and updates. All durable state is in SQLite and
    in the files of the data directory.

    The parts without a network:
    - [Permissions]: permissions/ (bit masks, channel overrides, DM access).
    - [RingBuffer], [RateLimiter]: ws/ringbuffer.go, auth/ratelimit.go.
    - [GoText], [GoTime], [Json], [Crypto], [Net]: what the code uses of
      strconv, strings, time, encoding/json, crypto/sha256, sha1, hmac and net.
    - [Credentials]: auth/ (names, passwords, bearer tokens, bans, expiry,
      partial logins, TOTP).
    - [Rows], [Store]: db/ (the tables; every query and update). [StoreInv],
      [StoreOk], [StoreThms]: the integrity of the database and the effect of
      the operations that span several statements. [Seed]: scripts/seed.go.
    - [Migrate]: db/migrate.go, on a database whose content is a parameter.
    - [LogStream], [Updater], [Config]: the data of admin/logstream.go, the
      pure functions of updater/ and config/.

    The WebSocket process:
    - [Wire]: ws/messages.go and the message types.
    - [Hub], [Chat], [Voice], [Serve]: ws/ (the hub and its connections, the
      message handlers, voice, and the life of a connection). [Serve.run_event]
      puts the process together: one event is what a goroutine does in one go.
    - [HubRun]: the loop of ws/hub.go with its channels, its ticker, its budget
      of panics and its stop, which [Serve] leaves to the order of the events.
    - [WsInv], [WsOk], [WsRun], [Replay], [WsAuth], [Conns], [Sessions],
      [VoiceThms], [Privacy]: the theorems about the process. [Cases]: runs in which the
      server departs from its documentation.

    The HTTP server:
    - [Http]: api/middleware.go, requests and replies, JSON bodies, and the
      state of the server: the WebSocket process and its database, files, the
      replies other hosts will give. [JsonThms]: the JSON reader.
    - [AuthApi], [RestApi], [Uploads]: the handlers of api/. [Storage]: storage/.
    - [AdminApi], [Updates]: the handlers of admin/, and updater/ with the disk
      and the network.
    - [Routes]: the route tables: which middleware stands before which handler.
      A handler may end in a panic (a nil pointer that is used); what chi's
      recoverer then answers is a parameter ([Routes.env_recovered]).
    - [LiveKitProcess], [LiveKitProxy]: ws/livekit_process.go (the loop that
      keeps the media server running, as a machine) and api/livekit_proxy.go.
    - [Status]: the client of the media server's room service, health,
      information, diagnostics, metrics, and the request log.
    - [Maintenance]: the clean-up at the start and the maintenance loop of
      main.go. [Tls]: auth/tls.go. [Startup]: main.go, the opening of the
      database, the loading of the configuration and the construction of the
      router, as a machine that leaves a trace of actions.
    - [HttpInv], [HttpFrame]: rules to reason about handlers, and what every
      endpoint keeps. [AuthThms], [LoginThms], [RestThms], [AdminThms],
      [DiskThms]: the theorems about the endpoints. [ServerRun]: HTTP requests,
      WebSocket events, maintenance and restarts in any order. [Messages],
      [History], [Records]: what such runs can and cannot do to messages,
      accounts and the audit log.

    The media server, a process of its own that the chat server supervises. It
    takes the packets of publishers and forwards to every subscriber what that
    subscriber wants and has the bandwidth for, as streams without a seam:
    - [MediaAuth]: pkg/service (tokens, permissions, the admission of a
      participant, the room API), with the tokens of [Voice].
    - [Vp8], [Frames], [Sps]: pkg/sfu/buffer/helpers.go, h26xhelper.go and the
      inspection of packets (VP8 descriptors, key frames, picture sizes).
    - [RangeMap], [RtpMunger]: sfu/utils/rangemap.go, sfu/rtpmunger.go (the
      sequence numbers and timestamps of one subscriber). [StreamNumbers]: the
      same over many sources, as a log of what went out under which number.
    - [Vp8Munger]: sfu/codecmunger (the descriptors of forwarded VP8 packets).
    - [Layers]: sfu/videolayerselector (which packets are of the layers wanted).
    - [Forwarder]: the allocations of sfu/forwarder.go (which layers are the
      target); [Translation]: its packet path; [ForwardThms]: its theorems.
    - [Allocator]: sfu/streamallocator (one channel for all tracks).
    - [Sequencer], [DownTrack]: sfu/sequencer.go and the packet path of
      sfu/downtrack.go (writing, and retransmissions).

    A receiver hands a packet to [DownTrack.WriteRTP], whose argument is what
    [Translation.GetTranslationParams] makes of it, by the selector of [Layers]
    and the two mungers, for the target that [Allocator] set through
    [Forwarder]; the sequencer keeps what is needed to send it again.

    A definition carries the name of the Go function it translates; long
    functions are cut at their comments into several definitions, called in the
    same order. Methods take the receiver's state; pointers to clients are keys
    of [Hub.w_conns].

    ** Conventions

    Stateful code is a function from the state to a result and the next state
    ([ST]); a Go pair of a value and an error is [result]. The database is a
    record of maps ([Rows.Db]); a statement is atomic and has its documented
    SQL meaning. Every statement may fail: the state holds a list of faults,
    one per statement, and theorems quantify over that list. In the same way
    clock readings advance by a list of delays, and socket writes, file
    operations and requests to other hosts fail by lists. 64-bit integers are
    [Z] with their wrap-around written out.

    The restoration of a backup copies a file over the one that SQLite has open,
    under the connections of the running server. What they find from then on is
    a parameter of the model, [Routes.env_reload], an arbitrary function of the
    database before and of the file's content, applied when the file is emptied
    and again when it is written ([Updates.overwrite]); where the configuration
    puts the database elsewhere it is the identity. What SQLite makes of the file
    later (its write-ahead log is applied to it, statements fail) counts as found
    there or as faults. Nothing is assumed of the parameter: the theorems about
    runs say what they claim of a run with a restoration ([ServerRun.restoring]).

    Concurrency: an event or a request runs atomically, which stands for the
    mutexes of the hub and the serialisation of SQLite; interleaving is the
    order of the events, over which the theorems quantify. Interleaving inside
    one handler, between two of its database calls, is not modelled, nor is the
    end of the process there: a restart comes between events. Iteration over
    Go maps follows the order of the model's maps; SQL rows without ORDER BY
    come in key order.

    Recursion is structural except for the parsers, whose fuel is the length of
    the text ([JsonThms.json_reader_total]: more fuel changes nothing), and the
    pages of [StoreThms.GetMessages_pages], whose theorem states the fuel that
    is enough. The loops over the payload of a packet have its length as fuel
    ([packet_inspected]); boosting takes at most twelve steps for each track
    ([headroom_boosted]), one for every layer there is.

    ** Theorems

    - The whole server: no panic of the hub's goroutines and the invariants of
      the process after any mix of requests and events, restorations included,
      and those of the database unless a restoration breaks them
      ([server_safe], and [process_safe] for the process alone), the integrity of the database ([db_integrity]), where sessions come from
      ([sessions_only_from_login]), which sessions and uploads the maintenance
      removes ([maintenance_removes_only]), each migration once
      ([migrations_once]), the order of a start and of its end
      ([startup_order]), a certificate that stays ([self_signed_stable]).
    - The hub's loop: it does not panic, it ends when it is stopped and not
      before ([hub_loop_runs]), and whatever it does with the other goroutines
      is a run of [Serve] ([hub_loop_refines]), so that the theorems about
      those runs hold of it.
    - Authentication: which endpoints run only for a live session
      ([auth_required]) or an administrator ([admin_required]); what login,
      two-factor verification, registration and the first set-up do, refusals
      included ([login_sound], [verify_totp_sound], [register_sound],
      [setup_once]); who gets a connection and keeps it
      ([connect_authenticated], [revoked_session_closed]).
    - Authority: every change of a message and who made it, over all events of
      the server ([message_authority]); what no run between two restorations of
      a backup changes: authors, channels, times, deletions, the audit log,
      accounts, invites, sessions ([message_history], [records_kept]); who may send and join ([chat_send_authorised] and its
      neighbours, [voice_join_authorised]), who reads history and
      search results ([messages_read_authorised], [search_authorised]), who
      receives direct messages ([dm_message_private]), who reads the log
      ([log_stream_authorised]); the meaning of the permission bits
      ([HasChannelPerm_correct]).
    - The disk: where requests may write ([files_confined], [upload_confined]),
      which binary is installed and that none is lost ([update_verified],
      [apply_update_keeps_binary]).
    - Delivery: what a reconnecting client is sent ([replay_exact]; the
      handshake is one step, and a broadcast in the middle of it is lost,
      [Cases.broadcast_lost_in_handshake]), exact delivery
      ([broadcast_delivery]), takeover of a connection ([registerNow_takes_over]).
    - The media server: who is let in and what may be asked of a room
      ([media_access]); no two packets under one number, over packets in any
      order, drops and padding ([munger_stream]), and over all sources, mutes
      and allocations ([forwarded_once]); a switch of the source goes on where
      the stream was ([switch_goes_on]); retransmissions are what was sent
      ([retransmits_what_was_sent], [retransmitted_as_sent]); rewritten VP8
      descriptors are read back and count pictures without holes
      ([vp8_rewritten], [vp8_pictures_consecutive]); nothing a publisher sends
      is read out of bounds ([packet_inspected], with one exception), sizes are
      read as they were written ([video_size_read]); the tracks of a subscriber
      share its bandwidth ([bandwidth_shared], [headroom_boosted]).
    - Bounds: rate limits in every window, voice capacity, attempts at
      two-factor login, the log buffer, restarts of the media server, the
      finality of a stop and its waits ([livekit_supervised]).
    - Data: settings and users change in one transaction, account deletion, one
      DM channel per pair, pagination, no development secrets in a checked
      configuration; round trips of expiry texts and of LiveKit names.

    ** Not modelled

    - What SQLite makes of a migration script: the theorems about the server
      start from the state after the migrations.
    - The full-text index behind search: a parameter of the search handler.
    - The static page of the administration panel (admin/admin.go), the art of
      the start-up banner, the wrappers of db/db.go around database/sql, and
      the helpers that exist for tests only.
    - Merging of configuration layers: koanf and its YAML parser are parameters
      of [Startup.Load].
    - The start of the new process at the end of an update ([apply_update]
      takes its outcome), and a connection that cannot flush in the log stream.
    - Goroutines that only log, and the timeout of http.Server.Shutdown.
    - The rest of the media server: transports, rooms and signalling,
      congestion estimation, pacing, the selector for dependency descriptors,
      statistics and reports, telemetry, egress and ingress, and the glue around
      WebRTC, Redis and protobuf packages that are not in the repository.
    - The client, another program in another language.

    Parameters of the media server: the ordered map of a third-party package
    ([Vp8Munger.OrderedMap] with its laws and an instance), the VP9 and RTP
    parsers, the packets the receiver still has, the token SDK and the decoders,
    what answers the room API, the selector for dependency descriptors
    ([Layers.DependencySelector]), the order in which the map of tracks is gone
    through, NTP times, and the clock and the estimator as inputs.

    Parameters: bcrypt, the random source, the HTML sanitizer (bluemonday),
    the LiveKit SDK, the crypto packages behind certificates, semver, multipart
    parsing, content sniffing and image decoding are arguments of the
    definitions that call them ([Routes.Env] gathers those of the HTTP server). *)

From stdpp Require Export base tactics numbers option list gmap fin_maps fin_sets
  sorting strings pretty.
From Stdlib Require Export ZArith Lia.

#[local] Open Scope Z_scope.

(** ** Scope and notations of the development *)

Declare Scope go_scope.
Delimit Scope go_scope with go.

(** The value, error pair that Go functions return: [inl] carries a non-nil
    error (the other results are then unused by every caller), [inr] a result
    with a nil error. *)
Abbreviation result E A := (E + A)%type.

(** ** Machine integers

    [int64] and [uint64] values are [Z] in their range; additions that can
    wrap are followed by the reduction below. *)

Definition two64 : Z := 2 ^ 64.
Definition two63 : Z := 2 ^ 63.
Definition wrap_uint64 (z : Z) : Z := z mod two64.
Definition wrap_int64 (z : Z) : Z := (z + two63) mod two64 - two63.
Definition is_int64 (z : Z) : Prop := - two63 <= z < two63.

(** Go's bit operators on [int64]: two's complement, which is what [Z]'s
    bitwise functions compute on signed numbers. *)
Definition go_and (a b : Z) : Z := Z.land a b.
Definition go_or (a b : Z) : Z := Z.lor a b.
Definition go_andnot (a b : Z) : Z := Z.ldiff a b.

Lemma wrap_uint64_range z : 0 <= wrap_uint64 z < two64.
Proof. unfold wrap_uint64, two64. apply Z.mod_pos_bound. lia. Qed.

Lemma wrap_uint64_small z : 0 <= z < two64 -> wrap_uint64 z = z.
Proof. intros H. unfold wrap_uint64. apply Z.mod_small. exact H. Qed.

Lemma wrap_int64_range z : is_int64 (wrap_int64 z).
Proof.
  unfold is_int64, wrap_int64, two63, two64.
  pose proof (Z.mod_pos_bound (z + 2 ^ 63) (2 ^ 64)). lia.
Qed.

Lemma wrap_int64_small z : is_int64 z -> wrap_int64 z = z.
Proof.
  unfold is_int64, wrap_int64, two63, two64. intros H.
  rewrite Z.mod_small; lia.
Qed.

(** ** Lists as Go slices *)

(** [l[i]] for an [int] index: out of range is a runtime panic, [None]. *)
Definition slice_get {A} (l : list A) (i : Z) : option A :=
  if bool_decide (0 <= i) then l !! Z.to_nat i else None.

(** [l[i] = x]: [None] is the runtime panic. *)
Definition slice_set {A} (l : list A) (i : Z) (x : A) : option (list A) :=
  if bool_decide (0 <= i < Z.of_nat (length l)) then Some (<[Z.to_nat i := x]> l)
  else None.

(** The longest suffix with at most [n] elements. *)
Definition lastn {A} (n : nat) (l : list A) : list A := drop (length l - n) l.

Lemma slice_get_Some {A} (l : list A) i x :
  slice_get l i = Some x <-> 0 <= i /\ l !! Z.to_nat i = Some x.
Proof.
  unfold slice_get. case_bool_decide; split; intros; try discriminate; tauto.
Qed.

Lemma slice_get_is_Some {A} (l : list A) i :
  0 <= i < Z.of_nat (length l) -> is_Some (slice_get l i).
Proof.
  intros H. unfold slice_get. rewrite bool_decide_eq_true_2 by lia.
  apply lookup_lt_is_Some. lia.
Qed.

Lemma slice_set_in_range {A} (l : list A) i x :
  0 <= i < Z.of_nat (length l) -> slice_set l i x = Some (<[Z.to_nat i := x]> l).
Proof. intros H. unfold slice_set. by rewrite bool_decide_eq_true_2. Qed.

Lemma length_lastn {A} n (l : list A) : length (lastn n l) = Nat.min n (length l).
Proof. unfold lastn. rewrite length_drop. lia. Qed.

Lemma lastn_all {A} n (l : list A) : (length l <= n)%nat -> lastn n l = l.
Proof. intros H. unfold lastn. by replace (length l - n)%nat with 0%nat by lia. Qed.

Lemma lastn_app_cons {A} n (l : list A) x :
  (0 < n)%nat -> lastn n (l ++ [x]) = lastn (n - 1) l ++ [x].
Proof.
  intros H. unfold lastn. rewrite length_app. simpl.
  rewrite drop_app_le by lia. f_equal. f_equal. lia.
Qed.

Lemma lastn_app_lastn {A} n (l k : list A) : lastn n (lastn n l ++ k) = lastn n (l ++ k).
Proof.
  unfold lastn. rewrite !length_app, length_drop.
  rewrite !drop_app, drop_drop. f_equal; f_equal; rewrite ?length_drop; lia.
Qed.

Lemma lastn_suffix {A} n (l : list A) : exists k, l = k ++ lastn n l.
Proof. exists (take (length l - n) l). unfold lastn. by rewrite take_drop. Qed.

Lemma list_lookup_lastn {A} n (l : list A) i :
  lastn n l !! i = l !! (length l - n + i)%nat.
Proof. unfold lastn. by rewrite lookup_drop. Qed.

(** Counting elements of a list by a boolean predicate. *)
Definition countb {A} (p : A -> bool) (l : list A) : nat :=
  length (List.filter p l).

Lemma countb_nil {A} (p : A -> bool) : countb p [] = 0%nat.
Proof. done. Qed.

Lemma countb_app {A} (p : A -> bool) l1 l2 :
  countb p (l1 ++ l2) = (countb p l1 + countb p l2)%nat.
Proof. unfold countb. by rewrite List.filter_app, length_app. Qed.

Lemma countb_le {A} (p q : A -> bool) l :
  (forall x, x ∈ l -> p x = true -> q x = true) -> (countb p l <= countb q l)%nat.
Proof.
  unfold countb. induction l as [|x l IH]; simpl; intros H; [done|].
  assert (IH' := IH (fun y Hy => H y (list_elem_of_further _ _ _ Hy))).
  pose proof (H x (list_elem_of_here _ _)) as Hx.
  destruct (p x) eqn:Hp; simpl.
  - rewrite Hx by done. simpl. lia.
  - destruct (q x); simpl; lia.
Qed.

(** ** Sorting rows

    [ORDER BY]: a stable insertion sort by a boolean order. *)

Fixpoint insert_by {A} (leb : A -> A -> bool) (x : A) (l : list A) : list A :=
  match l with
  | [] => [x]
  | y :: l' => if leb x y then x :: l else y :: insert_by leb x l'
  end.

Definition sort_by {A} (leb : A -> A -> bool) (l : list A) : list A :=
  foldr (insert_by leb) [] l.

Lemma insert_by_Permutation {A} (leb : A -> A -> bool) x l : insert_by leb x l ≡ₚ x :: l.
Proof.
  induction l as [|y l IH]; simpl; [done|]. destruct (leb x y); [done|].
  rewrite IH. apply Permutation_swap.
Qed.

Lemma sort_by_Permutation {A} (leb : A -> A -> bool) l : sort_by leb l ≡ₚ l.
Proof.
  induction l as [|x l IH]; simpl; [done|]. rewrite insert_by_Permutation. by f_equiv.
Qed.

Lemma elem_of_sort_by {A} (leb : A -> A -> bool) l x : x ∈ sort_by leb l <-> x ∈ l.
Proof. by rewrite sort_by_Permutation. Qed.

Lemma length_sort_by {A} (leb : A -> A -> bool) l : length (sort_by leb l) = length l.
Proof. by rewrite sort_by_Permutation. Qed.

Section sorted_rows.
Context {A} (leb : A -> A -> bool).
Context (Htot : forall x y, leb x y = true \/ leb y x = true).
Context (Htrans : forall x y z, leb x y = true -> leb y z = true -> leb x z = true).

Lemma insert_by_sorted x l :
  StronglySorted (fun a b => leb a b = true) l ->
  StronglySorted (fun a b => leb a b = true) (insert_by leb x l).
Proof.
  induction 1 as [|y l Hl IH Hy]; simpl; [repeat constructor|].
  destruct (leb x y) eqn:E.
  - constructor; [by constructor|]. constructor; [done|].
    eapply Forall_impl; [exact Hy|]. intros z Hz. by eapply Htrans.
  - constructor; [done|]. rewrite insert_by_Permutation. constructor; [|done].
    destruct (Htot x y) as [H|H]; [by rewrite H in E|done].
Qed.

Lemma sort_by_sorted l : StronglySorted (fun a b => leb a b = true) (sort_by leb l).
Proof. induction l; simpl; [constructor|by apply insert_by_sorted]. Qed.
End sorted_rows.

(** ** State passing

    Code that reads or changes the process state is a function from that state
    to a result and the next state; [x ← m; k] is stdpp's bind. *)

Definition ST (W A : Type) : Type := W -> A * W.

#[export] Instance ST_ret W : MRet (ST W) := fun A a w => (a, w).
#[export] Instance ST_bind W : MBind (ST W) := fun A B f m w => f (m w).1 (m w).2.

(** Reading the state, applying an update to it. *)
Definition gets {W A} (f : W -> A) : ST W A := fun w => (f w, w).
Definition modify {W} (f : W -> W) : ST W unit := fun w => (tt, f w).

(** Weakest precondition of a state-passing computation. *)
Definition wp {W A} (m : ST W A) (Q : A -> W -> Prop) (w : W) : Prop :=
  Q (m w).1 (m w).2.

Section wp_rules.
Context {W : Type}.

Lemma wp_ret {A} (a : A) (Q : A -> W -> Prop) w : Q a w -> wp (mret a) Q w.
Proof. done. Qed.

Lemma wp_bind {A B} (m : ST W A) (f : A -> ST W B) Q w :
  wp m (fun a w' => wp (f a) Q w') w -> wp (m ≫= f) Q w.
Proof. done. Qed.

Lemma wp_gets {A} (f : W -> A) (Q : A -> W -> Prop) w : Q (f w) w -> wp (gets f) Q w.
Proof. done. Qed.

Lemma wp_modify (f : W -> W) (Q : unit -> W -> Prop) w : Q tt (f w) -> wp (modify f) Q w.
Proof. done. Qed.

Lemma wp_mono {A} (m : ST W A) (Q Q' : A -> W -> Prop) w :
  wp m Q w -> (forall a w', Q a w' -> Q' a w') -> wp m Q' w.
Proof. unfold wp. auto. Qed.

Lemma wp_and {A} (m : ST W A) (Q Q' : A -> W -> Prop) w :
  wp m Q w -> wp m Q' w -> wp m (fun a w' => Q a w' /\ Q' a w') w.
Proof. done. Qed.

Lemma wp_run {A} (m : ST W A) (Q : A -> W -> Prop) w : wp m Q w -> Q (m w).1 (m w).2.
Proof. done. Qed.
End wp_rules.

(** [frames R m]: every run of [m] relates its first and last state by [R]. *)
Definition frames {W A} (R : W -> W -> Prop) (m : ST W A) : Prop :=
  forall w, R w (m w).2.

Section frames_rules.
Context {W : Type} (R : W -> W -> Prop) `{!PreOrder R}.

Lemma frames_ret {A} (a : A) : frames R (mret a : ST W A).
Proof. intros w. simpl. reflexivity. Qed.

Lemma frames_bind {A B} (m : ST W A) (f : A -> ST W B) :
  frames R m -> (forall a, frames R (f a)) -> frames R (m ≫= f).
Proof. intros Hm Hf w. etrans; [apply (Hm w)|apply (Hf _ _)]. Qed.

Lemma frames_gets {A} (f : W -> A) : frames R (gets f).
Proof. intros w. simpl. reflexivity. Qed.

Lemma frames_modify (f : W -> W) : (forall w, R w (f w)) -> frames R (modify f).
Proof. intros H w. apply H. Qed.

Lemma frames_mapM_ {A} (f : A -> ST W unit) (l : list A) :
  (forall x, frames R (f x)) ->
  frames R (foldr (fun x k => f x ≫= fun _ => k) (mret tt) l).
Proof.
  intros Hf. induction l as [|x l IH]; simpl.
  - apply frames_ret.
  - apply frames_bind; [apply Hf|intros _; exact IH].
Qed.
End frames_rules.

(** [for x in l { f x }], in order. *)
Definition forM_ {W A} (l : list A) (f : A -> ST W unit) : ST W unit :=
  foldr (fun x k => f x ≫= fun _ => k) (mret tt) l.

(** ** Hint databases and tactics shared by the components *)

Create HintDb go_db.
#[export] Hint Resolve wrap_uint64_range wrap_int64_range : go_db.

(** Case analysis on the scrutinee of the outermost [match] of the goal. *)
Ltac case_goal :=
  match goal with
  | |- context [match ?x with _ => _ end] => destruct x eqn:?
  end.

(** The same in a hypothesis. *)
Ltac case_hyp H :=
  match type of H with
  | context [match ?x with _ => _ end] => destruct x eqn:?
  end.

(** Boolean equations to propositions. *)
Ltac bools :=
  repeat match goal with
  | H : negb _ = true |- _ => apply negb_true_iff in H
  | H : negb _ = false |- _ => apply negb_false_iff in H
  | H : _ && _ = true |- _ => apply andb_true_iff in H as [? ?]
  | H : _ || _ = false |- _ => apply orb_false_iff in H as [? ?]
  | H : bool_decide _ = true |- _ => apply bool_decide_eq_true_1 in H
  | H : bool_decide _ = false |- _ => apply bool_decide_eq_false_1 in H
  | H : (_ =? _) = true |- _ => apply Z.eqb_eq in H
  | H : (_ =? _) = false |- _ => apply Z.eqb_neq in H
  | H : (_ <? _) = true |- _ => apply Z.ltb_lt in H
  | H : (_ <? _) = false |- _ => apply Z.ltb_ge in H
  | H : (_ <=? _) = true |- _ => apply Z.leb_le in H
  | H : (_ <=? _) = false |- _ => apply Z.leb_gt in H
  end.
