(* ===== verification/Permissions.v ===== *)
(** * Permission bits and channel access checks

    Model of [Server/permissions]: the bit constants and the three bit
    functions of permissions.go, and the [Checker] of checker.go, written
    against an interface class for the two database queries it needs. *)

From S2P Require Import Prelude.
#[local] Open Scope Z_scope.

Module Perm.

(** Permission bits (int64 constants). *)
Definition SendMessages : Z := 0x0001.
Definition ReadMessages : Z := 0x0002.
Definition AttachFiles : Z := 0x0020.
Definition AddReactions : Z := 0x0040.
Definition UseSoundboard : Z := 0x0100.
Definition ConnectVoice : Z := 0x0200.
Definition SpeakVoice : Z := 0x0400.
Definition UseVideo : Z := 0x0800.
Definition ShareScreen : Z := 0x1000.
Definition ManageMessages : Z := 0x10000.
Definition ManageChannels : Z := 0x20000.
Definition KickMembers : Z := 0x40000.
Definition BanMembers : Z := 0x80000.
Definition MuteMembers : Z := 0x100000.
Definition ManageRoles : Z := 0x1000000.
Definition ManageServer : Z := 0x2000000.
Definition ManageInvites : Z := 0x4000000.
Definition ViewAuditLog : Z := 0x8000000.
Definition Administrator : Z := 0x40000000.

Definition OwnerRoleID : Z := 1.
Definition AdminRoleID : Z := 2.
Definition ModeratorRoleID : Z := 3.
Definition MemberRoleID : Z := 4.
Definition OwnerRolePosition : Z := 100.

Definition HasPerm (rolePerms requiredPerm : Z) : bool :=
  if requiredPerm =? 0 then false
  else go_and rolePerms requiredPerm =? requiredPerm.

Definition HasAdmin (rolePerms : Z) : bool :=
  negb (go_and rolePerms Administrator =? 0).

Definition EffectivePerms (rolePerm allow deny : Z) : Z :=
  go_or (go_andnot rolePerm deny) allow.

(** ** The checker *)

Inductive access_error :=
| ErrNotDMParticipant
| ErrPermissionDenied
| ErrCheckingDM.

Record ChannelOverride := mkOverride { Allow : Z; Deny : Z }.

(** The [DB] interface of checker.go: what the checker asks of the store.
    [W] is the state the queries run in, [E] the store's errors. *)
Class PermDB (W E : Type) := {
  GetChannelPermissions : Z -> Z -> ST W (result E (Z * Z));
  IsDMParticipant : Z -> Z -> ST W (result E bool)
}.

(** What a store promises to the checker: the two queries answer from a fixed
    view of the state or fail, and running one does not change the view. *)
Class PermDBLaws (W E : Type) `{PermDB W E} := {
  override_of : W -> Z -> Z -> Z * Z;
  participant_of : W -> Z -> Z -> bool;
  get_perms_answer : forall w ch r,
    (GetChannelPermissions ch r w).1 = inr (override_of w ch r) \/
    exists e, (GetChannelPermissions ch r w).1 = inl e;
  is_participant_answer : forall w u ch,
    (IsDMParticipant u ch w).1 = inr (participant_of w u ch) \/
    exists e, (IsDMParticipant u ch w).1 = inl e;
  get_perms_view : forall w ch r, override_of (GetChannelPermissions ch r w).2 = override_of w;
  is_participant_view : forall w u ch,
    participant_of (IsDMParticipant u ch w).2 = participant_of w
}.

Section checker.
Context {W E : Type} `{!PermDB W E}.

Definition HasChannelPerm (rolePerms roleID channelID perm : Z) : ST W bool :=
  if HasAdmin rolePerms then mret true
  else
    q ← GetChannelPermissions channelID roleID;
    match q with
    | inl _ => mret false
    | inr (allow, deny) =>
        mret (go_and (EffectivePerms rolePerms allow deny) perm =? perm)
    end.

Definition HasChannelPermBatch (rolePerms : Z) (overrides : gmap Z ChannelOverride)
    (channelID perm : Z) : bool :=
  if HasAdmin rolePerms then true
  else
    let o := default (mkOverride 0 0) (overrides !! channelID) in
    go_and (EffectivePerms rolePerms (Allow o) (Deny o)) perm =? perm.

(** [None] is the nil error. *)
Definition RequireChannelAccess (userID rolePerms roleID : Z) (channelType : string)
    (channelID perm : Z) : ST W (option access_error) :=
  if bool_decide (channelType = "dm"%string) then
    q ← IsDMParticipant userID channelID;
    match q with
    | inl _ => mret (Some ErrCheckingDM)
    | inr ok => mret (if ok : bool then None else Some ErrNotDMParticipant)
    end
  else
    ok ← HasChannelPerm rolePerms roleID channelID perm;
    mret (if ok : bool then None else Some ErrPermissionDenied).
End checker.

(** ** Bit-level meaning *)

(** Every bit of [q] is set in [p]. *)
Definition bits_subset (q p : Z) : Prop :=
  forall i, 0 <= i -> Z.testbit q i = true -> Z.testbit p i = true.

(** A role grants [perm] on a channel when each bit of it is allowed by the
    override, or held by the role and not denied by the override. *)
Definition grants (rolePerms allow deny perm : Z) : Prop :=
  forall i, 0 <= i -> Z.testbit perm i = true ->
    Z.testbit allow i = true \/
    (Z.testbit rolePerms i = true /\ Z.testbit deny i = false).

Lemma land_subset p q : Z.land p q = q <-> bits_subset q p.
Proof.
  split.
  - intros H i Hi Hq. rewrite <- H, Z.land_spec in Hq. bools. done.
  - intros H. apply Z.bits_inj'. intros i Hi. rewrite Z.land_spec.
    destruct (Z.testbit q i) eqn:Hq; [|apply andb_false_r].
    by rewrite (H i Hi Hq).
Qed.

Lemma testbit_EffectivePerms r a d i :
  Z.testbit (EffectivePerms r a d) i =
  (Z.testbit r i && negb (Z.testbit d i)) || Z.testbit a i.
Proof. unfold EffectivePerms, go_or, go_andnot. by rewrite Z.lor_spec, Z.ldiff_spec. Qed.

Lemma EffectivePerms_grants r a d q :
  (go_and (EffectivePerms r a d) q =? q) = true <-> grants r a d q.
Proof.
  rewrite Z.eqb_eq. unfold go_and. rewrite land_subset. unfold bits_subset, grants.
  split; intros H i Hi Hq; specialize (H i Hi Hq).
  - rewrite testbit_EffectivePerms in H.
    destruct (Z.testbit r i), (Z.testbit d i), (Z.testbit a i); simpl in *; auto; discriminate.
  - rewrite testbit_EffectivePerms. destruct H as [-> | [-> ->]]; [apply orb_true_r|done].
Qed.

Lemma HasAdmin_bit r : HasAdmin r = Z.testbit r 30.
Proof.
  unfold HasAdmin, go_and, Administrator.
  change 0x40000000 with (2 ^ 30). rewrite <- (Z.shiftl_1_l 30).
  destruct (Z.testbit r 30) eqn:Hb.
  - apply negb_true_iff, Z.eqb_neq. intros H.
    apply (f_equal (fun z => Z.testbit z 30)) in H.
    rewrite Z.land_spec, Hb in H. discriminate.
  - apply negb_false_iff, Z.eqb_eq. apply Z.bits_inj'. intros i Hi.
    rewrite Z.land_spec, Z.bits_0, Z.shiftl_1_l, Z.pow2_bits_eqb by lia.
    destruct (30 =? i) eqn:He; bools; subst; by rewrite ?Hb, ?andb_false_r.
Qed.

End Perm.

Export Perm.

Section checker_theory.
Context {W E : Type} `{PDB : PermDB W E} {HL : PermDBLaws W E}.

Lemma HasChannelPerm_view rp rid ch q w :
  override_of (HasChannelPerm rp rid ch q w).2 = override_of w.
Proof.
  unfold HasChannelPerm. destruct (HasAdmin rp); [done|].
  unfold mbind, ST_bind. rewrite <- (get_perms_view w ch rid).
  by destruct (GetChannelPermissions ch rid w).1 as [?|[??]].
Qed.

Lemma HasChannelPerm_sound rp rid ch q w :
  (HasChannelPerm rp rid ch q w).1 = true ->
  HasAdmin rp = true \/
  let '(a, d) := override_of w ch rid in grants rp a d q.
Proof.
  unfold HasChannelPerm. destruct (HasAdmin rp) eqn:Ha; [by left|].
  unfold mbind, ST_bind.
  destruct (get_perms_answer w ch rid) as [-> | [e ->]]; [|discriminate].
  destruct (override_of w ch rid) as [a d]. simpl.
  intros Hg. right. by apply EffectivePerms_grants.
Qed.
End checker_theory.

(** C39: [HasChannelPerm] answers true exactly when the role has the
    Administrator bit, or the override query succeeds and every requested bit
    is either allowed by the channel override or held by the role and not
    denied; a failed query denies. *)
Theorem HasChannelPerm_correct {W E} `{PDB : PermDB W E} {HL : PermDBLaws W E} rp rid ch q w :
  (HasChannelPerm rp rid ch q w).1 = true <->
  Z.testbit rp 30 = true \/
  ((exists a d, (GetChannelPermissions ch rid w).1 = inr (a, d) /\
     override_of w ch rid = (a, d) /\
     grants rp a d q)).
Proof.
  rewrite <- HasAdmin_bit. unfold HasChannelPerm.
  destruct (HasAdmin rp) eqn:Ha; [naive_solver|].
  unfold mbind, ST_bind.
  destruct (get_perms_answer w ch rid) as [Hq | [e Hq]]; rewrite Hq.
  - destruct (override_of w ch rid) as [a d] eqn:Ho. simpl.
    rewrite EffectivePerms_grants. naive_solver.
  - simpl. naive_solver.
Qed.

(** [RequireChannelAccess] grants access to a DM channel exactly to a
    participant whose lookup succeeded, whatever role bits they hold (not even
    the Administrator bit opens someone else's DM), and to any other channel
    exactly when [HasChannelPerm] does. *)
Theorem RequireChannelAccess_correct {W E} {PDB : PermDB W E} {HL : PermDBLaws W E}
    u rp rid ty ch q w :
  (RequireChannelAccess u rp rid ty ch q w).1 = None <->
  (ty = "dm"%string /\ (IsDMParticipant u ch w).1 = inr true /\
     participant_of w u ch = true) \/
  (ty <> "dm"%string /\ (HasChannelPerm rp rid ch q w).1 = true).
Proof.
  unfold RequireChannelAccess. case_bool_decide as Hty; unfold mbind, ST_bind.
  - destruct (is_participant_answer w u ch) as [Hq | [e Hq]]; rewrite Hq; simpl.
    + destruct (participant_of w u ch); simpl; naive_solver.
    + naive_solver.
  - destruct (HasChannelPerm rp rid ch q w) as [[|] w']; simpl; naive_solver.
Qed.

(** The batch check over a prefetched override map agrees with the
    per-channel check on every channel whose map entry is the stored override
    (a missing entry standing for allow = deny = 0), when that query succeeds. *)
Theorem HasChannelPermBatch_agrees {W E} {PDB : PermDB W E} {HL : PermDBLaws W E}
    rp rid ch q w (overrides : gmap Z ChannelOverride)
    (Hmap : override_of w ch rid =
       let o := default (mkOverride 0 0) (overrides !! ch) in (Allow o, Deny o))
    (Hok : forall e, (GetChannelPermissions ch rid w).1 <> inl e) :
  HasChannelPermBatch rp overrides ch q = (HasChannelPerm rp rid ch q w).1.
Proof.
  unfold HasChannelPermBatch, HasChannelPerm. destruct (HasAdmin rp); [done|].
  unfold mbind, ST_bind.
  destruct (get_perms_answer w ch rid) as [-> | [e He]].
  - by rewrite Hmap.
  - by destruct (Hok e).
Qed.
