(* ===== verification/RingBuffer.v ===== *)
(** * The replay ring buffer

    Model of Server/ws/ringbuffer.go: a fixed array of [size] slots written
    cyclically, and its refinement to the queue "the last [size] events". The
    mutex makes every operation atomic, so each is a function on the state; a
    slice index out of range is a runtime panic, [None]. *)

From S2P Require Import Prelude.
#[local] Open Scope Z_scope.

Module Ring.

Record eventEntry := mkEntry { e_seq : Z; e_data : string }.

Record EventRingBuffer := mkRing {
  rb_entries : list eventEntry;
  rb_size : Z;
  rb_pos : Z;
  rb_count : Z
}.

(** [make([]eventEntry, size)] fills the slots with the zero entry. *)
Definition zeroEntry : eventEntry := mkEntry 0 "".

Definition NewEventRingBuffer (size : Z) : EventRingBuffer :=
  mkRing (replicate (Z.to_nat size) zeroEntry) size 0 0.

Definition Push (rb : EventRingBuffer) (sq : Z) (d : string) : option EventRingBuffer :=
  es ← slice_set (rb_entries rb) (rb_pos rb) (mkEntry sq d);
  if rb_size rb =? 0 then None (* integer division by zero *)
  else Some (mkRing es (rb_size rb) (Z.rem (rb_pos rb + 1) (rb_size rb))
    (if rb_count rb <? rb_size rb then rb_count rb + 1 else rb_count rb)).

Definition oldestIdx (rb : EventRingBuffer) : Z :=
  Z.rem (rb_pos rb - rb_count rb + rb_size rb) (rb_size rb).

(** The loop of [EventsSince]: [i] counts up to [count] ([n] slots are left). *)
Fixpoint collect (rb : EventRingBuffer) (afterSeq : Z) (n : nat) (i : Z) : option (list string) :=
  match n with
  | O => Some []
  | S n' =>
      e ← slice_get (rb_entries rb) (Z.rem (oldestIdx rb + i) (rb_size rb));
      rest ← collect rb afterSeq n' (i + 1);
      Some (if afterSeq <? e_seq e then e_data e :: rest else rest)
  end.

(** The returned Go slice: [None] is nil, which is also what appending nothing
    to the nil slice gives. *)
Definition go_slice {A} (l : list A) : option (list A) :=
  match l with [] => None | _ => Some l end.

Definition EventsSince (rb : EventRingBuffer) (afterSeq : Z) : option (option (list string)) :=
  if rb_count rb =? 0 then Some None
  else
    oldest ← slice_get (rb_entries rb) (oldestIdx rb);
    if afterSeq <? e_seq oldest then Some None
    else
      l ← collect rb afterSeq (Z.to_nat (rb_count rb)) 0;
      Some (go_slice l).

Definition OldestSeq (rb : EventRingBuffer) : option Z :=
  if rb_count rb =? 0 then Some 0
  else e_seq <$> slice_get (rb_entries rb) (oldestIdx rb).

(** ** Well-formedness and abstraction *)

Record ring_ok (rb : EventRingBuffer) : Prop := {
  ok_size : 0 < rb_size rb;
  ok_entries : Z.of_nat (length (rb_entries rb)) = rb_size rb;
  ok_pos : 0 <= rb_pos rb < rb_size rb;
  ok_count : 0 <= rb_count rb <= rb_size rb
}.

(** Slot of the [k]-th oldest event. *)
Definition slot (rb : EventRingBuffer) (k : nat) : nat :=
  Z.to_nat (Z.rem (oldestIdx rb + Z.of_nat k) (rb_size rb)).

(** The buffered events, oldest first. *)
Definition contents (rb : EventRingBuffer) : list eventEntry :=
  (fun k => default zeroEntry (rb_entries rb !! slot rb k)) <$> seq 0 (Z.to_nat (rb_count rb)).

(** The array index, as a remainder of the unwrapped position. *)
Lemma slot_mod rb k : ring_ok rb ->
  Z.of_nat (slot rb k) = (rb_pos rb - rb_count rb + Z.of_nat k) mod rb_size rb.
Proof.
  intros [Hs _ Hp Hc]. unfold slot.
  assert (Eo : oldestIdx rb = (rb_pos rb - rb_count rb + rb_size rb) mod rb_size rb)
    by (apply Z.rem_mod_nonneg; lia).
  pose proof (Z.mod_pos_bound (rb_pos rb - rb_count rb + rb_size rb) (rb_size rb) Hs).
  rewrite Eo, Z.rem_mod_nonneg by lia. rewrite Z2Nat.id by (apply Z.mod_pos_bound; lia).
  rewrite Zplus_mod_idemp_l.
  replace (rb_pos rb - rb_count rb + rb_size rb + Z.of_nat k)
    with (rb_pos rb - rb_count rb + Z.of_nat k + 1 * rb_size rb) by lia.
  apply Z_mod_plus_full.
Qed.

Lemma slot_lt rb k : ring_ok rb -> (slot rb k < length (rb_entries rb))%nat.
Proof.
  intros H. pose proof (slot_mod rb k H) as E. destruct H as [Hs He _ _].
  pose proof (Z.mod_pos_bound (rb_pos rb - rb_count rb + Z.of_nat k) (rb_size rb)). lia.
Qed.

Lemma oldestIdx_slot rb : ring_ok rb -> oldestIdx rb = Z.of_nat (slot rb 0).
Proof.
  intros H. rewrite slot_mod by done. destruct H as [Hs _ Hp Hc]. unfold oldestIdx.
  rewrite Z.rem_mod_nonneg by lia.
  replace (rb_pos rb - rb_count rb + rb_size rb)
    with (rb_pos rb - rb_count rb + Z.of_nat 0 + 1 * rb_size rb) by lia.
  apply Z_mod_plus_full.
Qed.

Lemma length_contents rb : length (contents rb) = Z.to_nat (rb_count rb).
Proof. unfold contents. by rewrite length_fmap, length_seq. Qed.

Lemma lookup_contents rb k :
  (k < Z.to_nat (rb_count rb))%nat -> ring_ok rb ->
  contents rb !! k = rb_entries rb !! slot rb k.
Proof.
  intros Hk H. unfold contents. rewrite list_lookup_fmap, lookup_seq_lt by done. simpl.
  destruct (lookup_lt_is_Some_2 (rb_entries rb) (slot rb k)) as [e He];
    [by apply slot_lt|]. by rewrite He.
Qed.

(** A remainder is unchanged by a shift of the position that adds the size. *)
Lemma mod_shift a s : 0 < s -> - s <= a < 0 -> a mod s = a + s.
Proof.
  intros Hs Ha. symmetry. apply Z.mod_unique_pos with (q := -1); lia.
Qed.

Lemma new_ok n : 0 < n -> ring_ok (NewEventRingBuffer n).
Proof.
  intros H. split; unfold NewEventRingBuffer; simpl; try lia.
  rewrite length_replicate. lia.
Qed.

Lemma contents_new n : contents (NewEventRingBuffer n) = [].
Proof. done. Qed.

(** A push on a well-formed buffer, in closed form. *)
Lemma Push_eq rb sq d : ring_ok rb ->
  Push rb sq d = Some (mkRing (<[Z.to_nat (rb_pos rb) := mkEntry sq d]> (rb_entries rb))
    (rb_size rb) ((rb_pos rb + 1) mod rb_size rb)
    (Z.min (rb_count rb + 1) (rb_size rb))).
Proof.
  intros [Hs He Hp Hc]. unfold Push. rewrite slice_set_in_range by lia. simpl.
  destruct (Z.eqb_spec (rb_size rb) 0); [lia|].
  rewrite Z.rem_mod_nonneg by lia. do 2 f_equal.
  destruct (Z.ltb_spec (rb_count rb) (rb_size rb)); lia.
Qed.

Lemma Push_ok rb sq d rb' : ring_ok rb -> Push rb sq d = Some rb' -> ring_ok rb'.
Proof.
  intros H. rewrite Push_eq by done. intros [= <-]. destruct H as [Hs He Hp Hc].
  pose proof (Z.mod_pos_bound (rb_pos rb + 1) (rb_size rb)).
  split; simpl; rewrite ?length_insert; lia.
Qed.

(** Where the [k]-th event of the pushed buffer lies in the old array: the
    oldest event is dropped exactly when the buffer was full. *)
Lemma slot_push rb sq d rb' k : ring_ok rb -> Push rb sq d = Some rb' ->
  (k <= Z.to_nat (rb_count rb))%nat ->
  slot rb' k = slot rb (if decide (rb_count rb < rb_size rb) then k else S k).
Proof.
  intros H HP Hk. apply Nat2Z.inj.
  rewrite slot_mod by (by eapply Push_ok). rewrite slot_mod by done.
  rewrite Push_eq in HP by done. injection HP as <-. simpl.
  destruct H as [Hs He Hp Hc].
  replace ((rb_pos rb + 1) mod rb_size rb - Z.min (rb_count rb + 1) (rb_size rb) + Z.of_nat k)
    with ((rb_pos rb + 1) mod rb_size rb + (Z.of_nat k - Z.min (rb_count rb + 1) (rb_size rb)))
    by lia.
  rewrite Zplus_mod_idemp_l. case_decide; [f_equal; lia|].
  rewrite Z.min_r by lia.
  replace (rb_pos rb + 1 + (Z.of_nat k - rb_size rb))
    with (rb_pos rb - rb_count rb + Z.of_nat (S k)) by lia. done.
Qed.

Lemma slot_end rb : ring_ok rb -> slot rb (Z.to_nat (rb_count rb)) = Z.to_nat (rb_pos rb).
Proof.
  intros H. apply Nat2Z.inj. rewrite slot_mod by done. destruct H as [Hs He Hp Hc].
  replace (rb_pos rb - rb_count rb + Z.of_nat (Z.to_nat (rb_count rb))) with (rb_pos rb) by lia.
  rewrite Z.mod_small; lia.
Qed.

(** Distinct live events lie in distinct slots, none of them the write slot. *)
Lemma slot_ne_pos rb k : ring_ok rb ->
  (k < Z.to_nat (rb_count rb))%nat -> rb_count rb < rb_size rb \/ 0 < Z.of_nat k ->
  slot rb k <> Z.to_nat (rb_pos rb).
Proof.
  intros H Hk Hfree E. apply (f_equal Z.of_nat) in E. rewrite slot_mod in E by done.
  destruct H as [Hs He Hp Hc]. rewrite Z2Nat.id in E by lia.
  destruct (decide (rb_pos rb - rb_count rb + Z.of_nat k < 0)).
  - rewrite mod_shift in E by lia. lia.
  - rewrite Z.mod_small in E by lia. lia.
Qed.

(** The stored events after a push: the new event joins the queue, from whose
    front the oldest is dropped once more than [size] events are held. *)
Lemma Push_contents rb sq d rb' : ring_ok rb -> Push rb sq d = Some rb' ->
  contents rb' = lastn (Z.to_nat (rb_size rb)) (contents rb ++ [mkEntry sq d]).
Proof.
  intros H HP. pose proof (Push_ok _ _ _ _ H HP) as H'.
  assert (Hc' : rb_count rb' = Z.min (rb_count rb + 1) (rb_size rb)).
  { rewrite Push_eq in HP by done. by injection HP as <-. }
  assert (He' : rb_entries rb' = <[Z.to_nat (rb_pos rb) := mkEntry sq d]> (rb_entries rb)).
  { rewrite Push_eq in HP by done. by injection HP as <-. }
  pose proof (ok_size _ H). pose proof (ok_count _ H). pose proof (ok_pos _ H).
  pose proof (ok_entries _ H).
  apply list_eq. intros k. rewrite list_lookup_lastn, length_app, length_contents. simpl.
  destruct (decide (k < Z.to_nat (rb_count rb'))%nat) as [Hk|Hk].
  2: { rewrite !lookup_ge_None_2; [done|..];
       rewrite ?length_app, ?length_contents; simpl; lia. }
  rewrite lookup_contents, He' by done.
  rewrite (slot_push rb sq d rb') by (done || lia).
  destruct (decide (k = Z.to_nat (rb_count rb') - 1)%nat) as [->|Hlast].
  - replace (if decide (rb_count rb < rb_size rb) then (Z.to_nat (rb_count rb') - 1)%nat
      else S (Z.to_nat (rb_count rb') - 1)) with (Z.to_nat (rb_count rb))
      by (case_decide; lia).
    rewrite slot_end, list_lookup_insert_eq by (done || lia).
    rewrite lookup_app_r by (rewrite length_contents; lia).
    rewrite length_contents.
    by replace (Z.to_nat (rb_count rb) + 1 - Z.to_nat (rb_size rb) +
      (Z.to_nat (rb_count rb') - 1) - Z.to_nat (rb_count rb))%nat with 0%nat by lia.
  - rewrite list_lookup_insert_ne.
    2: { apply not_eq_sym, slot_ne_pos; [done|..]; case_decide; lia. }
    rewrite lookup_app_l by (rewrite length_contents; lia).
    rewrite lookup_contents by (done || lia). do 2 f_equal. case_decide; lia.
Qed.

(** The loop of [EventsSince] filters the queue from the [i]-th event on. *)
Lemma collect_spec rb a n i : ring_ok rb -> (i + n = Z.to_nat (rb_count rb))%nat ->
  collect rb a n (Z.of_nat i) =
  Some (e_data <$> List.filter (fun e => a <? e_seq e) (drop i (contents rb))).
Proof.
  intros H. revert i. induction n as [|n IH]; intros i Hi; simpl.
  - by rewrite drop_ge by (rewrite length_contents; lia).
  - pose proof (lookup_contents rb i ltac:(lia) H) as Hl.
    destruct (lookup_lt_is_Some_2 (contents rb) i) as [e He];
      [rewrite length_contents; lia|].
    rewrite (drop_S _ _ _ He).
    assert (slice_get (rb_entries rb) (Z.rem (oldestIdx rb + Z.of_nat i) (rb_size rb)) = Some e)
      as ->.
    { apply slice_get_Some. split; [|by rewrite <- He, Hl].
      pose proof (ok_size _ H). rewrite oldestIdx_slot by done. apply Z.rem_nonneg; lia. }
    simpl. replace (Z.of_nat i + 1) with (Z.of_nat (S i)) by lia.
    rewrite IH by lia. simpl. by destruct (a <? e_seq e).
Qed.

(** [EventsSince] in terms of the queue. *)
Lemma EventsSince_spec rb a : ring_ok rb ->
  EventsSince rb a = Some (
    match contents rb with
    | [] => None
    | o :: _ =>
        if a <? e_seq o then None
        else go_slice (e_data <$> List.filter (fun e => a <? e_seq e) (contents rb))
    end).
Proof.
  intros H. unfold EventsSince. pose proof (length_contents rb) as Hlen.
  pose proof (ok_count _ H). destruct (Z.eqb_spec (rb_count rb) 0) as [E|E].
  - rewrite E in Hlen. by destruct (contents rb).
  - destruct (contents rb) as [|o l] eqn:Hc; [simpl in Hlen; lia|].
    assert (slice_get (rb_entries rb) (oldestIdx rb) = Some o) as ->.
    { rewrite oldestIdx_slot by done. apply slice_get_Some. split; [lia|].
      rewrite Nat2Z.id, <- lookup_contents by (done || lia). by rewrite Hc. }
    pose proof (collect_spec rb a (Z.to_nat (rb_count rb)) 0 H eq_refl) as Hl.
    rewrite Hc in Hl. change (Z.of_nat 0) with 0 in Hl. rewrite drop_0 in Hl.
    cbn [mbind option_bind]. rewrite Hl. by destruct (a <? e_seq o).
Qed.

Lemma OldestSeq_spec rb : ring_ok rb ->
  OldestSeq rb = Some (match contents rb with [] => 0 | o :: _ => e_seq o end).
Proof.
  intros H. unfold OldestSeq. pose proof (length_contents rb) as Hlen.
  pose proof (ok_count _ H). destruct (Z.eqb_spec (rb_count rb) 0) as [E|E].
  - rewrite E in Hlen. by destruct (contents rb).
  - destruct (contents rb) as [|o l] eqn:Hc; [simpl in Hlen; lia|].
    assert (slice_get (rb_entries rb) (oldestIdx rb) = Some o) as ->; [|done].
    rewrite oldestIdx_slot by done. apply slice_get_Some. split; [lia|].
    rewrite Nat2Z.id, <- lookup_contents by (done || lia). by rewrite Hc.
Qed.

(** A run of pushes starting from a buffer. *)
Fixpoint pushes (rb : EventRingBuffer) (es : list eventEntry) : option EventRingBuffer :=
  match es with
  | [] => Some rb
  | e :: es => rb' ← Push rb (e_seq e) (e_data e); pushes rb' es
  end.

Lemma pushes_contents rb es : ring_ok rb ->
  exists rb', pushes rb es = Some rb' /\ ring_ok rb' /\ rb_size rb' = rb_size rb /\
    contents rb' = match es with [] => contents rb
                   | _ => lastn (Z.to_nat (rb_size rb)) (contents rb ++ es) end.
Proof.
  revert rb. induction es as [|e es IH]; intros rb H; simpl; [eauto|].
  rewrite Push_eq by done. set (rb1 := mkRing _ _ _ _). simpl.
  assert (HP : Push rb (e_seq e) (e_data e) = Some rb1) by by rewrite Push_eq.
  destruct (IH rb1) as (rb' & -> & H' & Hs & Hc); [by eapply Push_ok|].
  exists rb'. rewrite Hs, Hc. repeat split; try apply H'.
  rewrite (Push_contents rb (e_seq e) (e_data e) rb1) by done.
  destruct e as [sq d]. simpl. destruct es as [|e' es]; [done|].
  change (rb_size rb1) with (rb_size rb).
  rewrite lastn_app_lastn, <- app_assoc. done.
Qed.

(** Strictly increasing sequence numbers. *)
Definition seq_increasing (es : list eventEntry) : Prop :=
  StronglySorted (fun e1 e2 => e_seq e1 < e_seq e2) es.

Lemma seq_increasing_app es1 es2 e1 e2 : seq_increasing (es1 ++ es2) ->
  e1 ∈ es1 -> e2 ∈ es2 -> e_seq e1 < e_seq e2.
Proof.
  unfold seq_increasing. induction es1 as [|e es1 IH]; simpl; intros Hs H1 H2.
  - by apply not_elem_of_nil in H1.
  - apply StronglySorted_inv in Hs as [Hs Hall].
    apply elem_of_cons in H1 as [->|H1]; [|by apply IH].
    rewrite Forall_forall in Hall. apply Hall, elem_of_app. by right.
Qed.

Lemma filter_all_false {A} (p : A -> bool) l :
  (forall x, x ∈ l -> p x = false) -> List.filter p l = [].
Proof.
  induction l as [|x l IH]; simpl; intros H; [done|].
  rewrite (H x (list_elem_of_here _ _)). apply IH. intros y Hy. by apply H, list_elem_of_further.
Qed.

End Ring.
Import Ring.

(** A push never panics on a well-formed buffer, keeps it well formed, and
    makes its contents the last [size] events of the old contents followed by
    the new event: the cyclic array refines a bounded queue. *)
Theorem Push_refines_queue rb sq d (H : ring_ok rb) :
  exists rb', Push rb sq d = Some rb' /\ ring_ok rb' /\ rb_size rb' = rb_size rb /\
    contents rb' = lastn (Z.to_nat (rb_size rb)) (contents rb ++ [mkEntry sq d]).
Proof.
  pose proof (Push_eq rb sq d H) as HP. eexists. split; [exact HP|].
  split; [by eapply Push_ok|]. split; [done|]. by apply Push_contents.
Qed.

Lemma Push_refines_queue_witness :
  ring_ok (NewEventRingBuffer 2) /\
  exists rb', Push (NewEventRingBuffer 2) 7 "m" = Some rb' /\ ring_ok rb' /\ rb_size rb' = 2 /\
    contents rb' = lastn 2 [mkEntry 7 "m"].
Proof.
  split; [apply new_ok; lia|].
  apply (Push_refines_queue (NewEventRingBuffer 2) 7 "m"). apply new_ok. lia.
Defined.

(** Replay is exact. After any run of pushes with strictly increasing
    sequence numbers into a fresh buffer, asking for the events since [a]
    returns, without a panic, every pushed event later than [a] in order (as a
    Go slice, so nil when there is none) whenever [a] is not older than the
    oldest buffered event, and nil when it is. *)
Theorem EventsSince_exact n es a
    (Hn : 0 < n) (Hs : seq_increasing es) :
  exists rb, pushes (NewEventRingBuffer n) es = Some rb /\
    EventsSince rb a = Some (
      match lastn (Z.to_nat n) es with
      | [] => None
      | o :: _ =>
          if a <? e_seq o then None
          else go_slice (e_data <$> List.filter (fun e => a <? e_seq e) es)
      end).
Proof.
  destruct (pushes_contents (NewEventRingBuffer n) es (new_ok n Hn)) as (rb & HP & H & _ & Hc).
  exists rb. split; [exact HP|]. rewrite EventsSince_spec by done.
  assert (contents rb = lastn (Z.to_nat n) es) as ->
    by (rewrite Hc; by destruct es).
  destruct (lastn_suffix (Z.to_nat n) es) as [k Hk].
  destruct (lastn (Z.to_nat n) es) as [|o l] eqn:Hl; [done|].
  destruct (a <? e_seq o) eqn:Ha; [done|]. bools.
  rewrite Hk, List.filter_app. rewrite (filter_all_false _ k); [done|].
  intros e He. apply Z.ltb_ge.
  rewrite Hk in Hs. pose proof (seq_increasing_app k (o :: l) e o Hs He (list_elem_of_here _ _)).
  lia.
Qed.

Lemma EventsSince_exact_witness :
  seq_increasing [mkEntry 1 "a"; mkEntry 2 "b"; mkEntry 3 "c"] /\
  exists rb, pushes (NewEventRingBuffer 2) [mkEntry 1 "a"; mkEntry 2 "b"; mkEntry 3 "c"] = Some rb /\
    EventsSince rb 2 = Some (Some ["c"%string]).
Proof.
  assert (Hs : seq_increasing [mkEntry 1 "a"; mkEntry 2 "b"; mkEntry 3 "c"]).
  { repeat constructor; simpl; lia. }
  split; [exact Hs|].
  apply (EventsSince_exact 2 [mkEntry 1 "a"; mkEntry 2 "b"; mkEntry 3 "c"] 2); [lia|exact Hs].
Defined.
