(* ===== verification/RateLimiter.v ===== *)
(** * The sliding-window rate limiter

    Model of Server/auth/ratelimit.go. Times are nanoseconds on one clock
    ([Z]); the mutex makes each method atomic, so each is a function from the
    limiter and the clock readings the method takes. The entries behind the two
    maps are reached from nowhere else, so the maps hold their values.
    [StartCleanup] is the ticker loop that calls [Cleanup]: a trace below may
    contain any number of [Cleanup] calls at any time. *)

From S2P Require Import Prelude.
#[local] Open Scope Z_scope.

Module Limiter.

Record RateLimiter := mkLimiter {
  windows : gmap string (list Z);
  lockouts : gmap string Z
}.

Definition NewRateLimiter : RateLimiter := mkLimiter ∅ ∅.

(** The timestamps after [cutoff], in order. *)
Definition prune (cutoff : Z) (ts : list Z) : list Z := List.filter (fun t => cutoff <? t) ts.

(** [tLock] is the clock read of the lockout test, [now] the later one. *)
Definition Allow (r : RateLimiter) (key : string) (limit window tLock now : Z)
    : bool * RateLimiter :=
  let locked := match lockouts r !! key with Some exp => tLock <? exp | None => false end in
  if locked then (false, r)
  else
    let los := delete key (lockouts r) in
    let valid := prune (now - window) (default [] (windows r !! key)) in
    if limit <=? Z.of_nat (length valid)
    then (false, mkLimiter (<[key := valid]> (windows r)) los)
    else (true, mkLimiter (<[key := valid ++ [now]]> (windows r)) los).

Definition Lockout (r : RateLimiter) (key : string) (duration now : Z) : RateLimiter :=
  mkLimiter (windows r) (<[key := now + duration]> (lockouts r)).

Definition IsLockedOut (r : RateLimiter) (key : string) (now : Z) : bool * RateLimiter :=
  match lockouts r !! key with
  | None => (false, r)
  | Some exp =>
      if now <? exp then (true, r)
      else (false, mkLimiter (windows r) (delete key (lockouts r)))
  end.

Definition Reset (r : RateLimiter) (key : string) : RateLimiter :=
  mkLimiter (delete key (windows r)) (delete key (lockouts r)).

(** [tCut] and [now] are the two clock reads of the method. *)
Definition Cleanup (r : RateLimiter) (maxWindow tCut now : Z) : RateLimiter :=
  let cutoff := tCut - maxWindow in
  mkLimiter
    (filter (fun kv => existsb (fun t => cutoff <? t) kv.2 = true) (windows r))
    (filter (fun kv => (kv.2 <? now) = false) (lockouts r)).

(** The cleaning goroutine: each wake-up is a tick, with the two clock reads of
    its clean-up, or the closed stop channel ([None]), at which it ends. The
    result tells whether it has ended. *)
Fixpoint StartCleanup (r : RateLimiter) (maxWindow : Z) (wakes : list (option (Z * Z))) : RateLimiter * bool :=
  match wakes with
  | [] => (r, false)
  | None :: _ => (r, true)
  | Some (tCut, now) :: wakes => StartCleanup (Cleanup r maxWindow tCut now) maxWindow wakes
  end.

Definition Len (r : RateLimiter) : nat * nat := (size (windows r), size (lockouts r)).

(** The timestamps recorded for a key. *)
Definition stamps (r : RateLimiter) (key : string) : list Z := default [] (windows r !! key).

(** The lockout of a key that is still in force at [t]. *)
Definition live_lockout (r : RateLimiter) (t : Z) (key : string) : option Z :=
  match lockouts r !! key with
  | Some exp => if t <? exp then Some exp else None
  | None => None
  end.

(** ** Pruning *)

Lemma prune_prune c c' ts : c <= c' -> prune c' (prune c ts) = prune c' ts.
Proof.
  intros Hc. unfold prune. induction ts as [|t ts IH]; simpl; [done|].
  destruct (Z.ltb_spec c t); simpl; destruct (Z.ltb_spec c' t); simpl; rewrite ?IH; try done; lia.
Qed.

Lemma prune_later c c' l1 l2 : c <= c' -> prune c l1 = prune c l2 -> prune c' l1 = prune c' l2.
Proof. intros Hc H. by rewrite <- (prune_prune c c' l1), H, prune_prune. Qed.

Lemma prune_app c l1 l2 : prune c (l1 ++ l2) = prune c l1 ++ prune c l2.
Proof. apply List.filter_app. Qed.

Lemma prune_none c ts : existsb (fun t => c <? t) ts = false -> prune c ts = [].
Proof.
  unfold prune. induction ts as [|t ts IH]; simpl; intros H; [done|].
  bools. destruct (Z.ltb_spec c t); [lia|]. by apply IH.
Qed.

Lemma stamps_Allow_ne r key key' limit window tl now : key <> key' ->
  stamps (Allow r key limit window tl now).2 key' = stamps r key'.
Proof.
  intros Hne. unfold Allow, stamps.
  destruct (match lockouts r !! key with Some exp => tl <? exp | None => false end); [done|].
  destruct (limit <=? _); simpl; by rewrite lookup_insert_ne.
Qed.

Lemma live_Allow_ne r key key' limit window tl now t : key <> key' ->
  live_lockout (Allow r key limit window tl now).2 t key' = live_lockout r t key'.
Proof.
  intros Hne. unfold Allow, live_lockout.
  destruct (match lockouts r !! key with Some exp => tl <? exp | None => false end); [done|].
  destruct (limit <=? _); simpl; by rewrite lookup_delete_ne.
Qed.

(** What [Allow] decides, through the observations of its key. *)
Lemma Allow_result r key limit window tl now :
  (Allow r key limit window tl now).1 =
  match live_lockout r tl key with
  | Some _ => false
  | None => negb (limit <=? Z.of_nat (length (prune (now - window) (stamps r key))))
  end.
Proof.
  unfold Allow, live_lockout, stamps. destruct (lockouts r !! key) as [exp|].
  - destruct (tl <? exp); [done|]. by destruct (limit <=? _).
  - by destruct (limit <=? _).
Qed.

Lemma Allow_stamps r key limit window tl now :
  stamps (Allow r key limit window tl now).2 key =
  match live_lockout r tl key with
  | Some _ => stamps r key
  | None =>
      let valid := prune (now - window) (stamps r key) in
      if (Allow r key limit window tl now).1 then valid ++ [now] else valid
  end.
Proof.
  rewrite Allow_result. unfold Allow, live_lockout, stamps.
  destruct (lockouts r !! key) as [exp|]; [destruct (tl <? exp); [done|]|];
    (destruct (limit <=? _); simpl; by rewrite lookup_insert_eq).
Qed.

Lemma Allow_live r key limit window tl now t : tl <= t ->
  live_lockout (Allow r key limit window tl now).2 t key = live_lockout r t key.
Proof.
  intros Ht. unfold Allow, live_lockout. destruct (lockouts r !! key) as [exp|] eqn:He.
  - destruct (Z.ltb_spec tl exp); simpl; [by rewrite He|].
    destruct (Z.ltb_spec t exp); [lia|]. destruct (limit <=? _); simpl; by rewrite lookup_delete_eq.
  - destruct (limit <=? _); simpl; by rewrite lookup_delete_eq.
Qed.

(** ** Observational equivalence

    Two limiters agree from time [t] on for windows up to [w] when they hold
    the same timestamps younger than [w] and the same live lockouts. *)

Definition obs_eq (w t : Z) (r1 r2 : RateLimiter) : Prop :=
  forall key, prune (t - w) (stamps r1 key) = prune (t - w) (stamps r2 key) /\
    live_lockout r1 t key = live_lockout r2 t key.

#[export] Instance obs_eq_equiv w t : Equivalence (obs_eq w t).
Proof.
  split.
  - intros r key. done.
  - intros r1 r2 H key. destruct (H key) as [-> ->]. done.
  - intros r1 r2 r3 H12 H23 key. destruct (H12 key) as [-> ->]. apply H23.
Qed.

Lemma live_later r t t' key : t <= t' -> live_lockout r t' key =
  match live_lockout r t key with
  | Some exp => if t' <? exp then Some exp else None
  | None => None
  end.
Proof.
  intros Ht. unfold live_lockout. destruct (lockouts r !! key) as [exp|]; [|done].
  destruct (Z.ltb_spec t exp); [done|]. destruct (Z.ltb_spec t' exp); [lia|done].
Qed.

Lemma obs_eq_later w t t' r1 r2 : t <= t' -> obs_eq w t r1 r2 -> obs_eq w t' r1 r2.
Proof.
  intros Ht H key. destruct (H key) as [Hs Hl]. split.
  - eapply prune_later, Hs. lia.
  - by rewrite !(live_later _ t t') by done; rewrite Hl.
Qed.

(** Equivalent limiters answer [Allow] alike and stay equivalent. *)
Lemma obs_eq_Allow w t r1 r2 key limit window tl now :
  obs_eq w t r1 r2 -> window <= w -> t <= tl -> tl <= now ->
  (Allow r1 key limit window tl now).1 = (Allow r2 key limit window tl now).1 /\
  obs_eq w now (Allow r1 key limit window tl now).2 (Allow r2 key limit window tl now).2.
Proof.
  intros H Hw Ht Hn. pose proof (obs_eq_later w t tl _ _ Ht H) as Htl.
  pose proof (obs_eq_later w t now _ _ ltac:(lia) H) as Hnow.
  destruct (Htl key) as [_ El]. destruct (Hnow key) as [Es _].
  assert (Ep : prune (now - window) (stamps r1 key) = prune (now - window) (stamps r2 key))
    by (eapply prune_later, Es; lia).
  assert (Er : (Allow r1 key limit window tl now).1 = (Allow r2 key limit window tl now).1)
    by by rewrite !Allow_result, El, Ep.
  split; [exact Er|]. intros key'. destruct (decide (key = key')) as [<-|Hne].
  - rewrite !Allow_stamps, !Allow_live by lia. rewrite <- Er, El, Ep.
    split; [|apply Hnow]. by destruct (live_lockout r2 tl key).
  - rewrite !stamps_Allow_ne, !live_Allow_ne by done. apply Hnow.
Qed.

#[export] Instance Allow_proper w t key limit window :
  window <= w -> Proper (obs_eq w t ==> eq) (fun r => (Allow r key limit window t t).1).
Proof. intros Hw r1 r2 H. by apply (obs_eq_Allow w t r1 r2 key limit window t t H). Qed.

Lemma stamps_Cleanup r mw tc now key c : tc - mw <= c ->
  prune c (stamps (Cleanup r mw tc now) key) = prune c (stamps r key).
Proof.
  intros Hc. unfold stamps, Cleanup. simpl.
  rewrite map_lookup_filter. destruct (windows r !! key) as [ts|]; [|done]. simpl.
  case_guard as Hg; simpl in *; [done|].
  rewrite <- (prune_prune (tc - mw) c ts) by lia.
  by rewrite (prune_none (tc - mw) ts) by by apply not_true_is_false.
Qed.

Lemma live_Cleanup r mw tc now key t : now <= t ->
  live_lockout (Cleanup r mw tc now) t key = live_lockout r t key.
Proof.
  intros Ht. unfold live_lockout, Cleanup. simpl.
  rewrite map_lookup_filter. destruct (lockouts r !! key) as [exp|]; [|done]. simpl.
  case_guard as Hg; simpl; [done|].
  destruct (Z.ltb_spec exp now); [|done]. destruct (Z.ltb_spec t exp); [lia|done].
Qed.

(** ** Traces of calls *)

Inductive op :=
| OpAllow (key : string) (limit window : Z)
| OpLockout (key : string) (duration : Z)
| OpIsLockedOut (key : string)
| OpReset (key : string)
| OpCleanup (maxWindow : Z).

(** One call at time [t]; the boolean is the answer of [Allow]. *)
Definition step (t : Z) (o : op) (r : RateLimiter) : bool * RateLimiter :=
  match o with
  | OpAllow key limit window => Allow r key limit window t t
  | OpLockout key d => (false, Lockout r key d t)
  | OpIsLockedOut key => (false, (IsLockedOut r key t).2)
  | OpReset key => (false, Reset r key)
  | OpCleanup mw => (false, Cleanup r mw t t)
  end.

(** The limiter after a trace of timed calls, and the times at which [Allow]
    granted [key], in order. *)
Fixpoint run (key : string) (tr : list (Z * op)) (r : RateLimiter) (granted : list Z)
    : RateLimiter * list Z :=
  match tr with
  | [] => (r, granted)
  | (t, o) :: tr =>
      let '(ok, r') := step t o r in
      let mine := match o with OpAllow k _ _ => bool_decide (k = key) | _ => false end in
      run key tr r' (if ok && mine then granted ++ [t] else granted)
  end.

(** The calls that share one budget: every [Allow] of [key] uses this limit and
    window, nothing resets the key, and cleanups keep at least the window. *)
Definition one_budget (key : string) (limit window : Z) (o : op) : Prop :=
  match o with
  | OpAllow k l w => k = key -> l = limit /\ w = window
  | OpReset k => k <> key
  | OpCleanup mw => window <= mw
  | _ => True
  end.

(** Grants in the half-open interval of length [window] ending at [t]. *)
Definition granted_in (window t : Z) (granted : list Z) : nat :=
  countb (fun g => (t - window <? g) && (g <=? t)) granted.

Record budget_inv (key : string) (limit window last : Z) (r : RateLimiter) (granted : list Z)
    : Prop := {
  bi_past : Forall (fun g => g <= last) granted;
  bi_stamps : prune (last - window) (stamps r key) = prune (last - window) granted;
  bi_bound : forall t, Z.of_nat (granted_in window t granted) <= Z.max 0 limit
}.

Lemma granted_in_prune window t granted : Forall (fun g => g <= t) granted ->
  granted_in window t granted = length (prune (t - window) granted).
Proof.
  unfold granted_in, countb, prune. intros H. f_equal.
  induction H as [|g l Hg _ IH]; simpl; [done|].
  rewrite IH. by rewrite (proj2 (Z.leb_le g t) Hg), andb_true_r.
Qed.

Lemma budget_later key limit window t t' r granted : t <= t' ->
  budget_inv key limit window t r granted -> budget_inv key limit window t' r granted.
Proof.
  intros Ht [Hp Hs Hb]. split; [|eapply prune_later, Hs; lia|done].
  eapply Forall_impl; [exact Hp|]. simpl. lia.
Qed.

(** A call that leaves the young timestamps of the key alone keeps the budget. *)
Lemma budget_same key limit window t r r' granted :
  prune (t - window) (stamps r' key) = prune (t - window) (stamps r key) ->
  budget_inv key limit window t r granted -> budget_inv key limit window t r' granted.
Proof. intros E [Hp Hs Hb]. split; [done|by rewrite E|done]. Qed.

(** A grant at [t], with fewer than [limit] grants in the last window. *)
Lemma bound_grant limit window t granted : 0 < window ->
  Forall (fun g => g <= t) granted ->
  Z.of_nat (length (prune (t - window) granted)) < limit ->
  (forall t', Z.of_nat (granted_in window t' granted) <= Z.max 0 limit) ->
  forall t', Z.of_nat (granted_in window t' (granted ++ [t])) <= Z.max 0 limit.
Proof.
  intros Hw Hp Hlen Hb t'. unfold granted_in. rewrite countb_app.
  destruct (Z.ltb_spec t' t).
  - specialize (Hb t'). unfold granted_in in Hb. unfold countb at 2. simpl.
    rewrite (proj2 (Z.leb_gt t t')), andb_false_r by lia. simpl. lia.
  - rewrite <- granted_in_prune in Hlen by done. unfold granted_in in Hlen.
    assert (Hle : Nat.le (countb (fun g => (t' - window <? g) && (g <=? t')) granted)
      (countb (fun g => (t - window <? g) && (g <=? t)) granted)).
    { apply countb_le. intros g Hg Hc. bools. rewrite Forall_forall in Hp. specialize (Hp g Hg).
      apply andb_true_iff. split; [apply Z.ltb_lt|apply Z.leb_le]; lia. }
    assert (Nat.le (countb (fun g => (t' - window <? g) && (g <=? t')) [t]) 1) by
      (unfold countb; simpl; destruct (_ && _); simpl; lia).
    lia.
Qed.

Lemma budget_Allow key limit window t r granted : 0 < window ->
  budget_inv key limit window t r granted ->
  budget_inv key limit window t (Allow r key limit window t t).2
    (if (Allow r key limit window t t).1 then granted ++ [t] else granted).
Proof.
  intros Hw [Hp Hs Hb]. pose proof (Allow_stamps r key limit window t t) as Es.
  rewrite Allow_result in *. destruct (live_lockout r t key).
  - split; [done| |done]. by rewrite Es.
  - rewrite Hs in *. destruct (Z.leb_spec limit (Z.of_nat (length (prune (t - window) granted))));
      simpl in *.
    + split; [done| |done]. by rewrite Es, prune_prune by lia.
    + split.
      * apply Forall_app. split; [done|]. by apply Forall_singleton.
      * by rewrite Es, !prune_app, prune_prune by lia.
      * by apply bound_grant.
Qed.

Lemma stamps_Lockout r k d t key : stamps (Lockout r k d t) key = stamps r key.
Proof. done. Qed.

Lemma stamps_IsLockedOut r k t key : stamps (IsLockedOut r k t).2 key = stamps r key.
Proof. unfold IsLockedOut. destruct (lockouts r !! k); [|done]. by destruct (t <? _). Qed.

Lemma stamps_Reset_ne r k key : k <> key -> stamps (Reset r k) key = stamps r key.
Proof. intros H. unfold stamps, Reset. simpl. by rewrite lookup_delete_ne. Qed.

Lemma budget_step key limit window t o r granted : 0 < window ->
  one_budget key limit window o -> budget_inv key limit window t r granted ->
  budget_inv key limit window t (step t o r).2
    (if (step t o r).1 && match o with OpAllow k _ _ => bool_decide (k = key) | _ => false end
     then granted ++ [t] else granted).
Proof.
  intros Hw Ho H. destruct o as [k l w|k d|k|k|mw]; simpl in *.
  - case_bool_decide as Hk.
    + subst. destruct (Ho eq_refl) as [-> ->]. rewrite andb_true_r. by apply budget_Allow.
    + rewrite andb_false_r. eapply budget_same; [|exact H]. by rewrite stamps_Allow_ne.
  - eapply budget_same; [|exact H]. done.
  - eapply budget_same; [|exact H]. by rewrite stamps_IsLockedOut.
  - eapply budget_same; [|exact H]. by rewrite stamps_Reset_ne.
  - eapply budget_same; [|exact H]. apply stamps_Cleanup. lia.
Qed.

(** Times of a trace do not go back. *)
Fixpoint chronological (last : Z) (tr : list (Z * op)) : Prop :=
  match tr with
  | [] => True
  | (t, _) :: tr => last <= t /\ chronological t tr
  end.

Lemma budget_run key limit window tr last r granted : 0 < window ->
  chronological last tr -> Forall (fun to => one_budget key limit window to.2) tr ->
  budget_inv key limit window last r granted ->
  exists last', budget_inv key limit window last' (run key tr r granted).1 (run key tr r granted).2.
Proof.
  intros Hw. revert last r granted.
  induction tr as [|[t o] tr IH]; intros last r granted Hc Ho H; simpl in *; [eauto|].
  destruct Hc as [Ht Hc]. apply Forall_cons in Ho as [Ho Hos]. simpl in Ho.
  pose proof (budget_step key limit window t o r granted Hw Ho (budget_later _ _ _ _ _ _ _ Ht H)) as H'.
  destruct (step t o r) as [ok r']. simpl in H'. by eapply IH.
Qed.

End Limiter.
Import Limiter.

(** The sliding window is never exceeded. Over any trace of limiter calls
    with non-decreasing times that starts from an empty limiter, in which the
    requests of one key share one limit and window, the key is not reset, and
    cleanups use at least that window (other keys and lockouts arbitrary), no
    half-open interval of one window length contains more than [limit] grants. *)
Theorem Allow_sliding_window key limit window tr
    (Hw : 0 < window) (Hc : chronological 0 tr)
    (Ho : Forall (fun to => one_budget key limit window to.2) tr) :
  forall t, Z.of_nat (granted_in window t (run key tr NewRateLimiter []).2) <= Z.max 0 limit.
Proof.
  destruct (budget_run key limit window tr 0 NewRateLimiter []) as [last H]; try done.
  - split; [done|done|]. intros t. unfold granted_in. rewrite countb_nil. lia.
  - apply H.
Qed.

Lemma Allow_sliding_window_witness :
  let tr := [(1, OpAllow "chat:7" 2 10); (2, OpAllow "chat:7" 2 10);
             (3, OpAllow "chat:7" 2 10); (4, OpCleanup 10); (12, OpAllow "chat:7" 2 10)] in
  (run "chat:7" tr NewRateLimiter []).2 = [1; 2; 12] /\
  forall t, Z.of_nat (granted_in 10 t (run "chat:7" tr NewRateLimiter []).2) <= Z.max 0 2.
Proof.
  intros tr. split; [by vm_compute|].
  apply (Allow_sliding_window "chat:7" 2 10 tr); [lia|simpl; lia|].
  repeat constructor; simpl; auto; lia.
Defined.

(** [Cleanup maxWindow] is unobservable: after it, every sequence of
    requests with windows up to [maxWindow] (and any lockout test) is answered
    as if it had not run, because the limiter keeps the same young timestamps
    and live lockouts and [Allow] preserves that agreement. *)
Theorem Cleanup_unobservable r mw t :
  obs_eq mw t (Cleanup r mw t t) r /\
  (forall key limit window tl now r',
     obs_eq mw t r' r -> window <= mw -> t <= tl -> tl <= now ->
     (Allow r' key limit window tl now).1 = (Allow r key limit window tl now).1 /\
     obs_eq mw now (Allow r' key limit window tl now).2 (Allow r key limit window tl now).2) /\
  (forall key t' r', obs_eq mw t r' r -> t <= t' ->
     (IsLockedOut r' key t').1 = (IsLockedOut r key t').1).
Proof.
  split; [|split].
  - intros key. split; [apply stamps_Cleanup; lia|apply live_Cleanup; lia].
  - intros. by apply (obs_eq_Allow mw t).
  - intros key t' r' H Ht. destruct (obs_eq_later _ _ _ _ _ Ht H key) as [_ Hl].
    unfold live_lockout in Hl. unfold IsLockedOut.
    destruct (lockouts r' !! key), (lockouts r !! key);
      repeat match goal with |- context [t' <? ?e] => destruct (t' <? e) end;
      simpl in *; congruence.
Qed.

(** A lockout set at [t] for [d] refuses every request of its key until
    [t + d] without recording anything, and from then on no longer counts;
    other keys are answered as before it. *)
Theorem Lockout_effect r key d t limit window tl now :
  (tl < t + d ->
     Allow (Lockout r key d t) key limit window tl now = (false, Lockout r key d t) /\
     (IsLockedOut (Lockout r key d t) key tl).1 = true) /\
  (t + d <= tl ->
     (IsLockedOut (Lockout r key d t) key tl).1 = false /\
     (Allow (Lockout r key d t) key limit window tl now).1 =
       negb (limit <=? Z.of_nat (length (prune (now - window) (stamps r key))))) /\
  (forall key', key' <> key ->
     (Allow (Lockout r key d t) key' limit window tl now).1 =
     (Allow r key' limit window tl now).1).
Proof.
  split; [|split].
  - intros H. unfold Allow, IsLockedOut. simpl. rewrite lookup_insert_eq.
    by rewrite (proj2 (Z.ltb_lt tl (t + d)) H).
  - intros H. rewrite Allow_result. unfold live_lockout, IsLockedOut. simpl.
    rewrite lookup_insert_eq. by rewrite (proj2 (Z.ltb_ge tl (t + d)) H).
  - intros key' H. rewrite !Allow_result. unfold live_lockout. simpl.
    by rewrite lookup_insert_ne.
Qed.
