(* ===== verification/GoText.v ===== *)
(** * Strings of the Go standard library the server relies on

    Go strings are byte strings ([String.string], one [ascii] per byte). This
    file models the parts of the standard library that the server applies to
    them: UTF-8 decoding ([range] over a string, [[]rune(s)]), [%d] formatting
    and [strconv.ParseInt], ASCII case folding, prefixes and trimming. *)

From S2P Require Import Prelude.
From Stdlib Require Import Ascii.
#[local] Open Scope Z_scope.

Module Text.

(** ** Bytes *)

Definition byte_of (c : ascii) : Z := Z.of_N (Ascii.N_of_ascii c).
Definition of_byte (b : Z) : ascii := Ascii.ascii_of_N (Z.to_N b).
Definition chr (b : Z) (s : string) : string := String (of_byte b) s.

Fixpoint bytes_of (s : string) : list Z :=
  match s with
  | EmptyString => []
  | String c s => byte_of c :: bytes_of s
  end.

Fixpoint string_of (l : list Z) : string :=
  match l with
  | [] => EmptyString
  | b :: l => chr b (string_of l)
  end.

Definition in_range (b lo hi : Z) : bool := (lo <=? b) && (b <=? hi).

(** ** UTF-8 *)

Definition RuneError : Z := 0xFFFD.

(** Value bits of a continuation byte. *)
Definition cont (b : Z) : Z := Z.land b 0x3F.

(** [utf8.DecodeRune] on a non-empty slice: the rune and the number of bytes it
    takes; an ill-formed sequence is [RuneError] of width 1. *)
Definition decode_rune (l : list Z) : Z * nat :=
  let err := (RuneError, 1%nat) in
  match l with
  | [] => (RuneError, 0%nat)
  | b0 :: l1 =>
      if b0 <? 0x80 then (b0, 1%nat)
      else if in_range b0 0xC2 0xDF then
        match l1 with
        | b1 :: _ =>
            if in_range b1 0x80 0xBF
            then (Z.lor (Z.shiftl (Z.land b0 0x1F) 6) (cont b1), 2%nat) else err
        | _ => err
        end
      else if in_range b0 0xE0 0xEF then
        let lo := if b0 =? 0xE0 then 0xA0 else 0x80 in
        let hi := if b0 =? 0xED then 0x9F else 0xBF in
        match l1 with
        | b1 :: b2 :: _ =>
            if in_range b1 lo hi && in_range b2 0x80 0xBF
            then (Z.lor (Z.shiftl (Z.land b0 0x0F) 12)
                    (Z.lor (Z.shiftl (cont b1) 6) (cont b2)), 3%nat)
            else err
        | _ => err
        end
      else if in_range b0 0xF0 0xF4 then
        let lo := if b0 =? 0xF0 then 0x90 else 0x80 in
        let hi := if b0 =? 0xF4 then 0x8F else 0xBF in
        match l1 with
        | b1 :: b2 :: b3 :: _ =>
            if in_range b1 lo hi && in_range b2 0x80 0xBF && in_range b3 0x80 0xBF
            then (Z.lor (Z.shiftl (Z.land b0 0x07) 18)
                    (Z.lor (Z.shiftl (cont b1) 12)
                       (Z.lor (Z.shiftl (cont b2) 6) (cont b3))), 4%nat)
            else err
        | _ => err
        end
      else err
  end.

(** The runes of a byte list with the width of each; the fuel is the number of
    bytes, and every step takes at least one. *)
Fixpoint runes_fuel (n : nat) (l : list Z) : list (Z * nat) :=
  match n, l with
  | S n, _ :: _ => let '(r, w) := decode_rune l in (r, w) :: runes_fuel n (drop w l)
  | _, _ => []
  end.

Definition runes_w (l : list Z) : list (Z * nat) := runes_fuel (length l) l.
Definition runes (s : string) : list Z := (runes_w (bytes_of s)).*1.

(** [len([]rune(s))] *)
Definition rune_count (s : string) : Z := Z.of_nat (length (runes s)).

(** ** Integers in decimal *)

(** [fmt.Sprintf("%d", z)] *)
Definition itoa (z : Z) : string := pretty z.

Definition digit_of (c : ascii) : option Z :=
  let b := byte_of c in if in_range b 48 57 then Some (b - 48) else None.

(** The value of a string of digits, after a prefix worth [acc]. *)
Fixpoint parse_digits (acc : Z) (s : string) : option Z :=
  match s with
  | EmptyString => Some acc
  | String c s => d ← digit_of c; parse_digits (10 * acc + d) s
  end.

(** [strconv.ParseUint] base 10 without the range test. *)
Definition parse_nat (s : string) : option Z :=
  match s with EmptyString => None | _ => parse_digits 0 s end.

(** [strconv.ParseInt(s, 10, 64)]: [None] for a syntax or range error. *)
Definition ParseInt64 (s : string) : option Z :=
  let check (z : Z) := if in_range z (- two63) (two63 - 1) then Some z else None in
  match s with
  | String c rest =>
      if Ascii.eqb c "-" then parse_nat rest ≫= fun z => check (- z)
      else if Ascii.eqb c "+" then parse_nat rest ≫= check
      else parse_nat s ≫= check
  | EmptyString => None
  end.

(** ** Prefixes and case *)

(** [strings.HasPrefix] *)
Fixpoint HasPrefix (s p : string) : bool :=
  match p, s with
  | EmptyString, _ => true
  | String a p, String b s => Ascii.eqb a b && HasPrefix s p
  | _, _ => false
  end.

(** [s[n:]] for an [n] within the string. *)
Fixpoint skip (n : nat) (s : string) : string :=
  match n, s with
  | S n, String _ s => skip n s
  | _, _ => s
  end.

Definition TrimPrefix (s p : string) : string :=
  if HasPrefix s p then skip (String.length p) s else s.

Definition lower_byte (c : ascii) : ascii :=
  let b := byte_of c in if in_range b 65 90 then of_byte (b + 32) else c.

(** ASCII lower-casing ([strings.ToLower] on ASCII text). *)
Fixpoint lower (s : string) : string :=
  match s with
  | EmptyString => EmptyString
  | String c s => String (lower_byte c) (lower s)
  end.

(** ** Character classes and trimming *)

Definition in_ranges (r : Z) (l : list (Z * Z)) : bool :=
  existsb (fun '(lo, hi) => in_range r lo hi) l.

(** [unicode.IsSpace], [unicode.IsControl] and the category Cf. *)
Definition IsSpace (r : Z) : bool :=
  in_ranges r [(0x09, 0x0D); (0x20, 0x20); (0x85, 0x85); (0xA0, 0xA0); (0x1680, 0x1680);
    (0x2000, 0x200A); (0x2028, 0x2029); (0x202F, 0x202F); (0x205F, 0x205F); (0x3000, 0x3000)].

Definition IsControl (r : Z) : bool := in_ranges r [(0x00, 0x1F); (0x7F, 0x9F)].

Definition is_Cf (r : Z) : bool :=
  in_ranges r [(0xAD, 0xAD); (0x600, 0x605); (0x61C, 0x61C); (0x6DD, 0x6DD); (0x70F, 0x70F);
    (0x890, 0x891); (0x8E2, 0x8E2); (0x180E, 0x180E); (0x200B, 0x200F); (0x202A, 0x202E);
    (0x2060, 0x2064); (0x2066, 0x206F); (0xFEFF, 0xFEFF); (0xFFF9, 0xFFFB);
    (0x110BD, 0x110BD); (0x110CD, 0x110CD); (0x13430, 0x1343F); (0x1BCA0, 0x1BCA3);
    (0x1D173, 0x1D17A); (0xE0001, 0xE0001); (0xE0020, 0xE007F)].

Fixpoint drop_spaces (l : list (Z * nat)) : list (Z * nat) :=
  match l with
  | (r, w) :: l' => if IsSpace r then drop_spaces l' else l
  | [] => []
  end.

Definition total_width (l : list (Z * nat)) : nat := sum_list_with snd l.

(** [strings.TrimSpace] *)
Definition TrimSpace (s : string) : string :=
  let rs := runes_w (bytes_of s) in
  let mid := drop_spaces rs in
  let kept := rev (drop_spaces (rev mid)) in
  string_of (take (total_width kept) (drop (total_width rs - total_width mid) (bytes_of s))).

(** ** Lemmas *)

Lemma byte_of_range c : 0 <= byte_of c < 256.
Proof. unfold byte_of. pose proof (Ascii.N_ascii_bounded c). lia. Qed.

Lemma decode_rune_width l : l <> [] -> (1 <= (decode_rune l).2 <= 4)%nat.
Proof.
  intros H. destruct l as [|b0 l1]; [done|]. unfold decode_rune.
  repeat (case_match; simpl; try lia).
Qed.

Lemma runes_fuel_enough n m l : (length l <= n)%nat -> (length l <= m)%nat ->
  runes_fuel n l = runes_fuel m l.
Proof.
  revert m l. induction n as [|n IH]; intros m l Hn Hm.
  - by destruct l, m; simpl in *; try lia.
  - destruct m as [|m]; [by destruct l; simpl in *; try lia|].
    destruct l as [|b l]; [done|].
    pose proof (decode_rune_width (b :: l) ltac:(done)) as Hw.
    cbn [runes_fuel]. destruct (decode_rune (b :: l)) as [r w]. simpl in Hw. f_equal.
    apply IH; rewrite length_drop; simpl in *; lia.
Qed.

Lemma runes_fuel_length n l : (length (runes_fuel n l) <= length l)%nat.
Proof.
  revert l. induction n as [|n IH]; intros l; [simpl; lia|]. destruct l as [|b l]; [done|].
  pose proof (decode_rune_width (b :: l) ltac:(done)) as Hw. cbn [runes_fuel].
  destruct (decode_rune (b :: l)) as [r w]. simpl in Hw |- *.
  specialize (IH (drop w (b :: l))). rewrite length_drop in IH. simpl in IH. lia.
Qed.

Lemma length_bytes_of s : length (bytes_of s) = String.length s.
Proof. induction s; simpl; auto. Qed.

(** A string has at most as many runes as bytes. *)
Lemma rune_count_le s : rune_count s <= Z.of_nat (String.length s).
Proof.
  unfold rune_count, runes, runes_w. rewrite length_fmap, <- length_bytes_of.
  pose proof (runes_fuel_length (length (bytes_of s)) (bytes_of s)). lia.
Qed.

(** On ASCII text a rune is a byte. *)
Lemma runes_ascii l : Forall (fun b => b < 0x80) l -> runes_w l = (fun b => (b, 1%nat)) <$> l.
Proof.
  unfold runes_w. induction 1 as [|b l Hb _ IH]; [done|].
  cbn [length runes_fuel decode_rune]. rewrite (proj2 (Z.ltb_lt b 0x80) Hb).
  simpl. f_equal. rewrite drop_0. exact IH.
Qed.

Lemma digit_pretty d : (d < 10)%N -> digit_of (pretty_N_char d) = Some (Z.of_N d).
Proof.
  intros Hd.
  assert (d = 0 \/ d = 1 \/ d = 2 \/ d = 3 \/ d = 4 \/ d = 5 \/ d = 6 \/ d = 7 \/ d = 8 \/ d = 9)%N
    as Hcases by lia.
  by repeat destruct Hcases as [->|Hcases]; subst.
Qed.

Lemma parse_digits_pretty x s : parse_digits 0 (pretty_N_go x s) = parse_digits (Z.of_N x) s.
Proof.
  revert s. induction (N.lt_wf_0 x) as [x _ IH]; intros s.
  destruct (decide (0 < x)%N) as [Hx|Hx].
  - rewrite pretty_N_go_step by done. rewrite IH by (apply N.div_lt; lia). simpl.
    assert (Hd : digit_of (pretty_N_char (x `mod` 10)) = Some (Z.of_N (x `mod` 10)%N)).
    { apply digit_pretty, N.mod_upper_bound. lia. }
    rewrite Hd. cbn [mbind option_bind]. f_equal.
    rewrite (N.div_mod' x 10) at 3. lia.
  - assert (x = 0%N) as -> by lia. by rewrite pretty_N_go_0.
Qed.

Lemma pretty_N_pos x : (0 < x)%N -> exists c s, pretty x = String c s /\ digit_of c <> None.
Proof.
  intros Hx. unfold pretty, pretty_N. rewrite decide_False by lia.
  assert (H : parse_digits 0 (pretty_N_go x "") = Some (Z.of_N x)) by apply parse_digits_pretty.
  destruct (pretty_N_go x "") as [|c s]; [simpl in H; injection H; lia|].
  exists c, s. split; [done|]. simpl in H. by destruct (digit_of c).
Qed.

Lemma parse_nat_pretty x : parse_nat (pretty x) = Some (Z.of_N x).
Proof.
  destruct (decide (x = 0%N)) as [->|Hx]; [done|].
  destruct (pretty_N_pos x ltac:(lia)) as (c & s & E & _).
  assert (H : parse_digits 0 (pretty x) = Some (Z.of_N x)).
  { unfold pretty, pretty_N. rewrite decide_False by done. apply parse_digits_pretty. }
  unfold parse_nat. rewrite E in *. exact H.
Qed.

Lemma digit_not_sign c : digit_of c <> None -> Ascii.eqb c "-" = false /\ Ascii.eqb c "+" = false.
Proof.
  intros H. split; apply Ascii.eqb_neq; intros ->; by apply H.
Qed.

(** [ParseInt] reads back what [%d] prints. *)
Lemma ParseInt64_itoa z : is_int64 z -> ParseInt64 (itoa z) = Some z.
Proof.
  unfold is_int64, itoa, ParseInt64. intros Hz.
  assert (Hr : in_range z (- two63) (two63 - 1) = true)
    by (apply andb_true_iff; split; apply Z.leb_le; lia).
  destruct z as [|p|p]; [done| |].
  - change (pretty (Z.pos p)) with (pretty (N.pos p)).
    destruct (pretty_N_pos (N.pos p) ltac:(lia)) as (c & s & E & Hd).
    pose proof (parse_nat_pretty (N.pos p)) as Hp. rewrite E in *.
    destruct (digit_not_sign c Hd) as [-> ->]. rewrite Hp. cbn [mbind option_bind].
    change (Z.of_N (N.pos p)) with (Z.pos p). by rewrite Hr.
  - change (pretty (Z.neg p)) with (String "-" (pretty (N.pos p))). simpl (Ascii.eqb _ _).
    cbn match. rewrite parse_nat_pretty. cbn [mbind option_bind].
    change (- Z.of_N (N.pos p)) with (Z.neg p). by rewrite Hr.
Qed.

Lemma ParseInt64_range s z : ParseInt64 s = Some z -> is_int64 z.
Proof.
  unfold ParseInt64, is_int64, in_range. intros H. destruct s as [|c s]; [done|].
  repeat (destruct (Ascii.eqb _ _));
    apply bind_Some in H as (x & _ & H); destruct (_ && _) eqn:Hr; simplify_eq; bools; lia.
Qed.

Lemma HasPrefix_app p s : HasPrefix (p +:+ s) p = true.
Proof. induction p as [|c p IH]; simpl; [by destruct s|]. by rewrite Ascii.eqb_refl. Qed.

Lemma skip_app p s : skip (String.length p) (p +:+ s) = s.
Proof. induction p as [|c p IH]; simpl; [done|exact IH]. Qed.

#[export] Instance itoa_inj : Inj (=) (=) itoa.
Proof. intros x y H. by apply (inj pretty) in H. Qed.

End Text.
Export Text.
