(* ===== verification/Wire.v ===== *)
(** * WebSocket wire format

    Model of Server/ws/messages.go, message_types.go and errors.go and of the
    sequence-number injection of hub.go: JSON values, their compact encoding by
    [encoding/json] (struct fields in order, map keys sorted, HTML-escaped
    strings), the message builders, and the decoding of an inbound payload into
    a struct. An inbound frame is given by its JSON syntax tree, or [None] when
    its bytes are not one JSON value (or the payload member is absent). *)

From S2P Require Import Prelude GoText.
From Stdlib Require Import Ascii.
#[local] Open Scope string_scope.
#[local] Open Scope Z_scope.

Module Wire.

Inductive json :=
| JNull
| JBool (b : bool)
| JNum (literal : string)
| JStr (s : string)
| JArr (l : list json)
| JObj (members : list (string * json)).

Definition JInt (z : Z) : json := JNum (itoa z).
Definition JOpt {A} (f : A -> json) (o : option A) : json :=
  match o with Some a => f a | None => JNull end.

(** ** Encoding *)

Definition hex_digit (n : Z) : ascii := of_byte (if n <? 10 then 48 + n else 87 + n).

(** [\u00XX] *)
Definition u_escape (b : Z) : string :=
  "\u00" +:+ String (hex_digit (b / 16)) (String (hex_digit (b mod 16)) "").

(** One rune of a string, given by its bytes. *)
Definition escape_rune (r : Z) (bs : list Z) : string :=
  if r =? 34 then chr 92 (chr 34 "")
  else if r =? 92 then chr 92 (chr 92 "")
  else if r =? 8 then "\b"
  else if r =? 12 then "\f"
  else if r =? 10 then "\n"
  else if r =? 13 then "\r"
  else if r =? 9 then "\t"
  else if (r <? 32) || (r =? 60) || (r =? 62) || (r =? 38) then u_escape r
  else if (r =? RuneError) && Nat.eqb (length bs) 1 then "\ufffd"
  else if r =? 0x2028 then "\u2028"
  else if r =? 0x2029 then "\u2029"
  else string_of bs.

Fixpoint escape_fuel (n : nat) (l : list Z) : string :=
  match n, l with
  | S n, _ :: _ =>
      let '(r, w) := decode_rune l in
      escape_rune r (take w l) +:+ escape_fuel n (drop w l)
  | _, _ => ""
  end.

Definition quote (s : string) : string :=
  chr 34 (escape_fuel (String.length s) (bytes_of s) +:+ chr 34 "").

(** Elements separated by commas. *)
Fixpoint commas (l : list string) : string :=
  match l with
  | [] => ""
  | [x] => x
  | x :: l => x +:+ "," +:+ commas l
  end.

(** [json.Marshal]: the compact encoding. *)
Fixpoint render (j : json) : string :=
  match j with
  | JNull => "null"
  | JBool b => if b then "true" else "false"
  | JNum lit => lit
  | JStr s => quote s
  | JArr l => "[" +:+ commas (map render l) +:+ "]"
  | JObj ms => "{" +:+ commas (map (fun kv => quote kv.1 +:+ ":" +:+ render kv.2) ms) +:+ "}"
  end.

Definition buildJSON (v : json) : string := render v.

(** ** Error codes and message types *)

Definition ErrCodeBadRequest := "BAD_REQUEST".
Definition ErrCodeInternal := "INTERNAL".
Definition ErrCodeNotFound := "NOT_FOUND".
Definition ErrCodeForbidden := "FORBIDDEN".
Definition ErrCodeRateLimited := "RATE_LIMITED".
Definition ErrCodeAlreadyJoined := "ALREADY_JOINED".
Definition ErrCodeChannelFull := "CHANNEL_FULL".
Definition ErrCodeVoiceError := "VOICE_ERROR".
Definition ErrCodeVideoLimit := "VIDEO_LIMIT".
Definition ErrCodeBanned := "BANNED".
Definition ErrCodeInvalidJSON := "INVALID_JSON".
Definition ErrCodeUnknownType := "UNKNOWN_TYPE".
Definition ErrCodeSlowMode := "SLOW_MODE".
Definition ErrCodeConflict := "CONFLICT".

Definition MsgTypeChatSend := "chat_send".
Definition MsgTypeChatEdit := "chat_edit".
Definition MsgTypeChatDelete := "chat_delete".
Definition MsgTypeReactionAdd := "reaction_add".
Definition MsgTypeReactionRemove := "reaction_remove".
Definition MsgTypeTypingStart := "typing_start".
Definition MsgTypeChannelFocus := "channel_focus".
Definition MsgTypePresenceUpdate := "presence_update".
Definition MsgTypeVoiceJoin := "voice_join".
Definition MsgTypeVoiceLeave := "voice_leave".
Definition MsgTypeVoiceMute := "voice_mute".
Definition MsgTypeVoiceDeafen := "voice_deafen".
Definition MsgTypeVoiceCamera := "voice_camera".
Definition MsgTypeVoiceScreenshare := "voice_screenshare".
Definition MsgTypePing := "ping".
Definition MsgTypeVoiceTokenRefresh := "voice_token_refresh".

Definition MsgTypeAuthOK := "auth_ok".
Definition MsgTypeAuthError := "auth_error".
Definition MsgTypeReady := "ready".
Definition MsgTypeChatMessage := "chat_message".
Definition MsgTypeChatSendOK := "chat_send_ok".
Definition MsgTypeChatEdited := "chat_edited".
Definition MsgTypeChatDeleted := "chat_deleted".
Definition MsgTypeReactionUpdate := "reaction_update".
Definition MsgTypeTyping := "typing".
Definition MsgTypePresence := "presence".
Definition MsgTypeChannelCreate := "channel_create".
Definition MsgTypeChannelUpdate := "channel_update".
Definition MsgTypeChannelDelete := "channel_delete".
Definition MsgTypeVoiceState := "voice_state".
Definition MsgTypeVoiceConfig := "voice_config".
Definition MsgTypeVoiceToken := "voice_token".
Definition MsgTypeVoiceLeaveBC := "voice_leave".
Definition MsgTypeMemberJoin := "member_join".
Definition MsgTypeMemberUpdate := "member_update".
Definition MsgTypeMemberBan := "member_ban".
Definition MsgTypeServerRestart := "server_restart".
Definition MsgTypeError := "error".
Definition MsgTypePong := "pong".
Definition MsgTypeDMChannelOpen := "dm_channel_open".

(** ** Builders *)

(** The [wsMsg] struct; [id] and [payload] are omitted when empty or nil. *)
Definition wsMsg (ty id : string) (payload : option json) : json :=
  JObj ([("type", JStr ty)]
    ++ (if String.eqb id "" then [] else [("id", JStr id)])
    ++ match payload with Some p => [("payload", p)] | None => [] end)%list.

(** The error envelopes are built from maps, whose keys are sorted. *)
Definition buildErrorMsg (code message : string) : string :=
  buildJSON (JObj [("payload", JObj [("code", JStr code); ("message", JStr message)]);
    ("type", JStr MsgTypeError)]).

(** [retryAfterSeconds] is a whole number of seconds at every call. *)
Definition buildRateLimitError (message : string) (retryAfterSeconds : Z) : string :=
  buildJSON (JObj [("payload", JObj [("code", JStr "RATE_LIMITED"); ("message", JStr message);
      ("retry_after", JInt retryAfterSeconds)]);
    ("type", JStr MsgTypeError)]).

Definition buildAuthError (message : string) : string :=
  buildJSON (JObj [("payload", JObj [("message", JStr message)]); ("type", JStr MsgTypeAuthError)]).

Definition buildPresenceMsg (userID : Z) (status : string) : string :=
  buildJSON (wsMsg MsgTypePresence ""
    (Some (JObj [("user_id", JInt userID); ("status", JStr status)]))).

Definition memberUserPayload (id : Z) (username : string) (avatar : option string)
    (role : string) : json :=
  JObj [("id", JInt id); ("username", JStr username); ("avatar", JOpt JStr avatar);
    ("role", JStr role)].

Definition buildMemberJoin (id : Z) (username : string) (avatar : option string)
    (roleName : string) : string :=
  buildJSON (wsMsg MsgTypeMemberJoin ""
    (Some (JObj [("user", memberUserPayload id username avatar roleName)]))).

(** [attachments] are JSON objects built from maps; a nil slice is sent as []. *)
Definition buildChatMessage (msgID channelID userID : Z) (username : string)
    (avatar : option string) (roleName content timestamp : string) (replyTo : option Z)
    (attachments : list json) : string :=
  buildJSON (wsMsg MsgTypeChatMessage "" (Some (JObj [
    ("id", JInt msgID); ("channel_id", JInt channelID);
    ("user", memberUserPayload userID username avatar roleName);
    ("content", JStr content); ("reply_to", JOpt JInt replyTo);
    ("timestamp", JStr timestamp); ("attachments", JArr attachments);
    ("reactions", JArr []); ("pinned", JBool false)]))).

Definition buildMemberUpdate (userID : Z) (roleName : string) : string :=
  buildJSON (wsMsg MsgTypeMemberUpdate ""
    (Some (JObj [("user_id", JInt userID); ("role", JStr roleName)]))).

Definition buildMemberBan (userID : Z) : string :=
  buildJSON (wsMsg MsgTypeMemberBan "" (Some (JObj [("user_id", JInt userID)]))).

Definition buildChatSendOK (requestID : string) (msgID : Z) (timestamp : string) : string :=
  buildJSON (wsMsg MsgTypeChatSendOK requestID
    (Some (JObj [("message_id", JInt msgID); ("timestamp", JStr timestamp)]))).

Definition buildChatEdited (msgID channelID : Z) (content editedAt : string) : string :=
  buildJSON (wsMsg MsgTypeChatEdited ""
    (Some (JObj [("message_id", JInt msgID); ("channel_id", JInt channelID);
      ("content", JStr content); ("edited_at", JStr editedAt)]))).

Definition buildChatDeleted (msgID channelID : Z) : string :=
  buildJSON (wsMsg MsgTypeChatDeleted ""
    (Some (JObj [("message_id", JInt msgID); ("channel_id", JInt channelID)]))).

Definition buildReactionUpdate (msgID channelID userID : Z) (emoji action : string) : string :=
  buildJSON (wsMsg MsgTypeReactionUpdate ""
    (Some (JObj [("message_id", JInt msgID); ("channel_id", JInt channelID);
      ("emoji", JStr emoji); ("user_id", JInt userID); ("action", JStr action)]))).

Definition buildTypingMsg (channelID userID : Z) (username : string) : string :=
  buildJSON (wsMsg MsgTypeTyping ""
    (Some (JObj [("channel_id", JInt channelID); ("user_id", JInt userID);
      ("username", JStr username)]))).

Definition buildVoiceState (channelID userID : Z) (username : string)
    (muted deafened speaking camera screenshare : bool) : string :=
  buildJSON (wsMsg MsgTypeVoiceState ""
    (Some (JObj [("channel_id", JInt channelID); ("user_id", JInt userID);
      ("username", JStr username); ("muted", JBool muted); ("deafened", JBool deafened);
      ("speaking", JBool speaking); ("camera", JBool camera);
      ("screenshare", JBool screenshare)]))).

Definition buildVoiceConfig (channelID : Z) (quality : string) (bitrate maxUsers : Z) : string :=
  buildJSON (wsMsg MsgTypeVoiceConfig ""
    (Some (JObj [("channel_id", JInt channelID); ("quality", JStr quality);
      ("bitrate", JInt bitrate); ("max_users", JInt maxUsers);
      ("threshold_mode", JStr "top_speakers"); ("mixing_threshold", JInt 0);
      ("top_speakers", JInt 5)]))).

Definition buildVoiceToken (channelID : Z) (token proxyPath directURL : string) : string :=
  buildJSON (wsMsg MsgTypeVoiceToken ""
    (Some (JObj [("channel_id", JInt channelID); ("token", JStr token);
      ("url", JStr proxyPath); ("direct_url", JStr directURL)]))).

Definition buildVoiceLeave (channelID userID : Z) : string :=
  buildJSON (wsMsg MsgTypeVoiceLeaveBC ""
    (Some (JObj [("channel_id", JInt channelID); ("user_id", JInt userID)]))).

Definition channelPayload (id : Z) (name type category topic : string) (position : Z) : json :=
  JObj [("id", JInt id); ("name", JStr name); ("type", JStr type);
    ("category", JStr category); ("topic", JStr topic); ("position", JInt position)].

Definition buildChannelCreate (id : Z) (name type category topic : string) (position : Z) : string :=
  buildJSON (wsMsg MsgTypeChannelCreate ""
    (Some (channelPayload id name type category topic position))).

Definition buildChannelUpdate (id : Z) (name type category topic : string) (position : Z) : string :=
  buildJSON (wsMsg MsgTypeChannelUpdate ""
    (Some (channelPayload id name type category topic position))).

Definition buildChannelDelete (channelID : Z) : string :=
  buildJSON (wsMsg MsgTypeChannelDelete "" (Some (JObj [("id", JInt channelID)]))).

Definition buildDMChannelOpen (channelID userID : Z) (username : string)
    (avatar : option string) (status : string) : string :=
  buildJSON (wsMsg MsgTypeDMChannelOpen "" (Some (JObj [("channel_id", JInt channelID);
    ("recipient", JObj [("id", JInt userID); ("username", JStr username);
      ("avatar", JStr (default "" avatar)); ("status", JStr status)])]))).

Definition buildServerRestartMsg (reason : string) (delaySeconds : Z) : string :=
  buildJSON (wsMsg MsgTypeServerRestart ""
    (Some (JObj [("reason", JStr reason); ("delay_seconds", JInt delaySeconds)]))).

Definition pongMsg : string := buildJSON (JObj [("type", JStr MsgTypePong)]).

(** ** Sequence numbers *)

(** hub.go [wrapWithSeq]: splice the field in after the opening brace. *)
Definition wrapWithSeq (msg : string) (sq : Z) : string :=
  if (Z.of_nat (String.length msg) <? 2) || negb (HasPrefix msg "{") then msg
  else "{" +:+ quote "seq" +:+ ":" +:+ itoa sq +:+ "," +:+ skip 1 msg.

(** ** Decoding a payload into a struct *)

Fixpoint drop_digits (s : string) : string :=
  match s with
  | String c s' => match digit_of c with Some _ => drop_digits s' | None => s end
  | EmptyString => EmptyString
  end.

Definition starts_digit (s : string) : bool :=
  match s with String c _ => match digit_of c with Some _ => true | None => false end
  | EmptyString => false end.

(** The exponent part of a number literal, if any, and the end. *)
Definition valid_exponent (s : string) : bool :=
  if (2 <=? Z.of_nat (String.length s)) && (HasPrefix s "e" || HasPrefix s "E") then
    let s := skip 1 s in
    if HasPrefix s "+" || HasPrefix s "-"
    then negb (String.eqb (skip 1 s) "") && String.eqb (drop_digits (skip 1 s)) ""
    else String.eqb (drop_digits s) ""
  else String.eqb s "".

(** [json.isValidNumber] *)
Definition is_valid_number (s : string) : bool :=
  let s := if HasPrefix s "-" then skip 1 s else s in
  if starts_digit s then
    let s := if HasPrefix s "0" then skip 1 s else drop_digits s in
    let s := if HasPrefix s "." && starts_digit (skip 1 s) then drop_digits (skip 2 s) else s in
    valid_exponent s
  else false.

(** Keys are compared after case folding; besides ASCII letters, two non-ASCII
    letters fold to ASCII: U+017F (to s) and U+212A (to k). *)
Fixpoint fold_key (l : list Z) : list Z :=
  match l with
  | 0xC5 :: 0xBF :: l => 115 :: fold_key l
  | 0xE2 :: 0x84 :: 0xAA :: l => 107 :: fold_key l
  | b :: l => (if in_range b 65 90 then b + 32 else b) :: fold_key l
  | [] => []
  end.

(** Field decoders: from a value and the field's current content; [None] is an
    [UnmarshalTypeError]. A JSON null leaves a non-pointer field unchanged. *)
Definition dec_string (j : json) (old : string) : option string :=
  match j with JNull => Some old | JStr s => Some s | _ => None end.

Definition dec_bool (j : json) (old : bool) : option bool :=
  match j with JNull => Some old | JBool b => Some b | _ => None end.

(** A [json.Number] holds a number literal, which may also come as a string. *)
Definition dec_number (j : json) (old : string) : option string :=
  match j with
  | JNull => Some old
  | JNum lit => Some lit
  | JStr s => if is_valid_number s then Some s else None
  | _ => None
  end.

Definition dec_int64_ptr (j : json) (old : option Z) : option (option Z) :=
  match j with
  | JNull => Some None
  | JNum lit => Some <$> ParseInt64 lit
  | _ => None
  end.

Definition dec_strings (j : json) (old : list string) : option (list string) :=
  match j with
  | JNull => Some []
  | JArr l => mapM (fun x => dec_string x "") l
  | _ => None
  end.

Definition field (P : Type) : Type := string * (json -> P -> option P).

Definition find_field {P} (fields : list (field P)) (key : string) : option (json -> P -> option P) :=
  snd <$> List.find (fun f => bool_decide (bytes_of f.1 = fold_key (bytes_of key))) fields.

Fixpoint decode_members {P} (fields : list (field P)) (ms : list (string * json)) (p : P) : option P :=
  match ms with
  | [] => Some p
  | (k, v) :: ms =>
      p' ← match find_field fields k with Some set => set v p | None => Some p end;
      decode_members fields ms p'
  end.

(** [json.Unmarshal(payload, &p)] for a zero-initialised struct [p]. Decoding
    goes on after a type error but every caller drops [p] then, so the first
    error is the result. *)
Definition unmarshal {P} (fields : list (field P)) (zero : P) (payload : option json) : option P :=
  match payload with
  | None => None
  | Some JNull => Some zero
  | Some (JObj ms) => decode_members fields ms zero
  | Some _ => None
  end.

(** [p.ChannelID] of the payloads that hold a channel id only. *)
Definition channel_id_fields : list (field string) := [("channel_id", dec_number)].

Definition parseChannelID (payload : option json) : option Z :=
  lit ← unmarshal channel_id_fields "" payload; ParseInt64 lit.

(** The payload structs of the handlers. *)
Record chatSendPayload := mkChatSend {
  cs_ChannelID : string; cs_Content : string; cs_ReplyTo : option Z; cs_Attachments : list string }.

Definition chat_send_fields : list (field chatSendPayload) :=
  [ ("channel_id", fun j p => (fun x => mkChatSend x (cs_Content p) (cs_ReplyTo p) (cs_Attachments p))
      <$> dec_number j (cs_ChannelID p));
    ("content", fun j p => (fun x => mkChatSend (cs_ChannelID p) x (cs_ReplyTo p) (cs_Attachments p))
      <$> dec_string j (cs_Content p));
    ("reply_to", fun j p => (fun x => mkChatSend (cs_ChannelID p) (cs_Content p) x (cs_Attachments p))
      <$> dec_int64_ptr j (cs_ReplyTo p));
    ("attachments", fun j p => (fun x => mkChatSend (cs_ChannelID p) (cs_Content p) (cs_ReplyTo p) x)
      <$> dec_strings j (cs_Attachments p)) ].

Definition unmarshal_chat_send := unmarshal chat_send_fields (mkChatSend "" "" None []).

(** Pairs: chat_edit (message_id, content) and reactions (message_id, emoji). *)
Definition number_string_fields (n1 n2 : string) : list (field (string * string)) :=
  [ (n1, fun j p => (fun x => (x, p.2)) <$> dec_number j p.1);
    (n2, fun j p => (fun x => (p.1, x)) <$> dec_string j p.2) ].

Definition unmarshal_chat_edit := unmarshal (number_string_fields "message_id" "content") ("", "").
Definition unmarshal_reaction := unmarshal (number_string_fields "message_id" "emoji") ("", "").
Definition unmarshal_chat_delete := unmarshal [("message_id", dec_number)] "".
Definition unmarshal_status := unmarshal [("status", dec_string)] "".
Definition unmarshal_flag (name : string) := unmarshal [(name, dec_bool)] false.

(** The [envelope] struct; an absent payload is [None]. *)
Record envelope := mkEnvelope { env_Type : string; env_ID : string; env_Payload : option json }.

Definition envelope_fields : list (field envelope) :=
  [ ("type", fun j p => (fun x => mkEnvelope x (env_ID p) (env_Payload p)) <$> dec_string j (env_Type p));
    ("id", fun j p => (fun x => mkEnvelope (env_Type p) x (env_Payload p)) <$> dec_string j (env_ID p));
    ("payload", fun j p => Some (mkEnvelope (env_Type p) (env_ID p) (Some j))) ].

Definition unmarshal_envelope := unmarshal envelope_fields (mkEnvelope "" "" None).

(** ** Lemmas *)

Lemma commas_cons x y l : commas (x :: y :: l) = x +:+ "," +:+ commas (y :: l).
Proof. done. Qed.

Lemma append_cons c (a b : string) : String c a +:+ b = String c (a +:+ b).
Proof. done. Qed.

Lemma append_nil (b : string) : "" +:+ b = b.
Proof. done. Qed.

Lemma string_app_assoc (a b c : string) : (a +:+ b) +:+ c = a +:+ b +:+ c.
Proof. induction a as [|x a IH]; [done|]. by rewrite !append_cons, IH. Qed.

Lemma length_string_app (a b : string) :
  String.length (a +:+ b) = (String.length a + String.length b)%nat.
Proof.
  induction a as [|x a IH]; [done|]. rewrite append_cons. cbn [String.length].
  rewrite IH. lia.
Qed.

Example chat_send_decodes :
  unmarshal_chat_send (Some (JObj [("channel_id", JStr "5"); ("Content", JStr "hi");
    ("attachments", JNull); ("x", JBool true)])) = Some (mkChatSend "5" "hi" None []).
Proof. reflexivity. Qed.

Example error_message_bytes :
  wrapWithSeq (buildPresenceMsg 7 "idle") 12 =
  render (JObj [("seq", JInt 12); ("type", JStr "presence");
    ("payload", JObj [("user_id", JInt 7); ("status", JStr "idle")])]).
Proof. vm_compute. reflexivity. Qed.

End Wire.
Export Wire.

(** Stamping a broadcast with its sequence number at byte level is the
    encoding of the same JSON object with a leading "seq" member, for every
    object that has at least one member; hence a stamped message of the server
    is one well-formed JSON object again. *)
Theorem wrapWithSeq_object m ms sq :
  wrapWithSeq (render (JObj (m :: ms))) sq = render (JObj (("seq", JInt sq) :: m :: ms)).
Proof.
  unfold wrapWithSeq.
  assert (Hl : (Z.of_nat (String.length (render (JObj (m :: ms)))) <? 2) = false).
  { apply Z.ltb_ge. cbn [render]. rewrite !length_string_app. cbn [String.length]. lia. }
  assert (Hp : HasPrefix (render (JObj (m :: ms))) "{" = true) by apply (HasPrefix_app "{").
  rewrite Hl, Hp. cbn [orb negb render map]. rewrite commas_cons.
  rewrite (append_cons "{"), append_nil. cbn [skip fst snd render]. unfold JInt. cbn [render].
  by rewrite !append_cons, !append_nil, !string_app_assoc, !append_cons.
Qed.
