(* ===== verification/Json.v ===== *)
(** * Parsing JSON text

    [encoding/json]'s reading of an inbound WebSocket frame into the syntax
    tree of Wire.v: RFC 8259 syntax with the library's tolerances (invalid
    UTF-8 and lone surrogates become U+FFFD) and its nesting limit. A frame is
    a byte string; [None] is a syntax error. *)

From S2P Require Import Prelude GoText Wire.
From Stdlib Require Import Ascii.
#[local] Open Scope string_scope.
#[local] Open Scope Z_scope.

Module Json.

(** ** Lexing on bytes *)

Definition is_ws (b : Z) : bool := (b =? 32) || (b =? 9) || (b =? 13) || (b =? 10).

Fixpoint skip_ws (l : list Z) : list Z :=
  match l with
  | b :: l' => if is_ws b then skip_ws l' else l
  | [] => []
  end.

Definition is_digit (b : Z) : bool := in_range b 48 57.

(** The leading digits and the rest. *)
Fixpoint span_digits (l : list Z) : list Z * list Z :=
  match l with
  | b :: l' => if is_digit b then let '(ds, r) := span_digits l' in (b :: ds, r) else ([], l)
  | [] => ([], [])
  end.

(** Consumes the given bytes. *)
Fixpoint expect (w l : list Z) : option (list Z) :=
  match w, l with
  | [], _ => Some l
  | a :: w, b :: l => if a =? b then expect w l else None
  | _, [] => None
  end.

(** ** Numbers: the literal is kept as text *)

Definition lex_int (l : list Z) : option (list Z * list Z) :=
  match l with
  | 48 :: l => Some ([48], l)
  | b :: _ => if in_range b 49 57 then Some (span_digits l) else None
  | [] => None
  end.

Definition lex_frac (l : list Z) : option (list Z * list Z) :=
  match l with
  | 46 :: l => match span_digits l with ([], _) => None | (ds, r) => Some (46 :: ds, r) end
  | _ => Some ([], l)
  end.

Definition lex_exp (l : list Z) : option (list Z * list Z) :=
  match l with
  | e :: l' =>
      if (e =? 101) || (e =? 69) then
        let '(sg, l'') := match l' with
          | s :: l'' => if (s =? 43) || (s =? 45) then ([s], l'') else ([], l')
          | [] => ([], []) end in
        match span_digits l'' with ([], _) => None | (ds, r) => Some ((e :: sg ++ ds)%list, r) end
      else Some ([], l)
  | [] => Some ([], l)
  end.

Definition lex_number (l : list Z) : option (string * list Z) :=
  let '(sg, l) := match l with 45 :: l => ([45], l) | _ => ([], l) end in
  '(i, l) ← lex_int l; '(f, l) ← lex_frac l; '(e, l) ← lex_exp l;
  Some (string_of (sg ++ i ++ f ++ e)%list, l).

(** ** Strings *)

Definition hex_val (b : Z) : option Z :=
  if in_range b 48 57 then Some (b - 48)
  else if in_range b 97 102 then Some (b - 87)
  else if in_range b 65 70 then Some (b - 55)
  else None.

(** [getu4]: four hexadecimal digits. *)
Definition hex4 (l : list Z) : option (Z * list Z) :=
  match l with
  | a :: b :: c :: d :: l =>
      a ← hex_val a; b ← hex_val b; c ← hex_val c; d ← hex_val d;
      Some (((a * 16 + b) * 16 + c) * 16 + d, l)
  | _ => None
  end.

Definition is_surrogate (r : Z) : bool := in_range r 0xD800 0xDFFF.

(** [utf8.EncodeRune] (surrogates and values out of range become U+FFFD). *)
Definition encode_rune (r : Z) : list Z :=
  let r := if is_surrogate r || (r <? 0) || (0x10FFFF <? r) then RuneError else r in
  if r <? 0x80 then [r]
  else if r <? 0x800 then [0xC0 + r / 64; 0x80 + r mod 64]
  else if r <? 0x10000 then [0xE0 + r / 4096; 0x80 + r / 64 mod 64; 0x80 + r mod 64]
  else [0xF0 + r / 262144; 0x80 + r / 4096 mod 64; 0x80 + r / 64 mod 64; 0x80 + r mod 64].

(** After [\u]: a surrogate pair is one rune, a lone surrogate U+FFFD (what
    follows it is then read again). *)
Definition unescape_u (l : list Z) : option (list Z * list Z) :=
  '(r, l) ← hex4 l;
  if is_surrogate r then
    match l with
    | 92 :: 117 :: l2 =>
        match hex4 l2 with
        | Some (r2, l3) =>
            if in_range r 0xD800 0xDBFF && in_range r2 0xDC00 0xDFFF
            then Some (encode_rune (0x10000 + (r - 0xD800) * 1024 + (r2 - 0xDC00)), l3)
            else Some (encode_rune RuneError, l)
        | None => None
        end
    | _ => Some (encode_rune RuneError, l)
    end
  else Some (encode_rune r, l).

(** The bytes an escape stands for, and the input after it. *)
Definition unescape (l : list Z) : option (list Z * list Z) :=
  match l with
  | 34 :: l => Some ([34], l)
  | 92 :: l => Some ([92], l)
  | 47 :: l => Some ([47], l)
  | 98 :: l => Some ([8], l)
  | 102 :: l => Some ([12], l)
  | 110 :: l => Some ([10], l)
  | 114 :: l => Some ([13], l)
  | 116 :: l => Some ([9], l)
  | 117 :: l => unescape_u l
  | _ => None
  end.

(** The content up to the closing quote. The fuel is the input's length: each
    step takes at least one byte. *)
Fixpoint lex_string (n : nat) (l : list Z) : option (list Z * list Z) :=
  match n, l with
  | S n, b :: l' =>
      if b =? 34 then Some ([], l')
      else if b =? 92 then
        '(bs, r) ← unescape l'; '(s, r) ← lex_string n r; Some ((bs ++ s)%list, r)
      else if b <? 32 then None
      else
        let '(r, w) := decode_rune l in
        let bs := if (r =? RuneError) && Nat.eqb w 1 then encode_rune RuneError else take w l in
        '(s, rest) ← lex_string n (drop w l); Some ((bs ++ s)%list, rest)
  | _, _ => None
  end.

(** ** Values *)

Definition maxNestingDepth : nat := 10000.

(** The value at the head of the input. [depth] is the nesting still allowed;
    the fuel bounds the number of calls, at most two per byte. *)
Fixpoint parse_value (n depth : nat) (l : list Z) : option (json * list Z) :=
  match n with
  | O => None
  | S n =>
      match skip_ws l with
      | 34 :: l => '(s, r) ← lex_string (length l) l; Some (JStr (string_of s), r)
      | 116 :: l => r ← expect [114; 117; 101] l; Some (JBool true, r)
      | 102 :: l => r ← expect [97; 108; 115; 101] l; Some (JBool false, r)
      | 110 :: l => r ← expect [117; 108; 108] l; Some (JNull, r)
      | 91 :: l =>
          match depth with
          | O => None
          | S depth =>
              match skip_ws l with
              | 93 :: r => Some (JArr [], r)
              | l => '(vs, r) ← parse_items n depth l; Some (JArr vs, r)
              end
          end
      | 123 :: l =>
          match depth with
          | O => None
          | S depth =>
              match skip_ws l with
              | 125 :: r => Some (JObj [], r)
              | l => '(ms, r) ← parse_members n depth l; Some (JObj ms, r)
              end
          end
      | l => '(lit, r) ← lex_number l; Some (JNum lit, r)
      end
  end
(** One or more elements and the closing bracket. *)
with parse_items (n depth : nat) (l : list Z) : option (list json * list Z) :=
  match n with
  | O => None
  | S n =>
      '(v, r) ← parse_value n depth l;
      match skip_ws r with
      | 93 :: r => Some ([v], r)
      | 44 :: r => '(vs, r) ← parse_items n depth r; Some (v :: vs, r)
      | _ => None
      end
  end
(** One or more members and the closing brace. *)
with parse_members (n depth : nat) (l : list Z) : option (list (string * json) * list Z) :=
  match n with
  | O => None
  | S n =>
      match skip_ws l with
      | 34 :: l =>
          '(k, r) ← lex_string (length l) l;
          match skip_ws r with
          | 58 :: r =>
              '(v, r) ← parse_value n depth r;
              match skip_ws r with
              | 125 :: r => Some ([(string_of k, v)], r)
              | 44 :: r => '(ms, r) ← parse_members n depth r; Some ((string_of k, v) :: ms, r)
              | _ => None
              end
          | _ => None
          end
      | _ => None
      end
  end.

(** [json.Unmarshal]'s first pass: one value and nothing after it. *)
Definition parse_json (raw : string) : option json :=
  let l := bytes_of raw in
  '(v, r) ← parse_value (2 * length l + 2) maxNestingDepth l;
  match skip_ws r with [] => Some v | _ => None end.

Example parse_envelope :
  parse_json (render (JObj [("type", JStr "chat_send"); ("payload",
    JObj [("channel_id", JInt 5); ("content", JStr "a<b"); ("attachments", JArr [JStr "x"; JNull])])]))
  = Some (JObj [("type", JStr "chat_send"); ("payload",
    JObj [("channel_id", JInt 5); ("content", JStr "a<b"); ("attachments", JArr [JStr "x"; JNull])])]).
Proof. vm_compute. reflexivity. Qed.

Example parse_rejects : parse_json "{'a':1}" = None /\ parse_json "[1,]" = None /\ parse_json "01" = None.
Proof. vm_compute. done. Qed.

End Json.
Export Json.
