(* ===== verification/GoTime.v ===== *)
(** * Timestamps as text

    The server stores expiry times as text and compares them with the clock:
    [BanUser] and [CreateSession] write the layout "2006-01-02T15:04:05Z",
    SQLite's [datetime('now')] writes "2006-01-02 15:04:05", and
    Server/auth/helpers.go parses both. This file models [time.Format] and
    [time.Parse] for those two layouts (with Go's tolerance for one-digit
    hours, repeated spaces and an input fraction), and proves the round trip.
    An instant is a number of nanoseconds since the Unix epoch, in UTC. *)

From S2P Require Import Prelude GoText.
From Stdlib Require Import Ascii.
#[local] Open Scope string_scope.
#[local] Open Scope Z_scope.

Module Clock.

Definition ns_per_sec : Z := 1000000000.
Definition Second : Z := ns_per_sec.
Definition Minute : Z := 60 * Second.
Definition Hour : Z := 60 * Minute.

(** ** Calendar (proleptic Gregorian, eras of 400 years from March 1st) *)

Record civil := mkCivil { c_year : Z; c_month : Z; c_day : Z }.

(** Year of era and day of that (March-based) year for a day of era. *)
Definition yoe_of (doe : Z) : Z :=
  (doe - doe / 1460 + doe / 36524 - doe / 146096) / 365.
Definition doy_of (doe : Z) : Z :=
  let yoe := yoe_of doe in doe - (365 * yoe + yoe / 4 - yoe / 100).

Definition civil_from_days (days : Z) : civil :=
  let z := days + 719468 in
  let era := z / 146097 in
  let doe := z mod 146097 in
  let doy := doy_of doe in
  let mp := (5 * doy + 2) / 153 in
  let d := doy - (153 * mp + 2) / 5 + 1 in
  let m := if mp <? 10 then mp + 3 else mp - 9 in
  mkCivil (yoe_of doe + era * 400 + (if m <=? 2 then 1 else 0)) m d.

Definition days_from_civil (c : civil) : Z :=
  let y := if c_month c <=? 2 then c_year c - 1 else c_year c in
  let era := y / 400 in
  let yoe := y mod 400 in
  let mp := if 2 <? c_month c then c_month c - 3 else c_month c + 9 in
  let doy := (153 * mp + 2) / 5 + c_day c - 1 in
  era * 146097 + (yoe * 365 + yoe / 4 - yoe / 100 + doy) - 719468.

Definition is_leap (y : Z) : bool :=
  (y mod 4 =? 0) && (negb (y mod 100 =? 0) || (y mod 400 =? 0)).

Definition days_in (m y : Z) : Z :=
  if m =? 2 then (if is_leap y then 29 else 28)
  else if (m =? 4) || (m =? 6) || (m =? 9) || (m =? 11) then 30 else 31.

(** ** Formatting *)

Definition digit (n : Z) : ascii := of_byte (48 + n mod 10).
Definition pad2 (n : Z) (s : string) : string := String (digit (n / 10)) (String (digit n) s).
Definition pad4 (n : Z) (s : string) : string := pad2 (n / 100) (pad2 (n mod 100) s).

(** Layouts are given by the separator of date and time and the ending. *)
Definition format (sep suffix : string) (t : Z) : string :=
  let secs := t / ns_per_sec in
  let c := civil_from_days (secs / 86400) in
  let s := secs mod 86400 in
  pad4 (c_year c) ("-" +:+ pad2 (c_month c) ("-" +:+ pad2 (c_day c) (sep +:+
    pad2 (s / 3600) (":" +:+ pad2 (s / 60 mod 60) (":" +:+ pad2 (s mod 60) suffix))))).

(** "2006-01-02T15:04:05Z", and SQLite's [datetime]. *)
Definition FormatISO : Z -> string := format "T" "Z".
Definition FormatSQL : Z -> string := format " " "".

(** ** Parsing *)

(** [getnum(value, fixed)]: one or two digits, two when [fixed]. *)
Definition getnum (fixed : bool) (s : string) : option (Z * string) :=
  match s with
  | String c1 s1 =>
      d1 ← digit_of c1;
      match s1 with
      | String c2 s2 =>
          match digit_of c2 with
          | Some d2 => Some (10 * d1 + d2, s2)
          | None => if fixed then None else Some (d1, s1)
          end
      | EmptyString => if fixed then None else Some (d1, s1)
      end
  | EmptyString => None
  end.

Fixpoint cutspace (s : string) : string :=
  match s with
  | String c s' => if Ascii.eqb c " " then cutspace s' else s
  | EmptyString => s
  end.

(** [skip(value, prefix)] for the one-character prefixes of the layouts. *)
Definition skip_lit (c : ascii) (s : string) : option string :=
  if Ascii.eqb c " " then
    match s with
    | String x _ => if Ascii.eqb x " " then Some (cutspace s) else None
    | EmptyString => Some s
    end
  else
    match s with
    | String x s' => if Ascii.eqb x c then Some s' else None
    | EmptyString => None
    end.

Definition skip_opt (lit : string) (s : string) : option string :=
  match lit with
  | EmptyString => Some s
  | String c _ => skip_lit c s
  end.

Definition get_year (s : string) : option (Z * string) :=
  '(a, s1) ← getnum true s; '(b, s2) ← getnum true s1; Some (100 * a + b, s2).

(** Digits of a fraction: value of the first nine, scaled to nanoseconds. *)
Fixpoint frac_digits (scale acc : Z) (s : string) : Z * string :=
  match s with
  | String c s' =>
      match digit_of c with
      | Some d => frac_digits (scale / 10) (acc + d * scale) s'
      | None => (acc, s)
      end
  | EmptyString => (acc, s)
  end.

Definition get_frac (s : string) : Z * string :=
  match s with
  | String p (String c s') =>
      if (Ascii.eqb p "." || Ascii.eqb p ",") && match digit_of c with Some _ => true | None => false end
      then frac_digits 100000000 0 (String c s') else (0, s)
  | _ => (0, s)
  end.

(** [time.Parse] for the layout with this separator and ending. *)
Definition parse (sep suffix : string) (s : string) : option Z :=
  '(year, s) ← get_year s; s ← skip_lit "-" s;
  '(month, s) ← getnum true s; s ← skip_lit "-" s;
  if (month <=? 0) || (12 <? month) then None else
  '(day, s) ← getnum true s; s ← skip_opt sep s;
  '(hour, s) ← getnum false s; s ← skip_lit ":" s;
  if 24 <=? hour then None else
  '(minute, s) ← getnum true s; s ← skip_lit ":" s;
  if 60 <=? minute then None else
  '(sec, s) ← getnum true s;
  if 60 <=? sec then None else
  let '(nanos, s) := get_frac s in
  s ← skip_opt suffix s;
  if negb (String.eqb s "") then None
  else if (day <? 1) || (days_in month year <? day) then None
  else Some ((days_from_civil (mkCivil year month day) * 86400
    + hour * 3600 + minute * 60 + sec) * ns_per_sec + nanos).

Definition ParseSQL : string -> option Z := parse " " "".
Definition ParseISO : string -> option Z := parse "T" "Z".

(** The loop over the two layouts in auth/helpers.go: the first that parses. *)
Definition parse_timestamp (s : string) : option Z :=
  match ParseSQL s with
  | Some t => Some t
  | None => ParseISO s
  end.

(** ** The calendar round trip *)

#[local] Ltac Zify.zify_post_hook ::= Z.to_euclidean_division_equations.

Lemma yoe_range doe : 0 <= doe < 146097 -> 0 <= yoe_of doe <= 399.
Proof. unfold yoe_of. lia. Qed.

Lemma doy_range doe : 0 <= doe < 146097 -> 0 <= doy_of doe <= 365.
Proof. unfold doy_of, yoe_of. lia. Qed.

(** Only a year whose February has 29 days has a 366th March-based day. *)
Lemma doy_last doe : 0 <= doe < 146097 -> doy_of doe = 365 ->
  let y := yoe_of doe + 1 in
  y mod 4 = 0 /\ (y mod 100 <> 0 \/ y mod 400 = 0).
Proof. unfold doy_of, yoe_of. lia. Qed.

Lemma is_leap_era y era : is_leap (y + era * 400) = is_leap y.
Proof.
  unfold is_leap.
  replace ((y + era * 400) mod 4) with (y mod 4) by lia.
  replace ((y + era * 400) mod 100) with (y mod 100) by lia.
  by replace ((y + era * 400) mod 400) with (y mod 400) by lia.
Qed.

Lemma month_split doy : 0 <= doy <= 365 ->
  let mp := (5 * doy + 2) / 153 in
  0 <= mp <= 11 /\ 0 <= doy - (153 * mp + 2) / 5 <= 30.
Proof. lia. Qed.

Lemma civil_month_range days : 1 <= c_month (civil_from_days days) <= 12.
Proof.
  unfold civil_from_days. simpl. set (z := days + 719468).
  pose proof (doy_range (z mod 146097) ltac:(lia)) as Hd.
  pose proof (month_split _ Hd) as [Hm _].
  destruct (Z.ltb_spec ((5 * doy_of (z mod 146097) + 2) / 153) 10); lia.
Qed.

(** Decides the closed tests of the goal. *)
#[local] Ltac closed_ifs :=
  repeat match goal with
  | |- context [if ?b then _ else _] =>
      match eval vm_compute in b with
      | true => change b with true
      | false => change b with false
      end; cbv iota
  end.

(** Day of month from the March-based day of the year. *)
Lemma month_day_bound doy y : 0 <= doy <= 365 ->
  let mp := (5 * doy + 2) / 153 in
  let m := if mp <? 10 then mp + 3 else mp - 9 in
  (m <= 2 -> doy = 365 -> is_leap y = true) ->
  1 <= doy - (153 * mp + 2) / 5 + 1 <= days_in m y.
Proof.
  intros Hd. cbv zeta. pose proof (month_split doy Hd) as [Hmp Hr]. cbv zeta in *.
  remember ((5 * doy + 2) / 153) as mp eqn:E.
  assert (Hcases : mp = 0 \/ mp = 1 \/ mp = 2 \/ mp = 3 \/ mp = 4 \/ mp = 5 \/ mp = 6 \/
    mp = 7 \/ mp = 8 \/ mp = 9 \/ mp = 10 \/ mp = 11) by lia.
  destruct (decide (mp = 11)) as [->|Hne].
  - unfold days_in. closed_ifs. intros Hleap.
    destruct (is_leap y); [clear Hleap; lia|].
    assert (doy <> 365) by (intros ->; by specialize (Hleap ltac:(lia) eq_refl)). lia.
  - intros _. repeat destruct Hcases as [Hcases|Hcases]; rewrite Hcases in *; try done;
      unfold days_in; closed_ifs; lia.
Qed.

(** The day is a day of its month. *)
Lemma civil_day_range days :
  let c := civil_from_days days in 1 <= c_day c <= days_in (c_month c) (c_year c).
Proof.
  unfold civil_from_days. cbv zeta. cbn [c_day c_month c_year].
  remember (days + 719468) as z. assert (Hdoe : 0 <= z mod 146097 < 146097) by lia.
  apply (month_day_bound (doy_of (z mod 146097))); [by apply doy_range|].
  intros Hm Hlast. rewrite (proj2 (Z.leb_le _ 2) Hm).
  destruct (doy_last _ Hdoe Hlast) as [H4 H100].
  replace (yoe_of (z mod 146097) + z / 146097 * 400 + 1)
    with (yoe_of (z mod 146097) + 1 + z / 146097 * 400) by lia.
  rewrite is_leap_era. unfold is_leap. apply Z.eqb_eq in H4. rewrite H4.
  destruct H100 as [H|H]; [apply Z.eqb_neq in H|apply Z.eqb_eq in H]; rewrite H; [done|].
  apply orb_true_r.
Qed.

(** The March-based month of a civil month, and back. *)
Lemma march_month mp : 0 <= mp <= 11 ->
  let m := if mp <? 10 then mp + 3 else mp - 9 in
  (if 2 <? m then m - 3 else m + 9) = mp.
Proof.
  intros H. cbv zeta. destruct (Z.ltb_spec mp 10).
  - destruct (Z.ltb_spec 2 (mp + 3)); lia.
  - destruct (Z.ltb_spec 2 (mp - 9)); lia.
Qed.

Lemma civil_parts doe : 0 <= doe < 146097 ->
  doe = 365 * yoe_of doe + yoe_of doe / 4 - yoe_of doe / 100 + doy_of doe.
Proof. intros H. unfold doy_of. cbv zeta. lia. Qed.

Lemma days_from_civil_inverse days : days_from_civil (civil_from_days days) = days.
Proof.
  unfold civil_from_days, days_from_civil.
  cbv zeta. cbn [c_day c_month c_year].
  assert (Hdoe : 0 <= (days + 719468) mod 146097 < 146097) by (apply Z.mod_pos_bound; lia).
  pose proof (Z.div_mod (days + 719468) 146097 ltac:(lia)) as Hz.
  pose proof (civil_parts _ Hdoe) as Ed.
  pose proof (doy_range _ Hdoe) as Hd. pose proof (yoe_range _ Hdoe) as Hy.
  pose proof (month_split _ Hd) as [Hmp _].
  rewrite (march_month _ Hmp).
  set (m := if _ <? 10 then _ else _).
  generalize dependent ((days + 719468) mod 146097). intros doe.
  generalize ((days + 719468) / 146097). intros era.
  generalize (yoe_of doe), (doy_of doe). intros yoe doy. intros.
  assert (Ey : (if m <=? 2 then yoe + era * 400 + (if m <=? 2 then 1 else 0) - 1
    else yoe + era * 400 + (if m <=? 2 then 1 else 0)) = yoe + era * 400)
    by (destruct (m <=? 2); clear; lia).
  clearbody m.
  rewrite Ey, Z.div_add, Z.mod_add, (Z.div_small yoe), (Z.mod_small yoe) by (clear - Hy; lia).
  generalize dependent ((153 * ((5 * doy + 2) / 153) + 2) / 5). intros.
  generalize dependent (yoe / 4). generalize dependent (yoe / 100). clear - Hz.
  intros. clear - Hz Ed. lia.
Qed.

(** ** Reading back what was written *)

Lemma digit_of_digit n : digit_of (digit n) = Some (n mod 10).
Proof.
  unfold digit. pose proof (Z.mod_pos_bound n 10 ltac:(lia)) as H.
  assert (n mod 10 = 0 \/ n mod 10 = 1 \/ n mod 10 = 2 \/ n mod 10 = 3 \/ n mod 10 = 4 \/
    n mod 10 = 5 \/ n mod 10 = 6 \/ n mod 10 = 7 \/ n mod 10 = 8 \/ n mod 10 = 9) as C by lia.
  by repeat destruct C as [C|C]; rewrite C.
Qed.

Lemma digit_not_space n : Ascii.eqb (digit n) " " = false.
Proof.
  apply Ascii.eqb_neq. intros H. pose proof (digit_of_digit n) as E. by rewrite H in E.
Qed.

Lemma getnum_pad2 fixed n s : 0 <= n < 100 -> getnum fixed (pad2 n s) = Some (n, s).
Proof.
  intros H. unfold getnum, pad2. rewrite !digit_of_digit. cbn [mbind option_bind].
  do 2 f_equal. lia.
Qed.

Lemma get_year_pad4 y s : 0 <= y <= 9999 -> get_year (pad4 y s) = Some (y, s).
Proof.
  intros H. unfold get_year, pad4. rewrite getnum_pad2 by lia. cbn [mbind option_bind].
  rewrite getnum_pad2 by lia. cbn [mbind option_bind]. do 2 f_equal. lia.
Qed.

Lemma cutspace_pad2 n s : cutspace (pad2 n s) = pad2 n s.
Proof. unfold pad2. cbn [cutspace]. by rewrite digit_not_space. Qed.

Lemma skip_sep sep n s : sep = "T" \/ sep = " " ->
  skip_opt sep (sep +:+ pad2 n s) = Some (pad2 n s).
Proof.
  intros [-> | ->]; [done|]. change (Some (cutspace (pad2 n s)) = Some (pad2 n s)).
  by rewrite cutspace_pad2.
Qed.

Lemma skip_lit_app c s : Ascii.eqb c " " = false -> skip_lit c (String c "" +:+ s) = Some s.
Proof.
  intros H. change (String c "" +:+ s) with (String c s). unfold skip_lit.
  by rewrite H, Ascii.eqb_refl.
Qed.

(** The years whose four digits are written as such. *)
Definition year_in_range (t : Z) : Prop :=
  0 <= c_year (civil_from_days (t / ns_per_sec / 86400)) <= 9999.

Lemma parse_format sep suffix t :
  sep = "T" \/ sep = " " -> suffix = "Z" \/ suffix = "" -> year_in_range t ->
  parse sep suffix (format sep suffix t) = Some (t / ns_per_sec * ns_per_sec).
Proof.
  intros Hsep Hsuf Hy. unfold parse, format, year_in_range in *.
  set (secs := t / ns_per_sec) in *. set (days := secs / 86400) in *.
  pose proof (civil_month_range days) as Hm. pose proof (civil_day_range days) as Hd.
  pose proof (days_from_civil_inverse days) as Hinv. cbv zeta in Hd |- *.
  destruct (civil_from_days days) as [y m d]. cbn [c_year c_month c_day] in *.
  assert (Hdim : days_in m y <= 31) by (unfold days_in; repeat case_match; lia).
  rewrite get_year_pad4 by done. cbn [mbind option_bind]. rewrite skip_lit_app by done. cbn [mbind option_bind].
  rewrite getnum_pad2 by lia. cbn [mbind option_bind]. rewrite skip_lit_app by done. cbn [mbind option_bind].
  rewrite (proj2 (Z.leb_gt m 0)), (proj2 (Z.ltb_ge 12 m)) by lia. cbn [orb].
  rewrite getnum_pad2 by lia. cbn [mbind option_bind]. rewrite skip_sep by done. cbn [mbind option_bind].
  assert (Hs : 0 <= secs mod 86400 < 86400) by (apply Z.mod_pos_bound; lia).
  rewrite getnum_pad2 by lia. cbn [mbind option_bind]. rewrite skip_lit_app by done. cbn [mbind option_bind].
  rewrite (proj2 (Z.leb_gt 24 _)) by lia.
  rewrite getnum_pad2 by lia. cbn [mbind option_bind]. rewrite skip_lit_app by done. cbn [mbind option_bind].
  rewrite (proj2 (Z.leb_gt 60 _)) by lia.
  rewrite getnum_pad2 by lia. cbn [mbind option_bind].
  rewrite (proj2 (Z.leb_gt 60 _)) by lia.
  assert (Hf : get_frac suffix = (0, suffix)) by (by destruct Hsuf as [-> | ->]).
  rewrite Hf. assert (Hk : skip_opt suffix suffix = Some "") by (by destruct Hsuf as [-> | ->]).
  rewrite Hk. cbn [mbind option_bind String.eqb negb].
  rewrite (proj2 (Z.ltb_ge d 1) (proj1 Hd)), (proj2 (Z.ltb_ge (days_in m y) d) (proj2 Hd)).
  cbn [orb].
  rewrite Hinv. f_equal. subst days. clearbody secs. clear - Hs.
  rewrite Z.add_0_r. f_equal. lia.
Qed.

(** The ISO form is not mistaken for the SQL one. *)
Lemma ParseSQL_ISO t : year_in_range t -> ParseSQL (FormatISO t) = None.
Proof.
  intros Hy. unfold ParseSQL, FormatISO, parse, format, year_in_range in *.
  set (days := t / ns_per_sec / 86400) in *.
  pose proof (civil_month_range days) as Hm. pose proof (civil_day_range days) as Hd.
  cbv zeta in Hd |- *. destruct (civil_from_days days) as [y m d]. cbn [c_year c_month c_day] in *.
  assert (Hdim : days_in m y <= 31) by (unfold days_in; repeat case_match; lia).
  rewrite get_year_pad4 by done. cbn [mbind option_bind]. rewrite skip_lit_app by done. cbn [mbind option_bind].
  rewrite getnum_pad2 by lia. cbn [mbind option_bind]. rewrite skip_lit_app by done. cbn [mbind option_bind].
  rewrite (proj2 (Z.leb_gt m 0)), (proj2 (Z.ltb_ge 12 m)) by lia. cbn [orb].
  rewrite getnum_pad2 by lia. done.
Qed.

Lemma parse_timestamp_ISO t : year_in_range t ->
  parse_timestamp (FormatISO t) = Some (t / ns_per_sec * ns_per_sec).
Proof.
  intros H. unfold parse_timestamp. rewrite ParseSQL_ISO by done.
  apply parse_format; auto.
Qed.

Lemma parse_timestamp_SQL t : year_in_range t ->
  parse_timestamp (FormatSQL t) = Some (t / ns_per_sec * ns_per_sec).
Proof.
  intros H. unfold parse_timestamp, ParseSQL, FormatSQL. rewrite parse_format; auto.
Qed.

End Clock.
Export Clock.
