(* ===== verification/Crypto.v ===== *)
(** * Hashes, tokens and one-time codes

    Model of Server/auth/session.go and of the code generation of totp.go, on
    byte lists: SHA-256 and SHA-1 over 32-bit words, HMAC, hexadecimal and
    base32 text. Random bytes are an argument, [None] when [rand.Read] fails. *)

From S2P Require Import Prelude GoText GoTime.
From Stdlib Require Import Ascii.
#[local] Open Scope string_scope.
#[local] Open Scope Z_scope.

Module Crypto.

(** ** 32-bit words *)

Definition mask32 : Z := 0xFFFFFFFF.
Definition add32 (a b : Z) : Z := Z.land (a + b) mask32.
Definition not32 (a : Z) : Z := Z.lxor a mask32.
Definition rotr (n x : Z) : Z := Z.lor (Z.shiftr x n) (Z.land (Z.shiftl x (32 - n)) mask32).
Definition rotl (n x : Z) : Z := rotr (32 - n) x.

(** [n] bytes, most significant first. *)
Fixpoint be_bytes (n : nat) (x : Z) : list Z :=
  match n with
  | O => []
  | S n => (Z.shiftr x (8 * Z.of_nat n) mod 256 :: be_bytes n x)%list
  end.

Definition be_word (l : list Z) : Z := foldl (fun a b => a * 256 + b) 0 l.

(** Groups of [k] elements; the fuel is the length. *)
Fixpoint chunks_fuel {A} (fuel k : nat) (l : list A) : list (list A) :=
  match fuel, l with
  | S fuel, _ :: _ => take k l :: chunks_fuel fuel k (drop k l)
  | _, _ => []
  end.
Definition chunks {A} (k : nat) (l : list A) : list (list A) := chunks_fuel (length l) k l.

(** Padding to a multiple of 64 bytes with the bit length at the end. *)
Definition md_pad (l : list Z) : list Z :=
  let n := Z.of_nat (length l) in
  (l ++ [0x80] ++ replicate (Z.to_nat ((55 - n) mod 64)) 0 ++ be_bytes 8 (8 * n))%list.

Definition words_of (block : list Z) : list Z := be_word <$> chunks 4 block.

(** ** SHA-256 *)

(** The constants are the first 32 bits of the fractional parts of the cube
    roots, and of the square roots, of the first primes. *)
Definition first_primes (n : nat) : list Z :=
  take n (List.filter (fun p => forallb (fun q => negb (p mod Z.of_nat q =? 0)) (seq 2 (Z.to_nat p - 2)))
    (Z.of_nat <$> seq 2 310)).

(** The integer cube root below [2 ^ n] above [r], bit by bit. *)
Fixpoint cube_root (n : nat) (r x : Z) : Z :=
  match n with
  | O => r
  | S n => let r' := r + 2 ^ Z.of_nat n in cube_root n (if r' * r' * r' <=? x then r' else r) x
  end.

Definition sha256_k : list Z := Eval vm_compute in
  (fun p => Z.land (cube_root 36 0 (Z.shiftl p 96)) mask32) <$> first_primes 64.
Definition sha256_init : list Z := Eval vm_compute in
  (fun p => Z.land (Z.sqrt (Z.shiftl p 64)) mask32) <$> first_primes 8.

Definition nthZ (i : nat) (l : list Z) : Z := default 0 (l !! i).

(** The message schedule, newest word first: [n] more words. *)
Fixpoint sha256_extend (n : nat) (w : list Z) : list Z :=
  match n with
  | O => w
  | S n =>
      let s0 := let x := nthZ 14 w in Z.lxor (Z.lxor (rotr 7 x) (rotr 18 x)) (Z.shiftr x 3) in
      let s1 := let x := nthZ 1 w in Z.lxor (Z.lxor (rotr 17 x) (rotr 19 x)) (Z.shiftr x 10) in
      sha256_extend n (Z.land (nthZ 15 w + s0 + nthZ 6 w + s1) mask32 :: w)
  end.

Definition sha256_round (st : list Z) (kw : Z * Z) : list Z :=
  match st with
  | [a; b; c; d; e; f; g; h] =>
      let S1 := Z.lxor (Z.lxor (rotr 6 e) (rotr 11 e)) (rotr 25 e) in
      let ch := Z.lxor (Z.land e f) (Z.land (not32 e) g) in
      let t1 := Z.land (h + S1 + ch + kw.1 + kw.2) mask32 in
      let S0 := Z.lxor (Z.lxor (rotr 2 a) (rotr 13 a)) (rotr 22 a) in
      let maj := Z.lxor (Z.lxor (Z.land a b) (Z.land a c)) (Z.land b c) in
      [add32 t1 (add32 S0 maj); a; b; c; add32 d t1; e; f; g]
  | _ => st
  end.

Definition sha256_block (st block : list Z) : list Z :=
  let w := rev (sha256_extend 48 (rev (words_of block))) in
  zip_with add32 st (foldl sha256_round st (zip sha256_k w)).

Definition sha256 (l : list Z) : list Z :=
  flat_map (be_bytes 4) (foldl sha256_block sha256_init (chunks 64 (md_pad l))).

(** ** SHA-1 *)

Fixpoint sha1_extend (n : nat) (w : list Z) : list Z :=
  match n with
  | O => w
  | S n =>
      sha1_extend n (rotl 1 (Z.lxor (Z.lxor (nthZ 2 w) (nthZ 7 w)) (Z.lxor (nthZ 13 w) (nthZ 15 w))) :: w)
  end.

Definition sha1_round (st : list Z) (iw : nat * Z) : list Z :=
  match st with
  | [a; b; c; d; e] =>
      let '(f, k) :=
        if (iw.1 <? 20)%nat then (Z.lor (Z.land b c) (Z.land (not32 b) d), 0x5a827999)
        else if (iw.1 <? 40)%nat then (Z.lxor (Z.lxor b c) d, 0x6ed9eba1)
        else if (iw.1 <? 60)%nat
             then (Z.lor (Z.lor (Z.land b c) (Z.land b d)) (Z.land c d), 0x8f1bbcdc)
        else (Z.lxor (Z.lxor b c) d, 0xca62c1d6) in
      [Z.land (rotl 5 a + f + e + k + iw.2) mask32; a; rotl 30 b; c; d]
  | _ => st
  end.

Definition sha1_block (st block : list Z) : list Z :=
  let w := rev (sha1_extend 64 (rev (words_of block))) in
  zip_with add32 st (foldl sha1_round st (zip (seq 0 80) w)).

Definition sha1 (l : list Z) : list Z :=
  flat_map (be_bytes 4) (foldl sha1_block
    [0x67452301; 0xefcdab89; 0x98badcfe; 0x10325476; 0xc3d2e1f0] (chunks 64 (md_pad l))).

Definition hmac_sha1 (key msg : list Z) : list Z :=
  let key := if (64 <? length key)%nat then sha1 key else key in
  let key := (key ++ replicate (64 - length key) 0)%list in
  let xor_with b := (fun k => Z.lxor k b) <$> key in
  sha1 (xor_with 0x5c ++ sha1 (xor_with 0x36 ++ msg))%list.

(** ** Text encodings *)

Definition hex_byte (b : Z) : list Z :=
  let h n := if n <? 10 then 48 + n else 87 + n in [h (b / 16); h (b mod 16)].

(** [hex.EncodeToString] *)
Definition hex_encode (l : list Z) : string := string_of (flat_map hex_byte l).

Definition base32_digit (v : Z) : Z := if v <? 26 then 65 + v else 24 + v.
Definition base32_val (b : Z) : option Z :=
  if in_range b 65 90 then Some (b - 65) else if in_range b 50 55 then Some (b - 24) else None.

(** Unpadded base32: five bytes to eight digits, a shorter last group to
    2, 4, 5 or 7 digits. *)
Definition base32_group (g : list Z) : list Z :=
  let n := length g in
  let x := be_word (g ++ replicate (5 - n) 0) in
  take ((8 * n + 4) / 5)%nat ((fun i => base32_digit (Z.shiftr x (5 * i) mod 32)) <$> [7; 6; 5; 4; 3; 2; 1; 0]).

Definition base32_encode (l : list Z) : string := string_of (flat_map base32_group (chunks 5 l)).

Definition base32_ungroup (g : list Z) : option (list Z) :=
  vs ← mapM base32_val g;
  let n := length g in
  let x := foldl (fun a v => a * 32 + v) 0 (vs ++ replicate (8 - n) 0) in
  if (n =? 1)%nat || (n =? 3)%nat || (n =? 6)%nat then Some []
  else Some (take ((5 * n) / 8)%nat (be_bytes 5 x)).

(** [base32.DecodeString] without padding: newlines are skipped, and a last
    group of 1, 3 or 6 digits yields no bytes. *)
Definition base32_decode (s : string) : option (list Z) :=
  let l := List.filter (fun b => negb ((b =? 13) || (b =? 10))) (bytes_of s) in
  @concat Z <$> mapM base32_ungroup (chunks 8 l).

(** ** session.go *)

Definition GenerateToken (random : option (list Z)) : option string := hex_encode <$> random.

Definition HashToken (token : string) : string := hex_encode (sha256 (bytes_of token)).

(** ** totp.go *)

Definition totpDigits : Z := 6.
Definition totpPeriod : Z := 30 * Second.

Definition generateOpaqueToken (random : option (list Z)) : option string := hex_encode <$> random.
Definition GenerateTOTPSecret (random : option (list Z)) : option string := base32_encode <$> random.

(** ASCII upper case ([strings.ToUpper] on base32 text). *)
Fixpoint upper (s : string) : string :=
  match s with
  | EmptyString => EmptyString
  | String c s =>
      let b := byte_of c in
      String (if in_range b 97 122 then of_byte (b - 32) else c) (upper s)
  end.

(** Six decimal digits with leading zeros. *)
Definition pad6 (n : Z) : string := pad2 (n / 10000) (pad2 (n / 100) (pad2 n "")).

(** [int64] division truncates toward zero. *)
Definition GenerateTOTPCode (secret : string) (at_ : Z) : option string :=
  decoded ← base32_decode (upper (TrimSpace secret));
  let counter := wrap_uint64 (Z.quot (at_ / ns_per_sec) 30) in
  let sum := hmac_sha1 decoded (be_bytes 8 counter) in
  let offset := Z.land (nthZ 19 sum) 0x0F in
  let binaryCode := Z.land (be_word (take 4 (drop (Z.to_nat offset) sum))) 0x7FFFFFFF in
  Some (pad6 (binaryCode mod 1000000)).

Definition VerifyTOTPCode (secret code : string) (at_ : Z) : bool :=
  if negb (Z.of_nat (String.length code) =? totpDigits) then false
  else existsb (fun offset =>
    match GenerateTOTPCode secret (at_ + offset * totpPeriod) with
    | Some candidate => String.eqb candidate code
    | None => false
    end) [-1; 0; 1].

(** Test vectors of FIPS 180 and RFC 6238. *)
Example sha256_abc :
  HashToken "abc" = "ba7816bf8f01cfea414140de5dae2223b00361a396177a9cb410ff61f20015ad".
Proof. vm_compute. reflexivity. Qed.

Example sha1_abc : hex_encode (sha1 (bytes_of "abc")) = "a9993e364706816aba3e25717850c26c9cd0d89d".
Proof. vm_compute. reflexivity. Qed.

Example totp_rfc6238 :
  GenerateTOTPCode "GEZDGNBVGY3TQOJQGEZDGNBVGY3TQOJQ" (59 * ns_per_sec) = Some "287082".
Proof. vm_compute. reflexivity. Qed.

End Crypto.
Export Crypto.
