(* ===== verification/Credentials.v ===== *)
(** * Credentials

    Model of Server/auth: password and user-name rules (password.go,
    helpers.go), the bearer token of a request, the two expiry tests, and the
    in-memory challenge stores of totp.go. The clock is an argument, as is the
    random token (absent when [rand.Read] fails); bcrypt is a parameter. *)

From S2P Require Import Prelude GoText GoTime.
From Stdlib Require Import Ascii.
#[local] Open Scope string_scope.
#[local] Open Scope Z_scope.

Module Cred.

(** ** Passwords *)

Definition minPassLen : Z := 8.
Definition maxPassLen : Z := 72.

Inductive password_error := ErrPasswordTooShort | ErrPasswordTooLong.

Definition ValidatePasswordStrength (password : string) : option password_error :=
  if Z.of_nat (String.length password) <? minPassLen then Some ErrPasswordTooShort
  else if maxPassLen <? Z.of_nat (String.length password) then Some ErrPasswordTooLong
  else None.

Section bcrypt.
(** [bcrypt.CompareHashAndPassword hash password == nil] *)
Variable compare_hash : string -> string -> bool.

Definition CheckPassword (hash password : string) : bool :=
  if String.eqb hash "" then false else compare_hash hash password.
End bcrypt.

(** ** User names *)

Inductive username_error :=
| NameTooShort | NameTooLong | NameControl | NameInvisible.

Fixpoint check_name_runes (l : list Z) : option username_error :=
  match l with
  | [] => None
  | r :: l =>
      if IsControl r then Some NameControl
      else if is_Cf r then Some NameInvisible
      else check_name_runes l
  end.

Definition ValidateUsername (username : string) : option username_error :=
  let username := TrimSpace username in
  let n := rune_count username in
  if n <? 2 then Some NameTooShort
  else if 32 <? n then Some NameTooLong
  else check_name_runes (runes username).

(** ** Bearer tokens *)

(** [strings.SplitN(s, " ", 2)] when it has two parts. *)
Fixpoint split_space (s : string) : option (string * string) :=
  match s with
  | EmptyString => None
  | String c s' =>
      if Ascii.eqb c " " then Some ("", s')
      else '(a, b) ← split_space s'; Some (String c a, b)
  end.

(** The argument is [r.Header.Get("Authorization")]. *)
Definition ExtractBearerToken (header : string) : option string :=
  match split_space header with
  | Some (scheme, token) =>
      if String.eqb (lower scheme) "bearer" && negb (String.eqb token "")
      then Some token else None
  | None => None
  end.

(** ** Expiry *)

(** The two fields of [db.User] that the ban test reads. *)
Record ban_state := mkBan { Banned : bool; BanExpires : option string }.

Definition IsEffectivelyBanned (now : Z) (u : option ban_state) : bool :=
  match u with
  | None => false
  | Some u =>
      if negb (Banned u) then false
      else match BanExpires u with
           | None => true
           | Some e =>
               match parse_timestamp e with
               | Some t => now <? t
               | None => true
               end
           end
  end.

Definition IsSessionExpired (now : Z) (expiresAt : string) : bool :=
  match parse_timestamp expiresAt with
  | Some t => t <? now
  | None => true
  end.

(** ** Challenges of the two-step login *)

Definition partialTokenTTL : Z := 10 * Minute.
Definition enrollmentTTL : Z := 10 * Minute.

Record PartialAuthChallenge := mkChallenge {
  pc_UserID : Z; pc_Device : string; pc_IP : string;
  pc_Failures : Z; pc_ExpiresAt : Z }.

Record PartialAuthStore := mkPartial {
  ps_entries : gmap string PartialAuthChallenge; ps_ttl : Z }.

Definition NewPartialAuthStore (ttl : Z) : PartialAuthStore := mkPartial ∅ ttl.

Definition challenge_live (now : Z) (e : PartialAuthChallenge) : bool :=
  negb (pc_ExpiresAt e <? now).

Definition partial_cleanup (s : PartialAuthStore) (now : Z) : PartialAuthStore :=
  mkPartial (filter (fun '(_, e) => challenge_live now e = true) (ps_entries s)) (ps_ttl s).

(** [now] is the clock at the cleanup, [later] at the insertion. *)
Definition Partial_Issue (s : PartialAuthStore) (token : option string)
    (userID : Z) (device ip : string) (now later : Z) : option string * PartialAuthStore :=
  match token with
  | None => (None, s)
  | Some t =>
      let s := partial_cleanup s now in
      (Some t, mkPartial (<[t := mkChallenge userID device ip 0 (later + ps_ttl s)]> (ps_entries s))
         (ps_ttl s))
  end.

Definition Partial_Lookup (s : PartialAuthStore) (token : string) (now : Z)
  : option PartialAuthChallenge * PartialAuthStore :=
  let s := partial_cleanup s now in (ps_entries s !! token, s).

Definition Partial_Consume (s : PartialAuthStore) (token : string) (now : Z)
  : option PartialAuthChallenge * PartialAuthStore :=
  let s := partial_cleanup s now in
  match ps_entries s !! token with
  | None => (None, s)
  | Some e => (Some e, mkPartial (delete token (ps_entries s)) (ps_ttl s))
  end.

Definition Partial_RegisterFailure (s : PartialAuthStore) (token : string)
    (maxFailures now : Z) : bool * PartialAuthStore :=
  let s := partial_cleanup s now in
  match ps_entries s !! token with
  | None => (false, s)
  | Some e =>
      let e := mkChallenge (pc_UserID e) (pc_Device e) (pc_IP e) (pc_Failures e + 1)
                 (pc_ExpiresAt e) in
      if maxFailures <=? pc_Failures e
      then (false, mkPartial (delete token (ps_entries s)) (ps_ttl s))
      else (true, mkPartial (<[token := e]> (ps_entries s)) (ps_ttl s))
  end.

Record pendingTOTPEnrollment := mkEnrollment { en_Secret : string; en_ExpiresAt : Z }.

Record PendingTOTPStore := mkPending {
  pt_entries : gmap Z pendingTOTPEnrollment; pt_ttl : Z }.

Definition NewPendingTOTPStore (ttl : Z) : PendingTOTPStore := mkPending ∅ ttl.

Definition pending_cleanup (s : PendingTOTPStore) (now : Z) : PendingTOTPStore :=
  mkPending (filter (fun '(_, e) => negb (en_ExpiresAt e <? now) = true) (pt_entries s)) (pt_ttl s).

Definition Pending_Put (s : PendingTOTPStore) (userID : Z) (secret : string)
    (now later : Z) : PendingTOTPStore :=
  let s := pending_cleanup s now in
  mkPending (<[userID := mkEnrollment secret (later + pt_ttl s)]> (pt_entries s)) (pt_ttl s).

Definition Pending_Lookup (s : PendingTOTPStore) (userID : Z) (now : Z)
  : option string * PendingTOTPStore :=
  let s := pending_cleanup s now in (en_Secret <$> pt_entries s !! userID, s).

Definition Pending_Delete (s : PendingTOTPStore) (userID : Z) : PendingTOTPStore :=
  mkPending (delete userID (pt_entries s)) (pt_ttl s).

(** ** Runs of the challenge store *)

Inductive partial_op :=
| PIssue (token : option string) (userID : Z) (device ip : string) (now later : Z)
| PLookup (token : string) (now : Z)
| PConsume (token : string) (now : Z)
| PFail (token : string) (maxFailures now : Z).

(** What an operation returned. *)
Inductive partial_res :=
| RIssued (token : option string)
| REntry (e : option PartialAuthChallenge)
| RAgain (ok : bool).

Definition partial_step (s : PartialAuthStore) (o : partial_op) : partial_res * PartialAuthStore :=
  match o with
  | PIssue t u d ip now later => let '(r, s) := Partial_Issue s t u d ip now later in (RIssued r, s)
  | PLookup t now => let '(r, s) := Partial_Lookup s t now in (REntry r, s)
  | PConsume t now => let '(r, s) := Partial_Consume s t now in (REntry r, s)
  | PFail t m now => let '(r, s) := Partial_RegisterFailure s t m now in (RAgain r, s)
  end.

Fixpoint partial_run (s : PartialAuthStore) (ops : list partial_op)
  : list (partial_op * partial_res) * PartialAuthStore :=
  match ops with
  | [] => ([], s)
  | o :: ops =>
      let '(r, s) := partial_step s o in
      let '(rs, s) := partial_run s ops in ((o, r) :: rs, s)
  end.

(** The operation stores a challenge under this token. *)
Definition issues (tok : string) (o : partial_op) : bool :=
  match o with PIssue (Some t) _ _ _ _ _ => String.eqb t tok | _ => false end.

(** The verification attempts on [tok] that did not end the challenge. *)
Definition survived (tok : string) (maxFailures : Z) (x : partial_op * partial_res) : bool :=
  match x with
  | (PFail t m _, RAgain true) => String.eqb t tok && (m =? maxFailures)
  | _ => false
  end.

(** Redemptions of [tok]. *)
Definition redeemed (tok : string) (x : partial_op * partial_res) : bool :=
  match x with
  | (PConsume t _, REntry (Some _)) => String.eqb t tok
  | _ => false
  end.

(** What a store still allows for [tok]: attempts that may fail without ending
    the challenge, and redemptions. *)
Definition attempts_left (s : PartialAuthStore) (tok : string) (maxFailures : Z) : Z :=
  match ps_entries s !! tok with
  | Some e => Z.max 0 (maxFailures - 1 - pc_Failures e)
  | None => 0
  end.

Definition redemptions_left (s : PartialAuthStore) (tok : string) : Z :=
  match ps_entries s !! tok with Some _ => 1 | None => 0 end.

(** The challenge filed under [tok], if any, is the one issued with these data. *)
Definition filed (s : PartialAuthStore) (tok : string) (userID : Z) (device ip : string)
    (expires : Z) : Prop :=
  forall e, ps_entries s !! tok = Some e ->
    pc_UserID e = userID /\ pc_Device e = device /\ pc_IP e = ip /\ pc_ExpiresAt e = expires /\
    0 <= pc_Failures e.

(** A returned entry for [tok] is that challenge, before its expiry. *)
Definition honest (tok : string) (userID : Z) (device ip : string) (expires : Z)
    (x : partial_op * partial_res) : Prop :=
  match x with
  | (PLookup t now, REntry (Some e)) | (PConsume t now, REntry (Some e)) =>
      t = tok -> now <= expires /\ pc_UserID e = userID /\ pc_Device e = device /\ pc_IP e = ip
  | _ => True
  end.

Lemma partial_cleanup_lookup s now tok e :
  ps_entries (partial_cleanup s now) !! tok = Some e <->
  ps_entries s !! tok = Some e /\ now <= pc_ExpiresAt e.
Proof.
  simpl. rewrite map_lookup_filter_Some. unfold challenge_live.
  rewrite negb_true_iff, Z.ltb_ge. done.
Qed.

Lemma cleanup_attempts s now tok m :
  attempts_left (partial_cleanup s now) tok m <= attempts_left s tok m.
Proof.
  unfold attempts_left. destruct (ps_entries (partial_cleanup s now) !! tok) as [e|] eqn:E.
  - apply partial_cleanup_lookup in E as [-> _]. lia.
  - case_match; lia.
Qed.

Lemma cleanup_redemptions s now tok :
  redemptions_left (partial_cleanup s now) tok <= redemptions_left s tok.
Proof.
  unfold redemptions_left. destruct (ps_entries (partial_cleanup s now) !! tok) as [e|] eqn:E.
  - apply partial_cleanup_lookup in E as [-> _]. lia.
  - case_match; lia.
Qed.

Lemma cleanup_filed s now tok u d i x : filed s tok u d i x -> filed (partial_cleanup s now) tok u d i x.
Proof. intros H e He. apply partial_cleanup_lookup in He as [He _]. by apply H. Qed.

(** One operation that does not issue [tok] spends from its budget. *)
Lemma partial_step_attempts s o tok m : issues tok o = false ->
  Z.of_nat (countb (survived tok m) [(o, (partial_step s o).1)]) +
    attempts_left (partial_step s o).2 tok m <= attempts_left s tok m.
Proof.
  intros Hi. unfold countb. destruct o as [t u d i n l|t n|t n|t k n]; simpl.
  - destruct t as [t|]; simpl in *; [|lia]. apply String.eqb_neq in Hi.
    pose proof (cleanup_attempts s n tok m) as Hc. revert Hc. unfold attempts_left. simpl.
    by rewrite lookup_insert_ne.
  - apply cleanup_attempts.
  - pose proof (cleanup_attempts s n tok m) as Hc. revert Hc.
    unfold Partial_Consume. destruct (ps_entries (partial_cleanup s n) !! t) as [e|]; [|done].
    unfold attempts_left. simpl.
    destruct (decide (t = tok)) as [->|?]; [rewrite lookup_delete_eq|by rewrite lookup_delete_ne].
    case_match; lia.
  - pose proof (cleanup_attempts s n tok m) as Hc. revert Hc.
    unfold Partial_RegisterFailure. destruct (ps_entries (partial_cleanup s n) !! t) as [e|] eqn:E; [|done].
    cbn [pc_Failures]. destruct (k <=? pc_Failures e + 1) eqn:Hk; bools; simpl.
    + unfold attempts_left. simpl.
      destruct (decide (t = tok)) as [->|?]; [rewrite lookup_delete_eq|by rewrite lookup_delete_ne].
      case_match; lia.
    + unfold attempts_left. simpl. destruct (String.eqb_spec t tok) as [->|?].
      * cbn in E. rewrite E, lookup_insert_eq. simpl. destruct (Z.eqb_spec k m); simpl; lia.
      * rewrite lookup_insert_ne by done. simpl. done.
Qed.

Lemma partial_step_redemptions s o tok : issues tok o = false ->
  Z.of_nat (countb (redeemed tok) [(o, (partial_step s o).1)]) +
    redemptions_left (partial_step s o).2 tok <= redemptions_left s tok.
Proof.
  intros Hi. unfold countb. destruct o as [t u d i n l|t n|t n|t k n]; simpl.
  - destruct t as [t|]; simpl in *; [|lia]. apply String.eqb_neq in Hi.
    pose proof (cleanup_redemptions s n tok) as Hc. revert Hc. unfold redemptions_left. simpl.
    by rewrite lookup_insert_ne.
  - apply cleanup_redemptions.
  - pose proof (cleanup_redemptions s n tok) as Hc. revert Hc.
    unfold Partial_Consume. destruct (ps_entries (partial_cleanup s n) !! t) as [e|] eqn:E; [|done].
    unfold redemptions_left. simpl. destruct (String.eqb_spec t tok) as [->|?].
    + rewrite lookup_delete_eq. intros Hc. simpl in E. rewrite E in Hc. simpl in *. lia.
    + by rewrite lookup_delete_ne.
  - pose proof (cleanup_redemptions s n tok) as Hc. revert Hc.
    unfold Partial_RegisterFailure. destruct (ps_entries (partial_cleanup s n) !! t) as [e|] eqn:E; [|done].
    cbn [pc_Failures]. unfold redemptions_left. destruct (decide (t = tok)) as [->|?].
    + rewrite E. destruct (k <=? pc_Failures e + 1); simpl;
        rewrite ?lookup_delete_eq, ?lookup_insert_eq; lia.
    + destruct (k <=? pc_Failures e + 1); simpl;
        rewrite ?lookup_delete_ne, ?lookup_insert_ne by done; done.
Qed.

Lemma partial_step_filed s o tok u d i x : issues tok o = false -> filed s tok u d i x ->
  filed (partial_step s o).2 tok u d i x /\ honest tok u d i x (o, (partial_step s o).1).
Proof.
  intros Hi Hf. pose proof (fun n => cleanup_filed s n tok u d i x Hf) as Hc.
  destruct o as [t u' d' i' n l|t n|t n|t k n]; simpl.
  - destruct t as [t|]; simpl in *; [|done]. apply String.eqb_neq in Hi. split; [|done].
    intros e He. simpl in He. rewrite lookup_insert_ne in He by done. by apply (Hc n).
  - split; [apply Hc|]. case_match eqn:E; [|done]. intros ->.
    apply partial_cleanup_lookup in E as [E He]. destruct (Hf _ E) as (?&?&?&?&?). lia || subst; auto.
  - unfold Partial_Consume. destruct (ps_entries (partial_cleanup s n) !! t) as [e|] eqn:E.
    + split.
      * intros e' He'. simpl in He'. apply lookup_delete_Some in He' as [_ He']. by apply (Hc n).
      * simpl. intros ->. apply partial_cleanup_lookup in E as [E He].
        destruct (Hf _ E) as (?&?&?&?&?). subst; auto.
    + split; [apply Hc|done].
  - unfold Partial_RegisterFailure. destruct (ps_entries (partial_cleanup s n) !! t) as [e|] eqn:E;
      [|split; [apply Hc|done]].
    cbn [pc_Failures].
    destruct (k <=? pc_Failures e + 1); simpl; (split; [|done]); intros e' He'; simpl in He'.
    + apply lookup_delete_Some in He' as [_ He']. by apply (Hc n).
    + apply lookup_insert_Some in He' as [[-> <-]|[_ He']]; [|by apply (Hc n)].
      destruct (Hc n _ E) as (?&?&?&?&?). simpl. repeat split; auto; lia.
Qed.

(** The three facts over a run. *)
Lemma partial_run_budget s ops tok u d i x m :
  Forall (fun o => issues tok o = false) ops -> filed s tok u d i x ->
  let log := (partial_run s ops).1 in
  Z.of_nat (countb (survived tok m) log) <= attempts_left s tok m /\
  Z.of_nat (countb (redeemed tok) log) <= redemptions_left s tok /\
  Forall (honest tok u d i x) log.
Proof.
  intros Hops. revert s. induction Hops as [|o ops Ho _ IH]; intros s Hf; simpl.
  - unfold attempts_left, redemptions_left.
    destruct (ps_entries s !! tok); (split; [|split]); try apply Forall_nil_2;
      unfold countb; simpl; lia.
  - pose proof (partial_step_attempts s o tok m Ho) as Ha.
    pose proof (partial_step_redemptions s o tok Ho) as Hr.
    destruct (partial_step_filed s o tok u d i x Ho Hf) as [Hf' Hh].
    destruct (partial_step s o) as [r s'] eqn:Es. simpl in Ha, Hr, Hf', Hh.
    specialize (IH s' Hf'). destruct (partial_run s' ops) as [rs s''] eqn:Er. simpl in IH |- *.
    change ((o, r) :: rs) with (([(o, r)] ++ rs)%list). rewrite !countb_app.
    destruct IH as (IHa & IHr & IHh). split; [lia|split; [lia|]]. by constructor.
Qed.

End Cred.
Export Cred.

(** A partial-login token can fail verification at most [maxFailures - 1]
    times without being dropped, can be redeemed at most once, and every
    challenge returned for it before it is issued again is the one it was
    issued with (same user, device and address), no later than its expiry,
    whatever other operations run on the store. *)
Theorem PartialAuth_budget s tok userID device ip now later ops maxFailures
    (Hmax : 1 <= maxFailures)
    (Hops : Forall (fun o => issues tok o = false) ops) :
  let s' := (Partial_Issue s (Some tok) userID device ip now later).2 in
  let log := (partial_run s' ops).1 in
  Z.of_nat (countb (survived tok maxFailures) log) <= maxFailures - 1 /\
  (countb (redeemed tok) log <= 1)%nat /\
  Forall (honest tok userID device ip (later + ps_ttl s)) log.
Proof.
  cbv zeta. simpl.
  set (s' := mkPartial _ _).
  assert (Hl : ps_entries s' !! tok = Some (mkChallenge userID device ip 0 (later + ps_ttl s)))
    by apply lookup_insert_eq.
  assert (Hf : filed s' tok userID device ip (later + ps_ttl s)).
  { intros e He. rewrite Hl in He. simplify_eq. simpl. repeat split; lia. }
  destruct (partial_run_budget s' ops tok userID device ip _ maxFailures Hops Hf) as (Ha & Hr & Hh).
  unfold attempts_left, redemptions_left in Ha, Hr. rewrite Hl in Ha, Hr. simpl in Ha.
  split; [lia|split; [lia|done]].
Qed.

Lemma PartialAuth_budget_witness :
  let ops := [PFail "a" 2 10; PLookup "b" 11; PFail "a" 2 12; PConsume "a" 13] in
  let log := (partial_run (Partial_Issue (NewPartialAuthStore 100) (Some "a") 7 "d" "ip" 1 1).2 ops).1 in
  Z.of_nat (countb (survived "a" 2) log) <= 2 - 1 /\ (countb (redeemed "a") log <= 1)%nat /\
  Forall (honest "a" 7 "d" "ip" (1 + ps_ttl (NewPartialAuthStore 100))) log.
Proof.
  apply (PartialAuth_budget (NewPartialAuthStore 100) "a" 7 "d" "ip" 1 1
    [PFail "a" 2 10; PLookup "b" 11; PFail "a" 2 12; PConsume "a" 13] 2).
  - lia.
  - repeat constructor.
Defined.

(** A session (or temporary ban) whose expiry was written as text, in the
    ISO layout of the server or the SQL layout of SQLite, expires exactly when
    the clock passes the whole second it names; text in neither layout counts
    as expired for a session and as still active for a ban. *)
Theorem expiry_text_exact now t (Hy : year_in_range t) :
  let sec := t / ns_per_sec * ns_per_sec in
  IsSessionExpired now (FormatISO t) = (sec <? now) /\
  IsSessionExpired now (FormatSQL t) = (sec <? now) /\
  IsEffectivelyBanned now (Some (mkBan true (Some (FormatISO t)))) = (now <? sec) /\
  IsEffectivelyBanned now (Some (mkBan true (Some (FormatSQL t)))) = (now <? sec) /\
  (forall e, parse_timestamp e = None -> IsSessionExpired now e = true /\
     IsEffectivelyBanned now (Some (mkBan true (Some e))) = true).
Proof.
  unfold IsSessionExpired, IsEffectivelyBanned. cbv zeta. cbn [Banned BanExpires negb].
  rewrite parse_timestamp_ISO, parse_timestamp_SQL by done.
  repeat split; by rewrite H.
Qed.

Lemma expiry_text_exact_witness :
  let t := 1700000000123456789 in
  IsSessionExpired 1700000000000000001 (FormatISO t) = true /\
  IsEffectivelyBanned 1700000000000000001 (Some (mkBan true (Some (FormatSQL t)))) = false.
Proof.
  assert (Hy : year_in_range 1700000000123456789).
  { unfold year_in_range. vm_compute. split; intros H; discriminate H. }
  destruct (expiry_text_exact 1700000000000000001 1700000000123456789 Hy) as (H1 & _ & _ & H4 & _).
  split; [exact H1|exact H4].
Defined.
