(* ===== verification/Rows.v ===== *)
(** * Rows of the database

    The tables of Server/migrations as typed rows (the structs of
    Server/db/models.go), and the database value that holds them. A table with
    an integer primary key is a map from it, a table keyed by several columns a
    map or a set over their tuple; each AUTOINCREMENT table has the next id it
    will assign. Timestamps are the text SQLite stores. *)

From S2P Require Import Prelude.
#[local] Open Scope Z_scope.

Module Rows.

Record User := mkUser {
  u_id : Z; u_username : string; u_password : string; u_avatar : option string;
  u_role : Z; u_totp : option string; u_status : string; u_created : string;
  u_last_seen : option string; u_banned : bool; u_ban_reason : option string;
  u_ban_expires : option string }.

Record Session := mkSession {
  s_id : Z; s_user : Z; s_token : string; s_device : string; s_ip : string;
  s_created : string; s_last_used : string; s_expires : string }.

Record Invite := mkInvite {
  i_id : Z; i_code : string; i_created_by : Z; i_uses : Z; i_max_uses : option Z;
  i_expires : option string; i_revoked : bool; i_created : string }.

Record Role := mkRole {
  r_id : Z; r_name : string; r_color : option string; r_permissions : Z;
  r_position : Z; r_is_default : bool }.

Record Channel := mkChannel {
  c_id : Z; c_name : string; c_type : string; c_category : string; c_topic : string;
  c_position : Z; c_slow_mode : Z; c_archived : bool; c_created : string;
  c_voice_max_users : Z; c_voice_quality : option string;
  c_mixing_threshold : option Z; c_voice_max_video : Z }.

Record Message := mkMessage {
  m_id : Z; m_channel : Z; m_user : Z; m_content : string; m_reply_to : option Z;
  m_edited_at : option string; m_deleted : bool; m_pinned : bool; m_timestamp : string }.

Record Attachment := mkAttachment {
  a_id : string; a_message : option Z; a_filename : string; a_stored_as : string;
  a_mime : string; a_size : Z; a_uploaded_at : string; a_width : option Z;
  a_height : option Z }.

Record VoiceRow := mkVoiceRow {
  v_channel : Z; v_muted : bool; v_deafened : bool; v_speaking : bool;
  v_camera : bool; v_screenshare : bool; v_joined_at : string }.

(** [db.VoiceState]: a voice row joined with the user's name. *)
Record VoiceState := mkVoiceState {
  vs_UserID : Z; vs_ChannelID : Z; vs_Username : string; vs_Muted : bool;
  vs_Deafened : bool; vs_Speaking : bool; vs_Camera : bool; vs_Screenshare : bool }.

Record AuditRow := mkAudit {
  au_id : Z; au_actor : Z; au_action : string; au_target_type : string;
  au_target : Z; au_detail : string; au_created : string }.

(** The database. *)
Record Db := mkDb {
  users : gmap Z User;
  roles : gmap Z Role;
  channels : gmap Z Channel;
  overrides : gmap (Z * Z) (Z * Z);
  messages : gmap Z Message;
  reactions : gset (Z * Z * string);
  dm_participants : gset (Z * Z);
  dm_open_state : gmap (Z * Z) string;
  read_states : gmap (Z * Z) Z;
  voice_states : gmap Z VoiceRow;
  sessions : gmap Z Session;
  attachments : gmap string Attachment;
  invites : gmap Z Invite;
  audit_log : list AuditRow;
  settings : gmap string string;
  next_user : Z;
  next_channel : Z;
  next_message : Z;
  next_session : Z;
  next_invite : Z;
  next_audit : Z }.

(** Field updates. *)
Definition set_users (x : gmap Z User) (d : Db) : Db :=
  mkDb x (roles d) (channels d) (overrides d) (messages d) (reactions d) (dm_participants
    d) (dm_open_state d) (read_states d) (voice_states d) (sessions d) (attachments d)
    (invites d) (audit_log d) (settings d) (next_user d) (next_channel d)
    (next_message d) (next_session d) (next_invite d) (next_audit d).
Definition set_roles (x : gmap Z Role) (d : Db) : Db :=
  mkDb (users d) x (channels d) (overrides d) (messages d) (reactions d) (dm_participants
    d) (dm_open_state d) (read_states d) (voice_states d) (sessions d) (attachments d)
    (invites d) (audit_log d) (settings d) (next_user d) (next_channel d)
    (next_message d) (next_session d) (next_invite d) (next_audit d).
Definition set_channels (x : gmap Z Channel) (d : Db) : Db :=
  mkDb (users d) (roles d) x (overrides d) (messages d) (reactions d) (dm_participants d)
    (dm_open_state d) (read_states d) (voice_states d) (sessions d) (attachments d)
    (invites d) (audit_log d) (settings d) (next_user d) (next_channel d)
    (next_message d) (next_session d) (next_invite d) (next_audit d).
Definition set_overrides (x : gmap (Z * Z) (Z * Z)) (d : Db) : Db :=
  mkDb (users d) (roles d) (channels d) x (messages d) (reactions d) (dm_participants d)
    (dm_open_state d) (read_states d) (voice_states d) (sessions d) (attachments d)
    (invites d) (audit_log d) (settings d) (next_user d) (next_channel d)
    (next_message d) (next_session d) (next_invite d) (next_audit d).
Definition set_messages (x : gmap Z Message) (d : Db) : Db :=
  mkDb (users d) (roles d) (channels d) (overrides d) x (reactions d) (dm_participants d)
    (dm_open_state d) (read_states d) (voice_states d) (sessions d) (attachments d)
    (invites d) (audit_log d) (settings d) (next_user d) (next_channel d)
    (next_message d) (next_session d) (next_invite d) (next_audit d).
Definition set_reactions (x : gset (Z * Z * string)) (d : Db) : Db :=
  mkDb (users d) (roles d) (channels d) (overrides d) (messages d) x (dm_participants d)
    (dm_open_state d) (read_states d) (voice_states d) (sessions d) (attachments d)
    (invites d) (audit_log d) (settings d) (next_user d) (next_channel d)
    (next_message d) (next_session d) (next_invite d) (next_audit d).
Definition set_dm_participants (x : gset (Z * Z)) (d : Db) : Db :=
  mkDb (users d) (roles d) (channels d) (overrides d) (messages d) (reactions d) x
    (dm_open_state d) (read_states d) (voice_states d) (sessions d) (attachments d)
    (invites d) (audit_log d) (settings d) (next_user d) (next_channel d)
    (next_message d) (next_session d) (next_invite d) (next_audit d).
Definition set_dm_open_state (x : gmap (Z * Z) string) (d : Db) : Db :=
  mkDb (users d) (roles d) (channels d) (overrides d) (messages d) (reactions d)
    (dm_participants d) x (read_states d) (voice_states d) (sessions d) (attachments
    d) (invites d) (audit_log d) (settings d) (next_user d) (next_channel d)
    (next_message d) (next_session d) (next_invite d) (next_audit d).
Definition set_read_states (x : gmap (Z * Z) Z) (d : Db) : Db :=
  mkDb (users d) (roles d) (channels d) (overrides d) (messages d) (reactions d)
    (dm_participants d) (dm_open_state d) x (voice_states d) (sessions d) (attachments
    d) (invites d) (audit_log d) (settings d) (next_user d) (next_channel d)
    (next_message d) (next_session d) (next_invite d) (next_audit d).
Definition set_voice_states (x : gmap Z VoiceRow) (d : Db) : Db :=
  mkDb (users d) (roles d) (channels d) (overrides d) (messages d) (reactions d)
    (dm_participants d) (dm_open_state d) (read_states d) x (sessions d) (attachments
    d) (invites d) (audit_log d) (settings d) (next_user d) (next_channel d)
    (next_message d) (next_session d) (next_invite d) (next_audit d).
Definition set_sessions (x : gmap Z Session) (d : Db) : Db :=
  mkDb (users d) (roles d) (channels d) (overrides d) (messages d) (reactions d)
    (dm_participants d) (dm_open_state d) (read_states d) (voice_states d) x
    (attachments d) (invites d) (audit_log d) (settings d) (next_user d) (next_channel
    d) (next_message d) (next_session d) (next_invite d) (next_audit d).
Definition set_attachments (x : gmap string Attachment) (d : Db) : Db :=
  mkDb (users d) (roles d) (channels d) (overrides d) (messages d) (reactions d)
    (dm_participants d) (dm_open_state d) (read_states d) (voice_states d) (sessions
    d) x (invites d) (audit_log d) (settings d) (next_user d) (next_channel d)
    (next_message d) (next_session d) (next_invite d) (next_audit d).
Definition set_invites (x : gmap Z Invite) (d : Db) : Db :=
  mkDb (users d) (roles d) (channels d) (overrides d) (messages d) (reactions d)
    (dm_participants d) (dm_open_state d) (read_states d) (voice_states d) (sessions
    d) (attachments d) x (audit_log d) (settings d) (next_user d) (next_channel d)
    (next_message d) (next_session d) (next_invite d) (next_audit d).
Definition set_audit_log (x : list AuditRow) (d : Db) : Db :=
  mkDb (users d) (roles d) (channels d) (overrides d) (messages d) (reactions d)
    (dm_participants d) (dm_open_state d) (read_states d) (voice_states d) (sessions
    d) (attachments d) (invites d) x (settings d) (next_user d) (next_channel d)
    (next_message d) (next_session d) (next_invite d) (next_audit d).
Definition set_settings (x : gmap string string) (d : Db) : Db :=
  mkDb (users d) (roles d) (channels d) (overrides d) (messages d) (reactions d)
    (dm_participants d) (dm_open_state d) (read_states d) (voice_states d) (sessions
    d) (attachments d) (invites d) (audit_log d) x (next_user d) (next_channel d)
    (next_message d) (next_session d) (next_invite d) (next_audit d).
Definition set_next_user (x : Z) (d : Db) : Db :=
  mkDb (users d) (roles d) (channels d) (overrides d) (messages d) (reactions d)
    (dm_participants d) (dm_open_state d) (read_states d) (voice_states d) (sessions
    d) (attachments d) (invites d) (audit_log d) (settings d) x (next_channel d)
    (next_message d) (next_session d) (next_invite d) (next_audit d).
Definition set_next_channel (x : Z) (d : Db) : Db :=
  mkDb (users d) (roles d) (channels d) (overrides d) (messages d) (reactions d)
    (dm_participants d) (dm_open_state d) (read_states d) (voice_states d) (sessions
    d) (attachments d) (invites d) (audit_log d) (settings d) (next_user d) x
    (next_message d) (next_session d) (next_invite d) (next_audit d).
Definition set_next_message (x : Z) (d : Db) : Db :=
  mkDb (users d) (roles d) (channels d) (overrides d) (messages d) (reactions d)
    (dm_participants d) (dm_open_state d) (read_states d) (voice_states d) (sessions
    d) (attachments d) (invites d) (audit_log d) (settings d) (next_user d)
    (next_channel d) x (next_session d) (next_invite d) (next_audit d).
Definition set_next_session (x : Z) (d : Db) : Db :=
  mkDb (users d) (roles d) (channels d) (overrides d) (messages d) (reactions d)
    (dm_participants d) (dm_open_state d) (read_states d) (voice_states d) (sessions
    d) (attachments d) (invites d) (audit_log d) (settings d) (next_user d)
    (next_channel d) (next_message d) x (next_invite d) (next_audit d).
Definition set_next_invite (x : Z) (d : Db) : Db :=
  mkDb (users d) (roles d) (channels d) (overrides d) (messages d) (reactions d)
    (dm_participants d) (dm_open_state d) (read_states d) (voice_states d) (sessions
    d) (attachments d) (invites d) (audit_log d) (settings d) (next_user d)
    (next_channel d) (next_message d) (next_session d) x (next_audit d).
Definition set_next_audit (x : Z) (d : Db) : Db :=
  mkDb (users d) (roles d) (channels d) (overrides d) (messages d) (reactions d)
    (dm_participants d) (dm_open_state d) (read_states d) (voice_states d) (sessions
    d) (attachments d) (invites d) (audit_log d) (settings d) (next_user d)
    (next_channel d) (next_message d) (next_session d) (next_invite d) x.

(** ** Row updates *)

Definition user_set_status (st : string) (seen : option string) (u : User) : User :=
  mkUser (u_id u) (u_username u) (u_password u) (u_avatar u) (u_role u) (u_totp u) st
    (u_created u) seen (u_banned u) (u_ban_reason u) (u_ban_expires u).
Definition user_set_totp (x : option string) (u : User) : User :=
  mkUser (u_id u) (u_username u) (u_password u) (u_avatar u) (u_role u) x (u_status u)
    (u_created u) (u_last_seen u) (u_banned u) (u_ban_reason u) (u_ban_expires u).
Definition user_set_ban (b : bool) (reason expires : option string) (u : User) : User :=
  mkUser (u_id u) (u_username u) (u_password u) (u_avatar u) (u_role u) (u_totp u) (u_status u)
    (u_created u) (u_last_seen u) b reason expires.
Definition user_set_role (r : Z) (u : User) : User :=
  mkUser (u_id u) (u_username u) (u_password u) (u_avatar u) r (u_totp u) (u_status u)
    (u_created u) (u_last_seen u) (u_banned u) (u_ban_reason u) (u_ban_expires u).
Definition user_anonymise (name : string) (u : User) : User :=
  mkUser (u_id u) name "" None (u_role u) None "offline"
    (u_created u) (u_last_seen u) true (Some "account deleted") (u_ban_expires u).

Definition session_touch (t : string) (s : Session) : Session :=
  mkSession (s_id s) (s_user s) (s_token s) (s_device s) (s_ip s) (s_created s) t (s_expires s).

Definition invite_use (i : Invite) : Invite :=
  mkInvite (i_id i) (i_code i) (i_created_by i) (i_uses i + 1) (i_max_uses i) (i_expires i)
    (i_revoked i) (i_created i).
Definition invite_revoke (i : Invite) : Invite :=
  mkInvite (i_id i) (i_code i) (i_created_by i) (i_uses i) (i_max_uses i) (i_expires i)
    true (i_created i).

Definition channel_set_info (name topic : string) (slow : Z) (c : Channel) : Channel :=
  mkChannel (c_id c) name (c_type c) (c_category c) topic (c_position c) slow (c_archived c)
    (c_created c) (c_voice_max_users c) (c_voice_quality c) (c_mixing_threshold c)
    (c_voice_max_video c).
Definition channel_set_place (position : Z) (archived : bool) (c : Channel) : Channel :=
  mkChannel (c_id c) (c_name c) (c_type c) (c_category c) (c_topic c) position (c_slow_mode c)
    archived (c_created c) (c_voice_max_users c) (c_voice_quality c) (c_mixing_threshold c)
    (c_voice_max_video c).
Definition channel_set_voice_max (n : Z) (c : Channel) : Channel :=
  mkChannel (c_id c) (c_name c) (c_type c) (c_category c) (c_topic c) (c_position c)
    (c_slow_mode c) (c_archived c) (c_created c) n (c_voice_quality c) (c_mixing_threshold c)
    (c_voice_max_video c).

Definition message_set_content (content : string) (edited : option string) (m : Message) : Message :=
  mkMessage (m_id m) (m_channel m) (m_user m) content (m_reply_to m) edited (m_deleted m)
    (m_pinned m) (m_timestamp m).
Definition message_set_deleted (m : Message) : Message :=
  mkMessage (m_id m) (m_channel m) (m_user m) (m_content m) (m_reply_to m) (m_edited_at m) true
    (m_pinned m) (m_timestamp m).
Definition message_wipe (m : Message) : Message :=
  mkMessage (m_id m) (m_channel m) (m_user m) "" (m_reply_to m) (m_edited_at m) true
    (m_pinned m) (m_timestamp m).
Definition message_set_pinned (b : bool) (m : Message) : Message :=
  mkMessage (m_id m) (m_channel m) (m_user m) (m_content m) (m_reply_to m) (m_edited_at m)
    (m_deleted m) b (m_timestamp m).
Definition message_set_reply (r : option Z) (m : Message) : Message :=
  mkMessage (m_id m) (m_channel m) (m_user m) (m_content m) r (m_edited_at m)
    (m_deleted m) (m_pinned m) (m_timestamp m).

Definition attachment_link (id : option Z) (a : Attachment) : Attachment :=
  mkAttachment (a_id a) id (a_filename a) (a_stored_as a) (a_mime a) (a_size a)
    (a_uploaded_at a) (a_width a) (a_height a).

Definition voice_set_muted (b : bool) (v : VoiceRow) : VoiceRow :=
  mkVoiceRow (v_channel v) b (v_deafened v) (v_speaking v) (v_camera v) (v_screenshare v) (v_joined_at v).
Definition voice_set_deafened (b : bool) (v : VoiceRow) : VoiceRow :=
  mkVoiceRow (v_channel v) (v_muted v) b (v_speaking v) (v_camera v) (v_screenshare v) (v_joined_at v).
Definition voice_set_camera (b : bool) (v : VoiceRow) : VoiceRow :=
  mkVoiceRow (v_channel v) (v_muted v) (v_deafened v) (v_speaking v) b (v_screenshare v) (v_joined_at v).
Definition voice_set_screenshare (b : bool) (v : VoiceRow) : VoiceRow :=
  mkVoiceRow (v_channel v) (v_muted v) (v_deafened v) (v_speaking v) (v_camera v) b (v_joined_at v).

(** [UPDATE t SET .. WHERE k = id]: nothing happens when the row is absent. *)
Definition update_row `{Countable K} {V} (k : K) (f : V -> V) (m : gmap K V) : gmap K V :=
  alter f k m.

End Rows.
Export Rows.
