(* ===== verification/Store.v ===== *)
(** * The database operations

    Model of Server/db: every query and update as a function of the database
    value. The SQL text is part of the source and is given its documented
    meaning (foreign keys are enforced, AUTOINCREMENT ids grow, a statement that
    fails leaves the database as it was). The engine may fail at any statement:
    the process state carries a list of faults to draw from, one per statement,
    and of clock increments, so that theorems hold for every schedule of
    failures and delays. *)

From S2P Require Import Prelude Permissions GoText GoTime Rows.
#[local] Open Scope string_scope.
#[local] Open Scope Z_scope.

Module Store.

(** ** The process state the database calls run in *)

Inductive db_error :=
| DbFault          (* the engine failed: I/O, lock, closed handle *)
| DbUnique         (* UNIQUE or PRIMARY KEY constraint *)
| DbForeignKey     (* FOREIGN KEY constraint *)
| ErrNoRows        (* sql.ErrNoRows, where the code returns it *)
| ErrNotFound
| ErrForbidden
| ErrLastAdmin.

#[export] Instance db_error_eq : EqDecision db_error.
Proof. solve_decision. Defined.

(** [IsUniqueConstraintError] *)
Definition IsUniqueConstraintError (e : db_error) : bool := bool_decide (e = DbUnique).

Record Sys := mkSys {
  sys_db : Db; sys_faults : list bool; sys_now : Z; sys_ticks : list Z }.

Definition with_db (d : Db) (s : Sys) : Sys := mkSys d (sys_faults s) (sys_now s) (sys_ticks s).

(** Time passes. *)
Definition tick (s : Sys) : Sys :=
  match sys_ticks s with
  | [] => s
  | t :: ts => mkSys (sys_db s) (sys_faults s) (sys_now s + Z.max 0 t) ts
  end.

(** [time.Now()] *)
Definition read_clock : ST Sys Z := fun s => let s := tick s in (sys_now s, s).

Definition drop_fault (s : Sys) : Sys :=
  mkSys (sys_db s) (tail (sys_faults s)) (sys_now s) (sys_ticks s).
Definition faulty (s : Sys) : bool := match sys_faults s with b :: _ => b | [] => false end.

(** One statement: [f] receives the clock and the database and gives either
    a constraint error or a result with the new database. *)
Definition exec {A} (f : Z -> Db -> result db_error (A * Db)) : ST Sys (result db_error A) :=
  fun s =>
    let s := tick s in
    if faulty s then (inl DbFault, drop_fault s)
    else match f (sys_now s) (sys_db s) with
         | inl e => (inl e, drop_fault s)
         | inr (a, d) => (inr a, with_db d (drop_fault s))
         end.

(** A SELECT. *)
Definition query {A} (f : Db -> A) : ST Sys (result db_error A) :=
  exec (fun _ d => inr (f d, d)).

(** An UPDATE or DELETE without constraints to check. *)
Definition update (f : Z -> Db -> Db) : ST Sys (result db_error unit) :=
  exec (fun now d => inr (tt, f now d)).

(** [if err != nil { return .., err }] between two calls. *)
Definition or_return {A B} (m : ST Sys (result db_error A))
    (k : A -> ST Sys (result db_error B)) : ST Sys (result db_error B) :=
  r ← m; match r with inl e => mret (inl e) | inr a => k a end.

(** [Begin .. Commit] around a body; any error rolls back. *)
Definition in_tx {A} (body : ST Sys (result db_error A)) : ST Sys (result db_error A) :=
  fun s =>
    let '(b, s1) := query (fun _ => tt) s in
    match b with
    | inl e => (inl e, s1)
    | inr _ =>
        let '(r, s2) := body s1 in
        match r with
        | inl e => (inl e, with_db (sys_db s1) s2)
        | inr a =>
            let '(c, s3) := query (fun _ => tt) s2 in
            match c with
            | inl e => (inl e, with_db (sys_db s1) s3)
            | inr _ => (inr a, s3)
            end
        end
    end.

(** ** Rows and conditions *)

Definition rows `{Countable K} {V} (m : gmap K V) : list V := (map_to_list m).*2.
Definition find_row `{Countable K} {V} (p : V -> bool) (m : gmap K V) : option V :=
  List.find p (rows m).
Definition has `{Countable K} {V} (k : K) (m : gmap K V) : bool :=
  match m !! k with Some _ => true | None => false end.
Definition has_opt `{Countable K} {V} (k : option K) (m : gmap K V) : bool :=
  match k with Some k => has k m | None => true end.

(** [LIMIT n] (a negative limit is none) and [OFFSET n]. *)
Definition sql_limit {A} (n : Z) (l : list A) : list A :=
  if n <? 0 then l else take (Z.to_nat n) l.
Definition sql_offset {A} (n : Z) (l : list A) : list A := drop (Z.to_nat n) l.

(** [strftime('%s', e)]: NULL when [e] is no timestamp. The server writes the
    two layouts of GoTime only. *)
Definition strftime_s (e : string) : option string :=
  t ← parse_timestamp e; Some (itoa (t / ns_per_sec)).
Definition strftime_now (now : Z) : string := itoa (now / ns_per_sec).

(** [datetime('now')] *)
Definition datetime_now (now : Z) : string := FormatSQL now.

(** [a < b] between TEXT values, false when one is NULL. *)
Definition text_lt (a b : option string) : bool :=
  match a, b with Some a, Some b => String.ltb a b | _, _ => false end.

Definition asc {A} (key : A -> Z) (x y : A) : bool := key x <=? key y.
Definition desc {A} (key : A -> Z) (x y : A) : bool := key y <=? key x.
Definition text_asc {A} (key : A -> string) (x y : A) : bool := String.leb (key x) (key y).
Definition text_desc {A} (key : A -> string) (x y : A) : bool := String.leb (key y) (key x).

(** ** Users *)

Definition same_name (a b : string) : bool := String.eqb (lower a) (lower b).

(** INSERT INTO users: the UNIQUE name is compared COLLATE NOCASE. *)
Definition insert_user (username password : string) (role now : Z) (d : Db)
  : result db_error (Z * Db) :=
  if existsb (fun u => same_name (u_username u) username) (rows (users d)) then inl DbUnique
  else if negb (has role (roles d)) then inl DbForeignKey
  else
    let id := next_user d in
    inr (id, set_next_user (id + 1) (set_users (<[id := mkUser id username password None role None
      "offline" (datetime_now now) None false None None]> (users d)) d)).

Definition CreateUser (username passwordHash : string) (roleID : Z) : ST Sys (result db_error Z) :=
  exec (insert_user username passwordHash roleID).

Definition GetUserByUsername (username : string) : ST Sys (result db_error (option User)) :=
  query (fun d => find_row (fun u => same_name (u_username u) username) (users d)).

Definition GetUserByID (id : Z) : ST Sys (result db_error (option User)) :=
  query (fun d => users d !! id).

Definition UpdateUserStatus (id : Z) (status : string) : ST Sys (result db_error unit) :=
  update (fun now d => set_users
    (update_row id (user_set_status status (Some (datetime_now now))) (users d)) d).

Definition UpdateUserTOTPSecret (id : Z) (secret : option string) : ST Sys (result db_error unit) :=
  update (fun _ d => set_users (update_row id (user_set_totp secret) (users d)) d).

Definition ResetAllUserStatuses : ST Sys (result db_error unit) :=
  update (fun _ d => set_users ((fun u =>
    if String.eqb (u_status u) "offline" then u
    else user_set_status "offline" (u_last_seen u) u) <$> users d) d).

Definition BanUser (id : Z) (reason : string) (expires : option Z) : ST Sys (result db_error unit) :=
  update (fun _ d => set_users
    (update_row id (user_set_ban true (Some reason) (FormatISO <$> expires)) (users d)) d).

Definition UnbanUser (id : Z) : ST Sys (result db_error unit) :=
  update (fun _ d => set_users (update_row id (user_set_ban false None None) (users d)) d).

Definition UpdateUserRole (userID roleID : Z) : ST Sys (result db_error unit) :=
  exec (fun _ d =>
    if has userID (users d) && negb (has roleID (roles d)) then inl DbForeignKey
    else inr (tt, set_users (update_row userID (user_set_role roleID) (users d)) d)).

Record MemberSummary := mkMember {
  ms_ID : Z; ms_Username : string; ms_Avatar : option string; ms_Status : string; ms_Role : string }.

(** [username] is a NOCASE column: ASCII letters are ordered without their case. *)
Definition ListMembers : ST Sys (result db_error (list MemberSummary)) :=
  query (fun d => sort_by (text_asc (fun m => lower (ms_Username m)))
    (omap (fun u => r ← roles d !! u_role u;
       if u_banned u then None
       else Some (mkMember (u_id u) (u_username u) (u_avatar u) (u_status u) (lower (r_name r))))
     (rows (users d)))).

Definition UserCount : ST Sys (result db_error Z) :=
  query (fun d => Z.of_nat (size (users d))).

(** User with the role's name. *)
Definition ListAllUsers (limit offset : Z) : ST Sys (result db_error (list (User * string))) :=
  query (fun d => sql_limit limit (sql_offset offset
    (sort_by (asc (fun x => u_id x.1))
       ((fun u => (u, match roles d !! u_role u with Some r => r_name r | None => "" end))
          <$> rows (users d))))).

Definition CountUsersWithoutTOTP : ST Sys (result db_error Z) :=
  query (fun d => Z.of_nat (countb (fun u => negb (u_banned u) &&
    match u_totp u with None => true | Some _ => false end) (rows (users d)))).

(** ** Roles *)

Definition GetRoleByID (id : Z) : ST Sys (result db_error (option Role)) :=
  query (fun d => roles d !! id).

Definition ListRoles : ST Sys (result db_error (list Role)) :=
  query (fun d => sort_by (desc r_position) (rows (roles d))).

(** ** Sessions *)

Definition sessionTTL : Z := 30 * 24 * Hour.

(** INSERT INTO sessions; the expiry was computed by the caller. *)
Definition insert_session (userID : Z) (tokenHash device ip expires : string) (now : Z) (d : Db)
  : result db_error (Z * Db) :=
  if existsb (fun s => String.eqb (s_token s) tokenHash) (rows (sessions d)) then inl DbUnique
  else if negb (has userID (users d)) then inl DbForeignKey
  else
    let id := next_session d in
    inr (id, set_next_session (id + 1) (set_sessions (<[id := mkSession id userID tokenHash
      device ip (datetime_now now) (datetime_now now) expires]> (sessions d)) d)).

Definition CreateSession (userID : Z) (tokenHash device ip : string) : ST Sys (result db_error Z) :=
  now ← read_clock;
  exec (insert_session userID tokenHash device ip (FormatISO (now + sessionTTL))).

Definition session_by_token (tokenHash : string) (d : Db) : option Session :=
  find_row (fun s => String.eqb (s_token s) tokenHash) (sessions d).

Definition GetSessionByTokenHash (tokenHash : string) : ST Sys (result db_error (option Session)) :=
  query (session_by_token tokenHash).

Record SessionWithBanStatus := mkSessionBan {
  sb_session : Session; sb_Banned : bool; sb_BanReason : option string;
  sb_BanExpires : option string }.

Definition GetSessionWithBanStatus (tokenHash : string)
  : ST Sys (result db_error (option SessionWithBanStatus)) :=
  query (fun d =>
    s ← session_by_token tokenHash d; u ← users d !! s_user s;
    Some (mkSessionBan s (u_banned u) (u_ban_reason u) (u_ban_expires u))).

Definition DeleteSession (tokenHash : string) : ST Sys (result db_error unit) :=
  update (fun _ d => set_sessions
    (filter (fun '(_, s) => String.eqb (s_token s) tokenHash = false) (sessions d)) d).

Definition DeleteExpiredSessions : ST Sys (result db_error unit) :=
  update (fun now d => set_sessions
    (filter (fun '(_, s) =>
       text_lt (strftime_s (s_expires s)) (Some (strftime_now now)) = false) (sessions d)) d).

Definition TouchSession (tokenHash : string) : ST Sys (result db_error unit) :=
  update (fun now d => set_sessions ((fun s =>
    if String.eqb (s_token s) tokenHash then session_touch (datetime_now now) s else s)
      <$> sessions d) d).

Definition delete_user_sessions (userID : Z) (d : Db) : Db :=
  set_sessions (filter (fun '(_, s) => s_user s <> userID) (sessions d)) d.

Definition ForceLogoutUser (userID : Z) : ST Sys (result db_error unit) :=
  update (fun _ => delete_user_sessions userID).

Definition GetUserSessions (userID : Z) : ST Sys (result db_error (list Session)) :=
  query (fun d => sort_by (text_desc s_created)
    (List.filter (fun s => s_user s =? userID) (rows (sessions d)))).

(** ** Invites *)

(** The WHERE clause that guards a redemption. *)
Definition invite_usable (now : Z) (code : string) (i : Invite) : bool :=
  String.eqb (i_code i) code && negb (i_revoked i) &&
  match i_max_uses i with None => true | Some m => i_uses i <? m end &&
  match i_expires i with
  | None => true
  | Some e => text_lt (Some (strftime_now now)) (strftime_s e)
  end.

(** The UPDATE; no row affected is [ErrNotFound]. *)
Definition redeem_invite (code : string) (now : Z) (d : Db) : result db_error (unit * Db) :=
  if existsb (invite_usable now code) (rows (invites d))
  then inr (tt, set_invites ((fun i => if invite_usable now code i then invite_use i else i)
                                <$> invites d) d)
  else inl ErrNotFound.

(** The code is random; [None] when the generator fails (an engine error here). *)
Definition CreateInvite (code : option string) (createdBy maxUses : Z) (expiresAt : option Z)
  : ST Sys (result db_error string) :=
  match code with
  | None => mret (inl DbFault)
  | Some code =>
      exec (fun now d =>
        if existsb (fun i => String.eqb (i_code i) code) (rows (invites d)) then inl DbUnique
        else if negb (has createdBy (users d)) then inl DbForeignKey
        else
          let id := next_invite d in
          inr (code, set_next_invite (id + 1) (set_invites (<[id := mkInvite id code createdBy 0
            (if 0 <? maxUses then Some maxUses else None) (FormatISO <$> expiresAt) false
            (datetime_now now)]> (invites d)) d)))
  end.

Definition GetInvite (code : string) : ST Sys (result db_error (option Invite)) :=
  query (fun d => find_row (fun i => String.eqb (i_code i) code) (invites d)).

Definition UseInviteAtomic (code : string) : ST Sys (result db_error unit) :=
  exec (redeem_invite code).

Definition RevokeInvite (code : string) : ST Sys (result db_error unit) :=
  update (fun _ d => set_invites ((fun i =>
    if String.eqb (i_code i) code then invite_revoke i else i) <$> invites d) d).

Definition ListInvites : ST Sys (result db_error (list Invite)) :=
  query (fun d => sort_by (text_desc i_created) (rows (invites d))).

Definition CreateUserWithInvite (username passwordHash : string) (roleID : Z) (inviteCode : string)
  : ST Sys (result db_error Z) :=
  in_tx (or_return (exec (redeem_invite inviteCode))
           (fun _ => exec (insert_user username passwordHash roleID))).

(** ** Channels *)

Definition ListChannels : ST Sys (result db_error (list Channel)) :=
  query (fun d => sort_by (asc c_position) (sort_by (asc c_id) (rows (channels d)))).

Definition GetChannel (id : Z) : ST Sys (result db_error (option Channel)) :=
  query (fun d => channels d !! id).

Definition insert_channel (name chanType category topic : string) (position now : Z) (d : Db)
  : Z * Db :=
  let id := next_channel d in
  (id, set_next_channel (id + 1) (set_channels (<[id := mkChannel id name chanType category topic
    position 0 false (datetime_now now) 0 None None 25]> (channels d)) d)).

Definition CreateChannel (name chanType category topic : string) (position : Z)
  : ST Sys (result db_error Z) :=
  exec (fun now d => inr (insert_channel name chanType category topic position now d)).

Definition UpdateChannel (id : Z) (name topic : string) (slowMode : Z) : ST Sys (result db_error unit) :=
  update (fun _ d => set_channels (update_row id (channel_set_info name topic slowMode) (channels d)) d).

Definition SetChannelSlowMode (id slowMode : Z) : ST Sys (result db_error unit) :=
  update (fun _ d => set_channels
    (update_row id (fun c => channel_set_info (c_name c) (c_topic c) slowMode c) (channels d)) d).

Definition SetChannelVoiceMaxUsers (id maxUsers : Z) : ST Sys (result db_error unit) :=
  update (fun _ d => set_channels (update_row id (channel_set_voice_max maxUsers) (channels d)) d).

Definition AdminUpdateChannel (id : Z) (name topic : string) (slowMode position : Z)
    (archived : bool) : ST Sys (result db_error unit) :=
  update (fun _ d => set_channels
    (update_row id (fun c => channel_set_place position archived
       (channel_set_info name topic slowMode c)) (channels d)) d).

(** DELETE FROM channels, with the cascades of the schema: the channel's
    messages (hence their attachments, reactions and the replies to them),
    overrides, read states, voice states and DM rows. *)
Definition delete_channel (id : Z) (d : Db) : Db :=
  let kept := filter (fun '(_, m) => m_channel m <> id) (messages d) in
  let keep_reply r := match r with Some k => if has k kept then r else None | None => None end in
  set_channels (delete id (channels d))
  (set_messages ((fun m => message_set_reply (keep_reply (m_reply_to m)) m) <$> kept)
  (set_attachments (filter (fun '(_, a) => has_opt (a_message a) kept = true) (attachments d))
  (set_reactions (filter (fun '(mid, _, _) => has mid kept = true) (reactions d))
  (set_overrides (filter (fun '((c, _), _) => c <> id) (overrides d))
  (set_read_states (filter (fun '((_, c), _) => c <> id) (read_states d))
  (set_voice_states (filter (fun '(_, v) => v_channel v <> id) (voice_states d))
  (set_dm_participants (filter (fun '(c, _) => c <> id) (dm_participants d))
  (set_dm_open_state (filter (fun '((_, c), _) => c <> id) (dm_open_state d)) d)))))))).

Definition DeleteChannel (id : Z) : ST Sys (result db_error unit) :=
  update (fun _ => delete_channel id).

Definition GetAllChannelPermissionsForRole (roleID : Z)
  : ST Sys (result db_error (gmap Z ChannelOverride)) :=
  query (fun d => list_to_map
    (omap (fun '((c, r), (a, dn)) => if r =? roleID then Some (c, mkOverride a dn) else None)
       (map_to_list (overrides d)))).

Definition GetChannelTypes (ids : list Z) : ST Sys (result db_error (gmap Z string)) :=
  match ids with
  | [] => mret (inr ∅)
  | _ => query (fun d => c_type <$> filter (fun '(i, _) => i ∈ ids) (channels d))
  end.

#[export] Instance sys_permdb : PermDB Sys db_error := {
  GetChannelPermissions ch r := query (fun d => default (0, 0) (overrides d !! (ch, r)));
  IsDMParticipant u ch := query (fun d => bool_decide ((ch, u) ∈ dm_participants d))
}.

(** ** Voice states *)

Definition voice_joined (d : Db) (u : Z) (v : VoiceRow) : option VoiceState :=
  usr ← users d !! u;
  Some (mkVoiceState u (v_channel v) (u_username usr) (v_muted v) (v_deafened v) (v_speaking v)
          (v_camera v) (v_screenshare v)).

Definition JoinVoiceChannel (userID channelID : Z) : ST Sys (result db_error unit) :=
  exec (fun now d =>
    if has userID (users d) && has channelID (channels d)
    then inr (tt, set_voice_states (<[userID := mkVoiceRow channelID false false false false false
                (datetime_now now)]> (voice_states d)) d)
    else inl DbForeignKey).

Definition delete_voice_state (userID : Z) (d : Db) : Db :=
  set_voice_states (delete userID (voice_states d)) d.

Definition LeaveVoiceChannel (userID : Z) : ST Sys (result db_error unit) :=
  update (fun _ => delete_voice_state userID).

Definition ClearVoiceState (userID : Z) : ST Sys (result db_error unit) :=
  update (fun _ => delete_voice_state userID).

Definition ClearAllVoiceStates : ST Sys (result db_error unit) :=
  update (fun _ d => set_voice_states ∅ d).

Definition GetVoiceState (userID : Z) : ST Sys (result db_error (option VoiceState)) :=
  query (fun d => v ← voice_states d !! userID; voice_joined d userID v).

(** Voice rows in the order of their user ids, then by [joined_at]. *)
Definition voice_rows (d : Db) (p : VoiceRow -> bool) : list VoiceState :=
  omap (fun '(u, v) => voice_joined d u v)
    (sort_by (text_asc (fun x => v_joined_at x.2))
       (sort_by (asc fst) (List.filter (fun x => p x.2) (map_to_list (voice_states d))))).

Definition GetChannelVoiceStates (channelID : Z) : ST Sys (result db_error (list VoiceState)) :=
  query (fun d => voice_rows d (fun v => v_channel v =? channelID)).

Definition GetAllVoiceStates : ST Sys (result db_error (list VoiceState)) :=
  query (fun d => sort_by (asc vs_ChannelID) (voice_rows d (fun _ => true))).

Definition update_voice (userID : Z) (f : VoiceRow -> VoiceRow) : ST Sys (result db_error unit) :=
  update (fun _ d => set_voice_states (update_row userID f (voice_states d)) d).

Definition UpdateVoiceMute (userID : Z) (b : bool) := update_voice userID (voice_set_muted b).
Definition UpdateVoiceDeafen (userID : Z) (b : bool) := update_voice userID (voice_set_deafened b).
Definition UpdateVoiceCamera (userID : Z) (b : bool) := update_voice userID (voice_set_camera b).
Definition UpdateVoiceScreenshare (userID : Z) (b : bool) :=
  update_voice userID (voice_set_screenshare b).

Definition cameras_in (channelID : Z) (d : Db) : Z :=
  Z.of_nat (countb (fun v => (v_channel v =? channelID) && v_camera v) (rows (voice_states d))).
Definition voice_users_in (channelID : Z) (d : Db) : Z :=
  Z.of_nat (countb (fun v => v_channel v =? channelID) (rows (voice_states d))).

Definition CountActiveCameras (channelID : Z) : ST Sys (result db_error Z) :=
  query (cameras_in channelID).
Definition CountChannelVoiceUsers (channelID : Z) : ST Sys (result db_error Z) :=
  query (voice_users_in channelID).

(** ** Messages *)

Definition CreateMessage (channelID userID : Z) (content : string) (replyTo : option Z)
  : ST Sys (result db_error Z) :=
  exec (fun now d =>
    if has channelID (channels d) && has userID (users d) && has_opt replyTo (messages d) then
      let id := next_message d in
      inr (id, set_next_message (id + 1) (set_messages (<[id := mkMessage id channelID userID content
        replyTo None false false (datetime_now now)]> (messages d)) d))
    else inl DbForeignKey).

Definition GetMessage (id : Z) : ST Sys (result db_error (option Message)) :=
  query (fun d => messages d !! id).

(** The visible messages of a channel, newest first, before an id when it is
    positive: the FROM, WHERE and ORDER BY of the two list queries. *)
Definition channel_messages (channelID before : Z) (extra : Message -> bool) (d : Db)
  : list (Message * User) :=
  omap (fun m => u ← users d !! m_user m; Some (m, u))
    (sort_by (desc m_id)
       (List.filter (fun m => (m_channel m =? channelID) && negb (m_deleted m) &&
          (if 0 <? before then m_id m <? before else true) && extra m) (rows (messages d)))).

Definition GetMessages (channelID before limit : Z)
  : ST Sys (result db_error (list (Message * User))) :=
  query (fun d => sql_limit limit (channel_messages channelID before (fun _ => true) d)).

Definition EditMessage (id userID : Z) (content : string) : ST Sys (result db_error unit) :=
  or_return (GetMessage id) (fun msg =>
    match msg with
    | None => mret (inl ErrNotFound)
    | Some m =>
        if negb (m_user m =? userID) then mret (inl ErrForbidden)
        else update (fun now d => set_messages
               (update_row id (message_set_content content (Some (datetime_now now))) (messages d)) d)
    end).

Definition DeleteMessage (id userID : Z) (ismod : bool) : ST Sys (result db_error unit) :=
  or_return (GetMessage id) (fun msg =>
    match msg with
    | None => mret (inl ErrNotFound)
    | Some m =>
        if negb ismod && negb (m_user m =? userID) then mret (inl ErrForbidden)
        else update (fun _ d => set_messages (update_row id message_set_deleted (messages d)) d)
    end).

Definition SetMessagePinned (id : Z) (pinned : bool) : ST Sys (result db_error unit) :=
  exec (fun _ d =>
    match messages d !! id with
    | Some m => if m_deleted m then inl ErrNotFound
                else inr (tt, set_messages (<[id := message_set_pinned pinned m]> (messages d)) d)
    | None => inl ErrNotFound
    end).

Definition latest_message_id (channelID : Z) (d : Db) : Z :=
  foldr Z.max 0 (m_id <$> List.filter (fun m => (m_channel m =? channelID) && negb (m_deleted m))
                            (rows (messages d))).

Definition GetLatestMessageID (channelID : Z) : ST Sys (result db_error Z) :=
  query (latest_message_id channelID).

(** ** Reactions *)

Definition AddReaction (messageID userID : Z) (emoji : string) : ST Sys (result db_error unit) :=
  exec (fun _ d =>
    if bool_decide ((messageID, userID, emoji) ∈ reactions d) then inl DbUnique
    else if has messageID (messages d) && has userID (users d)
    then inr (tt, set_reactions ({[(messageID, userID, emoji)]} ∪ reactions d) d)
    else inl DbForeignKey).

Definition RemoveReaction (messageID userID : Z) (emoji : string) : ST Sys (result db_error unit) :=
  exec (fun _ d =>
    if bool_decide ((messageID, userID, emoji) ∈ reactions d)
    then inr (tt, set_reactions (reactions d ∖ {[(messageID, userID, emoji)]}) d)
    else inl ErrNotFound).

Record ReactionInfo := mkReaction { ri_Emoji : string; ri_Count : Z; ri_Me : bool }.

(** GROUP BY emoji over the reactions of one message. *)
Definition reaction_groups (messageID me : Z) (d : Db) : list ReactionInfo :=
  let rs := List.filter (fun '(m, _, _) => m =? messageID) (elements (reactions d)) in
  let emojis := sort_by String.leb (elements (list_to_set (snd <$> rs) : gset string)) in
  (fun e =>
     let mine := List.filter (fun '(_, _, e') => String.eqb e e') rs in
     mkReaction e (Z.of_nat (length mine)) (existsb (fun '(_, u, _) => u =? me) mine)) <$> emojis.

Definition GetReactions (messageID : Z) : ST Sys (result db_error (list ReactionInfo)) :=
  query (fun d => (fun r => mkReaction (ri_Emoji r) (ri_Count r) false) <$> reaction_groups messageID 0 d).

Definition getReactionsBatch (msgIDs : list Z) (requestingUserID : Z)
  : ST Sys (result db_error (gmap Z (list ReactionInfo))) :=
  match msgIDs with
  | [] => mret (inr ∅)
  | _ => query (fun d => list_to_map (omap (fun m =>
           match reaction_groups m requestingUserID d with
           | [] => None
           | g => Some (m, g)
           end) msgIDs))
  end.

(** ** Read states and unread counts *)

Definition UpdateReadState (userID channelID lastReadMessageID : Z) : ST Sys (result db_error unit) :=
  exec (fun _ d =>
    if has userID (users d) && has channelID (channels d)
    then inr (tt, set_read_states (<[(userID, channelID) := lastReadMessageID]> (read_states d)) d)
    else inl DbForeignKey).

Record ChannelUnread := mkUnread { cu_LastMessageID : Z; cu_UnreadCount : Z }.

Definition unread_after (channelID last : Z) (d : Db) : Z :=
  Z.of_nat (countb (fun m => (m_channel m =? channelID) && negb (m_deleted m) && (last <? m_id m))
    (rows (messages d))).

Definition last_read (userID channelID : Z) (d : Db) : Z :=
  default 0 (read_states d !! (userID, channelID)).

Definition GetChannelUnreadCounts (userID : Z) : ST Sys (result db_error (gmap Z ChannelUnread)) :=
  query (fun d => map_imap (fun c ch =>
    if String.eqb (c_type ch) "text"
    then Some (mkUnread (latest_message_id c d) (unread_after c (last_read userID c d) d))
    else None) (channels d)).

(** ** Attachments *)

Definition CreateAttachment (id filename storedAs mimeType : string) (size : Z)
    (width height : option Z) : ST Sys (result db_error unit) :=
  exec (fun now d =>
    if has id (attachments d) then inl DbUnique
    else inr (tt, set_attachments (<[id := mkAttachment id None filename storedAs mimeType size
           (datetime_now now) width height]> (attachments d)) d)).

Definition GetAttachmentByID (id : string) : ST Sys (result db_error (option Attachment)) :=
  query (fun d => attachments d !! id).

(** The rows the UPDATE matches. *)
Definition linkable (ids : list string) (a : Attachment) : bool :=
  bool_decide (a_id a ∈ ids) && match a_message a with None => true | Some _ => false end.

Definition LinkAttachmentsToMessage (messageID : Z) (attachmentIDs : list string)
  : ST Sys (result db_error Z) :=
  match attachmentIDs with
  | [] => mret (inr 0)
  | ids =>
      exec (fun _ d =>
        let n := countb (linkable ids) (rows (attachments d)) in
        if negb (n =? 0)%nat && negb (has messageID (messages d)) then inl DbForeignKey
        else inr (Z.of_nat n, set_attachments ((fun a =>
               if linkable ids a then attachment_link (Some messageID) a else a)
                 <$> attachments d) d))
  end.

(** [db.AttachmentInfo] *)
Record AttachmentInfo := mkAttInfo {
  ai_ID : string; ai_Filename : string; ai_Size : Z; ai_Mime : string; ai_URL : string;
  ai_Width : option Z; ai_Height : option Z }.

Definition attachment_info (a : Attachment) : AttachmentInfo :=
  mkAttInfo (a_id a) (a_filename a) (a_size a) (a_mime a) ("/api/v1/files/" +:+ a_id a)
    (a_width a) (a_height a).

Definition attachments_of (m : Z) (d : Db) : list AttachmentInfo :=
  attachment_info <$> List.filter (fun a => bool_decide (a_message a = Some m)) (rows (attachments d)).

Definition GetAttachmentsByMessageIDs (msgIDs : list Z)
  : ST Sys (result db_error (gmap Z (list AttachmentInfo))) :=
  match msgIDs with
  | [] => mret (inr ∅)
  | _ => query (fun d => list_to_map (omap (fun m =>
           match attachments_of m d with [] => None | g => Some (m, g) end) msgIDs))
  end.

Definition orphaned (cutoff : string) (a : Attachment) : bool :=
  match a_message a with None => String.ltb (a_uploaded_at a) cutoff | Some _ => false end.

Definition DeleteOrphanedAttachments (cutoff : string) : ST Sys (result db_error (list string)) :=
  or_return (query (fun d => a_stored_as <$> List.filter (orphaned cutoff) (rows (attachments d))))
    (fun files =>
       match files with
       | [] => mret (inr [])
       | _ => or_return (update (fun _ d => set_attachments
                (filter (fun '(_, a) => orphaned cutoff a = false) (attachments d)) d))
                (fun _ => mret (inr files))
       end).

(** ** Message lists of the REST API *)

Record MessageAPIResponse := mkApiMsg {
  am_message : Message; am_Username : string; am_Avatar : option string;
  am_Attachments : list AttachmentInfo; am_Reactions : list ReactionInfo }.

Definition scanAndEnrichMessages (ms : list (Message * User)) (requestingUserID : Z)
  : ST Sys (result db_error (list MessageAPIResponse)) :=
  match ms with
  | [] => mret (inr [])
  | _ =>
      let ids := m_id ∘ fst <$> ms in
      or_return (getReactionsBatch ids requestingUserID) (fun reacts =>
      or_return (GetAttachmentsByMessageIDs ids) (fun atts =>
      mret (inr ((fun '(m, u) => mkApiMsg m (u_username u) (u_avatar u)
        (default [] (atts !! m_id m)) (default [] (reacts !! m_id m))) <$> ms))))
  end.

Definition GetMessagesForAPI (channelID before limit requestingUserID : Z)
  : ST Sys (result db_error (list MessageAPIResponse)) :=
  or_return (GetMessages channelID before limit)
    (fun ms => scanAndEnrichMessages ms requestingUserID).

Definition GetPinnedMessages (channelID requestingUserID : Z)
  : ST Sys (result db_error (list MessageAPIResponse)) :=
  or_return (query (channel_messages channelID 0 m_pinned))
    (fun ms => scanAndEnrichMessages ms requestingUserID).

(** ** Direct messages *)

Definition dm_members (channelID : Z) (d : Db) : list Z :=
  sort_by Z.leb (snd <$> List.filter (fun '(c, _) => c =? channelID) (elements (dm_participants d))).

(** The channels both users take part in, of type "dm". *)
Definition dm_common (user1 user2 : Z) (d : Db) : list Z :=
  sort_by Z.leb (List.filter (fun c =>
      bool_decide ((c, user2) ∈ dm_participants d) &&
      match channels d !! c with Some ch => String.eqb (c_type ch) "dm" | None => false end)
    (fst <$> List.filter (fun '(_, u) => u =? user1) (elements (dm_participants d)))).

Definition open_dm (userID channelID now : Z) (d : Db) : result db_error (unit * Db) :=
  if has userID (users d) && has channelID (channels d)
  then inr (tt, if has (userID, channelID) (dm_open_state d) then d
           else set_dm_open_state (<[(userID, channelID) := datetime_now now]> (dm_open_state d)) d)
  else inl DbForeignKey.

Definition insert_participants (channelID user1 user2 : Z) (d : Db) : result db_error (unit * Db) :=
  if (user1 =? user2) || bool_decide ((channelID, user1) ∈ dm_participants d)
     || bool_decide ((channelID, user2) ∈ dm_participants d) then inl DbUnique
  else if has user1 (users d) && has user2 (users d) && has channelID (channels d)
  then inr (tt, set_dm_participants ({[(channelID, user1); (channelID, user2)]} ∪ dm_participants d) d)
  else inl DbForeignKey.

(** The transaction of [GetOrCreateDMChannel]: the channel id and whether it is
    new. The re-open of an existing channel ignores its own failure. *)
Definition dm_channel_tx (user1ID user2ID : Z) : ST Sys (result db_error (Z * bool)) :=
  or_return (query (fun d => head (dm_common user1ID user2ID d))) (fun existing =>
    match existing with
    | Some ch =>
        _ ← exec (open_dm user1ID ch);
        mret (inr (ch, false))
    | None =>
        or_return (exec (fun now d => inr (insert_channel "" "dm" "" "" 0 now d))) (fun ch =>
        or_return (exec (fun _ => insert_participants ch user1ID user2ID)) (fun _ =>
        or_return (exec (fun now d =>
          match open_dm user1ID ch now d with
          | inl e => inl e
          | inr (_, d) => open_dm user2ID ch now d
          end)) (fun _ => mret (inr (ch, true)))))
    end).

(** [None] for the channel is the nil pointer of a fresh channel that the
    final read did not find; for an existing channel that is an error. *)
Definition GetOrCreateDMChannel (user1ID user2ID : Z)
  : ST Sys (result db_error (option Channel * bool)) :=
  or_return (in_tx (dm_channel_tx user1ID user2ID)) (fun '(ch, created) =>
    or_return (GetChannel ch) (fun c =>
      match c, created with
      | None, false => mret (inl ErrNotFound)
      | _, _ => mret (inr (c, created))
      end)).

Definition OpenDM (userID channelID : Z) : ST Sys (result db_error unit) :=
  exec (open_dm userID channelID).

Definition CloseDM (userID channelID : Z) : ST Sys (result db_error unit) :=
  update (fun _ d => set_dm_open_state (delete (userID, channelID) (dm_open_state d)) d).

Definition GetDMParticipantIDs (channelID : Z) : ST Sys (result db_error (list Z)) :=
  query (dm_members channelID).

Definition GetDMRecipient (channelID requestingUserID : Z) : ST Sys (result db_error (option User)) :=
  or_return (query (fun d => List.find (fun u => negb (u =? requestingUserID)) (dm_members channelID d)))
    (fun r => match r with None => mret (inr None) | Some u => GetUserByID u end).

Record DMChannelInfo := mkDMInfo {
  di_ChannelID : Z; di_Recipient : User; di_LastMessage : option Message; di_UnreadCount : Z }.

Definition last_message (channelID : Z) (d : Db) : option Message :=
  let id := latest_message_id channelID d in
  if 0 <? id then messages d !! id else None.

(** One row per open DM; the count of unread messages is taken after the join
    with the other participants. *)
Definition dm_info (userID : Z) (d : Db) (x : Z * Z * string) : option (DMChannelInfo * string) :=
  let '(owner, c, opened) := x in
  if negb (owner =? userID) then None
  else
    ch ← channels d !! c;
    if negb (String.eqb (c_type ch) "dm") then None
    else
      let others := List.filter (fun u => negb (u =? userID)) (dm_members c d) in
      o ← head others; u ← users d !! o;
      let lm := last_message c d in
      Some (mkDMInfo c u lm (Z.of_nat (length others) * unread_after c (last_read userID c d) d),
            match lm with Some m => m_timestamp m | None => opened end).

Definition GetUserDMChannels (userID : Z) : ST Sys (result db_error (list DMChannelInfo)) :=
  query (fun d => fst <$> sort_by (text_desc snd)
    (omap (dm_info userID d) (map_to_list (dm_open_state d)))).

(** ** Account deletion *)

Definition roleOwner : Z := 1.
Definition roleAdmin : Z := 2.
Definition admin_class (r : Z) : bool := (r =? roleOwner) || (r =? roleAdmin).

Definition other_admins (userID : Z) (d : Db) : nat :=
  countb (fun u => admin_class (u_role u) && negb (u_id u =? userID) && negb (u_banned u))
    (rows (users d)).

Definition deleted_name (userID : Z) : string := "[deleted-" +:+ itoa userID +:+ "]".

Definition purge_steps (userID : Z) : list (Db -> Db) := [
  delete_user_sessions userID;
  (fun d => set_dm_participants (filter (fun '(_, u) => u <> userID) (dm_participants d)) d);
  (fun d => set_dm_open_state (filter (fun '((u, _), _) => u <> userID) (dm_open_state d)) d);
  (fun d => set_reactions (filter (fun '(_, u, _) => u <> userID) (reactions d)) d);
  (fun d => set_read_states (filter (fun '((u, _), _) => u <> userID) (read_states d)) d)].

Fixpoint exec_all (fs : list (Db -> Db)) : ST Sys (result db_error unit) :=
  match fs with
  | [] => mret (inr tt)
  | f :: fs => or_return (update (fun _ => f)) (fun _ => exec_all fs)
  end.

Definition DeleteAccount (userID : Z) : ST Sys (result db_error unit) :=
  in_tx (
    or_return (exec (fun _ d =>
      match users d !! userID with Some u => inr (u_role u, d) | None => inl ErrNoRows end))
    (fun userRoleID =>
    or_return (if admin_class userRoleID
               then or_return (query (other_admins userID))
                      (fun n => mret (if (n =? 0)%nat then inl ErrLastAdmin else inr tt))
               else mret (inr tt)) (fun _ =>
    or_return (exec_all (purge_steps userID)) (fun _ =>
    or_return (update (fun _ d => set_messages ((fun m =>
      if m_user m =? userID then message_wipe m else m) <$> messages d) d)) (fun _ =>
    exec (fun _ d =>
      if existsb (fun u => negb (u_id u =? userID) && same_name (u_username u) (deleted_name userID))
           (rows (users d)) then inl DbUnique
      else inr (tt, set_users (update_row userID (user_anonymise (deleted_name userID)) (users d)) d))))))).

(** ** Audit log and settings *)

Definition LogAudit (actorID : Z) (action targetType : string) (targetID : Z) (detail : string)
  : ST Sys (result db_error unit) :=
  update (fun now d =>
    let id := next_audit d in
    set_next_audit (id + 1) (set_audit_log
      (mkAudit id actorID action targetType targetID detail (datetime_now now) :: audit_log d) d)).

(** Entries with the actor's name, newest first. *)
Definition GetAuditLog (limit offset : Z) : ST Sys (result db_error (list (AuditRow * string))) :=
  query (fun d => sql_limit limit (sql_offset offset
    ((fun a => (a, match users d !! au_actor a with Some u => u_username u | None => "" end))
       <$> sort_by (desc au_id) (audit_log d)))).

Definition GetSetting (key : string) : ST Sys (result db_error string) :=
  exec (fun _ d => match settings d !! key with Some v => inr (v, d) | None => inl ErrNotFound end).

Definition SetSetting (key value : string) : ST Sys (result db_error unit) :=
  update (fun _ d => set_settings (<[key := value]> (settings d)) d).

Definition GetAllSettings : ST Sys (result db_error (gmap string string)) := query settings.

End Store.
Export Store.
