(* ===== verification/StoreInv.v ===== *)
(** * Integrity of the database

    The invariant every operation of Store.v keeps: foreign keys point to rows,
    unique columns are unique, AUTOINCREMENT ids are fresh, no invite is used
    beyond its limit, and two users share at most one direct-message channel. *)

From S2P Require Import Prelude Permissions GoText GoTime Rows Store.
#[local] Open Scope Z_scope.

Module StoreInv.

(** ** Reasoning about statements *)

Lemma tick_db s : sys_db (tick s) = sys_db s.
Proof. unfold tick. by destruct (sys_ticks s). Qed.

Lemma tick_now s : sys_now s <= sys_now (tick s).
Proof. unfold tick. destruct (sys_ticks s); simpl; lia. Qed.

(** A statement fails and leaves the database, or runs at some later time. *)
Lemma exec_cases {A} (f : Z -> Db -> result db_error (A * Db)) s :
  (exists e, (exec f s).1 = inl e /\ sys_db (exec f s).2 = sys_db s) \/
  (exists now a d, (exec f s).1 = inr a /\ f now (sys_db s) = inr (a, d) /\
     sys_db (exec f s).2 = d /\ sys_now s <= now).
Proof.
  unfold exec. rewrite tick_db.
  destruct (faulty (tick s)); [left; exists DbFault; simpl; by rewrite tick_db|].
  destruct (f (sys_now (tick s)) (sys_db s)) as [e|[a d]] eqn:E.
  - left. exists e. simpl. by rewrite tick_db.
  - right. exists (sys_now (tick s)), a, d. simpl. repeat split; auto. apply tick_now.
Qed.

Lemma query_cases {A} (f : Db -> A) s :
  sys_db (query f s).2 = sys_db s /\
  ((exists e, (query f s).1 = inl e) \/ (query f s).1 = inr (f (sys_db s))).
Proof.
  unfold query.
  destruct (exec_cases (fun _ d => inr (f d, d)) s)
    as [(e & H & Hd)|(now & a & d & H & E & Hd & _)].
  - split; [done|]. left. by exists e.
  - injection E as <- <-. split; [done|]. by right.
Qed.

Lemma query_db {A} (f : Db -> A) s : sys_db (query f s).2 = sys_db s.
Proof. apply query_cases. Qed.

(** [m] keeps the predicate [I] of the database. *)
Definition preserves {A} (I : Db -> Prop) (m : ST Sys A) : Prop :=
  forall s, I (sys_db s) -> I (sys_db (m s).2).

Section rules.
Context (I : Db -> Prop).

Lemma preserves_ret {A} (a : A) : preserves I (mret a).
Proof. intros s Hs; exact Hs. Qed.

Lemma preserves_bind {A B} (m : ST Sys A) (k : A -> ST Sys B) :
  preserves I m -> (forall a, preserves I (k a)) -> preserves I (m ≫= k).
Proof. intros Hm Hk s Hs. by apply Hk, Hm. Qed.

Lemma preserves_or_return {A B} (m : ST Sys (result db_error A)) (k : A -> ST Sys (result db_error B)) :
  preserves I m -> (forall a, preserves I (k a)) -> preserves I (or_return m k).
Proof. intros Hm Hk. apply preserves_bind; [done|]. intros [e|a]; [apply preserves_ret|apply Hk]. Qed.

Lemma preserves_exec {A} (f : Z -> Db -> result db_error (A * Db)) :
  (forall now d a d', I d -> f now d = inr (a, d') -> I d') -> preserves I (exec f).
Proof.
  intros Hf s Hs. destruct (exec_cases f s) as [(e & _ & ->)|(now & a & d & _ & E & -> & _)].
  - done.
  - by eapply Hf.
Qed.

Lemma preserves_query {A} (f : Db -> A) : preserves I (query f).
Proof. intros s. by rewrite query_db. Qed.

Lemma preserves_update (f : Z -> Db -> Db) :
  (forall now d, I d -> I (f now d)) -> preserves I (update f).
Proof. intros Hf. apply preserves_exec. intros now d a d' Hd E. simplify_eq. by apply Hf. Qed.

Lemma preserves_read_clock : preserves I read_clock.
Proof. intros s. unfold read_clock. simpl. by rewrite tick_db. Qed.

(** A transaction keeps what its successful bodies keep. *)
Lemma preserves_in_tx {A} (body : ST Sys (result db_error A)) :
  (forall s a, I (sys_db s) -> (body s).1 = inr a -> I (sys_db (body s).2)) ->
  preserves I (in_tx body).
Proof.
  intros Hb s Hs. unfold in_tx.
  pose proof (query_cases (fun _ => tt) s) as [Hq _].
  destruct (query (fun _ => tt) s) as [[e|u] s1]; simpl in Hq |- *; [by rewrite Hq|].
  rewrite <- Hq in Hs. specialize (Hb s1).
  destruct (body s1) as [[e|a] s2]; simpl in Hb |- *; [done|].
  specialize (Hb a Hs eq_refl).
  pose proof (query_cases (fun _ => tt) s2) as [Hq2 _].
  destruct (query (fun _ => tt) s2) as [[e|v] s3]; simpl in Hq2 |- *; [done|by rewrite Hq2].
Qed.

Lemma preserves_in_tx' {A} (body : ST Sys (result db_error A)) :
  preserves I body -> preserves I (in_tx body).
Proof. intros Hb. apply preserves_in_tx. intros s a Hs _. by apply Hb. Qed.
End rules.

(** A transaction that reports an error has changed nothing. *)
Lemma in_tx_error {A} (body : ST Sys (result db_error A)) s e :
  (in_tx body s).1 = inl e -> sys_db (in_tx body s).2 = sys_db s.
Proof.
  unfold in_tx. pose proof (query_cases (fun _ => tt) s) as [Hq _].
  destruct (query (fun _ => tt) s) as [[e'|u] s1]; simpl in *; [done|].
  destruct (body s1) as [[e'|a] s2]; simpl; [done|].
  destruct (query (fun _ => tt) s2) as [[e'|v] s3]; simpl; [done|discriminate].
Qed.

(** One that succeeds is its body. *)
Lemma in_tx_success {A} (body : ST Sys (result db_error A)) s a :
  (in_tx body s).1 = inr a ->
  exists s1, sys_db s1 = sys_db s /\ (body s1).1 = inr a /\
    sys_db (in_tx body s).2 = sys_db (body s1).2.
Proof.
  unfold in_tx. pose proof (query_cases (fun _ => tt) s) as [Hq _].
  destruct (query (fun _ => tt) s) as [[e'|u] s1]; simpl in *; [discriminate|].
  destruct (body s1) as [[e'|a'] s2] eqn:Eb; simpl; [discriminate|].
  pose proof (query_cases (fun _ => tt) s2) as [Hq2 _].
  destruct (query (fun _ => tt) s2) as [[e'|v] s3]; simpl in *; [discriminate|].
  intros [= ->]. exists s1. by rewrite Eb.
Qed.

Lemma or_return_inr {A B} (m : ST Sys (result db_error A)) (k : A -> ST Sys (result db_error B)) s b :
  (or_return m k s).1 = inr b ->
  exists a, (m s).1 = inr a /\ (k a (m s).2).1 = inr b /\
    (or_return m k s).2 = (k a (m s).2).2.
Proof.
  unfold or_return, mbind, ST_bind. destruct (m s).1 as [e|a]; [discriminate|].
  intros H. exists a. done.
Qed.

Lemma exec_inr {A} (f : Z -> Db -> result db_error (A * Db)) s a :
  (exec f s).1 = inr a ->
  exists now, f now (sys_db s) = inr (a, sys_db (exec f s).2) /\ sys_now s <= now.
Proof.
  intros H. destruct (exec_cases f s) as [(e & H' & _)|(now & a' & d & H' & E & <- & Hn)].
  - by rewrite H' in H.
  - rewrite H' in H. simplify_eq. by exists now.
Qed.

Lemma update_inr (f : Z -> Db -> Db) s x :
  (update f s).1 = inr x -> exists now, sys_db (update f s).2 = f now (sys_db s) /\ sys_now s <= now.
Proof.
  intros H. apply exec_inr in H as (now & E & Hn). exists now. split; [|done].
  by injection E.
Qed.

Lemma query_inr {A} (f : Db -> A) s a :
  (query f s).1 = inr a -> a = f (sys_db s) /\ sys_db (query f s).2 = sys_db s.
Proof.
  intros H. destruct (query_cases f s) as [Hd [[e He]|He]]; rewrite He in H; by simplify_eq.
Qed.

(** ** Rows *)

Lemma elem_of_rows `{Countable K} {V} (m : gmap K V) v : v ∈ rows m <-> exists k, m !! k = Some v.
Proof.
  unfold rows. rewrite list_elem_of_fmap. split.
  - intros ([k v'] & -> & Hin). exists k. by apply elem_of_map_to_list in Hin.
  - intros [k Hk]. exists (k, v). split; [done|]. by apply elem_of_map_to_list.
Qed.

Lemma existsb_rows `{Countable K} {V} (p : V -> bool) (m : gmap K V) :
  existsb p (rows m) = true <-> exists k v, m !! k = Some v /\ p v = true.
Proof.
  rewrite existsb_exists. split.
  - intros (v & Hin & Hp). apply list_elem_of_In, elem_of_rows in Hin as [k Hk]. by exists k, v.
  - intros (k & v & Hk & Hp). exists v. split; [|done].
    apply list_elem_of_In, elem_of_rows. by exists k.
Qed.

Lemma existsb_rows_false `{Countable K} {V} (p : V -> bool) (m : gmap K V) :
  existsb p (rows m) = false <-> forall k v, m !! k = Some v -> p v = false.
Proof.
  split.
  - intros Hf k v Hk. destruct (p v) eqn:Hp; [|done].
    rewrite <- Hf. symmetry. apply existsb_rows. by exists k, v.
  - intros Hf. apply not_true_is_false. intros Ht.
    apply existsb_rows in Ht as (k & v & Hk & Hp). by rewrite (Hf k v Hk) in Hp.
Qed.

Lemma find_row_Some `{Countable K} {V} (p : V -> bool) (m : gmap K V) v :
  find_row p m = Some v -> (exists k, m !! k = Some v) /\ p v = true.
Proof.
  unfold find_row. intros Hf. apply List.find_some in Hf as [Hin Hp]. split; [|done].
  by apply list_elem_of_In, elem_of_rows in Hin.
Qed.

Lemma find_row_None `{Countable K} {V} (p : V -> bool) (m : gmap K V) k v :
  find_row p m = None -> m !! k = Some v -> p v = false.
Proof.
  unfold find_row. intros Hf Hk. apply (List.find_none _ _ Hf).
  apply list_elem_of_In, elem_of_rows. by exists k.
Qed.

Lemma has_dom `{Countable K} {V} (k : K) (m : gmap K V) : has k m = true <-> k ∈ dom m.
Proof.
  unfold has. rewrite elem_of_dom. split.
  - destruct (m !! k); [by eexists|done].
  - by intros [v ->].
Qed.

Lemma has_opt_dom `{Countable K} {V} (k : option K) (m : gmap K V) :
  has_opt k m = true <-> forall x, k = Some x -> x ∈ dom m.
Proof.
  destruct k as [k|]; simpl; [|naive_solver]. rewrite has_dom. naive_solver.
Qed.

End StoreInv.
Export StoreInv.
