(* ===== verification/StoreOk.v ===== *)
(** * The database invariant and its preservation

    [db_ok] gathers what the schema and the operations of Server/db guarantee
    together; every operation that writes is listed in [db_op], and the
    invariant is kept by any sequence of them, whatever statements fail. *)

From S2P Require Import Prelude Permissions GoText GoTime Rows Store StoreInv.
#[local] Open Scope string_scope.
#[local] Open Scope Z_scope.

Module StoreOk.

Definition user_ok (d : Db) (i : Z) (u : User) : Prop :=
  u_id u = i /\ i < next_user d /\ u_role u ∈ dom (roles d).
Definition channel_ok (d : Db) (i : Z) (c : Channel) : Prop :=
  c_id c = i /\ i < next_channel d.
Definition message_ok (d : Db) (i : Z) (m : Message) : Prop :=
  m_id m = i /\ 0 < i < next_message d /\ m_channel m ∈ dom (channels d) /\
  m_user m ∈ dom (users d) /\ (forall r, m_reply_to m = Some r -> r ∈ dom (messages d)).
Definition session_ok (d : Db) (i : Z) (s : Session) : Prop :=
  s_id s = i /\ i < next_session d /\ s_user s ∈ dom (users d).
Definition invite_ok (d : Db) (i : Z) (v : Invite) : Prop :=
  i_id v = i /\ i < next_invite d /\ i_created_by v ∈ dom (users d) /\
  0 <= i_uses v /\ (forall m, i_max_uses v = Some m -> i_uses v <= m).
Definition attachment_ok (d : Db) (i : string) (a : Attachment) : Prop :=
  a_id a = i /\ (forall m, a_message a = Some m -> m ∈ dom (messages d)).
Definition voice_ok (d : Db) (u : Z) (v : VoiceRow) : Prop :=
  u ∈ dom (users d) /\ v_channel v ∈ dom (channels d).

(** No two rows have the same key. *)
Definition unique {V K} (key : V -> K) (m : gmap Z V) : Prop :=
  forall i j x y, m !! i = Some x -> m !! j = Some y -> key x = key y -> i = j.

Definition name_key (u : User) : string := lower (u_username u).

Definition is_dm (d : Db) (c : Z) : Prop :=
  exists ch, channels d !! c = Some ch /\ c_type ch = "dm".

Record db_ok (d : Db) : Prop := mkOk {
  ok_users : map_Forall (user_ok d) (users d);
  ok_names : unique name_key (users d);
  ok_channels : map_Forall (channel_ok d) (channels d);
  ok_next_message : 0 < next_message d;
  ok_overrides : forall c r, (c, r) ∈ dom (overrides d) -> c ∈ dom (channels d) /\ r ∈ dom (roles d);
  ok_messages : map_Forall (message_ok d) (messages d);
  ok_reactions : forall m u e, (m, u, e) ∈ reactions d -> m ∈ dom (messages d) /\ u ∈ dom (users d);
  ok_participants : forall c u, (c, u) ∈ dm_participants d -> is_dm d c /\ u ∈ dom (users d);
  ok_dm_pair : forall c c' u u', u <> u' ->
    (c, u) ∈ dm_participants d -> (c, u') ∈ dm_participants d ->
    (c', u) ∈ dm_participants d -> (c', u') ∈ dm_participants d -> c = c';
  ok_dm_two : forall c u1 u2 u3,
    (c, u1) ∈ dm_participants d -> (c, u2) ∈ dm_participants d -> (c, u3) ∈ dm_participants d ->
    u1 = u2 \/ u1 = u3 \/ u2 = u3;
  ok_dm_open : forall u c, (u, c) ∈ dom (dm_open_state d) -> u ∈ dom (users d) /\ c ∈ dom (channels d);
  ok_read_states : forall u c, (u, c) ∈ dom (read_states d) -> u ∈ dom (users d) /\ c ∈ dom (channels d);
  ok_voice : map_Forall (voice_ok d) (voice_states d);
  ok_sessions : map_Forall (session_ok d) (sessions d);
  ok_tokens : unique s_token (sessions d);
  ok_invites : map_Forall (invite_ok d) (invites d);
  ok_codes : unique i_code (invites d);
  ok_attachments : map_Forall (attachment_ok d) (attachments d) }.

(** Splits the invariant of the goal; the parts the update does not touch are
    those of the hypothesis. *)
Ltac split_ok H :=
  let H' := fresh in pose proof H as H'; destruct H'; constructor; simpl; try assumption.

Lemma unique_key {V K} (key : V -> K) (m m' : gmap Z V) :
  (forall i x, m' !! i = Some x -> exists y, m !! i = Some y /\ key x = key y) ->
  unique key m -> unique key m'.
Proof.
  intros Hm Hu i j x y Hx Hy Hs.
  destruct (Hm i x Hx) as (x' & Hx' & Ex). destruct (Hm j y Hy) as (y' & Hy' & Ey).
  apply (Hu i j x' y'); congruence.
Qed.

Lemma unique_insert {V K} (key : V -> K) (m : gmap Z V) i x :
  (forall k v, m !! k = Some v -> key v <> key x) -> unique key m -> unique key (<[i := x]> m).
Proof.
  intros Hf Hu j k a b Ha Hb Hk.
  apply lookup_insert_Some in Ha as [[<- <-]|[Hj Ha]];
    apply lookup_insert_Some in Hb as [[<- <-]|[Hj' Hb]]; try done.
  - by destruct (Hf _ _ Hb).
  - by destruct (Hf _ _ Ha).
  - by apply (Hu j k a b).
Qed.

(** Row updates of a table seen pointwise. *)
Lemma lookup_update_row {V} (i j : Z) (f : V -> V) (m : gmap Z V) y :
  update_row i f m !! j = Some y ->
  exists x, m !! j = Some x /\ (y = x \/ y = f x).
Proof.
  unfold update_row. intros Hy. apply lookup_alter_Some in Hy as [(-> & x & Hx & ->)|[_ Hy]]; eauto.
Qed.

Lemma lookup_fmap_row `{Countable K} {V} (j : K) (f : V -> V) (m : gmap K V) y :
  (f <$> m) !! j = Some y -> exists x, m !! j = Some x /\ y = f x.
Proof. rewrite lookup_fmap. intros Hy. apply fmap_Some in Hy as (x & Hx & ->). eauto. Qed.

(** ** Users *)

(** New user rows with the ids and names of the old ones, and existing roles. *)
Lemma ok_set_users d m : db_ok d ->
  dom m = dom (users d) ->
  (forall i u, m !! i = Some u -> exists v, users d !! i = Some v /\ u_id u = u_id v /\
     name_key u = name_key v /\ u_role u ∈ dom (roles d)) ->
  db_ok (set_users m d).
Proof.
  intros H Hdom Hrow.
  split_ok H; unfold user_ok, message_ok, session_ok, invite_ok, voice_ok in *;
    simpl; rewrite ?Hdom; try assumption.
  - intros i u Hu. destruct (Hrow i u Hu) as (v & Hv & -> & _ & Hr).
    destruct (ok_users d H i v Hv) as (? & ? & ?). done.
  - eapply unique_key; [|exact (ok_names d H)]. intros i u Hu.
    destruct (Hrow i u Hu) as (v & Hv & _ & Hk & _). eauto.
Qed.

Lemma ok_user_role d i u : db_ok d -> users d !! i = Some u -> u_role u ∈ dom (roles d).
Proof. intros H Hu. by destruct (ok_users d H i u Hu) as (_ & _ & ?). Qed.

Lemma ok_update_user d i f : db_ok d ->
  (forall u, u_id (f u) = u_id u /\ u_username (f u) = u_username u /\ u_role (f u) = u_role u) ->
  db_ok (set_users (update_row i f (users d)) d).
Proof.
  intros H Hf. apply ok_set_users; [done|apply dom_alter_L|].
  intros j u Hu. apply lookup_update_row in Hu as (v & Hv & E). exists v. split; [done|].
  pose proof (ok_user_role d j v H Hv) as Hr.
  destruct (Hf v) as (? & ? & ?). unfold name_key. destruct E as [-> | ->]; repeat split; congruence.
Qed.

Lemma ok_map_users d f : db_ok d ->
  (forall u, u_id (f u) = u_id u /\ u_username (f u) = u_username u /\ u_role (f u) = u_role u) ->
  db_ok (set_users (f <$> users d) d).
Proof.
  intros H Hf. apply ok_set_users; [done|apply dom_fmap_L|].
  intros j u Hu. apply lookup_fmap_row in Hu as (v & Hv & ->). exists v. split; [done|].
  pose proof (ok_user_role d j v H Hv) as Hr.
  destruct (Hf v) as (? & ? & ?). unfold name_key. repeat split; congruence.
Qed.

Lemma same_name_key a b : same_name a b = true <-> lower a = lower b.
Proof. unfold same_name. apply String.eqb_eq. Qed.

Lemma ok_insert_user name pw role now d id d' : db_ok d ->
  insert_user name pw role now d = inr (id, d') -> db_ok d'.
Proof.
  intros H. unfold insert_user.
  destruct (existsb _ _) eqn:Hn; [done|]. destruct (has role (roles d)) eqn:Hr; [|done].
  intros [= <- <-]. apply has_dom in Hr. rewrite existsb_rows_false in Hn.
  assert (Hfresh : users d !! next_user d = None).
  { destruct (users d !! next_user d) as [u|] eqn:E; [|done].
    destruct (ok_users d H _ _ E) as (_ & ? & _). lia. }
  split_ok H; unfold user_ok, message_ok, session_ok, invite_ok, voice_ok in *;
    simpl; rewrite ?dom_insert_L.
  - intros i u Hu. apply lookup_insert_Some in Hu as [[<- <-]|[Hi Hu]]; simpl.
    + repeat split; [lia|done].
    + destruct (ok_users d H i u Hu) as (? & ? & ?). repeat split; [done|lia|done].
  - apply unique_insert; [|exact (ok_names d H)]. intros k v Hk. unfold name_key. simpl.
    specialize (Hn k v Hk). intros E. by rewrite (proj2 (same_name_key _ _) E) in Hn.
  - eapply map_Forall_impl; [exact (ok_messages d H)|]. intros i m (?&?&?&?&?). simpl.
    repeat split; try tauto. set_solver.
  - intros m u e Hin. destruct (ok_reactions d H m u e Hin). set_solver.
  - intros c u Hin. destruct (ok_participants d H c u Hin). set_solver.
  - intros u c Hin. destruct (ok_dm_open d H u c Hin). set_solver.
  - intros u c Hin. destruct (ok_read_states d H u c Hin). set_solver.
  - eapply map_Forall_impl; [exact (ok_voice d H)|]. intros i v [??]. set_solver.
  - eapply map_Forall_impl; [exact (ok_sessions d H)|]. intros i v (?&?&?). set_solver.
  - eapply map_Forall_impl; [exact (ok_invites d H)|]. intros i v (?&?&?&?&?). set_solver.
Qed.

(** ** Sessions *)

Lemma ok_set_sessions d m : db_ok d ->
  map_Forall (session_ok d) m -> unique s_token m -> db_ok (set_sessions m d).
Proof. intros H Hm Hu. split_ok H; done. Qed.

Lemma ok_sub_sessions d (m : gmap Z Session) : db_ok d ->
  (forall i s, m !! i = Some s -> exists t, sessions d !! i = Some t /\ s_id s = s_id t /\
     s_user s = s_user t /\ s_token s = s_token t) ->
  db_ok (set_sessions m d).
Proof.
  intros H Hm. apply ok_set_sessions; [done| |].
  - intros i s Hs. destruct (Hm i s Hs) as (t & Ht & E1 & E2 & _).
    destruct (ok_sessions d H i t Ht) as (?&?&?). unfold session_ok. by rewrite E1, E2.
  - eapply unique_key; [|exact (ok_tokens d H)]. intros i s Hs.
    destruct (Hm i s Hs) as (t & Ht & _ & _ & E). eauto.
Qed.

Lemma ok_filter_sessions d (P : Z * Session -> Prop) `{forall x, Decision (P x)} : db_ok d ->
  db_ok (set_sessions (filter P (sessions d)) d).
Proof.
  intros Hok. apply ok_sub_sessions; [done|]. intros i s Hs.
  apply map_lookup_filter_Some in Hs as [Hs _]. eauto.
Qed.

Lemma ok_insert_session u tok dev ip exp now d id d' : db_ok d ->
  insert_session u tok dev ip exp now d = inr (id, d') -> db_ok d'.
Proof.
  intros H. unfold insert_session.
  destruct (existsb _ _) eqn:Hn; [done|]. destruct (has u (users d)) eqn:Hr; [|done].
  intros [= <- <-]. apply has_dom in Hr. rewrite existsb_rows_false in Hn.
  split_ok H; unfold session_ok in *; simpl.
  - apply map_Forall_insert_2; simpl; [repeat split; [lia|done]|].
    eapply map_Forall_impl; [exact (ok_sessions d H)|]. intros i s (?&?&?). repeat split; [done|lia|done].
  - apply unique_insert; [|exact (ok_tokens d H)]. intros k v Hk E. simpl in E.
    by apply (String.eqb_neq (s_token v) tok); [apply (Hn k v Hk)|].
Qed.

(** ** Invites *)

Lemma ok_sub_invites d (m : gmap Z Invite) : db_ok d ->
  (forall i v, m !! i = Some v -> exists w, invites d !! i = Some w /\ i_id v = i_id w /\
     i_created_by v = i_created_by w /\ i_code v = i_code w /\ i_max_uses v = i_max_uses w /\
     0 <= i_uses v /\ (forall k, i_max_uses w = Some k -> i_uses v <= k)) ->
  db_ok (set_invites m d).
Proof.
  intros H Hm. split_ok H.
  - intros i v Hv. destruct (Hm i v Hv) as (w & Hw & E1 & E2 & _ & E4 & ? & ?).
    destruct (ok_invites d H i w Hw) as (?&?&?&?&?).
    unfold invite_ok. simpl. rewrite E1, E2, E4. repeat split; auto; lia.
  - eapply unique_key; [|exact (ok_codes d H)]. intros i v Hv.
    destruct (Hm i v Hv) as (w & Hw & _ & _ & E & _). eauto.
Qed.

Lemma ok_redeem_invite code now d x d' : db_ok d ->
  redeem_invite code now d = inr (x, d') -> db_ok d'.
Proof.
  intros H. unfold redeem_invite. destruct (existsb _ _); [|done]. intros [= <- <-].
  apply ok_sub_invites; [done|]. intros i v Hv. apply lookup_fmap_row in Hv as (w & Hw & ->).
  exists w. destruct (ok_invites d H i w Hw) as (_&_&_&Hlo&Hhi).
  destruct (invite_usable now code w) eqn:E; simpl; repeat split; auto; [lia|].
  intros k Hk. unfold invite_usable in E. rewrite Hk in E. bools. lia.
Qed.

Lemma ok_revoke_invites d (f : Invite -> bool) : db_ok d ->
  db_ok (set_invites ((fun i => if f i then invite_revoke i else i) <$> invites d) d).
Proof.
  intros H. apply ok_sub_invites; [done|]. intros i v Hv.
  apply lookup_fmap_row in Hv as (w & Hw & ->).
  exists w. destruct (ok_invites d H i w Hw) as (_&_&_&Hlo&Hhi).
  destruct (f w); simpl; repeat split; auto.
Qed.

Lemma ok_insert_invite d code by_ maxu exp rev created : db_ok d ->
  existsb (fun i => String.eqb (i_code i) code) (rows (invites d)) = false ->
  by_ ∈ dom (users d) -> (forall m, maxu = Some m -> 0 <= m) ->
  let id := next_invite d in
  db_ok (set_next_invite (id + 1) (set_invites
    (<[id := mkInvite id code by_ 0 maxu exp rev created]> (invites d)) d)).
Proof.
  intros H Hn Hr Hm. rewrite existsb_rows_false in Hn. cbv zeta.
  split_ok H; unfold invite_ok in *; simpl.
  - apply map_Forall_insert_2; simpl; [repeat split; auto; lia|].
    eapply map_Forall_impl; [exact (ok_invites d H)|]. intros i s (?&?&?&?&?).
    repeat split; auto; lia.
  - apply unique_insert; [|exact (ok_codes d H)]. intros k v Hk E. simpl in E.
    by apply (String.eqb_neq (i_code v) code); [apply (Hn k v Hk)|].
Qed.

(** ** Channels *)

Lemma ok_set_channels d m : db_ok d -> dom m = dom (channels d) ->
  (forall i c, m !! i = Some c -> exists c', channels d !! i = Some c' /\ c_id c = c_id c' /\
     c_type c = c_type c') ->
  db_ok (set_channels m d).
Proof.
  intros H Hdom Hrow.
  split_ok H; unfold channel_ok, message_ok, voice_ok, is_dm in *; simpl; rewrite ?Hdom; try assumption.
  - intros i c Hc. destruct (Hrow i c Hc) as (c' & Hc' & -> & _).
    exact (ok_channels d H i c' Hc').
  - intros c u Hin. destruct (ok_participants d H c u Hin) as [(ch & Hch & Ht) ?]. split; [|done].
    assert (c ∈ dom m) as [ch' Hch']%elem_of_dom by (rewrite Hdom; by apply elem_of_dom_2 in Hch).
    destruct (Hrow c ch' Hch') as (ch2 & ? & _ & ?). exists ch'. split; congruence.
Qed.

Lemma ok_update_channel d i f : db_ok d ->
  (forall c, c_id (f c) = c_id c /\ c_type (f c) = c_type c) ->
  db_ok (set_channels (update_row i f (channels d)) d).
Proof.
  intros H Hf. apply ok_set_channels; [done|apply dom_alter_L|]. intros j c Hc.
  apply lookup_update_row in Hc as (c' & Hc' & E). exists c'. destruct (Hf c').
  destruct E as [-> | ->]; auto.
Qed.

Lemma channel_fresh d : db_ok d -> channels d !! next_channel d = None.
Proof.
  intros H. destruct (channels d !! next_channel d) as [c|] eqn:E; [|done].
  destruct (ok_channels d H _ _ E) as [_ ?]. lia.
Qed.

Lemma ok_insert_channel n t c tp pos now d : db_ok d -> db_ok (insert_channel n t c tp pos now d).2.
Proof.
  intros H. pose proof (channel_fresh d H) as Hfresh.
  split_ok H; unfold channel_ok, message_ok, voice_ok, is_dm in *; simpl; rewrite ?dom_insert_L.
  - apply map_Forall_insert_2; simpl; [split; [done|lia]|].
    eapply map_Forall_impl; [exact (ok_channels d H)|]. intros i ch [??]. split; [done|lia].
  - intros c' r Hin. destruct (ok_overrides d H c' r Hin). set_solver.
  - eapply map_Forall_impl; [exact (ok_messages d H)|]. intros i m (?&?&?&?&?). set_solver.
  - intros c' u Hin. destruct (ok_participants d H c' u Hin) as [(ch & Hch & ?) ?]. split; [|done].
    exists ch. rewrite lookup_insert_ne; [done|]. intros E. by rewrite E, Hch in Hfresh.
  - intros u c' Hin. destruct (ok_dm_open d H u c' Hin). set_solver.
  - intros u c' Hin. destruct (ok_read_states d H u c' Hin). set_solver.
  - eapply map_Forall_impl; [exact (ok_voice d H)|]. intros i v [??]. set_solver.
Qed.

Lemma has_opt_filter (m : gmap Z Message) (P : Z * Message -> Prop) `{forall x, Decision (P x)} a i :
  has_opt (a_message a) (filter P m) = true -> a_message a = Some i -> i ∈ dom (filter P m).
Proof. intros Hh E. rewrite E in Hh. by apply has_dom. Qed.

Lemma ok_delete_channel id d : db_ok d -> db_ok (delete_channel id d).
Proof.
  intros H. unfold delete_channel.
  set (kept := filter (fun '(_, m) => m_channel m <> id) (messages d)).
  split_ok H; unfold channel_ok, message_ok, voice_ok, attachment_ok, is_dm in *; simpl;
    rewrite ?dom_fmap_L, ?dom_delete_L.
  - apply map_Forall_delete. exact (ok_channels d H).
  - intros c r Hin. apply elem_of_dom in Hin as [x Hx].
    apply map_lookup_filter_Some in Hx as [Hx Hne].
    destruct (ok_overrides d H c r (elem_of_dom_2 _ _ _ Hx)). set_solver.
  - intros i m Hm. apply lookup_fmap_row in Hm as (m0 & Hm0 & ->). simpl.
    apply map_lookup_filter_Some in Hm0 as [Hm0 Hne].
    destruct (ok_messages d H i m0 Hm0) as (?&?&?&?&?). repeat split; [tauto..|set_solver|done|].
    intros r Hr. destruct (m_reply_to m0) as [k|]; [|done].
    destruct (has k kept) eqn:Hk; simplify_eq. by apply has_dom.
  - intros m u e Hin. apply elem_of_filter in Hin as [Hk Hin]. apply has_dom in Hk.
    split; [done|]. by destruct (ok_reactions d H m u e Hin).
  - intros c u Hin. apply elem_of_filter in Hin as [Hne Hin].
    destruct (ok_participants d H c u Hin) as [(ch & Hch & ?) ?]. split; [|done].
    exists ch. by rewrite lookup_delete_ne by done.
  - intros c c' u u' Hu (_&?)%elem_of_filter (_&?)%elem_of_filter (_&?)%elem_of_filter (_&?)%elem_of_filter.
    by apply (ok_dm_pair d H c c' u u').
  - intros c u1 u2 u3 (_&?)%elem_of_filter (_&?)%elem_of_filter (_&?)%elem_of_filter.
    by apply (ok_dm_two d H c).
  - intros u c Hin. apply elem_of_dom in Hin as [x Hx].
    apply map_lookup_filter_Some in Hx as [Hx Hne].
    destruct (ok_dm_open d H u c (elem_of_dom_2 _ _ _ Hx)). set_solver.
  - intros u c Hin. apply elem_of_dom in Hin as [x Hx].
    apply map_lookup_filter_Some in Hx as [Hx Hne].
    destruct (ok_read_states d H u c (elem_of_dom_2 _ _ _ Hx)). set_solver.
  - intros u v Hv. apply map_lookup_filter_Some in Hv as [Hv Hne].
    destruct (ok_voice d H u v Hv). set_solver.
  - intros i a Ha. apply map_lookup_filter_Some in Ha as [Ha Hh].
    destruct (ok_attachments d H i a Ha) as [? _]. split; [done|]. intros m Hm.
    by eapply has_opt_filter.
Qed.

(** ** Messages, attachments and reactions *)

Lemma ok_set_messages d m : db_ok d -> dom m = dom (messages d) ->
  (forall i x, m !! i = Some x -> exists y, messages d !! i = Some y /\ m_id x = m_id y /\
     m_channel x = m_channel y /\ m_user x = m_user y /\ m_reply_to x = m_reply_to y) ->
  db_ok (set_messages m d).
Proof.
  intros H Hdom Hrow.
  split_ok H; unfold message_ok, attachment_ok in *; simpl; rewrite ?Hdom; try assumption.
  intros i x Hx. destruct (Hrow i x Hx) as (y & Hy & -> & -> & -> & ->).
  exact (ok_messages d H i y Hy).
Qed.

Lemma ok_update_message d i f : db_ok d ->
  (forall m, m_id (f m) = m_id m /\ m_channel (f m) = m_channel m /\ m_user (f m) = m_user m /\
     m_reply_to (f m) = m_reply_to m) ->
  db_ok (set_messages (update_row i f (messages d)) d).
Proof.
  intros H Hf. apply ok_set_messages; [done|apply dom_alter_L|]. intros j x Hx.
  apply lookup_update_row in Hx as (y & Hy & E). exists y.
  destruct (Hf y) as (?&?&?&?). destruct E as [-> | ->]; auto.
Qed.

Lemma ok_map_messages d f : db_ok d ->
  (forall m, m_id (f m) = m_id m /\ m_channel (f m) = m_channel m /\ m_user (f m) = m_user m /\
     m_reply_to (f m) = m_reply_to m) ->
  db_ok (set_messages (f <$> messages d) d).
Proof.
  intros H Hf. apply ok_set_messages; [done|apply dom_fmap_L|]. intros j x Hx.
  apply lookup_fmap_row in Hx as (y & Hy & ->). exists y.
  destruct (Hf y) as (?&?&?&?). auto.
Qed.

Lemma ok_insert_message d ch u content reply now : db_ok d ->
  ch ∈ dom (channels d) -> u ∈ dom (users d) -> has_opt reply (messages d) = true ->
  let id := next_message d in
  db_ok (set_next_message (id + 1) (set_messages (<[id := mkMessage id ch u content reply None
    false false (datetime_now now)]> (messages d)) d)).
Proof.
  intros H Hc Hu Hr. rewrite has_opt_dom in Hr. pose proof (ok_next_message d H). cbv zeta.
  split_ok H; unfold message_ok, attachment_ok in *; simpl; rewrite ?dom_insert_L.
  - lia.
  - apply map_Forall_insert_2; simpl.
    + repeat split; try done; try lia. set_solver.
    + eapply map_Forall_impl; [exact (ok_messages d H)|]. intros i m (?&?&?&?&?).
      repeat split; try done; try lia. set_solver.
  - intros m v e Hin. destruct (ok_reactions d H m v e Hin). set_solver.
  - eapply map_Forall_impl; [exact (ok_attachments d H)|]. intros i a [??]. set_solver.
Qed.

Lemma ok_set_reactions d r : db_ok d ->
  (forall m u e, (m, u, e) ∈ r -> m ∈ dom (messages d) /\ u ∈ dom (users d)) ->
  db_ok (set_reactions r d).
Proof. intros H Hr. split_ok H. Qed.

Lemma ok_set_attachments d m : db_ok d -> map_Forall (attachment_ok d) m ->
  db_ok (set_attachments m d).
Proof. intros H Hm. split_ok H. Qed.

(** ** Voice, read states and direct messages *)

Lemma ok_set_voice d m : db_ok d -> map_Forall (voice_ok d) m -> db_ok (set_voice_states m d).
Proof. intros H Hm. split_ok H. Qed.

Lemma ok_update_voice d u f : db_ok d -> (forall v, v_channel (f v) = v_channel v) ->
  db_ok (set_voice_states (update_row u f (voice_states d)) d).
Proof.
  intros H Hf. apply ok_set_voice; [done|]. intros i v Hv.
  apply lookup_update_row in Hv as (w & Hw & E). destruct (ok_voice d H i w Hw).
  unfold voice_ok. destruct E as [-> | ->]; rewrite ?Hf; done.
Qed.

Lemma ok_set_read_states d m : db_ok d ->
  (forall u c, (u, c) ∈ dom m -> u ∈ dom (users d) /\ c ∈ dom (channels d)) ->
  db_ok (set_read_states m d).
Proof. intros H Hm. split_ok H. Qed.

Lemma ok_set_dm_open d m : db_ok d ->
  (forall u c, (u, c) ∈ dom m -> u ∈ dom (users d) /\ c ∈ dom (channels d)) ->
  db_ok (set_dm_open_state m d).
Proof. intros H Hm. split_ok H. Qed.

Lemma ok_open_dm u c now d x d' : db_ok d -> open_dm u c now d = inr (x, d') -> db_ok d'.
Proof.
  intros H. unfold open_dm. destruct (has u _) eqn:Hu, (has c _) eqn:Hc; simpl; try done.
  apply has_dom in Hu, Hc. destruct (has (u, c) _); intros [= <- <-]; [done|].
  apply ok_set_dm_open; [done|]. intros u' c' Hin. rewrite dom_insert_L in Hin.
  apply elem_of_union in Hin as [Hin|Hin].
  - apply elem_of_singleton in Hin. by simplify_eq.
  - by apply (ok_dm_open d H).
Qed.

Lemma ok_sub_participants d p : db_ok d -> p ⊆ dm_participants d -> db_ok (set_dm_participants p d).
Proof.
  intros H Hp. split_ok H; unfold is_dm in *; simpl.
  - intros c u Hin. by apply (ok_participants d H), Hp.
  - intros c c' u u' ? ????. apply (ok_dm_pair d H c c' u u'); auto.
  - intros c u1 u2 u3 ???. apply (ok_dm_two d H c); auto.
Qed.

(** A fresh pair in a channel without participants. *)
Lemma ok_insert_participants c u u' d x d' : db_ok d -> is_dm d c ->
  (forall v, (c, v) ∉ dm_participants d) ->
  (forall c', (c', u) ∈ dm_participants d -> (c', u') ∉ dm_participants d) ->
  insert_participants c u u' d = inr (x, d') -> db_ok d'.
Proof.
  intros H Hc Hempty Hnone. unfold insert_participants.
  destruct (Z.eqb_spec u u') as [|Hne]; [done|]. simpl.
  destruct (_ || _); [done|]. destruct (has u _) eqn:Hu; [|done].
  destruct (has u' _) eqn:Hu'; [|done]. destruct (has c _); [|done]. simpl.
  intros [= <- <-]. apply has_dom in Hu, Hu'.
  assert (Hin : forall a b, (a, b) ∈ {[(c, u); (c, u')]} ∪ dm_participants d <->
    (a = c /\ (b = u \/ b = u')) \/ (a, b) ∈ dm_participants d) by (intros; set_solver).
  assert (Hnew : forall b, (c, b) ∈ {[(c, u); (c, u')]} ∪ dm_participants d -> b = u \/ b = u').
  { intros b [[_ ?]|Hb]%Hin; [done|by apply Hempty in Hb]. }
  assert (Hold : forall a b, a <> c -> (a, b) ∈ {[(c, u); (c, u')]} ∪ dm_participants d ->
    (a, b) ∈ dm_participants d) by (intros a b Ha [[? _]|Hb]%Hin; done).
  clear Hin.
  assert (Hother : forall a b b', a <> c -> b <> b' -> b = u \/ b = u' -> b' = u \/ b' = u' ->
    (a, b) ∈ dm_participants d -> (a, b') ∈ dm_participants d -> False).
  { intros a b b' _ Hb [-> | ->] [-> | ->] H1 H2; try done; by eapply Hnone. }
  split_ok H; unfold is_dm in *; simpl.
  - intros a b Hab. destruct (decide (a = c)) as [->|Ha].
    + split; [done|]. by destruct (Hnew b Hab) as [-> | ->].
    + by apply (ok_participants d H), Hold.
  - intros a a' b b' Hb H1 H2 H3 H4.
    destruct (decide (a = c)) as [->|Ha], (decide (a' = c)) as [->|Ha']; [done| | |].
    + destruct (Hother a' b b'); auto.
    + destruct (Hother a b b'); auto.
    + apply (ok_dm_pair d H a a' b b'); auto.
  - intros a b1 b2 b3 H1 H2 H3. destruct (decide (a = c)) as [->|Ha].
    + destruct (Hnew b1 H1) as [-> | ->], (Hnew b2 H2) as [-> | ->], (Hnew b3 H3) as [-> | ->]; auto.
    + apply (ok_dm_two d H a); auto.
Qed.

(** ** Tables without constraints *)

Lemma ok_set_audit d l n : db_ok d -> db_ok (set_next_audit n (set_audit_log l d)).
Proof. intros H. split_ok H. Qed.

Lemma ok_set_settings d m : db_ok d -> db_ok (set_settings m d).
Proof. intros H. split_ok H. Qed.

End StoreOk.
Export StoreOk.
