(* ===== verification/StoreThms.v ===== *)
(** * Theorems about the database operations

    The list of the writing operations, the invariant over any run of them, and
    the contracts of the transactions: registration by invite, direct-message
    channels, account deletion, message pages. *)

From S2P Require Import Prelude Permissions GoText GoTime Rows Store StoreInv StoreOk.
#[local] Open Scope string_scope.
#[local] Open Scope Z_scope.

Module StoreThms.

(** ** The checker's interface *)

Definition sys_override (s : Sys) (ch r : Z) : Z * Z :=
  default (0, 0) (overrides (sys_db s) !! (ch, r)).
Definition sys_participant (s : Sys) (u ch : Z) : bool :=
  bool_decide ((ch, u) ∈ dm_participants (sys_db s)).

#[export] Instance sys_permdb_laws : PermDBLaws Sys db_error.
Proof.
  refine (Build_PermDBLaws _ _ _ sys_override sys_participant _ _ _ _);
    unfold sys_override, sys_participant.
  - intros w ch r. destruct (query_cases (fun d => default (0, 0) (overrides d !! (ch, r))) w)
      as [_ [?|?]]; auto.
  - intros w u ch. destruct (query_cases (fun d => bool_decide ((ch, u) ∈ dm_participants d)) w)
      as [_ [?|?]]; auto.
  - intros w ch r. simpl. by rewrite query_db.
  - intros w u ch. simpl. by rewrite query_db.
Defined.

(** ** The writing operations *)

Inductive db_op :=
| OpCreateUser (name pw : string) (role : Z)
| OpCreateUserWithInvite (name pw : string) (role : Z) (code : string)
| OpUpdateUserStatus (id : Z) (st : string)
| OpUpdateUserTOTPSecret (id : Z) (x : option string)
| OpResetAllUserStatuses
| OpBanUser (id : Z) (reason : string) (expires : option Z)
| OpUnbanUser (id : Z)
| OpUpdateUserRole (id role : Z)
| OpCreateSession (u : Z) (tok dev ip : string)
| OpDeleteSession (tok : string)
| OpDeleteExpiredSessions
| OpTouchSession (tok : string)
| OpForceLogoutUser (u : Z)
| OpCreateInvite (code : option string) (by_ maxUses : Z) (expires : option Z)
| OpUseInviteAtomic (code : string)
| OpRevokeInvite (code : string)
| OpCreateChannel (n t c tp : string) (pos : Z)
| OpUpdateChannel (id : Z) (n tp : string) (slow : Z)
| OpSetChannelSlowMode (id slow : Z)
| OpSetChannelVoiceMaxUsers (id n : Z)
| OpAdminUpdateChannel (id : Z) (n tp : string) (slow pos : Z) (archived : bool)
| OpDeleteChannel (id : Z)
| OpJoinVoiceChannel (u c : Z)
| OpLeaveVoiceChannel (u : Z)
| OpClearVoiceState (u : Z)
| OpClearAllVoiceStates
| OpUpdateVoiceMute (u : Z) (b : bool)
| OpUpdateVoiceDeafen (u : Z) (b : bool)
| OpUpdateVoiceCamera (u : Z) (b : bool)
| OpUpdateVoiceScreenshare (u : Z) (b : bool)
| OpCreateMessage (c u : Z) (content : string) (reply : option Z)
| OpEditMessage (id u : Z) (content : string)
| OpDeleteMessage (id u : Z) (ismod : bool)
| OpSetMessagePinned (id : Z) (b : bool)
| OpAddReaction (m u : Z) (e : string)
| OpRemoveReaction (m u : Z) (e : string)
| OpUpdateReadState (u c last : Z)
| OpCreateAttachment (id fn st mime : string) (size : Z) (w h : option Z)
| OpLinkAttachmentsToMessage (m : Z) (ids : list string)
| OpDeleteOrphanedAttachments (cutoff : string)
| OpGetOrCreateDMChannel (u1 u2 : Z)
| OpOpenDM (u c : Z)
| OpCloseDM (u c : Z)
| OpDeleteAccount (u : Z)
| OpLogAudit (actor : Z) (action ty : string) (target : Z) (detail : string)
| OpSetSetting (k v : string).

(** Runs an operation and forgets its result. *)
Definition ignore {A} (m : ST Sys A) : ST Sys unit := _ ← m; mret tt.

Definition run_op (o : db_op) : ST Sys unit :=
  match o with
  | OpCreateUser n p r => ignore (CreateUser n p r)
  | OpCreateUserWithInvite n p r c => ignore (CreateUserWithInvite n p r c)
  | OpUpdateUserStatus i st => ignore (UpdateUserStatus i st)
  | OpUpdateUserTOTPSecret i x => ignore (UpdateUserTOTPSecret i x)
  | OpResetAllUserStatuses => ignore ResetAllUserStatuses
  | OpBanUser i r e => ignore (BanUser i r e)
  | OpUnbanUser i => ignore (UnbanUser i)
  | OpUpdateUserRole i r => ignore (UpdateUserRole i r)
  | OpCreateSession u t dv ip => ignore (CreateSession u t dv ip)
  | OpDeleteSession t => ignore (DeleteSession t)
  | OpDeleteExpiredSessions => ignore DeleteExpiredSessions
  | OpTouchSession t => ignore (TouchSession t)
  | OpForceLogoutUser u => ignore (ForceLogoutUser u)
  | OpCreateInvite c b m e => ignore (CreateInvite c b m e)
  | OpUseInviteAtomic c => ignore (UseInviteAtomic c)
  | OpRevokeInvite c => ignore (RevokeInvite c)
  | OpCreateChannel n t c tp p => ignore (CreateChannel n t c tp p)
  | OpUpdateChannel i n tp s => ignore (UpdateChannel i n tp s)
  | OpSetChannelSlowMode i s => ignore (SetChannelSlowMode i s)
  | OpSetChannelVoiceMaxUsers i n => ignore (SetChannelVoiceMaxUsers i n)
  | OpAdminUpdateChannel i n tp s p a => ignore (AdminUpdateChannel i n tp s p a)
  | OpDeleteChannel i => ignore (DeleteChannel i)
  | OpJoinVoiceChannel u c => ignore (JoinVoiceChannel u c)
  | OpLeaveVoiceChannel u => ignore (LeaveVoiceChannel u)
  | OpClearVoiceState u => ignore (ClearVoiceState u)
  | OpClearAllVoiceStates => ignore ClearAllVoiceStates
  | OpUpdateVoiceMute u b => ignore (UpdateVoiceMute u b)
  | OpUpdateVoiceDeafen u b => ignore (UpdateVoiceDeafen u b)
  | OpUpdateVoiceCamera u b => ignore (UpdateVoiceCamera u b)
  | OpUpdateVoiceScreenshare u b => ignore (UpdateVoiceScreenshare u b)
  | OpCreateMessage c u x r => ignore (CreateMessage c u x r)
  | OpEditMessage i u x => ignore (EditMessage i u x)
  | OpDeleteMessage i u m => ignore (DeleteMessage i u m)
  | OpSetMessagePinned i b => ignore (SetMessagePinned i b)
  | OpAddReaction m u e => ignore (AddReaction m u e)
  | OpRemoveReaction m u e => ignore (RemoveReaction m u e)
  | OpUpdateReadState u c l => ignore (UpdateReadState u c l)
  | OpCreateAttachment i f st m s w h => ignore (CreateAttachment i f st m s w h)
  | OpLinkAttachmentsToMessage m ids => ignore (LinkAttachmentsToMessage m ids)
  | OpDeleteOrphanedAttachments c => ignore (DeleteOrphanedAttachments c)
  | OpGetOrCreateDMChannel u1 u2 => ignore (GetOrCreateDMChannel u1 u2)
  | OpOpenDM u c => ignore (OpenDM u c)
  | OpCloseDM u c => ignore (CloseDM u c)
  | OpDeleteAccount u => ignore (DeleteAccount u)
  | OpLogAudit a x t i dt => ignore (LogAudit a x t i dt)
  | OpSetSetting k v => ignore (SetSetting k v)
  end.

(** ** The lookup of a shared direct-message channel *)

Lemma elem_of_filter_bool {A} (p : A -> bool) l x : x ∈ List.filter p l <-> p x = true /\ x ∈ l.
Proof. rewrite !list_elem_of_In, List.filter_In. tauto. Qed.

Lemma elem_of_dm_common u1 u2 d c :
  c ∈ dm_common u1 u2 d <->
  (c, u1) ∈ dm_participants d /\ (c, u2) ∈ dm_participants d /\ is_dm d c.
Proof.
  unfold dm_common. rewrite elem_of_sort_by, elem_of_filter_bool, list_elem_of_fmap.
  rewrite andb_true_iff, bool_decide_eq_true. unfold is_dm.
  split.
  - intros [[H2 Ht] ([c' u] & -> & Hin)]. apply elem_of_filter_bool in Hin as [E Hin].
    apply Z.eqb_eq in E. apply elem_of_elements in Hin. simpl in *. subst u. split; [done|].
    split; [done|]. destruct (channels d !! c') as [ch|]; [|done].
    exists ch. split; [done|]. by apply String.eqb_eq.
  - intros (H1 & H2 & ch & Hch & Ht). split.
    + split; [done|]. rewrite Hch. by apply String.eqb_eq.
    + exists (c, u1). split; [done|]. apply elem_of_filter_bool. split; [apply Z.eqb_refl|].
      by apply elem_of_elements.
Qed.

Lemma elem_of_dm_members c d u : u ∈ dm_members c d <-> (c, u) ∈ dm_participants d.
Proof.
  unfold dm_members. rewrite elem_of_sort_by, list_elem_of_fmap. split.
  - intros ([c' u'] & -> & Hin). apply elem_of_filter_bool in Hin as [E Hin].
    apply Z.eqb_eq in E. subst. by apply elem_of_elements in Hin.
  - intros Hin. exists (c, u). split; [done|]. apply elem_of_filter_bool.
    split; [apply Z.eqb_refl|by apply elem_of_elements].
Qed.

Lemma NoDup_filter_bool {A} (p : A -> bool) l : NoDup l -> NoDup (List.filter p l).
Proof. rewrite !NoDup_ListNoDup. apply List.NoDup_filter. Qed.

(** A pair's shared channel is the only one the lookup finds. *)
Lemma dm_common_single u1 u2 d c : db_ok d -> u1 <> u2 ->
  c ∈ dm_common u1 u2 d -> dm_common u1 u2 d = [c].
Proof.
  intros H Hne Hc.
  assert (Hall : forall k, k ∈ dm_common u1 u2 d -> k = c).
  { intros k (?&?&_)%elem_of_dm_common. apply elem_of_dm_common in Hc as (?&?&_).
    by apply (ok_dm_pair d H k c u1 u2). }
  assert (Hnd : NoDup (dm_common u1 u2 d)).
  { unfold dm_common. rewrite sort_by_Permutation. apply NoDup_filter_bool.
    apply NoDup_fmap_2_strong; [|apply NoDup_filter_bool, NoDup_elements].
    intros [a x] [b y] Ha Hb E. apply elem_of_filter_bool in Ha as [Ha _], Hb as [Hb _].
    simpl in *. bools. congruence. }
  destruct (dm_common u1 u2 d) as [|a l]; [set_solver|].
  rewrite (Hall a) by set_solver. f_equal.
  destruct l as [|b l]; [done|]. apply NoDup_cons in Hnd as [Ha _].
  rewrite (Hall a), (Hall b) in Ha by set_solver. set_solver.
Qed.

Lemma insert_participants_inr c u1 u2 d x d' : insert_participants c u1 u2 d = inr (x, d') ->
  channels d' = channels d /\ dm_participants d' = {[(c, u1); (c, u2)]} ∪ dm_participants d.
Proof.
  unfold insert_participants. destruct (_ || _ || _); [done|]. destruct (_ && _ && _); [|done].
  by intros [= <- <-].
Qed.

Lemma open_dm_frame u c now d x d' : open_dm u c now d = inr (x, d') ->
  dm_participants d' = dm_participants d /\ channels d' = channels d.
Proof.
  unfold open_dm. destruct (_ && _); [|done]. destruct (has _ _); by intros [= <- <-].
Qed.

(** What a successful run of the transaction did: it found a shared channel, or
    found none and filled a fresh one. *)
Lemma dm_channel_tx_inr u1 u2 s ch created :
  (dm_channel_tx u1 u2 s).1 = inr (ch, created) ->
  let d := sys_db s in let d' := sys_db (dm_channel_tx u1 u2 s).2 in
  (created = false /\ ch ∈ dm_common u1 u2 d /\ (db_ok d -> db_ok d') /\
     dm_participants d' = dm_participants d /\ channels d' = channels d) \/
  (created = true /\ dm_common u1 u2 d = [] /\ ch = next_channel d /\
     exists now d2 d3 d4 x y z,
       insert_participants ch u1 u2 (insert_channel EmptyString "dm" EmptyString EmptyString 0 now d).2
         = inr (x, d2) /\
       open_dm u1 ch y d2 = inr (z, d3) /\ open_dm u2 ch y d3 = inr (d4, d')).
Proof.
  cbv zeta. intros Hr. unfold dm_channel_tx in *.
  apply or_return_inr in Hr as (existing & Hq & Hr & ->).
  apply query_inr in Hq as [-> Hq].
  set (s1 := (query _ s).2) in *. rewrite <- Hq in Hr |- *.
  destruct (head (dm_common u1 u2 (sys_db s1))) as [k|] eqn:Hhead.
  - left. unfold mbind, ST_bind in *. simpl in Hr |- *. injection Hr as <- <-.
    split; [done|]. split; [destruct (dm_common _ _ _); [done|simpl in Hhead; set_solver]|].
    destruct (exec_cases (open_dm u1 k) s1) as [(e & _ & ->)|(now & a & d & _ & E & -> & _)];
      [done|]. split; [intros H; by eapply ok_open_dm|]. by eapply open_dm_frame.
  - right. apply or_return_inr in Hr as (k & H1 & Hr & ->). apply exec_inr in H1 as (now & H1 & _).
    set (s2 := (exec _ s1).2) in *. injection H1 as Hch Hs2.
    apply or_return_inr in Hr as (x & H2 & Hr & ->). apply exec_inr in H2 as (now2 & H2 & _).
    set (s3 := (exec _ s2).2) in *.
    apply or_return_inr in Hr as (y & H3 & Hr & ->). apply exec_inr in H3 as (now3 & H3 & _).
    set (s4 := (exec _ s3).2) in *. simpl in Hr |- *. injection Hr as <- <-.
    destruct (open_dm u1 k now3 (sys_db s3)) as [e|[z d3]] eqn:E3; [done|].
    split; [done|]. split; [by destruct (dm_common u1 u2 (sys_db s1))|]. split; [done|].
    exists now, (sys_db s3), d3, y, x, now3, z. rewrite <- Hs2 in H2. done.
Qed.

Lemma dm_channel_tx_ok u1 u2 s r : db_ok (sys_db s) ->
  (dm_channel_tx u1 u2 s).1 = inr r -> db_ok (sys_db (dm_channel_tx u1 u2 s).2).
Proof.
  destruct r as [ch created]. intros H Hr.
  destruct (dm_channel_tx_inr u1 u2 s ch created Hr)
    as [(_ & _ & Hok & _)|(_ & Hnone & -> & now & d2 & d3 & d4 & x & y & z & H2 & H3 & H4)];
    [by apply Hok|].
  eapply ok_open_dm, H4. eapply ok_open_dm, H3. eapply ok_insert_participants, H2.
  - by apply ok_insert_channel.
  - eexists. split; [apply lookup_insert_eq|done].
  - intros v Hv. destruct (ok_participants _ H _ _ Hv) as [(c & Hc & _) _].
    by rewrite channel_fresh in Hc.
  - intros c' Hc1 Hc2. destruct (ok_participants _ H _ _ Hc1) as [Hdm _].
    assert (Hin : c' ∈ dm_common u1 u2 (sys_db s)) by by apply elem_of_dm_common.
    rewrite Hnone in Hin. set_solver.
Qed.

(** ** Each operation keeps the invariant *)

Create HintDb store_db.

(** Opens an update: what remains is that the new database is [db_ok]. *)
Ltac update_op :=
  intros; first [apply preserves_update; intros now d Hd
                | apply preserves_exec; intros now d res d' Hd];
  simpl.

Lemma keep_CreateUser n p r : preserves db_ok (CreateUser n p r).
Proof. update_op. by apply ok_insert_user. Qed.

Lemma keep_CreateUserWithInvite n p r c : preserves db_ok (CreateUserWithInvite n p r c).
Proof.
  apply preserves_in_tx', preserves_or_return; [|intros _].
  - update_op. by apply ok_redeem_invite.
  - update_op. by apply ok_insert_user.
Qed.

Lemma keep_UpdateUserStatus i st : preserves db_ok (UpdateUserStatus i st).
Proof. update_op. by apply ok_update_user. Qed.
Lemma keep_UpdateUserTOTPSecret i x : preserves db_ok (UpdateUserTOTPSecret i x).
Proof. update_op. by apply ok_update_user. Qed.
Lemma keep_ResetAllUserStatuses : preserves db_ok ResetAllUserStatuses.
Proof. update_op. apply ok_map_users; [done|]. intros u. by case_match. Qed.
Lemma keep_BanUser i r e : preserves db_ok (BanUser i r e).
Proof. update_op. by apply ok_update_user. Qed.
Lemma keep_UnbanUser i : preserves db_ok (UnbanUser i).
Proof. update_op. by apply ok_update_user. Qed.

Lemma keep_UpdateUserRole i r : preserves db_ok (UpdateUserRole i r).
Proof.
  update_op. destruct (has i (users d)) eqn:Hi; simpl.
  - destruct (has r (roles d)) eqn:Hr; simpl; intros [= <- <-]. apply has_dom in Hr.
    apply ok_set_users; [done|apply dom_alter_L|]. intros j u Hu.
    apply lookup_update_row in Hu as (v & Hv & E). exists v. split; [done|].
    pose proof (ok_user_role d j v Hd Hv). destruct E as [-> | ->]; done.
  - intros [= <- <-]. apply ok_set_users; [done|apply dom_alter_L|]. intros j u Hu.
    unfold update_row in Hu. apply lookup_alter_Some in Hu as [(-> & v & Hv & _)|[_ Hu]].
    + apply elem_of_dom_2, has_dom in Hv. by rewrite Hv in Hi.
    + exists u. pose proof (ok_user_role d j u Hd Hu). done.
Qed.

Lemma keep_CreateSession u t dv ip : preserves db_ok (CreateSession u t dv ip).
Proof.
  apply preserves_bind; [apply preserves_read_clock|intros a]. update_op.
  by apply ok_insert_session.
Qed.
Lemma keep_DeleteSession t : preserves db_ok (DeleteSession t).
Proof. update_op. by apply ok_filter_sessions. Qed.
Lemma keep_DeleteExpiredSessions : preserves db_ok DeleteExpiredSessions.
Proof. update_op. by apply ok_filter_sessions. Qed.
Lemma keep_TouchSession t : preserves db_ok (TouchSession t).
Proof.
  update_op. apply ok_sub_sessions; [done|]. intros i s Hs.
  apply lookup_fmap_row in Hs as (s0 & Hs0 & ->). exists s0. split; [done|]. by case_match.
Qed.
Lemma keep_ForceLogoutUser u : preserves db_ok (ForceLogoutUser u).
Proof. update_op. by apply ok_filter_sessions. Qed.

Lemma keep_CreateInvite c b m e : preserves db_ok (CreateInvite c b m e).
Proof.
  destruct c as [c|]; [|apply preserves_ret]. update_op.
  destruct (existsb _ _) eqn:Hn; [done|]. destruct (has b _) eqn:Hb; [|done]. simpl.
  intros [= <- <-]. apply ok_insert_invite; [done|done|by apply has_dom|].
  intros k Hk. destruct (Z.ltb_spec 0 m); simplify_eq; lia.
Qed.
Lemma keep_UseInviteAtomic c : preserves db_ok (UseInviteAtomic c).
Proof. update_op. by apply ok_redeem_invite. Qed.
Lemma keep_RevokeInvite c : preserves db_ok (RevokeInvite c).
Proof. update_op. by apply ok_revoke_invites. Qed.

Lemma keep_CreateChannel n t c tp p : preserves db_ok (CreateChannel n t c tp p).
Proof.
  update_op. intros E. injection E as _ <-. exact (ok_insert_channel n t c tp p now d Hd).
Qed.
Lemma keep_UpdateChannel i n tp s : preserves db_ok (UpdateChannel i n tp s).
Proof. update_op. by apply ok_update_channel. Qed.
Lemma keep_SetChannelSlowMode i s : preserves db_ok (SetChannelSlowMode i s).
Proof. update_op. by apply ok_update_channel. Qed.
Lemma keep_SetChannelVoiceMaxUsers i n : preserves db_ok (SetChannelVoiceMaxUsers i n).
Proof. update_op. by apply ok_update_channel. Qed.
Lemma keep_AdminUpdateChannel i n tp s p a : preserves db_ok (AdminUpdateChannel i n tp s p a).
Proof. update_op. by apply ok_update_channel. Qed.
Lemma keep_DeleteChannel i : preserves db_ok (DeleteChannel i).
Proof. update_op. by apply ok_delete_channel. Qed.

#[export] Hint Resolve keep_CreateUser keep_CreateUserWithInvite keep_UpdateUserStatus
  keep_UpdateUserTOTPSecret keep_ResetAllUserStatuses keep_BanUser keep_UnbanUser
  keep_UpdateUserRole keep_CreateSession keep_DeleteSession keep_DeleteExpiredSessions
  keep_TouchSession keep_ForceLogoutUser keep_CreateInvite keep_UseInviteAtomic
  keep_RevokeInvite keep_CreateChannel keep_UpdateChannel keep_SetChannelSlowMode
  keep_SetChannelVoiceMaxUsers keep_AdminUpdateChannel keep_DeleteChannel : store_db.

Lemma keep_JoinVoiceChannel u c : preserves db_ok (JoinVoiceChannel u c).
Proof.
  update_op. destruct (has u _) eqn:Hu; [|done]. destruct (has c _) eqn:Hc; [|done]. simpl.
  intros [= <- <-]. apply has_dom in Hu, Hc. apply ok_set_voice; [done|].
  apply map_Forall_insert_2; [done|exact (ok_voice d Hd)].
Qed.

Lemma ok_delete_voice d u : db_ok d -> db_ok (delete_voice_state u d).
Proof. intros H. apply ok_set_voice; [done|]. apply map_Forall_delete, (ok_voice d H). Qed.

Lemma keep_LeaveVoiceChannel u : preserves db_ok (LeaveVoiceChannel u).
Proof. update_op. by apply ok_delete_voice. Qed.
Lemma keep_ClearVoiceState u : preserves db_ok (ClearVoiceState u).
Proof. update_op. by apply ok_delete_voice. Qed.
Lemma keep_ClearAllVoiceStates : preserves db_ok ClearAllVoiceStates.
Proof. update_op. apply ok_set_voice; [done|apply map_Forall_empty]. Qed.
Lemma keep_update_voice u f : (forall v, v_channel (f v) = v_channel v) ->
  preserves db_ok (update_voice u f).
Proof. intros Hf. update_op. by apply ok_update_voice. Qed.
Lemma keep_UpdateVoiceMute u b : preserves db_ok (UpdateVoiceMute u b).
Proof. by apply keep_update_voice. Qed.
Lemma keep_UpdateVoiceDeafen u b : preserves db_ok (UpdateVoiceDeafen u b).
Proof. by apply keep_update_voice. Qed.
Lemma keep_UpdateVoiceCamera u b : preserves db_ok (UpdateVoiceCamera u b).
Proof. by apply keep_update_voice. Qed.
Lemma keep_UpdateVoiceScreenshare u b : preserves db_ok (UpdateVoiceScreenshare u b).
Proof. by apply keep_update_voice. Qed.

Lemma keep_CreateMessage c u x r : preserves db_ok (CreateMessage c u x r).
Proof.
  update_op. destruct (has c _) eqn:Hc; [|done]. destruct (has u _) eqn:Hu; [|done].
  destruct (has_opt r _) eqn:Hr; [|done]. simpl. intros [= <- <-].
  apply ok_insert_message; [done|by apply has_dom..|done].
Qed.

Lemma keep_EditMessage i u x : preserves db_ok (EditMessage i u x).
Proof.
  apply preserves_or_return; [apply preserves_query|]. intros [m|]; [|apply preserves_ret].
  destruct (negb _); [apply preserves_ret|]. update_op. by apply ok_update_message.
Qed.
Lemma keep_DeleteMessage i u b : preserves db_ok (DeleteMessage i u b).
Proof.
  apply preserves_or_return; [apply preserves_query|]. intros [m|]; [|apply preserves_ret].
  destruct (_ && _); [apply preserves_ret|]. update_op. by apply ok_update_message.
Qed.
Lemma keep_SetMessagePinned i b : preserves db_ok (SetMessagePinned i b).
Proof.
  update_op. destruct (messages d !! i) as [m|] eqn:Hm; [|done].
  destruct (m_deleted m); [done|]. intros [= <- <-].
  replace (<[i := _]> (messages d)) with (update_row i (message_set_pinned b) (messages d)).
  - by apply ok_update_message.
  - unfold update_row. apply map_eq. intros j. destruct (decide (j = i)) as [->|?].
    + by rewrite lookup_alter_eq, lookup_insert_eq, Hm.
    + by rewrite lookup_alter_ne, lookup_insert_ne.
Qed.

Lemma keep_AddReaction m u e : preserves db_ok (AddReaction m u e).
Proof.
  update_op. destruct (bool_decide _); [done|]. destruct (has m _) eqn:Hm; [|done].
  destruct (has u _) eqn:Hu; [|done]. simpl. intros [= <- <-]. apply has_dom in Hm, Hu.
  apply ok_set_reactions; [done|]. intros m' u' e' Hin.
  apply elem_of_union in Hin as [Hin|Hin]; [|by apply (ok_reactions d Hd) in Hin].
  apply elem_of_singleton in Hin. by simplify_eq.
Qed.
Lemma keep_RemoveReaction m u e : preserves db_ok (RemoveReaction m u e).
Proof.
  update_op. destruct (bool_decide _); [|done]. intros [= <- <-].
  apply ok_set_reactions; [done|]. intros m' u' e' Hin.
  apply elem_of_difference in Hin as [Hin _]. by apply (ok_reactions d Hd) in Hin.
Qed.
Lemma keep_UpdateReadState u c l : preserves db_ok (UpdateReadState u c l).
Proof.
  update_op. destruct (has u _) eqn:Hu; [|done]. destruct (has c _) eqn:Hc; [|done]. simpl.
  intros [= <- <-]. apply has_dom in Hu, Hc. apply ok_set_read_states; [done|].
  intros u' c' Hin. rewrite dom_insert_L in Hin. apply elem_of_union in Hin as [Hin|Hin].
  - apply elem_of_singleton in Hin. by simplify_eq.
  - by apply (ok_read_states d Hd).
Qed.

Lemma keep_CreateAttachment i f st m s w h : preserves db_ok (CreateAttachment i f st m s w h).
Proof.
  update_op. destruct (has i _); [done|]. intros [= <- <-]. apply ok_set_attachments; [done|].
  apply map_Forall_insert_2; [done|exact (ok_attachments d Hd)].
Qed.

Lemma keep_LinkAttachmentsToMessage m ids : preserves db_ok (LinkAttachmentsToMessage m ids).
Proof.
  destruct ids as [|i ids]; [apply preserves_ret|]. update_op.
  destruct (countb _ _ =? 0)%nat eqn:En; simpl.
  - intros [= <- <-]. apply ok_set_attachments; [done|]. intros j a Ha.
    apply lookup_fmap_row in Ha as (a0 & Ha0 & ->).
    destruct (linkable (i :: ids) a0) eqn:El; [|exact (ok_attachments d Hd j a0 Ha0)].
    apply Nat.eqb_eq in En. exfalso. revert En. unfold countb.
    assert (Hin : a0 ∈ List.filter (linkable (i :: ids)) (rows (attachments d))).
    { apply elem_of_filter_bool. split; [done|]. apply elem_of_rows. eauto. }
    destruct (List.filter _ _); [set_solver|done].
  - destruct (has m _) eqn:Hm; [|done]. simpl. intros [= <- <-]. apply has_dom in Hm.
    apply ok_set_attachments; [done|]. intros j a Ha.
    apply lookup_fmap_row in Ha as (a0 & Ha0 & ->).
    destruct (ok_attachments d Hd j a0 Ha0) as [? ?].
    destruct (linkable (i :: ids) a0); [|done]. split; [done|]. simpl. intros x [= <-]. done.
Qed.

Lemma keep_DeleteOrphanedAttachments c : preserves db_ok (DeleteOrphanedAttachments c).
Proof.
  apply preserves_or_return; [apply preserves_query|]. intros [|f fs]; [apply preserves_ret|].
  apply preserves_or_return; [|intros _; apply preserves_ret]. update_op.
  apply ok_set_attachments; [done|]. apply map_Forall_lookup_2. intros i a Ha.
  apply map_lookup_filter_Some in Ha as [Ha _]. exact (ok_attachments d Hd i a Ha).
Qed.

Lemma keep_GetOrCreateDMChannel u1 u2 : preserves db_ok (GetOrCreateDMChannel u1 u2).
Proof.
  apply preserves_or_return.
  - apply preserves_in_tx. intros s a. apply dm_channel_tx_ok.
  - intros [ch b]. apply preserves_or_return; [apply preserves_query|].
    intros [c|]; [apply preserves_ret|]. destruct b; apply preserves_ret.
Qed.
Lemma keep_OpenDM u c : preserves db_ok (OpenDM u c).
Proof. update_op. by apply ok_open_dm. Qed.
Lemma keep_CloseDM u c : preserves db_ok (CloseDM u c).
Proof.
  update_op. apply ok_set_dm_open; [done|]. intros u' c' Hin. rewrite dom_delete_L in Hin.
  apply elem_of_difference in Hin as [Hin _]. by apply (ok_dm_open d Hd).
Qed.

#[export] Hint Resolve keep_JoinVoiceChannel keep_LeaveVoiceChannel keep_ClearVoiceState
  keep_ClearAllVoiceStates keep_UpdateVoiceMute keep_UpdateVoiceDeafen keep_UpdateVoiceCamera
  keep_UpdateVoiceScreenshare keep_CreateMessage keep_EditMessage keep_DeleteMessage
  keep_SetMessagePinned keep_AddReaction keep_RemoveReaction keep_UpdateReadState
  keep_CreateAttachment keep_LinkAttachmentsToMessage keep_DeleteOrphanedAttachments
  keep_GetOrCreateDMChannel keep_OpenDM keep_CloseDM : store_db.

(** ** Account deletion *)

Lemma keep_exec_all fs : Forall (fun f => forall d, db_ok d -> db_ok (f d)) fs ->
  preserves db_ok (exec_all fs).
Proof.
  induction 1 as [|f fs Hf _ IH]; simpl; [apply preserves_ret|].
  apply preserves_or_return; [|done]. update_op. by apply Hf.
Qed.

Lemma ok_purge_steps u : Forall (fun f => forall d, db_ok d -> db_ok (f d)) (purge_steps u).
Proof.
  unfold purge_steps. repeat apply Forall_cons_2; try apply Forall_nil_2; intros d H.
  - by apply ok_filter_sessions.
  - apply ok_sub_participants; [done|]. intros x Hx. by apply elem_of_filter in Hx as [_ ?].
  - apply ok_set_dm_open; [done|]. intros u' c Hin. apply elem_of_dom in Hin as [x Hx].
    apply map_lookup_filter_Some in Hx as [Hx _]. by apply elem_of_dom_2, (ok_dm_open d H) in Hx.
  - apply ok_set_reactions; [done|]. intros m v e Hin. apply elem_of_filter in Hin as [_ Hin].
    by apply (ok_reactions d H) in Hin.
  - apply ok_set_read_states; [done|]. intros u' c Hin. apply elem_of_dom in Hin as [x Hx].
    apply map_lookup_filter_Some in Hx as [Hx _]. by apply elem_of_dom_2, (ok_read_states d H) in Hx.
Qed.

Lemma ok_anonymise d u :
  db_ok d ->
  existsb (fun v => negb (u_id v =? u) && same_name (u_username v) (deleted_name u)) (rows (users d))
    = false ->
  db_ok (set_users (update_row u (user_anonymise (deleted_name u)) (users d)) d).
Proof.
  intros H Hn. rewrite existsb_rows_false in Hn. unfold update_row.
  assert (Hdom : dom (alter (user_anonymise (deleted_name u)) u (users d)) = dom (users d))
    by apply dom_alter_L.
  split_ok H; unfold user_ok, message_ok, session_ok, invite_ok, voice_ok in *;
    simpl; rewrite ?Hdom; try assumption.
  - intros i v Hv. apply lookup_alter_Some in Hv as [(-> & w & Hw & ->)|[_ Hv]];
      [exact (ok_users d H _ w Hw)|exact (ok_users d H i v Hv)].
  - assert (Hother : forall j w, u <> j -> users d !! j = Some w ->
      name_key w <> lower (deleted_name u)).
    { intros j w Hj Hw E. pose proof (Hn j w Hw) as Hf. destruct (ok_users d H j w Hw) as [Hid _].
      rewrite (proj2 (same_name_key _ _) E), andb_true_r in Hf. bools. congruence. }
    intros i j x y Hx Hy Hk.
    apply lookup_alter_Some in Hx as [(<- & x' & Hx & ->)|[Hi Hx]];
      apply lookup_alter_Some in Hy as [(<- & y' & Hy & ->)|[Hj Hy]]; [done| | |].
    + by destruct (Hother j y Hj Hy).
    + by destruct (Hother i x Hi Hx).
    + by apply (ok_names d H i j x y).
Qed.

Lemma keep_DeleteAccount u : preserves db_ok (DeleteAccount u).
Proof.
  apply preserves_in_tx'. apply preserves_or_return.
  { update_op. destruct (users d !! u); [|done]. by intros [= <- <-]. }
  intros r. apply preserves_or_return.
  { destruct (admin_class r); [|apply preserves_ret].
    apply preserves_or_return; [apply preserves_query|]. intros n. apply preserves_ret. }
  intros _. apply preserves_or_return; [apply keep_exec_all, ok_purge_steps|intros _].
  apply preserves_or_return.
  { update_op. apply ok_map_messages; [done|]. intros m. by destruct (m_user m =? u). }
  intros _. update_op. destruct (existsb _ _) eqn:E; [done|]. intros [= <- <-].
  by apply ok_anonymise.
Qed.

Lemma keep_LogAudit a x t i dt : preserves db_ok (LogAudit a x t i dt).
Proof. update_op. by apply ok_set_audit. Qed.
Lemma keep_SetSetting k v : preserves db_ok (SetSetting k v).
Proof. update_op. by apply ok_set_settings. Qed.

#[export] Hint Resolve keep_DeleteAccount keep_LogAudit keep_SetSetting : store_db.

Lemma keep_ignore {A} (m : ST Sys A) : preserves db_ok m -> preserves db_ok (ignore m).
Proof. intros H. apply preserves_bind; [done|intros _; apply preserves_ret]. Qed.

Lemma keep_run_op o : preserves db_ok (run_op o).
Proof. destruct o; apply keep_ignore; auto with store_db. Qed.

(** ** What account deletion does *)

Lemma exec_all_inr fs s x : (exec_all fs s).1 = inr x ->
  sys_db (exec_all fs s).2 = foldl (fun d f => f d) (sys_db s) fs.
Proof.
  revert s. induction fs as [|f fs IH]; intros s Hx; [done|]. simpl in *.
  apply or_return_inr in Hx as (y & H1 & Hx & ->). apply exec_inr in H1 as (now & H1 & _).
  rewrite (IH _ Hx). f_equal. by injection H1.
Qed.

(** The database a successful deletion leaves. *)
Lemma DeleteAccount_inr u s x : (DeleteAccount u s).1 = inr x ->
  exists usr, users (sys_db s) !! u = Some usr /\
  (admin_class (u_role usr) = true -> other_admins u (sys_db s) <> 0%nat) /\
  sys_db (DeleteAccount u s).2 =
    let d := foldl (fun d f => f d) (sys_db s) (purge_steps u) in
    let d := set_messages ((fun m => if m_user m =? u then message_wipe m else m) <$> messages d) d in
    set_users (update_row u (user_anonymise (deleted_name u)) (users d)) d.
Proof.
  intros Hr. unfold DeleteAccount in *. apply in_tx_success in Hr as (s0 & <- & Hr & ->).
  apply or_return_inr in Hr as (role & H1 & Hr & ->). apply exec_inr in H1 as (now & H1 & _).
  set (s1 := (exec _ s0).2) in *.
  destruct (users (sys_db s0) !! u) as [usr|]; [|done]. injection H1 as <- Hs1. rewrite Hs1.
  exists usr. split; [done|].
  apply or_return_inr in Hr as (y & H2 & Hr & ->). 
  match type of H2 with (?m s1).1 = _ => set (guard := m) in * end.
  set (s2 := (guard s1).2) in *.
  assert (Hs2 : sys_db s2 = sys_db s1 /\
    (admin_class (u_role usr) = true -> other_admins u (sys_db s1) <> 0%nat)).
  { subst s2 guard. destruct (admin_class (u_role usr)); [|done].
    apply or_return_inr in H2 as (n & Hq & H2 & ->). apply query_inr in Hq as [-> Hq].
    simpl in H2 |- *. split; [done|]. intros _. by destruct (Nat.eqb_spec (other_admins u (sys_db s1)) 0). }
  destruct Hs2 as [Hs2 Hadm]. split; [done|]. rewrite <- Hs2.
  apply or_return_inr in Hr as (z & H3 & Hr & ->). apply exec_all_inr in H3.
  set (s3 := (exec_all _ s2).2) in *.
  apply or_return_inr in Hr as (w & H4 & Hr & ->). apply update_inr in H4 as (now4 & Hs4 & _).
  set (s4 := (update _ s3).2) in *.
  apply exec_inr in Hr as (now5 & H5 & _). destruct (existsb _ _); [done|]. injection H5 as _ H5.
  by rewrite <- H5, Hs4, H3.
Qed.

(** Among the users there is an active owner or admin besides [u]. *)
Lemma other_admins_pos u d : db_ok d -> other_admins u d <> 0%nat ->
  exists i a, i <> u /\ users d !! i = Some a /\ admin_class (u_role a) = true /\ u_banned a = false.
Proof.
  intros H Hn. unfold other_admins, countb in Hn.
  destruct (List.filter _ _) as [|a l] eqn:E; [done|].
  assert (Ha : a ∈ a :: l) by set_solver. rewrite <- E in Ha.
  apply elem_of_filter_bool in Ha as [Hp Ha]. apply elem_of_rows in Ha as [i Hi].
  destruct (ok_users d H i a Hi) as [Hid _]. bools. exists i, a. by rewrite <- Hid at 1.
Qed.

(** ** Pages of messages *)

(** Rows in strictly decreasing order of a key. *)
Definition descending {A} (key : A -> Z) : list A -> Prop :=
  StronglySorted (fun x y => key y < key x).

Lemma descending_sort {A} (key : A -> Z) l :
  NoDup (key <$> l) -> descending key (sort_by (desc key) l).
Proof.
  intros Hnd. rewrite <- (sort_by_Permutation (desc key) l) in Hnd.
  assert (Hs : StronglySorted (fun a b => desc key a b = true) (sort_by (desc key) l)).
  { apply sort_by_sorted; unfold desc; intros; rewrite ?Z.leb_le in *; lia. }
  induction Hs as [|x k Hk IH Hx]; [constructor|].
  apply NoDup_cons in Hnd as [Hx' Hnd]. constructor; [by apply IH|].
  rewrite Forall_forall in Hx |- *. intros y Hy. specialize (Hx y Hy). unfold desc in Hx. bools.
  assert (key y <> key x); [|lia]. intros E. apply Hx'. rewrite <- E. by apply list_elem_of_fmap_2.
Qed.

Lemma descending_filter {A} (key : A -> Z) p l : descending key l -> descending key (List.filter p l).
Proof.
  induction 1 as [|x l Hl IH Hx]; simpl; [constructor|]. destruct (p x); [|done].
  constructor; [done|]. rewrite Forall_forall in Hx |- *. intros y Hy.
  apply elem_of_filter_bool in Hy as [_ Hy]. auto.
Qed.

Lemma descending_omap {A B} (key : A -> Z) (key' : B -> Z) (f : A -> option B) l :
  (forall x y, f x = Some y -> key' y = key x) ->
  descending key l -> descending key' (omap f l).
Proof.
  intros Hf. induction 1 as [|x l Hl IH Hx]; simpl; [constructor|].
  destruct (f x) as [y|] eqn:E; [|done]. constructor; [done|].
  rewrite Forall_forall in Hx. apply Forall_forall.
  intros z Hz. apply list_elem_of_omap in Hz as (w & Hw & Ew).
  rewrite (Hf _ _ E), (Hf _ _ Ew). auto.
Qed.

(** Two descending lists with the same elements are equal. *)
Lemma descending_eq {A} (key : A -> Z) l k :
  descending key l -> descending key k -> (forall x, x ∈ l <-> x ∈ k) -> l = k.
Proof.
  assert (Hnd : forall l, descending key l -> NoDup l).
  { induction 1 as [|x m _ IH Hx]; [constructor|]. constructor; [|done].
    intros Hin. rewrite Forall_forall in Hx. specialize (Hx x Hin). lia. }
  intros Hl Hk Heq. eapply StronglySorted_unique_strong; [|exact Hl|exact Hk|].
  - simpl. intros. lia.
  - apply NoDup_Permutation; auto.
Qed.

(** The elements below the last of a prefix are the rest. *)
Lemma descending_after {A} (key : A -> Z) l n x : descending key l -> last (take n l) = Some x ->
  List.filter (fun y => key y <? key x) l = drop n l.
Proof.
  intros Hl Hx. apply last_Some in Hx as [l0 Hx].
  rewrite <- (take_drop n l) in Hl |- * at 1. rewrite Hx in Hl |- *.
  generalize (drop n l) as r, Hl. clear. intros r.
  induction l0 as [|y l0 IH]; intros Hl; inversion_clear Hl as [|? ? Hs Hall]; simpl.
  - rewrite Z.ltb_irrefl. induction Hall as [|z r Hz Hr IHr]; simpl; [done|].
    rewrite (proj2 (Z.ltb_lt _ _) Hz). f_equal. inversion_clear Hs. by apply IHr.
  - rewrite Forall_forall in Hall. specialize (Hall x ltac:(set_solver)).
    rewrite (proj2 (Z.ltb_ge _ _)) by lia. by apply IH.
Qed.

(** What the page queries select. *)
Lemma elem_of_channel_messages ch b ex d m u : db_ok d ->
  (m, u) ∈ channel_messages ch b ex d <->
  messages d !! m_id m = Some m /\ users d !! m_user m = Some u /\ m_channel m = ch /\
  m_deleted m = false /\ (0 < b -> m_id m < b) /\ ex m = true.
Proof.
  intros H. unfold channel_messages. rewrite list_elem_of_omap. split.
  - intros (m' & Hin & E). apply bind_Some in E as (u' & Hu & [= -> ->]).
    apply elem_of_sort_by, elem_of_filter_bool in Hin as [Hp Hin].
    apply elem_of_rows in Hin as [i Hi]. destruct (ok_messages d H i m Hi) as [E _]. bools.
    rewrite E. repeat split; auto. intros Hb.
    destruct (Z.ltb_spec 0 b); [|lia]. bools. lia.
  - intros (Hm & Hu & <- & Hd & Hb & He). exists m. split; [|by rewrite Hu].
    apply elem_of_sort_by, elem_of_filter_bool. split; [|apply elem_of_rows; eauto].
    rewrite Z.eqb_refl, Hd, He, andb_true_r. simpl.
    destruct (Z.ltb_spec 0 b) as [Hlt|]; [|done]. apply Z.ltb_lt. auto.
Qed.

Lemma channel_messages_descending ch b ex d : db_ok d ->
  descending (m_id ∘ fst) (channel_messages ch b ex d).
Proof.
  intros H. unfold channel_messages. apply (descending_omap m_id).
  - intros m [m' u] E. by apply bind_Some in E as (u' & _ & [= -> ->]).
  - apply descending_sort.
    assert (Hnd : NoDup (m_id <$> rows (messages d))).
    { unfold rows. rewrite <- list_fmap_compose.
      rewrite (Forall_fmap_ext_1 (m_id ∘ snd) fst); [apply NoDup_fst_map_to_list|].
      apply Forall_forall. intros [i m] Hin. apply elem_of_map_to_list in Hin.
      by destruct (ok_messages d H i m Hin). }
    revert Hnd. generalize (rows (messages d)) as l. intros l.
    induction l as [|m l IH]; simpl; [done|]. intros [Hm Hnd]%NoDup_cons.
    destruct (_ && _); simpl; [|by apply IH]. apply NoDup_cons. split; [|by apply IH].
    intros Hin. apply Hm. apply list_elem_of_fmap in Hin as (m' & -> & Hin).
    apply elem_of_filter_bool in Hin as [_ Hin]. by apply list_elem_of_fmap_2.
Qed.

(** The page before a cursor is what follows the cursor in the whole list. *)
Lemma channel_messages_after ch ex d n x : db_ok d ->
  last (take n (channel_messages ch 0 ex d)) = Some x ->
  channel_messages ch (m_id x.1) ex d = drop n (channel_messages ch 0 ex d).
Proof.
  intros H Hx. pose proof (channel_messages_descending ch 0 ex d H) as Hs.
  rewrite <- (descending_after _ _ _ _ Hs Hx).
  assert (Hpos : 0 < m_id x.1).
  { assert (Hin : x ∈ channel_messages ch 0 ex d).
    { rewrite <- (take_drop n (channel_messages ch 0 ex d)).
      apply last_Some in Hx as [l0 ->]. set_solver. }
    destruct x as [m u]. apply elem_of_channel_messages in Hin as (Hm & _); [|done].
    destruct (ok_messages d H _ m Hm) as (_ & ? & _). simpl. lia. }
  apply (descending_eq (m_id ∘ fst)).
  - by apply channel_messages_descending.
  - by apply descending_filter.
  - intros [m u]. rewrite elem_of_filter_bool, !elem_of_channel_messages by done. simpl.
    rewrite Z.ltb_lt. intuition lia.
Qed.

(** A client that asks for pages of [limit] messages, each time before the
    oldest message it has. *)
Fixpoint read_pages (fuel : nat) (ch before limit : Z) (d : Db) : list (Message * User) :=
  match fuel with
  | O => []
  | S fuel =>
      let page := sql_limit limit (channel_messages ch before (fun _ => true) d) in
      match last page with
      | None => []
      | Some x => page ++ read_pages fuel ch (m_id x.1) limit d
      end
  end.

(** ** The migrated database *)

Definition default_roles : gmap Z Role := list_to_map [
  (1, mkRole 1 "Owner" (Some "#E74C3C") 0x7FFFFFFF 100 false);
  (2, mkRole 2 "Admin" (Some "#F39C12") 0x3FFFFFFF 80 false);
  (3, mkRole 3 "Moderator" (Some "#3498DB") 0x000FFFFF 60 false);
  (4, mkRole 4 "Member" None 7779 40 true)].

Definition default_settings : gmap string string := list_to_map [
  ("server_name", "OwnCord Server"); ("server_icon", EmptyString); ("motd", "Welcome!");
  ("max_upload_bytes", "26214400"); ("voice_quality", "high"); ("require_2fa", "0");
  ("registration_open", "0"); ("backup_schedule", "daily"); ("backup_retention", "7");
  ("schema_version", "1")].

Definition initial_db : Db :=
  mkDb ∅ default_roles ∅ ∅ ∅ ∅ ∅ ∅ ∅ ∅ ∅ ∅ ∅ [] default_settings 1 1 1 1 1 1.

Lemma initial_db_ok : db_ok initial_db.
Proof.
  constructor; simpl; first [intros i j x y Hx; by rewrite lookup_empty in Hx | lia
    | by apply map_Forall_empty | set_solver].
Qed.

Fixpoint run_ops (ops : list db_op) (s : Sys) : Sys :=
  match ops with
  | [] => s
  | o :: ops => run_ops ops (run_op o s).2
  end.

Lemma run_ops_ok ops s : db_ok (sys_db s) -> db_ok (sys_db (run_ops ops s)).
Proof. revert s. induction ops as [|o ops IH]; intros s Hs; [done|]. by apply IH, keep_run_op. Qed.


(** The effect of a registration: a usable invite was redeemed once more, and the
    user inserted under a fresh id with a name nobody has. *)
Definition invited (name pw : string) (role : Z) (code : string) (d d' : Db) (id : Z) : Prop :=
  exists now now' : Z,
  (exists k i, invites d !! k = Some i /\ invite_usable now code i = true) /\
  invites d' = (fun i => if invite_usable now code i then invite_use i else i) <$> invites d /\
  id = next_user d /\
  (forall k u, users d !! k = Some u -> lower (u_username u) <> lower name) /\
  users d' = <[id := mkUser id name pw None role None "offline" (datetime_now now') None
                         false None None]> (users d) /\
  sessions d' = sessions d /\ settings d' = settings d.

Lemma CreateUserWithInvite_spec name pw role code s :
  match (CreateUserWithInvite name pw role code s).1 with
  | inl _ => sys_db (CreateUserWithInvite name pw role code s).2 = sys_db s
  | inr id => invited name pw role code (sys_db s) (sys_db (CreateUserWithInvite name pw role code s).2) id
  end.
Proof.
  unfold CreateUserWithInvite.
  destruct (in_tx _ s).1 as [e|id] eqn:E.
  - by apply in_tx_error in E.
  - apply in_tx_success in E as (s1 & Hs1 & E & ->).
    apply or_return_inr in E as (x & E1 & E2 & ->). rewrite <- Hs1.
    apply exec_inr in E1 as (now & E1 & _). apply exec_inr in E2 as (now' & E2 & _).
    set (s2 := (exec (redeem_invite code) s1).2) in *.
    exists now, now'. unfold redeem_invite in E1.
    destruct (existsb _ _) eqn:Hex; [|done]. apply existsb_rows in Hex.
    injection E1 as _ Hd2. set (d3 := sys_db (exec (insert_user name pw role) s2).2) in *.
    clearbody d3. unfold insert_user in E2. rewrite <- Hd2 in E2. simpl in E2.
    destruct (existsb (fun u => same_name _ _) _) eqn:Hn; [done|].
    destruct (negb _); [done|]. injection E2 as Hid Hd3.
    rewrite <- Hd3, <- Hid. simpl. repeat (split; [done|]). split; [|done].
    intros k u Hk Heq. rewrite existsb_rows_false in Hn. specialize (Hn k u Hk).
    by rewrite (proj2 (same_name_key _ _) Heq) in Hn.
Qed.

End StoreThms.
Export StoreThms.

(** C2: whatever writing operations run on a freshly migrated database, in
    whatever order, with whatever statements failing at whatever times, foreign
    keys point to existing rows, names, tokens and codes are unique, no invite
    is used more often than it allows, and a pair of users shares at most one
    direct-message channel. *)
Theorem db_integrity ops faults now ticks :
  db_ok (sys_db (run_ops ops (mkSys initial_db faults now ticks))).
Proof. apply run_ops_ok, initial_db_ok. Qed.

(** Registration with an invite is atomic: when it fails the database is
    unchanged; when it succeeds, a usable invite (known code, not revoked,
    below its limit, not expired) was redeemed exactly once more and the user
    was inserted under a fresh id, with a name no other user has. *)
Theorem CreateUserWithInvite_atomic name pw role code s :
  let d := sys_db s in
  let d' := sys_db (CreateUserWithInvite name pw role code s).2 in
  match (CreateUserWithInvite name pw role code s).1 with
  | inl _ => d' = d
  | inr id => invited name pw role code d d' id
  end.
Proof. apply CreateUserWithInvite_spec. Qed.

(** For two different users, [GetOrCreateDMChannel] returns the one "dm"
    channel whose participants are exactly those two: the existing one when
    they share one, otherwise a new one, and afterwards they share no other. *)
Theorem dm_channel_unique u1 u2 s c created (Hok : db_ok (sys_db s)) (Hne : u1 <> u2)
    (Hr : (GetOrCreateDMChannel u1 u2 s).1 = inr (Some c, created)) :
  let d := sys_db s in
  let d' := sys_db (GetOrCreateDMChannel u1 u2 s).2 in
  c_type c = "dm" /\ channels d' !! c_id c = Some c /\
  dm_common u1 u2 d' = [c_id c] /\
  (forall v, (c_id c, v) ∈ dm_participants d' <-> v = u1 \/ v = u2) /\
  (if created then dm_common u1 u2 d = [] else dm_common u1 u2 d = [c_id c]).
Proof.
  cbv zeta. pose proof (keep_GetOrCreateDMChannel u1 u2 s Hok) as Hok'.
  unfold GetOrCreateDMChannel in *. apply or_return_inr in Hr as ([ch b] & Htx & Hr & E).
  rewrite E in Hok' |- *. clear E.
  apply in_tx_success in Htx as (s1 & Hs1 & Htx & E). rewrite <- Hs1 in *.
  set (s2 := (in_tx _ s).2) in *.
  apply or_return_inr in Hr as (cr & Hq & Hr & E2). rewrite E2 in Hok' |- *. clear E2.
  apply query_inr in Hq as [-> Hq]. set (s3 := (query _ s2).2) in *.
  destruct (channels (sys_db s2) !! ch) as [c'|] eqn:Hc; [|by destruct b].
  simpl in Hr, Hok' |- *. injection Hr as -> ->. rewrite <- Hq in Hc.
  destruct (ok_channels _ Hok' ch c Hc) as [<- _].
  assert (Hdb : sys_db s3 = sys_db (dm_channel_tx u1 u2 s1).2) by congruence.
  pose proof (dm_channel_tx_inr _ _ _ _ _ Htx) as Hcases. cbv zeta in Hcases.
  rewrite <- Hdb in Hcases. change (db_ok (sys_db s3)) in Hok'.
  assert (Hin : dm_common u1 u2 (sys_db s3) = [c_id c]).
  { apply dm_common_single; [done..|].
    destruct Hcases as [(_ & Hin & _ & Hp & Hch)|(_ & _ & Ec & now & d2 & d3 & x & y & z & w & H2 & H3 & H4)].
    - apply elem_of_dm_common in Hin as (?&?&?). apply elem_of_dm_common. unfold is_dm.
      by rewrite Hp, Hch.
    - apply insert_participants_inr in H2 as [_ H2]. apply open_dm_frame in H3 as [Hp3 _].
      apply open_dm_frame in H4 as [Hp4 _]. rewrite Hp3, H2 in Hp4.
      apply elem_of_dm_common. rewrite Hp4. split; [set_solver|]. split; [set_solver|].
      apply (ok_participants _ Hok' (c_id c) u1). rewrite Hp4. clear. set_solver. }
  assert (Hmem : c_id c ∈ dm_common u1 u2 (sys_db s3)) by (rewrite Hin; set_solver).
  apply elem_of_dm_common in Hmem as (Hm1 & Hm2 & k & Hk & Ht).
  rewrite Hc in Hk. injection Hk as <-.
  split; [done|]. split; [done|]. split; [done|]. split.
  - intros v. split; [|intros [-> | ->]; done]. intros Hv.
    destruct (ok_dm_two _ Hok' _ _ _ _ Hm1 Hm2 Hv) as [?|[?|?]]; [done|by left|by right].
  - destruct Hcases as [(-> & Hex & _)|(-> & Hnone & _)]; [by apply dm_common_single|done].
Qed.

(** Deleting an account either changes nothing and reports the error, or
    leaves no session, no direct-message membership, no reaction and no message
    text of the user, no password or second factor on the row, and every other
    row of the user table as it was; the account of the last active owner or
    admin is never deleted. *)
Theorem DeleteAccount_effect u s (Hok : db_ok (sys_db s)) :
  let d := sys_db s in
  let d' := sys_db (DeleteAccount u s).2 in
  match (DeleteAccount u s).1 with
  | inl _ => d' = d
  | inr _ =>
      exists usr, users d !! u = Some usr /\
      (admin_class (u_role usr) = true ->
         exists i a, i <> u /\ users d' !! i = Some a /\ admin_class (u_role a) = true /\
           u_banned a = false) /\
      users d' = <[u := user_anonymise (deleted_name u) usr]> (users d) /\
      (forall i x, sessions d' !! i = Some x -> s_user x <> u) /\
      (forall c, (c, u) ∉ dm_participants d') /\
      (forall m e, (m, u, e) ∉ reactions d') /\
      (forall i m, messages d' !! i = Some m -> m_user m = u ->
         m_deleted m = true /\ m_content m = EmptyString)
  end.
Proof.
  cbv zeta. destruct (DeleteAccount u s).1 as [e|x] eqn:E; [by apply in_tx_error in E|].
  apply DeleteAccount_inr in E as (usr & Hu & Hadm & ->). exists usr. split; [done|].
  assert (Husers : update_row u (user_anonymise (deleted_name u)) (users (sys_db s)) =
    <[u := user_anonymise (deleted_name u) usr]> (users (sys_db s))).
  { apply map_eq. intros j. unfold update_row. destruct (decide (j = u)) as [->|].
    - by rewrite lookup_alter_eq, lookup_insert_eq, Hu.
    - by rewrite lookup_alter_ne, lookup_insert_ne. }
  simpl. rewrite Husers. repeat split.
  - intros Ha. destruct (other_admins_pos u _ Hok (Hadm Ha)) as (i & a & Hi & Hia & ? & ?).
    exists i, a. rewrite lookup_insert_ne; auto.
  - intros i y Hy. by apply map_lookup_filter_Some in Hy as [_ ?].
  - intros c Hin. by apply elem_of_filter in Hin as [? _].
  - intros m e Hin. by apply elem_of_filter in Hin as [? _].
  - rename H into Hm. apply lookup_fmap_row in Hm as (m0 & _ & ->).
    destruct (Z.eqb_spec (m_user m0) u); done.
  - rename H into Hm. apply lookup_fmap_row in Hm as (m0 & _ & ->).
    destruct (Z.eqb_spec (m_user m0) u); done.
Qed.

(** Message pages neither lose nor repeat a message: a client that follows
    the cursor "before the oldest message I have" reads exactly the visible
    (not deleted) messages of the channel, each once, newest first. *)
Theorem GetMessages_pages ch limit d fuel (Hok : db_ok d) (Hlimit : 0 < limit)
    (Hfuel : (length (channel_messages ch 0 (fun _ => true) d) < fuel)%nat) :
  let log := read_pages fuel ch 0 limit d in
  descending (m_id ∘ fst) log /\
  (forall m u, (m, u) ∈ log <->
     messages d !! m_id m = Some m /\ users d !! m_user m = Some u /\
     m_channel m = ch /\ m_deleted m = false) /\
  (forall before s r, (GetMessages ch before limit s).1 = inr r ->
     r = sql_limit limit (channel_messages ch before (fun _ => true) (sys_db s))).
Proof.
  cbv zeta. set (all := channel_messages ch 0 (fun _ => true) d) in *.
  assert (Hlog : forall k n, channel_messages ch k (fun _ => true) d = drop n all ->
    forall f, (length all - n < f)%nat -> read_pages f ch k limit d = drop n all).
  { intros k n Hk f. revert k n Hk. induction f as [|f IH]; intros k n Hk Hf; [lia|].
    simpl. rewrite Hk. unfold sql_limit. rewrite (proj2 (Z.ltb_ge limit 0)) by lia.
    set (t := Z.to_nat limit). assert (0 < t)%nat by (unfold t; lia).
    destruct (last (take t (drop n all))) as [x|] eqn:Hx.
    - rewrite (IH _ (n + t)%nat).
      + rewrite <- drop_drop. apply take_drop.
      + apply channel_messages_after; [done|]. change (channel_messages _ _ _ _) with all.
        by rewrite <- take_take_drop, last_app, Hx.
      + assert (n < length all)%nat; [|lia]. apply Nat.nle_gt. intros Hle.
        by rewrite drop_ge, take_nil in Hx by done.
    - apply last_None in Hx. destruct (drop n all); [done|]. destruct t; [lia|done]. }
  rewrite (Hlog 0 0%nat); [|by rewrite drop_0|lia]. rewrite drop_0.
  split; [by apply channel_messages_descending|]. split.
  - intros m u. unfold all. rewrite elem_of_channel_messages by done. intuition lia.
  - intros before s r Hr. by apply query_inr in Hr as [-> _].
Qed.

(** ** Examples *)

(** A server with an owner, two members, a text channel and two messages. *)
Definition demo_ops : list db_op := [
  OpCreateUser "alice" "h1" 1; OpCreateUser "bob" "h2" 4; OpCreateUser "carol" "h3" 2;
  OpCreateChannel "general" "text" EmptyString EmptyString 0;
  OpCreateMessage 1 2 "hello" None; OpCreateMessage 1 1 "hi" (Some 1)].

Definition demo_sys : Sys := run_ops demo_ops (mkSys initial_db [] 1700000000000000000 []).

Lemma demo_ok : db_ok (sys_db demo_sys).
Proof. apply run_ops_ok, initial_db_ok. Qed.

Lemma dm_channel_unique_witness :
  exists c, (GetOrCreateDMChannel 1 2 demo_sys).1 = inr (Some c, true) /\
    dm_common 1 2 (sys_db (GetOrCreateDMChannel 1 2 demo_sys).2) = [c_id c].
Proof.
  assert (Hr : exists c, (GetOrCreateDMChannel 1 2 demo_sys).1 = inr (Some c, true))
    by (eexists; vm_compute; reflexivity).
  destruct Hr as [c Hr]. exists c. split; [exact Hr|].
  assert (Hne : 1 <> 2) by lia.
  destruct (dm_channel_unique 1 2 demo_sys c true demo_ok Hne Hr) as (_ & _ & H & _). exact H.
Defined.

Lemma DeleteAccount_effect_witness :
  exists usr, users (sys_db demo_sys) !! 2 = Some usr /\
    users (sys_db (DeleteAccount 2 demo_sys).2) =
      <[2 := user_anonymise (deleted_name 2) usr]> (users (sys_db demo_sys)).
Proof.
  assert (Hr : exists x, (DeleteAccount 2 demo_sys).1 = inr x) by (eexists; vm_compute; reflexivity).
  pose proof (DeleteAccount_effect 2 demo_sys demo_ok) as H. cbv zeta in H.
  destruct Hr as [x Hr]. rewrite Hr in H. destruct H as (usr & Hu & _ & Hus & _).
  exists usr. split; [exact Hu|exact Hus].
Defined.

Lemma GetMessages_pages_witness :
  let d := sys_db demo_sys in
  descending (m_id ∘ fst) (read_pages 3 1 0 1 d) /\ m_id ∘ fst <$> read_pages 3 1 0 1 d = [2; 1].
Proof.
  split; [|vm_compute; reflexivity].
  apply (GetMessages_pages 1 1 (sys_db demo_sys) 3 demo_ok).
  - lia.
  - vm_compute. lia.
Defined.

(** The batch check against the stored overrides of the demo server. *)
Lemma HasChannelPermBatch_agrees_witness :
  HasChannelPermBatch 7779 ∅ 1 SendMessages = (HasChannelPerm 7779 4 1 SendMessages demo_sys).1.
Proof.
  apply (HasChannelPermBatch_agrees 7779 4 1 SendMessages demo_sys ∅).
  - vm_compute. reflexivity.
  - intros e He. vm_compute in He. discriminate He.
Defined.
