(* ===== verification/Seed.v ===== *)
(** * Development data

    Model of Server/scripts/seed.go: the users, channels, messages and the
    conversation it creates unless they are there, and that a second run on the
    same database creates none of them. Opening the database and the output are
    left out. *)

From S2P Require Import Prelude Permissions RateLimiter GoText Wire GoTime Crypto Rows Store StoreInv StoreOk StoreThms.
#[local] Open Scope string_scope.
#[local] Open Scope Z_scope.

Module Seed.

Record seedUser := mkSeedUser { su_Username : string; su_Password : string; su_RoleID : Z }.
Record seedChannel := mkSeedChannel {
  sc_Name : string; sc_Type : string; sc_Category : string; sc_Topic : string; sc_Position : Z }.
Record seedMessage := mkSeedMessage { sm_ChannelIdx : nat; sm_UserIdx : nat; sm_Content : string }.

Definition seedUsers : list seedUser := [
  mkSeedUser "admin" "admin123" 1; mkSeedUser "alice" "password123" 4;
  mkSeedUser "bob" "password123" 4; mkSeedUser "charlie" "password123" 4].
Definition seedChannels : list seedChannel := [
  mkSeedChannel "general" "text" "Text Channels" "General chat" 0;
  mkSeedChannel "random" "text" "Text Channels" "Off-topic discussion" 1;
  mkSeedChannel "gaming" "text" "Text Channels" "Gaming talk" 2;
  mkSeedChannel "Voice Lounge" "voice" "Voice Channels" "" 3;
  mkSeedChannel "Gaming Voice" "voice" "Voice Channels" "" 4].

Definition chGeneral : nat := 0.
Definition chRandom : nat := 1.
Definition chGaming : nat := 2.
Definition uAdmin : nat := 0.
Definition uAlice : nat := 1.
Definition uBob : nat := 2.
Definition uCharlie : nat := 3.

Definition seedMessages : list seedMessage := [
  mkSeedMessage chGeneral uAdmin "Welcome to OwnCord! This is the general channel.";
  mkSeedMessage chGeneral uAlice "Hey everyone! Glad to be here.";
  mkSeedMessage chGeneral uBob "Hello! This looks great.";
  mkSeedMessage chGeneral uCharlie "Hi all, what's everyone up to?";
  mkSeedMessage chGeneral uAdmin "Feel free to chat about anything here.";
  mkSeedMessage chGeneral uAlice "Anyone tried the voice chat yet?";
  mkSeedMessage chGeneral uBob "Not yet, but I'm about to!";
  mkSeedMessage chGeneral uCharlie "The UI looks really clean.";
  mkSeedMessage chGeneral uAdmin "Thanks! We've been working hard on it.";
  mkSeedMessage chGeneral uAlice "Can we customize themes?";
  mkSeedMessage chGeneral uAdmin "Yes! Check the settings panel.";
  mkSeedMessage chRandom uBob "Random thought: pineapple on pizza is underrated.";
  mkSeedMessage chRandom uCharlie "Hard disagree, but I respect your opinion.";
  mkSeedMessage chRandom uAlice "Let's not start a war here lol";
  mkSeedMessage chRandom uBob "Too late, the war has begun!";
  mkSeedMessage chRandom uAdmin "Keep it friendly, folks!";
  mkSeedMessage chRandom uCharlie "Anyone watching any good shows lately?";
  mkSeedMessage chRandom uAlice "I just finished a great series, highly recommend it.";
  mkSeedMessage chRandom uBob "What series?";
  mkSeedMessage chRandom uAlice "I'll share the link later!";
  mkSeedMessage chGaming uCharlie "Anyone up for some co-op tonight?";
  mkSeedMessage chGaming uBob "I'm down! What game?";
  mkSeedMessage chGaming uCharlie "Thinking something chill, maybe Minecraft?";
  mkSeedMessage chGaming uAlice "Count me in!";
  mkSeedMessage chGaming uAdmin "I might join later if I finish some work.";
  mkSeedMessage chGaming uBob "No pressure, we'll be on for a while."].
Definition seedDMMessages : list (nat * string) := [
  (uAdmin, "Hey Alice, welcome to the server!");
  (uAlice, "Thanks! Everything looks awesome.");
  (uAdmin, "Let me know if you run into any issues.");
  (uAlice, "Will do! One question: how do I change my avatar?");
  (uAdmin, "Go to Settings > Account, you can upload one there.")].

(** An id of the tables a run fills; the indices of the data are within them. *)
Definition nth_id (ids : list Z) (i : nat) : Z := default 0 (ids !! i).

Section seed.
Context (HashPassword : string -> option string).

(** The errors of hashing are told from those of the database by [None]. *)
Definition createUser (su : seedUser) : ST Sys (result (option db_error) Z) :=
  existing ← GetUserByUsername (su_Username su);
  match existing with
  | inl e => mret (inl (Some e))
  | inr (Some u) => mret (inr (u_id u))
  | inr None =>
      match HashPassword (su_Password su) with
      | None => mret (inl None)
      | Some hash =>
          r ← CreateUser (su_Username su) hash (su_RoleID su);
          mret (match r with inl e => inl (Some e) | inr id => inr id end)
      end
  end.

Fixpoint createUsers (l : list seedUser) : ST Sys (result (option db_error) (list Z)) :=
  match l with
  | [] => mret (inr [])
  | su :: l =>
      r ← createUser su;
      match r with
      | inl e => mret (inl e)
      | inr id => rs ← createUsers l; mret (match rs with inl e => inl e | inr ids => inr (id :: ids) end)
      end
  end.
End seed.

Definition roleNameFromID (roleID : Z) : string :=
  if roleID =? 1 then "owner" else if roleID =? 2 then "admin" else if roleID =? 3 then "moderator"
  else if roleID =? 4 then "member" else "role_" +:+ itoa roleID.

(** The last channel of the list with a name counts. *)
Definition existingByName (l : list Channel) : gmap string Z :=
  foldl (fun m ch => <[c_name ch := c_id ch]> m) ∅ l.

Fixpoint create_channels (existing : gmap string Z) (l : list seedChannel) : ST Sys (result db_error (list Z)) :=
  match l with
  | [] => mret (inr [])
  | sc :: l =>
      r ← match existing !! sc_Name sc with
          | Some id => mret (inr id)
          | None => CreateChannel (sc_Name sc) (sc_Type sc) (sc_Category sc) (sc_Topic sc) (sc_Position sc)
          end;
      match r with
      | inl e => mret (inl e)
      | inr id => rs ← create_channels existing l; mret (match rs with inl e => inl e | inr ids => inr (id :: ids) end)
      end
  end.

Definition createChannels : ST Sys (result db_error (list Z)) :=
  or_return ListChannels (fun existing => create_channels (existingByName existing) seedChannels).

Definition is_seeded (channelID userID : Z) (content : string) (m : Message) : bool :=
  (m_channel m =? channelID) && (m_user m =? userID) && String.eqb (m_content m) content && negb (m_deleted m).
Definition messageExists (channelID userID : Z) (content : string) : ST Sys (result db_error bool) :=
  query (fun d => (0 <? countb (is_seeded channelID userID content) (rows (messages d)))%nat).

(** The number of messages created, after [created] others. *)
Fixpoint create_missing (l : list (Z * Z * string)) (created : Z) : ST Sys (result db_error Z) :=
  match l with
  | [] => mret (inr created)
  | (channelID, userID, content) :: l =>
      or_return (messageExists channelID userID content) (fun there =>
        if there : bool then create_missing l created
        else or_return (CreateMessage channelID userID content None) (fun _ => create_missing l (created + 1)))
  end.

Definition channel_messages (channelIDs userIDs : list Z) : list (Z * Z * string) :=
  (fun sm => (nth_id channelIDs (sm_ChannelIdx sm), nth_id userIDs (sm_UserIdx sm), sm_Content sm)) <$> seedMessages.
Definition createMessages (channelIDs userIDs : list Z) : ST Sys (result db_error Z) :=
  create_missing (channel_messages channelIDs userIDs) 0.

(** A channel that was created and cannot be read is a nil pointer: the program
    panics ([DbFault] stands for it). *)
Definition createDMConversation (userIDs : list Z) : ST Sys (result db_error Z) :=
  or_return (GetOrCreateDMChannel (nth_id userIDs uAdmin) (nth_id userIDs uAlice)) (fun '(ch, _) =>
    match ch with
    | None => mret (inl DbFault)
    | Some ch => create_missing ((fun dm => (c_id ch, nth_id userIDs dm.1, dm.2)) <$> seedDMMessages) 0
    end).

(** The end of [main]: the numbers of users, channels, messages and direct
    messages. *)
Definition seed (HashPassword : string -> option string) : ST Sys (option (nat * nat * Z * Z)) :=
  us ← createUsers HashPassword seedUsers;
  match us with
  | inl _ => mret None
  | inr userIDs =>
      cs ← createChannels;
      match cs with
      | inl _ => mret None
      | inr channelIDs =>
          ms ← createMessages channelIDs userIDs;
          match ms with
          | inl _ => mret None
          | inr msgCount =>
              ds ← createDMConversation userIDs;
              mret (match ds with
                    | inl _ => None
                    | inr dmMsgCount => Some (length userIDs, length channelIDs, msgCount, dmMsgCount)
                    end)
          end
      end
  end.

(** ** A message is created once *)

Definition there (x : Z * Z * string) (d : Db) : Prop :=
  exists id m, messages d !! id = Some m /\ is_seeded x.1.1 x.1.2 x.2 m = true.

Lemma there_count x d : there x d -> (0 <? countb (is_seeded x.1.1 x.1.2 x.2) (rows (messages d)))%nat = true.
Proof.
  intros (id & m & Hm & Hs). apply Nat.ltb_lt. unfold countb.
  assert (In m (List.filter (is_seeded x.1.1 x.1.2 x.2) (rows (messages d)))) as Hin.
  { apply List.filter_In. split; [|done]. apply list_elem_of_In, elem_of_rows. by exists id. }
  destruct (List.filter _ _); [done|simpl; lia].
Qed.

Lemma count_there x d : (0 <? countb (is_seeded x.1.1 x.1.2 x.2) (rows (messages d)))%nat = true -> there x d.
Proof.
  intros H. apply Nat.ltb_lt in H. unfold countb in H.
  destruct (List.filter _ _) as [|m l] eqn:E; [simpl in H; lia|].
  assert (In m (List.filter (is_seeded x.1.1 x.1.2 x.2) (rows (messages d)))) as [Hin Hs]%List.filter_In
    by (rewrite E; by left).
  apply list_elem_of_In, elem_of_rows in Hin as [id Hid]. by exists id, m.
Qed.

(** The creation of a message keeps the others. *)
Definition more_messages (d d' : Db) : Prop := db_ok d -> db_ok d' /\ messages d ⊆ messages d'.

Lemma more_refl d : more_messages d d.
Proof. by intros. Qed.
Lemma more_trans d1 d2 d3 : more_messages d1 d2 -> more_messages d2 d3 -> more_messages d1 d3.
Proof. intros H1 H2 Hd. destruct (H1 Hd) as [Hd2 S1]. destruct (H2 Hd2) as [Hd3 S2]. split; [done|]. by etrans. Qed.
Lemma there_more x d d' : db_ok d -> more_messages d d' -> there x d -> there x d'.
Proof.
  intros Hd H (id & m & Hm & Hs). exists id, m. split; [|done]. destruct (H Hd) as [_ Hsub]. by eapply lookup_weaken.
Qed.

Lemma CreateMessage_more c u t s :
  more_messages (sys_db s) (sys_db (CreateMessage c u t None s).2) /\
  (forall id, (CreateMessage c u t None s).1 = inr id -> there (c, u, t) (sys_db (CreateMessage c u t None s).2)).
Proof.
  pose proof (keep_CreateMessage c u t None s) as Hk. unfold CreateMessage in *.
  match goal with |- context [exec ?f s] => destruct (exec_cases f s) as [(e & E & Hd)|(now & id & d & E & Hf & Hd & _)] end.
  - rewrite Hd, E. split; [apply more_refl|done].
  - cbv beta in Hf. destruct (_ && _); [|done]. cbv zeta in Hf. injection Hf as _ Hd'. rewrite Hd in Hk |- *. subst d. split.
    + intros Hok. split; [by apply Hk|]. simpl. apply insert_subseteq.
      destruct (messages (sys_db s) !! next_message (sys_db s)) as [m|] eqn:Hm; [|done].
      pose proof (ok_messages _ Hok _ _ Hm) as (_ & Hlt & _). lia.
    + intros _ _. exists (next_message (sys_db s)). eexists. split; [apply lookup_insert_eq|].
      unfold is_seeded. simpl. by rewrite !Z.eqb_refl, String.eqb_refl.
Qed.

Lemma create_missing_adds l : forall n s, db_ok (sys_db s) ->
  let '(r, s') := create_missing l n s in
  more_messages (sys_db s) (sys_db s') /\ forall k, r = inr k -> Forall (fun x => there x (sys_db s')) l.
Proof.
  induction l as [|[[c u] t] l IH]; intros n s Hok.
  - split; [apply more_refl|]. intros k _. apply Forall_nil_2.
  - cbn [create_missing]. unfold or_return at 1. unfold mbind, ST_bind.
    pose proof (query_cases (fun d => (0 <? countb (is_seeded c u t) (rows (messages d)))%nat) s) as [Hd Hr].
    unfold messageExists. destruct (query _ s) as [r1 s1]. cbn [fst snd] in *.
    destruct Hr as [[e ->]| ->]; [simpl; rewrite Hd; by split; [apply more_refl|]|].
    rewrite <- Hd in Hok. destruct (_ <? _)%nat eqn:Hc.
    + specialize (IH n s1 Hok). destruct (create_missing l n s1) as [r2 s2]. rewrite Hd in *. destruct IH as [Hm Hl].
      split; [done|]. intros k Hk. constructor; [|by eapply Hl].
      eapply there_more; [exact Hok|exact Hm|]. by apply count_there.
    + unfold or_return. unfold mbind, ST_bind. pose proof (CreateMessage_more c u t s1) as [Hm Ht].
      destruct (CreateMessage c u t None s1) as [[e|id] s2]; cbn [fst snd] in *; rewrite Hd in *; [by split|].
      destruct (Hm Hok) as [Hok2 _]. specialize (IH (n + 1) s2 Hok2).
      destruct (create_missing l (n + 1) s2) as [r3 s3]. destruct IH as [Hm3 Hl].
      split; [by eapply more_trans|]. intros k Hk. constructor; [|by eapply Hl].
      eapply there_more; [exact Hok2|exact Hm3|]. by apply (Ht id).
Qed.

Lemma exec_sound {A} (f : Z -> Db -> result db_error (A * Db)) s : sys_faults s = [] ->
  sys_faults (exec f s).2 = [] /\
  (forall a d, (forall now, f now (sys_db s) = inr (a, d)) -> (exec f s).1 = inr a /\ sys_db (exec f s).2 = d).
Proof.
  intros Hf. unfold exec. rewrite tick_db. unfold faulty.
  assert (Ht : sys_faults (tick s) = []) by (unfold tick; by destruct (sys_ticks s)). rewrite Ht.
  split.
  - destruct (f _ _) as [e|[a d]]; simpl; by rewrite Ht.
  - intros a d H. by rewrite H.
Qed.

Lemma create_missing_nothing l : forall n s, sys_faults s = [] -> Forall (fun x => there x (sys_db s)) l ->
  let '(r, s') := create_missing l n s in r = inr n /\ sys_db s' = sys_db s /\ sys_faults s' = [].
Proof.
  induction l as [|[[c u] t] l IH]; intros n s Hf Hl; [done|].
  apply Forall_cons in Hl as [Hx Hl]. cbn [create_missing]. unfold or_return at 1. unfold mbind, ST_bind.
  unfold messageExists, query. set (f := fun (_ : Z) d => inr ((0 <? countb (is_seeded c u t) (rows (messages d)))%nat, d)).
  destruct (exec_sound f s Hf) as [Hf1 Hs]. destruct (Hs true (sys_db s)) as [E1 E2].
  { intros now. unfold f. pose proof (there_count (c, u, t) _ Hx) as E. simpl in E. by rewrite E. }
  destruct (exec f s) as [r1 s1]. cbn [fst snd] in *. subst r1. rewrite <- E2 in Hl.
  specialize (IH n s1 Hf1 Hl). destruct (create_missing l n s1) as [r s']. by rewrite E2 in IH.
Qed.

(** Two runs on a new database. *)
Example seed_twice :
  let first := seed Some (mkSys initial_db [] 0 []) in
  let second := seed Some first.2 in
  first.1 = Some (4%nat, 5%nat, 26, 5) /\ second.1 = Some (4%nat, 5%nat, 0, 0) /\ sys_db second.2 = sys_db first.2.
Proof. vm_compute. repeat split. Qed.
End Seed.
Export Seed.

(** The messages of the seed are created once: after a run that succeeded,
    whatever was there before and whatever the first run found or created,
    another run creates nothing and leaves the database as it is. *)
Theorem seed_messages_once l s (Hok : db_ok (sys_db s)) :
  let '(r, s1) := create_missing l 0 s in
  forall k, r = inr k -> forall s2, sys_db s2 = sys_db s1 -> sys_faults s2 = [] ->
    let '(r', s') := create_missing l 0 s2 in r' = inr 0 /\ sys_db s' = sys_db s1.
Proof.
  pose proof (create_missing_adds l 0 s Hok) as H. destruct (create_missing l 0 s) as [r s1].
  intros k Hk s2 Hd Hf. pose proof (create_missing_nothing l 0 s2 Hf) as H2. rewrite Hd in H2.
  destruct (create_missing l 0 s2) as [r' s']. destruct (H2 (proj2 H k Hk)) as (-> & -> & _). done.
Qed.

Lemma seed_messages_once_witness :
  let l := [(1, 1, "a"); (1, 1, "b")] in
  let s := mkSys initial_db [] 0 [] in
  let s0 := (CreateChannel "c" "text" "" "" 0 (CreateUser "u" "h" 1 s).2).2 in
  (create_missing l 0 s0).1 = inr 2 /\ (create_missing l 0 (create_missing l 0 s0).2).1 = inr 0.
Proof.
  intros l s s0.
  assert (Hok : db_ok (sys_db s0)) by (apply keep_CreateChannel, keep_CreateUser, initial_db_ok).
  assert (H1 : (create_missing l 0 s0).1 = inr 2) by (vm_compute; reflexivity).
  split; [exact H1|]. pose proof (seed_messages_once l s0 Hok) as H.
  destruct (create_missing l 0 s0) as [r s1] eqn:E. cbn [fst snd] in *.
  assert (Hf : sys_faults s1 = []) by (apply (f_equal snd) in E; cbn [snd] in E; rewrite <- E; vm_compute; reflexivity).
  specialize (H 2 H1 s1 eq_refl Hf). destruct (create_missing l 0 s1) as [r' s']. exact (proj1 H).
Defined.
