(* ===== verification/Hub.v ===== *)
(** * The hub: connected clients and broadcasts

    Model of Server/ws/hub.go and client.go. A connection is a heap object: the
    client map of the hub, the goroutines serving the socket and the handlers
    all hold the same pointer, and pointer equality decides who owns an entry
    of the map, so the model keeps a store of clients addressed by pointers.
    Channels are Go channels: sending on, or closing, a closed one panics. *)

From S2P Require Import Prelude Permissions RingBuffer RateLimiter GoText Wire GoTime Rows Store.
#[local] Open Scope string_scope.
#[local] Open Scope Z_scope.

Module Hub.

Definition sendBufSize : nat := 256.
Definition broadcastBufSize : nat := 256.
Definition replayBufSize : Z := 1000.
Definition SessionCheckInterval : Z := 10.
Definition staleClientTimeout : Z := 90 * Second.
Definition settingsCacheTTL : Z := 30 * Second.

(** ** State *)

(** A buffered channel of frames. *)
Record chan := mkChan { ch_buf : list string; ch_closed : bool }.

(** One WebSocket connection; [cl_wire] is what was written to its socket. *)
Record Client := mkClient {
  cl_userID : Z;
  cl_user : option User;
  cl_channelID : Z;
  cl_voiceChID : Z;
  cl_roleName : string;
  cl_tokenHash : string;
  cl_remoteAddr : string;
  cl_connectedAt : Z;
  cl_msgCount : Z;
  cl_msgsReceived : Z;
  cl_msgsSent : Z;
  cl_msgsDropped : Z;
  cl_invalidCount : Z;
  cl_lastActivity : Z;
  cl_sendClosed : bool;
  cl_send : chan;
  cl_wire : list string }.

Definition cl_set_userID (x : Z) (c : Client) : Client :=
  mkClient x (cl_user c) (cl_channelID c) (cl_voiceChID c) (cl_roleName c) (cl_tokenHash c)
    (cl_remoteAddr c) (cl_connectedAt c) (cl_msgCount c) (cl_msgsReceived c) (cl_msgsSent
    c) (cl_msgsDropped c) (cl_invalidCount c) (cl_lastActivity c) (cl_sendClosed c)
    (cl_send c) (cl_wire c).
Definition cl_set_user (x : option User) (c : Client) : Client :=
  mkClient (cl_userID c) x (cl_channelID c) (cl_voiceChID c) (cl_roleName c) (cl_tokenHash c)
    (cl_remoteAddr c) (cl_connectedAt c) (cl_msgCount c) (cl_msgsReceived c) (cl_msgsSent
    c) (cl_msgsDropped c) (cl_invalidCount c) (cl_lastActivity c) (cl_sendClosed c)
    (cl_send c) (cl_wire c).
Definition cl_set_channelID (x : Z) (c : Client) : Client :=
  mkClient (cl_userID c) (cl_user c) x (cl_voiceChID c) (cl_roleName c) (cl_tokenHash c)
    (cl_remoteAddr c) (cl_connectedAt c) (cl_msgCount c) (cl_msgsReceived c) (cl_msgsSent
    c) (cl_msgsDropped c) (cl_invalidCount c) (cl_lastActivity c) (cl_sendClosed c)
    (cl_send c) (cl_wire c).
Definition cl_set_voiceChID (x : Z) (c : Client) : Client :=
  mkClient (cl_userID c) (cl_user c) (cl_channelID c) x (cl_roleName c) (cl_tokenHash c)
    (cl_remoteAddr c) (cl_connectedAt c) (cl_msgCount c) (cl_msgsReceived c) (cl_msgsSent
    c) (cl_msgsDropped c) (cl_invalidCount c) (cl_lastActivity c) (cl_sendClosed c)
    (cl_send c) (cl_wire c).
Definition cl_set_roleName (x : string) (c : Client) : Client :=
  mkClient (cl_userID c) (cl_user c) (cl_channelID c) (cl_voiceChID c) x (cl_tokenHash c)
    (cl_remoteAddr c) (cl_connectedAt c) (cl_msgCount c) (cl_msgsReceived c) (cl_msgsSent
    c) (cl_msgsDropped c) (cl_invalidCount c) (cl_lastActivity c) (cl_sendClosed c)
    (cl_send c) (cl_wire c).
Definition cl_set_tokenHash (x : string) (c : Client) : Client :=
  mkClient (cl_userID c) (cl_user c) (cl_channelID c) (cl_voiceChID c) (cl_roleName c) x
    (cl_remoteAddr c) (cl_connectedAt c) (cl_msgCount c) (cl_msgsReceived c) (cl_msgsSent
    c) (cl_msgsDropped c) (cl_invalidCount c) (cl_lastActivity c) (cl_sendClosed c)
    (cl_send c) (cl_wire c).
Definition cl_set_remoteAddr (x : string) (c : Client) : Client :=
  mkClient (cl_userID c) (cl_user c) (cl_channelID c) (cl_voiceChID c) (cl_roleName c)
    (cl_tokenHash c) x (cl_connectedAt c) (cl_msgCount c) (cl_msgsReceived c) (cl_msgsSent
    c) (cl_msgsDropped c) (cl_invalidCount c) (cl_lastActivity c) (cl_sendClosed c)
    (cl_send c) (cl_wire c).
Definition cl_set_connectedAt (x : Z) (c : Client) : Client :=
  mkClient (cl_userID c) (cl_user c) (cl_channelID c) (cl_voiceChID c) (cl_roleName c)
    (cl_tokenHash c) (cl_remoteAddr c) x (cl_msgCount c) (cl_msgsReceived c) (cl_msgsSent
    c) (cl_msgsDropped c) (cl_invalidCount c) (cl_lastActivity c) (cl_sendClosed c)
    (cl_send c) (cl_wire c).
Definition cl_set_msgCount (x : Z) (c : Client) : Client :=
  mkClient (cl_userID c) (cl_user c) (cl_channelID c) (cl_voiceChID c) (cl_roleName c)
    (cl_tokenHash c) (cl_remoteAddr c) (cl_connectedAt c) x (cl_msgsReceived c)
    (cl_msgsSent c) (cl_msgsDropped c) (cl_invalidCount c) (cl_lastActivity c)
    (cl_sendClosed c) (cl_send c) (cl_wire c).
Definition cl_set_msgsReceived (x : Z) (c : Client) : Client :=
  mkClient (cl_userID c) (cl_user c) (cl_channelID c) (cl_voiceChID c) (cl_roleName c)
    (cl_tokenHash c) (cl_remoteAddr c) (cl_connectedAt c) (cl_msgCount c) x (cl_msgsSent
    c) (cl_msgsDropped c) (cl_invalidCount c) (cl_lastActivity c) (cl_sendClosed c)
    (cl_send c) (cl_wire c).
Definition cl_set_msgsSent (x : Z) (c : Client) : Client :=
  mkClient (cl_userID c) (cl_user c) (cl_channelID c) (cl_voiceChID c) (cl_roleName c)
    (cl_tokenHash c) (cl_remoteAddr c) (cl_connectedAt c) (cl_msgCount c) (cl_msgsReceived
    c) x (cl_msgsDropped c) (cl_invalidCount c) (cl_lastActivity c) (cl_sendClosed c)
    (cl_send c) (cl_wire c).
Definition cl_set_msgsDropped (x : Z) (c : Client) : Client :=
  mkClient (cl_userID c) (cl_user c) (cl_channelID c) (cl_voiceChID c) (cl_roleName c)
    (cl_tokenHash c) (cl_remoteAddr c) (cl_connectedAt c) (cl_msgCount c) (cl_msgsReceived
    c) (cl_msgsSent c) x (cl_invalidCount c) (cl_lastActivity c) (cl_sendClosed c)
    (cl_send c) (cl_wire c).
Definition cl_set_invalidCount (x : Z) (c : Client) : Client :=
  mkClient (cl_userID c) (cl_user c) (cl_channelID c) (cl_voiceChID c) (cl_roleName c)
    (cl_tokenHash c) (cl_remoteAddr c) (cl_connectedAt c) (cl_msgCount c) (cl_msgsReceived
    c) (cl_msgsSent c) (cl_msgsDropped c) x (cl_lastActivity c) (cl_sendClosed c) (cl_send
    c) (cl_wire c).
Definition cl_set_lastActivity (x : Z) (c : Client) : Client :=
  mkClient (cl_userID c) (cl_user c) (cl_channelID c) (cl_voiceChID c) (cl_roleName c)
    (cl_tokenHash c) (cl_remoteAddr c) (cl_connectedAt c) (cl_msgCount c) (cl_msgsReceived
    c) (cl_msgsSent c) (cl_msgsDropped c) (cl_invalidCount c) x (cl_sendClosed c) (cl_send
    c) (cl_wire c).
Definition cl_set_sendClosed (x : bool) (c : Client) : Client :=
  mkClient (cl_userID c) (cl_user c) (cl_channelID c) (cl_voiceChID c) (cl_roleName c)
    (cl_tokenHash c) (cl_remoteAddr c) (cl_connectedAt c) (cl_msgCount c) (cl_msgsReceived
    c) (cl_msgsSent c) (cl_msgsDropped c) (cl_invalidCount c) (cl_lastActivity c) x
    (cl_send c) (cl_wire c).
Definition cl_set_send (x : chan) (c : Client) : Client :=
  mkClient (cl_userID c) (cl_user c) (cl_channelID c) (cl_voiceChID c) (cl_roleName c)
    (cl_tokenHash c) (cl_remoteAddr c) (cl_connectedAt c) (cl_msgCount c) (cl_msgsReceived
    c) (cl_msgsSent c) (cl_msgsDropped c) (cl_invalidCount c) (cl_lastActivity c)
    (cl_sendClosed c) x (cl_wire c).
Definition cl_set_wire (x : list string) (c : Client) : Client :=
  mkClient (cl_userID c) (cl_user c) (cl_channelID c) (cl_voiceChID c) (cl_roleName c)
    (cl_tokenHash c) (cl_remoteAddr c) (cl_connectedAt c) (cl_msgCount c) (cl_msgsReceived
    c) (cl_msgsSent c) (cl_msgsDropped c) (cl_invalidCount c) (cl_lastActivity c)
    (cl_sendClosed c) (cl_send c) x.

(** [channelID] 0 addresses every client. *)
Record broadcastMsg := mkBroadcast { bm_channelID : Z; bm_msg : string }.

(** The cached server name and message of the day. *)
Record Settings := mkSettings { set_name : string; set_motd : string; set_lastUpdate : Z }.

(** The process: the database with the clock, the rate limiter, the store of
    connections, the fields of the [Hub], the pending background retries of
    [leaveVoiceChannelWithRetry] (user and attempt), the participant removals
    requested from LiveKit (channel and user), the outcomes of socket writes,
    and whether a goroutine panicked. [w_livekit] is the URL of the configured
    client, [w_lkProcess] whether a managed process is running. *)
Record World := mkWorld {
  w_sys : Sys;
  w_limiter : Limiter.RateLimiter;
  w_conns : gmap Z Client;
  w_next : Z;
  w_clients : gmap Z Z;
  w_broadcast : list broadcastMsg;
  w_seq : Z;
  w_replayBuf : Ring.EventRingBuffer;
  w_settings : Settings;
  w_livekit : option string;
  w_lkProcess : option bool;
  w_retries : list (Z * Z);
  w_removals : list (Z * Z);
  w_wire_faults : list bool;
  w_panic : bool }.

Definition w_set_sys (x : Sys) (w : World) : World :=
  mkWorld x (w_limiter w) (w_conns w) (w_next w) (w_clients w) (w_broadcast w) (w_seq w)
    (w_replayBuf w) (w_settings w) (w_livekit w) (w_lkProcess w) (w_retries w) (w_removals
    w) (w_wire_faults w) (w_panic w).
Definition w_set_limiter (x : Limiter.RateLimiter) (w : World) : World :=
  mkWorld (w_sys w) x (w_conns w) (w_next w) (w_clients w) (w_broadcast w) (w_seq w) (w_replayBuf
    w) (w_settings w) (w_livekit w) (w_lkProcess w) (w_retries w) (w_removals w)
    (w_wire_faults w) (w_panic w).
Definition w_set_conns (x : gmap Z Client) (w : World) : World :=
  mkWorld (w_sys w) (w_limiter w) x (w_next w) (w_clients w) (w_broadcast w) (w_seq w)
    (w_replayBuf w) (w_settings w) (w_livekit w) (w_lkProcess w) (w_retries w) (w_removals
    w) (w_wire_faults w) (w_panic w).
Definition w_set_next (x : Z) (w : World) : World :=
  mkWorld (w_sys w) (w_limiter w) (w_conns w) x (w_clients w) (w_broadcast w) (w_seq w)
    (w_replayBuf w) (w_settings w) (w_livekit w) (w_lkProcess w) (w_retries w) (w_removals
    w) (w_wire_faults w) (w_panic w).
Definition w_set_clients (x : gmap Z Z) (w : World) : World :=
  mkWorld (w_sys w) (w_limiter w) (w_conns w) (w_next w) x (w_broadcast w) (w_seq w) (w_replayBuf
    w) (w_settings w) (w_livekit w) (w_lkProcess w) (w_retries w) (w_removals w)
    (w_wire_faults w) (w_panic w).
Definition w_set_broadcast (x : list broadcastMsg) (w : World) : World :=
  mkWorld (w_sys w) (w_limiter w) (w_conns w) (w_next w) (w_clients w) x (w_seq w) (w_replayBuf w)
    (w_settings w) (w_livekit w) (w_lkProcess w) (w_retries w) (w_removals w)
    (w_wire_faults w) (w_panic w).
Definition w_set_seq (x : Z) (w : World) : World :=
  mkWorld (w_sys w) (w_limiter w) (w_conns w) (w_next w) (w_clients w) (w_broadcast w) x
    (w_replayBuf w) (w_settings w) (w_livekit w) (w_lkProcess w) (w_retries w) (w_removals
    w) (w_wire_faults w) (w_panic w).
Definition w_set_replayBuf (x : Ring.EventRingBuffer) (w : World) : World :=
  mkWorld (w_sys w) (w_limiter w) (w_conns w) (w_next w) (w_clients w) (w_broadcast w) (w_seq w) x
    (w_settings w) (w_livekit w) (w_lkProcess w) (w_retries w) (w_removals w)
    (w_wire_faults w) (w_panic w).
Definition w_set_settings (x : Settings) (w : World) : World :=
  mkWorld (w_sys w) (w_limiter w) (w_conns w) (w_next w) (w_clients w) (w_broadcast w) (w_seq w)
    (w_replayBuf w) x (w_livekit w) (w_lkProcess w) (w_retries w) (w_removals w)
    (w_wire_faults w) (w_panic w).
Definition w_set_livekit (x : option string) (w : World) : World :=
  mkWorld (w_sys w) (w_limiter w) (w_conns w) (w_next w) (w_clients w) (w_broadcast w) (w_seq w)
    (w_replayBuf w) (w_settings w) x (w_lkProcess w) (w_retries w) (w_removals w)
    (w_wire_faults w) (w_panic w).
Definition w_set_lkProcess (x : option bool) (w : World) : World :=
  mkWorld (w_sys w) (w_limiter w) (w_conns w) (w_next w) (w_clients w) (w_broadcast w) (w_seq w)
    (w_replayBuf w) (w_settings w) (w_livekit w) x (w_retries w) (w_removals w)
    (w_wire_faults w) (w_panic w).
Definition w_set_retries (x : list (Z * Z)) (w : World) : World :=
  mkWorld (w_sys w) (w_limiter w) (w_conns w) (w_next w) (w_clients w) (w_broadcast w) (w_seq w)
    (w_replayBuf w) (w_settings w) (w_livekit w) (w_lkProcess w) x (w_removals w)
    (w_wire_faults w) (w_panic w).
Definition w_set_removals (x : list (Z * Z)) (w : World) : World :=
  mkWorld (w_sys w) (w_limiter w) (w_conns w) (w_next w) (w_clients w) (w_broadcast w) (w_seq w)
    (w_replayBuf w) (w_settings w) (w_livekit w) (w_lkProcess w) (w_retries w) x
    (w_wire_faults w) (w_panic w).
Definition w_set_wire_faults (x : list bool) (w : World) : World :=
  mkWorld (w_sys w) (w_limiter w) (w_conns w) (w_next w) (w_clients w) (w_broadcast w) (w_seq w)
    (w_replayBuf w) (w_settings w) (w_livekit w) (w_lkProcess w) (w_retries w) (w_removals
    w) x (w_panic w).
Definition w_set_panic (x : bool) (w : World) : World :=
  mkWorld (w_sys w) (w_limiter w) (w_conns w) (w_next w) (w_clients w) (w_broadcast w) (w_seq w)
    (w_replayBuf w) (w_settings w) (w_livekit w) (w_lkProcess w) (w_retries w) (w_removals
    w) (w_wire_faults w) x.

(** ** Effects *)

Definition M := ST World.

(** Runs a database or clock operation. *)
Definition sys {A} (m : ST Sys A) : M A :=
  fun w => ((m (w_sys w)).1, w_set_sys (m (w_sys w)).2 w).

(** A step on the whole state. *)
Definition step {A} (f : World -> A * World) : M A := f.

Definition now : M Z := sys read_clock.

Definition go_panic : M unit := modify (w_set_panic true).

Definition zeroClient : Client :=
  mkClient 0 None 0 0 "" "" "" 0 0 0 0 0 0 0 false (mkChan [] false) [].

(** Dereferencing and updating through a pointer. *)
Definition conn_of (w : World) (p : Z) : Client := default zeroClient (w_conns w !! p).
Definition conn (p : Z) : M Client := gets (fun w => conn_of w p).
Definition upd (p : Z) (f : Client -> Client) : M unit :=
  modify (fun w => w_set_conns (alter f p (w_conns w)) w).

Definition unless (b : bool) (m : M unit) : M unit := if b then mret tt else m.
Definition when (b : bool) (m : M unit) : M unit := if b then m else mret tt.

(** The limiter's [Allow]. *)
Definition allow (key : string) (limit window : Z) : M bool :=
  tLock ← now; t ← now;
  step (fun w =>
    let r := Limiter.Allow (w_limiter w) key limit window tLock t in
    (r.1, w_set_limiter r.2 w)).

(** A write to the socket may fail. *)
Definition conn_write (p : Z) (frame : string) : M bool :=
  fun w =>
    match w_wire_faults w with
    | true :: fs => (false, w_set_wire_faults fs w)
    | fs => (true, w_set_wire_faults (tail fs)
              (w_set_conns (alter (fun c => cl_set_wire (cl_wire c ++ [frame])%list c) p (w_conns w)) w))
    end.

(** ** client.go *)

(** The connection of a user who has just authenticated; its pointer is fresh. *)
Definition fresh_client (user : User) (tokenHash : string) (t : Z) : Client :=
  mkClient (u_id user) (Some user) 0 0 "" tokenHash "" t 0 0 0 0 0 t false (mkChan [] false) [].

Definition newClient (user : User) (tokenHash : string) : M Z :=
  t ← now;
  step (fun w => (w_next w, w_set_next (w_next w + 1)
    (w_set_conns (<[w_next w := fresh_client user tokenHash t]> (w_conns w)) w))).

Definition touch (p : Z) : M unit :=
  t ← now;
  upd p (fun c => cl_set_msgsReceived (wrap_int64 (cl_msgsReceived c + 1)) (cl_set_lastActivity t c)).

Definition getChannelID (p : Z) : M Z := c ← conn p; mret (cl_channelID c).
Definition getVoiceChID (p : Z) : M Z := c ← conn p; mret (cl_voiceChID c).
Definition setVoiceChID (p chID : Z) : M unit := upd p (cl_set_voiceChID chID).
Definition clearVoiceChID (p : Z) : M Z :=
  old ← getVoiceChID p; _ ← setVoiceChID p 0; mret old.

(** The send on the channel: accepted, or refused because the buffer is full. *)
Definition chan_send (msg : string) (c : Client) : bool * Client :=
  if (length (ch_buf (cl_send c)) <? sendBufSize)%nat
  then (true, cl_set_msgsSent (wrap_int64 (cl_msgsSent c + 1))
          (cl_set_send (mkChan (ch_buf (cl_send c) ++ [msg])%list false) c))
  else (false, cl_set_msgsDropped (wrap_int64 (cl_msgsDropped c + 1)) c).

Definition trySendMsg (p : Z) (msg : string) : M bool :=
  c ← conn p;
  if cl_sendClosed c then mret false
  else if ch_closed (cl_send c) then _ ← go_panic; mret false
  else _ ← upd p (fun c => (chan_send msg c).2); mret (chan_send msg c).1.

Definition sendMsg (p : Z) (msg : string) : M unit := _ ← trySendMsg p msg; mret tt.

Definition closeSend (p : Z) : M unit :=
  c ← conn p;
  if cl_sendClosed c then mret tt
  else if ch_closed (cl_send c) then go_panic
  else upd p (fun c => cl_set_send (mkChan (ch_buf (cl_send c)) true) (cl_set_sendClosed true c)).

(** One turn of [writePump]: the next frame goes to the socket. *)
Definition pump (p : Z) : M unit :=
  c ← conn p;
  match ch_buf (cl_send c) with
  | [] => mret tt
  | frame :: rest =>
      _ ← upd p (fun c => cl_set_send (mkChan rest (ch_closed (cl_send c))) c);
      _ ← conn_write p frame; mret tt
  end.

(** ** hub.go: the client map *)

Definition lookup_client (uid : Z) : M (option Z) := gets (fun w => w_clients w !! uid).
Definition set_client (uid p : Z) : M unit :=
  modify (fun w => w_set_clients (<[uid := p]> (w_clients w)) w).

(** Removes the entry of a client if it is still this connection's. *)
Definition drop_client (p : Z) : M unit :=
  c ← conn p;
  cur ← lookup_client (cl_userID c);
  when (bool_decide (cur = Some p))
    (modify (fun w => w_set_clients (delete (cl_userID c) (w_clients w)) w)).

Definition IsUserConnected (uid : Z) : M bool :=
  cur ← lookup_client uid; mret (match cur with Some _ => true | None => false end).

Definition GetClient (uid : Z) : M (option Z) := lookup_client uid.
Definition ClientCount : M nat := gets (fun w => size (w_clients w)).

Definition client_list (w : World) : list (Z * Z) := map_to_list (w_clients w).

Definition VoiceSessionCount : M nat :=
  gets (fun w => countb (fun x => negb (cl_voiceChID (conn_of w x.2) =? 0)) (client_list w)).

(** The user's previous connection hands over its voice channel and is closed. *)
Definition take_over (p o : Z) : M unit :=
  oldVoiceChID ← clearVoiceChID o;
  v ← getVoiceChID p;
  _ ← when (v =? 0) (setVoiceChID p oldVoiceChID);
  closeSend o.

Definition registerNow (p : Z) : M unit :=
  c ← conn p;
  old ← lookup_client (cl_userID c);
  _ ← match old with Some o => take_over p o | None => mret tt end;
  set_client (cl_userID c) p.

Definition unregisterNow (p : Z) : M unit := drop_client p.

Definition kickClient (p : Z) : M unit := _ ← drop_client p; closeSend p.

Definition sweepStaleClients : M unit :=
  t ← now;
  stale ← gets (fun w => List.filter (fun p => staleClientTimeout <? t - cl_lastActivity (conn_of w p))
                           (snd <$> client_list w));
  forM_ stale kickClient.

(** ** hub.go: broadcasts *)

Definition BroadcastToChannel (channelID : Z) (msg : string) : M unit :=
  q ← gets w_broadcast;
  when (length q <? broadcastBufSize)%nat
    (modify (w_set_broadcast (q ++ [mkBroadcast channelID msg])%list)).

Definition BroadcastToAll (msg : string) : M unit := BroadcastToChannel 0 msg.

Definition BroadcastServerRestart (reason : string) (delaySeconds : Z) : M unit :=
  BroadcastToAll (buildServerRestartMsg reason delaySeconds).
Definition BroadcastChannelCreate (c : Channel) : M unit :=
  BroadcastToAll (buildChannelCreate (c_id c) (c_name c) (c_type c) (c_category c) (c_topic c) (c_position c)).
Definition BroadcastChannelUpdate (c : Channel) : M unit :=
  BroadcastToAll (buildChannelUpdate (c_id c) (c_name c) (c_type c) (c_category c) (c_topic c) (c_position c)).
Definition BroadcastChannelDelete (channelID : Z) : M unit := BroadcastToAll (buildChannelDelete channelID).
Definition BroadcastMemberBan (userID : Z) : M unit := BroadcastToAll (buildMemberBan userID).
Definition BroadcastMemberUpdate (userID : Z) (roleName : string) : M unit :=
  BroadcastToAll (buildMemberUpdate userID roleName).

Definition SendToUser (uid : Z) (msg : string) : M bool :=
  cur ← lookup_client uid;
  match cur with None => mret false | Some p => trySendMsg p msg end.

Definition nextSeq : M Z :=
  fun w => let s := wrap_uint64 (w_seq w + 1) in (s, w_set_seq s w).

(** [h.replayBuf.Push]; an index out of range would panic. *)
Definition push_replay (sq : Z) (msg : string) : M unit :=
  rb ← gets w_replayBuf;
  match Ring.Push rb sq msg with
  | Some rb => modify (w_set_replayBuf rb)
  | None => go_panic
  end.

(** The broadcast concerns the client. *)
Definition addressed (channelID : Z) (c : Client) : bool :=
  (channelID =? 0) || (cl_channelID c =? channelID) || (cl_voiceChID c =? channelID).

Definition deliverBroadcast (bm : broadcastMsg) : M unit :=
  sq ← nextSeq;
  let msg := wrapWithSeq (bm_msg bm) sq in
  _ ← push_replay sq msg;
  cs ← gets client_list;
  forM_ cs (fun '(_, p) =>
    c ← conn p; when (addressed (bm_channelID bm) c) (sendMsg p msg)).

(** The hub's loop takes the next broadcast. *)
Definition dispatch_broadcast : M unit :=
  q ← gets w_broadcast;
  match q with
  | [] => mret tt
  | bm :: q => _ ← modify (w_set_broadcast q); deliverBroadcast bm
  end.

(** handlers.go: ephemeral messages, neither queued nor replayed. *)
Definition broadcastExclude (channelID excludeUserID : Z) (msg : string) : M unit :=
  cs ← gets client_list;
  forM_ cs (fun '(uid, p) =>
    c ← conn p;
    unless ((uid =? excludeUserID) || (negb (channelID =? 0) && negb (cl_channelID c =? channelID)))
      (sendMsg p msg)).

Definition send_each (uids : list Z) (msg : string) : M unit :=
  forM_ uids (fun u => _ ← SendToUser u msg; mret tt).

Definition broadcastToDMParticipants (channelID : Z) (msg : string) : M unit :=
  ids ← sys (GetDMParticipantIDs channelID);
  match ids with
  | inl _ => mret tt
  | inr ids => send_each ids msg
  end.

Definition broadcastToDMParticipantsExclude (channelID excludeUserID : Z) (msg : string) : M unit :=
  ids ← sys (GetDMParticipantIDs channelID);
  match ids with
  | inl _ => mret tt
  | inr ids => send_each (List.filter (fun u => negb (u =? excludeUserID)) ids) msg
  end.

(** ** Settings, shutdown, channel removal *)

Definition refreshSettingsLocked : M unit :=
  name ← sys (GetSetting "server_name");
  _ ← match name with
      | inr v => modify (fun w => w_set_settings
                   (mkSettings v (set_motd (w_settings w)) (set_lastUpdate (w_settings w))) w)
      | inl _ => mret tt
      end;
  motd ← sys (GetSetting "motd");
  _ ← match motd with
      | inr v => modify (fun w => w_set_settings
                   (mkSettings (set_name (w_settings w)) v (set_lastUpdate (w_settings w))) w)
      | inl _ => mret tt
      end;
  t ← now;
  modify (fun w => w_set_settings (mkSettings (set_name (w_settings w)) (set_motd (w_settings w)) t) w).

(** The second reading of the clock is under the write lock. *)
Definition getCachedSettings : M (string * string) :=
  t ← now;
  s ← gets w_settings;
  if t - set_lastUpdate s <? settingsCacheTTL then mret (set_name s, set_motd s)
  else
    t2 ← now;
    _ ← when (settingsCacheTTL <=? t2 - set_lastUpdate s) refreshSettingsLocked;
    s ← gets w_settings;
    mret (set_name s, set_motd s).

Definition RemoveParticipant (channelID userID : Z) : M unit :=
  modify (fun w => w_set_removals (w_removals w ++ [(channelID, userID)])%list w).

Definition livekit_remove (channelID userID : Z) : M unit :=
  lk ← gets w_livekit;
  match lk with Some _ => RemoveParticipant channelID userID | None => mret tt end.

Definition CleanupVoiceForChannel (channelID : Z) : M unit :=
  states ← sys (GetChannelVoiceStates channelID);
  match states with
  | inl _ => mret tt
  | inr states =>
      _ ← forM_ states (fun vs =>
        _ ← sys (LeaveVoiceChannel (vs_UserID vs));
        cur ← lookup_client (vs_UserID vs);
        _ ← match cur with Some p => _ ← clearVoiceChID p; mret tt | None => mret tt end;
        livekit_remove channelID (vs_UserID vs));
      forM_ states (fun vs => BroadcastToAll (buildVoiceLeave channelID (vs_UserID vs)))
  end.

(** Without the five seconds of sleep. *)
Definition GracefulStop : M unit :=
  _ ← BroadcastServerRestart "shutdown" 5;
  _ ← modify (fun w => w_set_lkProcess ((fun _ => false) <$> w_lkProcess w) w);
  cs ← gets client_list;
  forM_ cs (fun '(_, p) => closeSend p).

(** A hub as [NewHub] leaves it, before the settings are first read. *)
Definition NewHub (s : Sys) (livekit : option string) (lkProcess : option bool)
    (wire_faults : list bool) : World :=
  (refreshSettingsLocked (mkWorld s Limiter.NewRateLimiter ∅ 1 ∅ [] 0 (Ring.NewEventRingBuffer replayBufSize)
     (mkSettings "OwnCord Server" "Welcome!" 0) livekit lkProcess [] [] wire_faults false)).2.

End Hub.
Export Hub.
