(* ===== verification/Chat.v ===== *)
(** * Chat, reactions and presence

    Model of the message handlers of Server/ws/handlers_chat.go,
    handlers_reaction.go and handlers_presence.go, with the permission helpers
    of handlers.go. A handler receives the connection it runs for and the
    payload of the envelope; [None] is an absent payload. The HTML sanitizer
    (bluemonday's strict policy) is a parameter. *)

From S2P Require Import Prelude Permissions GoText Wire GoTime Rows Store Hub.
#[local] Open Scope string_scope.
#[local] Open Scope Z_scope.

Module Chat.

Definition chatRateLimit : Z := 10.
Definition chatWindow : Z := Second.
Definition typingRateLimit : Z := 1.
Definition typingWindow : Z := 3 * Second.
Definition presenceRateLimit : Z := 1.
Definition presenceWindow : Z := 10 * Second.
Definition reactionRateLimit : Z := 5.
Definition reactionWindow : Z := Second.
Definition maxMessageLen : Z := 4000.

(** ** Helpers of handlers.go *)

Definition fail (p : Z) (code message : string) : M unit := sendMsg p (buildErrorMsg code message).

(** The rate-limit keys: a name and the ids it is scoped to. *)
Definition key1 (name : string) (a : Z) : string := name +:+ ":" +:+ itoa a.
Definition key2 (name : string) (a b : Z) : string := name +:+ ":" +:+ itoa a +:+ ":" +:+ itoa b.

Definition hasChannelPerm (p channelID perm : Z) : M bool :=
  c ← conn p;
  match cl_user c with
  | None => mret false
  | Some u =>
      role ← sys (GetRoleByID (u_role u));
      match role with
      | inr (Some r) => sys (HasChannelPerm (r_permissions r) (r_id r) channelID perm)
      | _ => mret false
      end
  end.

Definition requireChannelPerm (p channelID perm : Z) (permLabel : string) : M bool :=
  ok ← hasChannelPerm p channelID perm;
  if ok : bool then mret true
  else _ ← fail p ErrCodeForbidden ("missing " +:+ permLabel +:+ " permission"); mret false.

(** [p.X.Int64()] followed by the test [err != nil || id <= 0]. *)
Definition positive_id (lit : string) : option Z :=
  id ← ParseInt64 lit; if id <=? 0 then None else Some id.

(** [chErr == nil && ch != nil && ch.Type == "dm"] *)
Definition is_dm_result (r : result db_error (option Channel)) : bool :=
  match r with inr (Some ch) => String.eqb (c_type ch) "dm" | _ => false end.

(** The access check of edit, delete and reactions on a message's channel: the
    DM branch asks for participation, the other for a permission. *)
Definition channel_access (p : Z) (isDM : bool) (channelID : Z) (role_check : M bool) : M bool :=
  if isDM then
    c ← conn p;
    ok ← sys (IsDMParticipant (cl_userID c) channelID);
    mret (match ok with inr b => b | inl _ => false end)
  else role_check.

Section handlers.
Context (sanitize : string -> string).

(** ** chat_send *)

(** Access to the target channel, with the replies of the refusals. *)
Definition chat_send_access (p : Z) (isDM : bool) (channelID : Z) : M bool :=
  c ← conn p;
  if isDM then
    ok ← sys (IsDMParticipant (cl_userID c) channelID);
    match ok with
    | inl _ => _ ← fail p ErrCodeInternal "failed to check DM participation"; mret false
    | inr false => _ ← fail p ErrCodeForbidden "you are not a participant in this DM"; mret false
    | inr true => mret true
    end
  else requireChannelPerm p channelID (go_or ReadMessages SendMessages) "SEND_MESSAGES".

(** Slow mode: moderators bypass it, DM channels have none. *)
Definition slow_mode_ok (p channelID : Z) (isDM : bool) (ch : Channel) : M bool :=
  c ← conn p;
  if negb isDM && (0 <? c_slow_mode ch) then
    isMod ← hasChannelPerm p channelID ManageMessages;
    if isMod : bool then mret true
    else
      ok ← allow (key2 "slow" (cl_userID c) channelID) 1 (wrap_int64 (c_slow_mode ch * Second));
      if ok : bool then mret true
      else _ ← fail p ErrCodeSlowMode ("channel has " +:+ itoa (c_slow_mode ch) +:+ "s slow mode"); mret false
  else mret true.

(** The attachment objects are built from maps, whose keys are sorted. *)
Definition attachment_json (a : AttachmentInfo) : json :=
  JObj [("filename", JStr (ai_Filename a)); ("id", JStr (ai_ID a)); ("mime", JStr (ai_Mime a));
    ("size", JInt (ai_Size a)); ("url", JStr (ai_URL a))].

(** Linking the attachments: [None] when the message had to be withdrawn. *)
Definition link_attachments (p msgID : Z) (ids : list string) : M (option (list json)) :=
  match ids with
  | [] => mret (Some [])
  | _ =>
      linked ← sys (LinkAttachmentsToMessage msgID ids);
      match linked with
      | inl _ =>
          c ← conn p;
          _ ← sys (DeleteMessage msgID (cl_userID c) true);
          _ ← fail p ErrCodeInternal "failed to send message with attachments";
          mret None
      | inr n =>
          if 0 <? n then
            atts ← sys (GetAttachmentsByMessageIDs [msgID]);
            match atts with
            | inl _ => mret (Some [])
            | inr m => mret (Some (attachment_json <$> default [] (m !! msgID)))
            end
          else mret (Some [])
      end
  end.

(** Delivery to the two participants of a DM; the other's list is reopened. *)
Definition deliver_dm (p channelID : Z) (frame : string) : M unit :=
  c ← conn p;
  ids ← sys (GetDMParticipantIDs channelID);
  match ids with
  | inl _ => fail p ErrCodeInternal "message saved but delivery failed — please retry"
  | inr ids =>
      _ ← send_each ids frame;
      forM_ ids (fun pid =>
        if pid =? cl_userID c then mret tt
        else
          opened ← sys (OpenDM pid channelID);
          match opened with
          | inl _ => mret tt
          | inr _ =>
              match cl_user c with
              | None => mret tt
              | Some u =>
                  _ ← SendToUser pid (buildDMChannelOpen channelID (u_id u) (u_username u)
                        (u_avatar u) (u_status u));
                  mret tt
              end
          end)
  end.

(** The message is saved: acknowledge it and deliver it. *)
Definition chat_send_deliver (p : Z) (reqID : string) (isDM : bool) (channelID msgID : Z)
    (content : string) (replyTo : option Z) (atts : list json) : M unit :=
  saved ← sys (GetMessage msgID);
  match saved with
  | inr (Some m) =>
      c ← conn p;
      let username := match cl_user c with Some u => u_username u | None => "" end in
      let avatar := match cl_user c with Some u => u_avatar u | None => None end in
      _ ← sendMsg p (buildChatSendOK reqID msgID (m_timestamp m));
      let frame := buildChatMessage msgID channelID (cl_userID c) username avatar (cl_roleName c)
        content (m_timestamp m) replyTo atts in
      if isDM : bool then deliver_dm p channelID frame else BroadcastToChannel channelID frame
  | _ => fail p ErrCodeInternal "failed to retrieve message"
  end.

(** From the slow-mode test on, for an existing channel the user may write to. *)
Definition chat_send_commit (p : Z) (reqID : string) (pl : chatSendPayload) (channelID : Z) (ch : Channel)
    (isDM : bool) : M unit :=
  slow ← slow_mode_ok p channelID isDM ch;
  if negb slow then mret tt else
  let content := sanitize (cs_Content pl) in
  let has_atts := match cs_Attachments pl with [] => false | _ => true end in
  if String.eqb content "" && negb has_atts then
    fail p ErrCodeBadRequest "message content cannot be empty"
  else if maxMessageLen <? rune_count content then
    fail p ErrCodeBadRequest "message content exceeds maximum length of 4000 characters"
  else
    allowed ← (if negb isDM && has_atts
               then requireChannelPerm p channelID AttachFiles "ATTACH_FILES" else mret true);
    if negb allowed then mret tt else
    c ← conn p;
    created ← sys (CreateMessage channelID (cl_userID c) content (cs_ReplyTo pl));
    match created with
    | inl _ => fail p ErrCodeInternal "failed to save message"
    | inr msgID =>
        atts ← link_attachments p msgID (cs_Attachments pl);
        match atts with
        | None => mret tt
        | Some atts => chat_send_deliver p reqID isDM channelID msgID content (cs_ReplyTo pl) atts
        end
    end.

Definition handleChatSend (p : Z) (reqID : string) (payload : option json) : M unit :=
  c ← conn p;
  ok ← allow (key1 "chat" (cl_userID c)) chatRateLimit chatWindow;
  if negb ok then sendMsg p (buildRateLimitError "too many messages" 1) else
  match unmarshal_chat_send payload with
  | None => fail p ErrCodeBadRequest "invalid chat_send payload"
  | Some pl =>
      match positive_id (cs_ChannelID pl) with
      | None => fail p ErrCodeBadRequest "channel_id must be a positive integer"
      | Some channelID =>
          r ← sys (GetChannel channelID);
          match r with
          | inr (Some ch) =>
              let isDM := String.eqb (c_type ch) "dm" in
              access ← chat_send_access p isDM channelID;
              if negb access then mret tt else chat_send_commit p reqID pl channelID ch isDM
          | _ => fail p ErrCodeNotFound "channel not found"
          end
      end
  end.

(** ** chat_edit *)

(** The edit was saved: tell the channel. *)
Definition chat_edit_broadcast (p : Z) (isDM : bool) (msgID : Z) (content : string) : M unit :=
  saved ← sys (GetMessage msgID);
  match saved with
  | inr (Some m) =>
      let frame := buildChatEdited msgID (m_channel m) content (default "" (m_edited_at m)) in
      if isDM : bool then broadcastToDMParticipants (m_channel m) frame
      else BroadcastToChannel (m_channel m) frame
  | _ => fail p ErrCodeInternal "edit saved but broadcast failed"
  end.

Definition handleChatEdit (p : Z) (payload : option json) : M unit :=
  c ← conn p;
  ok ← allow (key1 "chat_edit" (cl_userID c)) chatRateLimit chatWindow;
  if negb ok then sendMsg p (buildRateLimitError "too many edits" 1) else
  match unmarshal_chat_edit payload with
  | None => fail p ErrCodeBadRequest "invalid chat_edit payload"
  | Some (lit, raw) =>
      match positive_id lit with
      | None => fail p ErrCodeBadRequest "message_id must be positive integer"
      | Some msgID =>
          let content := sanitize raw in
          if String.eqb content "" then fail p ErrCodeBadRequest "content cannot be empty"
          else if maxMessageLen <? rune_count content then fail p ErrCodeBadRequest "message too long"
          else
            found ← sys (GetMessage msgID);
            match found with
            | inr (Some m) =>
                ch ← sys (GetChannel (m_channel m));
                let isDM := is_dm_result ch in
                access ← channel_access p isDM (m_channel m) (hasChannelPerm p (m_channel m) SendMessages);
                if negb access then fail p ErrCodeForbidden "cannot edit this message" else
                edited ← sys (EditMessage msgID (cl_userID c) content);
                match edited with
                | inl _ => fail p ErrCodeForbidden "cannot edit this message"
                | inr _ => chat_edit_broadcast p isDM msgID content
                end
            | _ => fail p ErrCodeForbidden "cannot edit this message"
            end
      end
  end.

(** ** chat_delete *)

Definition bool_text (b : bool) : string := if b then "true" else "false".

Definition handleChatDelete (p : Z) (payload : option json) : M unit :=
  c ← conn p;
  ok ← allow (key1 "chat_delete" (cl_userID c)) chatRateLimit chatWindow;
  if negb ok then sendMsg p (buildRateLimitError "too many deletes" 1) else
  match unmarshal_chat_delete payload with
  | None => fail p ErrCodeBadRequest "invalid chat_delete payload"
  | Some lit =>
      match positive_id lit with
      | None => fail p ErrCodeBadRequest "message_id must be positive integer"
      | Some msgID =>
          found ← sys (GetMessage msgID);
          match found with
          | inr (Some m) =>
              ch ← sys (GetChannel (m_channel m));
              let isDM := is_dm_result ch in
              access ← channel_access p isDM (m_channel m) (hasChannelPerm p (m_channel m) ReadMessages);
              if negb access then fail p ErrCodeForbidden "cannot delete this message" else
              isMod ← (if isDM then mret false else hasChannelPerm p (m_channel m) ManageMessages);
              deleted ← sys (DeleteMessage msgID (cl_userID c) isMod);
              match deleted with
              | inl _ => fail p ErrCodeForbidden "cannot delete this message"
              | inr _ =>
                  _ ← sys (LogAudit (cl_userID c) "message_delete" "message" msgID
                        ("channel " +:+ itoa (m_channel m) +:+ ", mod_action=" +:+ bool_text isMod));
                  let frame := buildChatDeleted msgID (m_channel m) in
                  if isDM : bool then broadcastToDMParticipants (m_channel m) frame
                  else BroadcastToChannel (m_channel m) frame
              end
          | _ => fail p ErrCodeForbidden "cannot delete this message"
          end
      end
  end.
End handlers.

(** ** Reactions *)

Definition emoji_ok (emoji : string) : bool :=
  forallb (fun r => negb ((r <? 0x20) || (r =? 0x7F))) (runes emoji).

Definition handleReaction (p : Z) (add : bool) (payload : option json) : M unit :=
  c ← conn p;
  ok ← allow (key1 "reaction" (cl_userID c)) reactionRateLimit reactionWindow;
  if negb ok then sendMsg p (buildRateLimitError "too many reactions" 1) else
  match unmarshal_reaction payload with
  | None => fail p ErrCodeBadRequest "invalid reaction payload"
  | Some (lit, emoji) =>
      match positive_id lit with
      | None => fail p ErrCodeBadRequest "message_id must be positive integer"
      | Some msgID =>
          if String.eqb emoji "" then fail p ErrCodeBadRequest "emoji cannot be empty"
          else if 32 <? Z.of_nat (String.length emoji) then fail p ErrCodeBadRequest "emoji too long"
          else if negb (emoji_ok emoji) then fail p ErrCodeBadRequest "emoji contains invalid characters"
          else
            found ← sys (GetMessage msgID);
            match found with
            | inr (Some m) =>
                ch ← sys (GetChannel (m_channel m));
                let isDM := is_dm_result ch in
                access ← (if isDM then
                    ok ← channel_access p true (m_channel m) (mret false);
                    _ ← unless ok (fail p ErrCodeBadRequest "reaction failed"); mret ok
                  else requireChannelPerm p (m_channel m) AddReactions "ADD_REACTIONS");
                if negb access then mret tt else
                done ← sys (if add then AddReaction msgID (cl_userID c) emoji
                            else RemoveReaction msgID (cl_userID c) emoji);
                match done with
                | inl _ => fail p ErrCodeConflict "reaction failed"
                | inr _ =>
                    let frame := buildReactionUpdate msgID (m_channel m) (cl_userID c) emoji
                      (if add then "add" else "remove") in
                    if isDM : bool then broadcastToDMParticipants (m_channel m) frame
                    else BroadcastToChannel (m_channel m) frame
                end
            | _ => fail p ErrCodeBadRequest "reaction failed"
            end
      end
  end.

(** ** Typing, presence and focus *)

Definition positive_channel (payload : option json) : option Z :=
  id ← parseChannelID payload; if id <=? 0 then None else Some id.

Definition handleTyping (p : Z) (payload : option json) : M unit :=
  match positive_channel payload with
  | None => fail p ErrCodeBadRequest "channel_id must be positive integer"
  | Some channelID =>
      c ← conn p;
      ok ← allow (key2 "typing" (cl_userID c) channelID) typingRateLimit typingWindow;
      if negb ok then mret tt else
      r ← sys (GetChannel channelID);
      match r with
      | inr (Some ch) =>
          let isDM := String.eqb (c_type ch) "dm" in
          access ← channel_access p isDM channelID (hasChannelPerm p channelID ReadMessages);
          if negb access then mret tt else
          let username := match cl_user c with Some u => u_username u | None => "" end in
          let frame := buildTypingMsg channelID (cl_userID c) username in
          if isDM : bool then broadcastToDMParticipantsExclude channelID (cl_userID c) frame
          else broadcastExclude channelID (cl_userID c) frame
      | _ => mret tt
      end
  end.

Definition valid_status (s : string) : bool :=
  existsb (String.eqb s) ["online"; "idle"; "dnd"; "offline"].

Definition handlePresence (p : Z) (payload : option json) : M unit :=
  c ← conn p;
  ok ← allow (key1 "presence" (cl_userID c)) presenceRateLimit presenceWindow;
  if negb ok then sendMsg p (buildRateLimitError "too many presence updates" 10) else
  match unmarshal_status payload with
  | None => fail p ErrCodeBadRequest "invalid presence_update payload"
  | Some status =>
      if negb (valid_status status) then
        fail p ErrCodeBadRequest "status must be online|idle|dnd|offline"
      else
        r ← sys (UpdateUserStatus (cl_userID c) status);
        match r with
        | inl _ => fail p ErrCodeInternal "failed to update status"
        | inr _ => BroadcastToAll (buildPresenceMsg (cl_userID c) status)
        end
  end.

Definition handleChannelFocus (p : Z) (payload : option json) : M unit :=
  match positive_channel payload with
  | None => mret tt
  | Some chID =>
      r ← sys (GetChannel chID);
      match r with
      | inr (Some ch) =>
          access ← (if String.eqb (c_type ch) "dm" then
              ok ← channel_access p true chID (mret false);
              _ ← unless ok (fail p ErrCodeForbidden "not a participant in this DM"); mret ok
            else requireChannelPerm p chID ReadMessages "READ_MESSAGES");
          if negb access then mret tt else
          _ ← upd p (cl_set_channelID chID);
          c ← conn p;
          latest ← sys (GetLatestMessageID chID);
          match latest with
          | inr id => when (0 <? id) (_ ← sys (UpdateReadState (cl_userID c) chID id); mret tt)
          | inl _ => mret tt
          end
      | _ => mret tt
      end
  end.

(** ** Ping *)

Definition handlePing (p : Z) : M unit := sendMsg p pongMsg.

End Chat.
Export Chat.
