(* ===== verification/Voice.v ===== *)
(** * Voice

    Model of Server/ws/voice_join.go, voice_leave.go, voice_controls.go,
    voice_broadcast.go, livekit.go and livekit_webhook.go: joining and leaving
    voice channels, the media controls, the tokens for the LiveKit media server
    and its webhooks. The LiveKit SDK is a parameter: signing a grant, and
    parsing and verifying the token and the event of a webhook request. *)

From S2P Require Import Prelude Permissions GoText Wire GoTime Rows Store Hub Chat.
#[local] Open Scope string_scope.
#[local] Open Scope Z_scope.

Module Voice.

(** ** voice_broadcast.go *)

Definition voiceMuteRateLimit : Z := 2.
Definition voiceMuteWindow : Z := Second.
Definition voiceDeafenRateLimit : Z := 2.
Definition voiceDeafenWindow : Z := Second.
Definition voiceCameraRateLimit : Z := 2.
Definition voiceCameraWindow : Z := Second.
Definition voiceScreenshareRateLimit : Z := 2.
Definition voiceScreenshareWindow : Z := Second.

Definition voiceQualities : gmap string Z :=
  <["low" := 32000]> (<["medium" := 64000]> (<["high" := 128000]> ∅)).

(** A missing key of a Go map reads as zero. *)
Definition qualityBitrate (quality : string) : Z :=
  match voiceQualities !! quality with
  | Some bitrate => bitrate
  | None => default 0 (voiceQualities !! "medium")
  end.

Definition validVoiceQuality (q : string) : bool :=
  match voiceQualities !! q with Some _ => true | None => false end.

Definition voice_state_frame (s : VoiceState) : string :=
  buildVoiceState (vs_ChannelID s) (vs_UserID s) (vs_Username s) (vs_Muted s) (vs_Deafened s)
    (vs_Speaking s) (vs_Camera s) (vs_Screenshare s).

Definition broadcastVoiceStateUpdate (p : Z) : M unit :=
  c ← conn p;
  state ← sys (GetVoiceState (cl_userID c));
  match state with
  | inl _ => fail p ErrCodeInternal "failed to broadcast voice state update"
  | inr None => mret tt
  | inr (Some s) => BroadcastToAll (voice_state_frame s)
  end.

(** ** livekit.go *)

Definition tokenTTL : Z := 24 * Hour.

Definition RoomName (channelID : Z) : string := "channel-" +:+ itoa channelID.
Definition Identity (userID : Z) : string := "user-" +:+ itoa userID.

(** The access token before it is signed. *)
Record Grant := mkGrant {
  g_identity : string; g_name : string; g_room : string; g_RoomJoin : bool;
  g_CanPublish : bool; g_CanSubscribe : bool; g_CanPublishData : bool; g_validFor : Z }.

Definition voice_grant (userID : Z) (username : string) (channelID : Z)
    (canPublish canSubscribe : bool) : Grant :=
  mkGrant (Identity userID) username (RoomName channelID) true canPublish canSubscribe canPublish tokenTTL.

Definition wsToHTTP (wsURL : string) : string :=
  if HasPrefix wsURL "wss://" then "https://" +:+ skip 6 wsURL
  else if HasPrefix wsURL "ws://" then "http://" +:+ skip 5 wsURL
  else wsURL.

(** ** voice_leave.go *)

(** The synchronous attempt; a background goroutine is left to do the second
    and third. *)
Definition leaveVoiceChannelWithRetry (userID : Z) : M bool :=
  r ← sys (LeaveVoiceChannel userID);
  match r with
  | inr _ => mret true
  | inl _ => _ ← modify (fun w => w_set_retries (w_retries w ++ [(userID, 2)])%list w); mret false
  end.

Definition maxRetries : Z := 3.

(** One attempt of the [i]-th background goroutine. *)
Definition retry_leave (i : nat) : M unit :=
  rs ← gets w_retries;
  match rs !! i with
  | None => mret tt
  | Some (userID, attempt) =>
      r ← sys (LeaveVoiceChannel userID);
      match r with
      | inr _ => modify (fun w => w_set_retries (delete i (w_retries w)) w)
      | inl _ =>
          if attempt <? maxRetries
          then modify (fun w => w_set_retries (<[i := (userID, attempt + 1)]> (w_retries w)) w)
          else modify (fun w => w_set_retries (delete i (w_retries w)) w)
      end
  end.

Definition handleVoiceLeave (p : Z) : M unit :=
  oldChID ← clearVoiceChID p;
  if oldChID =? 0 then mret tt
  else
    c ← conn p;
    ok ← leaveVoiceChannelWithRetry (cl_userID c);
    _ ← unless ok (fail p ErrCodeInternal "voice leave failed — please rejoin if issues persist");
    _ ← BroadcastToAll (buildVoiceLeave oldChID (cl_userID c));
    livekit_remove oldChID (cl_userID c).

(** ** voice_join.go *)

Definition rollbackVoiceJoin (p channelID : Z) : M unit :=
  _ ← clearVoiceChID p;
  c ← conn p;
  _ ← sys (LeaveVoiceChannel (cl_userID c));
  BroadcastToAll (buildVoiceLeave channelID (cl_userID c)).

(** Whether the channel has a free place, with the replies of the refusals. *)
Definition voice_capacity_ok (p channelID : Z) (ch : Channel) : M bool :=
  if 0 <? c_voice_max_users ch then
    existing ← sys (GetChannelVoiceStates channelID);
    match existing with
    | inl _ => _ ← fail p ErrCodeInternal "failed to check channel capacity"; mret false
    | inr l =>
        if c_voice_max_users ch <=? Z.of_nat (length l)
        then _ ← fail p ErrCodeChannelFull "voice channel is full"; mret false
        else mret true
    end
  else mret true.

(** The state of the channel, for the one who joined. *)
Definition voice_send_states (p channelID : Z) (ch : Channel) : M unit :=
  existing ← sys (GetChannelVoiceStates channelID);
  match existing with
  | inl _ => mret tt
  | inr l =>
      c ← conn p;
      _ ← forM_ l (fun vs =>
            unless (vs_UserID vs =? cl_userID c) (sendMsg p (voice_state_frame vs)));
      let quality :=
        match c_voice_quality ch with
        | Some q => if negb (String.eqb q "") && validVoiceQuality q then q else "medium"
        | None => "medium"
        end in
      sendMsg p (buildVoiceConfig channelID quality (qualityBitrate quality) (c_voice_max_users ch))
  end.

(** Announces the joiner; failing that the join is undone. *)
Definition voice_announce (p channelID : Z) (ch : Channel) : M unit :=
  c ← conn p;
  state ← sys (GetVoiceState (cl_userID c));
  match state with
  | inr (Some s) => _ ← BroadcastToAll (voice_state_frame s); voice_send_states p channelID ch
  | _ =>
      _ ← rollbackVoiceJoin p channelID;
      fail p ErrCodeInternal "failed to join voice channel"
  end.

Section sdk.
Context (to_jwt : Grant -> option string).

Definition GenerateToken (userID : Z) (username : string) (channelID : Z)
    (canPublish canSubscribe : bool) : option string :=
  to_jwt (voice_grant userID username channelID canPublish canSubscribe).

(** From the insertion of the voice row on; [url] is the LiveKit server's. *)
Definition voice_join_commit (p channelID : Z) (ch : Channel) (url : string) : M unit :=
  c ← conn p;
  joined ← sys (JoinVoiceChannel (cl_userID c) channelID);
  match joined with
  | inl _ => fail p ErrCodeInternal "failed to join voice channel"
  | inr _ =>
      _ ← setVoiceChID p channelID;
      match cl_user c with
      | None =>
          _ ← rollbackVoiceJoin p channelID;
          fail p ErrCodeInternal "not authenticated"
      | Some u =>
          canPublish ← hasChannelPerm p channelID SpeakVoice;
          match GenerateToken (cl_userID c) (u_username u) channelID canPublish true with
          | None =>
              _ ← rollbackVoiceJoin p channelID;
              fail p ErrCodeInternal "failed to generate voice token"
          | Some token =>
              _ ← sendMsg p (buildVoiceToken channelID token "/livekit" url);
              voice_announce p channelID ch
          end
      end
  end.

(** From the test of the current voice channel on. *)
Definition voice_join_enter (p channelID : Z) (ch : Channel) (url : string) : M unit :=
  currentChID ← getVoiceChID p;
  if currentChID =? channelID then fail p ErrCodeAlreadyJoined "already in this voice channel"
  else
    _ ← when (0 <? currentChID) (handleVoiceLeave p);
    room ← voice_capacity_ok p channelID ch;
    if negb room then mret tt else voice_join_commit p channelID ch url.

Definition handleVoiceJoin (p : Z) (payload : option json) : M unit :=
  match positive_channel payload with
  | None => fail p ErrCodeBadRequest "channel_id must be a positive integer"
  | Some channelID =>
      allowed ← requireChannelPerm p channelID ConnectVoice "CONNECT_VOICE";
      if negb allowed then mret tt else
      r ← sys (GetChannel channelID);
      match r with
      | inr (Some ch) =>
          lk ← gets w_livekit;
          match lk with
          | None => fail p ErrCodeVoiceError "voice is not configured on this server"
          | Some url =>
              running ← gets w_lkProcess;
              if bool_decide (running = Some false)
              then fail p ErrCodeVoiceError "voice is temporarily unavailable — LiveKit is not running"
              else voice_join_enter p channelID ch url
          end
      | _ => fail p ErrCodeNotFound "channel not found"
      end
  end.

Definition handleVoiceTokenRefresh (p : Z) : M unit :=
  c ← conn p;
  ok ← allow (key1 "voice_token_refresh" (cl_userID c)) 1 (60 * Second);
  if negb ok then sendMsg p (buildRateLimitError "token refresh rate limited" 60) else
  channelID ← getVoiceChID p;
  if channelID =? 0 then fail p ErrCodeBadRequest "not in voice" else
  lk ← gets w_livekit;
  match lk with
  | None => fail p ErrCodeInternal "voice not configured"
  | Some url =>
      match cl_user c with
      | None => fail p ErrCodeInternal "not authenticated"
      | Some u =>
          canPublish ← hasChannelPerm p channelID SpeakVoice;
          match GenerateToken (cl_userID c) (u_username u) channelID canPublish true with
          | None => fail p ErrCodeInternal "failed to generate voice token"
          | Some token => sendMsg p (buildVoiceToken channelID token "/livekit" url)
          end
      end
  end.
End sdk.

(** ** voice_controls.go *)

Definition handleVoiceMute (p : Z) (payload : option json) : M unit :=
  c ← conn p;
  ok ← allow (key1 "voice_mute" (cl_userID c)) voiceMuteRateLimit voiceMuteWindow;
  if negb ok then sendMsg p (buildRateLimitError "too many mute toggles" (voiceMuteWindow / Second)) else
  chID ← getVoiceChID p;
  if chID =? 0 then fail p ErrCodeVoiceError "not in a voice channel" else
  match unmarshal_flag "muted" payload with
  | None => fail p ErrCodeBadRequest "invalid voice_mute payload"
  | Some muted =>
      r ← sys (UpdateVoiceMute (cl_userID c) muted);
      match r with
      | inl _ => fail p ErrCodeInternal "failed to update mute state"
      | inr _ => broadcastVoiceStateUpdate p
      end
  end.

Definition handleVoiceDeafen (p : Z) (payload : option json) : M unit :=
  c ← conn p;
  ok ← allow (key1 "voice_deafen" (cl_userID c)) voiceDeafenRateLimit voiceDeafenWindow;
  if negb ok then sendMsg p (buildRateLimitError "too many deafen toggles" (voiceDeafenWindow / Second)) else
  chID ← getVoiceChID p;
  if chID =? 0 then fail p ErrCodeVoiceError "not in a voice channel" else
  match unmarshal_flag "deafened" payload with
  | None => fail p ErrCodeBadRequest "invalid voice_deafen payload"
  | Some deafened =>
      r ← sys (UpdateVoiceDeafen (cl_userID c) deafened);
      match r with
      | inl _ => fail p ErrCodeInternal "failed to update deafen state"
      | inr _ => broadcastVoiceStateUpdate p
      end
  end.

(** The limit on cameras, tested only when one is switched on; a channel that
    cannot be read has none. *)
Definition video_limit_ok (p voiceChID : Z) (enabled : bool) : M bool :=
  if negb enabled then mret true else
  r ← sys (GetChannel voiceChID);
  match r with
  | inr (Some ch) =>
      if 0 <? c_voice_max_video ch then
        n ← sys (CountActiveCameras voiceChID);
        match n with
        | inl _ => _ ← fail p ErrCodeInternal "failed to check video limit"; mret false
        | inr n =>
            if c_voice_max_video ch <=? n
            then _ ← fail p ErrCodeVideoLimit
                       ("maximum " +:+ itoa (c_voice_max_video ch) +:+ " video streams reached"); mret false
            else mret true
        end
      else mret true
  | _ => mret true
  end.

Definition handleVoiceCamera (p : Z) (payload : option json) : M unit :=
  c ← conn p;
  ok ← allow (key1 "voice_camera" (cl_userID c)) voiceCameraRateLimit voiceCameraWindow;
  if negb ok then sendMsg p (buildRateLimitError "too many camera toggles" (voiceCameraWindow / Second)) else
  voiceChID ← getVoiceChID p;
  if voiceChID =? 0 then fail p ErrCodeVoiceError "not in a voice channel" else
  allowed ← requireChannelPerm p voiceChID UseVideo "USE_VIDEO";
  if negb allowed then mret tt else
  match unmarshal_flag "enabled" payload with
  | None => fail p ErrCodeBadRequest "invalid voice_camera payload"
  | Some enabled =>
      free ← video_limit_ok p voiceChID enabled;
      if negb free then mret tt else
      r ← sys (UpdateVoiceCamera (cl_userID c) enabled);
      match r with
      | inl _ => fail p ErrCodeInternal "failed to update camera state"
      | inr _ => broadcastVoiceStateUpdate p
      end
  end.

Definition handleVoiceScreenshare (p : Z) (payload : option json) : M unit :=
  c ← conn p;
  ok ← allow (key1 "voice_screenshare" (cl_userID c)) voiceScreenshareRateLimit voiceScreenshareWindow;
  if negb ok then sendMsg p (buildRateLimitError "too many screenshare toggles" (voiceScreenshareWindow / Second)) else
  voiceChID ← getVoiceChID p;
  if voiceChID =? 0 then fail p ErrCodeVoiceError "not in a voice channel" else
  allowed ← requireChannelPerm p voiceChID ShareScreen "SHARE_SCREEN";
  if negb allowed then mret tt else
  match unmarshal_flag "enabled" payload with
  | None => fail p ErrCodeBadRequest "invalid voice_screenshare payload"
  | Some enabled =>
      r ← sys (UpdateVoiceScreenshare (cl_userID c) enabled);
      match r with
      | inl _ => fail p ErrCodeInternal "failed to update screenshare state"
      | inr _ => broadcastVoiceStateUpdate p
      end
  end.

(** ** livekit_webhook.go *)

Definition parseIdentity (identity : string) : option Z :=
  if HasPrefix identity "user-" then ParseInt64 (skip 5 identity) else None.

Definition parseRoomChannelID (roomName : string) : option Z :=
  if HasPrefix roomName "channel-" then ParseInt64 (skip 8 roomName) else None.

(** A webhook event: its name, and the participant's identity and the room's
    name where they are present. *)
Record WebhookEvent := mkEvent {
  ev_event : string; ev_participant : option string; ev_room : option string }.

(** It only logs. *)
Definition handleWebhookParticipantJoined (event : WebhookEvent) : M unit := mret tt.

Definition webhook_left (userID channelID : Z) : M unit :=
  cur ← lookup_client userID;
  match cur with
  | Some p =>
      currentChID ← getVoiceChID p;
      if currentChID =? channelID then
        _ ← clearVoiceChID p;
        _ ← leaveVoiceChannelWithRetry userID;
        BroadcastToAll (buildVoiceLeave channelID userID)
      else mret tt
  | None => _ ← leaveVoiceChannelWithRetry userID; mret tt
  end.

Definition handleWebhookParticipantLeft (event : WebhookEvent) : M unit :=
  match ev_participant event, ev_room event with
  | Some identity, Some room =>
      match parseIdentity identity, parseRoomChannelID room with
      | Some userID, Some channelID => webhook_left userID channelID
      | _, _ => mret tt
      end
  | _, _ => mret tt
  end.

(** The webhook endpoint: [body] is [None] when it could not be read. *)
Section webhook.
Context {token : Type} (ParseAPIToken : string -> option token) (APIKey : token -> string)
  (Verify : token -> string -> bool) (parse_event : string -> option WebhookEvent).

Definition webhook_body_limit : nat := Z.to_nat (64 * 1024).

Definition LiveKitWebhook (apiKey apiSecret : string) (body : option string) (authHeader : string)
  : M Z :=
  match body with
  | None => mret 400
  | Some body =>
      let body := String.substring 0 webhook_body_limit body in
      if String.eqb authHeader "" then mret 401 else
      match ParseAPIToken (TrimPrefix authHeader "Bearer ") with
      | None => mret 401
      | Some verifier =>
          if negb (String.eqb (APIKey verifier) apiKey) then mret 401
          else if negb (Verify verifier apiSecret) then mret 401
          else
            match parse_event body with
            | None => mret 400
            | Some event =>
                _ ← (if String.eqb (ev_event event) "participant_joined"
                     then handleWebhookParticipantJoined event
                     else if String.eqb (ev_event event) "participant_left"
                     then handleWebhookParticipantLeft event
                     else mret tt);
                mret 200
            end
      end
  end.
End webhook.

End Voice.
Export Voice.
