(* ===== verification/Serve.v ===== *)
(** * Connections

    Model of Server/ws/serve.go, handlers.go, registry.go and origin.go: the
    in-band authentication, the two handshakes (replay of missed events, or the
    full ready payload), the dispatch of a client's messages to the handlers and
    the cleanup at disconnect. The goroutines of the process appear as the
    [event]s it takes, and [run] composes them. *)

From S2P Require Import Prelude Permissions RingBuffer GoText Wire Json GoTime Crypto Credentials Rows Store StoreThms Hub Chat Voice.
#[local] Open Scope string_scope.
#[local] Open Scope Z_scope.

Module Serve.

(** ** origin.go *)

Record AcceptOptions := mkAccept { InsecureSkipVerify : bool; OriginPatterns : list string }.

Definition OriginAcceptOptions (allowedOrigins : list string) : AcceptOptions :=
  match allowedOrigins with
  | [] => mkAccept true []
  | _ =>
      if existsb (fun o => String.eqb o "*") allowedOrigins then mkAccept true []
      else mkAccept false allowedOrigins
  end.

(** ** registry.go *)

(** A handler receives the connection, the request id and the payload. *)
Definition MessageHandler : Type := Z -> string -> option json -> M unit.
Definition HandlerRegistry : Type := gmap string MessageHandler.

Definition NewHandlerRegistry : HandlerRegistry := ∅.
Definition Register (msgType : string) (handler : MessageHandler) (r : HandlerRegistry)
  : HandlerRegistry := <[msgType := handler]> r.

Definition Dispatch (r : HandlerRegistry) (msgType : string) (p : Z) (reqID : string)
    (payload : option json) : M bool :=
  match r !! msgType with
  | None => mret false
  | Some handler => _ ← handler p reqID payload; mret true
  end.

Definition RegisteredTypes (r : HandlerRegistry) : list string := (map_to_list r).*1.

(** ** The authentication frame *)

Definition ParseUint64 (s : string) : option Z :=
  n ← parse_nat s; if n <? two64 then Some n else None.

Definition dec_uint64 (j : json) (old : Z) : option Z :=
  match j with JNull => Some old | JNum lit => ParseUint64 lit | _ => None end.

Definition auth_fields : list (field (string * Z)) :=
  [ ("token", fun j p => (fun x => (x, p.2)) <$> dec_string j p.1);
    ("last_seq", fun j p => (fun x => (p.1, x)) <$> dec_uint64 j p.2) ].

(** [json.Unmarshal(raw, &env)] *)
Definition decode_envelope (raw : string) : option envelope :=
  j ← parse_json raw; unmarshal_envelope (Some j).

Definition ban_of_user (u : User) : ban_state := mkBan (u_banned u) (u_ban_expires u).

(** Refused with a frame, if any was written, or the user, the token's hash and
    the last sequence number the client has seen. *)
Inductive auth_result :=
| AuthRefused (frame : option string)
| AuthAccepted (user : User) (hash : string) (lastSeq : Z).

(** The session and its user are live. *)
Definition authenticate_token (token : string) (lastSeq : Z) : M auth_result :=
  let hash := HashToken token in
  sess ← sys (GetSessionByTokenHash hash);
  match sess with
  | inr (Some sess) =>
      t ← now;
      if IsSessionExpired t (s_expires sess) then mret (AuthRefused (Some (buildAuthError "session expired")))
      else
        user ← sys (GetUserByID (s_user sess));
        match user with
        | inr (Some user) =>
            t ← now;
            if IsEffectivelyBanned t (Some (ban_of_user user))
            then mret (AuthRefused (Some (buildErrorMsg ErrCodeBanned "you are banned")))
            else mret (AuthAccepted user hash lastSeq)
        | _ => mret (AuthRefused (Some (buildAuthError "user not found")))
        end
  | _ => mret (AuthRefused (Some (buildAuthError "invalid token")))
  end.

(** [raw] is [None] when no frame came before the deadline. *)
Definition authenticateConn (raw : option string) : M auth_result :=
  match raw with
  | None => mret (AuthRefused None)
  | Some raw =>
      match decode_envelope raw with
      | None => mret (AuthRefused (Some (buildAuthError "invalid message")))
      | Some env =>
          if negb (String.eqb (env_Type env) "auth")
          then mret (AuthRefused (Some (buildAuthError "first message must be auth")))
          else
            match unmarshal auth_fields ("", 0) (env_Payload env) with
            | None => mret (AuthRefused (Some (buildAuthError "missing token")))
            | Some (token, lastSeq) =>
                if String.eqb token "" then mret (AuthRefused (Some (buildAuthError "missing token")))
                else authenticate_token token lastSeq
            end
      end
  end.

(** ** The handshake payloads (maps, with their keys sorted; structs in order) *)

Definition buildAuthOK (user : User) (roleName : string) : M string :=
  s ← getCachedSettings;
  mret (buildJSON (JObj [("payload", JObj [("motd", JStr s.2); ("server_name", JStr s.1);
      ("user", JObj [("avatar", JOpt JStr (u_avatar user)); ("id", JInt (u_id user));
        ("role", JStr roleName); ("username", JStr (u_username user))])]);
    ("type", JStr MsgTypeAuthOK)])).

Definition ready_channel (unread : gmap Z ChannelUnread) (ch : Channel) : json :=
  let cu := default (mkUnread 0 0) (unread !! c_id ch) in
  let text := String.eqb (c_type ch) "text" in
  JObj ([("category", JStr (c_category ch)); ("id", JInt (c_id ch))]
    ++ (if text then [("last_message_id", JInt (cu_LastMessageID cu))] else [])
    ++ [("name", JStr (c_name ch)); ("position", JInt (c_position ch)); ("type", JStr (c_type ch))]
    ++ (if text then [("unread_count", JInt (cu_UnreadCount cu))] else []))%list.

Definition ready_member (m : MemberSummary) : json :=
  JObj [("id", JInt (ms_ID m)); ("username", JStr (ms_Username m)); ("avatar", JOpt JStr (ms_Avatar m));
    ("status", JStr (ms_Status m)); ("role", JStr (ms_Role m))].

Definition ready_voice (v : VoiceState) : json :=
  JObj [("user_id", JInt (vs_UserID v)); ("channel_id", JInt (vs_ChannelID v));
    ("username", JStr (vs_Username v)); ("muted", JBool (vs_Muted v)); ("deafened", JBool (vs_Deafened v));
    ("speaking", JBool (vs_Speaking v)); ("camera", JBool (vs_Camera v));
    ("screenshare", JBool (vs_Screenshare v))].

Definition ready_role (r : Role) : json :=
  JObj [("id", JInt (r_id r)); ("name", JStr (r_name r)); ("color", JOpt JStr (r_color r));
    ("permissions", JInt (r_permissions r)); ("position", JInt (r_position r));
    ("is_default", JBool (r_is_default r))].

Definition ready_dm (i : DMChannelInfo) : json :=
  let u := di_Recipient i in
  JObj [("channel_id", JInt (di_ChannelID i));
    ("recipient", JObj [("id", JInt (u_id u)); ("username", JStr (u_username u));
      ("avatar", JStr (default "" (u_avatar u))); ("status", JStr (u_status u))]);
    ("last_message_id", JOpt (fun m => JInt (m_id m)) (di_LastMessage i));
    ("last_message", JStr (match di_LastMessage i with Some m => m_content m | None => "" end));
    ("last_message_at", JStr (match di_LastMessage i with Some m => m_timestamp m | None => "" end));
    ("unread_count", JInt (di_UnreadCount i))].

(** [ListRoles] gives a nil slice, and so null, when there is no role. *)
Definition ready_roles (rs : list Role) : json :=
  match rs with [] => JNull | _ => JArr (ready_role <$> rs) end.

Definition collectAllVoiceStates : ST Sys (result db_error (list VoiceState)) := GetAllVoiceStates.

(** A failed query that only loses part of the payload. *)
Definition or_empty {A} (dflt : A) (r : result db_error A) : A :=
  match r with inr x => x | inl _ => dflt end.

Definition buildReady (userID : Z) : M (option string) :=
  channels ← sys ListChannels;
  match channels with
  | inl _ => mret None
  | inr channels =>
      roles ← sys ListRoles;
      match roles with
      | inl _ => mret None
      | inr roles =>
          members ← sys ListMembers;
          unread ← sys (GetChannelUnreadCounts userID);
          voice ← sys collectAllVoiceStates;
          dms ← sys (GetUserDMChannels userID);
          s ← getCachedSettings;
          mret (Some (buildJSON (JObj [("payload", JObj [
              ("channels", JArr (ready_channel (or_empty ∅ unread) <$> channels));
              ("dm_channels", JArr (ready_dm <$> or_empty [] dms));
              ("members", JArr (ready_member <$> or_empty [] members));
              ("motd", JStr s.2); ("roles", ready_roles roles); ("server_name", JStr s.1);
              ("voice_states", JArr (ready_voice <$> or_empty [] voice))]);
            ("type", JStr MsgTypeReady)])))
      end
  end.

(** ** The handshake *)

(** Writes frames until one fails. *)
Fixpoint write_all (p : Z) (frames : list string) : M bool :=
  match frames with
  | [] => mret true
  | f :: fs => ok ← conn_write p f; if ok : bool then write_all p fs else mret false
  end.

Definition set_online (user : User) : M unit :=
  _ ← sys (UpdateUserStatus (u_id user) "online"); mret tt.

(** [EventsSince]; reading out of range would panic. *)
Definition events_since (lastSeq : Z) : M (option (list string)) :=
  rb ← gets w_replayBuf;
  match Ring.EventsSince rb lastSeq with
  | Some r => mret r
  | None => _ ← go_panic; mret None
  end.

(** The replay: [true] when the pumps were started. *)
Definition resume_session (p : Z) (user : User) (roleName : string) (events : list string) : M bool :=
  ok_frame ← buildAuthOK user roleName;
  ok ← write_all p (ok_frame :: events);
  if negb ok then mret false else
  _ ← registerNow p;
  _ ← set_online user;
  _ ← BroadcastToAll (buildPresenceMsg (u_id user) "online");
  mret true.

(** A new session, or one whose events are no longer buffered. *)
Definition fresh_session (p : Z) (user : User) (roleName : string) : M bool :=
  ok_frame ← buildAuthOK user roleName;
  ok ← conn_write p ok_frame;
  if negb ok then mret false else
  ready ← buildReady (u_id user);
  ok ← (match ready with
        | Some frame => conn_write p frame
        | None => _ ← conn_write p (buildErrorMsg ErrCodeInternal "failed to build ready payload"); mret true
        end);
  if negb ok then mret false else
  _ ← registerNow p;
  _ ← set_online user;
  _ ← BroadcastToAll (buildMemberJoin (u_id user) (u_username user) (u_avatar user) roleName);
  _ ← BroadcastToAll (buildPresenceMsg (u_id user) "online");
  mret true.

Definition role_name (user : User) : M string :=
  role ← sys (GetRoleByID (u_role user));
  mret (match role with inr (Some r) => lower (r_name r) | _ => "member" end).

(** The connection of an authenticated user, up to the start of the pumps. *)
Definition serve_user (user : User) (tokenHash : string) (lastSeq : Z) (remoteAddr : string) : M (option Z) :=
  p ← newClient user tokenHash;
  _ ← upd p (cl_set_remoteAddr remoteAddr);
  roleName ← role_name user;
  _ ← upd p (cl_set_roleName roleName);
  _ ← sys (LogAudit (u_id user) "ws_connect" "user" (u_id user)
        ("WebSocket connected from " +:+ remoteAddr));
  events ← (if 0 <? lastSeq then events_since lastSeq else mret None);
  started ← (match events with
             | Some events => resume_session p user roleName events
             | None => fresh_session p user roleName
             end);
  mret (if started : bool then Some p else None).

(** After the upgrade: the new connection when there is one to serve. *)
Definition ServeWS (raw : option string) (remoteAddr : string) : M (option Z) :=
  auth ← authenticateConn raw;
  match auth with
  | AuthRefused _ => mret None
  | AuthAccepted user tokenHash lastSeq => serve_user user tokenHash lastSeq remoteAddr
  end.

(** The end of [readPump], and [closeSend] after it. *)
Definition disconnect (p : Z) : M unit :=
  _ ← unregisterNow p;
  c ← conn p;
  _ ← match cl_user c with
      | None => mret tt
      | Some _ =>
          replaced ← IsUserConnected (cl_userID c);
          _ ← unless replaced (handleVoiceLeave p);
          unless replaced
            (_ ← sys (UpdateUserStatus (cl_userID c) "offline");
             BroadcastToAll (buildPresenceMsg (cl_userID c) "offline"))
      end;
  closeSend p.

(** ** Messages *)

Section messages.
Context (sanitize : string -> string) (to_jwt : Grant -> option string).

Definition registerChatHandlers (r : HandlerRegistry) : HandlerRegistry :=
  Register MsgTypeChatDelete (fun p _ pl => handleChatDelete p pl)
  (Register MsgTypeChatEdit (fun p _ pl => handleChatEdit sanitize p pl)
  (Register MsgTypeChatSend (fun p reqID pl => handleChatSend sanitize p reqID pl) r)).

Definition registerPresenceHandlers (r : HandlerRegistry) : HandlerRegistry :=
  Register MsgTypeChannelFocus (fun p _ pl => handleChannelFocus p pl)
  (Register MsgTypePresenceUpdate (fun p _ pl => handlePresence p pl)
  (Register MsgTypeTypingStart (fun p _ pl => handleTyping p pl) r)).

Definition registerReactionHandlers (r : HandlerRegistry) : HandlerRegistry :=
  Register MsgTypeReactionRemove (fun p _ pl => handleReaction p false pl)
  (Register MsgTypeReactionAdd (fun p _ pl => handleReaction p true pl) r).

Definition registerVoiceHandlers (r : HandlerRegistry) : HandlerRegistry :=
  Register MsgTypeVoiceScreenshare (fun p _ pl => handleVoiceScreenshare p pl)
  (Register MsgTypeVoiceCamera (fun p _ pl => handleVoiceCamera p pl)
  (Register MsgTypeVoiceDeafen (fun p _ pl => handleVoiceDeafen p pl)
  (Register MsgTypeVoiceMute (fun p _ pl => handleVoiceMute p pl)
  (Register MsgTypeVoiceTokenRefresh (fun p _ _ => handleVoiceTokenRefresh to_jwt p)
  (Register MsgTypeVoiceLeave (fun p _ _ => handleVoiceLeave p)
  (Register MsgTypeVoiceJoin (fun p _ pl => handleVoiceJoin to_jwt p pl) r)))))).

Definition registerPingHandler (r : HandlerRegistry) : HandlerRegistry :=
  Register MsgTypePing (fun p _ _ => handlePing p) r.

(** [h.registry], as [NewHub] fills it. *)
Definition registry : HandlerRegistry :=
  registerPingHandler (registerVoiceHandlers (registerReactionHandlers
    (registerPresenceHandlers (registerChatHandlers NewHandlerRegistry)))).

(** Counts the message; [true] when the session is due for a check. *)
Definition count_message (p : Z) : M bool :=
  c ← conn p;
  let n := wrap_int64 (cl_msgCount c + 1) in
  let due := SessionCheckInterval <=? n in
  _ ← upd p (cl_set_msgCount (if due then 0 else n));
  mret due.

(** The periodic check of the session: [true] when the connection stays. *)
Definition session_alive (p : Z) : M bool :=
  c ← conn p;
  if String.eqb (cl_tokenHash c) "" then mret true else
  r ← sys (GetSessionWithBanStatus (cl_tokenHash c));
  match r with
  | inr (Some res) =>
      t ← now;
      if IsSessionExpired t (s_expires (sb_session res)) then _ ← kickClient p; mret false
      else
        t ← now;
        if IsEffectivelyBanned t (Some (mkBan (sb_Banned res) (sb_BanExpires res)))
        then _ ← fail p ErrCodeBanned "you are banned"; _ ← kickClient p; mret false
        else mret true
  | _ => _ ← kickClient p; mret false
  end.

Definition invalid_message (p : Z) : M unit :=
  _ ← upd p (fun c => cl_set_invalidCount (wrap_int64 (cl_invalidCount c + 1)) c);
  c ← conn p;
  _ ← fail p ErrCodeInvalidJSON "message must be valid JSON";
  when (10 <=? cl_invalidCount c) (kickClient p).

(** The message itself, once the connection may stay. *)
Definition process_message (p : Z) (raw : string) : M unit :=
  match decode_envelope raw with
  | None => invalid_message p
  | Some env =>
      _ ← upd p (cl_set_invalidCount 0);
      found ← Dispatch registry (env_Type env) p (env_ID env) (env_Payload env);
      unless found (fail p ErrCodeUnknownType ("unknown message type: " +:+ env_Type env))
  end.

Definition handleMessage (p : Z) (raw : string) : M unit :=
  shouldCheck ← count_message p;
  alive ← (if shouldCheck : bool then session_alive p else mret true);
  if negb alive then mret tt else process_message p raw.

(** One turn of [readPump]'s loop. *)
Definition receive (p : Z) (raw : string) : M unit := _ ← touch p; handleMessage p raw.

(** ** The process *)

(** What a goroutine of the process does in one go. [EvDb] stands for a call
    of another part of the server on the database, [EvBroadcast] and [EvSend]
    for one on the hub. *)
Inductive event :=
| EvConnect (raw : option string) (remoteAddr : string)
| EvReceive (p : Z) (raw : string)
| EvDisconnect (p : Z)
| EvPump (p : Z)
| EvDispatch
| EvSweep
| EvRetry (i : nat)
| EvWebhookLeft (userID channelID : Z)
| EvCleanupVoice (channelID : Z)
| EvBroadcast (channelID : Z) (msg : string)
| EvSend (userID : Z) (msg : string)
| EvDb (op : db_op)
| EvShutdown.

Definition ignore {A} (m : M A) : M unit := _ ← m; mret tt.

Definition run_event (e : event) : M unit :=
  match e with
  | EvConnect raw addr => ignore (ServeWS raw addr)
  | EvReceive p raw => receive p raw
  | EvDisconnect p => disconnect p
  | EvPump p => pump p
  | EvDispatch => dispatch_broadcast
  | EvSweep => sweepStaleClients
  | EvRetry i => retry_leave i
  | EvWebhookLeft u c => webhook_left u c
  | EvCleanupVoice c => CleanupVoiceForChannel c
  | EvBroadcast c msg => BroadcastToChannel c msg
  | EvSend u msg => ignore (SendToUser u msg)
  | EvDb op => sys (run_op op)
  | EvShutdown => GracefulStop
  end.

Definition run (es : list event) : M unit := forM_ es run_event.
End messages.

End Serve.
Export Serve.
