(* ===== verification/WsInv.v ===== *)
(** * Invariants of the WebSocket server

    Every handler is a composition of a few primitive effects: database calls,
    the limiter, sends, broadcasts, updates of its own connection. A predicate
    the primitives keep is kept by every handler ([receive_stable]); the
    invariants of the process are instances. *)

From S2P Require Import Prelude Permissions RingBuffer RateLimiter GoText Wire Json GoTime Crypto Credentials Rows Store StoreInv StoreOk StoreThms Hub Chat Voice Serve.
#[local] Open Scope Z_scope.

Module WsInv.

(** ** Queries *)

(** [m] leaves the database as it is. *)
Definition reads {A} (m : ST Sys A) : Prop := forall s, sys_db (m s).2 = sys_db s.

Lemma reads_ret {A} (a : A) : reads (mret a).
Proof. done. Qed.
Lemma reads_query {A} (f : Db -> A) : reads (query f).
Proof. intros s. apply query_db. Qed.
Lemma reads_bind {A B} (m : ST Sys A) (k : A -> ST Sys B) :
  reads m -> (forall a, reads (k a)) -> reads (m ≫= k).
Proof. intros Hm Hk s. unfold mbind, ST_bind. by rewrite Hk, Hm. Qed.
Lemma reads_preserves {A} (m : ST Sys A) I : reads m -> preserves I m.
Proof. intros Hm s. by rewrite Hm. Qed.

Create HintDb ws_db.

Lemma reads_clock : reads read_clock.
Proof. intros s. apply tick_db. Qed.
Lemma reads_HasChannelPerm rp rid ch q : reads (HasChannelPerm rp rid ch q).
Proof.
  unfold HasChannelPerm. destruct (HasAdmin rp); [apply reads_ret|].
  apply reads_bind; [apply reads_query|]. intros [e|[a d]]; apply reads_ret.
Qed.
Lemma reads_attachments ids : reads (GetAttachmentsByMessageIDs ids).
Proof. destruct ids; [apply reads_ret|apply reads_query]. Qed.
Lemma reads_IsDMParticipant u ch : reads (IsDMParticipant u ch).
Proof. apply reads_query. Qed.
Lemma reads_GetSetting k : reads (GetSetting k).
Proof.
  intros s. unfold GetSetting.
  match goal with |- context [exec ?f s] =>
    destruct (exec_cases f s) as [(e & _ & H)|(now & a & d & _ & E & H & _)]; [done|] end.
  destruct (settings (sys_db s) !! k); by simplify_eq.
Qed.
#[export] Hint Resolve reads_GetSetting reads_clock reads_HasChannelPerm reads_attachments reads_IsDMParticipant : ws_db.
#[export] Hint Extern 4 (reads (GetRoleByID _)) => apply reads_query : ws_db.
#[export] Hint Extern 4 (reads (GetChannel _)) => apply reads_query : ws_db.
#[export] Hint Extern 4 (reads (GetMessage _)) => apply reads_query : ws_db.
#[export] Hint Extern 4 (reads (GetDMParticipantIDs _)) => apply reads_query : ws_db.
#[export] Hint Extern 4 (reads (GetLatestMessageID _)) => apply reads_query : ws_db.
#[export] Hint Extern 4 (reads (GetVoiceState _)) => apply reads_query : ws_db.
#[export] Hint Extern 4 (reads (GetChannelVoiceStates _)) => apply reads_query : ws_db.
#[export] Hint Extern 4 (reads (CountActiveCameras _)) => apply reads_query : ws_db.
#[export] Hint Extern 4 (reads (GetSessionByTokenHash _)) => apply reads_query : ws_db.
#[export] Hint Extern 4 (reads (GetSessionWithBanStatus _)) => apply reads_query : ws_db.
#[export] Hint Extern 4 (reads (GetUserByID _)) => apply reads_query : ws_db.
#[export] Hint Extern 4 (reads ListChannels) => apply reads_query : ws_db.
#[export] Hint Extern 4 (reads ListRoles) => apply reads_query : ws_db.
#[export] Hint Extern 4 (reads ListMembers) => apply reads_query : ws_db.
#[export] Hint Extern 4 (reads (GetChannelUnreadCounts _)) => apply reads_query : ws_db.
#[export] Hint Extern 4 (reads collectAllVoiceStates) => apply reads_query : ws_db.
#[export] Hint Extern 4 (reads (GetUserDMChannels _)) => apply reads_query : ws_db.

(** ** Stability *)

(** Runs of [m] from a state with [I] end with [J] of the result. *)
Definition triple {A} (I : World -> Prop) (m : M A) (J : A -> World -> Prop) : Prop :=
  forall w, I w -> J (m w).1 (m w).2.
Definition stable {A} (I : World -> Prop) (m : M A) : Prop := triple I m (fun _ => I).

Section rules.
Context (I : World -> Prop).

Lemma stable_ret {A} (a : A) : stable I (mret a).
Proof. intros w Hw. exact Hw. Qed.
Lemma stable_bind {A B} (m : M A) (k : A -> M B) :
  stable I m -> (forall a, stable I (k a)) -> stable I (m ≫= k).
Proof. intros Hm Hk w Hw. apply Hk, Hm, Hw. Qed.
Lemma triple_bind {A B} (m : M A) (k : A -> M B) (J : A -> World -> Prop) (K : B -> World -> Prop) :
  triple I m J -> (forall a, triple (J a) (k a) K) -> triple I (m ≫= k) K.
Proof. intros Hm Hk w Hw. apply Hk, Hm, Hw. Qed.
(** Facts about the result that do not mention the state. *)
Lemma triple_pure {A} (Q : Prop) (m : M A) (J : A -> World -> Prop) :
  (Q -> triple I m J) -> triple (fun w => I w /\ Q) m J.
Proof. intros Hm w [Hw HQ]. by apply Hm. Qed.
Lemma stable_gets {A} (f : World -> A) : stable I (gets f).
Proof. intros w Hw. exact Hw. Qed.
Lemma stable_modify (f : World -> World) : (forall w, I w -> I (f w)) -> stable I (modify f).
Proof. intros Hf w Hw. by apply Hf. Qed.
Lemma stable_forM {A} (l : list A) (f : A -> M unit) :
  (forall x, stable I (f x)) -> stable I (forM_ l f).
Proof.
  intros Hf. induction l as [|x l IH]; [apply stable_ret|]. apply stable_bind; [apply Hf|done].
Qed.
Lemma stable_when b (m : M unit) : stable I m -> stable I (when b m).
Proof. intros Hm. destruct b; [done|apply stable_ret]. Qed.
Lemma stable_unless b (m : M unit) : stable I m -> stable I (unless b m).
Proof. intros Hm. destruct b; [apply stable_ret|done]. Qed.
End rules.

(** Walks through a handler, leaving the primitives to the hints. *)
Ltac walk_step :=
  match goal with
  | |- stable _ (mret _) => apply stable_ret
  | |- stable _ (gets _) => apply stable_gets
  | |- stable _ (_ ≫= _) => apply stable_bind; [|intros ?]
  | |- stable _ (when _ _) => apply stable_when
  | |- stable _ (unless _ _) => apply stable_unless
  | |- stable _ (forM_ _ _) => apply stable_forM; intros ?
  | |- stable _ (if ?b then _ else _) => destruct b
  | |- stable _ (match ?x with _ => _ end) => destruct x
  | |- stable _ (let _ := _ in _) => cbv zeta
  end.
Ltac walk := repeat (walk_step || solve [auto 3 with ws_db store_db nocore]); auto with ws_db store_db.

(** ** What a handler may do for its own connection, besides counting messages *)

Inductive own_update : (Client -> Client) -> Prop :=
| own_touch t : own_update (fun c => cl_set_msgsReceived (wrap_int64 (cl_msgsReceived c + 1)) (cl_set_lastActivity t c))
| own_invalid : own_update (fun c => cl_set_invalidCount (wrap_int64 (cl_invalidCount c + 1)) c)
| own_valid : own_update (cl_set_invalidCount 0)
| own_focus x : own_update (cl_set_channelID x)
| own_voice x : own_update (cl_set_voiceChID x).

(** The calls of the WebSocket side that write; those on the table of messages
    only where [b] allows it. *)
Inductive ws_write (b : bool) : forall A, ST Sys A -> Prop :=
| ww_CreateMessage c u t r : b = true -> ws_write b _ (CreateMessage c u t r)
| ww_EditMessage i u t : b = true -> ws_write b _ (EditMessage i u t)
| ww_DeleteMessage i u x : b = true -> ws_write b _ (DeleteMessage i u x)
| ww_LinkAttachments i l : ws_write b _ (LinkAttachmentsToMessage i l)
| ww_AddReaction m u e : ws_write b _ (AddReaction m u e)
| ww_RemoveReaction m u e : ws_write b _ (RemoveReaction m u e)
| ww_OpenDM u c : ws_write b _ (OpenDM u c)
| ww_UpdateReadState u c m : ws_write b _ (UpdateReadState u c m)
| ww_UpdateUserStatus u x : ws_write b _ (UpdateUserStatus u x)
| ww_LogAudit a x t i d : ws_write b _ (LogAudit a x t i d)
| ww_JoinVoiceChannel u c : ws_write b _ (JoinVoiceChannel u c)
| ww_LeaveVoiceChannel u : ws_write b _ (LeaveVoiceChannel u)
| ww_UpdateVoiceMute u x : ws_write b _ (UpdateVoiceMute u x)
| ww_UpdateVoiceDeafen u x : ws_write b _ (UpdateVoiceDeafen u x)
| ww_UpdateVoiceCamera u x : ws_write b _ (UpdateVoiceCamera u x)
| ww_UpdateVoiceScreenshare u x : ws_write b _ (UpdateVoiceScreenshare u x).
#[export] Hint Constructors ws_write : ws_db.

Lemma ws_write_ok b A (m : ST Sys A) : ws_write b A m -> preserves db_ok m.
Proof. destruct 1; auto with store_db. Qed.

(** [D]: the database calls allowed, [U]: the updates of the connection. *)
Record handler_inv (p : Z) (D : forall A, ST Sys A -> Prop) (U : (Client -> Client) -> Prop)
  (I : World -> Prop) : Prop := {
  hi_sys : forall A (m : ST Sys A), D A m -> stable I (sys m);
  hi_limiter : forall r w, I w -> I (w_set_limiter r w);
  hi_send : forall q msg, stable I (trySendMsg q msg);
  hi_broadcast : forall c msg, stable I (BroadcastToChannel c msg);
  hi_own : forall f, U f -> stable I (upd p f);
  hi_queue : forall x w, I w -> I (w_set_retries x w);
  hi_remove : forall x w, I w -> I (w_set_removals x w);
  hi_drop : stable I (drop_client p);
  hi_close : stable I (closeSend p) }.

Section handlers.
Context (full : bool) (p : Z) (D : forall A, ST Sys A -> Prop) (U : (Client -> Client) -> Prop) (I : World -> Prop)
  (HI : handler_inv p D U I).
Context (D_reads : forall A (m : ST Sys A), reads m -> D A m)
  (D_writes : forall A (m : ST Sys A), ws_write full A m -> D A m)
  (U_own : forall f, own_update f -> U f).

Lemma st_write {A} (m : ST Sys A) : ws_write full A m -> stable I (sys m).
Proof. intros Hm. by apply HI, D_writes. Qed.
Lemma st_read {A} (m : ST Sys A) : reads m -> stable I (sys m).
Proof. intros Hm. by apply HI, D_reads. Qed.
Lemma st_send q msg : stable I (trySendMsg q msg).
Proof. apply HI. Qed.
Lemma st_broadcast c msg : stable I (BroadcastToChannel c msg).
Proof. apply HI. Qed.
Lemma st_own f : own_update f -> stable I (upd p f).
Proof. intros Hf. by apply HI, U_own. Qed.
#[local] Hint Resolve st_read st_send st_broadcast st_own stable_ret : ws_db.
#[local] Hint Resolve st_write | 20 : ws_db.
#[local] Hint Constructors own_update : ws_db.

Lemma st_now : stable I now.
Proof. apply st_read, reads_clock. Qed.
Lemma st_conn q : stable I (conn q).
Proof. apply stable_gets. Qed.
Lemma st_sendMsg q msg : stable I (sendMsg q msg).
Proof. unfold sendMsg. walk. Qed.
Lemma st_fail q code msg : stable I (fail q code msg).
Proof. apply st_sendMsg. Qed.
Lemma st_all msg : stable I (BroadcastToAll msg).
Proof. apply st_broadcast. Qed.
Lemma st_SendToUser u msg : stable I (SendToUser u msg).
Proof. unfold SendToUser, lookup_client. walk. Qed.
#[local] Hint Resolve st_now st_conn st_sendMsg st_fail st_all st_SendToUser : ws_db.

Lemma st_allow k l win : stable I (allow k l win).
Proof. unfold allow. walk. intros w Hw. by apply (hi_limiter p D U I HI). Qed.
Lemma st_send_each us msg : stable I (send_each us msg).
Proof. unfold send_each. walk. Qed.
Lemma st_getVoice q : stable I (getVoiceChID q).
Proof. unfold getVoiceChID. walk. Qed.
Lemma st_setVoice x : stable I (setVoiceChID p x).
Proof. unfold setVoiceChID. walk. Qed.
#[local] Hint Resolve st_allow st_send_each st_getVoice st_setVoice : ws_db.
Lemma st_clearVoice : stable I (clearVoiceChID p).
Proof. unfold clearVoiceChID. walk. Qed.
Lemma st_perm ch q : stable I (hasChannelPerm p ch q).
Proof. unfold hasChannelPerm. walk. Qed.
Lemma st_dm ch msg : stable I (broadcastToDMParticipants ch msg).
Proof. unfold broadcastToDMParticipants. walk. Qed.
Lemma st_dm_others ch u msg : stable I (broadcastToDMParticipantsExclude ch u msg).
Proof. unfold broadcastToDMParticipantsExclude. walk. Qed.
Lemma st_exclude ch u msg : stable I (broadcastExclude ch u msg).
Proof. unfold broadcastExclude. walk. Qed.
#[local] Hint Resolve st_clearVoice st_perm st_dm st_dm_others st_exclude : ws_db.
Lemma st_require ch q l : stable I (requireChannelPerm p ch q l).
Proof. unfold requireChannelPerm. walk. Qed.
#[local] Hint Resolve st_require : ws_db.
Lemma st_access b ch (m : M bool) : stable I m -> stable I (channel_access p b ch m).
Proof. intros Hm. unfold channel_access. walk. Qed.
#[local] Hint Resolve st_access : ws_db.
Lemma st_remove ch u : stable I (livekit_remove ch u).
Proof. unfold livekit_remove, RemoveParticipant. walk. apply stable_modify. intros w. apply HI. Qed.
Lemma st_leave_retry u : stable I (leaveVoiceChannelWithRetry u).
Proof. unfold leaveVoiceChannelWithRetry. walk. apply stable_modify. intros w. apply HI. Qed.
Lemma st_kick : stable I (kickClient p).
Proof. unfold kickClient. walk; apply HI. Qed.
#[local] Hint Resolve st_remove st_leave_retry st_kick : ws_db.

(** *** Chat *)

Section messages.
Context (Hfull : full = true).
#[local] Hint Resolve Hfull : ws_db.
Lemma st_chat_send san reqID pl : stable I (handleChatSend san p reqID pl).
Proof.
  unfold handleChatSend, chat_send_access, chat_send_commit, slow_mode_ok, link_attachments,
    chat_send_deliver, deliver_dm. walk.
Qed.
Lemma st_chat_edit san pl : stable I (handleChatEdit san p pl).
Proof. unfold handleChatEdit, chat_edit_broadcast. walk. Qed.
Lemma st_chat_delete pl : stable I (handleChatDelete p pl).
Proof. unfold handleChatDelete. walk. Qed.
End messages.
Lemma st_reaction add pl : stable I (handleReaction p add pl).
Proof. unfold handleReaction. destruct add; walk. Qed.
Lemma st_typing pl : stable I (handleTyping p pl).
Proof. unfold handleTyping. walk. Qed.
Lemma st_presence pl : stable I (handlePresence p pl).
Proof. unfold handlePresence. walk. Qed.
Lemma st_focus pl : stable I (handleChannelFocus p pl).
Proof. unfold handleChannelFocus. walk. Qed.

(** *** Voice *)

Lemma st_voice_leave : stable I (handleVoiceLeave p).
Proof. unfold handleVoiceLeave. walk. Qed.
Lemma st_rollback ch : stable I (rollbackVoiceJoin p ch).
Proof. unfold rollbackVoiceJoin. walk. Qed.
#[local] Hint Resolve st_voice_leave st_rollback : ws_db.
Lemma st_voice_join jwt pl : stable I (handleVoiceJoin jwt p pl).
Proof.
  unfold handleVoiceJoin, voice_join_enter, voice_capacity_ok, voice_join_commit, voice_announce,
    voice_send_states. walk.
Qed.
Lemma st_refresh jwt : stable I (handleVoiceTokenRefresh jwt p).
Proof. unfold handleVoiceTokenRefresh. walk. Qed.
Lemma st_voice_state : stable I (broadcastVoiceStateUpdate p).
Proof. unfold broadcastVoiceStateUpdate. walk. Qed.
#[local] Hint Resolve st_voice_state : ws_db.
Lemma st_mute pl : stable I (handleVoiceMute p pl).
Proof. unfold handleVoiceMute. walk. Qed.
Lemma st_deafen pl : stable I (handleVoiceDeafen p pl).
Proof. unfold handleVoiceDeafen. walk. Qed.
Lemma st_camera pl : stable I (handleVoiceCamera p pl).
Proof. unfold handleVoiceCamera, video_limit_ok. walk. Qed.
Lemma st_screenshare pl : stable I (handleVoiceScreenshare p pl).
Proof. unfold handleVoiceScreenshare. walk. Qed.

(** *** Dispatch *)

Lemma st_session_alive : stable I (session_alive p).
Proof. unfold session_alive. walk. Qed.
Lemma st_invalid : stable I (invalid_message p).
Proof. unfold invalid_message. walk. Qed.
Lemma st_touch : stable I (touch p).
Proof. unfold touch. walk. Qed.
#[local] Hint Resolve st_session_alive st_invalid st_touch : ws_db.

(** The handlers of the registry: those of messages, and the rest. *)
Lemma registry_split san jwt ty h : registry san jwt !! ty = Some h ->
  (forall reqID pl, h p reqID pl = handleChatSend san p reqID pl) \/
  (forall reqID pl, h p reqID pl = handleChatEdit san p pl) \/
  (forall reqID pl, h p reqID pl = handleChatDelete p pl) \/
  (forall reqID pl, stable I (h p reqID pl)).
Proof.
  unfold registry, registerPingHandler, registerVoiceHandlers, registerReactionHandlers,
    registerPresenceHandlers, registerChatHandlers, Register, NewHandlerRegistry.
  intros H.
  repeat (apply lookup_insert_Some in H as [[_ <-]|[_ H]]; [cbv beta;
    first [by left|by right; left|by right; right; left|right; right; right; intros reqID pl];
    lazymatch goal with
    | |- stable _ (handleReaction _ _ _) => apply st_reaction
    | |- stable _ (handleTyping _ _) => apply st_typing
    | |- stable _ (handlePresence _ _) => apply st_presence
    | |- stable _ (handleChannelFocus _ _) => apply st_focus
    | |- stable _ (handleVoiceLeave _) => apply st_voice_leave
    | |- stable _ (handleVoiceJoin _ _ _) => apply st_voice_join
    | |- stable _ (handleVoiceTokenRefresh _ _) => apply st_refresh
    | |- stable _ (handleVoiceMute _ _) => apply st_mute
    | |- stable _ (handleVoiceDeafen _ _) => apply st_deafen
    | |- stable _ (handleVoiceCamera _ _) => apply st_camera
    | |- stable _ (handleVoiceScreenshare _ _) => apply st_screenshare
    | |- stable _ (handlePing _) => apply st_sendMsg
    end|]).
  exact (False_ind _ (lookup_empty_Some (M:=gmap string) _ _ H)).
Qed.

Section registry.
Context (Hfull : full = true).

Lemma registry_cases san jwt ty h : registry san jwt !! ty = Some h ->
  forall reqID pl, stable I (h p reqID pl).
Proof.
  intros H reqID pl. apply registry_split in H as [E|[E|[E|E]]]; [rewrite E..|apply E];
    [by apply st_chat_send|by apply st_chat_edit|by apply st_chat_delete].
Qed.

Lemma st_dispatch san jwt ty reqID pl : stable I (Dispatch (registry san jwt) ty p reqID pl).
Proof.
  unfold Dispatch. destruct (registry san jwt !! ty) as [h|] eqn:Hh; [|apply stable_ret].
  apply stable_bind; [by eapply registry_cases|]. intros ?. apply stable_ret.
Qed.
#[local] Hint Resolve st_dispatch : ws_db.

Lemma st_process san jwt raw : stable I (process_message san jwt p raw).
Proof. unfold process_message. walk. Qed.
#[local] Hint Resolve st_process : ws_db.

(** The counter stays in range because the invariant says it was. *)
Lemma receive_stable san jwt raw
    (Hcount : stable I (count_message p)) : stable I (receive san jwt p raw).
Proof. unfold receive, handleMessage. walk. Qed.
End registry.
End handlers.

(** The calls that keep the database sound, and those that leave it as it is. *)
Definition sound_call (A : Type) (m : ST Sys A) : Prop := preserves db_ok m.
Definition read_call (A : Type) (m : ST Sys A) : Prop := reads m.

Lemma sound_reads A (m : ST Sys A) : reads m -> sound_call A m.
Proof. apply reads_preserves. Qed.
Lemma sound_writes b A (m : ST Sys A) : ws_write b A m -> sound_call A m.
Proof. apply ws_write_ok. Qed.
Lemma read_reads A (m : ST Sys A) : reads m -> read_call A m.
Proof. done. Qed.
#[export] Hint Resolve sound_reads sound_writes read_reads : ws_db.

(** Discharges the premises of the lemmas above with an instance [H]. *)
Tactic Notation "handler" uconstr(L) "with" uconstr(H) :=
  eapply L; first [apply H | solve [eauto with ws_db] | idtac].

(** ** The other goroutines *)

(** [D] as above: reading, and what the other goroutines write. *)
Record process_inv (D : forall A, ST Sys A -> Prop) (I : World -> Prop) : Prop := {
  pi_reads : forall A (m : ST Sys A), reads m -> D A m;
  pi_writes : forall A (m : ST Sys A), ws_write false A m -> D A m;
  pi_handler : forall p, handler_inv p D own_update I;
  pi_wire : forall p frame, stable I (conn_write p frame);
  pi_pump : forall p, stable I (pump p);
  pi_settings : forall x w, I w -> I (w_set_settings x w);
  pi_process : forall x w, I w -> I (w_set_lkProcess x w) }.

Section process.
Context (D : forall A, ST Sys A -> Prop) (I : World -> Prop) (HI : process_inv D I).
Lemma allow_reads A (m : ST Sys A) : reads m -> D A m.
Proof. apply HI. Qed.
Lemma allow_writes A (m : ST Sys A) : ws_write false A m -> D A m.
Proof. apply HI. Qed.
#[local] Hint Resolve allow_reads allow_writes : ws_db.

Lemma pr_sys {A} (m : ST Sys A) : D A m -> stable I (sys m).
Proof. apply (hi_sys _ _ _ _ (pi_handler D I HI 0)). Qed.
Lemma pr_write {A} (m : ST Sys A) : ws_write false A m -> stable I (sys m).
Proof. intros Hm. by apply pr_sys, allow_writes. Qed.
Lemma pr_read {A} (m : ST Sys A) : reads m -> stable I (sys m).
Proof. intros Hm. by apply pr_sys, allow_reads. Qed.
Lemma pr_all msg : stable I (BroadcastToAll msg).
Proof. apply (pi_handler D I HI 0). Qed.
Lemma pr_close p : stable I (closeSend p).
Proof. apply (pi_handler D I HI p). Qed.
Lemma pr_drop p : stable I (drop_client p).
Proof. apply (pi_handler D I HI p). Qed.
Lemma pr_wire p frame : stable I (conn_write p frame).
Proof. apply HI. Qed.
Lemma pr_now : stable I now.
Proof. apply pr_read, reads_clock. Qed.
Lemma pr_conn p : stable I (conn p).
Proof. apply stable_gets. Qed.
Lemma pr_lookup u : stable I (lookup_client u).
Proof. apply stable_gets. Qed.
Lemma pr_kick p : stable I (kickClient p).
Proof. handler st_kick with (pi_handler D I HI p). Qed.
Lemma pr_getVoice p : stable I (getVoiceChID p).
Proof. apply st_getVoice. Qed.
Lemma pr_clearVoice p : stable I (clearVoiceChID p).
Proof. handler st_clearVoice with (pi_handler D I HI p). Qed.
Lemma pr_setVoice p x : stable I (setVoiceChID p x).
Proof. handler st_setVoice with (pi_handler D I HI p). Qed.
Lemma pr_leave_retry u : stable I (leaveVoiceChannelWithRetry u).
Proof. handler st_leave_retry with (pi_handler D I HI 0). Qed.
Lemma pr_remove c u : stable I (livekit_remove c u).
Proof. handler st_remove with (pi_handler D I HI 0). Qed.
Lemma pr_send p msg : stable I (sendMsg p msg).
Proof. handler st_sendMsg with (pi_handler D I HI 0). Qed.
Lemma pr_SendToUser u msg : stable I (SendToUser u msg).
Proof. handler st_SendToUser with (pi_handler D I HI 0). Qed.
Lemma pr_voice_leave p : stable I (handleVoiceLeave p).
Proof. handler st_voice_leave with (pi_handler D I HI p). Qed.
#[local] Hint Resolve pr_write | 20 : ws_db.
#[local] Hint Resolve pr_read pr_all pr_close pr_drop pr_wire pr_now pr_conn pr_lookup pr_kick pr_getVoice
  pr_clearVoice pr_setVoice pr_leave_retry pr_remove pr_send pr_SendToUser pr_voice_leave : ws_db.

Lemma pr_sweep : stable I sweepStaleClients.
Proof. unfold sweepStaleClients. walk. Qed.
Lemma pr_retry i : stable I (retry_leave i).
Proof.
  unfold retry_leave. walk; apply stable_modify; intros w Hw; by apply (hi_queue _ _ _ _ (pi_handler D I HI 0)).
Qed.
Lemma pr_webhook u c : stable I (webhook_left u c).
Proof. unfold webhook_left. walk. Qed.
Lemma pr_cleanup c : stable I (CleanupVoiceForChannel c).
Proof. unfold CleanupVoiceForChannel. walk. Qed.
Lemma pr_refresh : stable I refreshSettingsLocked.
Proof. unfold refreshSettingsLocked. walk; apply stable_modify; intros w Hw; by apply HI. Qed.
#[local] Hint Resolve pr_refresh : ws_db.
Lemma pr_cached : stable I getCachedSettings.
Proof. unfold getCachedSettings. walk. Qed.
#[local] Hint Resolve pr_cached : ws_db.
Lemma pr_stop : stable I GracefulStop.
Proof.
  unfold GracefulStop, BroadcastServerRestart. walk. apply stable_modify. intros w Hw. by apply HI.
Qed.
Lemma pr_disconnect p : stable I (disconnect p).
Proof. unfold disconnect, unregisterNow, IsUserConnected. walk. Qed.
Lemma pr_take_over p o : stable I (take_over p o).
Proof. unfold take_over. walk. Qed.
Lemma pr_fanout (cs : list (Z * Z)) ch msg :
  stable I (forM_ cs (fun '(_, p) => c ← conn p; when (addressed ch c) (sendMsg p msg))).
Proof. walk. Qed.

(** *** Connecting *)

Lemma pr_authenticate raw : stable I (authenticateConn raw).
Proof. unfold authenticateConn, authenticate_token. walk. Qed.
Lemma pr_write_all p fs : stable I (write_all p fs).
Proof. induction fs as [|f fs IH]; simpl; walk. Qed.
Lemma pr_auth_ok u r : stable I (buildAuthOK u r).
Proof. unfold buildAuthOK. walk. Qed.
Lemma pr_ready u : stable I (buildReady u).
Proof. unfold buildReady. walk. Qed.
Lemma pr_online u : stable I (set_online u).
Proof. unfold set_online. walk. Qed.
Lemma pr_role u : stable I (role_name u).
Proof. unfold role_name. walk. Qed.
#[local] Hint Resolve pr_write_all pr_auth_ok pr_ready pr_online pr_role : ws_db.

Lemma pr_resume p u r evs : stable I (registerNow p) -> stable I (resume_session p u r evs).
Proof. intros Hreg. unfold resume_session. walk. Qed.
Lemma pr_fresh p u r : stable I (registerNow p) -> stable I (fresh_session p u r).
Proof. intros Hreg. unfold fresh_session. walk. Qed.
End process.

Lemma stable_ex {A X} (I : X -> World -> Prop) (m : M A) :
  (forall x, stable (I x) m) -> stable (fun w => exists x, I x w) m.
Proof. intros Hm w [x Hw]. exists x. by apply Hm. Qed.

(** Invariants are closed under existential quantification. *)
Lemma process_inv_ex {X} (D : forall A, ST Sys A -> Prop) (I : X -> World -> Prop) `{Inhabited X} :
  (forall x, process_inv D (I x)) -> process_inv D (fun w => exists x, I x w).
Proof.
  intros HI. split; [apply (HI inhabitant)..|intros p; split| | | |]; intros;
    try (apply stable_ex; intros x; first [by apply (HI x)|by apply (pi_handler _ _ (HI x) p)]).
  all: match goal with H : ex _ |- _ => destruct H as [y Hy]; exists y end.
  all: first [by apply (HI y)|by apply (pi_handler _ _ (HI y) 0)].
Qed.

(** A new connection satisfies [J p] from its creation on, under which it can
    be registered. *)
Lemma connect_stable (D : forall A, ST Sys A -> Prop) (I : World -> Prop) (J : Z -> World -> Prop) raw addr :
  process_inv D I -> (forall p, process_inv D (J p)) ->
  (forall u h, triple I (newClient u h) J) -> (forall p w, J p w -> I w) ->
  (forall p a, stable (J p) (upd p (cl_set_remoteAddr a))) ->
  (forall p a, stable (J p) (upd p (cl_set_roleName a))) ->
  (forall p, stable (J p) (registerNow p)) -> (forall p k, stable (J p) (events_since k)) ->
  stable I (ServeWS raw addr).
Proof.
  intros HI HJ Hnew Hback Haddr Hrole Hreg Hev. unfold ServeWS, serve_user.
  apply stable_bind; [by eapply pr_authenticate|]. intros [|u h last]; [apply stable_ret|].
  eapply triple_bind; [apply Hnew|]. intros p w Hw. apply (Hback p).
  apply stable_bind; [apply Haddr|intros []|done].
  apply stable_bind; [by eapply pr_role|intros r]. apply stable_bind; [apply Hrole|intros []].
  apply stable_bind; [eapply pr_write; [apply HJ|auto with ws_db]|intros _].
  apply stable_bind; [destruct (0 <? last); [apply Hev|apply stable_ret]|intros ev].
  apply stable_bind; [destruct ev; [by eapply pr_resume|by eapply pr_fresh]|]. intros []; apply stable_ret.
Qed.

End WsInv.
Export WsInv.
