(* ===== verification/WsOk.v ===== *)
(** * Safety of the process

    The invariant [wok] of every run, and [wokp] for another predicate of the
    database than its integrity: the database is sound, no goroutine has
    panicked, every connection's send channel agrees with its flag and is within
    its capacity, the hub's map points to connections of the right user, and the
    replay buffer holds the last broadcasts. *)

From S2P Require Import Prelude Permissions RingBuffer RateLimiter GoText Wire Json GoTime Crypto Credentials Rows Store StoreInv StoreOk StoreThms Hub Chat Voice Serve WsInv.
#[local] Open Scope Z_scope.

Module WsOk.

Record conn_ok (c : Client) : Prop := {
  cok_closed : ch_closed (cl_send c) = cl_sendClosed c;
  cok_buf : (length (ch_buf (cl_send c)) <= sendBufSize)%nat;
  cok_count : 0 <= cl_msgCount c < SessionCheckInterval;
  cok_user : exists u, cl_user c = Some u /\ u_id u = cl_userID c }.

(** [K]: connections known to exist, with their users; [rb] and [sq]: the
    replay buffer and the sequence counter. *)
Record wokp (P : Db -> Prop) (K : list (Z * Z)) (rb : Ring.EventRingBuffer) (sq : Z) (w : World) : Prop := {
  wok_db : P (sys_db (w_sys w));
  wok_panic : w_panic w = false;
  wok_conns : map_Forall (fun p c => p < w_next w /\ conn_ok c) (w_conns w);
  wok_clients : map_Forall (fun uid p => exists c, w_conns w !! p = Some c /\ cl_userID c = uid)
                  (w_clients w);
  wok_bcast : (length (w_broadcast w) <= broadcastBufSize)%nat;
  wok_known : Forall (fun x => exists c, w_conns w !! x.1 = Some c /\ cl_userID c = x.2) K;
  wok_rb : w_replayBuf w = rb;
  wok_sq : w_seq w = sq }.
#[global] Arguments wok_db {P} K rb sq w _.
#[global] Arguments wok_panic {P} K rb sq w _.
#[global] Arguments wok_conns {P} K rb sq w _.
#[global] Arguments wok_clients {P} K rb sq w _.
#[global] Arguments wok_bcast {P} K rb sq w _.
#[global] Arguments wok_known {P} K rb sq w _.
#[global] Arguments wok_rb {P} K rb sq w _.
#[global] Arguments wok_sq {P} K rb sq w _.
Notation wok := (wokp db_ok).

(** What the process keeps of the database: a predicate that all its calls keep,
    and those of the environment. *)
Class kept_db (P : Db -> Prop) : Prop := {
  kept_ws : forall b A (m : ST Sys A), ws_write b A m -> preserves P m;
  kept_op : forall o, preserves P (run_op o) }.

#[export] Instance kept_db_ok : kept_db db_ok.
Proof. split; [apply ws_write_ok|apply keep_run_op]. Qed.
(** Nothing at all of it. *)
#[export] Instance kept_any : kept_db (fun _ => True).
Proof. by split. Qed.

Definition keeping (P : Db -> Prop) (A : Type) (m : ST Sys A) : Prop := preserves P m.
Lemma keeping_reads (P : Db -> Prop) A (m : ST Sys A) : reads m -> keeping P A m.
Proof. apply reads_preserves. Qed.
Lemma keeping_writes (P : Db -> Prop) {HP : kept_db P} b A (m : ST Sys A) : ws_write b A m -> keeping P A m.
Proof. apply kept_ws. Qed.
#[export] Hint Resolve keeping_reads keeping_writes : ws_db.

Section database.
Context {P : Db -> Prop}.
Notation wok := (wokp P).

(** Changes of the connections that keep users and conditions. *)
Lemma wok_conns_map K rb sq w (m : gmap Z Client) :
  wok K rb sq w ->
  (forall q c, m !! q = Some c -> is_Some (w_conns w !! q) /\ conn_ok c) ->
  (forall q c, w_conns w !! q = Some c -> exists c', m !! q = Some c' /\ cl_userID c' = cl_userID c) ->
  wok K rb sq (w_set_conns m w).
Proof.
  intros [Hd Hp Hc Hcl Hb Hk Hr Hs] Hback Hfwd. split; simpl; try done.
  - intros q c Hq. apply Hback in Hq as [[c0 H0] Hok]. split; [|done]. by apply (Hc q c0).
  - intros uid q Hq. apply Hcl in Hq as (c & Hc0 & <-). by apply Hfwd in Hc0.
  - eapply Forall_impl; [exact Hk|]. intros [q u] (c & Hc0 & Hu). simpl in *.
    apply Hfwd in Hc0 as (c' & H' & E). exists c'. by rewrite E.
Qed.

Lemma wok_alter K rb sq w p f : wok K rb sq w ->
  (forall c, w_conns w !! p = Some c -> conn_ok c -> conn_ok (f c) /\ cl_userID (f c) = cl_userID c) ->
  wok K rb sq (w_set_conns (alter f p (w_conns w)) w).
Proof.
  intros Hw Hf. apply wok_conns_map; [done|..].
  - intros q c Hq. apply lookup_alter_Some in Hq as [(<- & c0 & H0 & ->)|[Hne Hq]].
    + split; [by eexists|]. apply (Hf c0 H0). by apply (wok_conns _ _ _ _ Hw p c0).
    + split; [by eexists|]. by apply (wok_conns _ _ _ _ Hw q c).
  - intros q c Hq. destruct (decide (p = q)) as [<-|Hne].
    + exists (f c). rewrite lookup_alter_eq, Hq. split; [done|].
      apply (Hf c Hq). by apply (wok_conns _ _ _ _ Hw p c).
    + exists c. by rewrite lookup_alter_ne.
Qed.

(** The connection behind any pointer: a live one, or the zero value. *)
Lemma conn_of_closed K rb sq w p : wok K rb sq w ->
  ch_closed (cl_send (conn_of w p)) = cl_sendClosed (conn_of w p).
Proof.
  intros Hw. unfold conn_of. destruct (w_conns w !! p) as [c|] eqn:Hp; [|done].
  simpl. by apply cok_closed, (wok_conns _ _ _ _ Hw p c).
Qed.

Section prims.
Context {HP : kept_db P} (K : list (Z * Z)) (rb : Ring.EventRingBuffer) (sq : Z).
Let I := wok K rb sq.

(** Updates of other fields of the state. *)
Lemma wok_fields w w' : I w ->
  P (sys_db (w_sys w')) -> w_panic w' = w_panic w -> w_conns w' = w_conns w -> w_next w' = w_next w ->
  w_clients w' = w_clients w -> (length (w_broadcast w') <= broadcastBufSize)%nat ->
  w_replayBuf w' = w_replayBuf w -> w_seq w' = w_seq w -> I w'.
Proof.
  intros [Hd Hp Hc Hcl Hb Hk Hr Hs] H1 H2 H3 H4 H5 H6 H7 H8.
  split; rewrite ?H2, ?H3, ?H4, ?H5, ?H7, ?H8; done.
Qed.

Lemma ok_sys {A} (m : ST Sys A) : preserves P m -> stable I (sys m).
Proof. intros Hm w Hw. apply (wok_fields w); try done; apply Hw || by apply Hm, Hw. Qed.

Lemma ok_upd p f : (forall c, conn_ok c -> conn_ok (f c) /\ cl_userID (f c) = cl_userID c) ->
  stable I (upd p f).
Proof. intros Hf w Hw. apply wok_alter; [done|]. auto. Qed.

Lemma ok_send q msg : stable I (trySendMsg q msg).
Proof.
  intros w Hw. unfold trySendMsg, conn, gets, mbind, ST_bind. simpl.
  pose proof (conn_of_closed _ _ _ w q Hw) as Hcl. rewrite Hcl.
  destruct (cl_sendClosed (conn_of w q)) eqn:E; [done|]. simpl. apply wok_alter; [done|].
  intros c Hc [C1 C2 C3 C4]. unfold conn_of in E. rewrite Hc in E. simpl in E.
  unfold chan_send. destruct (Nat.ltb_spec (length (ch_buf (cl_send c))) sendBufSize); simpl; [|done].
  split; [|done]. split; simpl; try done. rewrite length_app. simpl. lia.
Qed.

Lemma ok_close p : stable I (closeSend p).
Proof.
  intros w Hw. unfold closeSend, conn, gets, mbind, ST_bind. simpl.
  rewrite (conn_of_closed _ _ _ w p Hw).
  destruct (cl_sendClosed (conn_of w p)); [done|]. simpl. apply wok_alter; [done|].
  intros c _ [C1 C2 C3 C4]. split; [|done]. by split.
Qed.

Lemma ok_broadcast c msg : stable I (BroadcastToChannel c msg).
Proof.
  intros w Hw. unfold BroadcastToChannel, gets, mbind, ST_bind, when. simpl.
  destruct (Nat.ltb_spec (length (w_broadcast w)) broadcastBufSize); [|done].
  apply (wok_fields w); try done; simpl; [apply Hw|]. rewrite length_app. simpl. lia.
Qed.

Lemma ok_clients w (m : gmap Z Z) : I w ->
  (forall uid q, m !! uid = Some q -> w_clients w !! uid = Some q \/
     exists c, w_conns w !! q = Some c /\ cl_userID c = uid) ->
  I (w_set_clients m w).
Proof.
  intros [Hd Hp Hc Hcl Hb Hk Hr Hs] Hm. split; simpl; try done.
  intros uid q Hq. apply Hm in Hq as [Hq|Hq]; [by apply Hcl|done].
Qed.

Lemma ok_drop p : stable I (drop_client p).
Proof.
  intros w Hw. unfold drop_client, lookup_client, conn, gets, mbind, ST_bind, when. simpl.
  case_bool_decide; [|done]. apply ok_clients; [done|]. intros uid q Hq.
  left. by apply lookup_delete_Some in Hq as [_ Hq].
Qed.

Lemma own_update_ok f c : own_update f -> conn_ok c -> conn_ok (f c) /\ cl_userID (f c) = cl_userID c.
Proof. intros Hf [C1 C2 C3 C4]. destruct Hf; (split; [|done]); split; simpl; done. Qed.

Lemma wok_handler p : handler_inv p (keeping P) own_update I.
Proof.
  split.
  - apply @ok_sys.
  - intros r w Hw. by apply (wok_fields w); try done; apply Hw.
  - apply ok_send.
  - apply ok_broadcast.
  - intros f Hf. apply ok_upd. intros c. by apply own_update_ok.
  - intros x w Hw. by apply (wok_fields w); try done; apply Hw.
  - intros x w Hw. by apply (wok_fields w); try done; apply Hw.
  - apply ok_drop.
  - apply ok_close.
Qed.

Lemma ok_count_message p : stable I (count_message p).
Proof.
  intros w Hw. unfold count_message, conn, gets, mbind, ST_bind. simpl.
  apply wok_alter; [done|]. intros c Hc [C1 C2 C3 C4]. split; [|done].
  unfold conn_of. rewrite Hc. simpl. split; simpl; try done.
  pose proof C3. unfold SessionCheckInterval in *.
  rewrite wrap_int64_small by (unfold is_int64, two63; lia).
  destruct (Z.leb_spec 10 (cl_msgCount c + 1)); lia.
Qed.

Lemma ok_receive san jwt p raw : stable I (receive san jwt p raw).
Proof. handler receive_stable with wok_handler. apply ok_count_message. Qed.

Lemma ok_wire p frame : stable I (conn_write p frame).
Proof.
  intros w Hw. unfold conn_write.
  destruct (w_wire_faults w) as [|[] fs]; simpl;
    try (by apply (wok_fields w); try done; apply Hw);
    (eapply (wok_fields (w_set_conns _ w)); [apply wok_alter; [exact Hw|]|..]; try done; simpl; try apply Hw);
    intros c _ [C1 C2 C3 C4]; (split; [|done]; by split).
Qed.

Lemma ok_pump p : stable I (pump p).
Proof.
  intros w Hw. unfold pump, conn, gets, mbind, ST_bind. simpl.
  destruct (ch_buf (cl_send (conn_of w p))) as [|frame rest] eqn:E; [done|]. simpl.
  apply ok_wire. apply wok_alter; [done|]. intros c Hc [C1 C2 C3 C4]. split; [|done].
  unfold conn_of in *. rewrite Hc in *. simpl in *. rewrite E in C2. simpl in C2.
  split; simpl; try done. lia.
Qed.

Lemma wok_process : process_inv (keeping P) I.
Proof.
  split.
  - apply keeping_reads.
  - intros A m. by apply keeping_writes.
  - apply wok_handler.
  - apply ok_wire.
  - apply ok_pump.
  - intros x w Hw. by apply (wok_fields w); try done; apply Hw.
  - intros x w Hw. by apply (wok_fields w); try done; apply Hw.
Qed.
End prims.

Context {HP : kept_db P}.

(** Registering a connection that exists. *)
Lemma ok_register K rb sq p u : (p, u) ∈ K -> stable (wok K rb sq) (registerNow p).
Proof.
  intros HK. unfold registerNow.
  apply (triple_bind _ _ _ (fun c w => wok K rb sq w /\ cl_userID c = u)).
  { intros w Hw. destruct (proj1 (Forall_forall _ _) (wok_known _ _ _ _ Hw) _ HK) as (c & Hc & Hu).
    simpl in *. unfold conn_of. rewrite Hc. done. }
  intros c w [Hw ->]. revert w Hw. apply stable_bind; [apply stable_gets|intros old].
  apply stable_bind; [destruct old; [eapply pr_take_over, wok_process|apply stable_ret]|intros _].
  apply stable_modify. intros w Hw. apply ok_clients; [done|]. intros uid q Hq.
  apply lookup_insert_Some in Hq as [[<- <-]|[_ Hq]]; [right|by left].
  exact (proj1 (Forall_forall _ _) (wok_known _ _ _ _ Hw) _ HK).
Qed.

(** The new connection is known from then on. *)
Lemma ok_newClient K rb sq u h :
  triple (wok K rb sq) (newClient u h) (fun p => wok ((p, u_id u) :: K) rb sq).
Proof.
  unfold newClient. eapply triple_bind; [eapply pr_now, wok_process|].
  intros t w [Hd Hp Hc Hcl Hb Hk Hr Hs]. simpl.
  assert (Hfresh : forall q c, w_conns w !! q = Some c -> q <> w_next w).
  { intros q c Hq. pose proof (proj1 (Hc q c Hq)). lia. }
  assert (Hsame : forall q c, w_conns w !! q = Some c ->
    <[w_next w := fresh_client u h t]> (w_conns w) !! q = Some c).
  { intros q c Hq. rewrite lookup_insert_ne; [done|]. apply not_eq_sym. by eapply Hfresh. }
  split; simpl; try done.
  - intros q c Hq. apply lookup_insert_Some in Hq as [[<- <-]|[Hne Hq]].
    + split; [lia|]. split; simpl; unfold SessionCheckInterval, sendBufSize; try done; try lia. by exists u.
    + destruct (Hc q c Hq). split; [lia|done].
  - intros uid q Hq. apply Hcl in Hq as (c & Hq & Hu). exists c. split; [by apply Hsame|done].
  - constructor; simpl.
    + exists (fresh_client u h t). by rewrite lookup_insert_eq.
    + eapply Forall_impl; [exact Hk|]. intros [q v] (c & Hq & Hv). exists c. split; [by apply Hsame|done].
Qed.

Lemma ok_upd_remote K rb sq p a : stable (wok K rb sq) (upd p (cl_set_remoteAddr a)).
Proof. apply ok_upd. intros c [C1 C2 C3 C4]. split; [|done]. by split. Qed.
Lemma ok_upd_role K rb sq p a : stable (wok K rb sq) (upd p (cl_set_roleName a)).
Proof. apply ok_upd. intros c [C1 C2 C3 C4]. split; [|done]. by split. Qed.

Lemma wok_forget x K rb sq w : wok (x :: K) rb sq w -> wok K rb sq w.
Proof. intros [Hd Hp Hc Hcl Hb Hk Hr Hs]. split; try done. by apply Forall_cons in Hk as [_ Hk]. Qed.

(** Reading the replay buffer does not panic. *)
Lemma ok_events K rb sq k : Ring.ring_ok rb -> stable (wok K rb sq) (events_since k).
Proof.
  intros Hrb w Hw. unfold events_since, gets, mbind, ST_bind. simpl.
  rewrite (wok_rb _ _ _ _ Hw), Ring.EventsSince_spec by done. done.
Qed.

Lemma ok_connect K rb sq raw addr : Ring.ring_ok rb -> stable (wok K rb sq) (ServeWS raw addr).
Proof.
  intros Hrb. apply (connect_stable (keeping P) _ (fun p w => exists u, wok ((p, u) :: K) rb sq w)).
  - apply wok_process.
  - intros p. refine (process_inv_ex (keeping P) _ _). intros u. apply wok_process.
  - intros u h w Hw. exists (u_id u). by apply ok_newClient.
  - intros p w [u Hw]. by eapply wok_forget.
  - intros p a w [u Hw]. exists u. by apply ok_upd_remote.
  - intros p a w [u Hw]. exists u. by apply ok_upd_role.
  - intros p w [u Hw]. exists u. apply (ok_register _ _ _ p u); [apply list_elem_of_here|done].
  - intros p k w [u Hw]. exists u. by apply ok_events.
Qed.

End database.
End WsOk.
Export WsOk.
