(* ===== verification/WsRun.v ===== *)
(** * Runs of the process

    Theorems about every sequence of events: safety, the frames that are broadcast
    and what the replay buffer answers after them. *)

From S2P Require Import Prelude Permissions RingBuffer RateLimiter GoText Wire Json GoTime Crypto Credentials Rows Store StoreInv StoreOk StoreThms Hub Chat Voice Serve WsInv WsOk.
#[local] Open Scope string_scope.
#[local] Open Scope Z_scope.

Module WsRun.

(** The process as it starts on a migrated database. *)
Definition start (faults : list bool) (now : Z) (ticks : list Z) (livekit : option string)
    (lkProcess : option bool) (wire_faults : list bool) : World :=
  NewHub (mkSys initial_db faults now ticks) livekit lkProcess wire_faults.

(** The frame the hub's loop sends at an event. *)
Definition dispatched (e : event) (w : World) : list string :=
  match e, w_broadcast w with
  | EvDispatch, bm :: _ => [wrapWithSeq (bm_msg bm) (wrap_uint64 (w_seq w + 1))]
  | _, _ => []
  end.

Section log.
Context (sanitize : string -> string) (to_jwt : Grant -> option string).

(** The frames broadcast during a run, in order. *)
Fixpoint broadcast_log (es : list event) (w : World) : list string :=
  match es with
  | [] => []
  | e :: es => (dispatched e w ++ broadcast_log es (run_event sanitize to_jwt e w).2)%list
  end.
End log.

(** The [i]-th frame, from 0, has the sequence number [i + 1]. *)
Definition numbered (L : list string) : list Ring.eventEntry :=
  imap (fun i f => Ring.mkEntry (wrap_uint64 (Z.of_nat i + 1)) f) L.

Definition seq_after (L : list string) : Z := wrap_uint64 (Z.of_nat (length L)).

Record ring_holds (L : list string) (rb : Ring.EventRingBuffer) : Prop := {
  rh_ok : Ring.ring_ok rb;
  rh_size : Ring.rb_size rb = replayBufSize;
  rh_contents : Ring.contents rb = lastn (Z.to_nat replayBufSize) (numbered L) }.

Definition hub_invp (P : Db -> Prop) (L : list string) (w : World) : Prop :=
  exists rb, ring_holds L rb /\ wokp P [] rb (seq_after L) w.
Notation hub_inv := (hub_invp db_ok).

Lemma numbered_snoc L f : numbered (L ++ [f]) = (numbered L ++ [Ring.mkEntry (seq_after (L ++ [f])) f])%list.
Proof.
  unfold numbered, seq_after. rewrite imap_app. simpl. rewrite length_app. simpl.
  do 3 f_equal. f_equal. lia.
Qed.

Lemma seq_after_snoc L f : seq_after (L ++ [f]) = wrap_uint64 (seq_after L + 1).
Proof.
  unfold seq_after, wrap_uint64. rewrite length_app. simpl.
  rewrite Zplus_mod_idemp_l. f_equal. lia.
Qed.

Section process.
Context {P : Db -> Prop} {HP : kept_db P}.
Notation wok := (wokp P).
Notation hub_inv := (hub_invp P).

(** Sending one broadcast. *)
Lemma deliver_inv K L rb bm w (f := wrapWithSeq (bm_msg bm) (seq_after (L ++ [""]))) :
  ring_holds L rb -> wok K rb (seq_after L) w ->
  exists rb', ring_holds (L ++ [f]) rb' /\ wok K rb' (seq_after (L ++ [f])) (deliverBroadcast bm w).2.
Proof.
  intros [Hok Hsz Hc] Hw.
  assert (Es : seq_after (L ++ [f]) = seq_after (L ++ [""])) by by rewrite !seq_after_snoc.
  unfold deliverBroadcast, nextSeq, mbind, ST_bind. cbn [fst snd].
  rewrite (wok_sq _ _ _ _ Hw), <- (seq_after_snoc L ""). fold f.
  unfold push_replay, gets, mbind, ST_bind. cbn [fst snd w_replayBuf w_set_seq].
  rewrite (wok_rb _ _ _ _ Hw).
  destruct (Ring.Push rb (seq_after (L ++ [""])) f) as [rb'|] eqn:Hpush;
    [|by rewrite Ring.Push_eq in Hpush].
  exists rb'. split.
  - split; [by eapply Ring.Push_ok| |].
    + rewrite Ring.Push_eq in Hpush by done. by injection Hpush as <-.
    + rewrite (Ring.Push_contents _ _ _ _ Hok Hpush), Hc, Hsz, lastn_app_lastn, numbered_snoc. by rewrite Es.
  - rewrite Es. apply (pr_fanout (keeping P) (wok K rb' (seq_after (L ++ [""])))); [apply wok_process|].
    destruct Hw as [Hd Hp Hco Hcl Hb Hk Hr Hs]. by split.
Qed.

Lemma dispatch_inv K L rb bm q w : w_broadcast w = bm :: q ->
  ring_holds L rb -> wok K rb (seq_after L) w ->
  let f := wrapWithSeq (bm_msg bm) (wrap_uint64 (w_seq w + 1)) in
  exists rb', ring_holds (L ++ [f]) rb' /\ wok K rb' (seq_after (L ++ [f])) (dispatch_broadcast w).2.
Proof.
  intros Hq Hrb Hw f. unfold dispatch_broadcast, gets, mbind, ST_bind. cbn [fst snd].
  rewrite Hq. cbn [fst snd].
  assert (Ef : f = wrapWithSeq (bm_msg bm) (seq_after (L ++ [""])))
    by (unfold f; by rewrite (wok_sq _ _ _ _ Hw), <- (seq_after_snoc L "")).
  rewrite Ef. apply (deliver_inv K L rb bm); [done|].
  eapply wok_fields; [exact Hw|..]; try done; simpl; [apply Hw|].
  pose proof (wok_bcast _ _ _ _ Hw) as Hb. rewrite Hq in Hb. simpl in Hb. lia.
Qed.

Section run.
Context (sanitize : string -> string) (to_jwt : Grant -> option string).
Local Notation run_event := (run_event sanitize to_jwt).
Local Notation run := (run sanitize to_jwt).

(** Every event but the hub's dispatch leaves the replay buffer alone. *)
Lemma other_event_stable K rb sq e : Ring.ring_ok rb -> e <> EvDispatch ->
  stable (wok K rb sq) (run_event e).
Proof.
  intros Hrb He. destruct e; simpl; try done.
  - apply stable_bind; [by apply ok_connect|intros ?; apply stable_ret].
  - apply ok_receive.
  - eapply pr_disconnect, wok_process.
  - apply wok_process.
  - eapply pr_sweep, wok_process.
  - eapply pr_retry, wok_process.
  - eapply pr_webhook, wok_process.
  - eapply pr_cleanup, wok_process.
  - apply (pi_handler _ _ (wok_process K rb sq) 0).
  - apply stable_bind; [eapply pr_SendToUser, wok_process|intros ?; apply stable_ret].
  - eapply pr_sys; [apply wok_process|apply kept_op].
  - eapply pr_stop, wok_process.
Qed.

Lemma run_event_inv L e w : hub_inv L w -> hub_inv (L ++ dispatched e w) (run_event e w).2.
Proof.
  intros (rb & Hrb & Hw). assert (e = EvDispatch \/ e <> EvDispatch) as [->|He]
    by (destruct e; first [by left|by right]).
  - simpl. destruct (w_broadcast w) as [|bm q] eqn:Hq.
    + rewrite app_nil_r. exists rb. split; [done|].
      unfold dispatch_broadcast, gets, mbind, ST_bind. simpl. by rewrite Hq.
    + by apply (dispatch_inv [] L rb bm q).
  - assert (dispatched e w = []) as -> by by destruct e.
    rewrite app_nil_r. exists rb. split; [done|].
    apply other_event_stable; [apply Hrb|done|done].
Qed.

Lemma run_inv L es w : hub_inv L w ->
  hub_inv (L ++ broadcast_log sanitize to_jwt es w) (run es w).2.
Proof.
  revert L w. induction es as [|e es IH]; intros L w Hw; simpl.
  - by rewrite app_nil_r.
  - rewrite app_assoc. apply IH, run_event_inv, Hw.
Qed.
End run.

(** A new hub, on whatever database it finds. *)
Lemma new_hub_inv s lk proc wf : P (sys_db s) -> hub_inv [] (NewHub s lk proc wf).
Proof.
  intros Hok. exists (Ring.NewEventRingBuffer replayBufSize). split.
  - split; [by apply Ring.new_ok|done|done].
  - unfold NewHub. eapply pr_refresh; [apply wok_process|]. split; simpl; try done.
    all: first [exact Hok | apply Nat.le_0_l | by apply Forall_nil].
Qed.

End process.

Lemma start_inv faults now ticks lk proc wf : hub_inv [] (start faults now ticks lk proc wf).
Proof. apply new_hub_inv, initial_db_ok. Qed.

(** ** What the buffer answers *)

Lemma numbered_lookup L i f : Z.of_nat (length L) < two64 -> L !! i = Some f ->
  numbered L !! i = Some (Ring.mkEntry (Z.of_nat i + 1) f).
Proof.
  intros HL Hi. unfold numbered. rewrite list_lookup_imap, Hi. simpl.
  pose proof (lookup_lt_Some _ _ _ Hi). rewrite wrap_uint64_small by lia. done.
Qed.

Lemma numbered_entry L i e : Z.of_nat (length L) < two64 -> numbered L !! i = Some e ->
  Ring.e_seq e = Z.of_nat i + 1.
Proof.
  intros HL Hi. unfold numbered in Hi. rewrite list_lookup_imap in Hi.
  destruct (L !! i) as [f|] eqn:Hf; [|done]. simpl in Hi. injection Hi as <-. simpl.
  pose proof (lookup_lt_Some _ _ _ Hf). apply wrap_uint64_small. lia.
Qed.

Lemma length_numbered L : length (numbered L) = length L.
Proof. apply length_imap. Qed.

Lemma data_numbered L : Ring.e_data <$> numbered L = L.
Proof.
  unfold numbered. rewrite fmap_imap. apply list_eq. intros i.
  rewrite list_lookup_imap. by destruct (L !! i).
Qed.

Lemma filter_all_true {A} (p : A -> bool) l : (forall x, x ∈ l -> p x = true) -> List.filter p l = l.
Proof.
  induction l as [|x l IH]; simpl; intros H; [done|].
  rewrite (H x (list_elem_of_here _ _)). f_equal. apply IH. intros y Hy. by apply H, list_elem_of_further.
Qed.

(** The entries after [k], among those from position [j <= k] on. *)
Lemma filter_numbered L j k : Z.of_nat (length L) < two64 -> (j <= k)%nat ->
  List.filter (fun e => Z.of_nat k <? Ring.e_seq e) (drop j (numbered L)) = drop k (numbered L).
Proof.
  intros HL Hjk. rewrite <- (take_drop (k - j) (drop j (numbered L))), List.filter_app, drop_drop.
  replace (j + (k - j))%nat with k by lia.
  rewrite (Ring.filter_all_false _ (take _ _)), (filter_all_true _ (drop k _)); [done|..].
  - intros e He. apply list_elem_of_lookup in He as [i Hi]. rewrite lookup_drop in Hi.
    apply Z.ltb_lt. rewrite (numbered_entry L _ e HL Hi). lia.
  - intros e He. apply list_elem_of_lookup in He as [i Hi].
    apply lookup_take_Some in Hi as [Hi Hlt]. rewrite lookup_drop in Hi.
    apply Z.ltb_ge. rewrite (numbered_entry L _ e HL Hi). lia.
Qed.

Lemma holds_events L rb (k : nat) : Z.of_nat (length L) < two64 -> ring_holds L rb ->
  Ring.EventsSince rb (Z.of_nat k) = Some (
    if Z.of_nat k <? Z.max 1 (Z.of_nat (length L) - 999) then None else Ring.go_slice (drop k L)).
Proof.
  intros HL [Hok Hsz Hc]. rewrite Ring.EventsSince_spec by done. rewrite Hc. f_equal.
  unfold lastn. rewrite length_numbered. set (j := (length L - Z.to_nat replayBufSize)%nat).
  assert (Hj : (j = 0 /\ length L <= 1000)%nat \/ Z.of_nat j = Z.of_nat (length L) - 1000)
    by (unfold j, replayBufSize; lia).
  destruct (drop j (numbered L)) as [|o l] eqn:E.
  - apply (f_equal length) in E. rewrite length_drop, length_numbered in E. simpl in E.
    assert (length L = 0)%nat by lia. rewrite drop_ge by lia. by destruct (_ <? _).
  - assert (Ho : numbered L !! j = Some o) by by rewrite <- (Nat.add_0_r j), <- lookup_drop, E.
    rewrite (numbered_entry _ _ _ HL Ho).
    assert (Hmax : Z.max 1 (Z.of_nat (length L) - 999) = Z.of_nat j + 1) by lia. rewrite Hmax.
    destruct (Z.ltb_spec (Z.of_nat k) (Z.of_nat j + 1)); [done|].
    rewrite <- E, filter_numbered by lia. by rewrite fmap_drop, data_numbered.
Qed.

End WsRun.
Export WsRun.

(** Safety of every run. Whatever the clients send, whatever the other
    parts of the server do to the database and the hub, in whatever order the
    goroutines run, and whichever database statements and socket writes fail:
    no goroutine panics (no send on a closed channel, no double close, no index
    out of range), the database keeps its integrity, a connection's closed flag
    agrees with its channel and its queue stays within its capacity, and every
    entry of the hub's map points to a connection of that user. *)
Theorem process_safe sanitize to_jwt es faults now ticks lk proc wf :
  let w := (run sanitize to_jwt es (start faults now ticks lk proc wf)).2 in
  wok [] (w_replayBuf w) (w_seq w) w.
Proof.
  intros w. destruct (run_inv sanitize to_jwt [] es _ (start_inv faults now ticks lk proc wf))
    as (rb & _ & Hw). unfold w. by rewrite (wok_rb _ _ _ _ Hw), (wok_sq _ _ _ _ Hw).
Qed.
