(* ===== verification/Replay.v ===== *)
(** * What a reconnecting client is sent

    The frames that the handshake writes to the socket of a new connection
    ([serve_user]): the greeting and either the broadcasts the client has missed,
    when the replay buffer still holds them, or the full payload. *)

From S2P Require Import Prelude Permissions RingBuffer RateLimiter GoText Wire Json GoTime Crypto Credentials Rows Store StoreInv StoreOk StoreThms Hub Chat Voice Serve WsInv WsOk WsRun.
#[local] Open Scope string_scope.
#[local] Open Scope Z_scope.

Module Replay.

(** ** The socket of one connection *)

Section socket.
Context (p : Z) (rb : Ring.EventRingBuffer).

(** What was written to the socket of [p]; the replay buffer is [rb]. *)
Definition written (l : list string) (w : World) : Prop :=
  (exists c, w_conns w !! p = Some c /\ cl_wire c = l) /\ w_replayBuf w = rb.

Lemma written_fields l w w' : written l w -> w_conns w' = w_conns w -> w_replayBuf w' = w_replayBuf w -> written l w'.
Proof. intros [(c & Hc & Hl) Hr] E1 E2. split; [exists c; by rewrite E1|by rewrite E2]. Qed.

Lemma written_alter l q f w : (forall c, cl_wire (f c) = cl_wire c) -> written l w ->
  written l (w_set_conns (alter f q (w_conns w)) w).
Proof.
  intros Hf [(c & Hc & Hl) Hr]. split; [|done]. simpl. destruct (decide (q = p)) as [->|Hne].
  - exists (f c). rewrite lookup_alter_eq, Hc. split; [done|]. by rewrite Hf.
  - exists c. by rewrite lookup_alter_ne.
Qed.

Lemma written_upd l q f : (forall c, cl_wire (f c) = cl_wire c) -> stable (written l) (upd q f).
Proof. intros Hf w Hw. by apply written_alter. Qed.
Lemma written_sys l {A} (m : ST Sys A) : stable (written l) (sys m).
Proof. intros w Hw. by apply (written_fields l w). Qed.
Lemma written_broadcast l c msg : stable (written l) (BroadcastToChannel c msg).
Proof.
  intros w Hw. unfold BroadcastToChannel, gets, mbind, ST_bind, when. simpl.
  destruct (_ <? _)%nat; [by apply (written_fields l w)|done].
Qed.
Lemma written_close l q : stable (written l) (closeSend q).
Proof.
  intros w Hw. unfold closeSend, conn, gets, mbind, ST_bind. simpl.
  destruct (cl_sendClosed _); [done|]. destruct (ch_closed _); [by apply (written_fields l w)|].
  by apply written_alter.
Qed.
Lemma written_all l msg : stable (written l) (BroadcastToAll msg).
Proof. apply written_broadcast. Qed.

Lemma written_register l q : stable (written l) (registerNow q).
Proof.
  unfold registerNow. apply stable_bind; [apply stable_gets|intros c].
  apply stable_bind; [apply stable_gets|intros [o|]].
  - apply stable_bind; [|intros _; apply stable_modify; intros w Hw; by apply (written_fields l w)].
    unfold take_over, clearVoiceChID, getVoiceChID, setVoiceChID.
    apply stable_bind; [apply stable_bind; [apply stable_bind; [apply stable_gets|intros; apply stable_ret]|]|].
    { intros old. apply stable_bind; [by apply written_upd|intros; apply stable_ret]. }
    intros old. apply stable_bind; [apply stable_bind; [apply stable_gets|intros; apply stable_ret]|intros v].
    apply stable_bind; [unfold when; destruct (v =? 0); [by apply written_upd|apply stable_ret]|intros _].
    apply written_close.
  - apply stable_bind; [apply stable_ret|]. intros _. apply stable_modify. intros w Hw. by apply (written_fields l w).
Qed.

Lemma written_online l u : stable (written l) (set_online u).
Proof. apply stable_bind; [apply written_sys|intros; apply stable_ret]. Qed.
Lemma written_role l u : stable (written l) (role_name u).
Proof. apply stable_bind; [apply written_sys|intros; apply stable_ret]. Qed.
#[local] Hint Resolve written_sys written_broadcast written_all written_close written_register written_online written_role : ws_db.

Lemma written_cached l : stable (written l) getCachedSettings.
Proof.
  unfold getCachedSettings, refreshSettingsLocked, now.
  repeat (walk_step || apply stable_gets || solve [auto with ws_db nocore]);
    apply stable_modify; intros w Hw; by apply (written_fields l w).
Qed.
#[local] Hint Resolve written_cached : ws_db.
Lemma written_auth_ok l u r : stable (written l) (buildAuthOK u r).
Proof. unfold buildAuthOK. apply stable_bind; [apply written_cached|intros; apply stable_ret]. Qed.
Lemma written_ready l u : stable (written l) (buildReady u).
Proof. unfold buildReady. repeat (walk_step || apply stable_gets || solve [auto with ws_db nocore]). Qed.

(** A write adds the frame, or fails. *)
Lemma written_frame l f : triple (written l) (conn_write p f) (fun ok => written (if ok then l ++ [f] else l)%list).
Proof.
  intros w Hw. unfold conn_write.
  assert (Hadd : written (l ++ [f])%list (w_set_conns (alter (fun c => cl_set_wire (cl_wire c ++ [f])%list c) p (w_conns w)) w)).
  { destruct Hw as [(c & Hc & Hl) Hr]. split; [|done]. eexists. simpl. rewrite lookup_alter_eq, Hc.
    split; [done|]. simpl. by rewrite Hl. }
  destruct (w_wire_faults w) as [|[] fs]; simpl.
  - by apply (written_fields _ _ _ Hadd).
  - by apply (written_fields _ w).
  - by apply (written_fields _ _ _ Hadd).
Qed.

Lemma written_frames fs l : triple (written l) (write_all p fs) (fun ok w => exists n,
  written (l ++ take n fs)%list w /\ (ok = true -> take n fs = fs)).
Proof.
  revert l. induction fs as [|f fs IH]; intros l.
  - intros w Hw. exists 0%nat. simpl. by rewrite app_nil_r.
  - cbn [write_all]. eapply triple_bind; [apply written_frame|]. intros [|].
    + intros w Hw. destruct (IH _ w Hw) as (n & Hn & Hok). exists (S n). cbn [take].
      rewrite <- app_assoc in Hn. split; [exact Hn|]. intros H. by rewrite Hok.
    + intros w Hw. exists 0%nat. cbn [take]. by rewrite app_nil_r.
Qed.

(** *** The two ways to begin *)

(** The first frame, whatever the settings say. *)
Definition greeting (u : User) (f : string) : Prop := exists role w, f = (buildAuthOK u role w).1.
(** The full payload, or the error that stands for it. *)
Definition full_payload (u : User) (f : string) : Prop :=
  (exists w, (buildReady (u_id u) w).1 = Some f) \/ f = buildErrorMsg ErrCodeInternal "failed to build ready payload".

(** The wire of [p] is the beginning of [frames], all of them when it started. *)
Definition began (frames : list string) (started : bool) (w : World) : Prop :=
  exists n, written (take n frames) w /\ (started = true -> take n frames = frames).

Lemma began_all frames (m : M bool) : stable (written frames) m -> triple (written frames) m (began frames).
Proof. intros Hm w Hw. exists (length frames). rewrite take_ge by lia. split; [by apply Hm|done]. Qed.

Lemma wire_greeting l u role : triple (written l) (buildAuthOK u role) (fun hello w => written l w /\ greeting u hello).
Proof. intros w Hw. split; [by apply written_auth_ok|by exists role, w]. Qed.

Lemma resume_wire u role evs : triple (written []) (resume_session p u role evs) (fun ok w =>
  exists hello, greeting u hello /\ began (hello :: evs) ok w).
Proof.
  eapply triple_bind; [apply wire_greeting|]. intros hello. apply triple_pure. intros Hg.
  apply (triple_bind _ _ _ (fun ok w => began (hello :: evs) ok w)); [apply (written_frames (hello :: evs) [])|].
  intros [|] w (n & Hn & Hok); exists hello; (split; [done|]); [|by exists n].
  rewrite Hok in Hn by done. cbn [negb]. revert w Hn. apply began_all.
  repeat (walk_step || solve [auto with ws_db nocore]).
Qed.

(** The rest of a fresh session writes nothing of its own. *)
Lemma fresh_rest l u role : stable (written l) (
  _ ← registerNow p; _ ← set_online u;
  _ ← BroadcastToAll (buildMemberJoin (u_id u) (u_username u) (u_avatar u) role);
  _ ← BroadcastToAll (buildPresenceMsg (u_id u) "online");
  mret true).
Proof. repeat (walk_step || solve [auto with ws_db nocore]). Qed.

Definition fresh_frames (u : User) (w : World) : Prop :=
  exists hello payload n, greeting u hello /\ full_payload u payload /\ written (take n [hello; payload]) w.

Lemma fresh_frames_none u hello w : greeting u hello -> written [] w -> fresh_frames u w.
Proof. intros Hg Hw. eexists hello, _, 0%nat. split; [done|]. by split; [right|]. Qed.
Lemma fresh_frames_one u hello w : greeting u hello -> written [hello] w -> fresh_frames u w.
Proof. intros Hg Hw. eexists hello, _, 1%nat. split; [done|]. by split; [right|]. Qed.
Lemma fresh_frames_two u hello f w : greeting u hello -> full_payload u f -> written [hello; f] w -> fresh_frames u w.
Proof. intros Hg Hf Hw. by exists hello, f, 2%nat. Qed.

Lemma fresh_wire u role : triple (written []) (fresh_session p u role) (fun _ => fresh_frames u).
Proof.
  eapply triple_bind; [apply wire_greeting|]. intros hello. apply triple_pure. intros Hg.
  eapply triple_bind; [apply written_frame|]. intros [|]; cbn [negb app]; [|intros w Hw; by eapply fresh_frames_none].
  apply (triple_bind _ _ _ (fun r w => written [hello] w /\
    (forall f, r = Some f -> full_payload u f))).
  { intros w Hw. split; [by apply written_ready|]. intros f Hf. left. by exists w. }
  intros ready. apply triple_pure. intros Hr. destruct ready as [f|].
  - eapply triple_bind; [apply written_frame|]. intros [|]; cbn [negb app]; [|intros w Hw; by eapply fresh_frames_one].
    intros w Hw. eapply fresh_frames_two; [done|by apply Hr|]. by apply fresh_rest.
  - apply (triple_bind _ _ _ (fun ok w => ok = true /\ exists l, written l w /\ (forall w', written l w' -> fresh_frames u w'))).
    + eapply triple_bind; [apply written_frame|]. intros [|] w Hw; (split; [done|]); eexists; (split; [exact Hw|]); intros w' Hw'.
      * by eapply fresh_frames_two; [|right|].
      * by eapply fresh_frames_one.
    + intros ok w [-> (l & Hw & Hl)]. cbn [negb]. by apply Hl, fresh_rest.
Qed.

(** ** The connection from its creation on *)

(** Setting it up writes nothing. *)
Lemma new_written u h :
  triple (fun w => w_replayBuf w = rb /\ w_next w = p) (newClient u h) (fun q w => q = p /\ written [] w).
Proof.
  intros w [Hr Hp]. unfold newClient, now, sys, step, mbind, ST_bind. cbn. split; [exact Hp|].
  split; [|exact Hr]. eexists. cbn. rewrite Hp, lookup_insert_eq. by split.
Qed.
End socket.

(** What the handshake writes, when the buffer answers [answer]. *)
Definition handshake (p : Z) (rb : Ring.EventRingBuffer) (u : User) (answer : option (list string))
    (started : option Z) (w : World) : Prop :=
  match answer with
  | Some events => exists hello, greeting u hello /\ began p rb (hello :: events) (bool_decide (started = Some p)) w
  | None => fresh_frames p rb u w
  end.

Lemma began_started p rb frames (ok : bool) w : began p rb frames ok w ->
  began p rb frames (bool_decide ((if ok then Some p else None) = Some p)) w.
Proof.
  intros (n & Hn & Hok). exists n. split; [done|]. intros H. apply Hok.
  apply bool_decide_eq_true_1 in H. by destruct ok.
Qed.

Lemma serve_user_wire p rb u h k addr answer : Ring.EventsSince rb k = Some answer ->
  triple (fun w => w_replayBuf w = rb /\ w_next w = p) (serve_user u h k addr)
    (handshake p rb u (if 0 <? k then answer else None)).
Proof.
  intros Hk. unfold serve_user. eapply triple_bind; [apply new_written|]. intros q w [-> Hw]. revert w Hw.
  apply (triple_bind _ _ _ (fun _ => written p rb [])); [by apply written_upd|intros _].
  apply (triple_bind _ _ _ (fun _ => written p rb [])); [apply written_role|intros role].
  apply (triple_bind _ _ _ (fun _ => written p rb [])); [by apply written_upd|intros _].
  apply (triple_bind _ _ _ (fun _ => written p rb [])); [apply written_sys|intros _].
  apply (triple_bind _ _ _ (fun r w => written p rb [] w /\ r = if 0 <? k then answer else None)).
  { intros w Hw. destruct (0 <? k); [|done]. unfold events_since, gets, mbind, ST_bind. cbn [fst snd].
    by rewrite (proj2 Hw), Hk. }
  intros r. apply triple_pure. intros ->. destruct (if 0 <? k then answer else None) as [events|].
  - eapply triple_bind; [apply resume_wire|]. intros ok w (hello & Hg & Hb). exists hello.
    split; [done|]. by apply began_started.
  - eapply triple_bind; [apply fresh_wire|]. by intros ok w Hw.
Qed.

(** A client that has seen [k] of [n] broadcasts can be caught up: the [k]-th is
    among the last thousand, and not the last. *)
Definition caught_up (k n : nat) : bool :=
  (1 <=? Z.of_nat k) && (Z.of_nat n - 999 <=? Z.of_nat k) && (Z.of_nat k <? Z.of_nat n).

Lemma caught_up_answer k (L : list string) : (if 0 <? Z.of_nat k
    then (if Z.of_nat k <? Z.max 1 (Z.of_nat (length L) - 999) then None else Ring.go_slice (drop k L)) else None) =
  if caught_up k (length L) then Some (drop k L) else None.
Proof.
  unfold caught_up. destruct (Z.leb_spec 1 (Z.of_nat k)); simpl.
  2: { destruct (Z.ltb_spec 0 (Z.of_nat k)); [lia|done]. }
  destruct (Z.ltb_spec 0 (Z.of_nat k)); [|lia].
  destruct (Z.leb_spec (Z.of_nat (length L) - 999) (Z.of_nat k)); simpl.
  2: { destruct (Z.ltb_spec (Z.of_nat k) (Z.max 1 (Z.of_nat (length L) - 999))); [done|lia]. }
  destruct (Z.ltb_spec (Z.of_nat k) (Z.max 1 (Z.of_nat (length L) - 999))); [lia|].
  destruct (Z.ltb_spec (Z.of_nat k) (Z.of_nat (length L))).
  - destruct (drop k L) as [|f fs] eqn:E; [|done]. apply (f_equal length) in E. rewrite length_drop in E. simpl in E. lia.
  - by rewrite drop_ge by lia.
Qed.

End Replay.
Export Replay.

(** C22: the replay at a reconnection. After any run of the process, in which [L]
    was broadcast, a client whose last sequence number is [k] is answered as
    follows. When broadcast [k] is one of the last thousand and not the very last,
    its new connection is sent the greeting and then the broadcasts after the
    [k]-th, in their order and with their numbers: all of them when the connection
    starts, the first of them when a write to its socket fails. In every other case
    (a new client with [k] = 0, one that has missed nothing, one that has missed a
    thousand or more) it is sent the greeting and the full payload. The handshake
    is one step here: what is broadcast between the reading of the buffer and the
    registration of the connection is in neither
    ([Cases.broadcast_lost_in_handshake]). *)
Theorem replay_exact sanitize to_jwt es faults now ticks lk proc wf (k : nat) user hash addr
    (Hlen : Z.of_nat (length (broadcast_log sanitize to_jwt es (start faults now ticks lk proc wf))) < two64) :
  let w0 := start faults now ticks lk proc wf in
  let w := (run sanitize to_jwt es w0).2 in
  let L := broadcast_log sanitize to_jwt es w0 in
  let '(started, w') := serve_user user hash (Z.of_nat k) addr w in
  let sent := cl_wire (conn_of w' (w_next w)) in
  if caught_up k (length L) then
    exists hello n, greeting user hello /\ sent = take n (hello :: drop k L) /\
      (started = Some (w_next w) -> sent = hello :: drop k L)
  else exists hello payload n, greeting user hello /\ full_payload user payload /\ sent = take n [hello; payload].
Proof.
  intros w0 w L. destruct (run_inv sanitize to_jwt [] es _ (start_inv faults now ticks lk proc wf))
    as (rb & Hrb & Hw). fold w0 w L in Hrb, Hw, Hlen.
  pose proof (serve_user_wire (w_next w) rb user hash (Z.of_nat k) addr _ (holds_events L rb k Hlen Hrb)) as H.
  specialize (H w (conj (wok_rb _ _ _ _ Hw) eq_refl)). rewrite caught_up_answer in H. rewrite app_nil_l in *.
  destruct (serve_user user hash (Z.of_nat k) addr w) as [started w']. cbn [fst snd] in H. cbv zeta.
  assert (Hsent : forall l, written (w_next w) rb l w' -> cl_wire (conn_of w' (w_next w)) = l).
  { intros l [(c & Hc & <-) _]. unfold conn_of. by rewrite Hc. }
  destruct (caught_up k (length L)).
  - destruct H as (hello & Hg & n & Hn & Hall). apply Hsent in Hn. exists hello, n. split; [done|]. split; [done|].
    intros E. rewrite Hn. by apply Hall, bool_decide_eq_true_2.
  - destruct H as (hello & payload & n & Hg & Hp & Hn). exists hello, payload, n. auto.
Qed.

(** Two broadcasts; a client that has seen the first is sent the second. *)
Lemma replay_exact_witness :
  let w0 := start [] 0 [] None None [] in
  let es := [EvBroadcast 0 "{a}"; EvBroadcast 0 "{b}"; EvDispatch; EvDispatch] in
  let id := fun s : string => s in
  let no_token := fun _ : Grant => None in
  let w := (run id no_token es w0).2 in
  let user := mkUser 1 "ann" "" None 4 None "offline" "" None false None None in
  Z.of_nat (length (broadcast_log id no_token es w0)) < two64 /\
  exists hello, greeting user hello /\
    cl_wire (conn_of (serve_user user "h" 1 "a" w).2 (w_next w)) = [hello; wrapWithSeq "{b}" 2].
Proof.
  intros w0 es id no_token w user.
  assert (Hlen : Z.of_nat (length (broadcast_log id no_token es w0)) < two64)
    by (vm_compute; reflexivity).
  split; [exact Hlen|].
  pose proof (replay_exact id no_token es [] 0 [] None None [] 1 user "h" "a" Hlen) as H. cbv zeta in H.
  fold w0 w in H. change (Z.of_nat 1) with 1 in H.
  assert (Hst : (serve_user user "h" 1 "a" w).1 = Some (w_next w)) by (vm_compute; reflexivity).
  assert (Hc : caught_up 1 (length (broadcast_log id no_token es w0)) = true) by (vm_compute; reflexivity).
  assert (Hd : drop 1 (broadcast_log id no_token es w0) = [wrapWithSeq "{b}" 2]) by (vm_compute; reflexivity).
  rewrite Hc, Hd in H. destruct (serve_user user "h" 1 "a" w) as [started w']. cbn [fst snd] in *.
  destruct H as (hello & n & Hg & _ & H). exists hello. split; [exact Hg|]. by apply H.
Defined.
