(* ===== verification/HubRun.v ===== *)
(** * The loop of the hub

    Model of [Run], [Stop], [Register], [Unregister] of Server/ws/hub.go: the
    [select] over the stop signal, the queues and the ticker, with the recovery
    from panics and its budget, and the other goroutines between its turns. The
    loop refines the process of Serve.v, and no handler it calls can panic. *)

From S2P Require Import Prelude Permissions RingBuffer RateLimiter GoText Wire Json GoTime Crypto Credentials Rows Store StoreInv StoreOk StoreThms Hub Chat Voice Serve WsInv WsOk WsRun.
#[local] Open Scope string_scope.
#[local] Open Scope Z_scope.

Module HubRun.

Definition registerBufSize : nat := 32.
Definition panicWindow : Z := 60 * Second.
Definition maxPanics : Z := 3.

(** The channels of the hub next to the process state, the variables of [Run],
    and whether [Run] has returned. [lp_tick]: a tick waits in the ticker's
    channel, which holds one. *)
Record Loop := mkLoop {
  lp_world : World;
  lp_register : list Z;
  lp_unregister : list Z;
  lp_tick : bool;
  lp_stop : bool;
  lp_stopOnce : bool;
  lp_panicCount : Z;
  lp_lastPanicReset : option Z;
  lp_returned : bool }.

Definition lp_set_world (w : World) (l : Loop) : Loop :=
  mkLoop w (lp_register l) (lp_unregister l) (lp_tick l) (lp_stop l) (lp_stopOnce l)
    (lp_panicCount l) (lp_lastPanicReset l) (lp_returned l).
Definition lp_set_register (q : list Z) (l : Loop) : Loop :=
  mkLoop (lp_world l) q (lp_unregister l) (lp_tick l) (lp_stop l) (lp_stopOnce l)
    (lp_panicCount l) (lp_lastPanicReset l) (lp_returned l).
Definition lp_set_unregister (q : list Z) (l : Loop) : Loop :=
  mkLoop (lp_world l) (lp_register l) q (lp_tick l) (lp_stop l) (lp_stopOnce l)
    (lp_panicCount l) (lp_lastPanicReset l) (lp_returned l).
Definition lp_set_tick (b : bool) (l : Loop) : Loop :=
  mkLoop (lp_world l) (lp_register l) (lp_unregister l) b (lp_stop l) (lp_stopOnce l)
    (lp_panicCount l) (lp_lastPanicReset l) (lp_returned l).
Definition lp_set_stop (stop once : bool) (l : Loop) : Loop :=
  mkLoop (lp_world l) (lp_register l) (lp_unregister l) (lp_tick l) stop once
    (lp_panicCount l) (lp_lastPanicReset l) (lp_returned l).
Definition lp_set_panics (n : Z) (reset : option Z) (l : Loop) : Loop :=
  mkLoop (lp_world l) (lp_register l) (lp_unregister l) (lp_tick l) (lp_stop l) (lp_stopOnce l)
    n reset (lp_returned l).
Definition lp_return (l : Loop) : Loop :=
  mkLoop (lp_world l) (lp_register l) (lp_unregister l) (lp_tick l) (lp_stop l) (lp_stopOnce l)
    (lp_panicCount l) (lp_lastPanicReset l) true.

(** The hub [NewRouter] starts the loop of. *)
Definition new_loop (w : World) : Loop := mkLoop w [] [] false false false 0 None false.

(** ** The loop *)

(** The cases of the [select]. *)
Inductive pick := PickStop | PickRegister | PickUnregister | PickBroadcast | PickTick.

(** A case can be taken: its channel holds a value, or is closed. *)
Definition ready (k : pick) (l : Loop) : bool :=
  match k with
  | PickStop => lp_stop l
  | PickRegister => negb (bool_decide (lp_register l = []))
  | PickUnregister => negb (bool_decide (lp_unregister l = []))
  | PickBroadcast => (0 <? length (w_broadcast (lp_world l)))%nat
  | PickTick => lp_tick l
  end.

(** The bookkeeping of the deferred function after a panic at [now]. *)
Definition count_panic (now : Z) (panicCount : Z) (lastPanicReset : option Z) : Z * option Z :=
  let '(panicCount, lastPanicReset) :=
    match lastPanicReset with
    | Some t => if panicWindow <? now - t then (0, Some now) else (panicCount, Some t)
    | None => (0, Some now)
    end in
  (panicCount + 1, lastPanicReset).

(** What [Run] does when the inner function returns, normally or after a
    recovered panic; a new inner function has a new ticker. *)
Definition after_inner (l : Loop) : Loop :=
  if maxPanics <=? lp_panicCount l then lp_return l
  else if lp_stop l then lp_return l
  else lp_set_tick false l.

Definition recovered (l : Loop) : Loop :=
  let '(now, w) := now (w_set_panic false (lp_world l)) in
  let '(n, reset) := count_panic now (lp_panicCount l) (lp_lastPanicReset l) in
  after_inner (lp_set_panics n reset (lp_set_world w l)).

(** A case of the [select] handles its value. *)
Definition handled (m : M unit) (l : Loop) : Loop :=
  let l := lp_set_world (m (lp_world l)).2 l in
  if w_panic (lp_world l) then recovered l else l.

(** One turn with the case the runtime picks; the [select] blocks on a case
    that is not ready. *)
Definition turn (k : pick) (l : Loop) : Loop :=
  if lp_returned l || negb (ready k l) then l else
  match k with
  | PickStop => after_inner l
  | PickRegister =>
      match lp_register l with
      | [] => l
      | p :: q => handled (registerNow p) (lp_set_register q l)
      end
  | PickUnregister =>
      match lp_unregister l with
      | [] => l
      | p :: q => handled (unregisterNow p) (lp_set_unregister q l)
      end
  | PickBroadcast => handled dispatch_broadcast l
  | PickTick => handled sweepStaleClients (lp_set_tick false l)
  end.

(** ** The other goroutines *)

(** Sends that block while the channel is full; there is no pointer to a
    connection that was never made. *)
Definition Register (p : Z) (l : Loop) : Loop :=
  if bool_decide (is_Some (w_conns (lp_world l) !! p)) && (length (lp_register l) <? registerBufSize)%nat
  then lp_set_register (lp_register l ++ [p]) l else l.
Definition Unregister (p : Z) (l : Loop) : Loop :=
  if bool_decide (is_Some (w_conns (lp_world l) !! p)) && (length (lp_unregister l) <? registerBufSize)%nat
  then lp_set_unregister (lp_unregister l ++ [p]) l else l.

(** [close(h.stop)] panics on a closed channel. *)
Definition close_stop (l : Loop) : Loop :=
  if lp_stop l then lp_set_world (w_set_panic true (lp_world l)) l else lp_set_stop true (lp_stopOnce l) l.
Definition Stop (l : Loop) : Loop :=
  if lp_stopOnce l then l else close_stop (lp_set_stop (lp_stop l) true l).

(** The dispatch of broadcasts and the sweep are the loop's own, the shutdown
    ends with [Stop]. *)
Definition outside (e : event) : bool :=
  match e with EvDispatch | EvSweep | EvShutdown => false | _ => true end.

Inductive loop_event :=
| LpTurn (k : pick)
| LpOther (e : event)
| LpRegister (p : Z)
| LpUnregister (p : Z)
| LpTick
| LpStop
| LpGracefulStop.

Section loop.
Context (sanitize : string -> string) (to_jwt : Grant -> option string).
Local Notation run_event := (run_event sanitize to_jwt).

Definition other (e : event) (l : Loop) : Loop := lp_set_world (run_event e (lp_world l)).2 l.

Definition loop_step (e : loop_event) (l : Loop) : Loop :=
  match e with
  | LpTurn k => turn k l
  | LpOther e => if outside e then other e l else l
  | LpRegister p => Register p l
  | LpUnregister p => Unregister p l
  | LpTick => lp_set_tick true l
  | LpStop => Stop l
  | LpGracefulStop => Stop (other EvShutdown l)
  end.

Definition run_loop (es : list loop_event) (l : Loop) : Loop := fold_left (fun l e => loop_step e l) es l.

(** What a step does to the process, as an event of Serve.v. *)
Definition traced (e : loop_event) (l : Loop) : list event :=
  match e with
  | LpTurn PickBroadcast => if negb (lp_returned l) && ready PickBroadcast l then [EvDispatch] else []
  | LpTurn PickTick => if negb (lp_returned l) && ready PickTick l then [EvSweep] else []
  | LpOther e => if outside e then [e] else []
  | LpGracefulStop => [EvShutdown]
  | _ => []
  end.

Fixpoint hub_trace (es : list loop_event) (l : Loop) : list event :=
  match es with
  | [] => []
  | e :: es => (traced e l ++ hub_trace es (loop_step e l))%list
  end.
End loop.

(** The server registers connections directly ([registerNow], from [ServeWS]);
    the two queues serve callers outside it. *)
Definition queueless (e : loop_event) : bool :=
  match e with LpRegister _ | LpUnregister _ => false | _ => true end.

(** ** The budget of panics *)

(** The variables of [Run] after panics at the given times; [None]: it
    returned. *)
Fixpoint supervise (ts : list Z) (panicCount : Z) (lastPanicReset : option Z) : option (Z * option Z) :=
  match ts with
  | [] => Some (panicCount, lastPanicReset)
  | t :: ts =>
      let '(n, reset) := count_panic t panicCount lastPanicReset in
      if maxPanics <=? n then None else supervise ts n reset
  end.

Lemma count_in_window t n a : t - a <= panicWindow -> count_panic t n (Some a) = (n + 1, Some a).
Proof. intros H. unfold count_panic. by rewrite (proj2 (Z.ltb_ge _ _) H). Qed.

Lemma supervise_app ts us n r :
  supervise (ts ++ us) n r = '(n, r) ← supervise ts n r; supervise us n r.
Proof.
  revert n r. induction ts as [|t ts IH]; intros n r; [done|]. simpl.
  destruct (count_panic t n r) as [n' r']. destruct (_ <=? _); [done|]. apply IH.
Qed.

(** The window in force: it starts at a panic, and at most one more fell in it. *)
Definition window (ts : list Z) (n : Z) (r : option Z) : Prop :=
  (ts = [] /\ n = 0 /\ r = None) \/
  (exists pre a, ts = (pre ++ [a])%list /\ n = 1 /\ r = Some a) \/
  (exists pre a b, ts = (pre ++ [a; b])%list /\ n = 2 /\ r = Some a /\ b - a <= panicWindow).

Lemma window_step ts n r t : window ts n r ->
  let '(n', r') := count_panic t n r in
  window (ts ++ [t]) n' r' \/
  (n' = maxPanics /\ exists pre a b, ts = (pre ++ [a; b])%list /\ t - a <= panicWindow).
Proof.
  unfold count_panic. intros [(-> & -> & ->)|[(pre & a & -> & -> & ->)|(pre & a & b & -> & -> & -> & Hb)]].
  - left. right; left. by exists [], t.
  - destruct (Z.ltb_spec panicWindow (t - a)); left.
    + right; left. by exists (pre ++ [a])%list, t.
    + right; right. exists pre, a, t. rewrite <- app_assoc. by repeat split.
  - destruct (Z.ltb_spec panicWindow (t - a)).
    + left. right; left. by exists (pre ++ [a; b])%list, t.
    + right. split; [done|]. by exists pre, a, b.
Qed.

Lemma supervise_window ts n r : supervise ts 0 None = Some (n, r) -> window ts n r.
Proof.
  revert n r. induction ts as [|t ts IH] using rev_ind; intros n r.
  - intros [= <- <-]. by left.
  - rewrite supervise_app. destruct (supervise ts 0 None) as [[n0 r0]|]; simpl; [|done].
    pose proof (window_step ts n0 r0 t (IH n0 r0 eq_refl)) as H.
    destruct (count_panic t n0 r0) as [n1 r1]. destruct H as [H|[-> _]]; [|done].
    destruct (_ <=? _); [done|]. by intros [= <- <-].
Qed.

Lemma supervise_stopped ts us : supervise ts 0 None = None -> supervise (ts ++ us) 0 None = None.
Proof. rewrite supervise_app. by intros ->. Qed.

(** ** The invariant of the loop *)

Definition loop_inv (l : Loop) : Prop :=
  (exists L rb K, ring_holds L rb /\ wok K rb (seq_after L) (lp_world l) /\
     Forall (fun p => exists u, (p, u) ∈ K) (lp_register l)) /\
  lp_panicCount l = 0 /\ lp_lastPanicReset l = None /\
  lp_stop l = lp_stopOnce l /\ (lp_returned l = true -> lp_stop l = true).

Lemma loop_inv_no_panic l : loop_inv l -> w_panic (lp_world l) = false.
Proof. intros [(L & rb & K & _ & Hw & _) _]. apply Hw. Qed.

(** The process may step under a loop whose own fields are fine. *)
Lemma loop_inv_world l (f : World -> World) :
  (forall L rb K, ring_holds L rb -> wok K rb (seq_after L) (lp_world l) ->
     exists L' rb', ring_holds L' rb' /\ wok K rb' (seq_after L') (f (lp_world l))) ->
  loop_inv l -> loop_inv (lp_set_world (f (lp_world l)) l).
Proof.
  intros Hf [(L & rb & K & Hrb & Hw & HK) H]. destruct (Hf L rb K Hrb Hw) as (L' & rb' & Hrb' & Hw').
  split; [|done]. by exists L', rb', K.
Qed.

(** A handler that keeps the invariants does not wake the recovery. *)
Lemma handled_quiet m l : loop_inv (lp_set_world (m (lp_world l)).2 l) ->
  handled m l = lp_set_world (m (lp_world l)).2 l.
Proof. intros H. unfold handled. cbv zeta. by rewrite (loop_inv_no_panic _ H). Qed.

Lemma handled_inv m l :
  (forall L rb K, ring_holds L rb -> wok K rb (seq_after L) (lp_world l) ->
     exists L' rb', ring_holds L' rb' /\ wok K rb' (seq_after L') (m (lp_world l)).2) ->
  loop_inv l -> handled m l = lp_set_world (m (lp_world l)).2 l /\ loop_inv (handled m l).
Proof.
  intros Hm Hl. pose proof (loop_inv_world l (fun w => (m w).2) Hm Hl) as H.
  by rewrite (handled_quiet m l H).
Qed.

Lemma handled_stable m l : (forall K rb sq, stable (wok K rb sq) m) ->
  loop_inv l -> handled m l = lp_set_world (m (lp_world l)).2 l /\ loop_inv (handled m l).
Proof. intros Hm. apply handled_inv. intros L rb K Hrb Hw. exists L, rb. split; [done|]. by apply Hm. Qed.

Lemma dispatch_some_inv L rb K w : ring_holds L rb -> wok K rb (seq_after L) w ->
  exists L' rb', ring_holds L' rb' /\ wok K rb' (seq_after L') (dispatch_broadcast w).2.
Proof.
  intros Hrb Hw. destruct (w_broadcast w) as [|bm q] eqn:Hq.
  - exists L, rb. split; [done|]. unfold dispatch_broadcast, gets, mbind, ST_bind. simpl. by rewrite Hq.
  - eexists _. by apply (dispatch_inv K L rb bm q).
Qed.

Lemma after_inner_inv l : loop_inv l -> lp_stop l = true -> loop_inv (after_inner l).
Proof.
  intros [Hw (Hn & Hr & Hs & _)] Hst. unfold after_inner. rewrite Hn, Hst. simpl.
  split; [exact Hw|]. simpl. by rewrite Hst in Hs |- *.
Qed.


Lemma handled_dispatch l : loop_inv l ->
  handled dispatch_broadcast l = lp_set_world (dispatch_broadcast (lp_world l)).2 l /\
  loop_inv (handled dispatch_broadcast l).
Proof. apply handled_inv. intros L rb K. apply dispatch_some_inv. Qed.

Lemma handled_sweep l (l' := lp_set_tick false l) : loop_inv l ->
  handled sweepStaleClients l' = lp_set_world (sweepStaleClients (lp_world l')).2 l' /\
  loop_inv (handled sweepStaleClients l').
Proof. intros Hl. apply handled_stable; [|done]. intros K rb sq. eapply pr_sweep, wok_process. Qed.

Lemma turn_inv k l : loop_inv l -> loop_inv (turn k l).
Proof.
  intros Hl. unfold turn. destruct (lp_returned l || negb (ready k l)) eqn:Hg; [done|].
  apply orb_false_iff in Hg as [_ Hready%negb_false_iff]. destruct k; simpl in Hready.
  - by apply after_inner_inv.
  - destruct (lp_register l) as [|p q] eqn:Hq; [done|].
    destruct Hl as [(L & rb & K & Hrb & Hw & HK) H]. rewrite Hq in HK.
    apply Forall_cons in HK as [[u Hu] HK].
    assert (loop_inv (lp_set_world (registerNow p (lp_world l)).2 (lp_set_register q l))) as H'.
    { split; [|done]. exists L, rb, K. split; [done|]. split; [|done]. by apply (ok_register K rb _ p u). }
    by rewrite (handled_quiet (registerNow p) (lp_set_register q l) H').
  - destruct (lp_unregister l) as [|p q]; [done|].
    refine (proj2 (handled_stable (unregisterNow p) (lp_set_unregister q l) _ Hl)).
    intros K rb sq. eapply pr_drop, wok_process.
  - by apply handled_dispatch.
  - by apply handled_sweep.
Qed.

Lemma stop_inv l : loop_inv l -> loop_inv (Stop l).
Proof.
  intros [Hw (Hn & Hr & Hs & Hd)]. unfold Stop, close_stop. simpl. rewrite Hs.
  destruct (lp_stopOnce l) eqn:E; (split; [exact Hw|]); simpl; repeat split; congruence.
Qed.

Section inv.
Context (sanitize : string -> string) (to_jwt : Grant -> option string).
Local Notation loop_step := (loop_step sanitize to_jwt).
Local Notation run_loop := (run_loop sanitize to_jwt).

Lemma other_inv e l : e <> EvDispatch -> loop_inv l -> loop_inv (other sanitize to_jwt e l).
Proof.
  intros He Hl. apply (loop_inv_world l (fun w => (run_event sanitize to_jwt e w).2)); [|done].
  intros L rb K Hrb Hw. exists L, rb. split; [done|]. by apply other_event_stable; [apply Hrb|..].
Qed.

Lemma Register_inv p l : loop_inv l -> loop_inv (Register p l).
Proof.
  intros [(L & rb & K & Hrb & Hw & HK) H]. unfold Register.
  destruct (bool_decide_reflect (is_Some (w_conns (lp_world l) !! p))) as [[c Hc]|]; simpl;
    [|by split; [exists L, rb, K|]].
  destruct (_ <? _)%nat; [|by split; [exists L, rb, K|]].
  split; [|done]. exists L, rb, ((p, cl_userID c) :: K). split; [done|]. split.
  - destruct Hw as [Hd Hp Hco Hcl Hb Hk Hr Hs]. split; try done. constructor; [by exists c|done].
  - apply Forall_app. split; [|apply Forall_singleton; exists (cl_userID c); by left].
    eapply Forall_impl; [exact HK|]. intros q [u Hu]. exists u. by right.
Qed.

Lemma loop_step_inv e l : loop_inv l -> loop_inv (loop_step e l).
Proof.
  intros Hl. destruct e as [k|e|p|p| | |]; simpl.
  - by apply turn_inv.
  - destruct (outside e) eqn:E; [|done]. apply other_inv; [|done]. by intros ->.
  - by apply Register_inv.
  - unfold Unregister. by destruct (_ && _).
  - done.
  - by apply stop_inv.
  - by apply stop_inv, other_inv.
Qed.

Lemma run_loop_inv es l : loop_inv l -> loop_inv (run_loop es l).
Proof. revert l. induction es as [|e es IH]; intros l Hl; [done|]. by apply IH, loop_step_inv. Qed.

Lemma new_loop_inv w : hub_inv [] w -> loop_inv (new_loop w).
Proof. intros (rb & Hrb & Hw). split; [|done]. exists [], rb, []. split; [done|]. split; [done|]. by apply Forall_nil. Qed.

(** ** Refinement *)

Lemma Stop_fields l : loop_inv l ->
  lp_world (Stop l) = lp_world l /\ lp_register (Stop l) = lp_register l /\ lp_unregister (Stop l) = lp_unregister l.
Proof. intros [_ (_ & _ & Hs & _)]. unfold Stop, close_stop. simpl. rewrite Hs. by destruct (lp_stopOnce l). Qed.

Lemma after_inner_fields l : lp_world (after_inner l) = lp_world l /\
  lp_register (after_inner l) = lp_register l /\ lp_unregister (after_inner l) = lp_unregister l.
Proof. unfold after_inner. by repeat case_match. Qed.

(** A step of the loop is, for the process, the events it is traced to. *)
Lemma traced_step e l : loop_inv l -> queueless e = true -> lp_register l = [] -> lp_unregister l = [] ->
  lp_world (loop_step e l) = (run sanitize to_jwt (traced e l) (lp_world l)).2 /\
  lp_register (loop_step e l) = [] /\ lp_unregister (loop_step e l) = [].
Proof.
  intros Hl Hq Hr Hu. destruct e as [k|e|p|p| | |]; try done; simpl.
  - unfold turn. destruct (lp_returned l); simpl; [by destruct k|].
    destruct k; simpl; rewrite ?Hr, ?Hu; simpl; try done.
    + destruct (lp_stop l); simpl; [|done]. destruct (after_inner_fields l) as (-> & -> & ->). done.
    + destruct (_ <? _)%nat; simpl; [|done]. by destruct (handled_dispatch l Hl) as [-> _].
    + destruct (lp_tick l); simpl; [|done]. by destruct (handled_sweep l Hl) as [-> _].
  - by destruct (outside e).
  - destruct (Stop_fields l Hl) as (-> & -> & ->). done.
  - destruct (Stop_fields _ (other_inv EvShutdown l ltac:(done) Hl)) as (-> & -> & ->). done.
Qed.

Lemma run_app es fs w : run sanitize to_jwt (es ++ fs) w = run sanitize to_jwt fs (run sanitize to_jwt es w).2.
Proof. revert w. induction es as [|e es IH]; intros w; [done|]. simpl. apply IH. Qed.

Lemma run_loop_traced es l : loop_inv l -> forallb queueless es = true ->
  lp_register l = [] -> lp_unregister l = [] ->
  lp_world (run_loop es l) = (run sanitize to_jwt (hub_trace sanitize to_jwt es l) (lp_world l)).2.
Proof.
  revert l. induction es as [|e es IH]; intros l Hl Hes Hr Hu; [done|].
  simpl in Hes. apply andb_true_iff in Hes as [He Hes].
  destruct (traced_step e l Hl He Hr Hu) as (Hw & Hr' & Hu'). simpl.
  rewrite run_app, <- Hw. apply IH; try done. by apply loop_step_inv.
Qed.
End inv.
End HubRun.
Export HubRun.

(** C34: the loop of the hub runs until it is stopped. Whatever the loop picks,
    whatever the other goroutines do between its turns, and whoever asks for
    the registration of a connection: no handler called by the loop panics, so
    its budget of panics is never touched; it returns only after the hub was
    stopped, the stop channel is closed once however often the hub is stopped,
    and from then on its next turn with the stop signal returns. *)
Theorem hub_loop_runs sanitize to_jwt es faults now ticks lk proc wf :
  let l := run_loop sanitize to_jwt es (new_loop (start faults now ticks lk proc wf)) in
  wok [] (w_replayBuf (lp_world l)) (w_seq (lp_world l)) (lp_world l) /\
  lp_panicCount l = 0 /\ lp_lastPanicReset l = None /\
  (lp_returned l = true -> lp_stop l = true) /\
  (lp_stop l = true -> lp_returned (turn PickStop l) = true).
Proof.
  intros l. assert (loop_inv l) as [(L & rb & K & Hrb & Hw & HK) (Hn & Hr & _ & Hd)]
    by (apply run_loop_inv, new_loop_inv, start_inv).
  split; [|do 3 (split; [done|])].
  - rewrite (wok_rb _ _ _ _ Hw), (wok_sq _ _ _ _ Hw). by destruct Hw.
  - intros Hs. unfold turn, after_inner. simpl. rewrite Hs, Hn. by destruct (lp_returned l) eqn:E.
Qed.

(** C35: the loop refines the process: for any schedule of the loop and of the
    other goroutines, what the process has become is the result of a run of the
    events of the process, the dispatches and sweeps at the turns where the loop
    took a broadcast or a tick. *)
Theorem hub_loop_refines sanitize to_jwt es faults now ticks lk proc wf
    (Hes : forallb queueless es = true) :
  let w0 := start faults now ticks lk proc wf in
  lp_world (run_loop sanitize to_jwt es (new_loop w0)) =
    (run sanitize to_jwt (hub_trace sanitize to_jwt es (new_loop w0)) w0).2.
Proof. by apply run_loop_traced; [apply new_loop_inv, start_inv|..]. Qed.

Lemma hub_loop_refines_witness :
  let w0 := start [] 0 [] None None [] in
  let id := fun s : string => s in
  let no_token := fun _ : Grant => None in
  let es := [LpOther (EvBroadcast 0 "{a}"); LpTurn PickTick; LpTurn PickBroadcast; LpTurn PickBroadcast] in
  hub_trace id no_token es (new_loop w0) = [EvBroadcast 0 "{a}"; EvDispatch] /\
  lp_world (run_loop id no_token es (new_loop w0)) = (run id no_token [EvBroadcast 0 "{a}"; EvDispatch] w0).2.
Proof.
  intros w0 id no_token es.
  assert (Ht : hub_trace id no_token es (new_loop w0) = [EvBroadcast 0 "{a}"; EvDispatch]) by (vm_compute; reflexivity).
  split; [exact Ht|]. rewrite <- Ht. exact (hub_loop_refines id no_token es [] 0 [] None None [] eq_refl).
Defined.

(** The budget of panics: [Run] gives up only at a panic that is the third
    within sixty seconds, and four panics within sixty seconds always make it
    give up. *)
Theorem panic_budget (ts : list Z) :
  (forall t, is_Some (supervise ts 0 None) -> supervise (ts ++ [t]) 0 None = None ->
     exists pre a b, ts = (pre ++ [a; b])%list /\ t - a <= panicWindow) /\
  (forall a b c d us, a <= b -> b <= c -> c <= d -> d - a <= panicWindow ->
     supervise (ts ++ a :: b :: c :: d :: us) 0 None = None).
Proof.
  split.
  - intros t [[n r] Hs]. rewrite supervise_app, Hs. simpl.
    pose proof (window_step ts n r t (supervise_window _ _ _ Hs)) as H.
    destruct (count_panic t n r) as [n' r']. destruct (Z.leb_spec maxPanics n'); [|done]. intros _.
    destruct H as [[(E & _)|[(? & ? & _ & -> & _)|(? & ? & ? & _ & -> & _)]]|[_ H]]; try done.
    by apply app_eq_nil in E as [_ ?].
  - intros a b c d us Hab Hbc Hcd Had. rewrite supervise_app.
    destruct (supervise ts 0 None) as [[n r]|] eqn:Hs; [|done].
    pose proof (window_step ts n r a (supervise_window _ _ _ Hs)) as H. simpl.
    destruct (count_panic a n r) as [n' r'].
    destruct H as [[(E & _)|[(? & ? & E & -> & ->)|(? & ? & ? & _ & -> & -> & _)]]|[-> _]]; [..|done].
    + by apply app_eq_nil in E as [_ ?].
    + apply app_inj_tail in E as [_ <-]. change (maxPanics <=? 1) with false. cbn iota.
      rewrite count_in_window by lia. change (maxPanics <=? 1 + 1) with false. cbn iota.
      by rewrite count_in_window by lia.
    + change (maxPanics <=? 2) with false. cbn iota. unfold count_panic at 1.
      destruct (_ <? b - _); [|done]. change (maxPanics <=? 0 + 1) with false. cbn iota.
      rewrite count_in_window by lia. change (maxPanics <=? 0 + 1 + 1) with false. cbn iota.
      by rewrite count_in_window by lia.
Qed.

(** Three panics within sixty seconds may also be survived, when the first of
    them still belongs to an earlier window. *)
Lemma three_panics_survived : supervise [0; 50 * Second; 61 * Second; 70 * Second] 0 None = Some (2, Some (61 * Second)).
Proof. reflexivity. Qed.
