(* ===== verification/WsAuth.v ===== *)
(** * Who may change what

    The effect of the message handlers on the stored messages, for every state
    of the server and every schedule of failures: a message appears, changes or
    disappears only on behalf of a user with the right to do that. *)

From S2P Require Import Prelude Permissions GoText Wire GoTime Rows Store StoreInv StoreOk StoreThms Hub Chat Voice Serve WsInv.
#[local] Open Scope string_scope.
#[local] Open Scope Z_scope.

Module WsAuth.

(** The database satisfies [P] and the connection is of this user. *)
Record actor (p : Z) (P : Db -> Prop) (uid : Z) (ou : option User) (w : World) : Prop := {
  act_db : P (sys_db (w_sys w));
  act_uid : cl_userID (conn_of w p) = uid;
  act_user : cl_user (conn_of w p) = ou }.

(** An update of a connection that leaves its user alone. *)
Lemma conn_of_alter w p q f (m := w_set_conns (alter f q (w_conns w)) w) :
  (forall c, cl_userID (f c) = cl_userID c /\ cl_user (f c) = cl_user c) ->
  cl_userID (conn_of m p) = cl_userID (conn_of w p) /\ cl_user (conn_of m p) = cl_user (conn_of w p).
Proof.
  intros Hf. unfold m, conn_of. simpl. destruct (decide (q = p)) as [<-|Hne].
  - rewrite lookup_alter_eq. destruct (w_conns w !! q) as [c|]; simpl; [apply Hf|done].
  - by rewrite lookup_alter_ne.
Qed.

Section prims.
Context (p : Z) (P : Db -> Prop) (uid : Z) (ou : option User).
Let I := actor p P uid ou.

Lemma act_fields w w' : I w -> w_sys w' = w_sys w -> w_conns w' = w_conns w -> I w'.
Proof. intros [H1 H2 H3] Hs Hc. unfold conn_of in *. split; unfold conn_of; by rewrite ?Hs, ?Hc. Qed.

Lemma act_alter w q f : I w ->
  (forall c, cl_userID (f c) = cl_userID c /\ cl_user (f c) = cl_user c) ->
  I (w_set_conns (alter f q (w_conns w)) w).
Proof.
  intros [H1 H2 H3] Hf. destruct (conn_of_alter w p q f Hf) as [E1 E2].
  split; [done|by rewrite E1|by rewrite E2].
Qed.

Lemma act_sys {A} (m : ST Sys A) : preserves P m -> stable I (sys m).
Proof. intros Hm w [H1 H2 H3]. split; [by apply Hm|done|done]. Qed.

Definition keeps (A : Type) (m : ST Sys A) : Prop := preserves P m.

Lemma act_handler : handler_inv p keeps own_update I.
Proof.
  split.
  - apply @act_sys.
  - intros r w Hw. by apply (act_fields w).
  - intros q msg w Hw. unfold trySendMsg, conn, gets, mbind, ST_bind. simpl.
    destruct (cl_sendClosed _); [done|]. destruct (ch_closed _); [by apply (act_fields w)|].
    apply act_alter; [done|]. intros c. unfold chan_send. by destruct (_ <? _)%nat.
  - intros c msg w Hw. unfold BroadcastToChannel, gets, mbind, ST_bind, when. simpl.
    destruct (_ <? _)%nat; [by apply (act_fields w)|done].
  - intros f Hf w Hw. apply act_alter; [done|]. intros c. by destruct Hf.
  - intros x w Hw. by apply (act_fields w).
  - intros x w Hw. by apply (act_fields w).
  - intros w Hw. unfold drop_client, lookup_client, conn, gets, mbind, ST_bind, when. simpl.
    case_bool_decide; [by apply (act_fields w)|done].
  - intros w Hw. unfold closeSend, conn, gets, mbind, ST_bind. simpl.
    destruct (cl_sendClosed _); [done|]. destruct (ch_closed _); [by apply (act_fields w)|].
    apply act_alter; [done|]. by intros c.
Qed.

Lemma keeps_reads A (m : ST Sys A) : reads m -> keeps A m.
Proof. apply reads_preserves. Qed.

Lemma act_read {A} (m : ST Sys A) : reads m -> stable I (sys m).
Proof. intros Hm. by apply act_sys, reads_preserves. Qed.
Lemma act_send q msg : stable I (sendMsg q msg).
Proof. handler st_sendMsg with act_handler. Qed.
Lemma act_fail q code msg : stable I (fail q code msg).
Proof. apply act_send. Qed.
Lemma act_each us msg : stable I (send_each us msg).
Proof. handler st_send_each with act_handler. Qed.
Lemma act_toUser u msg : stable I (SendToUser u msg).
Proof. handler st_SendToUser with act_handler. Qed.
Lemma act_bcast c msg : stable I (BroadcastToChannel c msg).
Proof. apply act_handler. Qed.
Lemma act_dm c msg : stable I (broadcastToDMParticipants c msg).
Proof. handler st_dm with act_handler. exact keeps_reads. Qed.
Lemma act_allow k l win : stable I (allow k l win).
Proof. handler st_allow with act_handler. exact keeps_reads. Qed.
Lemma act_perm ch q : stable I (hasChannelPerm p ch q).
Proof. handler st_perm with act_handler. exact keeps_reads. Qed.
Lemma act_slow ch b c : stable I (slow_mode_ok p ch b c).
Proof.
  unfold slow_mode_ok. apply stable_bind; [apply stable_gets|intros cl].
  repeat (walk_step || apply act_perm || apply act_allow || apply act_fail).
Qed.
End prims.

Create HintDb ws_auth.
#[export] Hint Resolve act_read act_send act_fail act_each act_toUser act_bcast act_dm act_allow act_perm
  act_slow : ws_auth.

(** What the role of the user grants on a channel, in the database [d]. *)
Definition role_grants (d : Db) (r : Role) (ch perm : Z) : Prop :=
  HasAdmin (r_permissions r) = true \/
  let '(a, dn) := default (0, 0) (overrides d !! (ch, r_id r)) in grants (r_permissions r) a dn perm.
Definition user_may (d : Db) (ou : option User) (ch perm : Z) : Prop :=
  exists u r, ou = Some u /\ roles d !! u_role u = Some r /\ role_grants d r ch perm.

(** ** Answers of the reads *)

Section answers.
Context (p : Z) (d : Db) (uid : Z) (ou : option User).
Let I := actor p (eq d) uid ou.

Lemma ans_query {A} (f : Db -> A) :
  triple I (sys (query f)) (fun r w => I w /\ ((exists e, r = inl e) \/ r = inr (f d))).
Proof.
  intros w Hw. split; [by apply (act_read p (eq d) uid ou (query f) (reads_query f) w)|].
  destruct Hw as [Hd _ _]. rewrite Hd. unfold sys. simpl. apply query_cases.
Qed.

Lemma ans_conn : triple I (conn p) (fun c w => I w /\ cl_userID c = uid /\ cl_user c = ou).
Proof. intros w Hw. split; [done|]. by destruct Hw. Qed.

Lemma ans_perm ch q : triple I (hasChannelPerm p ch q) (fun b w => I w /\ (b = true -> user_may d ou ch q)).
Proof.
  unfold hasChannelPerm. eapply triple_bind; [apply ans_conn|]. intros c w (Hw & _ & Hou).
  destruct (cl_user c) as [u|]; [|by split].
  pose proof (ans_query (fun d => roles d !! u_role u) w Hw) as [Hw1 Hr].
  unfold GetRoleByID, mbind, ST_bind. destruct (sys (query _) w) as [role w1]. cbn [fst snd] in *.
  destruct Hr as [[e ->]| ->]; [by split|].
  destruct (roles d !! u_role u) as [r|] eqn:Er; [|by split].
  split.
  - exact (act_read p (eq d) uid ou _ (reads_HasChannelPerm _ _ ch q) w1 Hw1).
  - intros Hb. exists u, r. split; [done|]. split; [done|].
    apply (HasChannelPerm_sound _ _ _ _ (w_sys w1)) in Hb as [Hb|Hb]; [by left|right].
    change (override_of (w_sys w1) ch (r_id r))
      with (default (0, 0) (overrides (sys_db (w_sys w1)) !! (ch, r_id r))) in Hb.
    by rewrite <- (act_db _ _ _ _ _ Hw1) in Hb.
Qed.

Lemma ans_require ch q l :
  triple I (requireChannelPerm p ch q l) (fun b w => I w /\ (b = true -> user_may d ou ch q)).
Proof.
  unfold requireChannelPerm. eapply triple_bind; [apply ans_perm|]. intros b w [Hw Hb].
  destruct b; [split; [done|auto]|]. split; [|done]. by apply (act_fail p (eq d) uid ou).
Qed.

Lemma ans_participant ch :
  triple I (sys (IsDMParticipant uid ch))
    (fun r w => I w /\ ((exists e, r = inl e) \/ r = inr (bool_decide ((ch, uid) ∈ dm_participants d)))).
Proof. apply ans_query. Qed.

(** The access check of edit, delete and reactions. *)
Lemma ans_access isDM ch (m : M bool) (R : Prop) :
  triple I m (fun b w => I w /\ (b = true -> R)) ->
  triple I (channel_access p isDM ch m) (fun b w => I w /\
    (b = true -> if isDM then (ch, uid) ∈ dm_participants d else R)).
Proof.
  intros Hm. unfold channel_access. destruct isDM; [|done].
  eapply triple_bind; [apply ans_conn|]. intros c w (Hw & -> & _).
  eapply triple_bind; [apply ans_participant|intros r w' [Hw' Hr]|exact Hw].
  split; [done|]. destruct Hr as [[e ->]| ->]; [done|]. simpl. intros Hb. by apply bool_decide_eq_true_1 in Hb.
Qed.
End answers.

(** ** Effects on the stored messages *)

(** The new message of [d'], by the user, in the channel. *)
Definition posted (d : Db) (uid ch : Z) (content : string) (reply : option Z) (d' : Db) : Prop :=
  exists m, messages d' = <[next_message d := m]> (messages d) /\
    m_user m = uid /\ m_channel m = ch /\ m_content m = content /\ m_reply_to m = reply.

Lemma posted_eq d uid ch content reply d1 d2 :
  messages d2 = messages d1 -> posted d uid ch content reply d1 -> posted d uid ch content reply d2.
Proof. intros E (m & H & Hm). exists m. by rewrite E. Qed.

(** A deletion only sets the flag of one message. *)
Lemma DeleteMessage_cases id uid ismod s :
  sys_db (DeleteMessage id uid ismod s).2 = sys_db s \/
  exists m, messages (sys_db s) !! id = Some m /\ (ismod = true \/ m_user m = uid) /\
    messages (sys_db (DeleteMessage id uid ismod s).2) = <[id := message_set_deleted m]> (messages (sys_db s)).
Proof.
  unfold DeleteMessage, or_return, mbind, ST_bind.
  destruct (query_cases (fun d => messages d !! id) s) as [Hd Hr]. unfold GetMessage.
  destruct (query _ s) as [r s1]. cbn [fst snd] in *.
  destruct Hr as [[e ->]| ->]; [by left|].
  destruct (messages (sys_db s) !! id) as [m|] eqn:Hm; [|by left].
  destruct (negb ismod && negb (m_user m =? uid)) eqn:Ha; [by left|].
  destruct (exec_cases (fun now d => inr (tt, set_messages (update_row id message_set_deleted (messages d)) d)) s1)
    as [(e & _ & Hx)|(now & a & d2 & _ & E & Hx & _)].
  - left. unfold update. rewrite Hx. done.
  - right. exists m. split; [done|]. split.
    + apply andb_false_iff in Ha as [Ha|Ha]; bools; auto.
    + unfold update. rewrite Hx. injection E as _ <-. simpl. rewrite Hd. unfold update_row.
      apply map_eq. intros k. destruct (decide (id = k)) as [<-|Hne].
      * by rewrite lookup_alter_eq, Hm, lookup_insert_eq.
      * by rewrite lookup_alter_ne, lookup_insert_ne.
Qed.

Lemma EditMessage_cases id uid content s :
  ((exists e, (EditMessage id uid content s).1 = inl e) /\
     sys_db (EditMessage id uid content s).2 = sys_db s) \/
  exists m ts, messages (sys_db s) !! id = Some m /\ m_user m = uid /\
    messages (sys_db (EditMessage id uid content s).2) =
      <[id := message_set_content content (Some ts) m]> (messages (sys_db s)).
Proof.
  unfold EditMessage, or_return, mbind, ST_bind.
  destruct (query_cases (fun d => messages d !! id) s) as [Hd Hr]. unfold GetMessage.
  destruct (query _ s) as [r s1]. cbn [fst snd] in *.
  destruct Hr as [[e ->]| ->]; [left; split; [by eexists|done]|].
  destruct (messages (sys_db s) !! id) as [m|] eqn:Hm; [|left; split; [by eexists|done]].
  destruct (negb (m_user m =? uid)) eqn:Ha; [left; split; [by eexists|done]|].
  match goal with |- context [update ?f s1] =>
    destruct (exec_cases (fun now d => inr (tt, f now d)) s1)
      as [(e & He & Hx)|(now & a & d2 & _ & E & Hx & _)] end.
  - left. split; [by eexists|]. unfold update. rewrite Hx. done.
  - right. exists m, (datetime_now now). split; [done|]. split; [by bools|].
    unfold update. rewrite Hx. injection E as _ <-. simpl. rewrite Hd. unfold update_row.
    apply map_eq. intros k. destruct (decide (id = k)) as [<-|Hne].
    + by rewrite lookup_alter_eq, Hm, lookup_insert_eq.
    + by rewrite lookup_alter_ne, lookup_insert_ne.
Qed.

(** Calls that do not touch the messages. *)
Lemma preserves_messages {A} (I : gmap Z Message -> Prop) (f : Z -> Db -> result db_error (A * Db)) :
  (forall now d a d', f now d = inr (a, d') -> messages d' = messages d) ->
  preserves (fun d => I (messages d)) (exec f).
Proof. intros Hf. apply preserves_exec. intros now d a d' Hd E. by rewrite (Hf now d a d' E). Qed.

Lemma keep_posted_delete d uid ch content reply u b :
  preserves (posted d uid ch content reply) (DeleteMessage (next_message d) u b).
Proof.
  intros s Hs. destruct (DeleteMessage_cases (next_message d) u b s) as [->|(m & Hm & _ & E)]; [done|].
  destruct Hs as (m0 & H0 & Hm0). rewrite H0, lookup_insert_eq in Hm. injection Hm as <-.
  exists (message_set_deleted m0). by rewrite E, H0, insert_insert_eq.
Qed.

Lemma keep_posted_link d uid ch content reply id ids :
  preserves (posted d uid ch content reply) (LinkAttachmentsToMessage id ids).
Proof.
  destruct ids as [|i ids]; [apply preserves_ret|]. apply preserves_exec. intros now d1 a d2 H E.
  eapply posted_eq; [|exact H]. simpl in E. case_hyp E; by simplify_eq.
Qed.

Lemma keep_posted_open d uid ch content reply u c :
  preserves (posted d uid ch content reply) (OpenDM u c).
Proof.
  apply preserves_exec. intros now d1 a d2 H E. eapply posted_eq; [|exact H].
  unfold open_dm in E. case_hyp E; simplify_eq. by case_match.
Qed.

Lemma keep_posted_audit d uid ch content reply a x t i dt :
  preserves (posted d uid ch content reply) (LogAudit a x t i dt).
Proof. apply preserves_update. intros now d1 H. by eapply posted_eq. Qed.

(** ** chat_send *)

Definition post_access (d : Db) (uid : Z) (ou : option User) (ch : Channel) (channelID : Z) : Prop :=
  if String.eqb (c_type ch) "dm" then (channelID, uid) ∈ dm_participants d
  else user_may d ou channelID (go_or ReadMessages SendMessages).

Section send.
Context (sanitize : string -> string) (p : Z) (d : Db) (uid : Z) (ou : option User).
Let I := actor p (eq d) uid ou.

(** A message was stored for this payload: the user may write to the channel
    and attach files to it, and the text was sanitized and fits. *)
Definition send_posted (pl : chatSendPayload) (channelID : Z) (ch : Channel) (d' : Db) : Prop :=
  post_access d uid ou ch channelID /\
  (sanitize (cs_Content pl) <> "" \/ cs_Attachments pl <> []) /\
  rune_count (sanitize (cs_Content pl)) <= maxMessageLen /\
  (c_type ch <> "dm" -> cs_Attachments pl <> [] -> user_may d ou channelID AttachFiles) /\
  posted d uid channelID (sanitize (cs_Content pl)) (cs_ReplyTo pl) d'.

Definition send_effect (pl : chatSendPayload) (channelID : Z) (ch : Channel) (d' : Db) : Prop :=
  messages d' = messages d \/ send_posted pl channelID ch d'.

Lemma send_access isDM channelID ch : isDM = String.eqb (c_type ch) "dm" ->
  triple I (chat_send_access p isDM channelID) (fun b w => I w /\ (b = true -> post_access d uid ou ch channelID)).
Proof.
  intros HDM. unfold chat_send_access, post_access. rewrite <- HDM.
  eapply triple_bind; [apply ans_conn|]. intros c. apply triple_pure. intros [-> _].
  destruct isDM; [|apply ans_require].
  eapply triple_bind; [apply ans_participant|]. intros r. apply triple_pure.
  intros [[e ->]| ->]; [|destruct (bool_decide _) eqn:Hb]; intros w Hw.
  - split; [|done]. by apply (act_fail p (eq d) uid ou).
  - split; [done|]. intros _. by apply bool_decide_eq_true_1 in Hb.
  - split; [|done]. by apply (act_fail p (eq d) uid ou).
Qed.

(** After the insertion nothing but the new message's deleted flag changes. *)
Lemma send_rest reqID isDM channelID content reply ids msgID : msgID = next_message d ->
  stable (actor p (posted d uid channelID content reply) uid ou)
    (atts ← link_attachments p msgID ids;
     match atts with
     | None => mret tt
     | Some atts => chat_send_deliver p reqID isDM channelID msgID content reply atts
     end).
Proof.
  intros ->. apply stable_bind.
  - unfold link_attachments. repeat (walk_step || apply stable_gets || solve [auto with ws_auth ws_db nocore]).
    all: try (apply act_sys, keep_posted_link). all: apply act_sys, keep_posted_delete.
  - intros [atts|]; [|apply stable_ret]. unfold chat_send_deliver, deliver_dm.
    repeat (walk_step || apply stable_gets || solve [auto with ws_auth ws_db nocore]).
    all: apply act_sys, keep_posted_open.
Qed.

Lemma I_messages w : I w -> messages (sys_db (w_sys w)) = messages d.
Proof. intros Hw. by rewrite <- (act_db _ _ _ _ _ Hw). Qed.

(** A refusal. *)
Lemma stable_nothing {A} (m : M A) pl channelID ch : stable I m ->
  triple I m (fun _ w => send_effect pl channelID ch (sys_db (w_sys w))).
Proof. intros Hm w Hw. left. by apply I_messages, Hm. Qed.

Lemma send_create channelID content reply :
  triple I (sys (CreateMessage channelID uid content reply)) (fun r w =>
    match r with
    | inl _ => I w
    | inr id => id = next_message d /\ actor p (posted d uid channelID content reply) uid ou w
    end).
Proof.
  intros w [Hd Hu Ho]. unfold sys. simpl. unfold CreateMessage.
  match goal with |- context [exec ?f ?s] =>
    destruct (exec_cases f s) as [(e & -> & Hx)|(now & id & d' & -> & E & Hx & _)] end.
  - split; simpl; [by rewrite Hx|done|done].
  - rewrite <- Hd in E. destruct (_ && _); [|done]. injection E as <- <-. split; [done|].
    split; simpl; [|done|done]. rewrite Hx. eexists. simpl. done.
Qed.

Lemma send_commit reqID pl channelID ch isDM : isDM = String.eqb (c_type ch) "dm" ->
  post_access d uid ou ch channelID ->
  triple I (chat_send_commit sanitize p reqID pl channelID ch isDM)
    (fun _ w => send_effect pl channelID ch (sys_db (w_sys w))).
Proof.
  intros HDM Hacc. unfold chat_send_commit. eapply triple_bind; [apply act_slow|].
  intros slow. destruct slow; [|apply stable_nothing, stable_ret]. cbn [negb].
  set (content := sanitize (cs_Content pl)).
  set (has_atts := match cs_Attachments pl with [] => false | _ => true end).
  destruct (String.eqb content "" && negb has_atts) eqn:Hempty; [apply stable_nothing, act_fail|].
  destruct (Z.ltb_spec maxMessageLen (rune_count content)) as [|Hlen]; [apply stable_nothing, act_fail|].
  eapply triple_bind with (J := fun b w => I w /\
    (b = true -> c_type ch <> "dm" -> cs_Attachments pl <> [] -> user_may d ou channelID AttachFiles)).
  { destruct (negb isDM && has_atts) eqn:Hn.
    - intros w Hw. destruct (ans_require p d uid ou channelID AttachFiles "ATTACH_FILES" w Hw) as [H1 H2].
      split; [done|auto].
    - intros w Hw. split; [done|]. intros _ Hty Hatt. exfalso.
      apply andb_false_iff in Hn as [Hn|Hn]; bools; [rewrite HDM in Hn; by apply String.eqb_eq in Hn|].
      unfold has_atts in Hn. by destruct (cs_Attachments pl). }
  intros allowed. apply triple_pure. intros Hatt.
  destruct allowed; [|apply stable_nothing, stable_ret]. cbn [negb].
  eapply triple_bind; [apply ans_conn|]. intros c. apply triple_pure. intros [-> _].
  eapply triple_bind; [apply send_create|]. intros [e|msgID]; [apply stable_nothing, act_fail|].
  intros w [-> Hw]. right. split; [done|]. split; [|split; [done|split; [auto|]]].
  - apply andb_false_iff in Hempty as [He|He]; [left; by apply String.eqb_neq in He|right].
    unfold has_atts in He. by destruct (cs_Attachments pl).
  - by apply (send_rest reqID isDM channelID content (cs_ReplyTo pl) (cs_Attachments pl) _ eq_refl).
Qed.

Lemma send_handler reqID payload :
  triple I (handleChatSend sanitize p reqID payload) (fun _ w =>
    messages (sys_db (w_sys w)) = messages d \/
    exists pl channelID ch, unmarshal_chat_send payload = Some pl /\
      positive_id (cs_ChannelID pl) = Some channelID /\ channels d !! channelID = Some ch /\
      send_posted pl channelID ch (sys_db (w_sys w))).
Proof.
  assert (Hno : forall A (m : M A), stable I m -> triple I m (fun _ w =>
    messages (sys_db (w_sys w)) = messages d \/ exists pl channelID ch,
      unmarshal_chat_send payload = Some pl /\ positive_id (cs_ChannelID pl) = Some channelID /\
      channels d !! channelID = Some ch /\ send_posted pl channelID ch (sys_db (w_sys w))))
    by (intros A m Hm w Hw; left; by apply I_messages, Hm).
  unfold handleChatSend. eapply triple_bind; [apply ans_conn|]. intros c. apply triple_pure. intros _.
  eapply triple_bind; [apply act_allow|]. intros ok. destruct ok; [|apply Hno, act_send]. cbn [negb].
  destruct (unmarshal_chat_send payload) as [pl|] eqn:Hpl; [|apply Hno, act_fail].
  destruct (positive_id (cs_ChannelID pl)) as [channelID|] eqn:Hid; [|apply Hno, act_fail].
  eapply triple_bind; [apply ans_query|]. intros r. apply triple_pure.
  intros [[e ->]| ->]; [apply Hno, act_fail|].
  destruct (channels d !! channelID) as [ch|] eqn:Hch; [|apply Hno, act_fail].
  eapply triple_bind; [by apply (send_access _ channelID ch)|]. intros b. apply triple_pure. intros Hacc.
  destruct b; [|apply Hno, stable_ret]. cbn [negb]. intros w Hw.
  destruct (send_commit reqID pl channelID ch _ eq_refl (Hacc eq_refl) w Hw) as [H|H]; [by left|right].
  by exists pl, channelID, ch.
Qed.
End send.

(** ** chat_edit and chat_delete *)

Section change.
Context (p : Z) (d : Db) (uid : Z) (ou : option User).
Let I := actor p (eq d) uid ou.

(** The right to use [perm] in the channel of a message: participation when it
    was found to be a DM. *)
Definition change_access (ch perm : Z) : Prop := (ch, uid) ∈ dm_participants d \/ user_may d ou ch perm.

Lemma change_check isDM ch perm :
  triple I (channel_access p isDM ch (hasChannelPerm p ch perm))
    (fun b w => I w /\ (b = true -> change_access ch perm)).
Proof.
  intros w Hw. destruct (ans_access p d uid ou isDM ch _ _ (ans_perm p d uid ou ch perm) w Hw) as [H1 H2].
  split; [done|]. intros Hb. specialize (H2 Hb). destruct isDM; [by left|by right].
Qed.

Definition edit_effect (sanitize : string -> string) (payload : option json) (d' : Db) : Prop :=
  messages d' = messages d \/
  exists lit raw id m ts, unmarshal_chat_edit payload = Some (lit, raw) /\ positive_id lit = Some id /\
    messages d !! id = Some m /\ m_user m = uid /\ change_access (m_channel m) SendMessages /\
    sanitize raw <> "" /\ rune_count (sanitize raw) <= maxMessageLen /\
    messages d' = <[id := message_set_content (sanitize raw) (Some ts) m]> (messages d).

(** The broadcast of an edit reads. *)
Lemma edit_broadcast_stable P isDM id content :
  stable (actor p P uid ou) (chat_edit_broadcast p isDM id content).
Proof.
  unfold chat_edit_broadcast. repeat (walk_step || solve [auto with ws_auth ws_db nocore]).
Qed.

Lemma edit_handler sanitize payload :
  triple I (handleChatEdit sanitize p payload) (fun _ w => edit_effect sanitize payload (sys_db (w_sys w))).
Proof.
  assert (Hno : forall A (m : M A), stable I m ->
    triple I m (fun _ w => edit_effect sanitize payload (sys_db (w_sys w))))
    by (intros A m Hm w Hw; left; by apply (I_messages p d uid ou), Hm).
  unfold handleChatEdit. eapply triple_bind; [apply ans_conn|]. intros c. apply triple_pure. intros [-> _].
  eapply triple_bind; [apply act_allow|]. intros ok. destruct ok; [|apply Hno, act_send]. cbn [negb].
  destruct (unmarshal_chat_edit payload) as [[lit raw]|] eqn:Hpl; [|apply Hno, act_fail].
  destruct (positive_id lit) as [id|] eqn:Hid; [|apply Hno, act_fail].
  destruct (String.eqb_spec (sanitize raw) ""); [apply Hno, act_fail|].
  destruct (Z.ltb_spec maxMessageLen (rune_count (sanitize raw))); [apply Hno, act_fail|].
  eapply triple_bind; [apply ans_query|]. intros r. apply triple_pure.
  intros [[e ->]| ->]; [apply Hno, act_fail|].
  destruct (messages d !! id) as [m|] eqn:Hm; [|apply Hno, act_fail].
  eapply triple_bind; [by apply act_read, reads_query|]. intros chr.
  eapply triple_bind; [apply change_check|]. intros b. apply triple_pure. intros Hacc.
  destruct b; [|apply Hno, act_fail]. cbn [negb].
  intros w Hw. unfold mbind, ST_bind, sys. cbn [fst snd].
  destruct (EditMessage_cases id uid (sanitize raw) (w_sys w)) as [[[e He] Hdb]|(m' & ts & Hm' & Hu & Hdb)].
  - rewrite He. apply (Hno _ _ (act_fail p (eq d) uid ou _ _ _)).
    destruct Hw as [H1 H2 H3]. split; [by rewrite <- Hdb in H1|done|done].
  - rewrite <- (act_db _ _ _ _ _ Hw), Hm in Hm'. injection Hm' as <-.
    rewrite <- (act_db _ _ _ _ _ Hw) in Hdb.
    set (w1 := w_set_sys _ w).
    assert (Hw1 : actor p (fun d' => messages d' =
      <[id := message_set_content (sanitize raw) (Some ts) m]> (messages d)) uid ou w1)
      by (destruct Hw; by split).
    right. exists lit, raw, id, m, ts. do 4 (split; [done|]). split; [by apply Hacc|]. do 2 (split; [done|]).
    destruct (EditMessage _ _ _ _).1 as [e|x].
    + exact (act_db _ _ _ _ _ (act_fail _ _ _ _ p _ _ w1 Hw1)).
    + exact (act_db _ _ _ _ _ (edit_broadcast_stable _ (is_dm_result chr) id (sanitize raw) w1 Hw1)).
Qed.

Definition delete_effect (payload : option json) (d' : Db) : Prop :=
  messages d' = messages d \/
  exists lit id m, unmarshal_chat_delete payload = Some lit /\ positive_id lit = Some id /\
    messages d !! id = Some m /\ change_access (m_channel m) ReadMessages /\
    (m_user m = uid \/ user_may d ou (m_channel m) ManageMessages) /\
    messages d' = <[id := message_set_deleted m]> (messages d).

Lemma delete_handler payload :
  triple I (handleChatDelete p payload) (fun _ w => delete_effect payload (sys_db (w_sys w))).
Proof.
  assert (Hno : forall A (m : M A), stable I m ->
    triple I m (fun _ w => delete_effect payload (sys_db (w_sys w))))
    by (intros A m Hm w Hw; left; by apply (I_messages p d uid ou), Hm).
  unfold handleChatDelete. eapply triple_bind; [apply ans_conn|]. intros c. apply triple_pure. intros [-> _].
  eapply triple_bind; [apply act_allow|]. intros ok. destruct ok; [|apply Hno, act_send]. cbn [negb].
  destruct (unmarshal_chat_delete payload) as [lit|] eqn:Hpl; [|apply Hno, act_fail].
  destruct (positive_id lit) as [id|] eqn:Hid; [|apply Hno, act_fail].
  eapply triple_bind; [apply ans_query|]. intros r. apply triple_pure.
  intros [[e ->]| ->]; [apply Hno, act_fail|].
  destruct (messages d !! id) as [m|] eqn:Hm; [|apply Hno, act_fail].
  eapply triple_bind; [by apply act_read, reads_query|]. intros chr.
  eapply triple_bind; [apply change_check|]. intros b. apply triple_pure. intros Hacc.
  destruct b; [|apply Hno, act_fail]. cbn [negb].
  eapply triple_bind with (J := fun b w => I w /\ (b = true -> user_may d ou (m_channel m) ManageMessages)).
  { destruct (is_dm_result chr); [|apply ans_perm]. intros w Hw. by split. }
  intros ismod. apply triple_pure. intros Hmod.
  intros w Hw. unfold mbind at 1, ST_bind at 1, sys at 1. cbn [fst snd].
  set (w1 := w_set_sys (DeleteMessage id uid ismod (w_sys w)).2 w).
  assert (Hsame : forall d1, sys_db (DeleteMessage id uid ismod (w_sys w)).2 = d1 ->
    actor p (fun d' => messages d' = messages d1) uid ou w1)
    by (intros d1 E; destruct Hw; split; [simpl; by rewrite E|done|done]).
  set (rest := match (DeleteMessage id uid ismod (w_sys w)).1 with inl _ => _ | inr _ => _ end).
  assert (Hrest : forall M0, stable (actor p (fun d' => messages d' = M0) uid ou) rest).
  { intros M0. unfold rest. destruct (DeleteMessage id uid ismod (w_sys w)).1; [apply act_fail|].
    apply stable_bind; [|intros _; destruct (is_dm_result chr); [apply act_dm|apply act_bcast]].
    apply act_sys, preserves_update. by intros now d1 H. }
  change (delete_effect payload (sys_db (w_sys (rest w1).2))).
  pose proof (act_db _ _ _ _ _ (Hrest _ w1 (Hsame _ eq_refl))) as Hfin. cbv beta in Hfin.
  destruct (DeleteMessage_cases id uid ismod (w_sys w)) as [Hdb|(m' & Hm' & Hown & Hdb)].
  - left. by rewrite Hfin, Hdb, <- (act_db _ _ _ _ _ Hw).
  - rewrite <- (act_db _ _ _ _ _ Hw) in Hm', Hdb. rewrite Hm in Hm'. injection Hm' as <-.
    right. exists lit, id, m. do 3 (split; [done|]). split; [by apply Hacc|].
    split; [destruct Hown as [->|Hown]; [right; by apply Hmod|by left]|]. by rewrite Hfin, Hdb.
Qed.
End change.

End WsAuth.
Export WsAuth.

(** C7: sending is authorised, in every state and whatever fails: either no
    stored message changes, or exactly one new message appears, in the channel
    that was asked for, by this user, holding the sanitized text of at most
    4000 characters; the user takes part in that DM, or their role grants both
    READ_MESSAGES and SEND_MESSAGES there, and ATTACH_FILES when the message
    has attachments. *)
Theorem chat_send_authorised sanitize p reqID payload w :
  let d := sys_db (w_sys w) in
  let d' := sys_db (w_sys (handleChatSend sanitize p reqID payload w).2) in
  let c := conn_of w p in
  messages d' = messages d \/
  exists pl channelID ch, unmarshal_chat_send payload = Some pl /\
    positive_id (cs_ChannelID pl) = Some channelID /\ channels d !! channelID = Some ch /\
    send_posted sanitize d (cl_userID c) (cl_user c) pl channelID ch d'.
Proof. by apply (send_handler sanitize p (sys_db (w_sys w)) (cl_userID (conn_of w p)) (cl_user (conn_of w p))). Qed.

(** Only the author edits a message: either no stored message changes, or
    the message that was named is the user's own, they still have access to
    its channel (SEND_MESSAGES, or participation in the DM), and it received
    the sanitized, non-empty text of at most 4000 characters and an edit time;
    no other message changes. *)
Theorem chat_edit_authorised sanitize p payload w :
  let c := conn_of w p in
  edit_effect (sys_db (w_sys w)) (cl_userID c) (cl_user c) sanitize payload
    (sys_db (w_sys (handleChatEdit sanitize p payload w).2)).
Proof. by apply (edit_handler p (sys_db (w_sys w)) (cl_userID (conn_of w p)) (cl_user (conn_of w p))). Qed.

(** A message is deleted only by its author or by a user whose role
    grants MANAGE_MESSAGES on its channel, who can read the channel too; the
    row stays, flagged as deleted, and no other message changes. *)
Theorem chat_delete_authorised p payload w :
  let c := conn_of w p in
  delete_effect (sys_db (w_sys w)) (cl_userID c) (cl_user c) payload
    (sys_db (w_sys (handleChatDelete p payload w).2)).
Proof. by apply (delete_handler p (sys_db (w_sys w)) (cl_userID (conn_of w p)) (cl_user (conn_of w p))). Qed.
