(* ===== verification/Conns.v ===== *)
(** * Connections and deliveries

    Who receives what, who may connect, how a reconnection replaces the old
    connection, and how fast a revoked session is noticed. *)

From S2P Require Import Prelude Permissions RingBuffer RateLimiter GoText Wire Json GoTime Crypto Credentials Rows Store StoreInv StoreOk StoreThms Hub Chat Voice Serve WsInv WsOk WsRun WsAuth.
#[local] Open Scope string_scope.
#[local] Open Scope Z_scope.

Module Conns.

(** ** Deliveries *)

(** A frame offered to a connection: dropped when it is closed or its queue is
    full. *)
Definition offer (msg : string) (c : Client) : Client :=
  if cl_sendClosed c then c else (chan_send msg c).2.

Definition coherent (m : gmap Z Client) : Prop :=
  map_Forall (fun _ c => ch_closed (cl_send c) = cl_sendClosed c) m.

Lemma wok_coherent K rb sq w : wok K rb sq w -> coherent (w_conns w).
Proof. intros Hw p c Hp. by apply cok_closed, (wok_conns _ _ _ _ Hw p c). Qed.

Lemma offer_closed msg c : ch_closed (cl_send c) = cl_sendClosed c ->
  ch_closed (cl_send (offer msg c)) = cl_sendClosed (offer msg c).
Proof.
  intros Hc. unfold offer. destruct (cl_sendClosed c) eqn:E; [congruence|].
  unfold chan_send. destruct (_ <? _)%nat; simpl; congruence.
Qed.

Lemma offer_same msg c :
  cl_userID (offer msg c) = cl_userID c /\ cl_channelID (offer msg c) = cl_channelID c /\
  cl_voiceChID (offer msg c) = cl_voiceChID c.
Proof. unfold offer, chan_send. destruct (cl_sendClosed c); [done|]. by destruct (_ <? _)%nat. Qed.

Lemma set_conns_id w : w_set_conns (w_conns w) w = w.
Proof. by destruct w. Qed.

Lemma send_eq w q msg : coherent (w_conns w) ->
  (sendMsg q msg w).2 = w_set_conns (alter (offer msg) q (w_conns w)) w.
Proof.
  intros Hc. unfold sendMsg, trySendMsg, conn, gets, mbind, ST_bind. simpl. unfold conn_of.
  destruct (w_conns w !! q) as [c|] eqn:Hq; simpl.
  - specialize (Hc q c Hq). simpl in Hc. rewrite Hc. destruct (cl_sendClosed c) eqn:E; simpl.
    + rewrite alter_id; [by rewrite set_conns_id|]. intros x Hx. unfold offer. simplify_eq. by rewrite E.
    + f_equal. apply map_eq. intros k. destruct (decide (q = k)) as [<-|Hne].
      * rewrite !lookup_alter_eq, Hq. simpl. unfold offer. by rewrite E.
      * by rewrite !lookup_alter_ne.
  - f_equal. apply map_eq. intros k. destruct (decide (q = k)) as [<-|Hne].
    + by rewrite !lookup_alter_eq, Hq.
    + by rewrite !lookup_alter_ne.
Qed.

Lemma coherent_offer m q msg : coherent m -> coherent (alter (offer msg) q m).
Proof.
  intros Hm k c Hk. apply lookup_alter_Some in Hk as [(<- & c0 & H0 & ->)|[_ Hk]].
  - apply offer_closed. by apply (Hm q c0).
  - by apply (Hm k c).
Qed.

(** The loop over the clients. *)
Lemma fanout_eq (l : list (Z * Z)) ch msg w : NoDup l.*2 -> coherent (w_conns w) ->
  w_conns (forM_ l (fun '(_, p) => c ← conn p; when (addressed ch c) (sendMsg p msg)) w).2 =
  map_imap (fun q c => Some (if bool_decide (q ∈ l.*2) && addressed ch c then offer msg c else c))
    (w_conns w).
Proof.
  revert w. induction l as [|[u p] l IH]; intros w Hnd Hc.
  - simpl. apply map_eq. intros k. rewrite map_lookup_imap. by destruct (w_conns w !! k).
  - apply NoDup_cons in Hnd as [Hp Hnd]. simpl in Hp |- *.
    unfold mbind at 1, ST_bind at 1. cbn [snd].
    unfold conn, gets, mbind, ST_bind. cbn [fst snd].
    assert (Hne : forall k, k ∈ l.*2 -> k <> p) by (intros k Hk ->; done).
    assert (Hplain : addressed ch (conn_of w p) = false ->
      w_conns (forM_ l (fun '(_, p) => c ← conn p; when (addressed ch c) (sendMsg p msg)) w).2 =
      map_imap (fun q c => Some (if bool_decide (q ∈ p :: l.*2) && addressed ch c then offer msg c else c))
        (w_conns w)).
    { intros Ha. rewrite IH by done. apply map_eq. intros k. rewrite !map_lookup_imap.
      destruct (w_conns w !! k) as [c|] eqn:Hk; [|done]. unfold mbind, option_bind. cbv beta iota. f_equal.
      destruct (decide (k = p)) as [->|Hkp].
      - unfold conn_of in Ha. rewrite Hk in Ha. simpl in Ha. by rewrite Ha, !andb_false_r.
      - by rewrite (bool_decide_ext (k ∈ p :: l.*2) (k ∈ l.*2)) by (rewrite elem_of_cons; naive_solver). }
    destruct (addressed ch (conn_of w p)) eqn:Ha; [|by apply Hplain].
    cbn [when]. rewrite send_eq by done. rewrite IH; [|done|by apply coherent_offer].
    cbn [w_conns w_set_conns]. apply map_eq. intros k. rewrite !map_lookup_imap.
    destruct (decide (p = k)) as [<-|Hkp].
    + rewrite lookup_alter_eq. destruct (w_conns w !! p) as [c|] eqn:Hk; [|done]. unfold mbind, option_bind. cbv beta iota. f_equal.
      unfold conn_of in Ha. rewrite Hk in Ha. simpl in Ha.
      rewrite (bool_decide_false (p ∈ l.*2)) by done. rewrite bool_decide_true by (by left).
      by rewrite Ha.
    + rewrite lookup_alter_ne by done. destruct (w_conns w !! k) as [c|]; [|done]. unfold mbind, option_bind. cbv beta iota. f_equal.
      do 2 case_bool_decide; try done; set_solver.
Qed.

(** The pointers of the client map, each once. *)
Lemma client_list_spec K rb sq w q c : wok K rb sq w -> w_conns w !! q = Some c ->
  q ∈ (client_list w).*2 <-> w_clients w !! cl_userID c = Some q.
Proof.
  intros Hw Hq. unfold client_list. rewrite list_elem_of_fmap. split.
  - intros ([u q'] & -> & Hin). apply elem_of_map_to_list in Hin.
    destruct (wok_clients _ _ _ _ Hw u _ Hin) as (c' & Hc' & <-). simpl in *. by simplify_eq.
  - intros Hcl. exists (cl_userID c, q). split; [done|]. by apply elem_of_map_to_list.
Qed.

Lemma client_list_NoDup K rb sq w : wok K rb sq w -> NoDup (client_list w).*2.
Proof.
  intros Hw. unfold client_list. apply NoDup_fmap_2_strong; [|apply NoDup_map_to_list].
  intros [u q] [u' q'] H1 H2 E. simpl in E. subst q'.
  apply elem_of_map_to_list in H1, H2.
  destruct (wok_clients _ _ _ _ Hw u q H1) as (c & Hc & <-).
  destruct (wok_clients _ _ _ _ Hw u' q H2) as (c' & Hc' & <-). by simplify_eq.
Qed.

(** The connection [q] is its user's registered one and is in the audience. *)
Definition receives (ch : Z) (w : World) (q : Z) (c : Client) : bool :=
  bool_decide (w_clients w !! cl_userID c = Some q) && addressed ch c.

Lemma deliver_eq K rb sq bm w : Ring.ring_ok rb -> wok K rb sq w ->
  w_conns (deliverBroadcast bm w).2 =
  map_imap (fun q c => Some (if receives (bm_channelID bm) w q c
    then offer (wrapWithSeq (bm_msg bm) (wrap_uint64 (sq + 1))) c else c)) (w_conns w).
Proof.
  intros Hrb Hw. unfold deliverBroadcast, nextSeq, mbind, ST_bind. cbn [fst snd].
  rewrite (wok_sq _ _ _ _ Hw). set (f := wrapWithSeq _ _).
  unfold push_replay, gets, mbind, ST_bind. cbn [fst snd w_replayBuf w_set_seq].
  rewrite (wok_rb _ _ _ _ Hw), Ring.Push_eq by done. cbn [modify fst snd].
  match goal with |- w_conns (forM_ ?l ?g ?w1).2 = _ => set (w1' := w1) end.
  assert (Hl : client_list w1' = client_list w) by done.
  etrans; [exact (fanout_eq (client_list w1') (bm_channelID bm) f w1'
    (client_list_NoDup _ _ _ w Hw) (wok_coherent _ _ _ w Hw))|].
  apply map_eq. intros k. rewrite !map_lookup_imap. change (w_conns w1') with (w_conns w).
  destruct (w_conns w !! k) as [c|] eqn:Hk; [|done]. unfold mbind, option_bind. cbv beta iota. do 2 f_equal.
  unfold receives. rewrite Hl.
  by rewrite (bool_decide_ext _ _ (client_list_spec _ _ _ w k c Hw Hk)).
Qed.

End Conns.
Export Conns.

(** Delivery of a broadcast, after any run: exactly the registered
    connections whose user has the channel in focus or is in its voice channel
    (all of them for channel 0) are offered the frame, with the next sequence
    number; every other connection is left as it was. *)
Theorem broadcast_delivery sanitize to_jwt es faults now ticks lk proc wf bm :
  let w := (run sanitize to_jwt es (start faults now ticks lk proc wf)).2 in
  w_conns (deliverBroadcast bm w).2 =
  map_imap (fun q c => Some (if receives (bm_channelID bm) w q c
    then offer (wrapWithSeq (bm_msg bm) (wrap_uint64 (w_seq w + 1))) c else c)) (w_conns w).
Proof.
  intros w. destruct (run_inv sanitize to_jwt [] es _ (start_inv faults now ticks lk proc wf))
    as (rb & Hrb & Hw). fold w in Hw.
  rewrite (wok_sq _ _ _ _ Hw). eapply deliver_eq; [apply Hrb|exact Hw].
Qed.
