(* ===== verification/Sessions.v ===== *)
(** * The life of a connection

    Predicates on one connection that every other activity of the process
    keeps; the authentication of connections, the periodic check of the session,
    and the replacement of a connection by a newer one. *)

From S2P Require Import Prelude Permissions RingBuffer RateLimiter GoText Wire Json GoTime Crypto Credentials Rows Store StoreInv StoreOk StoreThms Hub Chat Voice Serve WsInv WsOk WsRun WsAuth Conns.
#[local] Open Scope string_scope.
#[local] Open Scope Z_scope.

Module Sessions.

Definition close_client (c : Client) : Client :=
  cl_set_send (mkChan (ch_buf (cl_send c)) true) (cl_set_sendClosed true c).

(** A predicate on the fields that deliveries and closing do not change. *)
Record field_pred (F : Client -> Prop) : Prop := {
  fp_own : forall f c, own_update f -> F c -> F (f c);
  fp_send : forall msg c, cl_sendClosed c = false -> F c -> F (chan_send msg c).2;
  fp_close : forall c, F c -> F (close_client c);
  fp_chan : forall b c, F c -> F (cl_set_send (mkChan b (ch_closed (cl_send c))) c);
  fp_wire : forall x c, F c -> F (cl_set_wire x c);
  fp_addr : forall a c, F c -> F (cl_set_remoteAddr a c);
  fp_role : forall a c, F c -> F (cl_set_roleName a c) }.

(** The connection [p0] exists and satisfies [F]. *)
Definition conn_has (p0 : Z) (F : Client -> Prop) (w : World) : Prop :=
  exists c, w_conns w !! p0 = Some c /\ F c /\ p0 < w_next w.

Section one.
Context (p0 : Z) (F : Client -> Prop) (HF : field_pred F).
Let I := conn_has p0 F.

Lemma has_fields w w' : I w -> w_conns w' = w_conns w -> w_next w' = w_next w -> I w'.
Proof. intros (c & Hc & HFc & Hn) E1 E2. exists c. by rewrite E1, E2. Qed.

Lemma has_alter w q f : I w -> (forall c, w_conns w !! q = Some c -> q = p0 -> F c -> F (f c)) ->
  I (w_set_conns (alter f q (w_conns w)) w).
Proof.
  intros (c & Hc & HFc & Hn) Hf. destruct (decide (q = p0)) as [->|Hne].
  - exists (f c). simpl. rewrite lookup_alter_eq, Hc. by repeat split; auto.
  - exists c. simpl. by rewrite lookup_alter_ne.
Qed.

Lemma has_upd q f : (q = p0 -> forall c, F c -> F (f c)) -> stable I (upd q f).
Proof. intros Hf w Hw. apply has_alter; [done|]. intros c _ Hq. by apply Hf. Qed.

Lemma has_close q : stable I (closeSend q).
Proof.
  intros w Hw. unfold closeSend, conn, gets, mbind, ST_bind. simpl.
  destruct (cl_sendClosed _); [done|]. destruct (ch_closed _); [by apply (has_fields w)|].
  apply has_alter; [done|]. intros c _ _. apply (fp_close F HF).
Qed.

Lemma has_handler p : handler_inv p sound_call own_update I.
Proof.
  split.
  - intros A m _ w Hw. by apply (has_fields w).
  - intros r w Hw. by apply (has_fields w).
  - intros q msg w Hw. unfold trySendMsg, conn, gets, mbind, ST_bind. simpl.
    destruct (cl_sendClosed _) eqn:E; [done|]. destruct (ch_closed _); [by apply (has_fields w)|].
    apply has_alter; [done|]. intros c Hc _. unfold conn_of in E. rewrite Hc in E. by apply (fp_send F HF).
  - intros c msg w Hw. unfold BroadcastToChannel, gets, mbind, ST_bind, when. simpl.
    destruct (_ <? _)%nat; [by apply (has_fields w)|done].
  - intros f Hf. apply has_upd. intros _ c. by apply (fp_own F HF).
  - intros x w Hw. by apply (has_fields w).
  - intros x w Hw. by apply (has_fields w).
  - intros w Hw. unfold drop_client, lookup_client, conn, gets, mbind, ST_bind, when. simpl.
    case_bool_decide; [by apply (has_fields w)|done].
  - apply has_close.
Qed.

Lemma has_wire q frame : stable I (conn_write q frame).
Proof.
  intros w Hw. unfold conn_write.
  destruct (w_wire_faults w) as [|[] fs]; simpl; try (by apply (has_fields w));
    (eapply (has_fields (w_set_conns _ w)); [apply has_alter; [exact Hw|]|..]; try done);
    intros c _ _; apply (fp_wire F HF).
Qed.

Lemma has_pump q : stable I (pump q).
Proof.
  intros w Hw. unfold pump, conn, gets, mbind, ST_bind. simpl.
  destruct (ch_buf (cl_send (conn_of w q))) as [|frame rest] eqn:E; [done|]. simpl.
  apply has_wire, has_alter; [done|]. intros c _ _. apply (fp_chan F HF).
Qed.

Lemma has_process : process_inv sound_call I.
Proof.
  split.
  - apply sound_reads.
  - apply sound_writes.
  - apply has_handler.
  - apply has_wire.
  - apply has_pump.
  - intros x w Hw. by apply (has_fields w).
  - intros x w Hw. by apply (has_fields w).
Qed.

Lemma has_newClient u h : triple I (newClient u h) (fun _ => I).
Proof.
  unfold newClient. eapply triple_bind; [eapply pr_now, has_process|].
  intros t w (c & Hc & HFc & Hn). exists c. simpl. rewrite lookup_insert_ne by lia.
  split; [done|]. split; [done|lia].
Qed.

Lemma has_register p : stable I (registerNow p).
Proof.
  unfold registerNow. apply stable_bind; [apply stable_gets|intros c].
  apply stable_bind; [apply stable_gets|intros old].
  apply stable_bind; [destruct old; [eapply pr_take_over, has_process|apply stable_ret]|intros _].
  apply stable_modify. intros w Hw. by apply (has_fields w).
Qed.

Lemma has_connect raw addr : stable I (ServeWS raw addr).
Proof.
  apply (connect_stable sound_call I (fun _ => I)); try done.
  - apply has_process.
  - intros _. apply has_process.
  - apply has_newClient.
  - intros p a. apply has_upd. intros _ c. apply (fp_addr F HF).
  - intros p a. apply has_upd. intros _ c. apply (fp_role F HF).
  - apply has_register.
  - intros p k w Hw. unfold events_since, gets, mbind, ST_bind. simpl.
    destruct (Ring.EventsSince _ _) as [r|]; [done|by apply (has_fields w)].
Qed.

Lemma has_dispatch : stable I dispatch_broadcast.
Proof.
  unfold dispatch_broadcast. apply stable_bind; [apply stable_gets|intros [|bm q]]; [apply stable_ret|].
  apply stable_bind; [apply stable_modify; intros w Hw; by apply (has_fields w)|intros _].
  unfold deliverBroadcast. apply stable_bind; [intros w Hw; by apply (has_fields w)|intros s].
  apply stable_bind.
  - unfold push_replay. apply stable_bind; [apply stable_gets|intros rb].
    destruct (Ring.Push rb s _); apply stable_modify; intros w Hw; by apply (has_fields w).
  - intros _. apply stable_bind; [apply stable_gets|intros cs]. apply (pr_fanout sound_call I has_process).
Qed.

(** Everything but the connection's own messages. *)
Lemma has_event san jwt e : (forall raw, e <> EvReceive p0 raw) -> stable I (run_event san jwt e).
Proof.
  intros He. destruct e as [raw addr|p raw|p|p| | |i|u c|c|c msg|u msg|op|]; simpl.
  - apply stable_bind; [apply has_connect|intros ?; apply stable_ret].
  - handler receive_stable with has_handler.
    unfold count_message. apply stable_bind; [apply stable_gets|intros c].
    apply stable_bind; [|intros _; apply stable_ret]. apply has_upd. intros ->. by destruct (He raw).
  - eapply pr_disconnect, has_process.
  - apply has_pump.
  - apply has_dispatch.
  - eapply pr_sweep, has_process.
  - eapply pr_retry, has_process.
  - eapply pr_webhook, has_process.
  - eapply pr_cleanup, has_process.
  - apply (pi_handler _ _ has_process 0).
  - apply stable_bind; [eapply pr_SendToUser, has_process|intros ?; apply stable_ret].
  - intros w Hw. by apply (has_fields w).
  - eapply pr_stop, has_process.
Qed.

(** Its own messages too, when counting them keeps [F]. *)
Lemma has_receive san jwt raw : (forall n c, F c -> F (cl_set_msgCount n c)) -> stable I (receive san jwt p0 raw).
Proof.
  intros Hc. handler receive_stable with has_handler.
  unfold count_message. apply stable_bind; [apply stable_gets|intros c].
  apply stable_bind; [|intros _; apply stable_ret]. apply has_upd. intros _. apply Hc.
Qed.

Lemma has_run san jwt es : (forall n c, F c -> F (cl_set_msgCount n c)) -> stable I (run san jwt es).
Proof.
  intros Hc. apply stable_forM. intros e.
  assert ((exists raw, e = EvReceive p0 raw) \/ forall raw, e <> EvReceive p0 raw) as [[raw ->]|He].
  { destruct e; try (by right). destruct (decide (p = p0)) as [->|]; [left; eauto|right; congruence]. }
  - by apply has_receive.
  - by apply has_event.
Qed.
End one.

(** ** Instances *)

Lemma counter_pred n h : field_pred (fun c => cl_msgCount c = n /\ cl_tokenHash c = h).
Proof.
  split; try done; intros; try by simpl.
  - by destruct H.
  - unfold chan_send. by destruct (_ <? _)%nat.
Qed.

Lemma closed_pred : field_pred (fun c => cl_sendClosed c = true).
Proof.
  split; try done; intros.
  - by destruct H.
  - congruence.
Qed.

Lemma ident_pred uid h : field_pred (fun c => cl_userID c = uid /\ cl_tokenHash c = h).
Proof.
  split; try done; intros.
  - by destruct H.
  - unfold chan_send. by destruct (_ <? _)%nat.
Qed.

(** ** The periodic check *)

Lemma touch_db p w : sys_db (w_sys (touch p w).2) = sys_db (w_sys w).
Proof. apply tick_db. Qed.

(** The effect of counting a message. *)
Lemma count_eq p w c : w_conns w !! p = Some c ->
  count_message p w =
    (SessionCheckInterval <=? wrap_int64 (cl_msgCount c + 1),
     w_set_conns (alter (cl_set_msgCount (if SessionCheckInterval <=? wrap_int64 (cl_msgCount c + 1)
       then 0 else wrap_int64 (cl_msgCount c + 1))) p (w_conns w)) w).
Proof.
  intros Hc. unfold count_message, conn, gets, mbind, ST_bind. simpl. unfold conn_of. by rewrite Hc.
Qed.

Lemma count_has p n h w : conn_has p (fun c => cl_msgCount c = n /\ cl_tokenHash c = h) w -> 0 <= n < 9 ->
  (count_message p w).1 = false /\
  conn_has p (fun c => cl_msgCount c = n + 1 /\ cl_tokenHash c = h) (count_message p w).2.
Proof.
  intros (c & Hc & [Hn Hh] & Hp) Hr. rewrite (count_eq p w c Hc), Hn.
  rewrite wrap_int64_small by (unfold is_int64, two63; lia). unfold SessionCheckInterval.
  destruct (Z.leb_spec 10 (n + 1)); [lia|]. split; [done|]. exists (cl_set_msgCount (n + 1) c).
  simpl. by rewrite lookup_alter_eq, Hc.
Qed.

Lemma receive_counts san jwt p raw n h w :
  conn_has p (fun c => cl_msgCount c = n /\ cl_tokenHash c = h) w -> 0 <= n < 9 ->
  conn_has p (fun c => cl_msgCount c = n + 1 /\ cl_tokenHash c = h) (receive san jwt p raw w).2.
Proof.
  intros Hw Hn. unfold receive, mbind, ST_bind. cbn [snd].
  assert (Ht : conn_has p (fun c => cl_msgCount c = n /\ cl_tokenHash c = h) (touch p w).2).
  { revert w Hw. change (stable (conn_has p (fun c => cl_msgCount c = n /\ cl_tokenHash c = h)) (touch p)).
    handler st_touch with (has_handler p _ (counter_pred n h) p). }
  unfold handleMessage, mbind, ST_bind. cbn [fst snd].
  destruct (count_has p n h _ Ht Hn) as [-> Hc]. cbn [negb mret ST_ret fst snd].
  revert Hc. generalize (count_message p (touch p w).2).2.
  change (stable (conn_has p (fun c => cl_msgCount c = n + 1 /\ cl_tokenHash c = h)) (process_message san jwt p raw)).
  handler st_process with (has_handler p _ (counter_pred (n + 1) h) p).
Qed.

(** Closing a sound connection closes it. *)
Lemma close_closes K rb sq p w c : wok K rb sq w -> w_conns w !! p = Some c -> p < w_next w ->
  conn_has p (fun c => cl_sendClosed c = true) (closeSend p w).2.
Proof.
  intros Hw Hc Hp. pose proof (wok_coherent _ _ _ _ Hw p c Hc) as Hcoh. simpl in Hcoh.
  unfold closeSend, conn, gets, mbind, ST_bind. simpl. unfold conn_of. rewrite Hc. simpl. rewrite Hcoh.
  destruct (cl_sendClosed c) eqn:E; [by exists c|]. exists (close_client c). simpl.
  by rewrite lookup_alter_eq, Hc.
Qed.

Lemma kick_closes K rb sq p w : wok K rb sq w -> conn_has p (fun _ => True) w ->
  conn_has p (fun c => cl_sendClosed c = true) (kickClient p w).2.
Proof.
  intros Hw (c & Hc & _ & Hp). unfold kickClient, mbind, ST_bind. cbn [snd].
  assert (Hd : wok K rb sq (drop_client p w).2) by by apply ok_drop.
  assert (E : w_conns (drop_client p w).2 = w_conns w /\ w_next (drop_client p w).2 = w_next w).
  { unfold drop_client, lookup_client, conn, gets, mbind, ST_bind, when. simpl. by case_bool_decide. }
  destruct E as [E1 E2]. eapply close_closes; [exact Hd|by rewrite E1|by rewrite E2].
Qed.

(** The tenth message, when the session is gone. *)
Lemma check_closes san jwt K rb sq p raw h w :
  wok K rb sq w -> conn_has p (fun c => cl_msgCount c = 9 /\ cl_tokenHash c = h) w -> h <> "" ->
  session_by_token h (sys_db (w_sys w)) = None ->
  conn_has p (fun c => cl_sendClosed c = true) (receive san jwt p raw w).2.
Proof.
  intros Hw Hc Hh Hs. unfold receive, mbind, ST_bind. cbn [snd].
  pose proof (touch_db p w) as Hdb.
  assert (Ht : conn_has p (fun c => cl_msgCount c = 9 /\ cl_tokenHash c = h) (touch p w).2).
  { revert w Hw Hc Hs Hdb. intros w _ Hc _ _. revert w Hc.
    change (stable (conn_has p (fun c => cl_msgCount c = 9 /\ cl_tokenHash c = h)) (touch p)).
    handler st_touch with (has_handler p _ (counter_pred 9 h) p). }
  assert (Hw1 : wok K rb sq (touch p w).2).
  { revert w Hw Hc Hs Hdb Ht. intros w Hw _ _ _ _. revert w Hw. change (stable (wok K rb sq) (touch p)).
    handler st_touch with (wok_handler K rb sq p). }
  destruct Ht as (c & Hc1 & [Hn Hth] & Hp). set (w1 := (touch p w).2) in *.
  unfold handleMessage, mbind, ST_bind. cbn [fst snd]. rewrite (count_eq p w1 c Hc1), Hn. cbn [fst snd].
  change (SessionCheckInterval <=? wrap_int64 (9 + 1)) with true. cbv iota.
  set (w2 := w_set_conns _ w1).
  assert (Hw2 : wok K rb sq w2).
  { apply wok_alter; [done|]. intros c0 _ [C1 C2 C3 C4]. split; [|done]. split; simpl; try done. }
  assert (Hc2 : w_conns w2 !! p = Some (cl_set_msgCount 0 c))
    by (unfold w2; cbn [w_conns w_set_conns]; by rewrite lookup_alter_eq, Hc1).
  assert (Hkick : (session_alive p w2).1 = false /\
    conn_has p (fun c => cl_sendClosed c = true) (session_alive p w2).2).
  { unfold session_alive, conn, gets, mbind, ST_bind. cbn [fst snd].
    assert (conn_of w2 p = cl_set_msgCount 0 c) as -> by (unfold conn_of; by rewrite Hc2).
    cbn [cl_tokenHash cl_set_msgCount]. rewrite Hth.
    destruct (String.eqb_spec h ""); [done|].
    set (q := sys (GetSessionWithBanStatus h) w2).
    assert (Hq : wok K rb sq q.2 /\ w_conns q.2 = w_conns w2 /\ w_next q.2 = w_next w2).
    { split; [|done]. eapply pr_read; [apply wok_process|auto with ws_db|done]. }
    assert (Hr : (exists e, q.1 = inl e) \/ q.1 = inr None).
    { unfold q, sys, GetSessionWithBanStatus. cbn [fst].
      match goal with |- context [query ?f ?s] => destruct (query_cases f s) as [_ [H|H]] end;
        [by left|right]. rewrite H. change (sys_db (w_sys w2)) with (sys_db (w_sys w1)).
      by rewrite Hdb, Hs. }
    destruct Hq as (Hq1 & Hq2 & Hq3).
    assert (Hk : conn_has p (fun c => cl_sendClosed c = true) (kickClient p q.2).2).
    { eapply kick_closes; [exact Hq1|]. exists (cl_set_msgCount 0 c). by rewrite Hq2, Hq3. }
    destruct Hr as [[e He]|He]; rewrite He; by split. }
  destruct Hkick as [-> Hk]. exact Hk.
Qed.

Definition from_conn (p : Z) (e : event) : bool :=
  match e with EvReceive q _ => q =? p | _ => false end.

Section revoke.
Context (san : string -> string) (jwt : Grant -> option string).
Local Notation run := (run san jwt).

Lemma revoked_run p h es : h <> "" -> forall n L w,
  hub_inv L w -> conn_has p (fun c => cl_msgCount c = n /\ cl_tokenHash c = h) w -> 0 <= n < 10 ->
  (forall es1 es2, es = (es1 ++ es2)%list -> session_by_token h (sys_db (w_sys (run es1 w).2)) = None) ->
  10 - n <= Z.of_nat (countb (from_conn p) es) ->
  conn_has p (fun c => cl_sendClosed c = true) (run es w).2.
Proof.
  intros Hh. induction es as [|e es IH]; intros n L w Hinv Hc Hn Hs Hcount.
  { rewrite countb_nil in Hcount. lia. }
  assert (Hs' : forall es1 es2, es = (es1 ++ es2)%list ->
    session_by_token h (sys_db (w_sys (run es1 (run_event san jwt e w).2).2)) = None)
    by (intros es1 es2 ->; by apply (Hs (e :: es1) es2)).
  change (run (e :: es) w).2 with (run es (run_event san jwt e w).2).2.
  pose proof (run_event_inv san jwt L e w Hinv) as Hinv'.
  destruct (from_conn p e) eqn:He.
  - destruct e as [| q raw | | | | | | | | | | |]; try done. simpl in He. apply Z.eqb_eq in He as ->.
    assert (Hcount' : 9 - n <= Z.of_nat (countb (from_conn p) es)).
    { change (EvReceive p raw :: es) with ([EvReceive p raw] ++ es)%list in Hcount.
      rewrite countb_app in Hcount. unfold countb at 1 in Hcount. simpl in Hcount.
      rewrite Z.eqb_refl in Hcount. simpl in Hcount. lia. }
    destruct (decide (n = 9)) as [->|Hn9].
    + apply has_run; [apply closed_pred|done|].
      destruct Hinv as (rb & _ & Hw). eapply check_closes; try done. by apply (Hs [] (EvReceive p raw :: es)).
    + apply (IH (n + 1) _ _ Hinv'); [|lia|done|lia]. apply receive_counts; [done|lia].
  - assert (Hcount' : 10 - n <= Z.of_nat (countb (from_conn p) es)).
    { change (e :: es) with ([e] ++ es)%list in Hcount. rewrite countb_app in Hcount.
      unfold countb at 1 in Hcount. simpl in Hcount. rewrite He in Hcount. simpl in Hcount. lia. }
    apply (IH n _ _ Hinv'); try done. apply has_event; [apply counter_pred| |done].
    intros raw ->. simpl in He. by rewrite Z.eqb_refl in He.
Qed.
End revoke.

(** ** Authentication *)

(** The frame names a live session in [d], and [u] is its unbanned user; the
    clock was at [t0] or later. *)
Definition authenticated (d : Db) (t0 : Z) (raw : option string) (u : User) (h : string) : Prop :=
  exists txt env token last sess t1 t2, raw = Some txt /\ decode_envelope txt = Some env /\
    env_Type env = "auth" /\ unmarshal auth_fields ("", 0) (env_Payload env) = Some (token, last) /\
    token <> "" /\ h = HashToken token /\ session_by_token h d = Some sess /\ t0 <= t1 <= t2 /\
    IsSessionExpired t1 (s_expires sess) = false /\ users d !! s_user sess = Some u /\
    IsEffectivelyBanned t2 (Some (ban_of_user u)) = false.

Section auth.
Context (d : Db).

Definition at_time (t : Z) (w : World) : Prop := sys_db (w_sys w) = d /\ t <= sys_now (w_sys w).

Lemma at_now t : triple (at_time t) now (fun t' w => at_time t' w /\ t <= t').
Proof.
  intros w [Hd Ht]. assert (H : t <= sys_now (tick (w_sys w))) by (etrans; [exact Ht|apply tick_now]).
  split; [|exact H]. split; [|apply Z.le_refl]. unfold now, sys, read_clock. simpl. by rewrite tick_db.
Qed.

Lemma exec_now {A} (f : Z -> Db -> result db_error (A * Db)) s : sys_now s <= sys_now (exec f s).2.
Proof.
  pose proof (tick_now s). unfold exec. destruct (faulty (tick s)); [done|].
  by destruct (f _ _) as [?|[??]].
Qed.

Lemma at_query {A} (f : Db -> A) t :
  triple (at_time t) (sys (query f)) (fun r w => at_time t w /\ ((exists e, r = inl e) \/ r = inr (f d))).
Proof.
  intros w [Hd Ht]. unfold sys. simpl. destruct (query_cases f (w_sys w)) as [Hq Hr].
  rewrite <- Hd. split; [|done]. split; simpl; [by rewrite Hq|].
  etrans; [exact Ht|]. apply (exec_now (fun _ d => inr (f d, d))).
Qed.

Lemma auth_sound t raw : triple (at_time t) (authenticateConn raw) (fun r w =>
  match r with AuthRefused _ => True | AuthAccepted u h last => at_time t w /\ authenticated d t raw u h end).
Proof.
  assert (Hno : forall f I, triple I (mret (AuthRefused f)) (fun r w =>
    match r with AuthRefused _ => True | AuthAccepted u h last => at_time t w /\ authenticated d t raw u h end))
    by done.
  unfold authenticateConn. destruct raw as [txt|]; [|apply Hno].
  destruct (decode_envelope txt) as [env|] eqn:Henv; [|apply Hno].
  destruct (String.eqb_spec (env_Type env) "auth") as [Hty|]; [cbn [negb]|apply Hno].
  destruct (unmarshal auth_fields _ _) as [[token last]|] eqn:Hpl; [|apply Hno].
  destruct (String.eqb_spec token "") as [|Htok]; [apply Hno|].
  unfold authenticate_token. eapply triple_bind; [apply at_query|]. intros r. apply triple_pure.
  intros [[e ->]| ->]; [apply Hno|].
  destruct (session_by_token (HashToken token) d) as [sess|] eqn:Hs; [|apply Hno].
  eapply triple_bind; [apply at_now|]. intros t1. apply triple_pure. intros Ht1.
  destruct (IsSessionExpired t1 (s_expires sess)) eqn:Hexp; [apply Hno|].
  eapply triple_bind; [apply at_query|]. intros r. apply triple_pure.
  intros [[e ->]| ->]; [apply Hno|].
  destruct (users d !! s_user sess) as [u|] eqn:Hu; [|apply Hno].
  eapply triple_bind; [apply at_now|]. intros t2. apply triple_pure. intros Ht2.
  destruct (IsEffectivelyBanned t2 (Some (ban_of_user u))) eqn:Hban; [apply Hno|].
  intros w [Hd Hnow]. split; [split; [done|etrans; [apply Ht1|etrans; [apply Ht2|done]]]|].
  by exists txt, env, token, last, sess, t1, t2.
Qed.
End auth.

(** The connection [p] belongs to the user and carries the hash. *)
Definition owned (p uid : Z) (h : string) : World -> Prop :=
  conn_has p (fun c => cl_userID c = uid /\ cl_tokenHash c = h).
Definition registered (p uid : Z) (w : World) : Prop := w_clients w !! uid = Some p.

Lemma owned_process p uid h : process_inv sound_call (owned p uid h).
Proof. apply has_process, ident_pred. Qed.

Lemma register_sets p uid h : triple (owned p uid h) (registerNow p) (fun _ w => owned p uid h w /\ registered p uid w).
Proof.
  intros w Hw. split; [by apply (has_register p _ (ident_pred uid h))|].
  destruct Hw as (c & Hc & [Hu _] & _). assert (conn_of w p = c) as Hof by (unfold conn_of; by rewrite Hc).
  unfold registerNow, registered, conn, gets, mbind, ST_bind. cbn [fst snd]. rewrite Hof, Hu.
  unfold set_client, modify. cbn [fst snd w_clients w_set_clients]. by rewrite lookup_insert_eq.
Qed.

(** What follows the registration leaves the map alone. *)
Lemma announce_keeps p uid h u msgs :
  stable (fun w => owned p uid h w /\ registered p uid w) (_ ← set_online u; forM_ msgs BroadcastToAll).
Proof.
  intros w [H1 H2]. split.
  - revert w H1 H2. intros w H1 _. revert w H1.
    change (stable (owned p uid h) (_ ← set_online u; forM_ msgs BroadcastToAll)).
    apply stable_bind; [eapply pr_online, owned_process|intros _].
    apply stable_forM. intros m. eapply pr_all, owned_process.
  - unfold registered in *. unfold mbind, ST_bind. cbn [snd].
    assert (H3 : w_clients (set_online u w).2 !! uid = Some p) by done.
    revert H3. generalize (set_online u w).2. clear. intros w.
    assert (Hst : stable (fun w => w_clients w !! uid = Some p) (forM_ msgs BroadcastToAll)).
    { apply stable_forM. intros m w' Hw'. unfold BroadcastToAll, BroadcastToChannel, gets, mbind, ST_bind, when.
      cbn [fst snd]. by destruct (_ <? _)%nat. }
    apply Hst.
Qed.

Lemma started_registered p uid h u r (evs : option (list string)) :
  triple (owned p uid h)
    (match evs with Some l => resume_session p u r l | None => fresh_session p u r end)
    (fun b w => b = true -> owned p uid h w /\ registered p uid w).
Proof.
  assert (Hst : forall A (m : M A), stable (owned p uid h) m -> triple (owned p uid h) m (fun _ => owned p uid h))
    by done.
  destruct evs as [l|].
  - unfold resume_session. eapply triple_bind; [eapply Hst, pr_auth_ok, owned_process|]. intros f.
    eapply triple_bind; [eapply Hst, pr_write_all, owned_process|]. intros [|]; [|by intros w _]. cbn [negb].
    eapply triple_bind; [apply register_sets|]. intros _ w Hw _.
    apply (announce_keeps p uid h u [buildPresenceMsg (u_id u) "online"] w Hw).
  - unfold fresh_session. eapply triple_bind; [eapply Hst, pr_auth_ok, owned_process|]. intros f.
    eapply triple_bind; [eapply Hst, pr_wire, owned_process|]. intros [|]; [|by intros w _]. cbn [negb].
    eapply triple_bind; [eapply Hst, pr_ready, owned_process|]. intros ready.
    eapply triple_bind with (J := fun _ => owned p uid h).
    { destruct ready; [eapply pr_wire, owned_process|].
      apply stable_bind; [eapply pr_wire, owned_process|intros _; apply stable_ret]. }
    intros [|]; [|by intros w _]. cbn [negb].
    eapply triple_bind; [apply register_sets|]. intros _ w Hw _.
    apply (announce_keeps p uid h u [buildMemberJoin (u_id u) (u_username u) (u_avatar u) r;
      buildPresenceMsg (u_id u) "online"] w Hw).
Qed.

Lemma owned_upd p uid h f : (forall c, cl_userID (f c) = cl_userID c /\ cl_tokenHash (f c) = cl_tokenHash c) ->
  stable (owned p uid h) (upd p f).
Proof.
  intros Hf. apply (has_upd p (fun c => cl_userID c = uid /\ cl_tokenHash c = h) p).
  intros Hp c Hc. destruct (Hf c) as [-> ->]. exact Hc.
Qed.

Lemma serve_user_owned u h last addr : triple (fun _ => True) (serve_user u h last addr)
  (fun r w => forall p, r = Some p -> owned p (u_id u) h w /\ registered p (u_id u) w).
Proof.
  unfold serve_user. eapply triple_bind with (J := fun p => owned p (u_id u) h).
  { intros w0 _. unfold newClient, mbind, ST_bind, step. cbn [fst snd].
    exists (fresh_client u h (now w0).1). cbn [w_conns w_set_conns w_set_next w_next].
    rewrite lookup_insert_eq. repeat split. lia. }
  intros p. eapply triple_bind; [by apply (owned_upd p)|]. intros ?.
  eapply triple_bind; [eapply pr_role, owned_process|]. intros r.
  eapply triple_bind; [by apply (owned_upd p)|]. intros ?.
  eapply triple_bind; [eapply pr_write; [apply owned_process|auto with ws_db]|]. intros ?.
  eapply triple_bind with (J := fun _ => owned p (u_id u) h).
  { destruct (0 <? last); [|apply stable_ret]. intros w0 Hw0.
    unfold events_since, gets, mbind, ST_bind. cbn [fst snd].
    destruct (Ring.EventsSince _ _); [done|]. cbn [snd]. by apply (has_fields p _ w0). }
  intros evs. eapply triple_bind; [apply started_registered|]. intros b w0 Hw0 q Hq.
  destruct b; [|done]. injection Hq as <-. by apply Hw0.
Qed.

(** ** Replacement *)

Lemma upd_eq p f w c : w_conns w !! p = Some c -> (upd p f w).2 = w_set_conns (<[p := f c]> (w_conns w)) w.
Proof.
  intros Hc. unfold upd, modify. simpl. f_equal. apply map_eq. intros k.
  destruct (decide (p = k)) as [<-|Hne].
  - by rewrite lookup_alter_eq, lookup_insert_eq, Hc.
  - by rewrite lookup_alter_ne, lookup_insert_ne.
Qed.

(** Closing, once. *)
Definition closed_once (c : Client) : Client := if cl_sendClosed c then c else close_client c.

Lemma close_eq p w c : coherent (w_conns w) -> w_conns w !! p = Some c ->
  (closeSend p w).2 = w_set_conns (<[p := closed_once c]> (w_conns w)) w.
Proof.
  intros Hcoh Hc. pose proof (Hcoh p c Hc) as E. simpl in E.
  unfold closeSend, conn, gets, mbind, ST_bind. cbn [fst snd].
  assert (conn_of w p = c) as -> by (unfold conn_of; by rewrite Hc).
  rewrite E. unfold closed_once. destruct (cl_sendClosed c) eqn:Ecl.
  - cbn [mret ST_ret snd]. by rewrite insert_id, set_conns_id.
  - by apply (upd_eq p close_client w c).
Qed.

Lemma coherent_insert m k c : coherent m -> ch_closed (cl_send c) = cl_sendClosed c -> coherent (<[k := c]> m).
Proof. intros Hm Hc. by apply map_Forall_insert_2. Qed.

(** The connections after [p] took over from [o]. *)
Definition handed_over (m : gmap Z Client) (p o : Z) (c co : Client) : gmap Z Client :=
  <[o := closed_once (cl_set_voiceChID 0 co)]>
    (if cl_voiceChID c =? 0 then <[p := cl_set_voiceChID (cl_voiceChID co) c]> m else m).

Lemma take_over_eq w p o c co : coherent (w_conns w) -> w_conns w !! p = Some c -> w_conns w !! o = Some co ->
  p <> o -> (take_over p o w).2 = w_set_conns (handed_over (w_conns w) p o c co) w.
Proof.
  intros Hcoh Hp Ho Hne. unfold take_over, clearVoiceChID, getVoiceChID, setVoiceChID, conn, gets, when, mbind, ST_bind, mret, ST_ret.
  cbn [fst snd]. rewrite (upd_eq o _ w co Ho).
  assert (conn_of w o = co) as -> by (unfold conn_of; by rewrite Ho).
  set (w1 := w_set_conns _ w). assert (H1p : w_conns w1 !! p = Some c) by (simpl; by rewrite lookup_insert_ne).
  assert (H1o : w_conns w1 !! o = Some (cl_set_voiceChID 0 co)) by (simpl; by rewrite lookup_insert_eq).
  assert (Hc1 : coherent (w_conns w1)).
  { apply coherent_insert; [done|]. exact (Hcoh o co Ho). }
  assert (conn_of w1 p = c) as -> by (unfold conn_of; by rewrite H1p).
  unfold handed_over. destruct (cl_voiceChID c =? 0).
  - rewrite (upd_eq p _ w1 c H1p). set (w2 := w_set_conns _ w1).
    rewrite (close_eq o w2 (cl_set_voiceChID 0 co)).
    + unfold w2, w1. cbn [w_conns w_set_conns].
      rewrite (insert_insert_ne _ o p) by congruence. rewrite insert_insert_eq.
      by rewrite (insert_insert_ne _ o p) by congruence.
    + apply coherent_insert; [done|]. exact (Hcoh p c Hp).
    + simpl. rewrite lookup_insert_ne by done. by rewrite lookup_insert_eq.
  - cbn [fst snd]. rewrite (close_eq o w1 (cl_set_voiceChID 0 co) Hc1 H1o). unfold w1. cbn [w_conns w_set_conns].
    by rewrite insert_insert_eq.
Qed.

(** ** A run for the examples: a user connects *)

Definition hello (token : string) (lastSeq : Z) : string :=
  render (JObj [("type", JStr "auth");
    ("payload", JObj [("token", JStr token); ("last_seq", JInt lastSeq)])]).
Definition ping_msg : string := render (JObj [("type", JStr "ping")]).

Definition demo_start : World := start [] 1700000000000000000 [] (Some "ws://lk") None [].
Definition demo_connect : list event := [
  EvDb (OpCreateUser "ann" "pw" 4); EvDb (OpCreateSession 1 (HashToken "t") "pc" "::1");
  EvConnect (Some (hello "t" 0)) "addr"].

End Sessions.
Export Sessions.

(** C19: a revoked session does not survive ten messages: after any run, once
    the session of a connection is gone from the database and stays gone, the
    connection is closed by the time its client has sent ten more messages,
    whatever else the process does in between and whatever fails. *)
Theorem revoked_session_closed sanitize to_jwt es0 faults now ticks lk proc wf es p c
    (w := (run sanitize to_jwt es0 (start faults now ticks lk proc wf)).2)
    (Hc : w_conns w !! p = Some c) (Htoken : cl_tokenHash c <> "")
    (Hgone : forall k, session_by_token (cl_tokenHash c)
       (sys_db (w_sys (run sanitize to_jwt (take k es) w).2)) = None)
    (Hten : 10 <= Z.of_nat (countb (from_conn p) es)) :
  cl_sendClosed (conn_of (run sanitize to_jwt es w).2 p) = true.
Proof.
  pose proof (run_inv sanitize to_jwt [] es0 _ (start_inv faults now ticks lk proc wf)) as Hinv. fold w in Hinv.
  assert (Hok : p < w_next w /\ conn_ok c) by (destruct Hinv as (rb & _ & Hw); by apply (wok_conns _ _ _ _ Hw p c)).
  destruct (revoked_run sanitize to_jwt p (cl_tokenHash c) es Htoken (cl_msgCount c) _ w Hinv)
    as (c' & Hc' & Hcl & _).
  - exists c. split; [done|]. split; [done|apply Hok].
  - apply Hok.
  - intros es1 es2 ->. specialize (Hgone (length es1)). by rewrite take_app_length in Hgone.
  - pose proof (cok_count _ (proj2 Hok)). lia.
  - unfold conn_of. by rewrite Hc'.
Qed.

Lemma revoked_session_closed_witness :
  let id := fun s : string => s in
  let no_token := fun _ : Grant => None in
  let w := (run id no_token (demo_connect ++ [EvDb (OpDeleteSession (HashToken "t"))]) demo_start).2 in
  cl_sendClosed (conn_of w 1) = false /\
  cl_sendClosed (conn_of (run id no_token (replicate 10 (EvReceive 1 ping_msg)) w).2 1) = true.
Proof.
  intros id no_token w. split; [vm_compute; reflexivity|].
  apply (revoked_session_closed id no_token (demo_connect ++ [EvDb (OpDeleteSession (HashToken "t"))])
    [] 1700000000000000000 [] (Some "ws://lk") None [] (replicate 10 (EvReceive 1 ping_msg)) 1 (conn_of w 1)).
  - vm_compute. reflexivity.
  - vm_compute. discriminate.
  - intros k. do 11 (destruct k as [|k]; [vm_compute; reflexivity|]). vm_compute. reflexivity.
  - vm_compute. discriminate.
Defined.

(** C18: only an authenticated client gets a connection: when the handshake
    succeeds, the first frame was a well-formed auth message whose token hashes
    to a session in the database that had not expired, of an existing user who
    was not banned; the connection carries that hash, belongs to that user, and
    is the user's registered one. *)
Theorem connect_authenticated raw addr w :
  match (ServeWS raw addr w).1 with
  | None => True
  | Some p =>
      exists u h, authenticated (sys_db (w_sys w)) (sys_now (w_sys w)) raw u h /\
        let w' := (ServeWS raw addr w).2 in
        cl_userID (conn_of w' p) = u_id u /\ cl_tokenHash (conn_of w' p) = h /\
        w_clients w' !! u_id u = Some p
  end.
Proof.
  pose proof (auth_sound (sys_db (w_sys w)) (sys_now (w_sys w)) raw w) as Ha.
  unfold ServeWS. unfold mbind, ST_bind.
  destruct (authenticateConn raw w) as [[f|u h last] w1]; cbn [fst snd] in *; [done|].
  destruct Ha as [_ Hauth]; [split; [done|lia]|].
  pose proof (serve_user_owned u h last addr w1 I) as Hm.
  destruct (serve_user u h last addr w1).1 as [p|]; [|done].
  destruct (Hm p eq_refl) as [(c & Hc & [Hu Hh] & _) Hr].
  exists u, h. split; [done|]. unfold conn_of. cbv zeta. by rewrite Hc.
Qed.

(** A reconnection takes over: registering a second connection [p] of a
    user whose registered connection is [o] makes [p] the registered one, moves
    the voice channel of [o] to it (unless it is already in one), closes [o],
    and changes nothing else: no database row, no broadcast, no other
    connection. *)
Theorem registerNow_takes_over K rb sq p o c co w
    (Hw : wok K rb sq w) (Hp : w_conns w !! p = Some c) (Ho : w_clients w !! cl_userID c = Some o)
    (Hco : w_conns w !! o = Some co) (Hne : p <> o) :
  (registerNow p w).2 = w_set_clients (<[cl_userID c := p]> (w_clients w))
    (w_set_conns (handed_over (w_conns w) p o c co) w).
Proof.
  unfold registerNow, lookup_client, conn, gets, mbind, ST_bind. cbn [fst snd].
  assert (conn_of w p = c) as -> by (unfold conn_of; by rewrite Hp). rewrite Ho. cbn [fst snd].
  rewrite (take_over_eq w p o c co (wok_coherent _ _ _ _ Hw) Hp Hco Hne). done.
Qed.

(** The disconnection of a connection that was replaced only closes it:
    the user stays online, in voice and registered, and nothing is stored or
    broadcast. *)
Theorem disconnect_replaced p q w
    (Hq : w_clients w !! cl_userID (conn_of w p) = Some q) (Hne : q <> p) :
  (disconnect p w).2 = (closeSend p w).2.
Proof.
  unfold disconnect, unregisterNow. unfold mbind, ST_bind. cbn [snd].
  assert ((drop_client p w).2 = w) as ->.
  { unfold drop_client, lookup_client, conn, gets, mbind, ST_bind, when. cbn [fst snd]. rewrite Hq.
    by rewrite bool_decide_false by congruence. }
  unfold conn at 1 2 3, gets. cbn [fst snd]. destruct (cl_user (conn_of w p)); [|done].
  unfold IsUserConnected, lookup_client, gets, mbind, ST_bind. cbn [fst snd].
  unfold conn, gets. cbn [fst snd]. by rewrite Hq.
Qed.

(** Ann connects a second time; her first connection is in voice channel 7. *)
Lemma registerNow_takes_over_witness :
  let id := fun s : string => s in
  let no_token := fun _ : Grant => None in
  let w0 := (run id no_token demo_connect demo_start).2 in
  let w := (newClient (default (mkUser 0 "" "" None 0 None "" "" None false None None) (cl_user (conn_of w0 1)))
    "h" (setVoiceChID 1 7 w0).2).2 in
  let w' := (registerNow 2 w).2 in
  w_clients w !! 1 = Some 1 /\ w_clients w' = <[1 := 2]> (w_clients w) /\
  cl_voiceChID (conn_of w' 2) = 7 /\ cl_sendClosed (conn_of w' 1) = true.
Proof.
  intros id no_token w0 w w'.
  assert (Hw : exists K rb sq, wok K rb sq w).
  { destruct (run_inv id no_token [] demo_connect _ (start_inv [] 1700000000000000000 [] (Some "ws://lk") None []))
      as (rb & _ & Hw0).
    assert (Hf : forall c, conn_ok c -> conn_ok (cl_set_voiceChID 7 c) /\ cl_userID (cl_set_voiceChID 7 c) = cl_userID c)
      by (intros c [C1 C2 C3 C4]; split; [by split|done]).
    pose proof (ok_newClient [] rb _ (default (mkUser 0 "" "" None 0 None "" "" None false None None)
      (cl_user (conn_of w0 1))) "h" _ (ok_upd [] rb _ 1 (cl_set_voiceChID 7) Hf w0 Hw0)) as H.
    eexists _, _, _. exact H. }
  destruct Hw as (K & rb & sq & Hw).
  assert (E : w' = w_set_clients (<[1 := 2]> (w_clients w))
    (w_set_conns (handed_over (w_conns w) 2 1 (conn_of w 2) (conn_of w 1)) w)).
  { apply (registerNow_takes_over K rb sq 2 1 (conn_of w 2) (conn_of w 1) w Hw);
      [vm_compute; reflexivity..|done]. }
  split; [vm_compute; reflexivity|]. split; [by rewrite E|].
  split; vm_compute; reflexivity.
Defined.

Lemma disconnect_replaced_witness :
  let id := fun s : string => s in
  let no_token := fun _ : Grant => None in
  let w := (run id no_token (demo_connect ++ [EvConnect (Some (hello "t" 0)) "addr"]) demo_start).2 in
  w_clients w !! cl_userID (conn_of w 1) = Some 2 /\ (disconnect 1 w).2 = (closeSend 1 w).2.
Proof.
  intros id no_token w.
  assert (H : w_clients w !! cl_userID (conn_of w 1) = Some 2) by (vm_compute; reflexivity).
  split; [exact H|]. apply (disconnect_replaced 1 2 w H). done.
Defined.
