(* ===== verification/VoiceThms.v ===== *)
(** * Voice: who may join, and how many

    The effects of the voice handlers on the stored voice states, for every
    state of the server and every schedule of failures, and the names by which
    users and channels are known to the media server. *)

From S2P Require Import Prelude Permissions GoText Wire GoTime Rows Store StoreInv StoreOk StoreThms Hub Chat Voice Serve WsInv WsOk WsAuth WsRun Sessions.
#[local] Open Scope string_scope.
#[local] Open Scope Z_scope.

Module VoiceThms.

(** The connection [p] of the user is in voice channel [v]. *)
Record vstate (p : Z) (P : Db -> Prop) (uid : Z) (ou : option User) (lk : option string)
    (proc : option bool) (v : Z) (w : World) : Prop := {
  vst_actor : actor p P uid ou w;
  vst_conn : is_Some (w_conns w !! p);
  vst_voice : cl_voiceChID (conn_of w p) = v;
  vst_lk : w_livekit w = lk;
  vst_proc : w_lkProcess w = proc }.

Section prims.
Context (p : Z) (P : Db -> Prop) (uid : Z) (ou : option User) (lk : option string) (proc : option bool) (v : Z).
Let I := vstate p P uid ou lk proc v.

Lemma vst_fields w w' : I w -> w_sys w' = w_sys w -> w_conns w' = w_conns w ->
  w_livekit w' = w_livekit w -> w_lkProcess w' = w_lkProcess w -> I w'.
Proof.
  intros [Ha Hc Hv Hl Hp] E1 E2 E3 E4. split; rewrite ?E2, ?E3, ?E4; try done.
  - by apply (act_fields p P uid ou w).
  - unfold conn_of in *. by rewrite E2.
Qed.

Lemma vst_alter w q f : I w ->
  (forall c, cl_userID (f c) = cl_userID c /\ cl_user (f c) = cl_user c /\ cl_voiceChID (f c) = cl_voiceChID c) ->
  I (w_set_conns (alter f q (w_conns w)) w).
Proof.
  intros [Ha [c Hc] Hv Hl Hp] Hf. split; try done.
  - apply act_alter; [done|]. intros c0. by destruct (Hf c0) as (? & ? & ?).
  - simpl. destruct (decide (q = p)) as [->|Hne]; [|by rewrite lookup_alter_ne].
    rewrite lookup_alter_eq, Hc. by eexists.
  - unfold conn_of in *. simpl. destruct (decide (q = p)) as [->|Hne]; [|by rewrite lookup_alter_ne].
    rewrite lookup_alter_eq, Hc in *. simpl in *. by destruct (Hf c) as (_ & _ & ->).
Qed.

Lemma vst_sys {A} (m : ST Sys A) : preserves P m -> stable I (sys m).
Proof. intros Hm w [Ha Hc Hv Hl Hp]. split; try done. by apply act_sys. Qed.

Definition no_update (f : Client -> Client) : Prop := False.

Lemma vst_handler : handler_inv p (keeps P) no_update I.
Proof.
  split.
  - apply @vst_sys.
  - intros r w Hw. by apply (vst_fields w).
  - intros q msg w Hw. unfold trySendMsg, conn, gets, mbind, ST_bind. simpl.
    destruct (cl_sendClosed _); [done|]. destruct (ch_closed _); [by apply (vst_fields w)|].
    apply vst_alter; [done|]. intros c. unfold chan_send. by destruct (_ <? _)%nat.
  - intros c msg w Hw. unfold BroadcastToChannel, gets, mbind, ST_bind, when. simpl.
    destruct (_ <? _)%nat; [by apply (vst_fields w)|done].
  - done.
  - intros x w Hw. by apply (vst_fields w).
  - intros x w Hw. by apply (vst_fields w).
  - intros w Hw. unfold drop_client, lookup_client, conn, gets, mbind, ST_bind, when. simpl.
    case_bool_decide; [by apply (vst_fields w)|done].
  - intros w Hw. unfold closeSend, conn, gets, mbind, ST_bind. simpl.
    destruct (cl_sendClosed _); [done|]. destruct (ch_closed _); [by apply (vst_fields w)|].
    apply vst_alter; [done|]. by intros c.
Qed.

Lemma vst_read {A} (m : ST Sys A) : reads m -> stable I (sys m).
Proof. intros Hm. by apply vst_sys, reads_preserves. Qed.
Lemma vst_fail q code msg : stable I (fail q code msg).
Proof. handler st_fail with vst_handler. Qed.
Lemma vst_send q msg : stable I (sendMsg q msg).
Proof. handler st_sendMsg with vst_handler. Qed.
Lemma vst_all msg : stable I (BroadcastToAll msg).
Proof. handler st_all with vst_handler. Qed.
Lemma vst_perm ch q : stable I (hasChannelPerm p ch q).
Proof. handler st_perm with vst_handler. exact (keeps_reads P). Qed.
Lemma vst_remove c u : stable I (livekit_remove c u).
Proof. handler st_remove with vst_handler. Qed.
End prims.

Create HintDb ws_voice.
#[export] Hint Resolve vst_read vst_fail vst_send vst_all vst_perm vst_remove : ws_voice.

(** ** Steps *)

Section steps.
Context (p : Z) (uid : Z) (ou : option User) (lk : option string) (proc : option bool).
Local Notation V P v := (vstate p P uid ou lk proc v).

Lemma vst_set P v x : triple (V P v) (setVoiceChID p x) (fun _ => V P x).
Proof.
  intros w [[Hd Hu Ho] [c Hc] Hv Hl Hp]. unfold setVoiceChID, upd, modify. simpl.
  split; simpl; try done.
  - destruct (conn_of_alter w p p (cl_set_voiceChID x)) as [E1 E2]; [by intros c0|].
    split; simpl; [done|by rewrite E1|by rewrite E2].
  - rewrite lookup_alter_eq, Hc. by eexists.
  - unfold conn_of. simpl. by rewrite lookup_alter_eq, Hc.
Qed.

Lemma vst_get P v : triple (V P v) (getVoiceChID p) (fun x w => V P v w /\ x = v).
Proof. intros w Hw. split; [done|]. by destruct Hw. Qed.

Lemma vst_clear P v : triple (V P v) (clearVoiceChID p) (fun x w => V P 0 w /\ x = v).
Proof.
  unfold clearVoiceChID. eapply triple_bind; [apply vst_get|]. intros x. apply triple_pure. intros ->.
  eapply triple_bind; [apply vst_set|]. intros []. intros w Hw. by split.
Qed.

Lemma vst_query d v {A} (f : Db -> A) :
  triple (V (eq d) v) (sys (query f)) (fun r w => V (eq d) v w /\ ((exists e, r = inl e) \/ r = inr (f d))).
Proof.
  intros w Hw. split; [by apply (vst_read p (eq d) uid ou lk proc v (query f) (reads_query f) w)|].
  destruct Hw as [[Hd _ _] _ _ _ _]. rewrite Hd. unfold sys. simpl. apply query_cases.
Qed.

Lemma vst_conn_fields P v :
  triple (V P v) (conn p) (fun c w => V P v w /\ cl_userID c = uid /\ cl_user c = ou).
Proof. intros w Hw. split; [done|]. by destruct Hw as [[? ? ?] _ _ _ _]. Qed.

Lemma vst_require d v ch q l :
  triple (V (eq d) v) (requireChannelPerm p ch q l) (fun b w => V (eq d) v w /\ (b = true -> user_may d ou ch q)).
Proof.
  intros w Hw. split.
  - revert w Hw. change (stable (V (eq d) v) (requireChannelPerm p ch q l)).
    handler st_require with (vst_handler p (eq d) uid ou lk proc v). exact (keeps_reads (eq d)).
  - apply (ans_require p d uid ou ch q l w). by destruct Hw.
Qed.

(** What removing the user's row may give: nothing, when the statement failed. *)
Definition left_voice (d d1 : Db) : Prop := d1 = d \/ d1 = delete_voice_state uid d.

Lemma vst_leave_row d v :
  triple (V (eq d) v) (sys (LeaveVoiceChannel uid)) (fun _ w => exists d1, left_voice d d1 /\ V (eq d1) v w).
Proof.
  intros w [[Hd Hu Ho] Hc Hv Hl Hp]. unfold sys. simpl. unfold LeaveVoiceChannel, update.
  match goal with |- context [exec ?f ?s] =>
    destruct (exec_cases f s) as [(e & _ & Hx)|(now & a & d' & _ & E & Hx & _)] end.
  - exists d. split; [by left|]. split; try done. split; [simpl; by rewrite Hx|done|done].
  - exists (delete_voice_state uid d). split; [by right|]. split; try done.
    split; [|done|done]. simpl. rewrite Hx. injection E as _ <-. by rewrite Hd.
Qed.

Lemma vst_leave_retry d v :
  triple (V (eq d) v) (leaveVoiceChannelWithRetry uid) (fun _ w => exists d1, left_voice d d1 /\ V (eq d1) v w).
Proof.
  unfold leaveVoiceChannelWithRetry. eapply triple_bind; [apply vst_leave_row|].
  intros [e|x] w (d1 & Hl & Hw); exists d1; (split; [done|]); [|done].
  by apply (vst_fields p (eq d1) uid ou lk proc v w).
Qed.

Lemma vst_leave d v : v <> 0 ->
  triple (V (eq d) v) (handleVoiceLeave p) (fun _ w => exists d1, left_voice d d1 /\ V (eq d1) 0 w).
Proof.
  intros Hv. unfold handleVoiceLeave. eapply triple_bind; [apply vst_clear|]. intros x. apply triple_pure.
  intros ->. destruct (Z.eqb_spec v 0); [done|].
  eapply triple_bind; [apply vst_conn_fields|]. intros c. apply triple_pure. intros [-> _].
  eapply triple_bind; [apply vst_leave_retry|]. intros ok w (d1 & Hl & Hw). exists d1. split; [done|].
  revert w Hw. change (stable (V (eq d1) 0) (_ ← unless ok (fail p ErrCodeInternal "voice leave failed — please rejoin if issues persist");
    _ ← BroadcastToAll (buildVoiceLeave v uid); livekit_remove v uid)).
  repeat (walk_step || solve [auto with ws_voice nocore]).
Qed.

Lemma vst_rollback d v ch :
  triple (V (eq d) v) (rollbackVoiceJoin p ch) (fun _ w => exists d1, left_voice d d1 /\ V (eq d1) 0 w).
Proof.
  unfold rollbackVoiceJoin. eapply triple_bind; [apply vst_clear|]. intros x. apply triple_pure. intros _.
  eapply triple_bind; [apply vst_conn_fields|]. intros c. apply triple_pure. intros [-> _].
  eapply triple_bind; [apply vst_leave_row|]. intros r w (d1 & Hl & Hw). exists d1. split; [done|].
  by apply vst_all.
Qed.

Definition joined_row (channelID now : Z) : VoiceRow :=
  mkVoiceRow channelID false false false false false (datetime_now now).

Lemma vst_join d v ch :
  triple (V (eq d) v) (sys (JoinVoiceChannel uid ch)) (fun r w =>
    match r with
    | inl _ => V (eq d) v w
    | inr _ => exists now, V (eq (set_voice_states (<[uid := joined_row ch now]> (voice_states d)) d)) v w
    end).
Proof.
  intros w [[Hd Hu Ho] Hc Hv Hl Hp]. unfold sys. simpl. unfold JoinVoiceChannel.
  match goal with |- context [exec ?f ?s] =>
    destruct (exec_cases f s) as [(e & -> & Hx)|(now & a & d' & -> & E & Hx & _)] end.
  - split; try done. split; [simpl; by rewrite Hx|done|done].
  - exists now. split; try done. split; [|done|done]. simpl. rewrite Hx.
    destruct (_ && _); [|done]. injection E as _ <-. by rewrite Hd.
Qed.
End steps.

(** ** Joining *)

Section join.
Context (to_jwt : Grant -> option string) (p : Z) (d : Db) (uid : Z) (ou : option User)
  (lk : option string) (proc : option bool) (v0 : Z).
Local Notation V P v := (vstate p P uid ou lk proc v).

(** The user is in the channel: allowed to connect, in an existing channel that
    had room, with the media server configured and running. *)
Definition joined (channelID : Z) (d' : Db) : Prop :=
  exists ch d1 now, user_may d ou channelID ConnectVoice /\ channels d !! channelID = Some ch /\
    is_Some lk /\ proc <> Some false /\ left_voice uid d d1 /\
    (0 < c_voice_max_users ch -> Z.of_nat (length (voice_rows d1 (fun r => v_channel r =? channelID))) < c_voice_max_users ch) /\
    voice_states d' = <[uid := joined_row channelID now]> (voice_states d).

Definition join_outcome (channelID : Z) (w : World) : Prop :=
  let d' := sys_db (w_sys w) in
  (forall u, u <> uid -> voice_states d' !! u = voice_states d !! u) /\
  ((cl_voiceChID (conn_of w p) = v0 /\ voice_states d' = voice_states d) \/
   cl_voiceChID (conn_of w p) = 0 \/
   (cl_voiceChID (conn_of w p) = channelID /\ joined channelID d')).

Lemma left_others d1 u : left_voice uid d d1 -> u <> uid -> voice_states d1 !! u = voice_states d !! u.
Proof. intros [->| ->] Hne; [done|]. simpl. by rewrite lookup_delete_ne. Qed.

Lemma outcome_unchanged channelID w : V (eq d) v0 w -> join_outcome channelID w.
Proof. intros [[Hd _ _] _ Hv _ _]. unfold join_outcome. rewrite <- Hd. split; [done|]. by left. Qed.

Lemma outcome_out channelID d1 w : (forall u, u <> uid -> voice_states d1 !! u = voice_states d !! u) ->
  V (eq d1) 0 w -> join_outcome channelID w.
Proof.
  intros Hl [[Hd _ _] _ Hv _ _]. unfold join_outcome. rewrite <- Hd. split; [exact Hl|]. by right; left.
Qed.

(** Every refusal before anything changed. *)
Lemma refused {A} (m : M A) channelID : stable (V (eq d) v0) m ->
  triple (V (eq d) v0) m (fun _ => join_outcome channelID).
Proof. intros Hm w Hw. apply outcome_unchanged. by apply Hm. Qed.

(** And after the user left the previous channel. *)
Lemma refused_out {A} (m : M A) channelID d1 : left_voice uid d d1 -> stable (V (eq d1) 0) m ->
  triple (V (eq d1) 0) m (fun _ => join_outcome channelID).
Proof. intros Hl Hm w Hw. apply (outcome_out channelID d1); [|by apply Hm]. intros u. by apply left_others. Qed.

(** Nothing more than leaving the previous channel, perhaps. *)
Lemma still {A} (m : M A) channelID d1 v : left_voice uid d d1 -> (v = 0 \/ (v = v0 /\ d1 = d)) ->
  stable (V (eq d1) v) m -> triple (V (eq d1) v) m (fun _ => join_outcome channelID).
Proof. intros Hl [->|[-> ->]] Hm; [by apply (refused_out m channelID d1)|by apply refused]. Qed.

Section enter.
Context (channelID : Z) (ch : Channel) (Hmay : user_may d ou channelID ConnectVoice)
  (Hch : channels d !! channelID = Some ch) (Hlk : is_Some lk) (Hproc : proc <> Some false).

(** The database once the row is in. *)
Definition with_row (d1 : Db) (now : Z) : Db :=
  set_voice_states (<[uid := joined_row channelID now]> (voice_states d1)) d1.

Lemma with_row_others d1 now u : left_voice uid d d1 -> u <> uid ->
  voice_states (with_row d1 now) !! u = voice_states d !! u.
Proof. intros Hl Hne. simpl. rewrite lookup_insert_ne by done. by apply left_others. Qed.

Lemma rolled_back d1 now v (k : M unit) : left_voice uid d d1 -> (forall P, stable (V P 0) k) ->
  triple (V (eq (with_row d1 now)) v) (_ ← rollbackVoiceJoin p channelID; k) (fun _ => join_outcome channelID).
Proof.
  intros Hl Hk. eapply triple_bind; [apply vst_rollback|]. intros _ w (d2 & Hl2 & Hw).
  apply (outcome_out channelID d2); [|by apply Hk].
  intros u Hu. rewrite <- (with_row_others d1 now u Hl Hu).
  destruct Hl2 as [->| ->]; [done|]. simpl. by rewrite lookup_delete_ne.
Qed.

Lemma commit_outcome d1 v url : left_voice uid d d1 -> (v = 0 \/ (v = v0 /\ d1 = d)) ->
  (0 < c_voice_max_users ch ->
     Z.of_nat (length (voice_rows d1 (fun r => v_channel r =? channelID))) < c_voice_max_users ch) ->
  triple (V (eq d1) v) (voice_join_commit to_jwt p channelID ch url) (fun _ => join_outcome channelID).
Proof.
  intros Hl Hv Hroom. unfold voice_join_commit.
  eapply triple_bind; [apply vst_conn_fields|]. intros c. apply triple_pure. intros [-> Huser].
  eapply triple_bind; [apply vst_join|]. intros [e|x].
  { apply (still _ channelID d1 v); [done|done|apply vst_fail]. }
  intros w (now & Hw). revert w Hw. fold (with_row d1 now).
  change (triple (V (eq (with_row d1 now)) v) (_ ← setVoiceChID p channelID;
    match cl_user c with
    | None => _ ← rollbackVoiceJoin p channelID; fail p ErrCodeInternal "not authenticated"
    | Some u => canPublish ← hasChannelPerm p channelID SpeakVoice;
        match GenerateToken to_jwt uid (u_username u) channelID canPublish true with
        | None => _ ← rollbackVoiceJoin p channelID; fail p ErrCodeInternal "failed to generate voice token"
        | Some token => _ ← sendMsg p (buildVoiceToken channelID token "/livekit" url); voice_announce p channelID ch
        end
    end) (fun _ => join_outcome channelID)).
  eapply triple_bind; [apply vst_set|]. intros ?.
  destruct (cl_user c) as [usr|]; [|apply rolled_back; [done|intros; apply vst_fail]].
  eapply triple_bind; [apply vst_perm|]. intros canPublish.
  destruct (GenerateToken _ _ _ _ _ _) as [token|]; [|apply rolled_back; [done|intros; apply vst_fail]].
  eapply triple_bind; [apply vst_send|]. intros ?. unfold voice_announce.
  eapply triple_bind; [apply vst_conn_fields|]. intros c1. apply triple_pure. intros [-> _].
  eapply triple_bind; [apply vst_query|]. intros state. apply triple_pure. intros Hst.
  assert (Hin : forall (m : M unit), stable (V (eq (with_row d1 now)) channelID) m ->
    triple (V (eq (with_row d1 now)) channelID) m (fun _ => join_outcome channelID)).
  { intros m Hm w Hw. apply Hm in Hw. destruct Hw as [[Hd _ _] _ Hvc _ _].
    split; [intros u Hu; rewrite <- Hd; by apply with_row_others|]. right. right. split; [done|].
    exists ch, d1, now. repeat split; try done. rewrite <- Hd. simpl.
    destruct Hl as [->| ->]; [done|]. simpl. by rewrite insert_delete_eq. }
  destruct state as [e|[s|]]; [apply rolled_back; [done|intros; apply vst_fail]| |
    apply rolled_back; [done|intros; apply vst_fail]].
  apply Hin. apply stable_bind; [apply vst_all|intros _]. unfold voice_send_states.
  apply stable_bind; [apply vst_read, reads_query|]. intros [e|l]; [apply stable_ret|].
  apply stable_bind; [apply stable_gets|intros c2].
  apply stable_bind; [apply stable_forM; intros y; apply stable_unless, vst_send|intros _]. apply vst_send.
Qed.

Lemma capacity_outcome d1 v : triple (V (eq d1) v) (voice_capacity_ok p channelID ch) (fun b w => V (eq d1) v w /\
  (b = true -> 0 < c_voice_max_users ch ->
     Z.of_nat (length (voice_rows d1 (fun r => v_channel r =? channelID))) < c_voice_max_users ch)).
Proof.
  unfold voice_capacity_ok. destruct (Z.ltb_spec 0 (c_voice_max_users ch)).
  2: { intros w Hw. split; [done|]. lia. }
  eapply triple_bind; [apply vst_query|]. intros r. apply triple_pure.
  intros [[e ->]| ->].
  - intros w Hw. split; [|done]. by apply vst_fail.
  - destruct (Z.leb_spec (c_voice_max_users ch) (Z.of_nat (length (voice_rows d1 (fun v => v_channel v =? channelID))))).
    + intros w Hw. split; [|done]. by apply vst_fail.
    + intros w Hw. by split.
Qed.

Lemma enter_outcome url : triple (V (eq d) v0) (voice_join_enter to_jwt p channelID ch url) (fun _ => join_outcome channelID).
Proof.
  unfold voice_join_enter. eapply triple_bind; [apply vst_get|]. intros x. apply triple_pure. intros ->.
  destruct (Z.eqb_spec v0 channelID); [apply refused, vst_fail|].
  eapply triple_bind with (J := fun _ w => exists d1 v, left_voice uid d d1 /\ (v = 0 \/ (v = v0 /\ d1 = d)) /\ V (eq d1) v w).
  { destruct (Z.ltb_spec 0 v0).
    - intros w Hw. cbn [when]. destruct (vst_leave p uid ou lk proc d v0 ltac:(lia) w Hw) as (d1 & Hl & Hw1).
      exists d1, 0. split; [done|]. split; [by left|done].
    - intros w Hw. exists d, v0. split; [by left|]. split; [by right|done]. }
  intros _ w (d1 & v & Hl & Hv & Hw). revert w Hw.
  change (triple (V (eq d1) v) (room ← voice_capacity_ok p channelID ch;
    if negb room then mret tt else voice_join_commit to_jwt p channelID ch url) (fun _ => join_outcome channelID)).
  eapply triple_bind; [apply capacity_outcome|]. intros room. apply triple_pure. intros Hroom.
  destruct room; [apply commit_outcome; auto|]. by apply (still _ channelID d1 v), stable_ret.
Qed.
End enter.

Lemma join_handler payload :
  triple (V (eq d) v0) (handleVoiceJoin to_jwt p payload) (fun _ w =>
    match positive_channel payload with
    | None => sys_db (w_sys w) = d /\ cl_voiceChID (conn_of w p) = v0
    | Some channelID => join_outcome channelID w
    end).
Proof.
  unfold handleVoiceJoin. destruct (positive_channel payload) as [channelID|].
  2: { intros w Hw. apply (vst_fail p (eq d) uid ou lk proc v0 p) with (code := ErrCodeBadRequest)
         (msg := "channel_id must be a positive integer") in Hw. by destruct Hw as [[<- _ _] _ ? _ _]. }
  eapply triple_bind; [apply vst_require|]. intros b. apply triple_pure. intros Hmay.
  destruct b; [|apply refused, stable_ret]. cbn [negb].
  eapply triple_bind; [apply vst_query|]. intros r. apply triple_pure.
  intros [[e ->]| ->]; [apply refused, vst_fail|].
  destruct (channels d !! channelID) as [ch|] eqn:Hch; [|apply refused, vst_fail].
  eapply triple_bind with (J := fun x w => V (eq d) v0 w /\ x = lk);
    [intros w Hw; split; [done|by destruct Hw]|]. intros x. apply triple_pure. intros Hx.
  destruct x as [url|]; [|apply refused, vst_fail].
  eapply triple_bind with (J := fun x w => V (eq d) v0 w /\ x = proc);
    [intros w Hw; split; [done|by destruct Hw]|]. intros x. apply triple_pure. intros ->.
  case_bool_decide as Hp; [apply refused, vst_fail|].
  apply enter_outcome; [by apply Hmay|done|by exists url|done].
Qed.
End join.

(** ** Counting the people in a channel *)

Lemma countb_permutation {A} (q : A -> bool) l l' : l ≡ₚ l' -> countb q l = countb q l'.
Proof.
  unfold countb. induction 1 as [|x l l' _ IH|x y l|l l' l'' _ IH1 _ IH2]; simpl; [done| | |congruence].
  - destruct (q x); simpl; congruence.
  - by destruct (q x), (q y).
Qed.

Lemma countb_fmap {A B} (f : A -> B) (q : B -> bool) l : countb q (f <$> l) = countb (fun x => q (f x)) l.
Proof.
  unfold countb. induction l as [|x l IH]; [done|]. rewrite fmap_cons. cbn [List.filter].
  destruct (q (f x)); cbn [length]; by rewrite IH.
Qed.

Lemma countb_rows_insert `{Countable K} {V} (q : V -> bool) (m : gmap K V) k v :
  (countb q (rows (<[k:=v]> m)) <= S (countb q (rows m)))%nat.
Proof.
  assert (Hfresh : forall m' : gmap K V, m' !! k = None ->
    countb q (rows (<[k:=v]> m')) = ((if q v then 1 else 0) + countb q (rows m'))%nat).
  { intros m' Hm'. unfold rows. rewrite (countb_permutation q _ _ (fmap_Permutation snd _ _ (map_to_list_insert m' k v Hm'))).
    unfold countb. simpl. by destruct (q v). }
  destruct (m !! k) as [v0|] eqn:E; [|rewrite (Hfresh m E); destruct (q v); lia].
  rewrite <- (insert_delete_eq m k v), (Hfresh (delete k m)) by apply lookup_delete_eq.
  assert (countb q (rows m) = ((if q v0 then 1 else 0) + countb q (rows (delete k m)))%nat) as ->;
    [|destruct (q v), (q v0); lia].
  unfold rows. rewrite <- (countb_permutation q _ _ (fmap_Permutation snd _ _ (map_to_list_delete m k v0 E))).
  unfold countb. simpl. by destruct (q v0).
Qed.

(** The listing of a channel shows every row: each belongs to a user. *)
Lemma voice_rows_length d q : db_ok d -> length (voice_rows d q) = countb q (rows (voice_states d)).
Proof.
  intros Hd. unfold voice_rows.
  assert (Hall : forall l : list (Z * VoiceRow), (forall x, x ∈ l -> voice_states d !! x.1 = Some x.2) ->
    length (omap (fun '(u, v) => voice_joined d u v) l) = length l).
  { induction l as [|[u v] l IH]; intros Hl; [done|]. pose proof (Hl (u, v) ltac:(left)) as Huv.
    pose proof (ok_voice d Hd u v Huv) as [Hu _]. apply elem_of_dom in Hu as [usr Hu].
    simpl. unfold voice_joined at 1. rewrite Hu. simpl. f_equal. apply IH. intros x Hx. apply Hl. by right. }
  rewrite Hall.
  - rewrite !length_sort_by. unfold rows. rewrite countb_fmap. done.
  - intros [u v] Hx. rewrite !elem_of_sort_by, elem_of_filter_bool in Hx.
    by apply elem_of_map_to_list, Hx.
Qed.

Lemma left_ok uid d d1 : db_ok d -> left_voice uid d d1 -> db_ok d1.
Proof. intros Hd [->| ->]; [done|by apply ok_delete_voice]. Qed.

Lemma joined_within d uid ou lk proc channelID ch d' : db_ok d ->
  joined d uid ou lk proc channelID d' -> channels d !! channelID = Some ch -> 0 < c_voice_max_users ch ->
  voice_users_in channelID d' <= c_voice_max_users ch.
Proof.
  intros Hd (ch' & d1 & now & _ & Hch & _ & _ & Hl & Hroom & E) Hch' Hmax.
  rewrite Hch' in Hch. injection Hch as <-. specialize (Hroom Hmax).
  rewrite (voice_rows_length d1) in Hroom by (by eapply left_ok). unfold voice_users_in. rewrite E.
  assert (Hsame : <[uid := joined_row channelID now]> (voice_states d) =
    <[uid := joined_row channelID now]> (voice_states d1))
    by (destruct Hl as [->| ->]; [done|simpl; by rewrite insert_delete_eq]).
  rewrite Hsame. pose proof (countb_rows_insert (fun v => v_channel v =? channelID)
    (voice_states d1) uid (joined_row channelID now)). lia.
Qed.

(** A world in which the user of connection 1 may enter the voice channel 1,
    made for a single person. *)
Definition demo_voice : World :=
  (run (fun s => s) (fun _ => Some "token") (demo_connect ++ [EvDb (OpCreateChannel "lounge" "voice" "" "" 0);
     EvDb (OpSetChannelVoiceMaxUsers 1 1)])%list demo_start).2.
Definition join_payload : option json := Some (JObj [("channel_id", JInt 1)]).

End VoiceThms.
Export VoiceThms.

(** C20: joining voice is authorised: in every state and whatever fails, a
    [voice_join] leaves the voice states of all other users as they are, and
    the user's connection ends in its previous channel with nothing stored, in
    no channel, or in the channel that was asked for; in the last case the
    channel exists, the user's role grants CONNECT_VOICE on it, LiveKit is
    configured and not known to be down, the channel had room, and the
    stored row says exactly that. *)
Theorem voice_join_authorised to_jwt p payload w (Hp : is_Some (w_conns w !! p)) :
  let c := conn_of w p in
  let w' := (handleVoiceJoin to_jwt p payload w).2 in
  match positive_channel payload with
  | None => sys_db (w_sys w') = sys_db (w_sys w) /\ cl_voiceChID (conn_of w' p) = cl_voiceChID c
  | Some channelID => join_outcome p (sys_db (w_sys w)) (cl_userID c) (cl_user c)
      (w_livekit w) (w_lkProcess w) (cl_voiceChID c) channelID w'
  end.
Proof.
  apply (join_handler to_jwt p (sys_db (w_sys w)) (cl_userID (conn_of w p)) (cl_user (conn_of w p))
    (w_livekit w) (w_lkProcess w) (cl_voiceChID (conn_of w p)) payload w). by split.
Qed.

(** A voice channel is not overfilled by a join: when the user's
    connection enters the channel, the channel then holds at most its maximum
    of users (0 meaning no maximum), the newcomer included. *)
Theorem voice_join_within_capacity to_jwt p payload w channelID ch
    (Hp : is_Some (w_conns w !! p)) (Hdb : db_ok (sys_db (w_sys w)))
    (Hpl : positive_channel payload = Some channelID)
    (Hch : channels (sys_db (w_sys w)) !! channelID = Some ch) (Hmax : 0 < c_voice_max_users ch)
    (w' := (handleVoiceJoin to_jwt p payload w).2)
    (Hout : cl_voiceChID (conn_of w p) <> channelID) (Hin : cl_voiceChID (conn_of w' p) = channelID) :
  voice_users_in channelID (sys_db (w_sys w')) <= c_voice_max_users ch.
Proof.
  pose proof (join_handler to_jwt p (sys_db (w_sys w)) (cl_userID (conn_of w p)) (cl_user (conn_of w p))
    (w_livekit w) (w_lkProcess w) (cl_voiceChID (conn_of w p)) payload w ltac:(by split)) as H.
  rewrite Hpl in H. destruct H as [_ [[E _]|[E|[_ Hj]]]].
  - fold w' in E. congruence.
  - fold w' in E. unfold positive_channel in Hpl. destruct (parseChannelID payload) as [id|]; [|done].
    simpl in Hpl. destruct (Z.leb_spec id 0); [done|]. injection Hpl as ->. lia.
  - by eapply joined_within.
Qed.

(** The names sent to the media server are read back from its webhooks:
    the identity of a user and the name of a channel's room determine the user
    and the channel, for every 64-bit id. *)
Theorem webhook_names_roundtrip id (Hid : is_int64 id) :
  parseIdentity (Identity id) = Some id /\ parseRoomChannelID (RoomName id) = Some id.
Proof.
  unfold parseIdentity, parseRoomChannelID, Identity, RoomName. rewrite !HasPrefix_app.
  split; [rewrite (skip_app "user-")|rewrite (skip_app "channel-")]; by apply ParseInt64_itoa.
Qed.

Lemma webhook_names_roundtrip_witness : is_int64 (-7) /\ parseIdentity (Identity (-7)) = Some (-7).
Proof.
  assert (H : is_int64 (-7)) by (split; vm_compute; congruence).
  split; [exact H|]. apply (webhook_names_roundtrip (-7) H).
Defined.

Lemma voice_join_authorised_witness :
  let w' := (handleVoiceJoin (fun _ => Some "token") 1 join_payload demo_voice).2 in
  cl_voiceChID (conn_of w' 1) = 1 /\
  joined (sys_db (w_sys demo_voice)) 1 (cl_user (conn_of demo_voice 1)) (Some "ws://lk") None 1 (sys_db (w_sys w')).
Proof.
  intros w'. assert (Hin : cl_voiceChID (conn_of w' 1) = 1) by (vm_compute; reflexivity).
  assert (Hp : is_Some (w_conns demo_voice !! 1)) by (vm_compute; by eexists).
  split; [exact Hin|].
  pose proof (voice_join_authorised (fun _ => Some "token") 1 join_payload demo_voice Hp) as H.
  change (positive_channel join_payload) with (Some 1) in H. destruct H as [_ [[H _]|[H|[_ H]]]].
  - exfalso. vm_compute in H. discriminate.
  - exfalso. vm_compute in H. discriminate.
  - exact H.
Defined.

Lemma voice_join_within_capacity_witness :
  let w' := (handleVoiceJoin (fun _ => Some "token") 1 join_payload demo_voice).2 in
  voice_users_in 1 (sys_db (w_sys w')) = 1 /\ voice_users_in 1 (sys_db (w_sys w')) <= 1.
Proof.
  intros w'. split; [vm_compute; reflexivity|].
  assert (Hch : exists ch, channels (sys_db (w_sys demo_voice)) !! 1 = Some ch /\ c_voice_max_users ch = 1)
    by (vm_compute; eexists; split; reflexivity).
  destruct Hch as (ch & Hch & Hmax).
  enough (voice_users_in 1 (sys_db (w_sys w')) <= c_voice_max_users ch) by lia.
  apply (voice_join_within_capacity (fun _ => Some "token") 1 join_payload demo_voice 1 ch).
  - vm_compute. by eexists.
  - destruct (run_inv (fun s => s) (fun _ => Some "token") []
      (demo_connect ++ [EvDb (OpCreateChannel "lounge" "voice" "" "" 0); EvDb (OpSetChannelVoiceMaxUsers 1 1)])%list
      _ (start_inv [] 1700000000000000000 [] (Some "ws://lk") None [])) as (rb & _ & Hw).
    exact (wok_db _ _ _ _ Hw).
  - vm_compute. reflexivity.
  - exact Hch.
  - rewrite Hmax. lia.
  - vm_compute. discriminate.
  - vm_compute. reflexivity.
Defined.
