(* ===== verification/Privacy.v ===== *)
(** * Who receives a direct message

    What happens in a DM channel stays there: the frames of a message, of its
    edit, its deletion or a reaction to it, or of a typing notice are handed to the connections of its participants and
    of the sender, and nothing enters the broadcast queue or the replay buffer,
    from which other users could read it. *)

From S2P Require Import Prelude Permissions RateLimiter GoText Wire Json GoTime Crypto Credentials Rows Store StoreInv StoreOk StoreThms Hub Chat Voice Serve WsInv WsAuth WsRun Sessions.
#[local] Open Scope string_scope.
#[local] Open Scope Z_scope.

Module Privacy.

(** From [w0] to [w] only the connection [p] and those registered for a user in
    [A] may have received something; the participants and the channels are as
    they were. *)
Record confined (p : Z) (A : Z -> Prop) (w0 w : World) : Prop := {
  cf_parts : dm_participants (sys_db (w_sys w)) = dm_participants (sys_db (w_sys w0));
  cf_channels : channels (sys_db (w_sys w)) = channels (sys_db (w_sys w0));
  cf_clients : w_clients w = w_clients w0;
  cf_queue : w_broadcast w = w_broadcast w0;
  cf_replay : w_replayBuf w = w_replayBuf w0;
  cf_conns : forall q, q <> p -> (forall u, A u -> w_clients w0 !! u <> Some q) ->
    w_conns w !! q = w_conns w0 !! q }.

Lemma confined_refl p A w : confined p A w w.
Proof. by split. Qed.

(** Calls that leave the participants and the channels alone. *)
Definition keeps_dm {X} (m : ST Sys X) : Prop := forall P C,
  preserves (fun d => dm_participants d = P /\ channels d = C) m.

Lemma dm_reads {X} (m : ST Sys X) : reads m -> keeps_dm m.
Proof. intros Hm P C. by apply reads_preserves. Qed.

Lemma dm_exec {X} (f : Z -> Db -> result db_error (X * Db)) :
  (forall now d x d', f now d = inr (x, d') -> dm_participants d' = dm_participants d /\ channels d' = channels d) ->
  keeps_dm (exec f).
Proof.
  intros Hf P C. apply preserves_exec. intros now d x d' [<- <-] E. by apply (Hf now d x).
Qed.

Lemma dm_create c u x r : keeps_dm (CreateMessage c u x r).
Proof. apply dm_exec. intros now d i d' E. cbv beta zeta in E. case_hyp E; by simplify_eq. Qed.
Lemma dm_link m ids : keeps_dm (LinkAttachmentsToMessage m ids).
Proof.
  destruct ids as [|i ids]; [intros P C; apply preserves_ret|].
  apply dm_exec. intros now d x d' E. cbv beta zeta in E. case_hyp E; by simplify_eq.
Qed.
Lemma dm_open u c : keeps_dm (OpenDM u c).
Proof.
  apply dm_exec. intros now d x d' E. unfold open_dm in E. case_hyp E; simplify_eq. by case_match.
Qed.
Lemma dm_delete i u b : keeps_dm (DeleteMessage i u b).
Proof.
  intros P C. unfold DeleteMessage. apply preserves_or_return; [apply preserves_query|].
  intros [m|]; [|apply preserves_ret]. destruct (_ && _); [apply preserves_ret|].
  apply preserves_update. by intros now d [<- <-].
Qed.

Lemma dm_edit i u x : keeps_dm (EditMessage i u x).
Proof.
  intros P C. unfold EditMessage. apply preserves_or_return; [apply preserves_query|].
  intros [m|]; [|apply preserves_ret]. destruct (negb _); [apply preserves_ret|].
  apply preserves_update. by intros now d [<- <-].
Qed.
Lemma dm_audit a x t i d : keeps_dm (LogAudit a x t i d).
Proof. intros P C. apply preserves_update. by intros now d' [<- <-]. Qed.
Lemma dm_react (add : bool) i u e : keeps_dm (if add then AddReaction i u e else RemoveReaction i u e).
Proof. destruct add; apply dm_exec; intros now d x d' E; repeat case_hyp E; by simplify_eq. Qed.

Create HintDb ws_dm.
#[export] Hint Resolve dm_reads dm_create dm_link dm_open dm_delete dm_edit dm_audit dm_react : ws_dm.

Section prims.
Context (p : Z) (A : Z -> Prop) (w0 : World).
Let I := confined p A w0.

Lemma cf_sys {X} (m : ST Sys X) : keeps_dm m -> stable I (sys m).
Proof.
  intros Hm w [H1 H2 H3 H4 H5 H6]. destruct (Hm _ _ (w_sys w) (conj H1 H2)) as [? ?]. by split.
Qed.

Lemma cf_read {X} (m : ST Sys X) : reads m -> stable I (sys m).
Proof. intros Hm. by apply cf_sys, dm_reads. Qed.

Lemma cf_fields w w' : I w -> w_sys w' = w_sys w -> w_conns w' = w_conns w -> w_clients w' = w_clients w ->
  w_broadcast w' = w_broadcast w -> w_replayBuf w' = w_replayBuf w -> I w'.
Proof. intros [H1 H2 H3 H4 H5 H6] E1 E2 E3 E4 E5. split; by rewrite ?E1, ?E2, ?E3, ?E4, ?E5. Qed.

(** A connection that may be sent to. *)
Definition reachable (q : Z) : Prop := q = p \/ exists u, A u /\ w_clients w0 !! u = Some q.

Lemma cf_upd q f : reachable q -> stable I (upd q f).
Proof.
  intros Hq w [H1 H2 H3 H4 H5 H6]. split; simpl; try done. intros q' Hne Hno.
  rewrite lookup_alter_ne; [by apply H6|]. intros ->. destruct Hq as [->|(u & Hu & Hc)]; [done|]. by apply (Hno u).
Qed.

Lemma cf_try q msg : reachable q -> stable I (trySendMsg q msg).
Proof.
  intros Hq. unfold trySendMsg. apply stable_bind; [apply stable_gets|intros c].
  destruct (cl_sendClosed c); [apply stable_ret|]. destruct (ch_closed _).
  - apply stable_bind; [apply stable_modify; intros w Hw; by apply (cf_fields w)|intros; apply stable_ret].
  - apply stable_bind; [by apply cf_upd|intros; apply stable_ret].
Qed.

Lemma cf_send msg : stable I (sendMsg p msg).
Proof. apply stable_bind; [apply cf_try; by left|intros; apply stable_ret]. Qed.
Lemma cf_fail code msg : stable I (fail p code msg).
Proof. apply cf_send. Qed.

Lemma cf_toUser u msg : A u -> stable I (SendToUser u msg).
Proof.
  intros Hu w Hw. unfold SendToUser, lookup_client, gets, mbind, ST_bind. cbn [fst snd].
  destruct (w_clients w !! u) as [q|] eqn:E; [|done]. apply cf_try; [|done].
  right. exists u. split; [done|]. by rewrite <- (cf_clients _ _ _ _ Hw).
Qed.

Lemma cf_forM {X} (l : list X) (f : X -> M unit) : (forall x, x ∈ l -> stable I (f x)) -> stable I (forM_ l f).
Proof.
  induction l as [|x l IH]; intros Hf; [apply stable_ret|].
  apply stable_bind; [apply Hf; left|intros _]. apply IH. intros y Hy. apply Hf. by right.
Qed.

Lemma cf_each us msg : (forall u, u ∈ us -> A u) -> stable I (send_each us msg).
Proof.
  intros Hus. apply cf_forM. intros u Hu.
  apply stable_bind; [by apply cf_toUser, Hus|intros; apply stable_ret].
Qed.

Lemma cf_allow k l win : stable I (allow k l win).
Proof.
  unfold allow. do 2 (apply stable_bind; [apply cf_read, reads_clock|intros ?]).
  intros w Hw. by apply (cf_fields w).
Qed.

Lemma cf_perm ch q : stable I (hasChannelPerm p ch q).
Proof.
  unfold hasChannelPerm. apply stable_bind; [apply stable_gets|intros c].
  destruct (cl_user c); [|apply stable_ret].
  apply stable_bind; [apply cf_read, reads_query|intros [e|[r|]]]; try apply stable_ret.
  apply cf_read, reads_HasChannelPerm.
Qed.

Lemma cf_channel ch : triple I (sys (GetChannel ch)) (fun r w => I w /\
  ((exists e, r = inl e) \/ r = inr (channels (sys_db (w_sys w0)) !! ch))).
Proof.
  intros w Hw. split; [by apply (cf_read (GetChannel ch) (reads_query _))|].
  rewrite <- (cf_channels _ _ _ _ Hw). apply (query_cases (fun d => channels d !! ch)).
Qed.

Lemma cf_members ch : triple I (sys (GetDMParticipantIDs ch)) (fun r w => I w /\
  (forall l u, r = inr l -> u ∈ l -> (ch, u) ∈ dm_participants (sys_db (w_sys w0)))).
Proof.
  intros w Hw. split; [by apply (cf_read (GetDMParticipantIDs ch) (reads_query _))|].
  intros l u Hl Hu. rewrite <- (cf_parts _ _ _ _ Hw).
  destruct (query_cases (dm_members ch) (w_sys w)) as [_ [[e E]|E]];
    change ((sys (GetDMParticipantIDs ch) w).1) with ((query (dm_members ch) (w_sys w)).1) in Hl;
    rewrite E in Hl; [done|]. injection Hl as <-. by apply elem_of_dm_members.
Qed.
End prims.

#[export] Hint Resolve cf_read cf_send cf_fail cf_allow cf_perm : ws_dm.

(** ** The handlers *)

Section dm.
Context (sanitize : string -> string) (p : Z) (w0 : World) (channelID : Z).
Let member (u : Z) : Prop := (channelID, u) ∈ dm_participants (sys_db (w_sys w0)).
Local Abbreviation I := (confined p member w0).

Lemma dm_access : stable I (chat_send_access p true channelID).
Proof.
  unfold chat_send_access. cbn iota.
  repeat (walk_step || apply stable_gets || solve [auto with ws_dm ws_db nocore]).
Qed.

Lemma dm_slow ch : stable I (slow_mode_ok p channelID true ch).
Proof. unfold slow_mode_ok. apply stable_bind; [apply stable_gets|intros c; apply stable_ret]. Qed.

Lemma dm_attachments msgID ids : stable I (link_attachments p msgID ids).
Proof.
  unfold link_attachments. repeat (walk_step || apply stable_gets || solve [auto with ws_dm ws_db nocore]).
  all: apply cf_sys; auto with ws_dm nocore.
Qed.

Lemma dm_deliver frame : stable I (deliver_dm p channelID frame).
Proof.
  unfold deliver_dm. apply stable_bind; [apply stable_gets|intros c].
  eapply triple_bind; [apply cf_members|]. intros r. apply triple_pure. intros Hr.
  destruct r as [e|l]; [apply cf_fail|].
  apply stable_bind; [apply cf_each; intros u Hu; by apply (Hr l)|intros _].
  apply cf_forM. intros u Hu. destruct (u =? cl_userID c); [apply stable_ret|].
  apply stable_bind; [apply cf_sys, dm_open|intros [e|x]]; [apply stable_ret|].
  destruct (cl_user c); [|apply stable_ret].
  apply stable_bind; [apply cf_toUser; by apply (Hr l)|intros; apply stable_ret].
Qed.

Lemma dm_commit reqID pl ch : stable I (chat_send_commit sanitize p reqID pl channelID ch true).
Proof.
  unfold chat_send_commit. apply stable_bind; [apply dm_slow|intros slow].
  destruct (negb slow); [apply stable_ret|].
  destruct (_ && _); [apply cf_fail|]. destruct (_ <? _); [apply cf_fail|].
  apply stable_bind; [apply stable_ret|intros allowed]. destruct (negb allowed); [apply stable_ret|].
  apply stable_bind; [apply stable_gets|intros c].
  apply stable_bind; [apply cf_sys, dm_create|intros [e|msgID]]; [apply cf_fail|].
  apply stable_bind; [apply dm_attachments|intros [atts|]]; [|apply stable_ret].
  unfold chat_send_deliver. apply stable_bind; [apply cf_read, reads_query|intros [e|[m|]]]; try apply cf_fail.
  apply stable_bind; [apply stable_gets|intros c1]. apply stable_bind; [apply cf_send|intros _]. apply dm_deliver.
Qed.

Lemma dm_send reqID payload pl ch :
  unmarshal_chat_send payload = Some pl -> positive_id (cs_ChannelID pl) = Some channelID ->
  channels (sys_db (w_sys w0)) !! channelID = Some ch -> c_type ch = "dm" ->
  stable I (handleChatSend sanitize p reqID payload).
Proof.
  intros Hpl Hid Hch Hdm. unfold handleChatSend. apply stable_bind; [apply stable_gets|intros c].
  apply stable_bind; [apply cf_allow|intros ok]. destruct (negb ok); [apply cf_send|].
  rewrite Hpl, Hid. eapply triple_bind; [apply cf_channel|]. intros r. apply triple_pure.
  rewrite Hch. intros [[e ->]| ->]; [apply cf_fail|]. rewrite Hdm. cbn [String.eqb Ascii.eqb Bool.eqb].
  apply stable_bind; [apply dm_access|intros ok2]. destruct (negb ok2); [apply stable_ret|apply dm_commit].
Qed.

Lemma dm_tell frame : stable I (broadcastToDMParticipants channelID frame).
Proof.
  unfold broadcastToDMParticipants. eapply triple_bind; [apply cf_members|]. intros r. apply triple_pure.
  intros Hr. destruct r as [e|l]; [apply stable_ret|]. apply cf_each. intros u Hu. by apply (Hr l).
Qed.

Lemma dm_part (other : M bool) : stable I (channel_access p true channelID other).
Proof.
  unfold channel_access. apply stable_bind; [apply stable_gets|intros c1].
  apply stable_bind; [apply cf_read, reads_query|intros; apply stable_ret].
Qed.

Lemma dm_typing payload ch : positive_channel payload = Some channelID ->
  channels (sys_db (w_sys w0)) !! channelID = Some ch -> c_type ch = "dm" ->
  stable I (handleTyping p payload).
Proof.
  intros Hid Hch Hdm. unfold handleTyping. rewrite Hid. apply stable_bind; [apply stable_gets|intros c].
  apply stable_bind; [apply cf_allow|intros ok]. destruct (negb ok); [apply stable_ret|].
  eapply triple_bind; [apply cf_channel|]. intros r. apply triple_pure.
  rewrite Hch. intros [[e ->]| ->]; [apply stable_ret|]. rewrite Hdm. cbn [String.eqb Ascii.eqb Bool.eqb].
  apply stable_bind; [apply dm_part|intros ok2]. destruct (negb ok2); [apply stable_ret|]. unfold broadcastToDMParticipantsExclude.
  eapply triple_bind; [apply cf_members|]. intros r. apply triple_pure. intros Hr.
  destruct r as [e|l]; [apply stable_ret|]. apply cf_each. intros u Hu. apply (Hr l); [done|].
  apply elem_of_filter_bool in Hu. tauto.
Qed.

(** *** Edits, deletions and reactions

    These name a message; that its channel is a DM is read from the database by
    the second statement. *)

(** The message is in the channel. *)
Definition placed (msgID : Z) (d : Db) : Prop := exists m, messages d !! msgID = Some m /\ m_channel m = channelID.

Section message.
Context (msgID : Z) (ch : Channel) (Hch : channels (sys_db (w_sys w0)) !! channelID = Some ch) (Hdm : c_type ch = "dm").
Context (F : list bool) (Hread : nth 1 F false = false).
Let J (w : World) : Prop := I w /\ placed msgID (sys_db (w_sys w)).
(** [fs]: which statements to come fail. *)
Let before (fs : list bool) (w : World) : Prop := J w /\ sys_faults (w_sys w) = fs.

Lemma tick_same y : sys_db (tick y) = sys_db y /\ sys_faults (tick y) = sys_faults y.
Proof. unfold tick. by destruct (sys_ticks y). Qed.

Lemma dm_allowed k l win : stable (before F) (allow k l win).
Proof.
  intros w [[Hw Hp] Hf]. split; [split; [by apply cf_allow|]|].
  all: unfold allow, now, sys, read_clock, step, mbind, ST_bind; cbn [fst snd w_sys w_set_sys w_set_limiter];
    by rewrite !(proj1 (tick_same _)) || rewrite !(proj2 (tick_same _)).
Qed.

Lemma query_faults {A} (f : Db -> A) y : sys_faults (query f y).2 = tail (sys_faults y).
Proof.
  unfold query, exec. rewrite <- (proj2 (tick_same y)). by destruct (faulty (tick y)).
Qed.
Lemma query_passes {A} (f : Db -> A) y : nth 0 (sys_faults y) false = false -> (query f y).1 = inr (f (sys_db y)).
Proof.
  intros H. unfold query, exec, faulty. rewrite (proj2 (tick_same y)), (proj1 (tick_same y)).
  destruct (sys_faults y) as [|[] fs]; done.
Qed.

Lemma placed_query {A} (f : Db -> A) : stable J (sys (query f)).
Proof. intros w [Hw Hp]. split; [by apply (cf_read _ _ _ (query f) (reads_query _))|]. unfold sys. cbn [snd w_sys w_set_sys]. by rewrite query_db. Qed.

Lemma placed_found : triple J (sys (GetMessage msgID)) (fun r w => J w /\
  ((exists e, r = inl e) \/ exists m, r = inr (Some m) /\ m_channel m = channelID)).
Proof.
  intros w Hw. split; [by apply placed_query|]. destruct Hw as [_ (m & Hm & Hc)].
  destruct (query_cases (fun d => messages d !! msgID) (w_sys w)) as [_ [[e H]|H]]; [left; by exists e|right].
  exists m. split; [|done]. unfold sys, GetMessage. cbn [fst]. by rewrite H, Hm.
Qed.

Lemma placed_sys {X} (m : ST Sys X) : keeps_dm m -> preserves (placed msgID) m -> stable J (sys m).
Proof. intros Hd Hp w [Hw Hm]. split; [by apply cf_sys|by apply Hp]. Qed.

(** The message and its channel, as the handlers read them. *)
Lemma dm_reached (k : result db_error (option Message) -> M unit) : (forall e, stable I (k (inl e))) ->
  (forall m, m_channel m = channelID -> triple (before (tail F)) (k (inr (Some m))) (fun _ => I)) ->
  triple (before F) (sys (GetMessage msgID) ≫= k) (fun _ => I).
Proof.
  intros Hno Hyes w [Hw Hf]. unfold mbind, ST_bind.
  pose proof (placed_found w Hw) as [Hw1 Hr].
  assert (Hf1 : sys_faults (w_sys (sys (GetMessage msgID) w).2) = tail F)
    by (unfold sys, GetMessage; cbn [snd w_sys w_set_sys]; by rewrite query_faults, Hf).
  destruct Hr as [[e ->]|(m & -> & Hm)]; [apply Hno, Hw1|by apply Hyes].
Qed.

Lemma dm_recognised (k : result db_error (option Channel) -> M unit) :
  triple J (k (inr (Some ch))) (fun _ => I) ->
  triple (before (tail F)) (sys (GetChannel channelID) ≫= k) (fun _ => I).
Proof.
  intros Hk w [Hw Hf]. unfold mbind, ST_bind.
  assert ((sys (GetChannel channelID) w).1 = inr (Some ch)) as ->.
  { unfold sys, GetChannel. cbn [fst]. rewrite query_passes.
    - by rewrite (cf_channels _ _ _ _ (proj1 Hw)), Hch.
    - rewrite Hf. by destruct F as [|? [|]]. }
  apply Hk. by apply placed_query.
Qed.

Lemma before_refl fs w : w0 = w -> placed msgID (sys_db (w_sys w)) -> sys_faults (w_sys w) = fs -> before fs w.
Proof. intros <- Hp Hf. split; [split; [apply confined_refl|done]|done]. Qed.

Lemma inside {A} (m : M A) : stable I m -> triple J m (fun _ => I).
Proof. intros Hm w [Hw _]. by apply Hm. Qed.

Lemma is_dm : is_dm_result (inr (Some ch)) = true.
Proof. simpl. by rewrite Hdm. Qed.

Lemma placed_update (f : Z -> Message -> Message) : (forall now m, m_channel (f now m) = m_channel m) -> forall i,
  preserves (placed msgID) (update (fun now d => set_messages (update_row i (f now) (messages d)) d)).
Proof.
  intros Hf i. apply preserves_update. intros now d (m & Hm & Hc). unfold placed, update_row. simpl.
  destruct (decide (i = msgID)) as [->|Hne].
  - exists (f now m). rewrite lookup_alter_eq, Hm. by rewrite Hf.
  - exists m. by rewrite lookup_alter_ne.
Qed.

Lemma placed_edit i u x : preserves (placed msgID) (EditMessage i u x).
Proof.
  apply preserves_or_return; [apply preserves_query|]. intros [m|]; [|apply preserves_ret].
  destruct (negb _); [apply preserves_ret|]. by apply (placed_update (fun now => message_set_content x (Some (datetime_now now)))).
Qed.

Lemma dm_edited content : triple J (chat_edit_broadcast p true msgID content) (fun _ => I).
Proof.
  unfold chat_edit_broadcast. eapply triple_bind; [apply placed_found|]. intros r w [[Hw _] Hr]. revert w Hw.
  change (stable I (match r with
    | inr (Some m) => broadcastToDMParticipants (m_channel m) (buildChatEdited msgID (m_channel m) content (default "" (m_edited_at m)))
    | _ => fail p ErrCodeInternal "edit saved but broadcast failed" end)).
  destruct Hr as [[e ->]|(m & -> & ->)]; [apply cf_fail|apply dm_tell].
Qed.

Lemma dm_edit_handler payload lit raw : unmarshal_chat_edit payload = Some (lit, raw) -> positive_id lit = Some msgID ->
  triple (before F) (handleChatEdit sanitize p payload) (fun _ => I).
Proof.
  intros Hpl Hid. unfold handleChatEdit. apply triple_bind with (J := fun _ => before F); [by intros w Hw|intros c].
  apply triple_bind with (J := fun _ => before F); [apply dm_allowed|intros ok].
  assert (Hout : forall (m : M unit), stable I m -> triple (before F) m (fun _ => I)) by (intros m Hm w [[Hw _] _]; by apply Hm).
  destruct (negb ok); [apply Hout, cf_send|]. rewrite Hpl, Hid. cbv zeta.
  destruct (String.eqb _ _); [apply Hout, cf_fail|]. destruct (_ <? _); [apply Hout, cf_fail|].
  apply dm_reached; [intros e; apply cf_fail|]. intros m Hm. rewrite Hm. apply dm_recognised. rewrite is_dm. cbv zeta.
  apply triple_bind with (J := fun _ => J).
  { unfold channel_access. apply stable_bind; [apply stable_gets|intros c1].
    apply stable_bind; [apply placed_query|intros; apply stable_ret]. }
  intros access. destruct (negb access); [apply inside, cf_fail|].
  apply triple_bind with (J := fun _ => J); [apply placed_sys; [apply dm_edit|apply placed_edit]|].
  intros [e|x]; [apply inside, cf_fail|apply dm_edited].
Qed.

Lemma dm_delete_handler payload lit : unmarshal_chat_delete payload = Some lit -> positive_id lit = Some msgID ->
  triple (before F) (handleChatDelete p payload) (fun _ => I).
Proof.
  intros Hpl Hid. unfold handleChatDelete. apply triple_bind with (J := fun _ => before F); [by intros w Hw|intros c].
  apply triple_bind with (J := fun _ => before F); [apply dm_allowed|intros ok].
  destruct (negb ok); [intros w [[Hw _] _]; by apply cf_send|]. rewrite Hpl, Hid.
  apply dm_reached; [intros e; apply cf_fail|]. intros m Hm. rewrite Hm. apply dm_recognised, inside. rewrite is_dm. cbv zeta.
  apply stable_bind; [apply dm_part|intros access]. destruct (negb access); [apply cf_fail|].
  apply stable_bind; [apply stable_ret|intros isMod].
  apply stable_bind; [apply cf_sys, dm_delete|intros [e|x]]; [apply cf_fail|].
  apply stable_bind; [apply cf_sys, dm_audit|intros ?]. apply dm_tell.
Qed.

Lemma dm_react_handler add payload lit emoji : unmarshal_reaction payload = Some (lit, emoji) ->
  positive_id lit = Some msgID -> triple (before F) (handleReaction p add payload) (fun _ => I).
Proof.
  intros Hpl Hid. unfold handleReaction. apply triple_bind with (J := fun _ => before F); [by intros w Hw|intros c].
  apply triple_bind with (J := fun _ => before F); [apply dm_allowed|intros ok].
  assert (Hout : forall (m : M unit), stable I m -> triple (before F) m (fun _ => I)) by (intros m Hm w [[Hw _] _]; by apply Hm).
  destruct (negb ok); [apply Hout, cf_send|]. rewrite Hpl, Hid.
  destruct (String.eqb _ _); [apply Hout, cf_fail|]. destruct (_ <? _); [apply Hout, cf_fail|].
  destruct (negb (emoji_ok _)); [apply Hout, cf_fail|].
  apply dm_reached; [intros e; apply cf_fail|]. intros m Hm. rewrite Hm. apply dm_recognised, inside. rewrite is_dm. cbv zeta.
  apply stable_bind.
  { apply stable_bind; [apply dm_part|intros b]. apply stable_bind; [|intros _; apply stable_ret].
    unfold unless. destruct b; [apply stable_ret|apply cf_fail]. }
  intros access. destruct (negb access); [apply stable_ret|].
  apply stable_bind; [apply cf_sys, dm_react|intros [e|x]]; [apply cf_fail|apply dm_tell].
Qed.
End message.
End dm.

(** Ann (1) and Bob (2) have a DM channel; Ann is on connection 1, Bob on 2,
    and Eve (3), on 3, takes no part in it. *)
Definition demo_dm : World :=
  (run (fun s => s) (fun _ => None) [
    EvDb (OpCreateUser "ann" "pw" 4); EvDb (OpCreateUser "bob" "pw" 4); EvDb (OpCreateUser "eve" "pw" 4);
    EvDb (OpCreateSession 1 (HashToken "t") "pc" "::1"); EvDb (OpCreateSession 2 (HashToken "u") "pc" "::1");
    EvDb (OpCreateSession 3 (HashToken "v") "pc" "::1"); EvDb (OpGetOrCreateDMChannel 1 2);
    EvConnect (Some (hello "t" 0)) "a"; EvConnect (Some (hello "u" 0)) "b";
    EvConnect (Some (hello "v" 0)) "c"] demo_start).2.
Definition dm_payload : option json := Some (JObj [("channel_id", JInt 1); ("content", JStr "hi")]).
Definition edit_payload : option json := Some (JObj [("message_id", JInt 1); ("content", JStr "hello")]).
Definition pending (q : Z) (w : World) : nat := length (ch_buf (cl_send (conn_of w q))).

(** The second statement of the request, which reads the channel, does not fail. *)
Definition channel_is_read (w : World) : Prop := nth 1 (sys_faults (w_sys w)) false = false.

(** The requests about what is said in a channel: to post and to type in it, and
    to edit, to delete and to react to a message of it, where its kind is read. *)
Inductive dm_request (sanitize : string -> string) (p channelID : Z) (w : World) : M unit -> Prop :=
| dm_posts reqID payload pl : unmarshal_chat_send payload = Some pl -> positive_id (cs_ChannelID pl) = Some channelID ->
    dm_request sanitize p channelID w (handleChatSend sanitize p reqID payload)
| dm_types payload : positive_channel payload = Some channelID ->
    dm_request sanitize p channelID w (handleTyping p payload)
| dm_edits payload lit raw msgID : unmarshal_chat_edit payload = Some (lit, raw) -> positive_id lit = Some msgID ->
    placed channelID msgID (sys_db (w_sys w)) -> channel_is_read w ->
    dm_request sanitize p channelID w (handleChatEdit sanitize p payload)
| dm_deletes payload lit msgID : unmarshal_chat_delete payload = Some lit -> positive_id lit = Some msgID ->
    placed channelID msgID (sys_db (w_sys w)) -> channel_is_read w ->
    dm_request sanitize p channelID w (handleChatDelete p payload)
| dm_reacts add payload lit emoji msgID : unmarshal_reaction payload = Some (lit, emoji) -> positive_id lit = Some msgID ->
    placed channelID msgID (sys_db (w_sys w)) -> channel_is_read w ->
    dm_request sanitize p channelID w (handleReaction p add payload).

End Privacy.
Export Privacy.

(** C10: direct messages are private: whatever the state, the sender and the
    failures, a message that is posted to a DM channel, and a typing notice in
    one, are handed only to the sending connection and to the registered
    connections of the participants, and put nothing in the broadcast queue and
    nothing in the replay buffer. So are the edit and the deletion of a message
    of the channel and the reactions to it, provided that the statement by which
    the server reads the kind of the channel does not fail (when it fails, they
    enter the broadcast queue and may reach others:
    [Cases.dm_edit_leaks_on_fault]). *)
Theorem dm_message_private sanitize p channelID ch m w
    (Hch : channels (sys_db (w_sys w)) !! channelID = Some ch) (Hdm : c_type ch = "dm")
    (Hm : dm_request sanitize p channelID w m) :
  confined p (fun u => (channelID, u) ∈ dm_participants (sys_db (w_sys w))) w (m w).2.
Proof.
  destruct Hm.
  - by apply (dm_send sanitize p w channelID reqID payload pl ch), confined_refl.
  - by apply (dm_typing p w channelID payload ch), confined_refl.
  - by eapply (dm_edit_handler sanitize p w channelID msgID ch), before_refl.
  - by eapply (dm_delete_handler p w channelID msgID ch), before_refl.
  - by eapply (dm_react_handler p w channelID msgID ch), before_refl.
Qed.

(** Ann writes, then edits what she wrote: Bob's connection receives the message,
    the opening of the channel and the edit, Eve's nothing. *)
Lemma dm_message_private_witness :
  let w1 := (handleChatSend (fun s => s) 1 "" dm_payload demo_dm).2 in
  let w2 := (handleChatEdit (fun s => s) 1 edit_payload w1).2 in
  (w_broadcast w1 = w_broadcast demo_dm /\ w_conns w1 !! 3 = w_conns demo_dm !! 3 /\
   pending 2 w1 = (2 + pending 2 demo_dm)%nat) /\
  w_broadcast w2 = w_broadcast w1 /\ w_replayBuf w2 = w_replayBuf w1 /\ pending 2 w2 = S (pending 2 w1).
Proof.
  intros w1 w2.
  assert (Hpl : unmarshal_chat_send dm_payload = Some (mkChatSend "1" "hi" None []))
    by (vm_compute; reflexivity).
  assert (Hid : positive_id "1" = Some 1) by (vm_compute; reflexivity).
  assert (Hch : exists ch, channels (sys_db (w_sys demo_dm)) !! 1 = Some ch /\ c_type ch = "dm")
    by (vm_compute; eexists; split; reflexivity).
  destruct Hch as (ch & Hch & Hdm).
  pose proof (dm_message_private (fun s => s) 1 1 ch _ demo_dm Hch Hdm (dm_posts _ 1 1 demo_dm "" dm_payload _ Hpl Hid)) as H.
  fold w1 in H.
  assert (Hed : unmarshal_chat_edit edit_payload = Some ("1", "hello")) by (vm_compute; reflexivity).
  assert (Hin : placed 1 1 (sys_db (w_sys w1))) by (unfold placed; vm_compute; eexists; split; reflexivity).
  pose proof (dm_message_private (fun s => s) 1 1 ch _ w1 ltac:(by rewrite (cf_channels _ _ _ _ H)) Hdm
    (dm_edits _ 1 1 w1 edit_payload _ _ 1 Hed Hid Hin ltac:(vm_compute; reflexivity))) as H2.
  fold w2 in H2. split.
  - split; [apply (cf_queue _ _ _ _ H)|]. split; [|vm_compute; reflexivity].
    apply (cf_conns _ _ _ _ H); [done|]. intros u Hu Hc.
    assert (u = 3) as ->.
    { assert (Hmap : map_Forall (fun u q => q = 3 -> u = 3) (w_clients demo_dm))
        by (apply (bool_decide_unpack _); vm_compute; exact I).
      by apply (Hmap u 3). }
    revert Hu. apply (bool_decide_unpack (~ (1, 3) ∈ dm_participants (sys_db (w_sys demo_dm)))).
    vm_compute. exact I.
  - split; [apply (cf_queue _ _ _ _ H2)|]. split; [apply (cf_replay _ _ _ _ H2)|vm_compute; reflexivity].
Defined.
