(* ===== verification/Cases.v ===== *)
(** * Runs worth knowing

    Concrete runs of the model in which the server does something its comments
    or its other paths say it does not. Each is computed. *)

From S2P Require Import Prelude Permissions RateLimiter GoText Wire Json GoTime Crypto Credentials Rows Store StoreInv StoreOk StoreThms Hub Chat Voice Serve WsInv WsRun Sessions VoiceThms Privacy.
#[local] Open Scope string_scope.
#[local] Open Scope Z_scope.

Module Cases.

Definition mentions (text frame : string) : bool :=
  match String.index 0 text frame with Some _ => true | None => false end.
(** What was written to connection [q] and what waits to be. *)
Definition inbox (w : World) (q : Z) : list string :=
  (cl_wire (conn_of w q) ++ ch_buf (cl_send (conn_of w q)))%list.
(** The next database statements fail as the list says. *)
Definition with_faults (fs : list bool) (w : World) : World :=
  w_set_sys (mkSys (sys_db (w_sys w)) fs (sys_now (w_sys w)) (sys_ticks (w_sys w))) w.

Definition plain (es : list event) (w : World) : World := (run (fun s => s) (fun _ => Some "token") es w).2.
Definition text_msg (type : string) (payload : list (string * json)) : string :=
  render (JObj [("type", JStr type); ("payload", JObj payload)]).

Definition voice_at (w : World) (u : Z) : option Z := v_channel <$> voice_states (sys_db (w_sys w)) !! u.

(** Eve, who takes no part in the DM channel 1, joins its voice room: the join
    handler looks at her role only. *)
Example stranger_joins_dm_voice :
  let w := plain [EvReceive 3 (text_msg "voice_join" [("channel_id", JInt 1)])] demo_dm in
  bool_decide ((1, 3) ∈ dm_participants (sys_db (w_sys demo_dm))) = false /\
  cl_voiceChID (conn_of w 3) = 1 /\ voice_at w 3 = Some 1.
Proof. repeat split; vm_compute; reflexivity. Qed.

(** Ann edits her direct message while the read of its channel fails: the edit
    goes to the broadcast queue, from there to the replay buffer, and Eve, who
    reconnects, receives it. *)
Definition dm_written : World :=
  plain [EvReceive 1 (text_msg "chat_send" [("channel_id", JInt 1); ("content", JStr "hi")]);
         EvDispatch; EvDispatch; EvDispatch; EvDispatch; EvDispatch; EvDispatch] demo_dm.
Definition dm_leak : World :=
  plain [EvReceive 1 (text_msg "chat_edit" [("message_id", JInt 1); ("content", JStr "secret")]); EvDispatch]
    (with_faults [false; true] dm_written).

Example dm_edit_leaks_on_fault :
  let w := plain [EvConnect (Some (hello "v" (w_seq dm_written))) "c"] dm_leak in
  bool_decide ((1, 3) ∈ dm_participants (sys_db (w_sys w))) = false /\
  cl_userID (conn_of w 4) = 3 /\ existsb (mentions "secret") (inbox w 4) = true.
Proof. repeat split; vm_compute; reflexivity. Qed.

(** The replay at a reconnection does not ask which channels the user may see:
    Eve receives an event of channel 7 that the hub did not address to her. *)
Example replay_unfiltered :
  let w := plain [EvBroadcast 7 "{secret}"; EvDispatch] dm_written in
  let w' := plain [EvConnect (Some (hello "v" (w_seq dm_written))) "c"] w in
  existsb (mentions "secret") (inbox w 3) = false /\ existsb (mentions "secret") (inbox w' 4) = true.
Proof. split; vm_compute; reflexivity. Qed.

(** Between the reading of the replay buffer and the registration of the new
    connection the hub sends a broadcast: the client, which is caught up from
    "first" to "second" and receives "fourth", never receives "third". *)
Example broadcast_lost_in_handshake :
  let user := mkUser 1 "ann" "" None 4 None "offline" "" None false None None in
  let w := plain [EvBroadcast 0 "{first}"; EvBroadcast 0 "{second}"; EvDispatch; EvDispatch] (start [] 0 [] None None []) in
  let '(p, w1) := newClient user "h" w in
  let '(events, w2) := events_since 1 w1 in
  let w3 := plain [EvBroadcast 0 "{third}"; EvDispatch] w2 in
  let '(started, w4) := resume_session p user "member" (default [] events) w3 in
  let w5 := plain [EvBroadcast 0 "{fourth}"; EvDispatch; EvDispatch] w4 in
  started = true /\ existsb (mentions "second") (inbox w5 p) = true /\
  existsb (mentions "fourth") (inbox w5 p) = true /\ existsb (mentions "third") (inbox w5 p) = false.
Proof. vm_compute. repeat split. Qed.

(** Ann leaves voice channel 1 while the deletion of her row fails, and joins
    channel 2; the retry in the background then deletes the row of the second
    channel, in which her connection still is. *)
Definition two_rooms : World :=
  plain [EvDb (OpCreateChannel "one" "voice" "" "" 0); EvDb (OpCreateChannel "two" "voice" "" "" 1);
    EvReceive 1 (text_msg "voice_join" [("channel_id", JInt 1)])] (plain demo_connect demo_start).

Example retry_deletes_later_join :
  let w1 := plain [EvReceive 1 (text_msg "voice_leave" [])] (with_faults [true] two_rooms) in
  let w2 := plain [EvReceive 1 (text_msg "voice_join" [("channel_id", JInt 2)])] w1 in
  let w3 := plain [EvRetry 0] w2 in
  voice_at w2 1 = Some 2 /\ voice_at w3 1 = None /\ cl_voiceChID (conn_of w3 1) = 2.
Proof. repeat split; vm_compute; reflexivity. Qed.

(** An author edits a message that was deleted: it is found, changed and
    announced. *)
Example deleted_message_edited :
  let w := plain [EvReceive 1 (text_msg "chat_delete" [("message_id", JInt 1)]);
    EvReceive 1 (text_msg "chat_edit" [("message_id", JInt 1); ("content", JStr "again")])] dm_written in
  (fun m => (m_deleted m, m_content m)) <$> messages (sys_db (w_sys w)) !! 1 = Some (true, "again") /\
  existsb (mentions "chat_edited") (inbox w 2) = true.
Proof. split; vm_compute; reflexivity. Qed.

End Cases.
Export Cases.
