(* ===== verification/Net.v ===== *)
(** * Internet addresses

    What the server uses of Go's package net: splitting a host from its port,
    parsing IP addresses and CIDR ranges, and membership of an address in a
    range. Addresses are lists of bytes. *)

From S2P Require Import Prelude GoText Json.
From Stdlib Require Import Ascii.
#[local] Open Scope string_scope.
#[local] Open Scope Z_scope.

Module Net.

(** ** Bytes of a text *)

Definition colon : Z := 58.
Definition dot : Z := 46.

(** [strings.Cut] at the first [sep]. *)
Fixpoint cut (sep : Z) (l : list Z) : list Z * option (list Z) :=
  match l with
  | [] => ([], None)
  | b :: l => if b =? sep then ([], Some l) else let '(x, r) := cut sep l in (b :: x, r)
  end.

Definition has_byte (b : Z) (l : list Z) : bool := existsb (Z.eqb b) l.

(** The text before and after the last [sep]. *)
Definition cut_last (sep : Z) (l : list Z) : option (list Z * list Z) :=
  match cut sep (rev l) with
  | (x, Some r) => Some (rev r, rev x)
  | (_, None) => None
  end.

(** [strings.Split] at every [sep]. *)
Fixpoint split (sep : Z) (l : list Z) : list (list Z) :=
  match l with
  | [] => [[]]
  | b :: l =>
      if b =? sep then [] :: split sep l
      else match split sep l with x :: r => (b :: x) :: r | [] => [[b]] end
  end.

(** ** Hosts *)

(** The host of [net.SplitHostPort]; [None] is an error. *)
Definition split_host (l : list Z) : option (list Z) :=
  match l with
  | 91 :: l' =>
      match cut 93 l' with
      | (_, None) => None
      | (host, Some rest) =>
          match rest with
          | 58 :: port =>
              if has_byte colon port || has_byte 91 host || has_byte 91 port || has_byte 93 port then None
              else Some host
          | _ => None
          end
      end
  | _ =>
      match cut_last colon l with
      | None => None
      | Some (host, port) =>
          if has_byte colon host || has_byte 91 l || has_byte 93 l then None else Some host
      end
  end.

Definition SplitHost (hostport : string) : option string := string_of <$> split_host (bytes_of hostport).

(** ** Addresses *)

(** A decimal field of an IPv4 address: no leading zero, at most 255. *)
Definition ipv4_field (l : list Z) : option Z :=
  match l with
  | [] => None
  | 48 :: _ :: _ => None
  | _ =>
      if forallb is_digit l
      then let v := fold_left (fun a d => 10 * a + (d - 48)) l 0 in if v <=? 255 then Some v else None
      else None
  end.

Definition parse_ipv4 (l : list Z) : option (list Z) :=
  match split dot l with
  | [a; b; c; d] => a ← ipv4_field a; b ← ipv4_field b; c ← ipv4_field c; d ← ipv4_field d; Some [a; b; c; d]
  | _ => None
  end.

(** The leading hexadecimal digits: value, number, rest. *)
Fixpoint span_hex (acc : Z) (n : nat) (l : list Z) : Z * nat * list Z :=
  match l with
  | b :: l' =>
      match hex_val b with Some d => span_hex (16 * acc + d) (S n) l' | None => (acc, n, l) end
  | [] => (acc, n, [])
  end.

(** The zeros of the ellipsis, given where it stands. *)
Definition expand (ip : list Z) (ellipsis : option nat) : option (list Z) :=
  if (length ip <? 16)%nat then
    match ellipsis with
    | None => None
    | Some e => Some (take e ip ++ replicate (16 - length ip) 0 ++ drop e ip)%list
    end
  else match ellipsis with None => Some ip | Some _ => None end.

(** The fields of an IPv6 address from the text [l] on; [ip] holds the bytes so
    far. One field per unit of fuel, of which there are eight. *)
Fixpoint ipv6_fields (fuel : nat) (ip : list Z) (ellipsis : option nat) (l : list Z) : option (list Z) :=
  match fuel with
  | O => match l with [] => expand ip ellipsis | _ => None end
  | S fuel =>
      let '(acc, n, rest) := span_hex 0 0 l in
      if (n =? 0)%nat || (4 <? n)%nat then None
      else match rest with
      | 46 :: _ =>
          if bool_decide (ellipsis = None) && negb (length ip =? 12)%nat then None
          else if (16 <? length ip + 4)%nat then None
          else v4 ← parse_ipv4 l; expand (ip ++ v4)%list ellipsis
      | _ =>
          let ip := (ip ++ [acc / 256; acc mod 256])%list in
          match rest with
          | [] => expand ip ellipsis
          | 58 :: 58 :: rest =>
              match ellipsis with
              | Some _ => None
              | None =>
                  match rest with
                  | [] => expand ip (Some (length ip))
                  | _ => ipv6_fields fuel ip (Some (length ip)) rest
                  end
              end
          | [58] => None
          | 58 :: rest => ipv6_fields fuel ip ellipsis rest
          | _ => None
          end
      end
  end.

Definition parse_ipv6 (l : list Z) : option (list Z) :=
  if has_byte 37 l then None
  else match l with
  | [58; 58] => Some (replicate 16 0)
  | 58 :: 58 :: rest => ipv6_fields 8 [] (Some 0%nat) rest
  | _ => ipv6_fields 8 [] None l
  end.

(** [netip.ParseAddr], addresses with a zone refused: the first separator
    tells the family. 4 or 16 bytes. *)
Definition parse_addr (l : list Z) : option (list Z) :=
  match List.find (fun b => (b =? dot) || (b =? colon) || (b =? 37)) l with
  | Some 46 => parse_ipv4 l
  | Some 58 => parse_ipv6 l
  | _ => None
  end.

Definition v4_prefix : list Z := (replicate 10 0 ++ [255; 255])%list.

(** [IP.To4]: the IPv4 form of an address that has one. *)
Definition to4 (ip : list Z) : option (list Z) :=
  if (length ip =? 4)%nat then Some ip
  else if bool_decide (take 12 ip = v4_prefix) then Some (drop 12 ip) else None.

Definition canonical (ip : list Z) : list Z := default ip (to4 ip).

Definition ParseIP (s : string) : option (list Z) := parse_addr (bytes_of s).

(** ** Ranges *)

Record IPNet := mkIPNet { net_IP : list Z; net_Mask : list Z }.

(** [CIDRMask]: [n] ones in [k] bytes. *)
Definition mask_byte (n : Z) : Z := 256 - 2 ^ (8 - Z.max 0 (Z.min 8 n)).
Definition CIDRMask (n : Z) (k : nat) : list Z := (fun i => mask_byte (n - 8 * Z.of_nat i)) <$> seq 0 k.

Definition mask_with (ip m : list Z) : list Z := zip_with Z.land ip m.

(** [dtoi] and the tests on its result. *)
Definition prefix_len (max : Z) (l : list Z) : option Z :=
  match l with
  | [] => None
  | _ =>
      if forallb is_digit l
      then let v := fold_left (fun a d => 10 * a + (d - 48)) l 0 in if v <=? max then Some v else None
      else None
  end.

Definition ParseCIDR (s : string) : option IPNet :=
  match cut 47 (bytes_of s) with
  | (_, None) => None
  | (addr, Some mask) =>
      ip ← parse_addr addr;
      n ← prefix_len (8 * Z.of_nat (length ip)) mask;
      let m := CIDRMask n (length ip) in
      Some (mkIPNet (mask_with ip m) m)
  end.

Definition Contains (n : IPNet) (ip : list Z) : bool :=
  let nn := canonical (net_IP n) in
  let m := if (length nn =? 4)%nat && (length (net_Mask n) =? 16)%nat
           then drop 12 (net_Mask n) else net_Mask n in
  let ip := canonical ip in
  (length ip =? length nn)%nat && bool_decide (mask_with nn m = mask_with ip m).

(** ** Examples *)

Example split_host_port :
  SplitHost "192.0.2.7:4711" = Some "192.0.2.7" /\ SplitHost "[2001:db8::1]:80" = Some "2001:db8::1" /\
  SplitHost "2001:db8::1" = None /\ SplitHost "[::1]" = None /\ SplitHost "host" = None.
Proof. repeat split; vm_compute; reflexivity. Qed.

Example parse_addresses :
  ParseIP "10.0.0.255" = Some [10; 0; 0; 255] /\ ParseIP "10.0.0.256" = None /\ ParseIP "10.0.0.01" = None /\
  ParseIP "::1" = Some (replicate 15 0 ++ [1])%list /\ ParseIP "1::2::3" = None /\
  ParseIP "::ffff:10.0.0.1" = Some (v4_prefix ++ [10; 0; 0; 1])%list /\ ParseIP "fe80::1%eth0" = None.
Proof. repeat split; vm_compute; reflexivity. Qed.

Definition in_cidr (ip cidr : string) : option bool :=
  n ← ParseCIDR cidr; a ← ParseIP ip; Some (Contains n a).

Example ranges :
  in_cidr "10.1.2.3" "10.0.0.0/8" = Some true /\ in_cidr "11.0.0.0" "10.0.0.0/8" = Some false /\
  in_cidr "::ffff:10.1.2.3" "10.0.0.0/8" = Some true /\ in_cidr "192.168.1.129" "192.168.1.128/25" = Some true /\
  in_cidr "fd12::1" "fc00::/7" = Some true /\ ParseCIDR "10.0.0.0/33" = None /\ ParseCIDR "10.0.0.0" = None.
Proof. repeat split; vm_compute; reflexivity. Qed.

End Net.
Export Net.
