(* ===== verification/LogStream.v ===== *)
(** * The log stream of the administration panel

    Model of the data of Server/admin/logstream.go: the single-use tickets that
    authenticate a stream, the bounded buffer of log entries with its
    subscribers, and the handler that turns log records into entries. A mutex
    makes each call atomic; clock values and random bytes are arguments. *)

From S2P Require Import Prelude GoText Wire Json GoTime Crypto.
#[local] Open Scope string_scope.
#[local] Open Scope Z_scope.

Module LogStream.

(** ** Tickets *)

Record ticketEntry := mkTicket { te_createdAt : Z; te_tokenHash : string }.
Definition ticketStore := gmap string ticketEntry.

Definition ticketTTL : Z := 30 * Second.

(** [time.Since(createdAt) > ticketTTL] *)
Definition ticket_stale (now : Z) (e : ticketEntry) : bool := ticketTTL <? now - te_createdAt e.

(** The bytes are drawn before the lock is taken; [None] is their failure. *)
Definition issue (ts : ticketStore) (random : option (list Z)) (tokenHash : string) (now : Z)
  : option string * ticketStore :=
  match random with
  | None => (None, ts)
  | Some b =>
      let ticket := hex_encode b in
      let kept := filter (fun '(_, e) => ticket_stale now e = false) ts in
      (Some ticket, <[ticket := mkTicket now tokenHash]> kept)
  end.

Definition redeem (ts : ticketStore) (ticket : string) (now : Z) : option ticketEntry * ticketStore :=
  match ts !! ticket with
  | None => (None, ts)
  | Some entry => (if ticket_stale now entry then None else Some entry, delete ticket ts)
  end.

(** ** The buffer *)

Record LogEntry := mkLog {
  le_Timestamp : string; le_Level : string; le_Message : string; le_Source : string; le_Attrs : string }.

(** Subscribers are numbered; a channel holds at most 64 entries. *)
Record RingBuffer := mkRing {
  rb_entries : list LogEntry; rb_capacity : Z; rb_subscribers : gmap Z (list LogEntry); rb_next : Z }.

Definition subscriber_cap : nat := 64.

Definition NewRingBuffer (capacity : Z) : RingBuffer := mkRing [] capacity ∅ 0.

(** A send that does not block: a full channel drops the entry. *)
Definition offer (e : LogEntry) (ch : list LogEntry) : list LogEntry :=
  if (length ch <? subscriber_cap)%nat then (ch ++ [e])%list else ch.

(** [None]: the slice expression [entries[1:]] of an empty slice panics. *)
Definition Write (rb : RingBuffer) (e : LogEntry) : option RingBuffer :=
  entries ← (if rb_capacity rb <=? Z.of_nat (length (rb_entries rb))
             then match rb_entries rb with [] => None | _ :: l => Some l end
             else Some (rb_entries rb));
  Some (mkRing (entries ++ [e])%list (rb_capacity rb) (offer e <$> rb_subscribers rb) (rb_next rb)).

Definition Snapshot (rb : RingBuffer) : list LogEntry := rb_entries rb.

Definition Subscribe (rb : RingBuffer) : Z * RingBuffer :=
  (rb_next rb, mkRing (rb_entries rb) (rb_capacity rb) (<[rb_next rb := []]> (rb_subscribers rb)) (rb_next rb + 1)).
Definition Unsubscribe (rb : RingBuffer) (id : Z) : RingBuffer :=
  mkRing (rb_entries rb) (rb_capacity rb) (delete id (rb_subscribers rb)) (rb_next rb).

(** The next entry of a subscription. *)
Definition receive (rb : RingBuffer) (id : Z) : option LogEntry * RingBuffer :=
  match rb_subscribers rb !! id with
  | Some (e :: ch) => (Some e, mkRing (rb_entries rb) (rb_capacity rb) (<[id := ch]> (rb_subscribers rb)) (rb_next rb))
  | _ => (None, rb)
  end.

(** ** From log records to entries *)

(** An attribute's value as it marshals; [None] when it does not. *)
Definition Attr : Type := string * option json.

(** A record of log/slog: time and level as text, the level's number, the
    message, its attributes, and the source file when it is known. *)
Record LogRecord := mkRecord {
  lr_Time : string; lr_Level : Z; lr_LevelText : string; lr_Message : string;
  lr_Attrs : list Attr; lr_File : option string }.

Record ringHandler := mkHandler { rh_level : Z; rh_attrs : list Attr; rh_groups : list string }.

Definition rh_Enabled (rh : ringHandler) (level : Z) : bool := rh_level rh <=? level.

(** [strings.Contains] *)
Fixpoint Contains_text (s p : string) : bool :=
  HasPrefix s p || match s with EmptyString => false | String _ s' => Contains_text s' p end.

Definition source_table : list (string * string) :=
  [("/ws/", "websocket"); ("/api/", "http"); ("/admin/", "admin"); ("/auth/", "auth"); ("/db/", "database");
   ("/storage/", "storage"); ("/updater/", "updater"); ("/config/", "config")].

Definition categorizeSource (file : option string) : string :=
  match file with
  | None => "server"
  | Some file => default "server" (snd <$> List.find (fun x => Contains_text file x.1) source_table)
  end.

(** [strings.Join(groups, ".")], with a dot after it when there are groups. *)
Definition group_prefix (groups : list string) : string :=
  match groups with [] => "" | _ => String.concat "." groups +:+ "." end.

(** [json.Marshal] of a map: sorted keys; an unmarshalable value fails it all. *)
Definition marshal_attrs (m : gmap string (option json)) : string :=
  if bool_decide (m = ∅) then "" else
  match mapM (fun x => (fun v => (fst x, v)) <$> snd x) (sort_by (fun a b => String.leb (fst a) (fst b)) (map_to_list m)) with
  | Some l => render (JObj l)
  | None => ""
  end.

(** The pre-set attributes keep their keys, those of the record are put under
    the groups; a later one replaces an earlier one of the same key. *)
Definition collect_attrs (rh : ringHandler) (r : LogRecord) : gmap string (option json) :=
  foldl (fun m a => <[group_prefix (rh_groups rh) +:+ fst a := snd a]> m)
    (foldl (fun m a => <[fst a := snd a]> m) ∅ (rh_attrs rh)) (lr_Attrs r).

Definition rh_Handle (rh : ringHandler) (buf : RingBuffer) (r : LogRecord) : option RingBuffer :=
  Write buf (mkLog (lr_Time r) (lr_LevelText r) (lr_Message r) (categorizeSource (lr_File r))
    (marshal_attrs (collect_attrs rh r))).

Definition withAttrs (rh : ringHandler) (attrs : list Attr) : ringHandler :=
  mkHandler (rh_level rh) (rh_attrs rh ++ attrs)%list (rh_groups rh).
Definition withGroup (rh : ringHandler) (name : string) : ringHandler :=
  mkHandler (rh_level rh) (rh_attrs rh) (rh_groups rh ++ [name])%list.

(** The two handlers behind one: [stdout] is told when it is enabled. *)
Definition multi_Enabled (stdout : Z -> bool) (rh : ringHandler) (level : Z) : bool :=
  stdout level || rh_Enabled rh level.
Definition multi_Handle (stdout : Z -> bool) (rh : ringHandler) (buf : RingBuffer) (r : LogRecord)
  : list LogRecord * option RingBuffer :=
  ((if stdout (lr_Level r) then [r] else []),
   (if rh_Enabled rh (lr_Level r) then rh_Handle rh buf r else Some buf)).

(** The handler as a value: what is derived from it is derived from both. *)
Section multi.
Context {S : Type} (std_WithAttrs : S -> list Attr -> S) (std_WithGroup : S -> string -> S).

Record multiHandler := mkMulti { mh_stdout : S; mh_ring : ringHandler }.

Definition NewMultiHandler (stdout : S) (minLevel : Z) : multiHandler := mkMulti stdout (mkHandler minLevel [] []).
Definition WithAttrs (h : multiHandler) (attrs : list Attr) : multiHandler :=
  mkMulti (std_WithAttrs (mh_stdout h) attrs) (withAttrs (mh_ring h) attrs).
Definition WithGroup (h : multiHandler) (name : string) : multiHandler :=
  mkMulti (std_WithGroup (mh_stdout h) name) (withGroup (mh_ring h) name).
End multi.


(** ** Uses of the buffer *)

#[local] Open Scope list_scope.

Inductive log_op := LogWrite (e : LogEntry) | LogSubscribe | LogUnsubscribe (id : Z) | LogReceive (id : Z).

Definition log_step (rb : RingBuffer) (o : log_op) : option RingBuffer :=
  match o with
  | LogWrite e => Write rb e
  | LogSubscribe => Some (Subscribe rb).2
  | LogUnsubscribe id => Some (Unsubscribe rb id)
  | LogReceive id => Some (receive rb id).2
  end.
Fixpoint log_run (rb : RingBuffer) (ops : list log_op) : option RingBuffer :=
  match ops with [] => Some rb | o :: ops => rb ← log_step rb o; log_run rb ops end.

Definition written (ops : list log_op) : list LogEntry :=
  omap (fun o => match o with LogWrite e => Some e | _ => None end) ops.

(** The last [n] elements. *)
Definition last_n {A} (n : nat) (l : list A) : list A := drop (length l - n) l.

(** The buffer after some entries were written. *)
Record log_ok (cap : nat) (es : list LogEntry) (rb : RingBuffer) : Prop := {
  lo_entries : rb_entries rb = last_n cap es;
  lo_cap : rb_capacity rb = Z.of_nat cap;
  lo_queues : forall id q, rb_subscribers rb !! id = Some q -> (length q <= subscriber_cap)%nat }.

Lemma last_n_snoc {A} (n : nat) (l : list A) x : (1 <= n)%nat ->
  (if (n <=? length (last_n n l))%nat then tail (last_n n l) else last_n n l) ++ [x] = last_n n (l ++ [x]).
Proof.
  intros Hn. unfold last_n. rewrite length_drop, length_app. simpl.
  destruct (Nat.leb_spec n (length l - (length l - n))).
  - replace (length l + 1 - n)%nat with (S (length l - n)) by lia.
    destruct (drop (length l - n) l) as [|y k] eqn:E.
    { apply (f_equal length) in E. rewrite length_drop in E. simpl in E. lia. }
    simpl. rewrite drop_app_le by lia. f_equal. by rewrite <- Nat.add_1_r, <- drop_drop, E.
  - replace (length l - n)%nat with 0%nat by lia. replace (length l + 1 - n)%nat with 0%nat by lia. done.
Qed.

Lemma log_step_ok cap es rb o : (1 <= cap)%nat -> log_ok cap es rb ->
  exists rb', log_step rb o = Some rb' /\ log_ok cap (es ++ written [o]) rb'.
Proof.
  intros Hc [H1 H2 H3]. destruct o as [e| |id|id]; simpl; rewrite ?app_nil_r.
  - unfold Write. rewrite H2, H1.
    assert (Hb : (Z.of_nat cap <=? Z.of_nat (length (last_n cap es))) = (cap <=? length (last_n cap es))%nat).
    { apply eq_true_iff_eq. rewrite Z.leb_le, Nat.leb_le. lia. }
    pose proof (last_n_snoc cap es e Hc) as Hl. rewrite Hb.
    assert (Hq : forall id q, (offer e <$> rb_subscribers rb) !! id = Some q -> (length q <= subscriber_cap)%nat).
    { intros id q Hq. apply lookup_fmap_Some in Hq as (q' & <- & Hq'). unfold offer.
      destruct (length q' <? subscriber_cap)%nat eqn:E; [|by eapply H3]. rewrite length_app. simpl.
      apply Nat.ltb_lt in E. lia. }
    destruct (cap <=? length (last_n cap es))%nat eqn:E; [|eexists; split; [done|by split]].
    destruct (last_n cap es) as [|x l]; [apply Nat.leb_le in E; simpl in E; lia|].
    eexists. split; [done|]. by split.
  - eexists. split; [done|]. split; [done..|]. intros id q Hq. simpl in Hq. apply lookup_insert_Some in Hq as [[_ <-]|[_ Hq]]; [simpl; lia|by eapply H3].
  - eexists. split; [done|]. split; [done..|]. intros i q Hq. simpl in Hq. apply lookup_delete_Some in Hq as [_ Hq]. by eapply H3.
  - eexists. split; [done|]. unfold receive. destruct (rb_subscribers rb !! id) as [[|x q]|] eqn:E; [by split|..|by split].
    split; [done..|]. intros i q' Hq. simpl in Hq. apply lookup_insert_Some in Hq as [[_ <-]|[_ Hq]]; [|by eapply H3].
    apply H3 in E. simpl in E. lia.
Qed.
End LogStream.
Export LogStream.
#[local] Open Scope list_scope.

(** The log buffer of a capacity of at least one never panics, whatever is
    written, subscribed and received in whatever order; its snapshot is the last
    entries written, as many as fit, in order; and no subscriber's queue holds
    more than 64. *)
Theorem log_buffer_last cap ops (Hcap : (1 <= cap)%nat) :
  exists rb, log_run (NewRingBuffer (Z.of_nat cap)) ops = Some rb /\
    Snapshot rb = last_n cap (written ops) /\
    forall id q, rb_subscribers rb !! id = Some q -> (length q <= subscriber_cap)%nat.
Proof.
  assert (Hrun : forall es rb, log_ok cap es rb ->
    exists rb', log_run rb ops = Some rb' /\ log_ok cap (es ++ written ops) rb').
  { induction ops as [|o ops IH]; intros es rb H; cbn [log_run];
      [exists rb; split; [done|]; change (written []) with (@nil LogEntry); by rewrite app_nil_r|].
    destruct (log_step_ok cap es rb o Hcap H) as (rb1 & -> & H1). cbn [mbind option_bind].
    destruct (IH _ _ H1) as (rb2 & E2 & H2). exists rb2. split; [done|].
    replace (written (o :: ops)) with (written [o] ++ written ops) by (by destruct o). by rewrite (assoc_L (++)). }
  destruct (Hrun [] (NewRingBuffer (Z.of_nat cap))) as (rb & E & [H1 H2 H3]); [by split|]. by exists rb.
Qed.

Lemma log_buffer_last_witness :
  let e n := mkLog "" "" n "" "" in
  exists rb, log_run (NewRingBuffer 2) [LogWrite (e "a"); LogSubscribe; LogWrite (e "b"); LogWrite (e "c")] = Some rb /\
    Snapshot rb = [e "b"; e "c"].
Proof.
  intros e. destruct (log_buffer_last 2 [LogWrite (e "a"); LogSubscribe; LogWrite (e "b"); LogWrite (e "c")]) as (rb & E & H & _);
    [lia|]. exists rb. by split.
Defined.
