(* ===== verification/Updater.v ===== *)
(** * Updates: versions, URLs and checksums

    Model of the functions of Server/updater/updater.go that need neither the
    network nor the disk; the operations that do are in Updates.v. semver (of
    golang.org/x/mod) and the host of a parsed URL are parameters. *)

From S2P Require Import Prelude GoText Wire Json GoTime Crypto.
#[local] Open Scope string_scope.
#[local] Open Scope Z_scope.

Module Updater.

(** ** Text *)

(** [strings.EqualFold(a, b)] where one of them is ASCII. *)
Definition EqualFold (a b : string) : bool := bool_decide (fold_key (bytes_of a) = fold_key (bytes_of b)).

(** [strings.ToLower], as far as the ASCII letters of the result go: besides the
    ASCII letters, U+0130 goes to i and U+212A to k. *)
Fixpoint to_lower (l : list Z) : list Z :=
  match l with
  | 0xC4 :: 0xB0 :: l => 105 :: to_lower l
  | 0xE2 :: 0x84 :: 0xAA :: l => 107 :: to_lower l
  | b :: l => (if in_range b 65 90 then b + 32 else b) :: to_lower l
  | [] => []
  end.
Definition ToLower (s : string) : string := string_of (to_lower (bytes_of s)).

(** [strings.Fields] *)
Fixpoint fields_go (ws : list (Z * nat)) (l cur : list Z) : list (list Z) :=
  match ws with
  | [] => match cur with [] => [] | _ => [cur] end
  | (r, w) :: ws =>
      if IsSpace r then
        match cur with [] => fields_go ws (drop w l) [] | _ => cur :: fields_go ws (drop w l) [] end
      else fields_go ws (drop w l) (cur ++ take w l)%list
  end.
Definition Fields (s : string) : list string :=
  string_of <$> fields_go (runes_w (bytes_of s)) (bytes_of s) [].

(** [strings.Split(s, "\n")] *)
Fixpoint lines_go (l cur : list Z) : list (list Z) :=
  match l with
  | [] => [cur]
  | b :: l => if b =? 10 then cur :: lines_go l [] else lines_go l (cur ++ [b])%list
  end.
Definition Lines (s : string) : list string := string_of <$> lines_go (bytes_of s) [].

(** [strings.HasSuffix] *)
Definition HasSuffix (s p : string) : bool :=
  (String.length p <=? String.length s)%nat &&
  String.eqb (string_of (drop (String.length s - String.length p) (bytes_of s))) p.

(** ** Data *)

Record Asset := mkAsset { as_Name : string; as_DownloadURL : string }.

Record UpdateInfo := mkInfo {
  ui_Current : string; ui_Latest : string; ui_UpdateAvailable : bool; ui_ReleaseURL : string;
  ui_DownloadURL : string; ui_ChecksumURL : string; ui_ReleaseNotes : string; ui_Assets : list Asset }.

Record ClientAssets := mkClientAssets { ca_InstallerURL : string; ca_SignatureURL : string }.

Record releaseResponse := mkRelease {
  rr_TagName : string; rr_Body : string; rr_HTMLURL : string; rr_Assets : list Asset }.

(** Why a check or a download failed. *)
Inductive update_error :=
| UeRequest                      (* the request could not be made or got no reply *)
| UeStatus (status : Z)
| UeDecode
| UeDownloadURL (url : string)
| UeChecksumURL (url : string)
| UeRead
| UeChecksumFetch (e : update_error)
| UeChecksumMissing (filename : string)
| UeDownload (e : update_error)
| UeCreate
| UeWrite
| UeTooLarge
| UeOpen
| UeMismatch (expected actual : string).

Record Updater := mkUpdater {
  up_currentVersion : string; up_githubToken : string; up_repoOwner : string; up_repoName : string;
  up_baseURL : string;
  up_cache : option UpdateInfo; up_cacheExpiry : Z;
  up_cachedErr : option update_error; up_errCacheExpiry : Z }.

Definition NewUpdater (currentVersion githubToken repoOwner repoName : string) : Updater :=
  mkUpdater currentVersion githubToken repoOwner repoName "" None 0 None 0.
Definition SetBaseURL (u : Updater) (url : string) : Updater :=
  mkUpdater (up_currentVersion u) (up_githubToken u) (up_repoOwner u) (up_repoName u) url
    (up_cache u) (up_cacheExpiry u) (up_cachedErr u) (up_errCacheExpiry u).
(** The outcome of a check, kept until [expiry]; a success forgets the error. *)
Definition keep_info (u : Updater) (info : UpdateInfo) (expiry : Z) : Updater :=
  mkUpdater (up_currentVersion u) (up_githubToken u) (up_repoOwner u) (up_repoName u) (up_baseURL u)
    (Some info) expiry None (up_errCacheExpiry u).
Definition keep_error (u : Updater) (e : update_error) (expiry : Z) : Updater :=
  mkUpdater (up_currentVersion u) (up_githubToken u) (up_repoOwner u) (up_repoName u) (up_baseURL u)
    (up_cache u) (up_cacheExpiry u) (Some e) expiry.

Definition defaultBaseURL : string := "https://api.github.com".
Definition cacheTTL : Z := 1 * Hour.
Definition errorCacheTTL : Z := 5 * Minute.
Definition binaryAsset : string := "chatserver.exe".
Definition checksumAsset : string := "checksums.sha256".

Definition ensureVPrefix (v : string) : string := if HasPrefix v "v" then v else "v" +:+ v.

Definition apiBaseURL (u : Updater) : string :=
  if String.eqb (up_baseURL u) "" then defaultBaseURL else up_baseURL u.

Definition release_url (u : Updater) : string :=
  apiBaseURL u +:+ "/repos/" +:+ up_repoOwner u +:+ "/" +:+ up_repoName u +:+ "/releases/latest".

(** ** The release *)

Definition asset_fields : list (field Asset) :=
  [ ("name", fun j a => (fun x => mkAsset x (as_DownloadURL a)) <$> dec_string j (as_Name a));
    ("browser_download_url", fun j a => (fun x => mkAsset (as_Name a) x) <$> dec_string j (as_DownloadURL a)) ].

(** An element is decoded into the one the slice already has at its index. *)
Fixpoint dec_asset_list (js : list json) (old : list Asset) : option (list Asset) :=
  match js with
  | [] => Some []
  | j :: js =>
      a ← unmarshal asset_fields (match old with a :: _ => a | [] => mkAsset "" "" end) (Some j);
      l ← dec_asset_list js (tail old);
      Some (a :: l)
  end.
Definition dec_assets (j : json) (old : list Asset) : option (list Asset) :=
  match j with JNull => Some [] | JArr js => dec_asset_list js old | _ => None end.

Definition release_fields : list (field releaseResponse) :=
  [ ("tag_name", fun j r => (fun x => mkRelease x (rr_Body r) (rr_HTMLURL r) (rr_Assets r)) <$> dec_string j (rr_TagName r));
    ("body", fun j r => (fun x => mkRelease (rr_TagName r) x (rr_HTMLURL r) (rr_Assets r)) <$> dec_string j (rr_Body r));
    ("html_url", fun j r => (fun x => mkRelease (rr_TagName r) (rr_Body r) x (rr_Assets r)) <$> dec_string j (rr_HTMLURL r));
    ("assets", fun j r => (fun x => mkRelease (rr_TagName r) (rr_Body r) (rr_HTMLURL r) x) <$> dec_assets j (rr_Assets r)) ].

(** The URLs of the binary and of the checksums; the last asset of a name wins. *)
Definition pick_assets (assets : list Asset) : string * string :=
  foldl (fun acc a =>
    if EqualFold (as_Name a) binaryAsset then (as_DownloadURL a, acc.2)
    else if EqualFold (as_Name a) checksumAsset then (acc.1, as_DownloadURL a)
    else acc) ("", "") assets.

Section semver.
Context (semver_compare : string -> string -> Z).

Definition release_info (u : Updater) (r : releaseResponse) : UpdateInfo :=
  let currentV := ensureVPrefix (up_currentVersion u) in
  let latestV := ensureVPrefix (rr_TagName r) in
  let urls := pick_assets (rr_Assets r) in
  mkInfo currentV latestV (semver_compare currentV latestV <? 0) (rr_HTMLURL r) urls.1 urls.2
    (rr_Body r) (rr_Assets r).
End semver.

(** ** URLs and the token *)

Definition download_prefix (u : Updater) : string :=
  "https://github.com/" +:+ up_repoOwner u +:+ "/" +:+ up_repoName u +:+ "/releases/download/".

(** Whether the URL is accepted. *)
Definition ValidateDownloadURL (u : Updater) (url : string) : bool := HasPrefix url (download_prefix u).

Section url.
(** [neturl.Parse(..)] and [Hostname()]; [None] when the URL does not parse. *)
Context (url_hostname : string -> option string).

Definition isGitHubHost (rawURL : string) : bool :=
  match url_hostname rawURL with
  | None => false
  | Some h =>
      let host := ToLower h in
      String.eqb host "api.github.com" || String.eqb host "github.com" ||
      HasSuffix host ".github.com" || HasSuffix host ".githubusercontent.com"
  end.

Definition shouldSendToken (u : Updater) (rawURL : string) : bool :=
  isGitHubHost rawURL || (negb (String.eqb (up_baseURL u) "") && HasPrefix rawURL (up_baseURL u)).
End url.

(** ** Checksums *)

(** The hash on a line that names the file. *)
Definition checksum_line (filename line : string) : option string :=
  match Fields (TrimSpace line) with
  | (hash :: _ :: _) as parts => if bool_decide (last parts = Some filename) then Some hash else None
  | _ => None
  end.

Definition ParseChecksumFile (data filename : string) : option string :=
  head (omap (checksum_line filename) (Lines data)).

(** The content has the expected hash. *)
Definition actual_hash (content : string) : string := hex_encode (sha256 (bytes_of content)).
Definition checksum_ok (content expectedHash : string) : bool := EqualFold (actual_hash content) expectedHash.

(** ** The desktop client's assets *)

(** In the order of the cases: a signature first. *)
Definition FindClientAssets (u : Updater) : ClientAssets :=
  match up_cache u with
  | None => mkClientAssets "" ""
  | Some info =>
      foldl (fun ca a =>
        if HasSuffix (as_Name a) "_x64-setup.nsis.zip.sig" then mkClientAssets (ca_InstallerURL ca) (as_DownloadURL a)
        else if HasSuffix (as_Name a) "_x64-setup.nsis.zip" then mkClientAssets (as_DownloadURL a) (ca_SignatureURL ca)
        else ca) (mkClientAssets "" "") (ui_Assets info)
  end.

End Updater.
Export Updater.
