(* ===== verification/Migrate.v ===== *)
(** * Migrations

    Model of Server/db/migrate.go. The schema and the data are of a type of
    their own, because SQLite interprets the scripts: [run_sql] is what a script
    makes of the data, [None] when it fails, and [has_users] whether there is a
    table "users". A script leaves the table schema_versions alone and has no
    transaction control, as those of the repository. Any statement or file
    operation may fail, as a list of faults says; a process that is killed
    leaves what the same run leaves when the next statement fails, for SQLite
    rolls an open transaction back. *)

From S2P Require Import Prelude GoText Wire Json GoTime Crypto Updater.
#[local] Open Scope string_scope.
#[local] Open Scope Z_scope.

Module Migrate.

(** The errors of [MigrateFS], by their texts; [E_seeding] wraps [E_recording]. *)
Inductive merr :=
| E_creating | E_reading_dir | E_seeding (name : string) | E_begin (name : string)
| E_reading (name : string) | E_executing (name : string) | E_recording (name : string)
| E_commit (name : string).

(** A directory entry of the embedded files. *)
Record entry := mkEntry { en_name : string; en_dir : bool; en_content : string }.

Section migrate.
Context {D : Type} (has_users : D -> bool) (run_sql : string -> D -> option D).

(** [g_versions]: the rows of schema_versions in the order of their insertion,
    [None] when there is no such table. *)
Record MigDB := mkMigDB { g_data : D; g_versions : option (list string); g_faults : list bool }.

Definition g_set (d : D) (v : option (list string)) (s : MigDB) : MigDB := mkMigDB d v (g_faults s).

(** One statement or file operation: whether it succeeds. *)
Definition attempt : ST MigDB bool := fun s =>
  match g_faults s with
  | [] => (true, s)
  | b :: bs => (negb b, mkMigDB (g_data s) (g_versions s) bs)
  end.

Definition ensureSchemaVersions : ST MigDB (result merr unit) :=
  ok ← attempt;
  if ok : bool
  then _ ← modify (fun s => g_set (g_data s) (Some (default [] (g_versions s))) s); mret (inr tt)
  else mret (inl E_creating).

(** The three queries take any error for the absence of a row. *)
Definition isExistingDatabase : ST MigDB (result merr bool) :=
  ok ← attempt; x ← gets (fun s => has_users (g_data s)); mret (inr (ok && x)).
Definition schemaVersionsExists : ST MigDB (result merr bool) :=
  ok ← attempt; x ← gets (fun s => bool_decide (is_Some (g_versions s))); mret (inr (ok && x)).
Definition isApplied (filename : string) : ST MigDB (result merr bool) :=
  ok ← attempt; x ← gets (fun s => bool_decide (filename ∈ default [] (g_versions s))); mret (inr (ok && x)).

(** The insertion, which the primary key refuses for a recorded name. *)
Definition insert_version (filename : string) : ST MigDB bool :=
  ok ← attempt;
  v ← gets g_versions;
  match v with
  | Some vs =>
      if ok && negb (bool_decide (filename ∈ vs))
      then _ ← modify (fun s => g_set (g_data s) (Some (vs ++ [filename])%list) s); mret true
      else mret false
  | None => mret false
  end.

Definition recordApplied (filename : string) : ST MigDB (result merr unit) :=
  ok ← insert_version filename; mret (if ok : bool then inr tt else inl (E_recording filename)).

(** The entries in the order of their names; directories and other files are left out. *)
Definition is_script (e : entry) : bool := negb (en_dir e) && HasSuffix (en_name e) ".sql".
Definition sorted_entries (fs : list entry) : list entry :=
  filter (fun e => is_script e = true) (sort_by (fun a b => String.leb (en_name a) (en_name b)) fs).
Definition sqlFilenames (fs : list entry) : ST MigDB (result merr (list string)) :=
  ok ← attempt; mret (if ok : bool then inr (en_name <$> sorted_entries fs) else inl E_reading_dir).

(** [fs.ReadFile] *)
Definition ReadFile (fs : list entry) (name : string) : ST MigDB (option string) :=
  ok ← attempt;
  mret (if ok : bool then en_content <$> head (filter (fun e => en_name e = name) fs) else None).

Fixpoint seedExistingDatabase (filenames : list string) : ST MigDB (result merr unit) :=
  match filenames with
  | [] => mret (inr tt)
  | name :: filenames =>
      r ← recordApplied name;
      match r with
      | inl _ => mret (inl (E_seeding name))
      | inr _ => seedExistingDatabase filenames
      end
  end.

(** Going back to the data and versions of the start of the transaction. *)
Definition rollback (d : D) (v : option (list string)) (e : merr) : ST MigDB (result merr unit) :=
  _ ← modify (g_set d v); mret (inl e).

(** One pending migration: the script and its record in one transaction. *)
Definition apply_migration (fs : list entry) (name : string) : ST MigDB (result merr unit) :=
  begun ← attempt;
  if negb begun then mret (inl (E_begin name)) else
  d ← gets g_data;
  v ← gets g_versions;
  raw ← ReadFile fs name;
  match raw with
  | None => rollback d v (E_reading name)
  | Some raw =>
      ok ← attempt;
      match (if ok : bool then run_sql raw d else None) with
      | None => rollback d v (E_executing name)
      | Some d' =>
          _ ← modify (g_set d' v);
          recorded ← insert_version name;
          if negb recorded then rollback d v (E_recording name) else
          committed ← attempt;
          if negb committed then rollback d v (E_commit name) else mret (inr tt)
      end
  end.

Fixpoint apply_all (fs : list entry) (filenames : list string) : ST MigDB (result merr unit) :=
  match filenames with
  | [] => mret (inr tt)
  | name :: filenames =>
      applied ← isApplied name;
      match applied with
      | inl e => mret (inl e)
      | inr true => apply_all fs filenames
      | inr false =>
          r ← apply_migration fs name;
          match r with
          | inl e => mret (inl e)
          | inr _ => apply_all fs filenames
          end
      end
  end.

Definition MigrateFS (fs : list entry) : ST MigDB (result merr unit) :=
  svExists ← schemaVersionsExists;
  match svExists with
  | inl e => mret (inl e)
  | inr svExists =>
      r ← ensureSchemaVersions;
      match r with
      | inl e => mret (inl e)
      | inr _ =>
          filenames ← sqlFilenames fs;
          match filenames with
          | inl e => mret (inl e)
          | inr filenames =>
              if svExists : bool then apply_all fs filenames else
              existing ← isExistingDatabase;
              match existing with
              | inl e => mret (inl e)
              | inr true => seedExistingDatabase filenames
              | inr false => apply_all fs filenames
              end
          end
      end
  end.

(** Starts of the server, each with the files of its release and its own faults. *)
Definition migrate_start (s : MigDB) (run : list entry * list bool) : MigDB :=
  (MigrateFS run.1 (mkMigDB (g_data s) (g_versions s) run.2)).2.
Definition migrate_starts (runs : list (list entry * list bool)) (s : MigDB) : MigDB := foldl migrate_start s runs.

(** ** Each migration once, in order *)

(** The migrations of a release, in their order. *)
Definition scripts (fs : list entry) : list (string * string) :=
  (fun e => (en_name e, en_content e)) <$> sorted_entries fs.

(** The data after the scripts, one after the other. *)
Definition run_all (l : list (string * string)) (d : D) : option D :=
  foldl (fun (acc : option D) (sc : string * string) => d ← acc; run_sql sc.2 d) (Some d) l.

(** ** What the steps leave *)

Definition same (s s' : MigDB) : Prop := g_data s' = g_data s /\ g_versions s' = g_versions s.

Lemma attempt_same s : same s (attempt s).2.
Proof. unfold attempt. by destruct (g_faults s). Qed.

Lemma attempt_clean d v : attempt (mkMigDB d v []) = (true, mkMigDB d v []).
Proof. done. Qed.

Lemma same_trans s1 s2 s3 : same s1 s2 -> same s2 s3 -> same s1 s3.
Proof. unfold same. intros [-> ->] [-> ->]. done. Qed.

Lemma g_set_same s s' : same s (g_set (g_data s) (g_versions s) s').
Proof. done. Qed.

(** [insert_version] adds an absent name or leaves everything. *)
Lemma insert_version_spec name s :
  let r := insert_version name s in
  if r.1 then exists vs, g_versions s = Some vs /\ name ∉ vs /\
                g_data r.2 = g_data s /\ g_versions r.2 = Some (vs ++ [name])%list
  else same s r.2.
Proof.
  unfold insert_version, same, gets, modify, mbind, ST_bind. simpl.
  pose proof (attempt_same s) as Ha. destruct (attempt s) as [ok s1]. simpl in *.
  destruct Ha as [Hd Hv]. rewrite Hv.
  destruct (g_versions s) as [vs|] eqn:Hs; [|simpl; split; congruence].
  destruct ok; simpl; [|split; congruence].
  case_bool_decide; simpl; [split; congruence|]. eauto.
Qed.

Lemma ReadFile_spec fs name s :
  let r := ReadFile fs name s in
  same s r.2 /\
  (forall raw, r.1 = Some raw -> en_content <$> head (filter (fun e => en_name e = name) fs) = Some raw).
Proof.
  unfold ReadFile, mbind, ST_bind. simpl. pose proof (attempt_same s) as Ha.
  destruct (attempt s) as [[] s1]; simpl in *; by split.
Qed.

(** Without faults a migration that runs is applied. *)
Lemma apply_migration_clean fs name raw d vs d' :
  en_content <$> head (filter (fun e => en_name e = name) fs) = Some raw ->
  run_sql raw d = Some d' -> name ∉ vs ->
  apply_migration fs name (mkMigDB d (Some vs) []) = (inr tt, mkMigDB d' (Some (vs ++ [name])%list) []).
Proof.
  intros Hraw Hrun Hnin. unfold apply_migration, gets, modify, mbind, ST_bind. simpl.
  unfold ReadFile, mbind, ST_bind. simpl. rewrite Hraw. simpl. rewrite Hrun. simpl.
  unfold insert_version, gets, modify, mbind, ST_bind. simpl.
  by rewrite bool_decide_eq_false_2.
Qed.

#[local] Opaque attempt insert_version ReadFile.

(** A migration is applied and recorded, or nothing happens. *)
Lemma apply_migration_spec fs name s :
  let r := apply_migration fs name s in
  match r.1 with
  | inl _ => same s r.2
  | inr _ => exists raw vs,
      en_content <$> head (filter (fun e => en_name e = name) fs) = Some raw /\
      run_sql raw (g_data s) = Some (g_data r.2) /\
      g_versions s = Some vs /\ name ∉ vs /\ g_versions r.2 = Some (vs ++ [name])%list
  end.
Proof.
  unfold same, apply_migration, rollback, gets, modify, mbind, ST_bind.
  pose proof (attempt_same s) as H1. destruct (attempt s) as [ok1 s1]. simpl in *.
  destruct ok1; simpl; [|done]. destruct H1 as [Hd1 Hv1].
  rewrite Hd1, Hv1. pose proof (ReadFile_spec fs name s1) as [H2 Hraw].
  destruct (ReadFile fs name s1) as [raw s2]. simpl in *.
  destruct raw as [raw|]; simpl; [|done].
  specialize (Hraw _ eq_refl).
  pose proof (attempt_same s2) as H3. destruct (attempt s2) as [ok3 s3]. simpl in *.
  destruct ok3; simpl; [|done].
  destruct (run_sql raw (g_data s)) as [d'|] eqn:Hrun; simpl; [|done].
  pose proof (insert_version_spec name (g_set d' (g_versions s) s3)) as H4.
  destruct (insert_version name _) as [ok4 s4]. simpl in *.
  destruct ok4; simpl; [|done].
  destruct H4 as (vs & Hvs & Hnin & Hd4 & Hv4).
  pose proof (attempt_same s4) as [Hd5 Hv5]. destruct (attempt s4) as [ok5 s5]. simpl in *.
  destruct ok5; simpl; [|done].
  exists raw, vs. rewrite Hd5, Hv5, Hd4. done.
Qed.

#[local] Opaque apply_migration.

(** In a directory, where names are distinct, the file of a script is its content. *)
Lemma scripts_content fs name raw :
  NoDup (en_name <$> fs) -> (name, raw) ∈ scripts fs ->
  en_content <$> head (filter (fun e => en_name e = name) fs) = Some raw.
Proof.
  intros Hnd Hin. unfold scripts, sorted_entries in Hin.
  apply list_elem_of_fmap in Hin as (e & [= -> ->] & He).
  apply list_elem_of_filter in He as [_ He]. apply elem_of_sort_by in He.
  induction fs as [|e' fs IH]; [by apply elem_of_nil in He|].
  rewrite filter_cons. rewrite fmap_cons in Hnd. apply NoDup_cons in Hnd as [Hnin Hnd].
  apply elem_of_cons in He as [<-|He]; [by rewrite decide_True|].
  rewrite decide_False; [by apply IH|].
  intros Heq. apply Hnin. rewrite Heq. apply list_elem_of_fmap. by exists e.
Qed.

Lemma run_all_snoc l sc d d1 d2 :
  run_all l d = Some d1 -> run_sql sc.2 d1 = Some d2 -> run_all (l ++ [sc]) d = Some d2.
Proof. unfold run_all. intros H1 H2. rewrite foldl_app, H1. done. Qed.

Section once.
Context (all : list (string * string)) (d0 : D).
Context (Hfresh : has_users d0 = false) (Hnd : NoDup all.*1).

(** The first [n] of all migrations have run on [d0], each once, and these are
    the recorded ones. *)
Definition tracked (n : nat) (s : MigDB) : Prop :=
  (n <= length all)%nat /\ run_all (take n all) d0 = Some (g_data s) /\
  default [] (g_versions s) = (take n all).*1 /\ (n <> 0%nat -> is_Some (g_versions s)).

Lemma tracked_same n s s' : same s s' -> tracked n s -> tracked n s'.
Proof. unfold same, tracked. by intros [-> ->]. Qed.

(** The names of the first [n], and the next. *)
Lemma tracked_recorded n s k name raw :
  tracked n s -> all !! k = Some (name, raw) -> name ∈ default [] (g_versions s) <-> (k < n)%nat.
Proof.
  intros (_ & _ & Hv & _) Hk. rewrite Hv, fmap_take. split.
  - intros Hin. apply elem_of_take in Hin as (j & Hj & Hlt).
    assert (Hk' : all.*1 !! k = Some name) by by rewrite list_lookup_fmap, Hk.
    by rewrite (NoDup_lookup _ _ _ _ Hnd Hk' Hj).
  - intros Hlt. apply elem_of_take. exists k. split; [|done].
    by rewrite list_lookup_fmap, Hk.
Qed.

Lemma tracked_apply fs n s name raw :
  NoDup (en_name <$> fs) -> (name, raw) ∈ scripts fs -> tracked n s -> all !! n = Some (name, raw) ->
  let r := apply_migration fs name s in
  if r.1 is inr _ then tracked (S n) r.2 else tracked n r.2.
Proof.
  intros Hfs Hin Ht Hk. cbv zeta. pose proof (apply_migration_spec fs name s) as H.
  destruct (apply_migration fs name s) as [[e|u] s']; simpl in *; [by eapply tracked_same|].
  destruct H as (raw' & vs & Hraw & Hrun & Hvs & Hnin & Hvs').
  rewrite (scripts_content _ _ _ Hfs Hin) in Hraw. injection Hraw as <-.
  destruct Ht as (Hn & Hd & Hv & Hs). pose proof (lookup_lt_Some _ _ _ Hk) as Hlt.
  unfold tracked. rewrite (take_S_r _ _ _ Hk). split; [lia|].
  split; [by eapply run_all_snoc|]. rewrite Hvs'. split; [|done].
  rewrite fmap_app. rewrite Hvs in Hv. simpl in *. by rewrite Hv.
Qed.

(** From position [k] on, with the migrations before [k] recorded. *)
Lemma tracked_apply_all fs : NoDup (en_name <$> fs) -> scripts fs `prefix_of` all ->
  forall l pre n s, scripts fs = (pre ++ l)%list -> (length pre <= n)%nat -> tracked n s ->
  let r := apply_all fs l.*1 s in
  exists n', tracked n' r.2 /\ (n <= n' <= n `max` length (scripts fs))%nat /\
    (forall u, r.1 = inr u -> (length (scripts fs) <= n')%nat).
Proof.
  intros Hfs Hpre. induction l as [|[name raw] l IH]; intros pre n s Hl Hk Ht; cbv zeta.
  { exists n. split; [done|]. rewrite Hl, app_nil_r. simpl. split; [lia|done]. }
  assert (Hall : all !! length pre = Some (name, raw)).
  { eapply prefix_lookup_Some; [|exact Hpre]. rewrite Hl. by apply list_lookup_middle. }
  assert (Hl' : scripts fs = ((pre ++ [(name, raw)]) ++ l)%list) by by rewrite Hl, <- app_assoc.
  assert (Hin : (name, raw) ∈ scripts fs) by (rewrite Hl; set_solver).
  pose proof (tracked_recorded n s _ _ _ Ht Hall) as Hrec.
  rewrite fmap_cons. cbn [fst apply_all].
  unfold isApplied, gets, mbind, ST_bind. simpl.
  pose proof (attempt_same s) as Ha. destruct (attempt s) as [ok s1]. simpl in *.
  assert (Ht1 := tracked_same _ _ _ Ha Ht). destruct Ha as [_ Hv]. rewrite Hv.
  destruct (decide (length pre < n)%nat) as [Hlt|Hge].
  - rewrite (bool_decide_eq_true_2 _ (proj2 Hrec Hlt)), andb_true_r. destruct ok.
    + apply (IH _ n s1 Hl'); [rewrite length_app; simpl; lia|done].
    + pose proof (apply_migration_spec fs name s1) as H.
      destruct (apply_migration fs name s1) as [[e|u] s']; simpl in *.
      * exists n. split; [by eapply tracked_same|]. split; [lia|done].
      * destruct H as (? & vs & _ & _ & Hvs & Hnin & _). apply Hrec in Hlt.
        rewrite <- Hv, Hvs in Hlt. done.
  - rewrite (bool_decide_eq_false_2 (name ∈ _)), andb_false_r by (rewrite Hrec; lia).
    assert (n = length pre) as -> by lia.
    pose proof (tracked_apply fs _ s1 _ _ Hfs Hin Ht1 Hall) as H.
    destruct (apply_migration fs name s1) as [[e|u] s']; simpl in *.
    + exists (length pre). split; [done|]. split; [lia|done].
    + destruct (IH _ (S (length pre)) s' Hl') as (n' & Ht' & Hle & Hr);
        [rewrite length_app; simpl; lia|done|].
      exists n'. split; [done|]. split; [|done].
      apply (f_equal length) in Hl. rewrite length_app in Hl. simpl in Hl. lia.
Qed.

Lemma tracked_seed fs n s : scripts fs `prefix_of` all -> (n <> 0)%nat -> tracked n s ->
  let r := seedExistingDatabase (scripts fs).*1 s in
  tracked n r.2 /\ (forall u, r.1 = inr u -> (length (scripts fs) <= n)%nat).
Proof.
  intros Hpre Hn Ht. cbv zeta. destruct (scripts fs) as [|[name raw] l] eqn:Hs; [simpl; split; [done|lia]|].
  assert (Hall : all !! 0%nat = Some (name, raw)) by (eapply prefix_lookup_Some; [|exact Hpre]; done).
  pose proof (tracked_recorded n s _ _ _ Ht Hall) as Hrec.
  rewrite fmap_cons. cbn [fst seedExistingDatabase]. unfold recordApplied, mbind, ST_bind.
  pose proof (insert_version_spec name s) as H.
  destruct (insert_version name s) as [[] s']; simpl in *.
  - destruct H as (vs & Hvs & Hnin & _). rewrite Hvs in Hrec. simpl in Hrec.
    destruct Hnin. apply Hrec. lia.
  - split; [by eapply tracked_same|done].
Qed.

(** One start of the server. *)
Lemma tracked_MigrateFS fs n s :
  NoDup (en_name <$> fs) -> scripts fs `prefix_of` all -> tracked n s ->
  let r := MigrateFS fs s in
  exists n', tracked n' r.2 /\ (n <= n' <= n `max` length (scripts fs))%nat /\
    (forall u, r.1 = inr u -> (length (scripts fs) <= n')%nat).
Proof.
  intros Hfs Hpre Ht. cbv zeta.
  unfold MigrateFS, schemaVersionsExists, ensureSchemaVersions, sqlFilenames, isExistingDatabase,
    gets, modify, mbind, ST_bind. simpl.
  pose proof (attempt_same s) as H1. destruct (attempt s) as [ok1 s1]. simpl in *.
  apply (tracked_same n) in H1; [|done]. set (sv := ok1 && _). clearbody sv. clear Ht.
  pose proof (attempt_same s1) as H2. destruct (attempt s1) as [ok2 s2]. simpl in *.
  apply (tracked_same n) in H2; [|done]. destruct ok2; simpl; [|exists n; split; [done|]; split; [lia|done]].
  set (s3 := g_set _ _ s2).
  assert (H3 : tracked n s3) by (destruct H2 as (?&?&?&?); by repeat split).
  clearbody s3. clear H1 H2 s1 s2.
  pose proof (attempt_same s3) as H4. destruct (attempt s3) as [ok4 s4]. simpl in *.
  apply (tracked_same n) in H4; [|done]. destruct ok4; simpl; [|exists n; split; [done|]; split; [lia|done]].
  assert (E : en_name <$> sorted_entries fs = (scripts fs).*1) by by (unfold scripts; rewrite <- list_fmap_compose).
  rewrite E. destruct sv; [by apply (tracked_apply_all fs Hfs Hpre _ [] n); [|simpl; lia|]|].
  pose proof (attempt_same s4) as H5. destruct (attempt s4) as [ok5 s5]. simpl in *.
  apply (tracked_same n) in H5; [|done].
  destruct (ok5 && has_users (g_data s5)) eqn:Hu; [|by apply (tracked_apply_all fs Hfs Hpre _ [] n); [|simpl; lia|]].
  assert (Hn : n <> 0%nat).
  { intros ->. destruct H5 as (_ & [= Hd] & _). apply andb_true_iff in Hu as [_ Hu]. congruence. }
  destruct (tracked_seed fs n s5 Hpre Hn H5). exists n. split; [done|]. split; [lia|done].
Qed.

Lemma tracked_starts runs :
  Forall (fun run => NoDup (en_name <$> run.1) /\ scripts run.1 `prefix_of` all) runs ->
  forall n s, tracked n s -> exists n', tracked n' (migrate_starts runs s).
Proof.
  induction 1 as [|[fs faults] runs [Hfs Hpre] _ IH]; intros n s Ht; [by exists n|].
  destruct (tracked_MigrateFS fs n (mkMigDB (g_data s) (g_versions s) faults) Hfs Hpre) as (n' & Hn' & _);
    [by eapply tracked_same|]. by apply (IH n').
Qed.

(** ** Progress *)

Lemma run_all_take n : is_Some (run_all all d0) -> is_Some (run_all (take n all) d0).
Proof.
  rewrite <- (take_drop n all) at 1. unfold run_all. rewrite foldl_app.
  destruct (foldl _ _ (take n all)); [done|].
  intros [d H]. exfalso. revert H. generalize (drop n all). intros l. by induction l.
Qed.

Lemma run_all_next n name raw d :
  is_Some (run_all all d0) -> all !! n = Some (name, raw) -> run_all (take n all) d0 = Some d ->
  is_Some (run_sql raw d).
Proof.
  intros Hok Hn Hd. apply (run_all_take (S n)) in Hok. rewrite (take_S_r _ _ _ Hn) in Hok.
  unfold run_all in *. rewrite foldl_app, Hd in Hok. exact Hok.
Qed.

Lemma apply_all_clean fs : NoDup (en_name <$> fs) -> scripts fs `prefix_of` all -> is_Some (run_all all d0) ->
  forall l pre n s, scripts fs = (pre ++ l)%list -> (length pre <= n)%nat -> tracked n s ->
  g_faults s = [] -> is_Some (g_versions s) -> (apply_all fs l.*1 s).1 = inr tt.
Proof.
  intros Hfs Hpre Hok. induction l as [|[name raw] l IH]; intros pre n [d v []] Hl Hk Ht E [vs Hv];
    try done. simpl in Hv. subst v.
  assert (Hall : all !! length pre = Some (name, raw)).
  { eapply prefix_lookup_Some; [|exact Hpre]. rewrite Hl. by apply list_lookup_middle. }
  assert (Hl' : scripts fs = ((pre ++ [(name, raw)]) ++ l)%list) by by rewrite Hl, <- app_assoc.
  assert (Hin : (name, raw) ∈ scripts fs) by (rewrite Hl; set_solver).
  pose proof (tracked_recorded n _ _ _ _ Ht Hall) as Hrec. simpl in Hrec.
  rewrite fmap_cons. cbn [fst apply_all]. unfold isApplied, gets, mbind, ST_bind. rewrite attempt_clean. simpl.
  case_bool_decide as Hdec.
  - apply (IH (pre ++ [(name, raw)])%list n); [done|..|done|done|by eexists]. rewrite length_app. apply Hrec in Hdec. simpl. lia.
  - assert (n = length pre) as -> by (rewrite Hrec in Hdec; lia).
    destruct Ht as (Hn & Hd & Hrows & Hsome). simpl in *.
    destruct (run_all_next _ _ _ _ Hok Hall Hd) as [d' Hd'].
    rewrite (apply_migration_clean _ _ _ _ _ _ (scripts_content _ _ _ Hfs Hin) Hd' Hdec). simpl.
    apply (IH (pre ++ [(name, raw)])%list (S (length pre))); [done|rewrite length_app; simpl; lia| |done|by eexists].
    pose proof (lookup_lt_Some _ _ _ Hall). unfold tracked. rewrite (take_S_r _ _ _ Hall). simpl.
    split; [lia|]. split; [by eapply run_all_snoc|]. split; [|by eexists].
    by rewrite fmap_app, Hrows.
Qed.

Lemma MigrateFS_clean fs n d v : NoDup (en_name <$> fs) -> scripts fs `prefix_of` all ->
  is_Some (run_all all d0) -> tracked n (mkMigDB d v []) -> (MigrateFS fs (mkMigDB d v [])).1 = inr tt.
Proof.
  intros Hfs Hpre Hok Ht.
  unfold MigrateFS, schemaVersionsExists, ensureSchemaVersions, sqlFilenames, isExistingDatabase,
    gets, modify, mbind, ST_bind, g_set. repeat (rewrite attempt_clean; simpl).
  assert (E : en_name <$> sorted_entries fs = (scripts fs).*1) by by (unfold scripts; rewrite <- list_fmap_compose).
  rewrite E.
  assert (Happly : (apply_all fs (scripts fs).*1 (g_set d (Some (default [] v)) (mkMigDB d v []))).1 = inr tt).
  { apply (apply_all_clean fs Hfs Hpre Hok _ [] n); [done|simpl; lia| |done|by eexists].
    destruct Ht as (?&?&?&?). by repeat split. }
  case_bool_decide as Hv; [exact Happly|]. rewrite attempt_clean. simpl.
  destruct (has_users d) eqn:Hu; [|exact Happly]. exfalso.
  destruct Ht as (_ & Hd & _ & Hs). simpl in *.
  destruct n; [|by apply Hv, Hs]. injection Hd as ->. congruence.
Qed.

End once.

(** C17: every migration is applied exactly once, in order, however often the
    server is started, with whatever release that is a prefix of [all], and
    wherever the starts fail or are killed: on a database that began empty, the
    data is always the outcome of a prefix of the migrations, each run once, and
    that prefix is what schema_versions records. A start that returns no error
    has completed the migrations of its release and no other; without faults,
    when the migrations themselves run, a start returns no error. *)
Theorem migrations_once all d0 runs
    (Hfresh : has_users d0 = false) (Hnd : NoDup all.*1)
    (Hruns : Forall (fun run => NoDup (en_name <$> run.1) /\ scripts run.1 `prefix_of` all) runs) :
  let s := migrate_starts runs (mkMigDB d0 None []) in
  exists n, (n <= length all)%nat /\ run_all (take n all) d0 = Some (g_data s) /\
    default [] (g_versions s) = (take n all).*1 /\
    forall fs faults, NoDup (en_name <$> fs) -> scripts fs `prefix_of` all ->
      let r := MigrateFS fs (mkMigDB (g_data s) (g_versions s) faults) in
      (r.1 = inr tt -> run_all (take (n `max` length (scripts fs)) all) d0 = Some (g_data r.2)) /\
      (faults = [] -> is_Some (run_all all d0) -> r.1 = inr tt).
Proof.
  cbv zeta. assert (H0 : tracked all d0 0 (mkMigDB d0 None [])).
  { split; [lia|]. by repeat split. }
  destruct (tracked_starts all d0 Hfresh Hnd runs Hruns _ _ H0) as [n Ht].
  set (s := migrate_starts _ _) in *. exists n. pose proof Ht as (Hn & Hd & Hv & _).
  repeat (split; [done|]). intros fs faults Hfs Hpre. split.
  - intros Hr. destruct (tracked_MigrateFS all d0 Hfresh Hnd fs n (mkMigDB (g_data s) (g_versions s) faults) Hfs Hpre)
      as (n' & (_ & Hd' & _) & Hb & Hm); [by eapply tracked_same|].
    specialize (Hm _ Hr). by replace (n `max` length (scripts fs))%nat with n' by lia.
  - intros -> Hok. by eapply MigrateFS_clean.
Qed.

End migrate.

(** A database that keeps the list of the scripts that ran; the first makes the users. *)
Definition demo_users (d : list string) : bool := bool_decide ("users" ∈ d).
Definition demo_sql (script : string) (d : list string) : option (list string) := Some (d ++ [script])%list.
Definition demo_v1 : list entry := [mkEntry "README.md" false "text"; mkEntry "001.sql" false "users"].
Definition demo_v2 : list entry := [mkEntry "002.sql" false "more"; mkEntry "001.sql" false "users"].

Lemma migrations_once_witness :
  let s := migrate_starts demo_users demo_sql [(demo_v1, [false; false; false; false; false; false; false; true]); (demo_v2, [])]
             (mkMigDB [] None []) in
  exists n, (n <= 2)%nat /\ default [] (g_versions s) = (take n [("001.sql", "users"); ("002.sql", "more")]).*1.
Proof.
  cbv zeta.
  destruct (migrations_once demo_users demo_sql [("001.sql", "users"); ("002.sql", "more")] []
    [(demo_v1, [false; false; false; false; false; false; false; true]); (demo_v2, [])])
    as (n & Hn & _ & Hv & _).
  - vm_compute. reflexivity.
  - apply (bool_decide_unpack _). vm_compute. exact I.
  - apply (bool_decide_unpack _). vm_compute. exact I.
  - exists n. split; [exact Hn|exact Hv].
Defined.

(** The first of these starts fails at its commit, the second applies both. *)
Example demo_starts :
  migrate_starts demo_users demo_sql [(demo_v1, [false; false; false; false; false; false; false; true]); (demo_v2, [])]
    (mkMigDB [] None []) = mkMigDB ["users"; "more"] (Some ["001.sql"; "002.sql"]) [].
Proof. vm_compute. reflexivity. Qed.

(** Recording the migrations of a database older than the tracking is not
    atomic: when it stops on its way, the next start runs the others again. *)
Example seeding_interrupted :
  migrate_starts demo_users demo_sql [(demo_v2, [false; false; false; false; false; true]); (demo_v2, [])]
    (mkMigDB ["users"; "more"] None []) = mkMigDB ["users"; "more"; "more"] (Some ["001.sql"; "002.sql"]) [].
Proof. vm_compute. reflexivity. Qed.

End Migrate.
Export Migrate.
