(* ===== verification/Config.v ===== *)
(** * Configuration

    Model of Server/config/config.go after the layers are merged: koanf and the
    YAML parser, which read the files, are not part of the repository. The
    random bytes of generated credentials are arguments, as a failing source
    panics. *)

From S2P Require Import Prelude GoText Wire Json GoTime Crypto.
From Stdlib Require Import Ascii.
#[local] Open Scope string_scope.
#[local] Open Scope Z_scope.

Module Config.

Record VoiceConfig := mkVoice {
  vc_LiveKitAPIKey : string; vc_LiveKitAPISecret : string; vc_LiveKitURL : string;
  vc_LiveKitBinaryPath : string; vc_NodeIP : string; vc_Quality : string }.
Record ServerConfig := mkServerConfig {
  sc_Port : Z; sc_Name : string; sc_DataDir : string; sc_AllowedOrigins : list string;
  sc_TrustedProxies : list string; sc_AdminAllowedCIDRs : list string }.
Record TLSConfig := mkTLS {
  tc_Mode : string; tc_CertFile : string; tc_KeyFile : string; tc_Domain : string; tc_AcmeCacheDir : string }.
Record UploadConfig := mkUpload { uc_MaxSizeMB : Z; uc_StorageDir : string }.
Record Config := mkConfig {
  cfg_Server : ServerConfig; cfg_DatabasePath : string; cfg_TLS : TLSConfig; cfg_Upload : UploadConfig;
  cfg_Voice : VoiceConfig; cfg_GitHubToken : string }.

Definition defaults : Config :=
  mkConfig
    (mkServerConfig 8443 "OwnCord Server" "data" ["*"] []
       ["127.0.0.0/8"; "::1/128"; "10.0.0.0/8"; "172.16.0.0/12"; "192.168.0.0/16"; "fc00::/7"])
    "data/chatserver.db"
    (mkTLS "self_signed" "data/cert.pem" "data/key.pem" "" "data/acme_certs")
    (mkUpload 100 "data/uploads")
    (mkVoice "" "" "ws://localhost:7880" "" "" "medium")
    "".

Definition DefaultLiveKitAPIKey : string := "devkey".
Definition DefaultLiveKitAPISecret : string := "owncord-dev-secret-key-min-32chars".

Definition IsDefaultVoiceCredentials (v : VoiceConfig) : bool :=
  String.eqb (vc_LiveKitAPIKey v) DefaultLiveKitAPIKey || String.eqb (vc_LiveKitAPISecret v) DefaultLiveKitAPISecret.

(** [b] are the bytes drawn. *)
Definition generateRandomKey (b : list Z) : string := hex_encode b.

(** [s] unless it is empty. *)
Definition or_else (s dflt : string) : string := if String.eqb s "" then dflt else s.

Definition applyVoiceDefaults (key secret : list Z) (v : VoiceConfig) : VoiceConfig :=
  mkVoice (or_else (vc_LiveKitAPIKey v) ("key-" +:+ generateRandomKey key))
    (or_else (vc_LiveKitAPISecret v) (generateRandomKey secret))
    (or_else (vc_LiveKitURL v) "ws://localhost:7880") (vc_LiveKitBinaryPath v) (vc_NodeIP v)
    (or_else (vc_Quality v) "medium").

Definition clear_credentials (v : VoiceConfig) : VoiceConfig :=
  mkVoice "" "" (vc_LiveKitURL v) (vc_LiveKitBinaryPath v) (vc_NodeIP v) (vc_Quality v).

(** The end of [Load], on the merged configuration. *)
Definition finish_voice (key secret : list Z) (v : VoiceConfig) : VoiceConfig :=
  let v := applyVoiceDefaults key secret v in
  if IsDefaultVoiceCredentials v then clear_credentials v else v.
Definition Load_merged (key secret : list Z) (c : Config) : Config :=
  mkConfig (cfg_Server c) (cfg_DatabasePath c) (cfg_TLS c) (cfg_Upload c)
    (finish_voice key secret (cfg_Voice c)) (cfg_GitHubToken c).

(** The key of an environment variable: a dot for the first underscore. *)
Fixpoint envKeyToKoanf (s : string) : string :=
  match s with
  | EmptyString => EmptyString
  | String c s' => if Ascii.eqb c "_" then String "." s' else String c (envKeyToKoanf s')
  end.
Definition env_key (name : string) : string := envKeyToKoanf (lower (TrimPrefix name "OWNCORD_")).


(** ** Credentials after loading *)

Lemma or_else_ne s dflt : dflt <> "" -> or_else s dflt <> "".
Proof. unfold or_else. destruct (String.eqb_spec s ""); auto. Qed.

Lemma string_of_length l : String.length (string_of l) = length l.
Proof. induction l as [|b l IH]; [done|]. simpl. by rewrite IH. Qed.

Lemma hex_encode_length l : String.length (hex_encode l) = (2 * length l)%nat.
Proof.
  unfold hex_encode. rewrite string_of_length. induction l as [|b l IH]; [done|]. simpl. rewrite IH. lia.
Qed.

Lemma hex_encode_ne l : l <> [] -> hex_encode l <> "".
Proof. intros Hl E. apply (f_equal String.length) in E. rewrite hex_encode_length in E. by destruct l. Qed.
End Config.
Export Config.

(** The voice credentials after loading: whatever the file and the environment
    say, they are never the development ones that are public; they are both there
    or both absent (and voice stays off), a secret that was not configured has 64
    random characters, and the address and the quality are always set. *)
Theorem no_dev_credentials key secret c (Hkey : length key = 8%nat) (Hsecret : length secret = 32%nat) :
  let v := cfg_Voice (Load_merged key secret c) in
  vc_LiveKitAPIKey v <> DefaultLiveKitAPIKey /\ vc_LiveKitAPISecret v <> DefaultLiveKitAPISecret /\
  (vc_LiveKitAPIKey v = "" <-> vc_LiveKitAPISecret v = "") /\
  (vc_LiveKitAPISecret (cfg_Voice c) = "" -> vc_LiveKitAPISecret v = "" \/ String.length (vc_LiveKitAPISecret v) = 64%nat) /\
  vc_LiveKitURL v <> "" /\ vc_Quality v <> "".
Proof.
  cbv zeta. unfold Load_merged. cbn [cfg_Voice]. set (v := cfg_Voice c). unfold finish_voice.
  set (w := applyVoiceDefaults key secret v).
  assert (Hk : vc_LiveKitAPIKey w <> "") by (by apply or_else_ne).
  assert (Hs : vc_LiveKitAPISecret w <> "").
  { apply or_else_ne, hex_encode_ne. by intros ->. }
  assert (vc_LiveKitURL w <> "" /\ vc_Quality w <> "") as [Hu Hq] by (split; by apply or_else_ne).
  destruct (IsDefaultVoiceCredentials w) eqn:E; [repeat split; try done; intros; by left|].
  apply orb_false_iff in E as [E1 E2]. apply String.eqb_neq in E1, E2.
  repeat split; try done. intros Hv. right. unfold w. simpl. unfold or_else. rewrite Hv. simpl.
  unfold generateRandomKey. by rewrite hex_encode_length, Hsecret.
Qed.

Lemma no_dev_credentials_witness :
  let c := mkConfig (cfg_Server defaults) (cfg_DatabasePath defaults) (cfg_TLS defaults) (cfg_Upload defaults)
    (mkVoice "mykey" DefaultLiveKitAPISecret "" "" "" "") "" in
  vc_LiveKitAPISecret (cfg_Voice (Load_merged (repeat 7 8) (repeat 9 32) c)) <> DefaultLiveKitAPISecret.
Proof. intros c. apply (no_dev_credentials (repeat 7 8) (repeat 9 32) c); reflexivity. Defined.
