(* ===== verification/Http.v ===== *)
(** * HTTP: requests, responses and middleware

    Model of Server/api/middleware.go and of the parts of net/http, chi and
    encoding/json the REST handlers share. A request carries its body as the
    bytes that can be read and whether reading them ends with an error; the
    context values set by the middleware are fields of the request. The state
    of the server is the process of Hub.v together with the two in-memory
    stores of the login, the limiter of the setup endpoint, the tickets of the log
    stream, the updater, the bytes the random source will give, the files (by
    absolute path), which of the coming file operations fail, the replies of the
    coming requests to other hosts, and the requests made to them. *)

From S2P Require Import Prelude Permissions RateLimiter GoText Wire Json GoTime Crypto Credentials Rows Store Hub Net LogStream Updater.
#[local] Open Scope string_scope.
#[local] Open Scope Z_scope.

Module Http.

(** ** The server's state *)

(** The reply to a GET request to another host: its body as the bytes that can
    be read and whether reading them ends with an error. *)
Record Reply := mkReply { rp_status : Z; rp_body : string; rp_error : bool }.

Record Server := mkServer {
  sv_world : World;
  sv_partial : Cred.PartialAuthStore;
  sv_pending : Cred.PendingTOTPStore;
  sv_setup : Limiter.RateLimiter;
  sv_tickets : ticketStore;
  sv_updater : Updater;
  sv_random : list (option (list Z));
  sv_disk : gmap string string;
  sv_io : list bool;
  sv_net : list (option Reply);
  sv_sent : list (string * option string) }.

Definition sv_set_world (x : World) (s : Server) : Server :=
  mkServer x (sv_partial s) (sv_pending s) (sv_setup s) (sv_tickets s) (sv_updater s) (sv_random s)
    (sv_disk s) (sv_io s) (sv_net s) (sv_sent s).
Definition sv_set_partial (x : Cred.PartialAuthStore) (s : Server) : Server :=
  mkServer (sv_world s) x (sv_pending s) (sv_setup s) (sv_tickets s) (sv_updater s) (sv_random s)
    (sv_disk s) (sv_io s) (sv_net s) (sv_sent s).
Definition sv_set_pending (x : Cred.PendingTOTPStore) (s : Server) : Server :=
  mkServer (sv_world s) (sv_partial s) x (sv_setup s) (sv_tickets s) (sv_updater s) (sv_random s)
    (sv_disk s) (sv_io s) (sv_net s) (sv_sent s).
Definition sv_set_setup (x : Limiter.RateLimiter) (s : Server) : Server :=
  mkServer (sv_world s) (sv_partial s) (sv_pending s) x (sv_tickets s) (sv_updater s) (sv_random s)
    (sv_disk s) (sv_io s) (sv_net s) (sv_sent s).
Definition sv_set_tickets (x : ticketStore) (s : Server) : Server :=
  mkServer (sv_world s) (sv_partial s) (sv_pending s) (sv_setup s) x (sv_updater s) (sv_random s)
    (sv_disk s) (sv_io s) (sv_net s) (sv_sent s).
Definition sv_set_updater (x : Updater) (s : Server) : Server :=
  mkServer (sv_world s) (sv_partial s) (sv_pending s) (sv_setup s) (sv_tickets s) x (sv_random s)
    (sv_disk s) (sv_io s) (sv_net s) (sv_sent s).
Definition sv_set_random (x : list (option (list Z))) (s : Server) : Server :=
  mkServer (sv_world s) (sv_partial s) (sv_pending s) (sv_setup s) (sv_tickets s) (sv_updater s) x
    (sv_disk s) (sv_io s) (sv_net s) (sv_sent s).
Definition sv_set_disk (x : gmap string string) (s : Server) : Server :=
  mkServer (sv_world s) (sv_partial s) (sv_pending s) (sv_setup s) (sv_tickets s) (sv_updater s)
    (sv_random s) x (sv_io s) (sv_net s) (sv_sent s).
Definition sv_set_io (x : list bool) (s : Server) : Server :=
  mkServer (sv_world s) (sv_partial s) (sv_pending s) (sv_setup s) (sv_tickets s) (sv_updater s)
    (sv_random s) (sv_disk s) x (sv_net s) (sv_sent s).
Definition sv_set_net (x : list (option Reply)) (s : Server) : Server :=
  mkServer (sv_world s) (sv_partial s) (sv_pending s) (sv_setup s) (sv_tickets s) (sv_updater s)
    (sv_random s) (sv_disk s) (sv_io s) x (sv_sent s).
Definition sv_set_sent (x : list (string * option string)) (s : Server) : Server :=
  mkServer (sv_world s) (sv_partial s) (sv_pending s) (sv_setup s) (sv_tickets s) (sv_updater s)
    (sv_random s) (sv_disk s) (sv_io s) (sv_net s) x.

Definition H := ST Server.

(** Running an operation of the hub, of the database, the clock. *)
Definition hub {A} (m : M A) : H A :=
  fun s => ((m (sv_world s)).1, sv_set_world (m (sv_world s)).2 s).
Definition db {A} (m : ST Sys A) : H A := hub (sys m).
Definition clock : H Z := db read_clock.

(** A step on the whole state. *)
Definition act {A} (f : Server -> A * Server) : H A := f.

(** A system call on a file: it fails when the next entry of [sv_io] says so. *)
Definition io_ok : H bool :=
  fun s => match sv_io s with
           | [] => (true, s)
           | b :: bs => (negb b, sv_set_io bs s)
           end.

(** [rand.Read]; [None] is its failure. *)
Definition rand_read : H (option (list Z)) :=
  fun s => match sv_random s with
           | [] => (None, s)
           | r :: rs => (r, sv_set_random rs s)
           end.

(** A GET request, with the token of its Authorization header if it has one. *)
Definition do_get (url : string) (token : option string) : H (option Reply) :=
  fun s =>
    let s := sv_set_sent (sv_sent s ++ [(url, token)])%list s in
    match sv_net s with
    | [] => (None, s)
    | r :: rs => (r, sv_set_net rs s)
    end.

Definition limiter_locked (key : string) : H bool :=
  t ← clock;
  hub (step (fun w => let r := Limiter.IsLockedOut (w_limiter w) key t in (r.1, w_set_limiter r.2 w))).
Definition limiter_lockout (key : string) (duration : Z) : H unit :=
  t ← clock; hub (modify (fun w => w_set_limiter (Limiter.Lockout (w_limiter w) key duration t) w)).
Definition limiter_reset (key : string) : H unit :=
  hub (modify (fun w => w_set_limiter (Limiter.Reset (w_limiter w) key) w)).

(** ** Requests and responses *)

Record Request := mkRequest {
  rq_RemoteAddr : string;
  rq_header : gmap string string;
  rq_path : string;
  rq_params : gmap string string;
  rq_query : gmap string string;
  rq_body : string;
  rq_body_error : bool;
  rq_user : option User;
  rq_session : option Session;
  rq_role : option Role }.

(** [r.Header.Get], [chi.URLParam], [r.URL.Query().Get]: absent is empty. *)
Definition header (r : Request) (k : string) : string := default "" (rq_header r !! k).
Definition URLParam (r : Request) (k : string) : string := default "" (rq_params r !! k).
Definition query_param (r : Request) (k : string) : string := default "" (rq_query r !! k).

Definition with_context (u : User) (se : Session) (ro : option Role) (r : Request) : Request :=
  mkRequest (rq_RemoteAddr r) (rq_header r) (rq_path r) (rq_params r) (rq_query r) (rq_body r)
    (rq_body_error r) (Some u) (Some se) ro.
Definition with_body (b : string) (err : bool) (r : Request) : Request :=
  mkRequest (rq_RemoteAddr r) (rq_header r) (rq_path r) (rq_params r) (rq_query r) b err
    (rq_user r) (rq_session r) (rq_role r).

(** How a handler ends: with what it has written, or with a panic, where what
    it had set of the headers is kept. *)
Record Response := mkOutcome {
  rs_status : Z; rs_headers : list (string * string); rs_body : option json; rs_panic : bool }.
Definition mkResponse (status : Z) (headers : list (string * string)) (body : option json) : Response :=
  mkOutcome status headers body false.

Definition handler := Request -> H Response.

(** The run-time panic of a nil pointer that is used. *)
Definition nil_dereference : H Response := mret (mkOutcome 0 [] None true).
(** What a middleware has set before it calls the next handler. *)
Definition add_headers (headers : list (string * string)) (rs : Response) : Response :=
  mkOutcome (rs_status rs) (headers ++ rs_headers rs)%list (rs_body rs) (rs_panic rs).

Definition writeJSON (status : Z) (v : json) : Response :=
  mkResponse status [("Content-Type", "application/json; charset=utf-8")] (Some v).
Definition errorResponse (code message : string) : json :=
  JObj [("error", JStr code); ("message", JStr message)].
(** The end of a handler with an error, or without a body. *)
Definition reject (status : Z) (code message : string) : H Response :=
  mret (writeJSON status (errorResponse code message)).
Definition respond (status : Z) (v : json) : H Response := mret (writeJSON status v).
Definition no_content : H Response := mret (mkResponse 204 [] None).

(** [json.NewDecoder(r.Body).Decode(&v)] for a struct with these fields: the
    first JSON value of the body; what follows it is not read. *)
Inductive decoded (P : Type) := DecodeOk (v : P) | DecodeEOF | DecodeError.
Arguments DecodeOk {P} v.
Arguments DecodeEOF {P}.
Arguments DecodeError {P}.

Definition first_value (r : Request) : decoded json :=
  let l := bytes_of (rq_body r) in
  match parse_value (2 * length l + 2) maxNestingDepth l with
  | Some (v, _) => DecodeOk v
  | None => match skip_ws l with
            | [] => if rq_body_error r then DecodeError else DecodeEOF
            | _ => DecodeError
            end
  end.

Definition Decode {P} (fields : list (field P)) (v0 : P) (r : Request) : decoded P :=
  match first_value r with
  | DecodeOk v => match unmarshal fields v0 (Some v) with Some p => DecodeOk p | None => DecodeError end
  | DecodeEOF => DecodeEOF
  | DecodeError => DecodeError
  end.

(** ** middleware.go: the client's address *)

(** The ranges in order; an invalid one ends the search with an error. *)
Fixpoint in_ranges_of (ip : list Z) (cidrList : list string) : result unit bool :=
  match cidrList with
  | [] => inr false
  | cidr :: l =>
      match ParseCIDR cidr with
      | None => inl tt
      | Some network => if Contains network ip then inr true else in_ranges_of ip l
      end
  end.

Definition isTrustedProxy (remoteIP : string) (cidrList : list string) : result unit bool :=
  match ParseIP remoteIP with
  | None => inr false
  | Some ip => in_ranges_of ip cidrList
  end.

Definition trusted_by (remoteIP : string) (cidrs : list string) : bool :=
  match isTrustedProxy remoteIP cidrs with inr b => b | inl _ => false end.

(** [strings.SplitN(s, ",", 2)[0]] *)
Definition first_of_list (s : string) : string := string_of (cut 44 (bytes_of s)).1.

Definition clientIPWithProxies (r : Request) (trustedCIDRs : list string) : string :=
  let remoteHost := default (rq_RemoteAddr r) (SplitHost (rq_RemoteAddr r)) in
  match trustedCIDRs with
  | [] => remoteHost
  | _ =>
      if negb (trusted_by remoteHost trustedCIDRs) then remoteHost else
      let xri := TrimSpace (header r "X-Real-Ip") in
      if negb (String.eqb xri "") then xri else
      let xff := header r "X-Forwarded-For" in
      if String.eqb xff "" then remoteHost else
      let client := TrimSpace (first_of_list xff) in
      if String.eqb client "" then remoteHost else client
  end.

Definition clientIP (r : Request) : string := clientIPWithProxies r [].

(** ** middleware.go: authentication and permission *)

Definition user_ban (u : User) : option Cred.ban_state := Some (Cred.mkBan (u_banned u) (u_ban_expires u)).

Definition AuthMiddleware (next : handler) : handler := fun r =>
  match Cred.ExtractBearerToken (header r "Authorization") with
  | None => reject 401 "UNAUTHORIZED" "missing or invalid authorization header"
  | Some token =>
      let hash := HashToken token in
      found ← db (GetSessionByTokenHash hash);
      match found with
      | inr (Some sess) =>
          t ← clock;
          if Cred.IsSessionExpired t (s_expires sess)
          then reject 401 "UNAUTHORIZED" "session has expired" else
          loaded ← db (GetUserByID (s_user sess));
          match loaded with
          | inr (Some user) =>
              t ← clock;
              if Cred.IsEffectivelyBanned t (user_ban user)
              then reject 403 "FORBIDDEN" "your account has been suspended" else
              role ← db (GetRoleByID (u_role user));
              match role with
              | inl _ => reject 401 "UNAUTHORIZED" "role not found"
              | inr role =>
                  _ ← db (TouchSession hash);
                  next (with_context user sess role r)
              end
          | _ => reject 401 "UNAUTHORIZED" "user not found"
          end
      | _ => reject 401 "UNAUTHORIZED" "invalid or expired session"
      end
  end.

Definition RequirePermission (perm : Z) (next : handler) : handler := fun r =>
  match rq_role r with
  | None => reject 403 "FORBIDDEN" "insufficient permissions"
  | Some role =>
      if HasAdmin (r_permissions role) then next r
      else if Z.land (r_permissions role) perm =? 0
      then reject 403 "FORBIDDEN" "insufficient permissions"
      else next r
  end.

(** [window] is a whole number of seconds at every use. *)
Definition rateLimitMiddlewareWithPrefix (prefix : string) (limit window : Z)
    (proxies : list string) (next : handler) : handler := fun r =>
  let key := prefix +:+ clientIPWithProxies r proxies in
  ok ← hub (allow key limit window);
  if negb ok then
    mret (mkResponse 429 [("Retry-After", itoa (window / Second)); ("Content-Type", "application/json; charset=utf-8")]
      (Some (errorResponse "RATE_LIMITED" "too many requests, please slow down")))
  else next r.

Definition RateLimitMiddleware := rateLimitMiddlewareWithPrefix "".

Definition AdminIPRestrict (allowedCIDRs : list string) (next : handler) : handler := fun r =>
  match allowedCIDRs with
  | [] => next r
  | _ => if trusted_by (clientIP r) allowedCIDRs then next r
         else reject 403 "FORBIDDEN" "access denied"
  end.

(** ** middleware.go: headers and sizes *)

Definition security_headers (tlsMode : string) : list (string * string) :=
  [("X-Content-Type-Options", "nosniff"); ("X-Frame-Options", "DENY"); ("X-XSS-Protection", "0");
   ("Referrer-Policy", "strict-origin-when-cross-origin"); ("Content-Security-Policy", "default-src 'self'");
   ("Permissions-Policy", "camera=(), microphone=(), geolocation=()"); ("Cache-Control", "no-store")]
  ++ (if String.eqb tlsMode "" then []
      else [("Strict-Transport-Security", "max-age=31536000; includeSubDomains")]).

Definition SecurityHeadersWithTLS (tlsMode : string) (next : handler) : handler := fun r =>
  rs ← next r;
  mret (add_headers (security_headers tlsMode) rs).

(** [http.MaxBytesReader]: reads beyond the limit fail. *)
Definition limit_body (maxBytes : Z) (r : Request) : Request :=
  if Z.of_nat (String.length (rq_body r)) <=? maxBytes then r
  else with_body (String.substring 0 (Z.to_nat maxBytes) (rq_body r)) true r.

Definition MaxBodySize (maxBytes : Z) (next : handler) : handler := fun r => next (limit_body maxBytes r).
Definition MaxBodySizeUnless (maxBytes : Z) (exemptPaths : list string) (next : handler) : handler := fun r =>
  if existsb (String.eqb (rq_path r)) exemptPaths then next r else next (limit_body maxBytes r).

(** ** channel_handler.go: path parameters *)

Definition parseIDParam (r : Request) (param : string) : option Z :=
  match ParseInt64 (URLParam r param) with
  | Some id => if id <=? 0 then None else Some id
  | None => None
  end.
Definition bad_id (param : string) : H Response :=
  reject 400 "BAD_REQUEST" (param +:+ " must be a positive integer").

End Http.
Export Http.
