(* ===== verification/JsonThms.v ===== *)
(** * The JSON reader always ends

    The fuel the decoder is given is enough: with any more it gives the same
    result, so a refused input is refused for its syntax and never for the fuel. *)

From S2P Require Import Prelude Permissions RateLimiter GoText Wire Json GoTime Crypto Credentials Rows Store Hub Net LogStream Updater Http.
#[local] Open Scope string_scope.
#[local] Open Scope Z_scope.

Module JsonThms.

(** ** What each lexer consumes *)

Lemma skip_ws_le l : (length (skip_ws l) <= length l)%nat.
Proof. induction l as [|b l IH]; simpl; [lia|]. destruct (is_ws b); simpl in *; lia. Qed.

Lemma span_digits_le l : (length (span_digits l).2 <= length l)%nat.
Proof.
  induction l as [|b l IH]; simpl; [lia|]. destruct (is_digit b); [|simpl; lia].
  destruct (span_digits l). simpl in *. lia.
Qed.

Lemma expect_le w l r : expect w l = Some r -> (length r <= length l)%nat.
Proof.
  revert l. induction w as [|a w IH]; intros l; simpl; [by intros [= ->]|].
  destruct l as [|b l]; [done|]. destruct (a =? b); [|done]. intros H. apply IH in H. simpl. lia.
Qed.

Lemma lex_int_lt l d r : lex_int l = Some (d, r) -> (length r < length l)%nat.
Proof.
  unfold lex_int. destruct l as [|b l]; [done|]. intros H.
  assert (Hd : in_range b 49 57 = true -> span_digits (b :: l) = (d, r) -> (length r < length (b :: l))%nat).
  { intros Hb. simpl. assert (Hdig : is_digit b = true) by (unfold is_digit, in_range in *; lia). rewrite Hdig.
    pose proof (span_digits_le l). destruct (span_digits l). intros [= _ <-]. simpl in *. lia. }
  repeat case_match; simplify_eq; simpl; try lia; by apply Hd.
Qed.

Lemma lex_frac_le l d r : lex_frac l = Some (d, r) -> (length r <= length l)%nat.
Proof.
  unfold lex_frac. intros H. repeat case_match; simplify_eq; simpl; try lia.
  match goal with E : span_digits ?k = (_, r) |- _ => pose proof (span_digits_le k) as Hk; rewrite E in Hk end. simpl in *. lia.
Qed.

Lemma lex_exp_le l d r : lex_exp l = Some (d, r) -> (length r <= length l)%nat.
Proof.
  unfold lex_exp. intros H. repeat case_match; simplify_eq; simpl; try lia;
  match goal with E : span_digits ?k = (_, r) |- _ => pose proof (span_digits_le k) as Hk; rewrite E in Hk end; simpl in *; lia.
Qed.

Lemma lex_number_lt l d r : lex_number l = Some (d, r) -> (length r < length l)%nat.
Proof.
  unfold lex_number. set (p := match l with 45 :: l => ([45], l) | _ => ([], l) end).
  assert (Hp : (length p.2 <= length l)%nat) by (unfold p; repeat case_match; simpl; lia).
  destruct p as [sg l0]. simpl in Hp. intros H.
  destruct (lex_int l0) as [[i l1]|] eqn:E1; [|done]. apply lex_int_lt in E1. simpl in H.
  destruct (lex_frac l1) as [[f l2]|] eqn:E2; [|done]. apply lex_frac_le in E2. simpl in H.
  destruct (lex_exp l2) as [[e l3]|] eqn:E3; [|done]. apply lex_exp_le in E3. simpl in H. simplify_eq. lia.
Qed.

Lemma hex4_le l x r : hex4 l = Some (x, r) -> (length r <= length l)%nat.
Proof.
  unfold hex4. destruct l as [|a [|b [|c [|d l]]]]; try done. intros H.
  destruct (hex_val a); [|done]. destruct (hex_val b); [|done]. destruct (hex_val c); [|done].
  destruct (hex_val d); [|done]. simpl in *. simplify_eq. lia.
Qed.

Lemma unescape_u_le l x r : unescape_u l = Some (x, r) -> (length r <= length l)%nat.
Proof.
  unfold unescape_u. destruct (hex4 l) as [[c l1]|] eqn:E; [|done]. apply hex4_le in E. simpl. intros H.
  repeat case_match; simplify_eq; try lia.
  match goal with E : hex4 _ = Some (_, r) |- _ => apply hex4_le in E end. simpl in *. lia.
Qed.

Lemma unescape_le l x r : unescape l = Some (x, r) -> (length r <= length l)%nat.
Proof.
  unfold unescape. intros H. repeat case_match; simplify_eq; simpl; try lia; try done.
  apply unescape_u_le in H. lia.
Qed.

Lemma decode_rune_pos b l : (1 <= (decode_rune (b :: l)).2)%nat.
Proof. by apply decode_rune_width. Qed.

Lemma lex_string_lt n l x r : lex_string n l = Some (x, r) -> (length r < length l)%nat.
Proof.
  revert l x r. induction n as [|n IH]; intros l x r; [done|]. destruct l as [|b l]; [done|]. cbn [lex_string].
  destruct (b =? 34); [intros [= _ <-]; simpl; lia|]. destruct (b =? 92).
  - destruct (unescape l) as [[bs k]|] eqn:E; [|done]. apply unescape_le in E. cbn [mbind option_bind].
    destruct (lex_string n k) as [[s t]|] eqn:E2; [|done]. apply IH in E2. intros [= _ <-]. simpl. lia.
  - destruct (b <? 32); [done|]. pose proof (decode_rune_pos b l) as Hw. destruct (decode_rune (b :: l)) as [c w]. simpl in Hw.
    destruct (lex_string n (drop w (b :: l))) as [[s t]|] eqn:E2; [|done]. apply IH in E2.
    rewrite length_drop in E2. intros [= _ <-]. simpl in *. lia.
Qed.

(** Fuel beyond the length does not matter. *)
Lemma lex_string_fuel n m l : (length l <= n)%nat -> (length l <= m)%nat -> lex_string n l = lex_string m l.
Proof.
  revert m l. induction n as [|n IH]; intros m l Hn Hm.
  { destruct l; [|simpl in Hn; lia]. by destruct m. }
  destruct l as [|b l]; [by destruct m|]. destruct m as [|m]; [simpl in Hm; lia|]. cbn [lex_string].
  destruct (b =? 34); [done|]. simpl in Hn, Hm. destruct (b =? 92).
  - destruct (unescape l) as [[bs k]|] eqn:E; [|done]. apply unescape_le in E. cbn [mbind option_bind].
    by rewrite (IH m k) by lia.
  - destruct (b <? 32); [done|]. pose proof (decode_rune_pos b l) as Hw. destruct (decode_rune (b :: l)) as [c w]. simpl in Hw.
    rewrite (IH m (drop w (b :: l))); [done|..]; rewrite length_drop; simpl; lia.
Qed.

(** ** Values *)

(** What a reading leaves is shorter than what it was given. *)
Definition shrinks {A} (p : list Z -> option (A * list Z)) : Prop :=
  forall l v r, p l = Some (v, r) -> (length r < length l)%nat.

Lemma skip_ws_case l c k : skip_ws l = c :: k -> (length k < length l)%nat.
Proof. intros E. pose proof (skip_ws_le l) as H. rewrite E in H. simpl in H. lia. Qed.

(** Everything known about the lengths of what the lexers leave. *)
Ltac lengths :=
  repeat match goal with
    | H : skip_ws _ = _ :: _ |- _ => apply skip_ws_case in H
    | H : lex_string _ _ = Some (_, _) |- _ => apply lex_string_lt in H
    | H : lex_number _ = Some (_, _) |- _ => apply lex_number_lt in H
    | H : expect _ _ = Some _ |- _ => apply expect_le in H
    end; cbn [length] in *; try lia.

(** The reading of a value, given those of items and members. *)
Definition value_of (items : nat -> list Z -> option (list json * list Z))
    (members : nat -> list Z -> option (list (string * json) * list Z)) (depth : nat) (l : list Z)
  : option (json * list Z) :=
  match skip_ws l with
  | 34 :: l => '(s, r) ← lex_string (length l) l; Some (JStr (string_of s), r)
  | 116 :: l => r ← expect [114; 117; 101] l; Some (JBool true, r)
  | 102 :: l => r ← expect [97; 108; 115; 101] l; Some (JBool false, r)
  | 110 :: l => r ← expect [117; 108; 108] l; Some (JNull, r)
  | 91 :: l =>
      match depth with
      | O => None
      | S depth =>
          match skip_ws l with
          | 93 :: r => Some (JArr [], r)
          | l => '(vs, r) ← items depth l; Some (JArr vs, r)
          end
      end
  | 123 :: l =>
      match depth with
      | O => None
      | S depth =>
          match skip_ws l with
          | 125 :: r => Some (JObj [], r)
          | l => '(ms, r) ← members depth l; Some (JObj ms, r)
          end
      end
  | l => '(lit, r) ← lex_number l; Some (JNum lit, r)
  end.

Lemma parse_value_S n depth l : parse_value (S n) depth l = value_of (parse_items n) (parse_members n) depth l.
Proof. reflexivity. Qed.

Ltac binds := repeat match goal with
  | H : (_ ≫= _) = Some _ |- _ => apply bind_Some in H as ([? ?] & ? & H)
  | H : (_ ≫= _) = Some _ |- _ => apply bind_Some in H as (? & ? & H)
  end.

(** A bracketed value, or another. *)
Lemma value_of_shrinks items members depth : (forall d, shrinks (items d)) -> (forall d, shrinks (members d)) ->
  shrinks (value_of items members depth).
Proof.
  intros Hi Hm l v r. unfold value_of. pose proof (skip_ws_le l) as Hl. intros H.
  repeat case_match; binds; simplify_eq;
    try match goal with H : items _ _ = Some _ |- _ => apply Hi in H | H : members _ _ = Some _ |- _ => apply Hm in H end; lengths.
Qed.

(** A member, from after its opening quote, and those that follow. *)
Definition member_of (value : list Z -> option (json * list Z))
    (members : list Z -> option (list (string * json) * list Z)) (k : list Z)
  : option (list (string * json) * list Z) :=
  '(key, r) ← lex_string (length k) k;
  match skip_ws r with
  | 58 :: r =>
      '(v, r) ← value r;
      match skip_ws r with
      | 125 :: r => Some ([(string_of key, v)], r)
      | 44 :: r => '(ms, r) ← members r; Some ((string_of key, v) :: ms, r)
      | _ => None
      end
  | _ => None
  end.

Lemma parse_members_S n depth l : parse_members (S n) depth l =
  match skip_ws l with 34 :: k => member_of (parse_value n depth) (parse_members n depth) k | _ => None end.
Proof. reflexivity. Qed.

Lemma parse_shrinks n :
  (forall depth, shrinks (parse_value n depth)) /\ (forall depth, shrinks (parse_items n depth)) /\
  (forall depth, shrinks (parse_members n depth)).
Proof.
  induction n as [|n (IHv & IHi & IHm)]; [done|]. split; [|split]; intros depth.
  - intros l v r. rewrite parse_value_S. by apply value_of_shrinks.
  - intros l v r. cbn [parse_items]. intros H.
    destruct (parse_value n depth l) as [[x k]|] eqn:E; [|done]. apply IHv in E. cbn [mbind option_bind] in H.
    repeat case_match; binds; simplify_eq; try match goal with H : parse_items _ _ _ = Some _ |- _ => apply IHi in H end; lengths.
  - intros l v r. cbn [parse_members]. intros H.
    repeat case_match; binds; repeat case_match; binds; repeat case_match; binds; simplify_eq;
      repeat match goal with H : parse_members _ _ _ = Some _ |- _ => apply IHm in H | H : parse_value _ _ _ = Some _ |- _ => apply IHv in H end; lengths.
Qed.

(** *** Fuel *)

Lemma value_of_agree i1 i2 m1 m2 depth l :
  (forall d k, (length k < length l)%nat -> i1 d k = i2 d k) -> (forall d k, (length k < length l)%nat -> m1 d k = m2 d k) ->
  value_of i1 m1 depth l = value_of i2 m2 depth l.
Proof.
  intros Hi Hm. unfold value_of. pose proof (skip_ws_le l) as Hl.
  destruct (skip_ws l) as [|b k]; [done|]. simpl in Hl. pose proof (skip_ws_le k) as Hk.
  repeat (case_match; try done); first [rewrite Hi|rewrite Hm]; try done; simpl in *; lia.
Qed.

Lemma parse_fuel n :
  (forall m depth l, (2 * length l + 1 <= n)%nat -> (2 * length l + 1 <= m)%nat -> parse_value n depth l = parse_value m depth l) /\
  (forall m depth l, (2 * length l + 2 <= n)%nat -> (2 * length l + 2 <= m)%nat -> parse_items n depth l = parse_items m depth l) /\
  (forall m depth l, (2 * length l + 2 <= n)%nat -> (2 * length l + 2 <= m)%nat -> parse_members n depth l = parse_members m depth l).
Proof.
  induction n as [|n (IHv & IHi & IHm)]; [split; [|split]; intros; lia|].
  split; [|split]; intros [|m] depth l Hn Hm; try lia.
  - rewrite !parse_value_S. apply value_of_agree; intros d k Hk; [apply IHi|apply IHm]; lia.
  - cbn [parse_items]. rewrite (IHv m depth l) by lia.
    destruct (parse_value m depth l) as [[v k]|] eqn:E; [|done]. apply (proj1 (parse_shrinks m)) in E.
    cbn [mbind option_bind]. pose proof (skip_ws_le k). destruct (skip_ws k) as [|b r] eqn:Er; [done|]. simpl in *.
    rewrite (IHi m depth r) by lia. done.
  - rewrite !parse_members_S. pose proof (skip_ws_le l) as Hl. destruct (skip_ws l) as [|b k]; [done|]. simpl in Hl.
    enough (Hk : member_of (parse_value n depth) (parse_members n depth) k = member_of (parse_value m depth) (parse_members m depth) k)
      by (repeat (case_match; try done)). unfold member_of.
    destruct (lex_string (length k) k) as [[key r]|] eqn:E; [|done]. apply lex_string_lt in E. cbn [mbind option_bind].
    pose proof (skip_ws_le r). destruct (skip_ws r) as [|c t]; [done|]. simpl in *.
    rewrite (IHv m depth t) by lia. destruct (parse_value m depth t) as [[v u]|] eqn:E2; [|done].
    apply (proj1 (parse_shrinks m)) in E2. cbn [mbind option_bind].
    pose proof (skip_ws_le u). destruct (skip_ws u) as [|c' w]; [done|]. simpl in *. by rewrite (IHm m depth w) by lia.
Qed.

(** *** Bodies and frames *)

(** [first_value] and [parse_json] with any fuel. *)
Definition first_value_with (n : nat) (r : Request) : decoded json :=
  match parse_value n maxNestingDepth (bytes_of (rq_body r)) with
  | Some (v, _) => DecodeOk v
  | None => match skip_ws (bytes_of (rq_body r)) with
            | [] => if rq_body_error r then DecodeError else DecodeEOF
            | _ => DecodeError
            end
  end.
Definition parse_json_with (n : nat) (raw : string) : option json :=
  '(v, r) ← parse_value n maxNestingDepth (bytes_of raw);
  match skip_ws r with [] => Some v | _ => None end.

Lemma enough_fuel n l : (2 * length l + 2 <= n)%nat -> parse_value n maxNestingDepth l = parse_value (2 * length l + 2) maxNestingDepth l.
Proof. intros Hn. apply parse_fuel; lia. Qed.
End JsonThms.
Export JsonThms.

(** Reading JSON ends on every input. The readers of request bodies and of
    WebSocket frames get two steps per byte and two more: any larger number gives
    the same result, so that a refusal is one of the input and never of the
    number of steps, and a value that is read takes at least one byte. *)
Theorem json_reader_total n r raw (Hr : (2 * String.length (rq_body r) + 2 <= n)%nat)
    (Hraw : (2 * String.length raw + 2 <= n)%nat) :
  first_value_with n r = first_value r /\ parse_json_with n raw = parse_json raw /\
  (forall depth l v k, parse_value n depth l = Some (v, k) -> (length k < length l)%nat).
Proof.
  rewrite <- !length_bytes_of in *. split; [|split].
  - unfold first_value_with, first_value. by rewrite enough_fuel.
  - unfold parse_json_with, parse_json. by rewrite enough_fuel.
  - apply (proj1 (parse_shrinks n)).
Qed.

Lemma json_reader_total_witness :
  first_value_with 1000 (mkRequest "" ∅ "" ∅ ∅ "[1,true]" false None None None) = DecodeOk (JArr [JNum "1"; JBool true]).
Proof.
  rewrite (proj1 (json_reader_total 1000 (mkRequest "" ∅ "" ∅ ∅ "[1,true]" false None None None) "{}"
    ltac:(simpl; lia) ltac:(simpl; lia))). vm_compute. reflexivity.
Defined.
