(* ===== verification/AuthApi.v ===== *)
(** * The authentication endpoints

    Model of Server/api/auth_handler.go: registration, login, two-factor
    verification and enrolment, logout and account deletion. bcrypt and the
    HTML sanitizer are parameters. *)

From S2P Require Import Prelude Permissions RateLimiter GoText Wire Json GoTime Crypto Credentials Rows Store Hub Net LogStream Updater Http.
#[local] Open Scope string_scope.
#[local] Open Scope Z_scope.

Module AuthApi.

(** ** Request bodies *)

Record registerRequest := mkRegister { rg_Username : string; rg_Password : string; rg_InviteCode : string }.
Definition register_fields : list (field registerRequest) :=
  [ ("username", fun j p => (fun x => mkRegister x (rg_Password p) (rg_InviteCode p)) <$> dec_string j (rg_Username p));
    ("password", fun j p => (fun x => mkRegister (rg_Username p) x (rg_InviteCode p)) <$> dec_string j (rg_Password p));
    ("invite_code", fun j p => (fun x => mkRegister (rg_Username p) (rg_Password p) x) <$> dec_string j (rg_InviteCode p)) ].

Definition pair_fields (n1 n2 : string) : list (field (string * string)) :=
  [ (n1, fun j p => (fun x => (x, p.2)) <$> dec_string j p.1);
    (n2, fun j p => (fun x => (p.1, x)) <$> dec_string j p.2) ].

(** [loginRequest], [totpConfirmationRequest]; [verifyTotpRequest] and the two
    password confirmations have one field. *)
Definition login_fields := pair_fields "username" "password".
Definition totp_confirmation_fields := pair_fields "password" "code".
Definition code_fields : list (field string) := [("code", dec_string)].
Definition password_fields : list (field string) := [("password", dec_string)].

(** ** Responses *)

Definition genericAuthError : json := errorResponse "INVALID_CREDENTIALS" "invalid invite or credentials".

(** Members with [omitempty]. *)
Definition opt_member (k v : string) : list (string * json) :=
  if String.eqb v "" then [] else [(k, JStr v)].

Definition toUserResponse (u : User) : json :=
  JObj ([("id", JInt (u_id u)); ("username", JStr (u_username u))]
    ++ opt_member "avatar" (default "" (u_avatar u))
    ++ [("status", JStr (u_status u)); ("role_id", JInt (u_role u));
        ("totp_enabled", JBool (match u_totp u with Some _ => true | None => false end));
        ("created_at", JStr (u_created u))])%list.

Definition authSuccess (token partialToken : string) (requires2FA : bool) (u : option User) : json :=
  JObj (opt_member "token" token ++ opt_member "partial_token" partialToken
    ++ [("requires_2fa", JBool requires2FA)]
    ++ match u with Some u => [("user", toUserResponse u)] | None => [] end)%list.

Definition username_error_text (e : Cred.username_error) : string :=
  match e with
  | Cred.NameTooShort => "username must be at least 2 characters"
  | Cred.NameTooLong => "username must be at most 32 characters"
  | Cred.NameControl => "username must not contain control characters"
  | Cred.NameInvisible => "username must not contain invisible characters"
  end.

Definition password_error_text (e : Cred.password_error) : string :=
  match e with
  | Cred.ErrPasswordTooShort => "password must be at least 8 characters"
  | Cred.ErrPasswordTooLong => "password must not exceed 72 characters"
  end.

(** ** Settings *)

Definition parseBooleanSettingValue (value : string) : option bool :=
  let v := lower (TrimSpace value) in
  if existsb (String.eqb v) ["1"; "true"] then Some true
  else if existsb (String.eqb v) ["0"; "false"] then Some false
  else None.

(** [None] is an error. *)
Definition getBooleanSetting (key : string) (defaultValue : bool) : H (option bool) :=
  r ← db (GetSetting key);
  mret (match r with
        | inl ErrNotFound => Some defaultValue
        | inl _ => None
        | inr value => parseBooleanSettingValue value
        end).

Definition isRequire2FAEnabled : H (option bool) := getBooleanSetting "require_2fa" false.
Definition isRegistrationOpen : H (option bool) := getBooleanSetting "registration_open" false.

(** ** Sessions *)

Definition issueSession (userID : Z) (device ip : string) : H (option string) :=
  bytes ← rand_read;
  match GenerateToken bytes with
  | None => mret None
  | Some token =>
      made ← db (CreateSession userID (HashToken token) device ip);
      mret (match made with inl _ => None | inr _ => Some token end)
  end.

Section bcrypt.
(** [bcrypt.GenerateFromPassword] ([None] on error) and
    [bcrypt.CompareHashAndPassword], and the HTML sanitizer. *)
Context (bcrypt_hash : string -> option string) (compare_hash : string -> string -> bool)
  (sanitize : string -> string).

Let CheckPassword := Cred.CheckPassword compare_hash.

(** ** Registration *)

(** The policy: refused while registration is closed or two-factor is required. *)
Definition register_policy (k : H Response) : H Response :=
  opened ← isRegistrationOpen;
  match opened with
  | None => reject 500 "SERVER_ERROR" "failed to load registration policy"
  | Some false => reject 403 "FORBIDDEN" "registration is currently closed"
  | Some true =>
      require2FA ← isRequire2FAEnabled;
      match require2FA with
      | None => reject 500 "SERVER_ERROR" "failed to load registration policy"
      | Some true => reject 403 "FORBIDDEN" "registration is unavailable while two-factor authentication is required"
      | Some false => k
      end
  end.

(** The session of the new user, once they are stored. *)
Definition register_session (uid : Z) (r : Request) : H Response :=
  let ip := clientIP r in
  _ ← db (LogAudit uid "user_register" "user" uid "new account created via invite");
  token ← issueSession uid (header r "User-Agent") ip;
  match token with
  | None => reject 500 "SERVER_ERROR" "failed to create session"
  | Some token =>
      user ← db (GetUserByID uid);
      match user with
      | inr (Some user) => respond 201 (authSuccess token "" false (Some user))
      | _ => reject 500 "SERVER_ERROR" "registration succeeded but user fetch failed"
      end
  end.

(** From a body that was read on. *)
Definition register_user (username password inviteCode : string) (r : Request) : H Response :=
  if String.eqb username "" || String.eqb password "" || String.eqb inviteCode ""
  then reject 400 "INVALID_INPUT" "username, password, and invite_code are required" else
  match Cred.ValidateUsername username with
  | Some e => reject 400 "INVALID_INPUT" (username_error_text e)
  | None =>
      match Cred.ValidatePasswordStrength password with
      | Some e => reject 400 "INVALID_INPUT" (password_error_text e)
      | None =>
          match bcrypt_hash password with
          | None => reject 500 "SERVER_ERROR" "failed to process registration"
          | Some hash =>
              made ← db (CreateUserWithInvite username hash MemberRoleID inviteCode);
              match made with
              | inl e =>
                  if IsUniqueConstraintError e || bool_decide (e = ErrNotFound)
                  then respond 400 genericAuthError
                  else reject 500 "SERVER_ERROR" "registration failed — please try again"
              | inr uid => register_session uid r
              end
          end
      end
  end.

Definition handleRegister : handler := fun r =>
  register_policy
    (match Decode register_fields (mkRegister "" "" "") r with
     | DecodeOk req =>
         register_user (TrimSpace (sanitize (rg_Username req))) (rg_Password req)
           (TrimSpace (rg_InviteCode req)) r
     | _ => reject 400 "INVALID_INPUT" "malformed request body"
     end).

(** ** Login *)

Definition loginFailLimit : Z := 9.
Definition loginWindow : Z := 15 * Minute.

(** [partialStore.Issue]: the token is drawn before the store is locked. *)
Definition partial_issue (userID : Z) (device ip : string) : H (option string) :=
  bytes ← rand_read;
  t1 ← clock; t2 ← clock;
  act (fun s =>
    let x := Cred.Partial_Issue (sv_partial s) (generateOpaqueToken bytes) userID device ip t1 t2 in
    (x.1, sv_set_partial x.2 s)).

(** A wrong name or password counts; the tenth failure locks the address. *)
Definition login_failed (failKey lockKey : string) : H Response :=
  ok ← hub (allow failKey loginFailLimit loginWindow);
  _ ← (if ok : bool then mret tt else limiter_lockout lockKey loginWindow);
  reject 401 "UNAUTHORIZED" "invalid credentials".

(** The password was right. *)
Definition login_user (user : User) (ip : string) (r : Request) : H Response :=
  t ← clock;
  if Cred.IsEffectivelyBanned t (user_ban user) then
    _ ← db (LogAudit (u_id user) "login_blocked_banned" "user" (u_id user)
              ("banned user attempted login from " +:+ ip));
    reject 403 "FORBIDDEN" "your account has been suspended"
  else
  require2FA ← isRequire2FAEnabled;
  match require2FA with
  | None => reject 500 "SERVER_ERROR" "failed to load authentication policy"
  | Some require2FA =>
      match u_totp user with
      | Some _ =>
          issued ← partial_issue (u_id user) (header r "User-Agent") ip;
          match issued with
          | None => reject 500 "SERVER_ERROR" "failed to start two-factor challenge"
          | Some partialToken => respond 200 (authSuccess "" partialToken true None)
          end
      | None =>
          if require2FA : bool
          then reject 403 "FORBIDDEN" "two-factor authentication must be enabled on this account before login"
          else
            token ← issueSession (u_id user) (header r "User-Agent") ip;
            match token with
            | None => reject 500 "SERVER_ERROR" "failed to create session"
            | Some token =>
                _ ← db (LogAudit (u_id user) "user_login" "user" (u_id user) ("logged in from " +:+ ip));
                respond 200 (authSuccess token "" false (Some user))
            end
      end
  end.

Definition handleLogin (trustedProxies : list string) : handler := fun r =>
  match Decode login_fields ("", "") r with
  | DecodeOk (username, password) =>
      let username := TrimSpace username in
      if String.eqb username "" || String.eqb password ""
      then reject 400 "INVALID_INPUT" "username and password are required" else
      let ip := clientIPWithProxies r trustedProxies in
      let lockKey := "login_lock:" +:+ ip in
      locked ← limiter_locked lockKey;
      if locked : bool
      then reject 429 "RATE_LIMITED" "account temporarily locked due to too many failed attempts" else
      found ← db (GetUserByUsername username);
      match found with
      | inl _ => reject 500 "SERVER_ERROR" "login temporarily unavailable"
      | inr found =>
          let failKey := "login_fail:" +:+ ip in
          match found with
          | Some user =>
              if CheckPassword (u_password user) password then
                _ ← limiter_reset failKey;
                login_user user ip r
              else login_failed failKey lockKey
          | None => login_failed failKey lockKey
          end
      end
  | _ => reject 400 "INVALID_INPUT" "malformed request body"
  end.

(** ** Two-factor login *)

Definition partial_lookup (token : string) : H (option Cred.PartialAuthChallenge) :=
  t ← clock;
  act (fun s => let x := Cred.Partial_Lookup (sv_partial s) token t in (x.1, sv_set_partial x.2 s)).
Definition partial_consume (token : string) : H (option Cred.PartialAuthChallenge) :=
  t ← clock;
  act (fun s => let x := Cred.Partial_Consume (sv_partial s) token t in (x.1, sv_set_partial x.2 s)).
Definition partial_failure (token : string) (maxFailures : Z) : H bool :=
  t ← clock;
  act (fun s => let x := Cred.Partial_RegisterFailure (sv_partial s) token maxFailures t in (x.1, sv_set_partial x.2 s)).

(** The code is right or not, for a challenge and a user with a secret. *)
Definition verify_code (partialToken code secret : string) (user : User)
    (challenge : Cred.PartialAuthChallenge) : H Response :=
  t ← clock;
  if negb (VerifyTOTPCode secret (TrimSpace code) t) then
    _ ← partial_failure partialToken 5;
    reject 401 "UNAUTHORIZED" "invalid two-factor code"
  else
  consumed ← partial_consume partialToken;
  match consumed with
  | None => reject 401 "UNAUTHORIZED" "invalid or expired two-factor challenge"
  | Some _ =>
      token ← issueSession (u_id user) (Cred.pc_Device challenge) (Cred.pc_IP challenge);
      match token with
      | None => reject 500 "SERVER_ERROR" "failed to create session"
      | Some token => respond 200 (authSuccess token "" false (Some user))
      end
  end.

Definition handleVerifyTOTP : handler := fun r =>
  match Cred.ExtractBearerToken (header r "Authorization") with
  | None => reject 401 "UNAUTHORIZED" "missing or invalid authorization header"
  | Some partialToken =>
      challenge ← partial_lookup partialToken;
      match challenge with
      | None => reject 401 "UNAUTHORIZED" "invalid or expired two-factor challenge"
      | Some challenge =>
          match Decode code_fields "" r with
          | DecodeOk code =>
              found ← db (GetUserByID (Cred.pc_UserID challenge));
              match found with
              | inr (Some user) =>
                  match u_totp user with
                  | Some secret => verify_code partialToken code secret user challenge
                  | None => reject 401 "UNAUTHORIZED" "invalid or expired two-factor challenge"
                  end
              | _ => reject 401 "UNAUTHORIZED" "invalid or expired two-factor challenge"
              end
          | _ => reject 400 "INVALID_INPUT" "malformed request body"
          end
      end
  end.

(** ** Two-factor enrolment *)

(** [None] when confirmed, else the error's text. *)
Definition requirePasswordConfirmation (user : User) (password : string) : option string :=
  if String.eqb password "" then Some "password is required"
  else if CheckPassword (u_password user) password then None
  else Some "password confirmation failed".

Definition not_authenticated : H Response := reject 401 "UNAUTHORIZED" "not authenticated".

Definition pending_put (userID : Z) (secret : string) : H unit :=
  t1 ← clock; t2 ← clock; modify (fun s => sv_set_pending (Cred.Pending_Put (sv_pending s) userID secret t1 t2) s).
Definition pending_lookup (userID : Z) : H (option string) :=
  t ← clock;
  act (fun s => let x := Cred.Pending_Lookup (sv_pending s) userID t in (x.1, sv_set_pending x.2 s)).
Definition pending_delete (userID : Z) : H unit :=
  modify (fun s => sv_set_pending (Cred.Pending_Delete (sv_pending s) userID) s).

(** Escaping of net/url: unreserved bytes and those in [keep] stay. *)
Definition unreserved (b : Z) : bool :=
  is_digit b || in_range b 65 90 || in_range b 97 122 || existsb (Z.eqb b) [45; 46; 95; 126].
Definition upper_hex (n : Z) : Z := if n <? 10 then 48 + n else 55 + n.
Definition url_escape (keep : list Z) (space_plus : bool) (s : string) : string :=
  string_of (flat_map (fun b =>
    if unreserved b || existsb (Z.eqb b) keep then [b]
    else if space_plus && (b =? 32) then [43]
    else [37; upper_hex (b / 16); upper_hex (b mod 16)]) (bytes_of s)).
Definition PathEscape := url_escape [36; 38; 43; 58; 61; 64] false.
Definition QueryEscape := url_escape [] true.

(** The query's keys are sorted. *)
Definition BuildTOTPURI (username secret issuer : string) : string :=
  "otpauth://totp/" +:+ PathEscape (issuer +:+ ":" +:+ username) +:+ "?algorithm=SHA1&digits=6&issuer="
    +:+ QueryEscape issuer +:+ "&period=30&secret=" +:+ QueryEscape secret.

Definition handleEnableTOTP : handler := fun r =>
  match rq_user r with
  | None => not_authenticated
  | Some user =>
      match Decode password_fields "" r with
      | DecodeOk password =>
          match requirePasswordConfirmation user password with
          | Some msg => reject 400 "INVALID_INPUT" msg
          | None =>
              bytes ← rand_read;
              match GenerateTOTPSecret bytes with
              | None => reject 500 "SERVER_ERROR" "failed to generate two-factor secret"
              | Some secret =>
                  _ ← pending_put (u_id user) secret;
                  respond 200 (JObj [("qr_uri", JStr (BuildTOTPURI (u_username user) secret "OwnCord"));
                    ("backup_codes", JArr [])])
              end
          end
      | _ => reject 400 "INVALID_INPUT" "malformed request body"
      end
  end.

Definition handleConfirmTOTP : handler := fun r =>
  match rq_user r with
  | None => not_authenticated
  | Some user =>
      match Decode totp_confirmation_fields ("", "") r with
      | DecodeOk (password, code) =>
          match requirePasswordConfirmation user password with
          | Some msg => reject 400 "INVALID_INPUT" msg
          | None =>
              secret ← pending_lookup (u_id user);
              match secret with
              | None => reject 400 "BAD_REQUEST" "no pending two-factor enrollment found"
              | Some secret =>
                  t ← clock;
                  if negb (VerifyTOTPCode secret (TrimSpace code) t)
                  then reject 401 "UNAUTHORIZED" "invalid two-factor code" else
                  saved ← db (UpdateUserTOTPSecret (u_id user) (Some secret));
                  match saved with
                  | inl _ => reject 500 "SERVER_ERROR" "failed to enable two-factor authentication"
                  | inr _ => _ ← pending_delete (u_id user); no_content
                  end
              end
          end
      | _ => reject 400 "INVALID_INPUT" "malformed request body"
      end
  end.

(** An empty body leaves the password empty. *)
Definition handleDisableTOTP : handler := fun r =>
  match rq_user r with
  | None => not_authenticated
  | Some user =>
      let confirm (password : string) :=
        match requirePasswordConfirmation user password with
        | Some msg => reject 400 "INVALID_INPUT" msg
        | None =>
            require2FA ← isRequire2FAEnabled;
            match require2FA with
            | None => reject 500 "SERVER_ERROR" "failed to load authentication policy"
            | Some true => reject 403 "FORBIDDEN" "two-factor authentication is required for this server"
            | Some false =>
                _ ← pending_delete (u_id user);
                saved ← db (UpdateUserTOTPSecret (u_id user) None);
                match saved with
                | inl _ => reject 500 "SERVER_ERROR" "failed to disable two-factor authentication"
                | inr _ => no_content
                end
            end
        end in
      match Decode password_fields "" r with
      | DecodeOk password => confirm password
      | DecodeEOF => confirm ""
      | DecodeError => reject 400 "INVALID_INPUT" "malformed request body"
      end
  end.

(** ** Logout, identity, account deletion *)

Definition handleLogout : handler := fun r =>
  match rq_session r with
  | None => not_authenticated
  | Some sess =>
      deleted ← db (DeleteSession (s_token sess));
      match deleted with
      | inl _ => reject 500 "SERVER_ERROR" "failed to logout"
      | inr _ => _ ← db (LogAudit (s_user sess) "user_logout" "user" (s_user sess) ""); no_content
      end
  end.

Definition handleMe : handler := fun r =>
  match rq_user r with
  | None => not_authenticated
  | Some user => respond 200 (toUserResponse user)
  end.

Definition handleDeleteAccount : handler := fun r =>
  match rq_user r with
  | None => not_authenticated
  | Some user =>
      let lockKey := "delete_lock:" +:+ itoa (u_id user) in
      locked ← limiter_locked lockKey;
      if locked : bool then reject 429 "RATE_LIMITED" "too many failed attempts, try again later" else
      match Decode password_fields "" r with
      | DecodeOk password =>
          if String.eqb password "" then reject 400 "INVALID_INPUT" "password is required" else
          let failKey := "delete_fail:" +:+ itoa (u_id user) in
          if negb (CheckPassword (u_password user) password) then
            ok ← hub (allow failKey 3 (15 * Minute));
            _ ← (if ok : bool then mret tt else limiter_lockout lockKey (15 * Minute));
            reject 400 "INVALID_INPUT" "incorrect password"
          else
          _ ← limiter_reset failKey;
          deleted ← db (DeleteAccount (u_id user));
          match deleted with
          | inl ErrLastAdmin => reject 403 "FORBIDDEN" "cannot delete the last admin account"
          | inl _ => reject 500 "SERVER_ERROR" "failed to delete account"
          | inr _ =>
              _ ← db (LogAudit (u_id user) "account_deleted" "user" (u_id user)
                        ("account self-deleted from " +:+ clientIP r));
              no_content
          end
      | _ => reject 400 "INVALID_INPUT" "malformed request body"
      end
  end.

(** ** Routes *)

Definition register_route (proxies : list string) : handler :=
  RateLimitMiddleware 3 Minute proxies handleRegister.
Definition login_route (proxies : list string) : handler :=
  RateLimitMiddleware 60 Minute proxies (handleLogin proxies).
Definition verify_totp_route (proxies : list string) : handler :=
  RateLimitMiddleware 10 Minute proxies handleVerifyTOTP.
Definition logout_route : handler := AuthMiddleware handleLogout.
Definition me_route : handler := AuthMiddleware handleMe.
Definition account_route (proxies : list string) : handler :=
  AuthMiddleware (RateLimitMiddleware 5 Minute proxies handleDeleteAccount).
Definition totp_enable_route (proxies : list string) : handler :=
  AuthMiddleware (RateLimitMiddleware 5 Minute proxies handleEnableTOTP).
Definition totp_confirm_route (proxies : list string) : handler :=
  AuthMiddleware (RateLimitMiddleware 5 Minute proxies handleConfirmTOTP).
Definition totp_disable_route (proxies : list string) : handler :=
  AuthMiddleware (RateLimitMiddleware 5 Minute proxies handleDisableTOTP).
End bcrypt.

End AuthApi.
Export AuthApi.
