(* ===== verification/RestApi.v ===== *)
(** * Channels, direct messages and invites over REST

    Model of Server/api/channel_handler.go, dm_handler.go and invite_handler.go.
    The full-text index of SQLite is a parameter: the ids of the messages that
    match a query, best first, or a syntax error of the query. *)

From S2P Require Import Prelude Permissions RateLimiter GoText Wire Json GoTime Crypto Credentials Rows Store Hub Net LogStream Updater Http AuthApi.
#[local] Open Scope string_scope.
#[local] Open Scope Z_scope.

Module RestApi.

(** ** Shapes *)

Definition opt_json {A} (k : string) (f : A -> json) (o : option A) : list (string * json) :=
  match o with Some a => [(k, f a)] | None => [] end.

Definition channel_json (c : Channel) : json :=
  JObj ([("id", JInt (c_id c)); ("name", JStr (c_name c)); ("type", JStr (c_type c));
     ("category", JStr (c_category c)); ("topic", JStr (c_topic c)); ("position", JInt (c_position c));
     ("slow_mode", JInt (c_slow_mode c)); ("archived", JBool (c_archived c)); ("created_at", JStr (c_created c));
     ("voice_max_users", JInt (c_voice_max_users c))]
   ++ opt_json "voice_quality" JStr (c_voice_quality c)
   ++ opt_json "mixing_threshold" JInt (c_mixing_threshold c)
   ++ [("voice_max_video", JInt (c_voice_max_video c))])%list.

Definition user_public (id : Z) (username : string) (avatar : option string) : json :=
  JObj ([("id", JInt id); ("username", JStr username)] ++ opt_json "avatar" JStr avatar)%list.

Definition attachment_info_json (a : AttachmentInfo) : json :=
  JObj ([("id", JStr (ai_ID a)); ("filename", JStr (ai_Filename a)); ("size", JInt (ai_Size a));
     ("mime", JStr (ai_Mime a)); ("url", JStr (ai_URL a))]
   ++ opt_json "width" JInt (ai_Width a) ++ opt_json "height" JInt (ai_Height a))%list.

Definition message_json (x : MessageAPIResponse) : json :=
  let m := am_message x in
  JObj [("id", JInt (m_id m)); ("channel_id", JInt (m_channel m));
    ("user", user_public (m_user m) (am_Username x) (am_Avatar x)); ("content", JStr (m_content m));
    ("reply_to", JOpt JInt (m_reply_to m)); ("attachments", JArr (attachment_info_json <$> am_Attachments x));
    ("reactions", JArr ((fun g => JObj [("emoji", JStr (ri_Emoji g)); ("count", JInt (ri_Count g));
       ("me", JBool (ri_Me g))]) <$> am_Reactions x));
    ("pinned", JBool (m_pinned m)); ("edited_at", JOpt JStr (m_edited_at m));
    ("deleted", JBool (m_deleted m)); ("timestamp", JStr (m_timestamp m))].

Definition messages_json (ms : list MessageAPIResponse) (hasMore : bool) : json :=
  JObj [("messages", JArr (message_json <$> ms)); ("has_more", JBool hasMore)].

(** ** Permissions *)

Definition hasChannelPermREST (role : option Role) (channelID perm : Z) : H bool :=
  match role with
  | None => mret false
  | Some role =>
      if HasAdmin (r_permissions role) then mret true else
      o ← db (GetChannelPermissions channelID (r_id role));
      mret (match o with
            | inl _ => false
            | inr (allow, deny) =>
                Z.land (EffectivePerms (r_permissions role) allow deny) perm =? perm
            end)
  end.

Definition hasChannelPermBatch (role : option Role) (overrides : gmap Z ChannelOverride)
    (channelID perm : Z) : bool :=
  match role with
  | None => false
  | Some role =>
      if HasAdmin (r_permissions role) then true else
      let o := default (mkOverride 0 0) (overrides !! channelID) in
      Z.land (EffectivePerms (r_permissions role) (Allow o) (Deny o)) perm =? perm
  end.

(** The overrides of the role, which an administrator does not need. *)
Definition role_overrides (role : option Role) : H (result db_error (gmap Z ChannelOverride)) :=
  match role with
  | Some role =>
      if HasAdmin (r_permissions role) then mret (inr ∅)
      else db (GetAllChannelPermissionsForRole (r_id role))
  | None => mret (inr ∅)
  end.

(** The access check of the handlers on one channel: participation in a DM, a
    permission elsewhere. *)
Definition rest_access (r : Request) (ch : Channel) (channelID perm : Z) (refusal : string)
    (k : H Response) : H Response :=
  if String.eqb (c_type ch) "dm" then
    match rq_user r with
    | None => reject 401 "UNAUTHORIZED" "authentication required"
    | Some user =>
        ok ← db (IsDMParticipant (u_id user) channelID);
        match ok with
        | inr true => k
        | _ => reject 403 "FORBIDDEN" "not a participant in this DM"
        end
    end
  else
    ok ← hasChannelPermREST (rq_role r) channelID perm;
    if ok : bool then k else reject 403 "FORBIDDEN" refusal.

(** The channel of the path, then the check. *)
Definition on_channel (r : Request) (channelID perm : Z) (refusal : string) (k : H Response) : H Response :=
  found ← db (GetChannel channelID);
  match found with
  | inl _ => reject 500 "INTERNAL" "failed to look up channel"
  | inr None => reject 404 "NOT_FOUND" "channel not found"
  | inr (Some ch) => rest_access r ch channelID perm refusal k
  end.

(** ** channel_handler.go *)

Definition handleListChannels : handler := fun r =>
  listed ← db ListChannels;
  match listed with
  | inl _ => reject 500 "INTERNAL" "failed to list channels"
  | inr channels =>
      fetched ← role_overrides (rq_role r);
      match fetched with
      | inl _ => reject 500 "INTERNAL" "failed to fetch channel permissions"
      | inr overrides =>
          let visible := List.filter (fun ch =>
            hasChannelPermBatch (rq_role r) overrides (c_id ch) ReadMessages) channels in
          respond 200 (JArr (channel_json <$> visible))
      end
  end.

Definition defaultMessageLimit : Z := 50.
Definition maxMessageLimit : Z := 100.

(** The [limit] parameter; [None] when it is refused. *)
Definition limit_param (r : Request) : option Z :=
  let raw := query_param r "limit" in
  if String.eqb raw "" then Some defaultMessageLimit
  else match ParseInt64 raw with
       | Some v => if v <? 1 then None else Some (Z.min v maxMessageLimit)
       | None => None
       end.
Definition before_param (r : Request) : option Z :=
  let raw := query_param r "before" in
  if String.eqb raw "" then Some 0
  else match ParseInt64 raw with Some v => if v <? 0 then None else Some v | None => None end.

Definition requester (r : Request) : Z := match rq_user r with Some u => u_id u | None => 0 end.

(** One message more than the limit tells whether there are more. *)
Definition get_messages (r : Request) (channelID : Z) : H Response :=
  match before_param r with
  | None => reject 400 "BAD_REQUEST" "before must be a non-negative integer"
  | Some before =>
      match limit_param r with
      | None => reject 400 "BAD_REQUEST" "limit must be a positive integer"
      | Some limit =>
          fetched ← db (GetMessagesForAPI channelID before (limit + 1) (requester r));
          match fetched with
          | inl _ => reject 500 "INTERNAL" "failed to fetch messages"
          | inr msgs =>
              if limit <? Z.of_nat (length msgs)
              then respond 200 (messages_json (take (Z.to_nat limit) msgs) true)
              else respond 200 (messages_json msgs false)
          end
      end
  end.

Definition handleGetMessages : handler := fun r =>
  match parseIDParam r "id" with
  | None => bad_id "id"
  | Some channelID =>
      on_channel r channelID ReadMessages "no permission to view this channel" (get_messages r channelID)
  end.

Definition handleGetPins : handler := fun r =>
  match parseIDParam r "id" with
  | None => bad_id "id"
  | Some channelID =>
      on_channel r channelID ReadMessages "no permission to view this channel"
        (fetched ← db (GetPinnedMessages channelID (requester r));
         match fetched with
         | inl _ => reject 500 "INTERNAL" "failed to fetch pinned messages"
         | inr msgs => respond 200 (messages_json msgs false)
         end)
  end.

(** The message must be one of the channel. *)
Definition set_pinned (channelID messageID : Z) (pinned : bool) : H Response :=
  found ← db (GetMessage messageID);
  match found with
  | inl _ => reject 500 "INTERNAL" "failed to look up message"
  | inr (Some msg) =>
      if negb (m_channel msg =? channelID) then reject 404 "NOT_FOUND" "message not found" else
      saved ← db (SetMessagePinned messageID pinned);
      match saved with
      | inl _ => reject 500 "INTERNAL" ("failed to " +:+ (if pinned then "pin" else "unpin") +:+ " message")
      | inr _ => no_content
      end
  | inr None => reject 404 "NOT_FOUND" "message not found"
  end.

Definition handleSetPinned (pinned : bool) : handler := fun r =>
  match parseIDParam r "id" with
  | None => bad_id "id"
  | Some channelID =>
      match parseIDParam r "messageId" with
      | None => bad_id "messageId"
      | Some messageID =>
          on_channel r channelID ManageMessages "no permission to manage messages in this channel"
            (set_pinned channelID messageID pinned)
      end
  end.

(** ** Search *)

Record MessageSearchResult := mkSearchResult {
  sr_message : Message; sr_ChannelName : string; sr_author : User }.

(** The errors of the engine on a query: its text is invalid, or it failed. *)
Inductive search_error := SearchSyntax | SearchFailed.

Section search.
Context (fts_match : string -> gmap Z Message -> option (list Z)).

Definition search_rows (ids : list Z) (channelID : option Z) (d : Db) : list MessageSearchResult :=
  omap (fun id =>
    m ← messages d !! id;
    if m_deleted m || negb (bool_decide (channelID = None \/ channelID = Some (m_channel m))) then None else
    c ← channels d !! m_channel m; u ← users d !! m_user m;
    Some (mkSearchResult m (c_name c) u)) ids.

Definition SearchMessages (q : string) (channelID : option Z) (limit : Z)
  : ST Sys (result search_error (list MessageSearchResult)) :=
  if String.eqb q "" || (limit <? 1) then mret (inr []) else
  found ← query (fun d => (fun ids => take (Z.to_nat limit) (search_rows ids channelID d)) <$> fts_match q (messages d));
  mret (match found with
        | inl _ => inl SearchFailed
        | inr None => inl SearchSyntax
        | inr (Some l) => inr l
        end).

Definition search_result_json (x : MessageSearchResult) : json :=
  let m := sr_message x in
  JObj [("message_id", JInt (m_id m)); ("channel_id", JInt (m_channel m)); ("channel_name", JStr (sr_ChannelName x));
    ("user", user_public (u_id (sr_author x)) (u_username (sr_author x)) (u_avatar (sr_author x)));
    ("content", JStr (m_content m)); ("timestamp", JStr (m_timestamp m))].

(** Whether the requester may see a result: an unknown channel is skipped. *)
Definition search_visible (r : Request) (overrides : gmap Z ChannelOverride) (types : gmap Z string)
    (x : MessageSearchResult) : H bool :=
  let c := m_channel (sr_message x) in
  match types !! c with
  | None => mret false
  | Some t =>
      if String.eqb t "dm" then
        match rq_user r with
        | None => mret false
        | Some user =>
            ok ← db (IsDMParticipant (u_id user) c);
            mret (match ok with inr b => b | inl _ => false end)
        end
      else mret (hasChannelPermBatch (rq_role r) overrides c ReadMessages)
  end.

Fixpoint search_filter (r : Request) (overrides : gmap Z ChannelOverride) (types : gmap Z string)
    (l : list MessageSearchResult) : H (list MessageSearchResult) :=
  match l with
  | [] => mret []
  | x :: l =>
      ok ← search_visible r overrides types x;
      rest ← search_filter r overrides types l;
      mret (if ok : bool then x :: rest else rest)
  end.

Definition channel_id_param (r : Request) : option (option Z) :=
  let raw := query_param r "channel_id" in
  if String.eqb raw "" then Some None
  else match ParseInt64 raw with Some v => if v <=? 0 then None else Some (Some v) | None => None end.

(** From the results of the engine on. *)
Definition search_respond (r : Request) (results : list MessageSearchResult) : H Response :=
  fetched ← role_overrides (rq_role r);
  match fetched with
  | inl _ => reject 500 "INTERNAL" "search failed"
  | inr overrides =>
      cached ← db (GetChannelTypes (elements (list_to_set (m_channel ∘ sr_message <$> results) : gset Z)));
      match cached with
      | inl _ => reject 500 "INTERNAL" "search failed"
      | inr types =>
          filtered ← search_filter r overrides types results;
          respond 200 (JObj [("results", JArr (search_result_json <$> filtered))])
      end
  end.

Definition handleSearch : handler := fun r =>
  let q := query_param r "q" in
  if String.eqb q "" then reject 400 "BAD_REQUEST" "query parameter 'q' is required" else
  match channel_id_param r with
  | None => reject 400 "BAD_REQUEST" "channel_id must be a positive integer"
  | Some channelID =>
      match limit_param r with
      | None => reject 400 "BAD_REQUEST" "limit must be a positive integer"
      | Some limit =>
          found ← db (SearchMessages q channelID limit);
          match found with
          | inl SearchSyntax => reject 400 "BAD_REQUEST" "invalid search query"
          | inl SearchFailed => reject 500 "INTERNAL" "search failed"
          | inr results => search_respond r results
          end
      end
  end.
End search.

(** ** dm_handler.go *)

Definition dm_user (u : User) : json :=
  JObj [("id", JInt (u_id u)); ("username", JStr (u_username u)); ("avatar", JStr (default "" (u_avatar u)));
    ("status", JStr (u_status u))].

Definition dec_int (j : json) (old : Z) : option Z :=
  match j with JNull => Some old | JNum lit => ParseInt64 lit | _ => None end.
Definition recipient_fields : list (field Z) := [("recipient_id", dec_int)].

(** [inr None] is the nil channel of a fresh DM that the last read of
    [GetOrCreateDMChannel] did not find; using it panics. *)
Definition handleCreateDM : handler := fun r =>
  match rq_user r with
  | None => reject 401 "UNAUTHORIZED" "authentication required"
  | Some user =>
      match Decode recipient_fields 0 r with
      | DecodeOk recipientID =>
          if recipientID <=? 0 then reject 400 "BAD_REQUEST" "recipient_id must be a positive integer" else
          if recipientID =? u_id user then reject 400 "BAD_REQUEST" "cannot create a DM with yourself" else
          found ← db (GetUserByID recipientID);
          match found with
          | inl _ => reject 500 "INTERNAL" "failed to look up recipient"
          | inr None => reject 404 "NOT_FOUND" "recipient not found"
          | inr (Some recipient) =>
              made ← db (GetOrCreateDMChannel (u_id user) recipientID);
              match made with
              | inl _ => reject 500 "INTERNAL" "failed to create DM channel"
              | inr (None, _) => nil_dereference
              | inr (Some ch, created) =>
                  respond (if created : bool then 201 else 200)
                    (JObj [("channel_id", JInt (c_id ch)); ("recipient", dm_user recipient); ("created", JBool created)])
              end
          end
      | _ => reject 400 "BAD_REQUEST" "invalid request body"
      end
  end.

Definition dm_channel_info (i : DMChannelInfo) : json :=
  JObj [("channel_id", JInt (di_ChannelID i)); ("recipient", dm_user (di_Recipient i));
    ("last_message_id", JOpt JInt (m_id <$> di_LastMessage i));
    ("last_message", JStr (match di_LastMessage i with Some m => m_content m | None => "" end));
    ("last_message_at", JStr (match di_LastMessage i with Some m => m_timestamp m | None => "" end));
    ("unread_count", JInt (di_UnreadCount i))].

Definition handleListDMs : handler := fun r =>
  match rq_user r with
  | None => reject 401 "UNAUTHORIZED" "authentication required"
  | Some user =>
      listed ← db (GetUserDMChannels (u_id user));
      match listed with
      | inl _ => reject 500 "INTERNAL" "failed to list DM channels"
      | inr channels => respond 200 (JObj [("dm_channels", JArr (dm_channel_info <$> channels))])
      end
  end.

Definition dm_close_frame (channelID : Z) : string :=
  render (JObj [("type", JStr "dm_channel_close"); ("payload", JObj [("channel_id", JInt channelID)])]).

Definition handleCloseDM : handler := fun r =>
  match rq_user r with
  | None => reject 401 "UNAUTHORIZED" "authentication required"
  | Some user =>
      match parseIDParam r "channelId" with
      | None => bad_id "channelId"
      | Some channelID =>
          ok ← db (IsDMParticipant (u_id user) channelID);
          match ok with
          | inl _ => reject 500 "INTERNAL" "failed to verify DM participation"
          | inr false => reject 403 "FORBIDDEN" "you are not a participant in this DM"
          | inr true =>
              closed ← db (CloseDM (u_id user) channelID);
              match closed with
              | inl _ => reject 500 "INTERNAL" "failed to close DM"
              | inr _ => _ ← hub (SendToUser (u_id user) (dm_close_frame channelID)); no_content
              end
          end
      end
  end.

(** ** invite_handler.go *)

Definition toInviteResponse (i : Invite) : json :=
  JObj [("id", JInt (i_id i)); ("code", JStr (i_code i)); ("max_uses", JOpt JInt (i_max_uses i));
    ("uses", JInt (i_uses i)); ("expires_at", JOpt JStr (i_expires i)); ("revoked", JBool (i_revoked i));
    ("created_at", JStr (i_created i))].

Definition invite_fields : list (field (Z * Z)) :=
  [ ("max_uses", fun j p => (fun x => (x, p.2)) <$> dec_int j p.1);
    ("expires_in_hours", fun j p => (fun x => (p.1, x)) <$> dec_int j p.2) ].

(** The hexadecimal text of eight random bytes. *)
Definition generateInviteCode : H (option string) := bytes ← rand_read; mret (hex_encode <$> bytes).

(** [db.CreateInvite] with its random code. *)
Definition create_invite (createdBy maxUses : Z) (expiresAt : option Z) : H (result db_error string) :=
  code ← generateInviteCode;
  db (CreateInvite code createdBy maxUses expiresAt).

(** From the decoded body on; an hour count that overflows wraps around. *)
Definition create_invite_for (r : Request) (maxUses hours : Z) : H Response :=
  match rq_user r with
  | None => not_authenticated
  | Some user =>
      expiresAt ← (if 0 <? hours then t ← clock; mret (Some (t + wrap_int64 (hours * Hour))) else mret None);
      made ← create_invite (u_id user) maxUses expiresAt;
      match made with
      | inl _ => reject 500 "SERVER_ERROR" "failed to create invite"
      | inr code =>
          found ← db (GetInvite code);
          match found with
          | inr (Some inv) => respond 201 (toInviteResponse inv)
          | _ => reject 500 "SERVER_ERROR" "failed to retrieve invite"
          end
      end
  end.

Definition handleCreateInvite : handler := fun r =>
  match Decode invite_fields (0, 0) r with
  | DecodeOk (maxUses, hours) => create_invite_for r maxUses hours
  | DecodeEOF => create_invite_for r 0 0
  | DecodeError => reject 400 "BAD_REQUEST" "malformed JSON body"
  end.

Definition handleListInvites : handler := fun r =>
  listed ← db ListInvites;
  match listed with
  | inl _ => reject 500 "SERVER_ERROR" "failed to list invites"
  | inr invites => respond 200 (JArr (toInviteResponse <$> invites))
  end.

Definition handleRevokeInvite : handler := fun r =>
  let code := URLParam r "code" in
  found ← db (GetInvite code);
  match found with
  | inl _ => reject 500 "SERVER_ERROR" "failed to look up invite"
  | inr None => reject 404 "NOT_FOUND" "invite not found"
  | inr (Some _) =>
      revoked ← db (RevokeInvite code);
      match revoked with
      | inl _ => reject 500 "SERVER_ERROR" "failed to revoke invite"
      | inr _ => no_content
      end
  end.

(** ** Routes *)

Definition channels_route (next : handler) : handler := AuthMiddleware next.
Definition search_route (fts_match : string -> gmap Z Message -> option (list Z)) (proxies : list string) : handler :=
  AuthMiddleware (rateLimitMiddlewareWithPrefix "search:" 30 Minute proxies (handleSearch fts_match)).
Definition dms_route (next : handler) : handler := AuthMiddleware next.
Definition invites_route (next : handler) : handler := AuthMiddleware (RequirePermission ManageInvites next).

End RestApi.
Export RestApi.
