(* ===== verification/Storage.v ===== *)
(** * File storage

    Model of Server/storage/storage.go and of the lexical path functions of
    path/filepath it uses, on a Unix system: paths are texts with "/". *)

From S2P Require Import Prelude GoText Wire Json Credentials RateLimiter Rows Store Hub Net LogStream Updater Http.
From Stdlib Require Import Ascii.
#[local] Open Scope string_scope.
#[local] Open Scope Z_scope.

Module Storage.

(** ** path/filepath *)

Definition slash : Z := 47.

(** [strings.TrimRight] of a byte. *)
Fixpoint trim_right_rev (b : Z) (l : list Z) : list Z :=
  match l with x :: l' => if x =? b then trim_right_rev b l' else l | [] => [] end.

(** [filepath.Base] *)
Definition Base (path : string) : string :=
  match bytes_of path with
  | [] => "."
  | l =>
      match rev (trim_right_rev slash (rev l)) with
      | [] => "/"
      | l => string_of (match cut_last slash l with Some (_, x) => x | None => l end)
      end
  end.

(** The elements of a cleaned rooted path, last first. *)
Fixpoint clean_elems (done : list (list Z)) (l : list (list Z)) : list (list Z) :=
  match l with
  | [] => done
  | x :: l =>
      if bool_decide (x = []) || bool_decide (x = [dot]) then clean_elems done l
      else if bool_decide (x = [dot; dot]) then clean_elems (tail done) l
      else clean_elems (x :: done) l
  end.

(** A rooted path from its elements. *)
Definition rooted (l : list (list Z)) : list Z :=
  match l with
  | [] => [slash]
  | _ => concat ((fun x => slash :: x) <$> l)
  end.

(** [filepath.Clean] of a rooted path. *)
Definition Clean (path : string) : string :=
  string_of (rooted (rev (clean_elems [] (split slash (bytes_of path))))).

(** [filepath.Join] of a rooted directory and a name. *)
Definition Join (dir name : string) : string := Clean (dir +:+ "/" +:+ name).

(** ** storage.go *)

(** Names and leading bytes of the formats that are refused. *)
Definition blockedMagic : list (string * list Z) :=
  [("PE executable", [77; 90]); ("ELF binary", [127; 69; 76; 70]);
   ("Mach-O 64", [0xcf; 0xfa; 0xed; 0xfe]); ("Mach-O 32", [0xce; 0xfa; 0xed; 0xfe]);
   ("shell script", [35; 33])].

(** The error's text, or [None]. *)
Definition ValidateFileType (h : list Z) : option string :=
  (fun x => "blocked file type: " +:+ fst x) <$>
    List.find (fun x => bool_decide (take (length x.2) h = x.2)) blockedMagic.

(** [dir] is the absolute path of the directory. *)
Record Storage := mkStorage { st_dir : string; st_maxSizeMB : Z }.

(** Whether the name is refused. *)
Definition sanitizeFilename (name : string) : bool :=
  String.eqb name "" || negb (String.eqb (Base name) name) || String.eqb name "." || String.eqb name ".."
  || HasPrefix name "." || existsb (fun b => (b =? slash) || (b =? 92)) (bytes_of name).

Definition resolvedPath (s : Storage) (name : string) : option string :=
  let target := Join (st_dir s) name in
  if HasPrefix target (st_dir s +:+ "/") || String.eqb target (st_dir s) then Some target else None.

(** The path of a file, after both checks. *)
Definition checked_path (s : Storage) (name : string) : option string :=
  if sanitizeFilename name then None else resolvedPath s name.

(** A stream: what can be read of it, and whether it then fails. *)
Record Reader := mkReader { rd_data : string; rd_error : bool }.

(** Why an upload was refused. *)
Inductive save_error :=
| SaveName | SaveHeader | SaveBlocked (text : string) | SaveCreate | SaveWrite | SaveTooLarge (maxSizeMB : Z).

Definition write_file (dst content : string) : H unit :=
  modify (fun w => sv_set_disk (<[dst := content]> (sv_disk w)) w).
Definition remove_file (dst : string) : H unit := modify (fun w => sv_set_disk (delete dst (sv_disk w)) w).

(** From the creation of the file on: at most [maxBytes] are copied, then one
    more byte is asked for. A copy that fails leaves what it wrote. *)
Definition save_to (s : Storage) (dst : string) (r : Reader) : H (option save_error) :=
  created ← io_ok;
  if negb created then mret (Some SaveCreate) else
  _ ← write_file dst "";
  let data := bytes_of (rd_data r) in
  let maxBytes := st_maxSizeMB s * 1024 * 1024 in
  let written := take (Z.to_nat maxBytes) data in
  copied ← io_ok;
  _ ← write_file dst (string_of written);
  if negb copied || ((Z.of_nat (length written) <? maxBytes) && rd_error r)
  then mret (Some SaveWrite)
  else if (Z.of_nat (length written) =? maxBytes) && (length written <? length data)%nat then
    removed ← io_ok;
    _ ← (if removed : bool then remove_file dst else mret tt);
    mret (Some (SaveTooLarge (st_maxSizeMB s)))
  else mret None.

Definition Save (s : Storage) (uuid : string) (r : Reader) : H (option save_error) :=
  match checked_path s uuid with
  | None => mret (Some SaveName)
  | Some dst =>
      let data := bytes_of (rd_data r) in
      if (length data <? 8)%nat && rd_error r then mret (Some SaveHeader) else
      match ValidateFileType (take 8 data) with
      | Some e => mret (Some (SaveBlocked e))
      | None => save_to s dst r
      end
  end.

(** [true] when the file was removed. *)
Definition Delete (s : Storage) (uuid : string) : H bool :=
  match checked_path s uuid with
  | None => mret false
  | Some dst =>
      ok ← io_ok;
      act (fun w => match sv_disk w !! dst with
                    | Some _ => if ok : bool then (true, sv_set_disk (delete dst (sv_disk w)) w) else (false, w)
                    | None => (false, w)
                    end)
  end.

(** The content of the file, if it can be opened. *)
Definition Open (s : Storage) (uuid : string) : H (option string) :=
  match checked_path s uuid with
  | None => mret None
  | Some dst => ok ← io_ok; gets (fun w => if ok : bool then sv_disk w !! dst else None)
  end.

(** ** Paths stay in the directory *)

#[local] Open Scope list_scope.

Lemma of_byte_byte c : of_byte (byte_of c) = c.
Proof. unfold of_byte, byte_of. rewrite N2Z.id. apply Ascii.ascii_N_embedding. Qed.

Lemma string_of_bytes s : string_of (bytes_of s) = s.
Proof. induction s as [|c s IH]; [done|]. simpl. unfold chr. by rewrite of_byte_byte, IH. Qed.

Lemma string_of_app l k : string_of (l ++ k) = string_of l +:+ string_of k.
Proof. induction l as [|b l IH]; [done|]. simpl. unfold chr. by rewrite IH. Qed.

Lemma bytes_of_app s t : bytes_of (s +:+ t) = bytes_of s ++ bytes_of t.
Proof. induction s as [|c s IH]; [done|]. simpl. by rewrite IH. Qed.

Lemma split_none sep l : has_byte sep l = false -> split sep l = [l].
Proof.
  unfold has_byte. induction l as [|b l IH]; [done|]. cbn [existsb split]. intros H. apply orb_false_iff in H as [Hb Hl].
  rewrite Z.eqb_sym in Hb. rewrite Hb, IH by done. done.
Qed.

Lemma split_app sep l k : split sep (l ++ sep :: k) = split sep l ++ split sep k.
Proof.
  induction l as [|b l IH]; simpl; [by rewrite Z.eqb_refl|].
  destruct (b =? sep); [by rewrite IH|]. rewrite IH.
  assert (Hne : split sep l <> []).
  { clear. destruct l as [|b l]; simpl; [done|]. destruct (b =? sep); [done|]. by destruct (split sep l). }
  by destruct (split sep l).
Qed.

Lemma clean_elems_app d l k : clean_elems d (l ++ k) = clean_elems (clean_elems d l) k.
Proof.
  revert d. induction l as [|x l IH]; intros d; [done|]. simpl. by repeat case_match.
Qed.

Lemma rooted_snoc l x : l <> [] -> rooted (l ++ [x]) = rooted l ++ slash :: x.
Proof.
  intros Hl. unfold rooted. destruct l as [|y l]; [done|].
  rewrite fmap_app, concat_app. simpl. by rewrite app_nil_r.
Qed.

(** A directory as [filepath.Abs] gives it. *)
Definition clean_dir (dir : string) : Prop := Clean dir = dir.

Definition plain_name (name : string) : Prop :=
  name <> "" /\ name <> "." /\ name <> ".." /\ has_byte slash (bytes_of name) = false.

Lemma sanitized_plain name : sanitizeFilename name = false -> plain_name name.
Proof.
  unfold sanitizeFilename. intros H.
  apply orb_false_iff in H as [H H6]. apply orb_false_iff in H as [H _].
  apply orb_false_iff in H as [H H4]. apply orb_false_iff in H as [H H3]. apply orb_false_iff in H as [H1 _].
  apply String.eqb_neq in H1, H3, H4. repeat split; try done.
  unfold has_byte. induction (bytes_of name) as [|b l IH]; [done|]. cbn [existsb] in *.
  apply orb_false_iff in H6 as [Hb Hl]. apply orb_false_iff in Hb as [Hb _].
  rewrite Z.eqb_sym, Hb. by apply IH.
Qed.

Lemma Join_plain dir name : clean_dir dir -> plain_name name ->
  Join dir name = dir +:+ "/" +:+ name \/ (dir = "/" /\ Join dir name = "/" +:+ name).
Proof.
  intros Hdir (H1 & H2 & H3 & Hs). unfold Join, Clean.
  rewrite !bytes_of_app. change (bytes_of "/") with [slash]. simpl.
  rewrite split_app, clean_elems_app, (split_none slash (bytes_of name) Hs).
  set (E := clean_elems [] (split slash (bytes_of dir))).
  assert (HE : string_of (rooted (rev E)) = dir) by exact Hdir.
  assert (Hn : forall t, name <> t -> bytes_of name <> bytes_of t).
  { intros t Ht Eq. apply Ht. by rewrite <- (string_of_bytes name), Eq, string_of_bytes. }
  cbn [clean_elems].
  rewrite bool_decide_false by exact (Hn "" H1).
  rewrite bool_decide_false by exact (Hn "." H2). rewrite bool_decide_false by exact (Hn ".." H3). cbn [orb rev].
  destruct (decide (rev E = [])) as [E0|E0].
  - right. rewrite E0 in *. split; [by rewrite <- HE|]. simpl. rewrite app_nil_r. simpl.
    unfold chr. by rewrite string_of_bytes.
  - left. rewrite rooted_snoc by done. rewrite string_of_app, HE. simpl. unfold chr. by rewrite string_of_bytes.
Qed.

Lemma checked_path_in s name p : clean_dir (st_dir s) -> checked_path s name = Some p ->
  p = st_dir s +:+ "/" +:+ name /\ plain_name name.
Proof.
  intros Hdir. unfold checked_path. destruct (sanitizeFilename name) eqn:Hs; [done|].
  apply sanitized_plain in Hs. unfold resolvedPath.
  destruct (Join_plain (st_dir s) name Hdir Hs) as [->|[Hd ->]].
  - destruct (_ || _); [|done]. by intros [= <-].
  - rewrite Hd. destruct name as [|c name]; [by destruct Hs|].
    assert (Hc : Ascii.eqb "/" c = false).
    { destruct Hs as (_ & _ & _ & Hs). unfold has_byte in Hs. simpl in Hs. apply orb_false_iff in Hs as [Hs _].
      apply Ascii.eqb_neq. intros <-. done. }
    change ("/" +:+ String c name) with (String "/" (String c name)). change ("/" +:+ "/") with "//".
    cbn -[Ascii.eqb]. by rewrite Hc.
Qed.

(** ** What an upload does to the disk *)

Lemma io_ok_disk w : sv_disk (io_ok w).2 = sv_disk w.
Proof. unfold io_ok. by destruct (sv_io w). Qed.

(** The content of a file a successful upload leaves. *)
Definition stored_content (s : Storage) (r : Reader) : Prop :=
  ValidateFileType (take 8 (bytes_of (rd_data r))) = None /\
  Z.of_nat (String.length (rd_data r)) <= st_maxSizeMB s * 1024 * 1024.

Definition only_at (p : string) (d d' : gmap string string) : Prop := forall q, q <> p -> d' !! q = d !! q.

Lemma save_to_effect s dst r w : 0 <= st_maxSizeMB s ->
  let '(e, w') := save_to s dst r w in
  only_at dst (sv_disk w) (sv_disk w') /\
  match e with
  | None => sv_disk w' = <[dst := rd_data r]> (sv_disk w) /\
      Z.of_nat (String.length (rd_data r)) <= st_maxSizeMB s * 1024 * 1024
  | Some SaveCreate => sv_disk w' = sv_disk w
  | Some SaveWrite | Some (SaveTooLarge _) => True
  | _ => False
  end.
Proof.
  intros Hmax. unfold save_to, mbind, ST_bind.
  pose proof (io_ok_disk w) as E1. destruct (io_ok w) as [created w1]. cbn [fst snd] in *.
  destruct created; cbn [negb]; [|simpl; split; [by intros q _; rewrite E1|done]].
  unfold write_file, modify. cbn [fst snd]. cbv beta zeta.
  set (w2 := sv_set_disk (<[dst := ""]> (sv_disk w1)) w1). pose proof (io_ok_disk w2) as E2.
  destruct (io_ok w2) as [copied w3]. cbn [fst snd] in *.
  set (data := bytes_of (rd_data r)). set (max := st_maxSizeMB s * 1024 * 1024).
  set (written := take (Z.to_nat max) data).
  fold data max. fold written.
  set (w4 := sv_set_disk (<[dst := string_of written]> (sv_disk w3)) w3).
  assert (E4 : sv_disk w4 = <[dst := string_of written]> (sv_disk w)).
  { unfold w4. simpl. rewrite E2. unfold w2. simpl. by rewrite E1, insert_insert_eq. }
  assert (Honly : only_at dst (sv_disk w) (sv_disk w4)) by (intros q Hq; by rewrite E4, lookup_insert_ne).
  destruct (negb copied || _); [by split|].
  destruct ((Z.of_nat (length written) =? max) && (length written <? length data)%nat) eqn:Hbig.
  - pose proof (io_ok_disk w4) as E5. destruct (io_ok w4) as [removed w5]. cbn [fst snd] in *.
    destruct removed; cbn; (split; [|done]); intros q Hq; [rewrite lookup_delete_ne by done|]; rewrite E5; by apply Honly.
  - cbn. split; [done|].
    assert (Hlen : (length data <= Z.to_nat max)%nat).
    { unfold written in Hbig. rewrite length_take in Hbig.
      destruct (decide (length data <= Z.to_nat max)%nat); [done|]. exfalso.
      rewrite Nat.min_l in Hbig by lia. rewrite Z2Nat.id, Z.eqb_refl in Hbig by (unfold max; lia).
      simpl in Hbig. apply Nat.ltb_ge in Hbig. lia. }
    unfold written in E4. rewrite take_ge in E4 by done. unfold data in E4. rewrite string_of_bytes in E4.
    split; [exact E4|]. unfold data in Hlen. rewrite length_bytes_of in Hlen. unfold max in *. lia.
Qed.

End Storage.
Export Storage.

(** An uploaded file stays in the storage directory: whatever name is given,
    [Save] changes at most the file of that name directly in the directory; a
    refused name or a blocked file type changes nothing; and when it reports
    success the file holds the whole upload, which is of an allowed type and
    within the size limit. *)
Theorem upload_confined s uuid r w (Hdir : clean_dir (st_dir s)) (Hmax : 0 <= st_maxSizeMB s) :
  let '(e, w') := Save s uuid r w in
  only_at (st_dir s +:+ "/" +:+ uuid) (sv_disk w) (sv_disk w') /\
  match e with
  | None => plain_name uuid /\ stored_content s r /\
      sv_disk w' = <[st_dir s +:+ "/" +:+ uuid := rd_data r]> (sv_disk w)
  | Some SaveName | Some SaveHeader | Some (SaveBlocked _) | Some SaveCreate => sv_disk w' = sv_disk w
  | _ => True
  end.
Proof.
  unfold Save. destruct (checked_path s uuid) as [dst|] eqn:Hp; [|cbn; by split].
  destruct (checked_path_in s uuid dst Hdir Hp) as [-> Hname].
  cbv zeta. destruct (_ && _); [cbn; by split|].
  destruct (ValidateFileType _) as [t|] eqn:Ht; [cbn; by split|].
  pose proof (save_to_effect s (st_dir s +:+ "/" +:+ uuid) r w Hmax) as H.
  destruct (save_to s _ r w) as [e w']. destruct H as [Honly He]. split; [done|].
  destruct e as [[]|]; try done. destruct He as [-> Hlen].
  split; [exact Hname|]. split; [by split|done].
Qed.

Lemma upload_confined_witness :
  let s := mkStorage "/srv/files" 1 in
  let w0 := mkServer (NewHub (mkSys (mkDb ∅ ∅ ∅ ∅ ∅ ∅ ∅ ∅ ∅ ∅ ∅ ∅ ∅ [] ∅ 1 1 1 1 1 1) [] 0 []) None None [])
    (Cred.NewPartialAuthStore 0) (Cred.NewPendingTOTPStore 0) Limiter.NewRateLimiter ∅
    (NewUpdater "1.0.0" "" "o" "r") [] ∅ [] [] [] in
  let r := mkReader "hello" false in
  clean_dir (st_dir s) /\ (Save s "../etc/passwd" r w0).1 = Some SaveName /\
  sv_disk (Save s "a1" r w0).2 = {["/srv/files/a1" := "hello"]}.
Proof.
  intros s w0 r. assert (Hdir : clean_dir (st_dir s)) by (vm_compute; reflexivity).
  split; [exact Hdir|]. split; [vm_compute; reflexivity|].
  assert (Hmax : 0 <= st_maxSizeMB s) by (simpl; lia).
  pose proof (upload_confined s "a1" r w0 Hdir Hmax) as H.
  destruct (Save s "a1" r w0) as [e w'] eqn:E.
  assert (He : e = None) by (change e with (e, w').1; rewrite <- E; vm_compute; reflexivity).
  subst e. cbn [snd]. destruct H as (_ & _ & _ & ->). vm_compute. reflexivity.
Defined.
