(* ===== verification/LiveKitProcess.v ===== *)
(** * The companion media server

    Model of Server/ws/livekit_process.go. The goroutine that keeps the process
    running is a machine whose steps are what it does between two acquisitions of
    the mutex; calls of [Start] and [Stop] come between them, and so does time.
    Whether the binary can be started and how a process ends are inputs. *)

From S2P Require Import Prelude Permissions RateLimiter GoText Wire Json GoTime Crypto Credentials Rows Store Hub Chat Voice Net LogStream Updater Config Http Storage.
From Stdlib Require Import Ascii.
#[local] Open Scope string_scope.
#[local] Open Scope Z_scope.

Module LiveKitProcess.

(** ** The configuration file *)

(** A carriage return, a line feed, a quote, a backslash. *)
Definition line_or_quote (b : Z) : bool := (b =? 10) || (b =? 13) || (b =? 34) || (b =? 92).
Definition hash_or_brace (b : Z) : bool := (b =? 35) || (b =? 123) || (b =? 125).
(** [true] for a character a credential may not have, and the address of the node. *)
Definition unsafe_credential (b : Z) : bool := line_or_quote b || hash_or_brace b || (b =? 58).
Definition unsafe_ip (b : Z) : bool := line_or_quote b || hash_or_brace b.

Definition nl : string := chr 10 "".
Definition quoted (s : string) : string := chr 34 (s +:+ chr 34 "").
Definition lines_text (l : list string) : string := foldr (fun line rest => line +:+ nl +:+ rest) "" l.

Definition livekit_yaml (node_ip key secret : string) : string :=
  lines_text
    (["# Auto-generated by OwnCord — do not edit manually."; "port: 7880"; ""; "rtc:";
      "  port_range_start: 57000"; "  port_range_end: 60000"; "  use_external_ip: true"] ++
     (if String.eqb node_ip "" then [] else ["  node_ip: " +:+ quoted node_ip]) ++
     ["  pli_throttle:"; "    low_quality: 500ms"; "    mid_quality: 1s"; "    high_quality: 1s"; "";
      "keys:"; "  " +:+ quoted key +:+ ": " +:+ quoted secret; ""; "logging:"; "  level: info"])%list.

Definition config_text (cfg : VoiceConfig) : option string :=
  if existsb unsafe_credential (bytes_of (vc_LiveKitAPIKey cfg)) then None else
  if existsb unsafe_credential (bytes_of (vc_LiveKitAPISecret cfg)) then None else
  if existsb unsafe_ip (bytes_of (vc_NodeIP cfg)) then None else
  Some (livekit_yaml (vc_NodeIP cfg) (vc_LiveKitAPIKey cfg) (vc_LiveKitAPISecret cfg)).

(** The path of the file, or a failure; [partial] is what a failing write leaves. *)
Definition generateConfig (partial : string -> string) (cfg : VoiceConfig) (dataDir : string) : H (option string) :=
  let cfgPath := Join dataDir "livekit.yaml" in
  match config_text cfg with
  | None => mret None
  | Some content =>
      made ← io_ok;
      if negb made then mret None else
      opened ← io_ok;
      if negb opened then mret None else
      written ← io_ok;
      _ ← write_file cfgPath (if written : bool then content else partial content);
      mret (if written : bool then Some cfgPath else None)
  end.

(** The probe succeeds when the request gets any reply. *)
Definition health_url (cfg : VoiceConfig) : string := wsToHTTP (vc_LiveKitURL cfg).
Definition HealthCheck (cfg : VoiceConfig) : H bool :=
  r ← do_get (health_url cfg) None; mret (match r with Some _ => true | None => false end).

(** ** The machine *)

Definition baseDelay : Z := 3 * Second.
Definition maxDelay : Z := 60 * Second.
Definition maxRetries : Z := 10.
Definition stableAfter : Z := 30 * Second.

(** Where the loop is: before the test of the context, before [cmd.Run], in it
    with a live process, after it (and whether there was a process), waiting until a time, ended. *)
Inductive position := AtTop | AtLaunch | AtRunning | AtExited (ran : bool) | AtBackoff (until : Z) | AtEnd.

Record Loop := mkLoop {
  lo_at : position; lo_ctx_done : bool; lo_startTime : Z; lo_rapidFailures : Z; lo_delay : Z }.

(** [p_cmd] and [p_cancel] name the loop they belong to; [p_loopDone] tells
    whether the channel is closed; [p_stopping] are the calls of [Stop] between
    their unlocking and their cancelling. [p_runs] counts the channels [runDone] that
    were made: the last is open while [p_cmd] is set. [p_launched] counts processes started. *)
Record Proc := mkProc {
  p_cmd : option nat; p_cancel : option nat; p_stopped : bool; p_loopDone : option bool;
  p_loops : list Loop; p_stopping : list (option nat); p_now : Z; p_runs : nat; p_launched : Z; p_panic : bool }.

Definition NewLiveKitProcess (now : Z) : Proc := mkProc None None false None [] [] now 0 0 false.

Definition set_loop (i : nat) (l : Loop) (p : Proc) : Proc :=
  mkProc (p_cmd p) (p_cancel p) (p_stopped p) (p_loopDone p) (<[i := l]> (p_loops p)) (p_stopping p)
    (p_now p) (p_runs p) (p_launched p) (p_panic p).
Definition set_cmd (c : option nat) (p : Proc) : Proc :=
  mkProc c (p_cancel p) (p_stopped p) (p_loopDone p) (p_loops p) (p_stopping p) (p_now p) (p_runs p) (p_launched p) (p_panic p).
Definition count_launch (p : Proc) : Proc :=
  mkProc (p_cmd p) (p_cancel p) (p_stopped p) (p_loopDone p) (p_loops p) (p_stopping p) (p_now p) (p_runs p)
    (p_launched p + 1) (p_panic p).
(** The deferred close; closing twice panics. *)
Definition close_loopDone (p : Proc) : Proc :=
  mkProc (p_cmd p) (p_cancel p) (p_stopped p) ((fun _ => true) <$> p_loopDone p) (p_loops p) (p_stopping p)
    (p_now p) (p_runs p) (p_launched p) (p_panic p || default false (p_loopDone p)).

Definition make_runDone (p : Proc) : Proc :=
  mkProc (p_cmd p) (p_cancel p) (p_stopped p) (p_loopDone p) (p_loops p) (p_stopping p) (p_now p)
    (S (p_runs p)) (p_launched p) (p_panic p).

Definition move (l : Loop) (at_ : position) : Loop :=
  mkLoop at_ (lo_ctx_done l) (lo_startTime l) (lo_rapidFailures l) (lo_delay l).
Definition finish (i : nat) (l : Loop) (p : Proc) : Proc := close_loopDone (set_loop i (move l AtEnd) p).

(** After [cmd.Run]: the counters, and whether to wait for the next attempt. *)
Definition after_exit (i : nat) (l : Loop) (p : Proc) : Proc :=
  let p := set_cmd None p in
  if p_stopped p || lo_ctx_done l then finish i l p else
  let stable := stableAfter <? p_now p - lo_startTime l in
  let rapidFailures := if stable then 0 else lo_rapidFailures l + 1 in
  let delay := if stable then baseDelay else lo_delay l in
  let l := mkLoop (lo_at l) (lo_ctx_done l) (lo_startTime l) rapidFailures delay in
  if maxRetries <=? rapidFailures then finish i l p
  else set_loop i (move l (AtBackoff (p_now p + delay))) p.

Definition wake (i : nat) (l : Loop) (p : Proc) : Proc :=
  let delay := lo_delay l * 2 in
  let delay := if maxDelay <? delay then maxDelay else delay in
  set_loop i (mkLoop AtTop (lo_ctx_done l) (lo_startTime l) (lo_rapidFailures l) delay) p.

(** One step of loop [i]. [input] tells at the launch whether the binary can be
    started, and in a wait for a timer and a cancellation that are both ready
    which one the select takes. *)
Definition runLoop_step (i : nat) (input : bool) (p : Proc) : Proc :=
  match p_loops p !! i with
  | None => p
  | Some l =>
      match lo_at l with
      | AtTop =>
          if lo_ctx_done l || p_stopped p then finish i l p
          else make_runDone (set_cmd (Some i) (set_loop i (move l AtLaunch) p))
      | AtLaunch =>
          let l := mkLoop (lo_at l) (lo_ctx_done l) (p_now p) (lo_rapidFailures l) (lo_delay l) in
          if lo_ctx_done l || negb input then set_loop i (move l (AtExited false)) p
          else count_launch (set_loop i (move l AtRunning) p)
      | AtRunning => set_loop i (move l (AtExited true)) p
      | AtExited _ => after_exit i l p
      | AtBackoff until =>
          if (until <=? p_now p) && (input || negb (lo_ctx_done l)) then wake i l p
          else if lo_ctx_done l then finish i l p
          else p
      | AtEnd => p
      end
  end.

(** [Start] with a binary path; [config] tells whether the file could be written. *)
Definition Start (config : bool) (p : Proc) : Proc :=
  match p_cmd p with
  | Some _ => p
  | None =>
      if negb config then p else
      mkProc None (Some (length (p_loops p))) (p_stopped p) (Some false)
        (p_loops p ++ [mkLoop AtTop false 0 0 baseDelay])%list (p_stopping p) (p_now p) (p_runs p) (p_launched p) (p_panic p)
  end.

(** [Stop] up to its unlocking, and the cancelling. *)
Definition Stop_lock (p : Proc) : Proc :=
  mkProc (p_cmd p) (p_cancel p) true (p_loopDone p) (p_loops p) (p_stopping p ++ [p_cancel p])%list
    (p_now p) (p_runs p) (p_launched p) (p_panic p).
Definition Stop_cancel (p : Proc) : Proc :=
  match p_stopping p with
  | [] => p
  | c :: rest =>
      mkProc (p_cmd p) (p_cancel p) (p_stopped p) (p_loopDone p)
        (match c with
         | Some i => alter (fun l => mkLoop (lo_at l) true (lo_startTime l) (lo_rapidFailures l) (lo_delay l)) i (p_loops p)
         | None => p_loops p
         end) rest (p_now p) (p_runs p) (p_launched p) (p_panic p)
  end.

(** [cmd.Process] stays until [p_cmd] is reset. *)
Definition IsRunning (p : Proc) : bool :=
  match p_cmd p with
  | Some i => match p_loops p !! i with Some l => match lo_at l with AtRunning => true | AtExited ran => ran | _ => false end | None => false end
  | None => false
  end.

Inductive pevent := PStep (input : bool) | PTime (d : Z) | PStopLock | PStopCancel.

(** What happens to the one loop the router starts. *)
Definition run_pevent (p : Proc) (e : pevent) : Proc :=
  match e with
  | PStep input => runLoop_step 0 input p
  | PTime d => mkProc (p_cmd p) (p_cancel p) (p_stopped p) (p_loopDone p) (p_loops p) (p_stopping p)
                 (p_now p + Z.max 0 d) (p_runs p) (p_launched p) (p_panic p)
  | PStopLock => Stop_lock p
  | PStopCancel => Stop_cancel p
  end.
Definition run_proc (es : list pevent) (p : Proc) : Proc := foldl run_pevent p es.

(** ** The waits of a stop *)

(** Where the call is: waiting for the channel [runDone] it read, or for
    [loopDone], each until a time; or it has returned. *)
Inductive stop_at := WaitRun (run : nat) (until : Z) | WaitLoop (until : Z) | StopReturned.
Record StopCall := mkStop { sc_at : stop_at; sc_done : option nat; sc_loopDone : bool; sc_killed : bool }.

Definition stopWait : Z := 5 * Second.

(** What the call reads under the mutex: the two channels. *)
Definition Stop_read (p : Proc) : option nat * bool :=
  ((fun _ => p_runs p) <$> p_cmd p, bool_decide (is_Some (p_loopDone p))).
Definition runDone_closed (run : nat) (p : Proc) : bool := negb (bool_decide (is_Some (p_cmd p)) && (p_runs p =? run)%nat).

Definition wait_loopDone (killed : bool) (c : StopCall) (p : Proc) : StopCall :=
  mkStop (if sc_loopDone c then WaitLoop (p_now p + stopWait) else StopReturned) (sc_done c) (sc_loopDone c) killed.

(** From the cancelling on. *)
Definition Stop_wait (read : option nat * bool) (p : Proc) : StopCall :=
  let c := mkStop StopReturned read.1 read.2 false in
  match sc_done c with
  | Some run => mkStop (WaitRun run (p_now p + stopWait)) (sc_done c) (sc_loopDone c) false
  | None => wait_loopDone false c p
  end.

(** [input] tells which case a select with two ready ones takes. A killed process
    ends, which is a step of the loop. *)
Definition Stop_step (input : bool) (c : StopCall) (p : Proc) : StopCall :=
  match sc_at c with
  | WaitRun run until =>
      let timeout := until <=? p_now p in
      if runDone_closed run p && (input || negb timeout) then wait_loopDone false c p
      else if timeout then wait_loopDone true c p else c
  | WaitLoop until =>
      if default false (p_loopDone p) || (until <=? p_now p)
      then mkStop StopReturned (sc_done c) (sc_loopDone c) (sc_killed c) else c
  | StopReturned => c
  end.

(** The call among the other events. *)
Definition run_stop_event (cp : StopCall * Proc) (e : pevent + bool) : StopCall * Proc :=
  match e with inl e => (cp.1, run_pevent cp.2 e) | inr input => (Stop_step input cp.1 cp.2, cp.2) end.
Definition run_stop (es : list (pevent + bool)) (cp : StopCall * Proc) : StopCall * Proc := foldl run_stop_event cp es.

(** As [NewRouter] starts it. *)
Definition started (now : Z) : Proc := Start true (NewLiveKitProcess now).

(** ** The invariant of one loop *)

Definition in_flight (a : position) : bool := match a with AtLaunch | AtRunning | AtExited _ => true | _ => false end.
Definition at_end (a : position) : bool := match a with AtEnd => true | _ => false end.
(** A process has been started whose end has not been counted. *)
Definition uncounted (a : position) : Z := match a with AtRunning | AtExited true => 1 | _ => 0 end.
(** The most that can have been started since the last stable run. *)
Definition budget (l : Loop) : Z :=
  match lo_at l with AtEnd => maxRetries | a => lo_rapidFailures l + uncounted a end.
(** The clock reading the stable runs so far came before. *)
Definition reference (l : Loop) (now : Z) : Z :=
  match lo_at l with AtRunning | AtExited _ => lo_startTime l | _ => now end.

(** The context of the loop is done. *)
Definition cancelled (p : Proc) : bool := forallb lo_ctx_done (p_loops p).

(** [stable] counts the runs longer than [stableAfter]. *)
Record loop_ok (t0 : Z) (p : Proc) (l : Loop) (stable : Z) : Prop := {
  ok_rapid : 0 <= lo_rapidFailures l <= maxRetries;
  ok_more : lo_rapidFailures l < maxRetries \/ lo_at l = AtEnd;
  ok_delay : baseDelay <= lo_delay l <= maxDelay;
  ok_cmd : p_cmd p = if in_flight (lo_at l) then Some 0%nat else None;
  ok_done : p_loopDone p = Some (at_end (lo_at l));
  ok_cancelled : lo_ctx_done l = true -> p_stopped p = true;
  ok_stable : 0 <= stable;
  ok_time : t0 + stable * stableAfter <= reference l (p_now p) /\ reference l (p_now p) <= p_now p;
  ok_launched : 0 <= p_launched p <= budget l + maxRetries * stable }.

Record proc_ok (t0 : Z) (p : Proc) : Prop := {
  po_loop : exists l stable, p_loops p = [l] /\ loop_ok t0 p l stable;
  po_cancel : p_cancel p = Some 0%nat;
  po_stopping : Forall (fun c => c = Some 0%nat) (p_stopping p);
  po_stopped : p_stopping p <> [] -> p_stopped p = true;
  po_pending : p_stopped p = true -> p_stopping p <> [] \/ cancelled p = true;
  po_panic : p_panic p = false }.

Lemma started_ok now : proc_ok now (started now).
Proof.
  split; simpl; try done. exists (mkLoop AtTop false 0 0 baseDelay), 0. split; [done|].
  split; simpl; unfold maxRetries, baseDelay, maxDelay, Second, ns_per_sec, reference; simpl; try done; lia || (left; lia).
Qed.

(** Proves the invariant of an explicit next state with [k] stable runs. *)
Ltac next_ok k :=
  split; [eexists _, k; split; [reflexivity|]|done..];
  split; unfold reference, budget, maxRetries, baseDelay, maxDelay, stableAfter, Second, ns_per_sec in *; simpl in *; try done; try lia; try (by left; lia); try (by right).

Lemma step_proc_ok t0 input p : proc_ok t0 p -> proc_ok t0 (runLoop_step 0 input p).
Proof.
  intros [(l & k & Hl & Hok) Hcan Hst Hstd Hpend Hp]. unfold runLoop_step. rewrite Hl. simpl.
  destruct p as [cmd can std dn ls stg now rn n pan]. destruct l as [a ctx st rap dl]. simpl in *. subst ls can pan.
  destruct Hok as [H1 H2 H3 H4 H5 H6 H7 H8 H9]. simpl in *. subst cmd dn.
  unfold budget, maxRetries, baseDelay, maxDelay, stableAfter, Second, ns_per_sec in *.
  destruct a as [| | |ran|until|]; simpl in *; (destruct H2 as [H2|H2]; [|try discriminate H2]).
  - destruct (ctx || std) eqn:E; next_ok k.
  - destruct (ctx || negb input) eqn:E; next_ok k.
  - next_ok k.
  - unfold after_exit. simpl. destruct (std || ctx) eqn:E; [next_ok k; destruct ran; lia|].
    unfold stableAfter, maxRetries, baseDelay, Second, ns_per_sec.
    destruct (Z.ltb_spec (30 * 1000000000) (now - st)).
    + change (10 <=? 0) with false. next_ok (k + 1); destruct ran; lia.
    + destruct (Z.leb_spec 10 (rap + 1)); next_ok k; destruct ran; lia.
  - destruct ((until <=? now) && _) eqn:E.
    + unfold wake, maxDelay, Second, ns_per_sec. simpl. destruct (Z.ltb_spec (60 * 1000000000) (dl * 2)); next_ok k.
    + destruct ctx; next_ok k.
  - next_ok k.
  - next_ok k.
Qed.

Lemma event_proc_ok t0 e p : proc_ok t0 p -> proc_ok t0 (run_pevent p e).
Proof.
  destruct e as [input|d| |]; [apply step_proc_ok|..];
    intros [(l & k & Hl & Hok) Hcan Hst Hstd Hpend Hp]; destruct p as [cmd can std dn ls stg now rn n pan];
    destruct l as [a ctx st rap dl]; simpl in *; subst ls can pan;
    destruct Hok as [H1 H2 H3 H4 H5 H6 H7 H8 H9]; simpl in *; subst cmd dn.
  - split; [eexists _, k; split; [reflexivity|]|done..].
    split; unfold reference, budget, maxRetries, baseDelay, maxDelay, stableAfter, Second, ns_per_sec in *; simpl in *; try done; destruct a; lia.
  - split; [eexists _, k; split; [reflexivity|]|done|..|done]; simpl; try done.
    + apply Forall_app. by split; [|apply Forall_singleton].
    + intros _. left. by destruct stg.
  - unfold Stop_cancel. simpl. destruct stg as [|c stg]; [split; [by exists (mkLoop a ctx st rap dl), k|done..]|].
    apply Forall_cons in Hst as [-> Hst]. assert (Hs : std = true) by by apply Hstd.
    split; [eexists _, k; split; [reflexivity|by split]|done|done|done|by right|done].
Qed.

Lemma run_proc_ok t0 es p : proc_ok t0 p -> proc_ok t0 (run_proc es p).
Proof. revert p. induction es as [|e es IH]; intros p Hp; [done|]. by apply IH, event_proc_ok. Qed.

Lemma budget_le t0 p l k : loop_ok t0 p l k -> budget l <= maxRetries.
Proof.
  intros [_ H _ _ _ _ _ _ _]. unfold budget, uncounted.
  destruct (lo_at l) eqn:E; try (destruct H as [H|H]; [|discriminate H]); repeat case_match; lia.
Qed.

(** ** After a stop *)

Lemma step_stopped input p : p_stopped (runLoop_step 0 input p) = p_stopped p.
Proof. unfold runLoop_step, after_exit, finish, wake. repeat case_match; done. Qed.

Lemma run_stopped es p : p_stopped p = true -> p_stopped (run_proc es p) = true.
Proof.
  revert p. induction es as [|e es IH]; intros p Hp; [done|]. apply IH.
  destruct e; simpl; [by rewrite step_stopped|done|done|]. unfold Stop_cancel. by case_match.
Qed.

Lemma cancel_cancels t0 p : proc_ok t0 p -> p_stopped p = true -> cancelled (Stop_cancel p) = true.
Proof.
  intros [(l & k & Hl & _) _ Hst _ Hpend _] Hs. unfold Stop_cancel, cancelled in *. rewrite Hl in *.
  destruct (p_stopping p) as [|c stg] eqn:E.
  - destruct (Hpend Hs) as [?|Hc]; [done|]. by rewrite Hl.
  - apply Forall_cons in Hst as [-> _]. done.
Qed.

(** No process is started once the context is done. *)
Lemma event_cancelled t0 e p : proc_ok t0 p -> cancelled p = true ->
  cancelled (run_pevent p e) = true /\ p_launched (run_pevent p e) = p_launched p.
Proof.
  intros [(l & k & Hl & _) _ Hst _ _ _] Hc. destruct p as [cmd can std dn ls stg now rn n pan]. simpl in *. subst ls.
  destruct l as [a ctx st rap dl]. unfold cancelled in *. simpl in Hc. destruct ctx; [|done].
  destruct e as [input|d| |]; simpl; try done.
  - unfold runLoop_step, after_exit, finish, wake. simpl. destruct a; simpl; try done.
    + by rewrite orb_true_r.
    + by repeat case_match.
  - unfold Stop_cancel. simpl. destruct stg as [|c stg]; [done|]. apply Forall_cons in Hst as [-> _]. done.
Qed.

Lemma run_cancelled t0 es p : proc_ok t0 p -> cancelled p = true ->
  p_launched (run_proc es p) = p_launched p.
Proof.
  revert p. induction es as [|e es IH]; intros p Hp Hc; [done|].
  destruct (event_cancelled t0 e p Hp Hc) as [Hc' <-]. apply IH; [by apply event_proc_ok|done].
Qed.

(** Two steps of the loop end it. *)
Lemma cancelled_ends t0 p i j : proc_ok t0 p -> cancelled p = true ->
  p_loopDone (run_proc [PStep i; PStep j] p) = Some true.
Proof.
  intros [(l & k & Hl & Hok) _ _ _ _ _] Hc. destruct p as [cmd can std dn ls stg now rn n pan]. simpl in *. subst ls.
  destruct l as [a ctx st rap dl]. unfold cancelled in *. simpl in Hc. destruct ctx; [|done].
  destruct Hok as [_ _ _ _ Hdn _ _ _ _]. simpl in Hdn. subst dn.
  unfold runLoop_step, after_exit, finish, wake. simpl. destruct a as [| | |ran|until|]; simpl; try done.
  - by rewrite orb_true_r.
  - by rewrite orb_true_r.
  - by rewrite orb_true_r.
  - destruct (until <=? now), i; simpl; by rewrite ?orb_true_r.
Qed.

(** ** The waits of a stop *)

Lemma step_now i input p : p_now (runLoop_step i input p) = p_now p.
Proof. unfold runLoop_step, after_exit, finish, wake. repeat case_match; done. Qed.
Lemma event_now e p : p_now p <= p_now (run_pevent p e).
Proof. destruct e; simpl; [by rewrite step_now|lia|done|]. unfold Stop_cancel. by case_match. Qed.

(** The end of the loop is its end. *)
Lemma event_loopDone t0 e p : proc_ok t0 p -> p_loopDone p = Some true -> p_loopDone (run_pevent p e) = Some true.
Proof.
  intros [(l & k & Hl & Hok) _ _ _ _ _] Hd. destruct Hok as [_ _ _ _ Hdn _ _ _ _]. rewrite Hd in Hdn.
  destruct e; simpl; try done.
  - unfold runLoop_step. rewrite Hl. simpl. by destruct (lo_at l).
  - unfold Stop_cancel. by case_match.
Qed.

(** Time can pass between the two waits and in them, and a call that has
    returned saw the end of the loop or has waited. *)
Definition stop_ok (since : Z) (c : StopCall) (p : Proc) : Prop :=
  since <= p_now p /\ sc_loopDone c = true /\
  match sc_at c with
  | WaitRun _ until | WaitLoop until => since + stopWait <= until
  | StopReturned => p_loopDone p = Some true \/ since + stopWait <= p_now p
  end.

Lemma wait_loopDone_ok since k c p : since <= p_now p -> sc_loopDone c = true -> stop_ok since (wait_loopDone k c p) p.
Proof. intros Hs Hl. unfold wait_loopDone, stop_ok. simpl. rewrite Hl. simpl. lia. Qed.

Lemma Stop_wait_ok t0 p0 p : proc_ok t0 p0 -> stop_ok (p_now p) (Stop_wait (Stop_read p0) p) p.
Proof.
  intros [(l & k & _ & Hok) _ _ _ _ _]. unfold Stop_wait, Stop_read. rewrite (ok_done _ _ _ _ Hok). simpl.
  destruct (p_cmd p0); simpl; [split; simpl; [lia|by split]|]. by apply wait_loopDone_ok.
Qed.

Lemma stop_event_ok t0 since e c p : proc_ok t0 p -> stop_ok since c p ->
  let '(c', p') := run_stop_event (c, p) e in proc_ok t0 p' /\ stop_ok since c' p'.
Proof.
  intros Hp (Hs & Hl & Hc). destruct e as [e|input]; simpl.
  - split; [by apply event_proc_ok|]. pose proof (event_now e p). split; [lia|]. split; [done|].
    destruct (sc_at c); [done..|]. destruct Hc as [Hc|Hc]; [left; by eapply event_loopDone|right; lia].
  - split; [done|]. unfold Stop_step. destruct (sc_at c) as [run until|until|] eqn:Hat.
    + repeat case_match; try by apply wait_loopDone_ok. split; [done|]. by rewrite Hat.
    + case_match eqn:E; [|split; [done|]; by rewrite Hat]. split; [done|]. split; [done|]. simpl.
      apply orb_true_iff in E as [E|E]; [left; by destruct (p_loopDone p) as [[]|]|right; lia].
    + split; [done|]. by rewrite Hat.
Qed.

Lemma run_stop_ok t0 since es c p : proc_ok t0 p -> stop_ok since c p ->
  stop_ok since (run_stop es (c, p)).1 (run_stop es (c, p)).2.
Proof.
  revert c p. induction es as [|e es IH]; intros c p Hp Hc; [done|]. simpl.
  destruct (run_stop_event (c, p) e) as [c' p'] eqn:E. pose proof (stop_event_ok t0 since e c p Hp Hc) as H.
  rewrite E in H. destruct H. by apply IH.
Qed.

(** Two waits of [stopWait] are enough. *)
Lemma stop_returns c p d d' i j : sc_at c = WaitLoop (p_now p + stopWait) \/ sc_at c = StopReturned \/
    (exists run, sc_at c = WaitRun run (p_now p + stopWait)) -> stopWait <= d -> stopWait <= d' ->
  sc_at (run_stop [inl (PTime d); inr i; inl (PTime d'); inr j] (c, p)).1 = StopReturned.
Proof.
  intros Hc Hd Hd'. assert (0 < stopWait) by done. unfold run_stop, run_stop_event. cbn [foldl fst snd].
  unfold Stop_step at 2. destruct Hc as [->|[Hr|[run ->]]].
  - cbn [p_now run_pevent]. rewrite (proj2 (Z.leb_le _ _)) by lia. by rewrite orb_true_r.
  - unfold Stop_step. by rewrite !Hr.
  - cbn [p_now run_pevent]. rewrite (proj2 (Z.leb_le _ _)) by lia.
    unfold wait_loopDone. destruct (_ && _); unfold Stop_step; simpl; (destruct (sc_loopDone c); [|done]);
      rewrite (proj2 (Z.leb_le _ _)) by (simpl; lia); by rewrite orb_true_r.
Qed.

Lemma Stop_wait_at read p : let c := Stop_wait read p in
  sc_at c = WaitLoop (p_now p + stopWait) \/ sc_at c = StopReturned \/ exists run, sc_at c = WaitRun run (p_now p + stopWait).
Proof. unfold Stop_wait, wait_loopDone. simpl. destruct (read.1); simpl; [eauto|]. destruct (read.2); simpl; eauto. Qed.

End LiveKitProcess.
Export LiveKitProcess.

(** C40: the media server is supervised within bounds and a stop is final. As the
    router starts the loop, whatever the processes do, however time passes and
    whenever [Stop] is called: no channel is closed twice; at most ten processes
    are started for each thirty seconds that have passed, and ten more; the
    count of rapid failures and the delay keep their limits. Once [Stop] has
    cancelled the context no process is ever started again, and two steps of
    the loop end it. A call of [Stop] that waits returns after two waits of five
    seconds at the latest; and unless five seconds have passed it only returns
    when the loop has ended. *)
Theorem livekit_supervised now es es' :
  let p := run_proc es (started now) in
  let q := run_pevent (run_proc (es ++ PStopLock :: es') (started now)) PStopCancel in
  p_panic p = false /\
  p_launched p <= maxRetries * (1 + (p_now p - now) / stableAfter) /\
  Forall (fun l => 0 <= lo_rapidFailures l <= maxRetries /\ baseDelay <= lo_delay l <= maxDelay) (p_loops p) /\
  (forall later, p_launched (run_proc later q) = p_launched q) /\
  (forall i j, p_loopDone (run_proc [PStep i; PStep j] q) = Some true) /\
  (let call := Stop_wait (Stop_read p) q in
   (forall d d' i j, stopWait <= d -> stopWait <= d' ->
      sc_at (run_stop [inl (PTime d); inr i; inl (PTime d'); inr j] (call, q)).1 = StopReturned) /\
   forall later, let '(c, r) := run_stop later (call, q) in
     sc_at c = StopReturned -> p_loopDone r = Some true \/ p_now q + stopWait <= p_now r).
Proof.
  intros p q. assert (Hp : proc_ok now p) by apply run_proc_ok, started_ok.
  set (q0 := run_proc (es ++ PStopLock :: es') (started now)).
  assert (Hq0 : proc_ok now q0) by apply run_proc_ok, started_ok.
  assert (Hs : p_stopped q0 = true).
  { unfold q0, run_proc. rewrite foldl_app. simpl. by apply run_stopped. }
  assert (Hq : proc_ok now q) by by apply event_proc_ok.
  assert (Hc : cancelled q = true) by by eapply cancel_cancels.
  split; [apply Hp|]. pose proof Hp as Hp0. destruct Hp as [(l & k & Hl & Hok) _ _ _ _ _].
  pose proof (budget_le _ _ _ _ Hok). destruct Hok. split.
  - assert (k <= (p_now p - now) / stableAfter); [|unfold maxRetries in *; lia].
    apply Z.div_le_lower_bound; [done|]. lia.
  - split; [rewrite Hl; by apply Forall_singleton|].
    split; [intros later; by eapply run_cancelled|]. split; [intros i j; by eapply cancelled_ends|].
    intros call. split; [intros d d' i j; apply stop_returns, Stop_wait_at|]. intros later.
    pose proof (run_stop_ok now (p_now q) later call q Hq (Stop_wait_ok now p q Hp0)) as H'.
    destruct (run_stop later (call, q)) as [c r]. destruct H' as (_ & _ & H'). intros E. simpl in H'. by rewrite E in H'.
Qed.

(** A binary that fails at once is tried ten times, with the delays of the
    documentation. *)
Definition attempt_once (delay : Z) : list pevent := [PStep true; PStep true; PStep true; PStep true; PTime (delay * Second); PStep true].
Example gives_up :
  let p := run_proc (attempt_once 3 ++ attempt_once 6 ++ attempt_once 12 ++ attempt_once 24 ++ attempt_once 48 ++
    attempt_once 60 ++ attempt_once 60 ++ attempt_once 60 ++ attempt_once 60 ++ attempt_once 60) (started 0) in
  p_launched p = 10 /\ lo_at <$> p_loops p = [AtEnd].
Proof. vm_compute. done. Qed.

(** [Start] looks at the process, not at the loop: called again in a wait it makes
    a second loop, and the two close one channel. The router calls it once. *)
Example second_start :
  let waiting := run_proc [PStep true; PStep false; PStep true] (started 0) in
  let both := run_proc [PStopLock; PStopCancel] (Start true waiting) in
  let p := runLoop_step 1 true (runLoop_step 0 true (run_proc [PTime (3 * Second); PStep true] both)) in
  length (p_loops p) = 2%nat /\ p_panic p = true.
Proof. vm_compute. done. Qed.
