(* ===== verification/LiveKitProxy.v ===== *)
(** * The proxy to the media server

    Model of Server/api/livekit_proxy.go: what the handler decides for a request,
    as the list of what it then does. net/url's parser, the reverse proxy and the
    WebSocket library are parameters: the parsed URL, and whether the dial and the
    handshake succeed. *)

From S2P Require Import Prelude GoText Wire Json GoTime Crypto Net Updater.
#[local] Open Scope string_scope.
#[local] Open Scope Z_scope.

Module LiveKitProxy.

(** The fields of [url.URL] the code touches. *)
Record Url := mkUrl { ur_Scheme : string; ur_Host : string; ur_Path : string; ur_RawQuery : string }.

Definition set_scheme (s : string) (u : Url) : Url := mkUrl s (ur_Host u) (ur_Path u) (ur_RawQuery u).

Record ProxyRequest := mkProxyRequest {
  pq_Path : string; pq_RawQuery : string;
  pq_Connection : list string; pq_Upgrade : string; pq_Origin : string; pq_Protocols : list string }.

(** What the handler does: forwards the request with this URL; replies; opens a
    WebSocket to the back end, accepts the client's with these origins, copies
    messages both ways. *)
Inductive action :=
| AForward (u : Url) | AReply (status : Z) (error message : string)
| ADial (u : Url) (protocols : list string) | AAccept (origins : list string) | ACopy.

Definition access_denied : action := AReply 403 "FORBIDDEN" "access denied".

Section proxy.
Context (parse : string -> option Url) (livekitURL : string) (allowedOrigins : list string).

Definition target : Url := default (mkUrl "http" "localhost:7880" "" "") (parse livekitURL).
Definition httpTarget : Url :=
  if String.eqb (ur_Scheme target) "ws" then set_scheme "http" target
  else if String.eqb (ur_Scheme target) "wss" then set_scheme "https" target
  else target.
Definition wsTarget : Url :=
  if String.eqb (ur_Scheme target) "http" then set_scheme "ws" target
  else if String.eqb (ur_Scheme target) "https" then set_scheme "wss" target
  else target.

(** The director of the reverse proxy. *)
Definition Director (r : ProxyRequest) : Url :=
  mkUrl (ur_Scheme httpTarget) (ur_Host httpTarget) (pq_Path r) (pq_RawQuery r).

Definition blockedSegments : list string := ["admin"; "metrics"; "debug"; "twirp"].
Definition segments (path : string) : list string := string_of <$> split 47 (to_lower (bytes_of path)).
Definition blocked (path : string) : bool :=
  existsb (fun seg => existsb (String.eqb seg) blockedSegments) (segments path).

(** The first Connection header that says "upgrade" makes the Upgrade header decide. *)
Definition isWebSocketUpgrade (r : ProxyRequest) : bool :=
  existsb (fun v => EqualFold (TrimSpace v) "upgrade") (pq_Connection r) && EqualFold (pq_Upgrade r) "websocket".

Definition isOriginAllowed (r : ProxyRequest) : bool :=
  if String.eqb (pq_Origin r) "" then true
  else existsb (fun pattern => String.eqb pattern "*" || EqualFold (pq_Origin r) pattern) allowedOrigins.

Definition proxyWebSocket (dialled accepted : bool) (r : ProxyRequest) : list action :=
  ADial (mkUrl (ur_Scheme wsTarget) (ur_Host wsTarget) (pq_Path r) (pq_RawQuery r)) (pq_Protocols r) ::
  if negb dialled then [AReply 502 "BAD_GATEWAY" "backend unavailable"]
  else AAccept allowedOrigins :: if accepted then [ACopy] else [].

Definition proxy (dialled accepted : bool) (r : ProxyRequest) : list action :=
  if isWebSocketUpgrade r then proxyWebSocket dialled accepted r
  else if blocked (pq_Path r) then [access_denied]
  else if negb (isOriginAllowed r) then [access_denied]
  else [AForward (Director r)].

(** One direction of the copy: the messages read until a read or a write fails,
    each written before the next is read. *)
Fixpoint copyWS (reads : list (option string)) (writes : list bool) : list string :=
  match reads, writes with
  | Some m :: reads, true :: writes => m :: copyWS reads writes
  | _, _ => []
  end.

(** ** What reaches the media server *)

(** A plain request goes on exactly when its path has no blocked segment and its
    origin is allowed; it keeps its path and its query, and goes to the host of
    the configuration. *)
Theorem plain_request_guarded dialled accepted r u (Hplain : isWebSocketUpgrade r = false) :
  AForward u ∈ proxy dialled accepted r <->
  blocked (pq_Path r) = false /\ isOriginAllowed r = true /\
  u = mkUrl (ur_Scheme httpTarget) (ur_Host target) (pq_Path r) (pq_RawQuery r).
Proof.
  assert (Hh : ur_Host httpTarget = ur_Host target) by (unfold httpTarget; repeat case_match; done).
  unfold proxy, access_denied, Director. rewrite Hplain, Hh.
  destruct (blocked (pq_Path r)), (isOriginAllowed r); simpl; set_solver.
Qed.

(** Without an Origin nothing is denied; with one, an empty list denies all. *)
Lemma no_origins_denies r : pq_Origin r <> "" -> allowedOrigins = [] -> isOriginAllowed r = false.
Proof. intros Ho E. unfold isOriginAllowed. rewrite E. by destruct (String.eqb_spec (pq_Origin r) ""). Qed.

Lemma copyWS_prefix reads writes : copyWS reads writes `prefix_of` omap id reads.
Proof.
  revert writes. induction reads as [|[m|] reads IH]; intros [|[] writes]; simpl; try apply prefix_nil.
  by apply prefix_cons.
Qed.

End proxy.

(** An upgrade skips both tests: the back end is dialled with a blocked path. *)
Example upgrade_unguarded :
  let r := mkProxyRequest "/twirp/x" "" ["Upgrade"] "websocket" "https://elsewhere" [] in
  proxy (fun _ => None) "ws://localhost:7880" ["https://chat"] true true r =
    [ADial (mkUrl "ws" "localhost:7880" "/twirp/x" "") []; AAccept ["https://chat"]; ACopy].
Proof. vm_compute. reflexivity. Qed.

End LiveKitProxy.
Export LiveKitProxy.
