(* ===== verification/Status.v ===== *)
(** * Status endpoints and the LiveKit client

    Model of the client of Server/ws/livekit.go, of the health, information and
    diagnostics handlers of Server/api/router.go and diagnostics_handler.go, of
    metrics_handler.go, and of the two middlewares of router.go that only label
    and log. The room service of LiveKit is an interface; the runtime's figures,
    the text of a float64 in JSON and net/url's parser are parameters. *)

From S2P Require Import Prelude Permissions RateLimiter GoText Wire Json GoTime Crypto Credentials Rows Store Hub Chat Voice Net LogStream Updater Config Http AuthApi RestApi LiveKitProxy.
#[local] Open Scope string_scope.
#[local] Open Scope Z_scope.

Module Status.

(** ** livekit.go *)

Record LiveKitClient := mkClient {
  lk_apiKey : string; lk_apiSecret : string; lk_url : string; lk_httpURL : string }.

Inductive client_error := LkNoCredentials | LkNoURL | LkDefaultCredentials.

Definition NewLiveKitClient (cfg : VoiceConfig) : result client_error LiveKitClient :=
  if String.eqb (vc_LiveKitAPIKey cfg) "" || String.eqb (vc_LiveKitAPISecret cfg) "" then inl LkNoCredentials else
  if String.eqb (vc_LiveKitURL cfg) "" then inl LkNoURL else
  if IsDefaultVoiceCredentials cfg then inl LkDefaultCredentials else
  inr (mkClient (vc_LiveKitAPIKey cfg) (vc_LiveKitAPISecret cfg) (vc_LiveKitURL cfg) (wsToHTTP (vc_LiveKitURL cfg))).

Inductive track_type := TrackAudio | TrackVideo | TrackData.
Record ParticipantInfo := mkParticipant { pi_Identity : string; pi_Tracks : list track_type }.

(** What LiveKit's room service answers, or the text of its error. *)
Class RoomService := {
  rs_ListParticipants : string -> result string (list ParticipantInfo);
  rs_ListRooms : result string unit }.

Section client.
Context {svc : RoomService}.

Definition ListParticipants (channelID : Z) : result string (list ParticipantInfo) :=
  match rs_ListParticipants (RoomName channelID) with
  | inl e => inl ("livekit: listing participants in " +:+ RoomName channelID +:+ ": " +:+ e)
  | inr l => inr l
  end.

Definition is_video (t : track_type) : bool := match t with TrackVideo => true | _ => false end.

Definition CountVideoTracks (channelID : Z) : result string Z :=
  match ListParticipants channelID with
  | inl e => inl e
  | inr participants =>
      inr (foldl (fun count p => foldl (fun count t => if is_video t then count + 1 else count) count (pi_Tracks p))
             0 participants)
  end.

Definition HealthCheck : bool * option string :=
  match rs_ListRooms with
  | inl e => (false, Some ("livekit health check failed: " +:+ e))
  | inr _ => (true, None)
  end.

(** hub.go *)
Definition LiveKitHealthCheck : M (bool * option string) :=
  lk ← gets w_livekit;
  mret (match lk with None => (false, Some "not configured") | Some _ => HealthCheck end).
End client.

(** ** router.go: health and information *)

(** [int64(time.Since(start).Seconds())], exact while the uptime is below 2^23
    seconds; [now] is read when the handler runs. *)
Definition uptime (start now : Z) : Z := Z.quot (now - start) Second.

Definition handleHealth (ver : string) (start : Z) : handler := fun _ =>
  now ← clock;
  online ← hub ClientCount;
  respond 200 (JObj [("status", JStr "ok"); ("version", JStr ver); ("uptime", JInt (uptime start now));
    ("online_users", JInt (Z.of_nat online))]).

Definition handleInfo (cfg : Config) (ver : string) : handler := fun _ =>
  respond 200 (JObj [("name", JStr (sc_Name (cfg_Server cfg))); ("version", JStr ver)]).

Section livekit.
Context {svc : RoomService}.

Definition livekitHealthResponse (status : string) (reachable : bool) (error : string) : json :=
  JObj ([("status", JStr status); ("livekit_reachable", JBool reachable)] ++
        if String.eqb error "" then [] else [("error", JStr error)])%list.

Definition handleLiveKitHealth : handler := fun _ =>
  x ← hub LiveKitHealthCheck;
  let '(ok, err) := x in
  if ok : bool then respond 200 (livekitHealthResponse "ok" true "")
  else respond 503 (livekitHealthResponse "degraded" false (default "unknown" err)).

(** ** diagnostics_handler.go *)

Definition privatePrefixes : list string :=
  ["10."; "172.16."; "172.17."; "172.18."; "172.19."; "172.20."; "172.21."; "172.22."; "172.23."; "172.24.";
   "172.25."; "172.26."; "172.27."; "172.28."; "172.29."; "172.30."; "172.31."; "192.168."; "127."; "::1"; "fc"; "fd"].
Definition isPrivateIP (ip : string) : bool := existsb (fun prefix => HasPrefix ip prefix) privatePrefixes.

Definition omitempty (k v : string) : list (string * json) := if String.eqb v "" then [] else [(k, JStr v)].

(** Only the host of the URL is shown. *)
Definition sanitizedLKURL (parse : string -> option Url) (livekitURL : string) : string :=
  if String.eqb livekitURL "" then "" else
  match parse livekitURL with Some u => ur_Host u | None => "" end.

Definition handleDiagnosticsConnectivity (parse : string -> option Url) (goVersion : string) (cfg : Config)
    (ver : string) (start : Z) : handler := fun r =>
  let clientAddr := clientIP r in
  health ← hub LiveKitHealthCheck;
  now ← clock;
  online ← hub ClientCount;
  let url := vc_LiveKitURL (cfg_Voice cfg) in
  respond 200 (JObj [
    ("server", JObj [("version", JStr ver); ("uptime_s", JInt (uptime start now)); ("go_version", JStr goVersion);
                     ("online_users", JInt (Z.of_nat online))]);
    ("voice", JObj ([("enabled", JBool (negb (String.eqb url "")))] ++ omitempty "livekit_url" (sanitizedLKURL parse url)
       ++ [("livekit_health", JBool health.1)] ++ omitempty "node_ip" (vc_NodeIP (cfg_Voice cfg))
       ++ [("proxy_path", JStr "/livekit")])%list);
    ("client", JObj [("remote_addr", JStr clientAddr); ("is_private_network", JBool (isPrivateIP clientAddr))])]).
Definition diagnostics_route (parse : string -> option Url) (goVersion : string) (cfg : Config) (ver : string)
    (start : Z) : handler :=
  AuthMiddleware (handleDiagnosticsConnectivity parse goVersion cfg ver start).

(** ** metrics_handler.go *)

(** The figures of the runtime. *)
Record MemStats := mkMem { mm_Goroutines : Z; mm_HeapAlloc : Z; mm_HeapSys : Z; mm_NumGC : Z }.

(** [time.Duration.String] of a whole number of seconds. *)
Definition duration_text (secs : Z) : string :=
  let h := secs / 3600 in
  let m := secs / 60 mod 60 in
  (if 0 <? h then itoa h +:+ "h" +:+ itoa m +:+ "m"
   else if 0 <? m then itoa m +:+ "m" else "") +:+ itoa (secs mod 60) +:+ "s".

(** [float_text n d]: the JSON text of the float64 nearest to [n / d]. *)
Definition handleMetrics (float_text : Z -> Z -> string) (mem : MemStats) (start : Z) : handler := fun _ =>
  now ← clock;
  connected ← hub ClientCount;
  voice ← hub VoiceSessionCount;
  health ← hub LiveKitHealthCheck;
  respond 200 (JObj [
    ("uptime", JStr (duration_text ((now - start) / Second)));
    ("uptime_seconds", JNum (float_text (now - start) Second));
    ("goroutines", JInt (mm_Goroutines mem));
    ("heap_alloc_mb", JNum (float_text (mm_HeapAlloc mem) (1024 * 1024)));
    ("heap_sys_mb", JNum (float_text (mm_HeapSys mem) (1024 * 1024)));
    ("num_gc", JInt (mm_NumGC mem));
    ("connected_users", JInt (Z.of_nat connected)); ("voice_sessions", JInt (Z.of_nat voice));
    ("livekit_healthy", JBool health.1)]).
Definition metrics_route (float_text : Z -> Z -> string) (adminCIDRs : list string) (mem : MemStats) (start : Z) : handler :=
  AdminIPRestrict adminCIDRs (handleMetrics float_text mem start).
Definition livekit_health_route (adminCIDRs : list string) : handler := AdminIPRestrict adminCIDRs handleLiveKitHealth.
End livekit.

(** ** router.go: labels and log *)

Definition setRequestIDHeader (requestID : string) (next : handler) : handler := fun r =>
  rs ← next r;
  mret (if String.eqb requestID "" then rs
        else add_headers [("X-Request-Id", requestID)] rs).

(** The levels of log/slog. *)
Definition LevelDebug : Z := -4.
Definition LevelInfo : Z := 0.
Definition LevelWarn : Z := 4.
Definition LevelError : Z := 8.

Definition request_level (path : string) (status : Z) : Z :=
  if String.eqb path "/health" || String.eqb path "/api/v1/health" then LevelDebug
  else if 500 <=? status then LevelError
  else if 400 <=? status then LevelWarn
  else LevelInfo.

(** The response and the log entry, which a panic leaves out; [written] is the
    number of bytes of the response. *)
Definition requestLogger (method reqID : string) (written : Response -> Z) (next : handler)
    (r : Request) : H (Response * option (Z * list (string * string))) :=
  start ← clock;
  rs ← next r;
  stop ← clock;
  mret (rs, if rs_panic rs then None else Some (request_level (rq_path r) (rs_status rs),
    [("method", method); ("path", rq_path r); ("status", itoa (rs_status rs));
     ("duration_ms", itoa (Z.quot (stop - start) 1000000)); ("bytes", itoa (written rs)); ("client_ip", clientIP r)]
    ++ (if String.eqb reqID "" then [] else [("req_id", reqID)]))%list).

(** ** The client *)

(** A client exists only with credentials that are not the public ones. *)
Theorem NewLiveKitClient_correct cfg :
  match NewLiveKitClient cfg with
  | inr c => vc_LiveKitAPIKey cfg = lk_apiKey c /\ vc_LiveKitAPISecret cfg = lk_apiSecret c /\
             lk_apiKey c <> "" /\ lk_apiSecret c <> "" /\ lk_url c = vc_LiveKitURL cfg /\ lk_url c <> "" /\
             lk_apiKey c <> DefaultLiveKitAPIKey /\ lk_apiSecret c <> DefaultLiveKitAPISecret
  | inl _ => vc_LiveKitAPIKey cfg = "" \/ vc_LiveKitAPISecret cfg = "" \/ vc_LiveKitURL cfg = "" \/
             vc_LiveKitAPIKey cfg = DefaultLiveKitAPIKey \/ vc_LiveKitAPISecret cfg = DefaultLiveKitAPISecret
  end.
Proof.
  unfold NewLiveKitClient, IsDefaultVoiceCredentials.
  repeat match goal with |- context [String.eqb ?a ?b] => destruct (String.eqb_spec a b) end; simpl; tauto.
Qed.

(** The video tracks of a room are counted one by one. *)
Lemma count_tracks_spec ts n :
  foldl (fun count t => if is_video t then count + 1 else count) n ts = n + Z.of_nat (length (filter (fun t => is_video t = true) ts)).
Proof.
  revert n. induction ts as [|t ts IH]; intros n; simpl; [lia|].
  rewrite IH. rewrite filter_cons. destruct (is_video t); simpl; lia.
Qed.

Theorem CountVideoTracks_correct {svc : RoomService} c l (Hl : rs_ListParticipants (RoomName c) = inr l) :
  CountVideoTracks c = inr (Z.of_nat (length (filter (fun t => is_video t = true) (l ≫= pi_Tracks)))).
Proof.
  unfold CountVideoTracks, ListParticipants. rewrite Hl. f_equal. clear Hl.
  assert (forall n, foldl (fun count p => foldl (fun count t => if is_video t then count + 1 else count) count (pi_Tracks p)) n l =
    n + Z.of_nat (length (filter (fun t => is_video t = true) (l ≫= pi_Tracks)))) as ->; [|lia].
  induction l as [|p l IH]; intros n; [simpl; lia|].
  rewrite bind_cons. cbn [foldl]. rewrite IH, count_tracks_spec, filter_app, length_app. lia.
Qed.

(** ** Private addresses *)

Definition dotted (a b c d : Z) : string := itoa a +:+ "." +:+ itoa b +:+ "." +:+ itoa c +:+ "." +:+ itoa d.

Lemma HasPrefix_within s rest p : (String.length p <= String.length s)%nat -> HasPrefix (s +:+ rest) p = HasPrefix s p.
Proof.
  revert s. induction p as [|c p IH]; intros s Hs; [by destruct s, rest|].
  destruct s as [|x s]; [simpl in Hs; lia|]. simpl in *. rewrite IH by lia. done.
Qed.

(** A text that differs from [p] before it ends is not continued to one with
    that prefix. *)
Lemma HasPrefix_beyond s rest p : HasPrefix s p = false -> HasPrefix p s = false -> HasPrefix (s +:+ rest) p = false.
Proof.
  revert s. induction p as [|c p IH]; intros s H1 H2; [by destruct s|].
  destruct s as [|x s]; [done|]. simpl in *.
  destruct (Ascii.eqb_spec c x) as [->|Hne]; simpl in *; [|done].
  rewrite Ascii.eqb_refl in H2. simpl in H2. by apply IH.
Qed.

(** Whether the first two numbers decide, and how. *)
Definition head_private (a b : Z) : bool :=
  (a =? 10) || (a =? 127) || ((a =? 172) && in_range b 16 31) || ((a =? 192) && (b =? 168)).
Definition decides (s : string) (v : bool) : bool :=
  forallb (fun p => (String.length p <=? String.length s)%nat || (negb (HasPrefix s p) && negb (HasPrefix p s))) privatePrefixes
  && Bool.eqb (isPrivateIP s) v.

Lemma decides_all s v rest : decides s v = true -> isPrivateIP (s +:+ rest) = v.
Proof.
  unfold decides, isPrivateIP. intros [Hs Hv]%andb_true_iff. apply Bool.eqb_prop in Hv. rewrite <- Hv.
  clear Hv. revert Hs. generalize privatePrefixes.
  induction l as [|p l IH]; [done|]. simpl. intros [Hd Hl]%andb_true_iff. rewrite (IH Hl). f_equal.
  apply orb_true_iff in Hd as [Hd|[H1 H2]%andb_true_iff].
  - apply HasPrefix_within. by apply Nat.leb_le.
  - apply negb_true_iff in H1, H2. rewrite H1. by apply HasPrefix_beyond.
Qed.

(** The first number decides, or the first two do. *)
Definition head_decides (a : Z) : bool :=
  let s := itoa a +:+ "." in
  if (a =? 172) || (a =? 192)
  then forallb (fun b => decides (s +:+ itoa (Z.of_nat b) +:+ ".") (head_private a (Z.of_nat b))) (seq 0 256)
  else decides s (head_private a 0).

Lemma heads_decide : forallb (fun a => head_decides (Z.of_nat a)) (seq 0 256) = true.
Proof. vm_compute. reflexivity. Qed.

Lemma byte_forall (f : Z -> bool) a :
  forallb (fun n => f (Z.of_nat n)) (seq 0 256) = true -> 0 <= a <= 255 -> f a = true.
Proof.
  intros H Ha. rewrite forallb_forall in H. rewrite <- (Z2Nat.id a) by lia. apply H, in_seq. lia.
Qed.
End Status.
Export Status.

(** An IPv4 address counts as private exactly when it is in 10.0.0.0/8,
    127.0.0.0/8, 172.16.0.0/12 or 192.168.0.0/16. *)
Theorem isPrivateIP_v4 a b c d (Ha : 0 <= a <= 255) (Hb : 0 <= b <= 255) :
  isPrivateIP (dotted a b c d) = head_private a b.
Proof.
  pose proof (byte_forall head_decides a heads_decide Ha) as H. unfold head_decides in H. cbv zeta in H.
  destruct ((a =? 172) || (a =? 192)) eqn:E.
  - apply (byte_forall (fun b => decides ((itoa a +:+ ".") +:+ itoa b +:+ ".") (head_private a b)) b) in H; [|done].
    rewrite <- (decides_all _ _ (itoa c +:+ "." +:+ itoa d) H). unfold dotted. by rewrite !string_app_assoc.
  - apply orb_false_iff in E as [E1 E2]. apply (decides_all _ _ (itoa b +:+ "." +:+ itoa c +:+ "." +:+ itoa d)) in H.
    rewrite string_app_assoc in H. unfold dotted. etrans; [exact H|]. unfold head_private. by rewrite E1, E2.
Qed.

Lemma isPrivateIP_v4_witness : isPrivateIP (dotted 172 31 0 9) = true.
Proof. rewrite (isPrivateIP_v4 172 31 0 9); [reflexivity|lia..]. Defined.

(** The test of IPv6 addresses by their text takes public ones for private: the
    leading zeros of a group are not written. *)
Lemma isPrivateIP_v6_text :
  isPrivateIP "fc::1" = true /\ in_cidr "fc::1" "fc00::/7" = Some false /\
  isPrivateIP "::1:2" = true /\ in_cidr "::1:2" "::1/128" = Some false.
Proof. repeat split; vm_compute; reflexivity. Qed.

(** With TLS off the mode is not empty: browsers are told to use HTTPS only. *)
Lemma hsts_with_tls_off :
  ("Strict-Transport-Security", "max-age=31536000; includeSubDomains") ∈ security_headers "off".
Proof. apply list_elem_of_In. vm_compute. tauto. Qed.
