(* ===== verification/Uploads.v ===== *)
(** * Uploads

    Model of Server/api/upload_handler.go. What net/http and image do with the
    bytes is a parameter: the multipart form, content sniffing, image
    dimensions, the Content-Disposition text; so is the fresh UUID. *)

From S2P Require Import Prelude Permissions RateLimiter GoText Wire Json GoTime Crypto Credentials Rows Store Hub Net LogStream Updater Http AuthApi RestApi Storage.
#[local] Open Scope string_scope.
#[local] Open Scope Z_scope.

Module Uploads.

(** The "file" part of the form: the client's name for it, the declared size,
    the content. *)
Record FormFile := mkFormFile { ff_Filename : string; ff_Size : Z; ff_reader : Reader }.

(** [ParseMultipartForm] failed, or there is no such part, or there is one. *)
Inductive Form := FormInvalid | FormMissing | FormFilePart (f : FormFile).

Definition uploadResponse (id filename mime : string) (size : Z) (width height : option Z) : json :=
  JObj ([("id", JStr id); ("filename", JStr filename); ("size", JInt size); ("mime", JStr mime);
     ("url", JStr ("/api/v1/files/" +:+ id))]
   ++ opt_json "width" JInt width ++ opt_json "height" JInt height)%list.

Section upload.
Context (DetectContentType : list Z -> string) (image_size : string -> option (Z * Z))
  (save_text : save_error -> string).

(** The dimensions, read back from the stored file when it is an image. *)
Definition image_dimensions (store : Storage) (fileID mime : string) : H (option (Z * Z)) :=
  if HasPrefix mime "image/" then
    f ← Open store fileID;
    mret (f ≫= image_size)
  else mret None.

(** The record of a stored file; the file goes when the record cannot be made. *)
Definition record_upload (store : Storage) (fileID mime : string) (f : FormFile) : H Response :=
  dims ← image_dimensions store fileID mime;
  let width := fst <$> dims in let height := snd <$> dims in
  made ← db (CreateAttachment fileID (ff_Filename f) fileID mime (ff_Size f) width height);
  match made with
  | inl _ =>
      _ ← Delete store fileID;
      reject 500 "INTERNAL_ERROR" "failed to save attachment"
  | inr _ => respond 201 (uploadResponse fileID (ff_Filename f) mime (ff_Size f) width height)
  end.

(** Reading the first 512 bytes and seeking back may fail. *)
Definition handleUpload (store : Storage) (form : Form) (fileID : string) : H Response :=
  match form with
  | FormInvalid => reject 400 "BAD_REQUEST" "invalid multipart form"
  | FormMissing => reject 400 "BAD_REQUEST" "missing file field"
  | FormFilePart f =>
      sniffed ← io_ok;
      if negb sniffed then reject 400 "BAD_REQUEST" "failed to read uploaded file" else
      let mime := DetectContentType (take 512 (bytes_of (rd_data (ff_reader f)))) in
      rewound ← io_ok;
      if negb rewound then reject 500 "INTERNAL_ERROR" "failed to process uploaded file" else
      saved ← Save store fileID (ff_reader f);
      match saved with
      | Some e => reject 400 "BAD_REQUEST" ("upload rejected: " +:+ save_text e)
      | None => record_upload store fileID mime f
      end
  end.

Definition upload_route (store : Storage) (form : Form) (fileID : string) : handler :=
  AuthMiddleware (MaxBodySize (100 * 1024 * 1024) (fun _ => handleUpload store form fileID)).
End upload.

(** ** Serving *)

(** What a request for a file gets: nothing, an error, or the content. *)
Inductive Served := ServeNotFound | ServeError (r : Response) | ServeContent (headers : list (string * string)) (content : string).

(** [strings.EqualFold] on origins, which are ASCII. *)
Definition cors_headers (origin : string) (allowedOrigins : list string) : list (string * string) :=
  if String.eqb origin "" then []
  else if existsb (fun a => String.eqb a "*" || String.eqb (lower a) (lower origin)) allowedOrigins
  then [("Access-Control-Allow-Origin", origin); ("Access-Control-Expose-Headers", "Content-Type, Content-Length")]
  else [].

Definition handleServeFile (disposition : string -> string) (store : Storage) (allowedOrigins : list string)
    (r : Request) : H Served :=
  let fileID := URLParam r "id" in
  if String.eqb fileID "" then mret ServeNotFound else
  found ← db (GetAttachmentByID fileID);
  match found with
  | inl _ => mret (ServeError (writeJSON 500 (errorResponse "INTERNAL_ERROR" "internal server error")))
  | inr None => mret ServeNotFound
  | inr (Some att) =>
      f ← Open store (a_stored_as att);
      match f with
      | None => mret ServeNotFound
      | Some content =>
          mret (ServeContent ([("Content-Type", a_mime att); ("Content-Disposition", disposition (a_filename att));
              ("Cache-Control", "public, max-age=31536000, immutable")]
            ++ cors_headers (header r "Origin") allowedOrigins)%list content)
      end
  end.

End Uploads.
Export Uploads.
