(* ===== verification/AdminApi.v ===== *)
(** * The administration API

    Model of Server/admin: authentication of administrators, the first-time
    set-up, users, channels, settings, statistics, the audit log and the log
    stream. [adminUserKey] and [adminSessionKey] are the user and session fields
    of the request. Reading a Go map is in an order the program cannot choose;
    here it is that of [map_to_list]. *)

From S2P Require Import Prelude Permissions RateLimiter GoText Wire Json GoTime Crypto Credentials Rows Store Hub Net LogStream Updater Http AuthApi RestApi.
#[local] Open Scope string_scope.
#[local] Open Scope Z_scope.

Module AdminApi.

(** ** middleware.go *)

(** No test of a ban. *)
Definition adminAuthMiddleware (next : handler) : handler := fun r =>
  match Cred.ExtractBearerToken (header r "Authorization") with
  | None => reject 401 "UNAUTHORIZED" "missing or invalid authorization header"
  | Some token =>
      found ← db (GetSessionByTokenHash (HashToken token));
      match found with
      | inr (Some sess) =>
          t ← clock;
          if Cred.IsSessionExpired t (s_expires sess)
          then reject 401 "UNAUTHORIZED" "session has expired" else
          loaded ← db (GetUserByID (s_user sess));
          match loaded with
          | inr (Some user) =>
              role ← db (GetRoleByID (u_role user));
              match role with
              | inr (Some role) =>
                  if HasAdmin (r_permissions role) then next (with_context user sess (rq_role r) r)
                  else reject 403 "FORBIDDEN" "administrator permission required"
              | _ => reject 401 "UNAUTHORIZED" "role not found"
              end
          | _ => reject 401 "UNAUTHORIZED" "user not found"
          end
      | _ => reject 401 "UNAUTHORIZED" "invalid or expired session"
      end
  end.

Definition ownerOnlyMiddleware (next : handler) : handler := fun r =>
  match rq_user r with
  | None => reject 401 "UNAUTHORIZED" "not authenticated"
  | Some user =>
      role ← db (GetRoleByID (u_role user));
      match role with
      | inr (Some role) =>
          if r_position role <? OwnerRolePosition then reject 403 "FORBIDDEN" "owner role required" else next r
      | _ => reject 403 "FORBIDDEN" "role not found"
      end
  end.

(** ** helpers.go *)

Definition internal (msg : string) : H Response := reject 500 "INTERNAL_ERROR" msg.
Definition bad_request (msg : string) : H Response := reject 400 "BAD_REQUEST" msg.

Definition pathInt64 (r : Request) (param : string) : option Z := ParseInt64 (URLParam r param).

Definition queryInt (r : Request) (key : string) (defaultVal minVal : Z) : Z :=
  let raw := query_param r key in
  if String.eqb raw "" then defaultVal else
  match ParseInt64 raw with
  | None => defaultVal
  | Some n => if n <? minVal then defaultVal else if 500 <? n then 500 else n
  end.

Definition actorFromContext (r : Request) : Z := match rq_user r with Some u => u_id u | None => 0 end.

(** ** types.go *)

Definition allowedSettingKeys : list string :=
  ["server_name"; "server_icon"; "motd"; "max_upload_bytes"; "voice_quality"; "require_2fa";
   "registration_open"; "backup_schedule"; "backup_retention"].

Definition admin_user_json (u : User) (roleName : string) : json :=
  JObj ([("id", JInt (u_id u)); ("username", JStr (u_username u))] ++ opt_json "avatar" JStr (u_avatar u)
    ++ [("role_id", JInt (u_role u)); ("role_name", JStr roleName); ("status", JStr (u_status u));
        ("created_at", JStr (u_created u))]
    ++ opt_json "last_seen" JStr (u_last_seen u) ++ [("banned", JBool (u_banned u))]
    ++ opt_json "ban_reason" JStr (u_ban_reason u) ++ opt_json "ban_expires" JStr (u_ban_expires u))%list.

Definition toAdminUserResponse (x : User * string) : json := admin_user_json x.1 x.2.

Definition toAdminUserResponseFromUser (u : User) : H json :=
  role ← db (GetRoleByID (u_role u));
  mret (admin_user_json u (match role with inr (Some role) => r_name role | _ => "" end)).

(** ** Transactions of the handlers *)

(** [Begin], a body, [Commit], with the response of each failure; a failure
    rolls back. *)
Definition tx {A} (begin_failed commit_failed : Response) (body : ST Sys (result Response A))
  : ST Sys (result Response A) := fun s =>
  let '(b, s1) := query (fun _ => tt) s in
  match b with
  | inl _ => (inl begin_failed, s1)
  | inr _ =>
      let '(r, s2) := body s1 in
      match r with
      | inl e => (inl e, with_db (sys_db s1) s2)
      | inr a =>
          let '(c, s3) := query (fun _ => tt) s2 in
          match c with
          | inl _ => (inl commit_failed, with_db (sys_db s1) s3)
          | inr _ => (inr a, s3)
          end
      end
  end.

Definition internal_error (msg : string) : Response := writeJSON 500 (errorResponse "INTERNAL_ERROR" msg).

(** One statement of a body, and what follows it. *)
Definition stmt {A B} (m : ST Sys (result db_error A)) (failed : Response) (k : ST Sys (result Response B))
  : ST Sys (result Response B) :=
  r ← m; match r with inl _ => mret (inl failed) | inr _ => k end.

Definition tx_done : ST Sys (result Response unit) := mret (inr tt).

(** ** handlers_users.go *)

(** The size of the database: pages and their size. *)
Record ServerStats := mkStats {
  ss_UserCount : Z; ss_MessageCount : Z; ss_ChannelCount : Z; ss_InviteCount : Z;
  ss_DBSizeBytes : Z; ss_OnlineCount : Z }.

Definition stats_json (s : ServerStats) : json :=
  JObj [("user_count", JInt (ss_UserCount s)); ("message_count", JInt (ss_MessageCount s));
    ("channel_count", JInt (ss_ChannelCount s)); ("invite_count", JInt (ss_InviteCount s));
    ("db_size_bytes", JInt (ss_DBSizeBytes s)); ("online_count", JInt (ss_OnlineCount s))].

(** [PRAGMA page_count] and [PRAGMA page_size] are parameters. *)
Definition GetServerStats (page_count page_size : Db -> Z) : ST Sys (result db_error ServerStats) :=
  or_return (query (fun d => Z.of_nat (size (users d)))) (fun userCount =>
  or_return (query (fun d => Z.of_nat (countb (fun m => negb (m_deleted m)) (rows (messages d))))) (fun messageCount =>
  or_return (query (fun d => Z.of_nat (size (channels d)))) (fun channelCount =>
  or_return (query (fun d => Z.of_nat (countb (fun i => negb (i_revoked i)) (rows (invites d))))) (fun inviteCount =>
  or_return (query page_count) (fun pageCount =>
  or_return (query page_size) (fun pageSize =>
  mret (inr (mkStats userCount messageCount channelCount inviteCount (wrap_int64 (pageCount * pageSize)) 0)))))))).

Definition handleGetStats (page_count page_size : Db -> Z) : handler := fun _ =>
  got ← db (GetServerStats page_count page_size);
  match got with
  | inl _ => internal "failed to get stats"
  | inr s =>
      online ← hub ClientCount;
      respond 200 (stats_json (mkStats (ss_UserCount s) (ss_MessageCount s) (ss_ChannelCount s)
        (ss_InviteCount s) (ss_DBSizeBytes s) (Z.of_nat online)))
  end.

Definition handleListUsers : handler := fun r =>
  let limit := queryInt r "limit" 50 1 in
  let offset := queryInt r "offset" 0 0 in
  listed ← db (ListAllUsers limit offset);
  match listed with
  | inl _ => internal "failed to list users"
  | inr users => respond 200 (JArr (toAdminUserResponse <$> users))
  end.

Record patchUserRequest := mkPatchUser {
  pu_RoleID : option Z; pu_Banned : option bool; pu_BanReason : option string }.

Definition dec_ptr {A} (dec : json -> A -> option A) (zero : A) (j : json) (old : option A) : option (option A) :=
  match j with JNull => Some None | _ => Some <$> dec j (default zero old) end.

Definition patch_user_fields : list (field patchUserRequest) :=
  [ ("role_id", fun j p => (fun x => mkPatchUser x (pu_Banned p) (pu_BanReason p)) <$> dec_int64_ptr j (pu_RoleID p));
    ("banned", fun j p => (fun x => mkPatchUser (pu_RoleID p) x (pu_BanReason p)) <$> dec_ptr dec_bool false j (pu_Banned p));
    ("ban_reason", fun j p => (fun x => mkPatchUser (pu_RoleID p) (pu_Banned p) x) <$> dec_ptr dec_string "" j (pu_BanReason p)) ].

(** The role and the ban change together. *)
Definition patch_user_tx (id : Z) (req : patchUserRequest) : ST Sys (result Response unit) :=
  tx (internal_error "failed to begin transaction") (internal_error "failed to commit user update")
    (let ban :=
       match pu_Banned req with
       | None => tx_done
       | Some true => stmt (BanUser id (default "" (pu_BanReason req)) None) (internal_error "failed to ban user") tx_done
       | Some false => stmt (UnbanUser id) (internal_error "failed to unban user") tx_done
       end in
     match pu_RoleID req with
     | None => ban
     | Some roleID => stmt (UpdateUserRole id roleID) (internal_error "failed to update role") ban
     end).

(** What follows the commit: audit entries and broadcasts. *)
Definition patch_user_announce (actor id : Z) (username : string) (req : patchUserRequest) : H unit :=
  _ ← match pu_RoleID req with
      | None => mret tt
      | Some roleID =>
          _ ← db (LogAudit actor "role_change" "user" id ("changed " +:+ username +:+ " role to " +:+ itoa roleID));
          role ← db (GetRoleByID roleID);
          match role with
          | inr (Some role) => hub (BroadcastMemberUpdate id (r_name role))
          | _ => mret tt
          end
      end;
  match pu_Banned req with
  | None => mret tt
  | Some true =>
      _ ← db (LogAudit actor "user_ban" "user" id
                ("banned " +:+ username +:+ ": " +:+ default "" (pu_BanReason req)));
      hub (BroadcastMemberBan id)
  | Some false => _ ← db (LogAudit actor "user_unban" "user" id ("unbanned " +:+ username)); mret tt
  end.

(** A user deleted meanwhile is a nil pointer: chi's recoverer answers a bare 500. *)
Definition handlePatchUser : handler := fun r =>
  match pathInt64 r "id" with
  | None => bad_request "invalid user id"
  | Some id =>
      match Decode patch_user_fields (mkPatchUser None None None) r with
      | DecodeOk req =>
          found ← db (GetUserByID id);
          match found with
          | inl _ => internal "failed to fetch user"
          | inr None => reject 404 "NOT_FOUND" "user not found"
          | inr (Some user) =>
              let actor := actorFromContext r in
              if id =? actor then bad_request "cannot modify your own account via admin panel" else
              changed ← db (patch_user_tx id req);
              match changed with
              | inl rs => mret rs
              | inr _ =>
                  _ ← patch_user_announce actor id (u_username user) req;
                  updated ← db (GetUserByID id);
                  match updated with
                  | inl _ => internal "failed to fetch updated user"
                  | inr None => nil_dereference
                  | inr (Some updated) => j ← toAdminUserResponseFromUser updated; respond 200 j
                  end
              end
          end
      | _ => bad_request "invalid request body"
      end
  end.

Definition handleForceLogout : handler := fun r =>
  match pathInt64 r "id" with
  | None => bad_request "invalid user id"
  | Some id =>
      done ← db (ForceLogoutUser id);
      match done with
      | inl _ => internal "failed to logout user"
      | inr _ =>
          _ ← db (LogAudit (actorFromContext r) "force_logout" "user" id "all sessions terminated");
          no_content
      end
  end.

(** ** handlers_channels.go *)

Definition voiceCategoryNames : list string := ["Voice Channels"].
Definition isVoiceCategory (category : string) : bool := existsb (EqualFold category) voiceCategoryNames.

Definition allowedChannelTypes (category : string) : list string :=
  if String.eqb category "" then ["text"; "voice"; "announcement"]
  else if isVoiceCategory category then ["voice"] else ["text"; "announcement"].

(** [None], or the error's text. *)
Definition validateCategoryType (channelType category : string) : option string :=
  if String.eqb category "" then None
  else if existsb (fun t => String.eqb t channelType) (allowedChannelTypes category) then None
  else if isVoiceCategory category then Some "only voice channels can be created under a voice category"
  else Some "voice channels can only be created under a voice category".

Definition handleAdminListChannels : handler := fun _ =>
  listed ← db ListChannels;
  match listed with
  | inl _ => internal "failed to list channels"
  | inr l => respond 200 (JArr (channel_json <$> l))
  end.

Record createChannelRequest := mkCreateChannel {
  cc_Name : string; cc_Type : string; cc_Category : string; cc_Topic : string; cc_Position : Z }.
Definition create_channel_fields : list (field createChannelRequest) :=
  [ ("name", fun j p => (fun x => mkCreateChannel x (cc_Type p) (cc_Category p) (cc_Topic p) (cc_Position p)) <$> dec_string j (cc_Name p));
    ("type", fun j p => (fun x => mkCreateChannel (cc_Name p) x (cc_Category p) (cc_Topic p) (cc_Position p)) <$> dec_string j (cc_Type p));
    ("category", fun j p => (fun x => mkCreateChannel (cc_Name p) (cc_Type p) x (cc_Topic p) (cc_Position p)) <$> dec_string j (cc_Category p));
    ("topic", fun j p => (fun x => mkCreateChannel (cc_Name p) (cc_Type p) (cc_Category p) x (cc_Position p)) <$> dec_string j (cc_Topic p));
    ("position", fun j p => (fun x => mkCreateChannel (cc_Name p) (cc_Type p) (cc_Category p) (cc_Topic p) x) <$> dec_int j (cc_Position p)) ].

(** [AdminCreateChannel] and [AdminDeleteChannel] are the statements of
    [CreateChannel] and [DeleteChannel]. *)
Definition AdminCreateChannel := CreateChannel.
Definition AdminDeleteChannel := DeleteChannel.

Definition handleCreateChannel : handler := fun r =>
  match Decode create_channel_fields (mkCreateChannel "" "" "" "" 0) r with
  | DecodeOk req =>
      if String.eqb (TrimSpace (cc_Name req)) "" then bad_request "name is required" else
      let type := if String.eqb (cc_Type req) "" then "text" else cc_Type req in
      match validateCategoryType type (cc_Category req) with
      | Some msg => reject 400 "INVALID_INPUT" msg
      | None =>
          made ← db (AdminCreateChannel (cc_Name req) type (cc_Category req) (cc_Topic req) (cc_Position req));
          match made with
          | inl _ => internal "failed to create channel"
          | inr id =>
              found ← db (GetChannel id);
              match found with
              | inr (Some ch) =>
                  _ ← db (LogAudit (actorFromContext r) "channel_create" "channel" id
                            ("created #" +:+ cc_Name req +:+ " (" +:+ type +:+ ")"));
                  _ ← hub (BroadcastChannelCreate ch);
                  respond 201 (channel_json ch)
              | _ => internal "failed to fetch created channel"
              end
          end
      end
  | _ => bad_request "invalid request body"
  end.

Record updateChannelRequest := mkUpdateChannel {
  uc_Name : string; uc_Topic : string; uc_SlowMode : Z; uc_Position : Z; uc_Archived : bool }.
Definition update_channel_fields : list (field updateChannelRequest) :=
  [ ("name", fun j p => (fun x => mkUpdateChannel x (uc_Topic p) (uc_SlowMode p) (uc_Position p) (uc_Archived p)) <$> dec_string j (uc_Name p));
    ("topic", fun j p => (fun x => mkUpdateChannel (uc_Name p) x (uc_SlowMode p) (uc_Position p) (uc_Archived p)) <$> dec_string j (uc_Topic p));
    ("slow_mode", fun j p => (fun x => mkUpdateChannel (uc_Name p) (uc_Topic p) x (uc_Position p) (uc_Archived p)) <$> dec_int j (uc_SlowMode p));
    ("position", fun j p => (fun x => mkUpdateChannel (uc_Name p) (uc_Topic p) (uc_SlowMode p) x (uc_Archived p)) <$> dec_int j (uc_Position p));
    ("archived", fun j p => (fun x => mkUpdateChannel (uc_Name p) (uc_Topic p) (uc_SlowMode p) (uc_Position p) x) <$> dec_bool j (uc_Archived p)) ].

(** The channel of the path, for an update or a deletion. *)
Definition with_channel (r : Request) (k : Z -> Channel -> H Response) : H Response :=
  match pathInt64 r "id" with
  | None => bad_request "invalid channel id"
  | Some id =>
      found ← db (GetChannel id);
      match found with
      | inl _ => internal "failed to fetch channel"
      | inr None => reject 404 "NOT_FOUND" "channel not found"
      | inr (Some existing) => k id existing
      end
  end.

(** The body is decoded over the channel's current values. *)
Definition handlePatchChannel : handler := fun r =>
  with_channel r (fun id existing =>
    match Decode update_channel_fields (mkUpdateChannel (c_name existing) (c_topic existing) (c_slow_mode existing)
            (c_position existing) (c_archived existing)) r with
    | DecodeOk req =>
        saved ← db (AdminUpdateChannel id (uc_Name req) (uc_Topic req) (uc_SlowMode req) (uc_Position req) (uc_Archived req));
        match saved with
        | inl _ => internal "failed to update channel"
        | inr _ =>
            _ ← db (LogAudit (actorFromContext r) "channel_update" "channel" id ("updated #" +:+ uc_Name req));
            found ← db (GetChannel id);
            match found with
            | inr (Some updated) =>
                _ ← hub (BroadcastChannelUpdate updated);
                respond 200 (channel_json updated)
            | _ => internal "failed to fetch updated channel"
            end
        end
    | _ => bad_request "invalid request body"
    end).

Definition handleDeleteChannel : handler := fun r =>
  with_channel r (fun id existing =>
    deleted ← db (AdminDeleteChannel id);
    match deleted with
    | inl _ => internal "failed to delete channel"
    | inr _ =>
        _ ← db (LogAudit (actorFromContext r) "channel_delete" "channel" id ("deleted #" +:+ c_name existing));
        _ ← hub (BroadcastChannelDelete id);
        no_content
    end).

Definition audit_json (x : AuditRow * string) : json :=
  let a := x.1 in
  JObj [("id", JInt (au_id a)); ("actor_id", JInt (au_actor a)); ("actor_name", JStr x.2);
    ("action", JStr (au_action a)); ("target_type", JStr (au_target_type a)); ("target_id", JInt (au_target a));
    ("detail", JStr (au_detail a)); ("created_at", JStr (au_created a))].

Definition handleGetAuditLog : handler := fun r =>
  let limit := queryInt r "limit" 50 1 in
  let offset := queryInt r "offset" 0 0 in
  got ← db (GetAuditLog limit offset);
  match got with
  | inl _ => internal "failed to get audit log"
  | inr entries => respond 200 (JArr (audit_json <$> entries))
  end.

(** ** handlers_settings.go *)

(** A map is encoded with its keys sorted. *)
Definition settings_json (m : gmap string string) : json :=
  JObj ((fun x => (fst x, JStr (snd x))) <$>
    sort_by (fun a b => String.leb (fst a) (fst b)) (map_to_list m)).

Definition handleGetSettings : handler := fun _ =>
  got ← db GetAllSettings;
  match got with
  | inl _ => internal "failed to get settings"
  | inr m => respond 200 (settings_json m)
  end.

(** The body of an update: [map[string]string]. *)
Fixpoint dec_updates (ms : list (string * json)) (m : gmap string string) : option (gmap string string) :=
  match ms with
  | [] => Some m
  | (k, v) :: ms => x ← dec_string v ""; dec_updates ms (<[k := x]> m)
  end.
Definition decode_updates (r : Request) : option (gmap string string) :=
  match first_value r with
  | DecodeOk JNull => Some ∅
  | DecodeOk (JObj ms) => dec_updates ms ∅
  | _ => None
  end.

Definition boolean_keys : list string := ["require_2fa"; "registration_open"].
Definition is_boolean_key (k : string) : bool := existsb (String.eqb k) boolean_keys.

Section settings.
(** [%q] of fmt, and the text of a database error. *)
Context (quote : string -> string) (err_text : db_error -> string).

Definition invalid_boolean (value : string) : string := "invalid boolean value " +:+ quote value.

(** Booleans become "1" or "0"; an error otherwise. *)
Definition normalize_value (key value : string) : result string string :=
  if is_boolean_key key then
    match parseBooleanSettingValue value with
    | Some b => inr (if b : bool then "1" else "0")
    | None => inl (key +:+ ": " +:+ invalid_boolean value)
    end
  else inr value.

Fixpoint normalize_list (l : list (string * string)) (m : gmap string string) : result string (gmap string string) :=
  match l with
  | [] => inr m
  | (k, v) :: l =>
      match normalize_value k v with
      | inl e => inl e
      | inr v' => normalize_list l (<[k := v']> m)
      end
  end.
Definition normalizeSettingUpdates (updates : gmap string string) : result string (gmap string string) :=
  normalize_list (map_to_list updates) ∅.

Definition parse_setting (value : string) : result string bool :=
  match parseBooleanSettingValue value with Some b => inr b | None => inl (invalid_boolean value) end.

(** The value a setting will have after the updates; a missing one is false. *)
Definition targetBoolSetting (updates : gmap string string) (key : string) : H (result string bool) :=
  match updates !! key with
  | Some value => mret (parse_setting value)
  | None =>
      got ← db (GetSetting key);
      mret (match got with
            | inl ErrNotFound => inr false
            | inl e => inl (err_text e)
            | inr value => parse_setting value
            end)
  end.

(** [None], or why the updates are refused. *)
Definition validateRequire2FAUpdate (updates : gmap string string) : H (option string) :=
  target ← targetBoolSetting updates "require_2fa";
  match target with
  | inl e => mret (Some e)
  | inr false => mret None
  | inr true =>
      opened ← targetBoolSetting updates "registration_open";
      match opened with
      | inl e => mret (Some e)
      | inr true => mret (Some "require_2fa cannot be enabled while registration is open")
      | inr false =>
          count ← db CountUsersWithoutTOTP;
          mret (match count with
                | inl _ => Some "failed to validate 2FA enrollment"
                | inr n => if 0 <? n then Some "require_2fa cannot be enabled until all users have 2FA enabled" else None
                end)
      end
  end.

Fixpoint apply_settings (l : list (string * string)) : ST Sys (result Response unit) :=
  match l with
  | [] => tx_done
  | (k, v) :: l => stmt (SetSetting k v) (internal_error ("failed to update setting: " +:+ k)) (apply_settings l)
  end.

Definition settings_tx (m : gmap string string) : ST Sys (result Response unit) :=
  tx (internal_error "failed to start transaction") (internal_error "failed to commit settings")
    (apply_settings (map_to_list m)).

(** Once the updates are accepted. *)
Definition commit_settings (actor : Z) (updates : gmap string string) : H Response :=
  saved ← db (settings_tx updates);
  match saved with
  | inl rs => mret rs
  | inr _ =>
      _ ← forM_ (map_to_list updates).*1 (fun k =>
            _ ← db (LogAudit actor "setting_change" "setting" 0 (k +:+ " updated")); mret tt);
      got ← db GetAllSettings;
      match got with
      | inl _ => internal "failed to fetch settings"
      | inr m => respond 200 (settings_json m)
      end
  end.

Definition handlePatchSettings : handler := fun r =>
  match decode_updates r with
  | None => bad_request "invalid request body"
  | Some updates =>
      match List.find (fun k => negb (existsb (String.eqb k) allowedSettingKeys)) (map_to_list updates).*1 with
      | Some key => bad_request ("unknown setting key: " +:+ quote key)
      | None =>
          match normalizeSettingUpdates updates with
          | inl e => bad_request e
          | inr normalized =>
              refused ← validateRequire2FAUpdate normalized;
              match refused with
              | Some e => bad_request e
              | None => commit_settings (actorFromContext r) normalized
              end
          end
      end
  end.
End settings.

(** ** setup_handler.go *)

Definition ownerRoleID : Z := 1.

Definition handleSetupStatus : handler := fun _ =>
  count ← db UserCount;
  match count with
  | inl _ => internal "failed to check user count"
  | inr n => respond 200 (JObj [("needs_setup", JBool (n =? 0))])
  end.

Definition setup_allow (key : string) : H bool :=
  tLock ← clock; t ← clock;
  act (fun s => let x := Limiter.Allow (sv_setup s) key 5 Minute tLock t in (x.1, sv_set_setup x.2 s)).

Section setup.
Context (bcrypt_hash : string -> option string) (sanitize : string -> string).

(** Once the owner's account is made. *)
Definition setup_rest (uid : Z) (username host : string) (r : Request) : H Response :=
  bytes ← rand_read;
  match Crypto.GenerateToken bytes with
  | None => internal "failed to generate session token"
  | Some token =>
      sess ← db (CreateSession uid (HashToken token) (header r "User-Agent") host);
      match sess with
      | inl _ => internal "failed to create session"
      | inr _ =>
          _ ← db (CreateChannel "general" "text" "Text Channels" "Welcome to the server!" 0);
          _ ← db (CreateChannel "General" "voice" "Voice Channels" "" 0);
          invite ← create_invite uid 0 None;
          match invite with
          | inl _ => internal "failed to generate invite code"
          | inr inviteCode =>
              _ ← db (LogAudit uid "server_setup" "server" 0
                        "initial setup: owner account created, default channel and invite generated");
              respond 201 (JObj [("token", JStr token); ("user_id", JInt uid); ("username", JStr username);
                ("invite_code", JStr inviteCode)])
          end
      end
  end.

Definition setup_owner (username hash host : string) (r : Request) : H Response :=
  made ← db (CreateUser username hash ownerRoleID);
  match made with
  | inl _ => internal "failed to create user"
  | inr uid => setup_rest uid username host r
  end.

Definition setup_create (username password host : string) (r : Request) : H Response :=
  if String.eqb username "" || String.eqb password ""
  then bad_request "username and password are required" else
  match Cred.ValidateUsername username with
  | Some e => bad_request (username_error_text e)
  | None =>
      match Cred.ValidatePasswordStrength password with
      | Some e => bad_request (password_error_text e)
      | None =>
          match bcrypt_hash password with
          | None => internal "failed to hash password"
          | Some hash => setup_owner username hash host r
          end
      end
  end.

Definition handleSetup : handler := fun r =>
  let host := default (rq_RemoteAddr r) (SplitHost (rq_RemoteAddr r)) in
  ok ← setup_allow ("setup:" +:+ host);
  if negb ok then reject 429 "RATE_LIMITED" "too many setup attempts, try again later" else
  count ← db UserCount;
  match count with
  | inl _ => internal "failed to check user count"
  | inr n =>
      if 0 <? n then reject 403 "FORBIDDEN" "setup has already been completed" else
      match Decode (pair_fields "username" "password") ("", "") r with
      | DecodeOk (username, password) => setup_create (TrimSpace (sanitize username)) password host r
      | _ => bad_request "invalid request body"
      end
  end.
End setup.

(** ** logstream.go *)

Definition handleLogTicket : handler := fun r =>
  match rq_session r with
  | Some sess =>
      if String.eqb (s_token sess) "" then reject 401 "UNAUTHORIZED" "invalid or expired session" else
      bytes ← rand_read;
      t ← clock;
      issued ← act (fun s => let x := issue (sv_tickets s) bytes (s_token sess) t in (x.1, sv_set_tickets x.2 s));
      match issued with
      | None => internal "failed to generate ticket"
      | Some ticket => respond 200 (JObj [("ticket", JStr ticket)])
      end
  | None => reject 401 "UNAUTHORIZED" "invalid or expired session"
  end.

(** [sessionStillAuthorized] *)
Definition sessionStillAuthorized (tokenHash : string) : H bool :=
  found ← db (GetSessionByTokenHash tokenHash);
  match found with
  | inr (Some sess) =>
      t ← clock;
      if Cred.IsSessionExpired t (s_expires sess) then mret false else
      loaded ← db (GetUserByID (s_user sess));
      match loaded with
      | inr (Some user) =>
          role ← db (GetRoleByID (u_role user));
          mret (match role with inr (Some role) => HasAdmin (r_permissions role) | _ => false end)
      | _ => mret false
      end
  | _ => mret false
  end.

(** What a stream sees: an entry, the keepalive timer, the client leaving; and
    what the rest of the server does meanwhile. *)
Inductive stream_event := NewEntry (e : LogEntry) | Keepalive | Gone | Meanwhile (f : Server -> Server).

Definition entry_json (e : LogEntry) : json :=
  JObj ([("ts", JStr (le_Timestamp e)); ("level", JStr (le_Level e)); ("msg", JStr (le_Message e));
     ("source", JStr (le_Source e))] ++ opt_member "attrs" (le_Attrs e))%list.
Definition nl : string := string_of [10].
Definition data_frame (e : LogEntry) : string := "data: " +:+ render (entry_json e) +:+ nl +:+ nl.
Definition keepalive_frame : string := ": keepalive" +:+ nl +:+ nl.

(** The frames written, oldest first. *)
Fixpoint send_backfill (tokenHash : string) (l : list LogEntry) : H (list string * bool) :=
  match l with
  | [] => mret ([], true)
  | e :: l =>
      ok ← sessionStillAuthorized tokenHash;
      if negb ok then mret ([], false) else
      rest ← send_backfill tokenHash l;
      mret (data_frame e :: rest.1, rest.2)
  end.

Fixpoint stream_loop (tokenHash : string) (evs : list stream_event) : H (list string) :=
  match evs with
  | [] | Gone :: _ => mret []
  | Meanwhile f :: evs => _ ← modify f; stream_loop tokenHash evs
  | NewEntry e :: evs =>
      ok ← sessionStillAuthorized tokenHash;
      if negb ok then mret [] else
      rest ← stream_loop tokenHash evs; mret (data_frame e :: rest)
  | Keepalive :: evs =>
      ok ← sessionStillAuthorized tokenHash;
      if negb ok then mret [] else
      rest ← stream_loop tokenHash evs; mret (keepalive_frame :: rest)
  end.

(** A refusal with its status and code, or the frames of the stream. *)
Inductive streamed := StreamRefused (status : Z) (code message : string) | Streamed (frames : list string).

Definition log_redeem (ticket : string) : H (option ticketEntry) :=
  t ← clock;
  act (fun s => let x := redeem (sv_tickets s) ticket t in (x.1, sv_set_tickets x.2 s)).

Definition handleLogStream (snapshot : list LogEntry) (evs : list stream_event) (r : Request) : H streamed :=
  let ticket := query_param r "ticket" in
  redeemed ← log_redeem ticket;
  match redeemed with
  | Some entry =>
      if String.eqb ticket "" then mret (StreamRefused 401 "UNAUTHORIZED" "invalid or expired ticket") else
      found ← db (GetSessionByTokenHash (te_tokenHash entry));
      let refused := StreamRefused 401 "UNAUTHORIZED" "invalid or expired session" in
      match found with
      | inr (Some sess) =>
          t ← clock;
          if Cred.IsSessionExpired t (s_expires sess) then mret refused else
          ok ← sessionStillAuthorized (te_tokenHash entry);
          if negb ok then mret (StreamRefused 403 "FORBIDDEN" "administrator permission required") else
          back ← send_backfill (te_tokenHash entry) snapshot;
          if negb back.2 then mret (Streamed back.1) else
          rest ← stream_loop (te_tokenHash entry) evs;
          mret (Streamed (back.1 ++ rest)%list)
      | _ => mret refused
      end
  | None => mret (StreamRefused 401 "UNAUTHORIZED" "invalid or expired ticket")
  end.

End AdminApi.
Export AdminApi.
