(* ===== verification/Updates.v ===== *)
(** * Downloading and applying updates; backups

    Model of the operations of Server/updater/updater.go that use the network
    and the disk, of Server/admin/update_handlers.go and handlers_backup.go, of
    [BackupTo] in Server/db/admin_queries.go and of Server/api/client_update.go.
    net/http follows redirects before the reply; [partial] tells what a copy that
    fails has written of its source. *)

From S2P Require Import Prelude Permissions RateLimiter GoText Wire Json GoTime Crypto Credentials Rows Store Hub Net LogStream Updater Http AuthApi RestApi Storage AdminApi.
From Stdlib Require Import Ascii.
#[local] Open Scope string_scope.
#[local] Open Scope Z_scope.

Module Updates.

(** ** Files *)

(** [os.Remove] and [os.Rename]; the result tells success. *)
Definition os_Remove (path : string) : H bool :=
  ok ← io_ok;
  act (fun s => match sv_disk s !! path with
                | Some _ => if ok : bool then (true, sv_set_disk (delete path (sv_disk s)) s) else (false, s)
                | None => (false, s)
                end).
Definition os_Rename (old new : string) : H bool :=
  ok ← io_ok;
  act (fun s => match sv_disk s !! old with
                | Some c => if ok : bool then (true, sv_set_disk (<[new := c]> (delete old (sv_disk s))) s) else (false, s)
                | None => (false, s)
                end).
(** A file opened for reading. *)
Definition os_Open (path : string) : H (option string) :=
  ok ← io_ok; gets (fun s => if ok : bool then sv_disk s !! path else None).

(** ** updater.go *)

Section update.
Context (semver_compare : string -> string -> Z) (url_hostname : string -> option string)
  (err_text : update_error -> string) (partial : string -> string).

(** The token a request carries: none when it is empty. *)
Definition token_of (u : Updater) : option string :=
  if String.eqb (up_githubToken u) "" then None else Some (up_githubToken u).
Definition token_for (u : Updater) (url : string) : option string :=
  if shouldSendToken url_hostname u url then token_of u else None.

(** [json.NewDecoder(body).Decode(&release)] *)
Definition decode_release (r : Reply) : option releaseResponse :=
  match Decode release_fields (mkRelease "" "" "" [])
          (mkRequest "" ∅ "" ∅ ∅ (rp_body r) (rp_error r) None None None) with
  | DecodeOk x => Some x
  | _ => None
  end.

Definition fetchLatestRelease (u : Updater) : H (result update_error UpdateInfo) :=
  reply ← do_get (release_url u) (token_of u);
  mret (match reply with
        | None => inl UeRequest
        | Some rp =>
            if negb (rp_status rp =? 200) then inl (UeStatus (rp_status rp)) else
            match decode_release rp with
            | None => inl UeDecode
            | Some release => inr (release_info semver_compare u release)
            end
        end).

(** The clock is read once, before the request. *)
Definition CheckForUpdate : H (result update_error UpdateInfo) :=
  now ← clock;
  u ← gets sv_updater;
  match (if now <? up_cacheExpiry u then up_cache u else None) with
  | Some info => mret (inr info)
  | None =>
      match (if now <? up_errCacheExpiry u then up_cachedErr u else None) with
      | Some e => mret (inl e)
      | None =>
          fetched ← fetchLatestRelease u;
          _ ← modify (fun s => sv_set_updater
                (match fetched with
                 | inl e => keep_error (sv_updater s) e (now + errorCacheTTL)
                 | inr info => keep_info (sv_updater s) info (now + cacheTTL)
                 end) s);
          mret fetched
      end
  end.

Definition body_limit : nat := Z.to_nat (2 ^ 20).

(** At most 1 MiB of the body. *)
Definition fetchBody (url : string) : H (result update_error string) :=
  u ← gets sv_updater;
  reply ← do_get url (token_for u url);
  mret (match reply with
        | None => inl UeRequest
        | Some rp =>
            if negb (rp_status rp =? 200) then inl (UeStatus (rp_status rp)) else
            let data := bytes_of (rp_body rp) in
            if (length data <? body_limit)%nat && rp_error rp then inl UeRead
            else inr (string_of (take body_limit data))
        end).

Definition FetchTextAsset := fetchBody.

Definition maxBinarySize : Z := 500 * 1024 * 1024.

(** [None] on success. The file of a failed or oversized download is removed. *)
Definition downloadFile (url destPath : string) : H (option update_error) :=
  u ← gets sv_updater;
  reply ← do_get url (token_for u url);
  match reply with
  | None => mret (Some UeRequest)
  | Some rp =>
      if negb (rp_status rp =? 200) then mret (Some (UeStatus (rp_status rp))) else
      created ← io_ok;
      if negb created then mret (Some UeCreate) else
      let data := bytes_of (rp_body rp) in
      let written := take (Z.to_nat (maxBinarySize + 1)) data in
      copied ← io_ok;
      _ ← write_file destPath (if copied : bool then string_of written else partial (string_of written));
      if negb copied || ((Z.of_nat (length written) <? maxBinarySize + 1) && rp_error rp) then
        _ ← os_Remove destPath; mret (Some UeWrite)
      else if maxBinarySize <? Z.of_nat (length written) then
        _ ← os_Remove destPath; mret (Some UeTooLarge)
      else mret None
  end.

Definition VerifyChecksum (filePath expectedHash : string) : H (option update_error) :=
  f ← os_Open filePath;
  match f with
  | None => mret (Some UeOpen)
  | Some content =>
      read ← io_ok;
      mret (if negb read then Some UeRead
            else if checksum_ok content expectedHash then None
            else Some (UeMismatch expectedHash (actual_hash content)))
  end.

(** The checksum is looked up under the name of the destination file. *)
Definition DownloadAndVerify (downloadURL checksumURL destPath : string) : H (option update_error) :=
  u ← gets sv_updater;
  if negb (ValidateDownloadURL u downloadURL) then mret (Some (UeDownloadURL downloadURL)) else
  if negb (ValidateDownloadURL u checksumURL) then mret (Some (UeChecksumURL checksumURL)) else
  fetched ← fetchBody checksumURL;
  match fetched with
  | inl e => mret (Some (UeChecksumFetch e))
  | inr checksumData =>
      let destFilename := Base destPath in
      match ParseChecksumFile checksumData destFilename with
      | None => mret (Some (UeChecksumMissing destFilename))
      | Some expectedHash =>
          got ← downloadFile downloadURL destPath;
          match got with
          | Some e => mret (Some (UeDownload e))
          | None =>
              verified ← VerifyChecksum destPath expectedHash;
              match verified with
              | Some e => _ ← os_Remove destPath; mret (Some e)
              | None => mret None
              end
          end
      end
  end.

(** ** update_handlers.go *)

Definition asset_json (a : Asset) : json :=
  JObj [("name", JStr (as_Name a)); ("download_url", JStr (as_DownloadURL a))].
Definition info_json (i : UpdateInfo) : json :=
  JObj ([("current", JStr (ui_Current i)); ("latest", JStr (ui_Latest i));
     ("update_available", JBool (ui_UpdateAvailable i)); ("release_url", JStr (ui_ReleaseURL i));
     ("download_url", JStr (ui_DownloadURL i)); ("checksum_url", JStr (ui_ChecksumURL i));
     ("release_notes", JStr (ui_ReleaseNotes i))]
   ++ match ui_Assets i with [] => [] | l => [("assets", JArr (asset_json <$> l))] end)%list.

Definition handleCheckUpdate : handler := fun _ =>
  info ← CheckForUpdate;
  match info with
  | inl e => reject 502 "UPDATE_CHECK_FAILED" ("failed to check for updates: " +:+ err_text e)
  | inr i => respond 200 (info_json i)
  end.

(** [os.Executable] and [EvalSymlinks] give the path or fail. The response comes
    before the update is applied; the flag tells that this goes on in the
    background. *)
Definition handleApplyUpdate (exe : option string) (symlink : string -> option string) : H (Response * bool) :=
  let refuse (m : H Response) := rs ← m; mret (rs, false) in
  checked ← CheckForUpdate;
  match checked with
  | inl e => refuse (reject 502 "UPDATE_CHECK_FAILED" (err_text e))
  | inr info =>
      if negb (ui_UpdateAvailable info) then refuse (reject 409 "NO_UPDATE" "server is already up to date") else
      if String.eqb (ui_DownloadURL info) "" || String.eqb (ui_ChecksumURL info) ""
      then refuse (reject 502 "MISSING_ASSETS" "release is missing required assets") else
      match exe with
      | None => refuse (internal "cannot determine executable path")
      | Some exe =>
          match symlink exe with
          | None => refuse (internal "cannot resolve executable path")
          | Some exePath =>
              done ← DownloadAndVerify (ui_DownloadURL info) (ui_ChecksumURL info) (exePath +:+ ".new");
              match done with
              | Some e => refuse (reject 502 "DOWNLOAD_FAILED" (err_text e))
              | None =>
                  mret (writeJSON 200 (JObj [("status", JStr "applying"); ("version", JStr (ui_Latest info))]), true)
              end
          end
      end
  end.

(** ** client_update.go *)

Inductive ClientUpdate := CuText (status : Z) (text : string) | CuNone | CuResponse (r : Response).

Definition ensureV (v : string) : string := if HasPrefix v "v" then v else "v" +:+ v.

Definition tauri_json (version notes target signature url : string) : json :=
  JObj ([("version", JStr version)] ++ opt_member "notes" notes
    ++ [("platforms", JObj [(target, JObj [("signature", JStr signature); ("url", JStr url)])])])%list.

Definition handleClientUpdate (r : Request) : H ClientUpdate :=
  let target := URLParam r "target" in
  let currentVersion := URLParam r "current_version" in
  if String.eqb target "" || String.eqb currentVersion ""
  then mret (CuText 400 "missing target or current_version") else
  checked ← CheckForUpdate;
  match checked with
  | inl _ => mret (CuText 502 "failed to check for updates")
  | inr info =>
      if 0 <=? semver_compare (ensureV currentVersion) (ensureV (ui_Latest info)) then mret CuNone else
      ca ← gets (fun s => FindClientAssets (sv_updater s));
      if String.eqb (ca_InstallerURL ca) "" || String.eqb (ca_SignatureURL ca) "" then mret CuNone else
      signature ← FetchTextAsset (ca_SignatureURL ca);
      mret (match signature with
            | inl _ => CuText 502 "failed to fetch signature"
            | inr content =>
                CuResponse (writeJSON 200 (tauri_json (TrimPrefix (ui_Latest info) "v") (ui_ReleaseNotes info)
                  target (TrimSpace content) (ca_InstallerURL ca)))
            end)
  end.
End update.

(** ** The replacement of the binary, in the background *)

Inductive apply_outcome :=
| ApNotRenamed     (* the binary could not be moved away *)
| ApRestored       (* the new one could not be moved in; the old one is back *)
| ApLost           (* nor could the old one *)
| ApNotSpawned     (* the new binary is in place but did not start *)
| ApExited.        (* it started, and this process ends *)

(** [spawned] tells whether the new process starts. *)
Definition apply_update (exePath : string) (spawned : bool) : H apply_outcome :=
  let newPath := exePath +:+ ".new" in
  let oldPath := exePath +:+ ".old" in
  _ ← hub (BroadcastServerRestart "update" 5);
  _ ← os_Remove oldPath;
  moved ← os_Rename exePath oldPath;
  if negb moved then mret ApNotRenamed else
  installed ← os_Rename newPath exePath;
  if negb installed then
    restored ← os_Rename oldPath exePath;
    if restored : bool then mret ApRestored
    else _ ← hub (BroadcastServerRestart "update_failed" 0); mret ApLost
  else mret (if spawned then ApExited else ApNotSpawned).

(** ** Backups *)

Section backup.
(** The working directory (absolute and clean), the file [VACUUM INTO] makes of a
    database, what a copy that fails has written of its source, and the database
    that the server's connections find, which had one database open, once its file
    has another content. *)
Context (cwd : string) (db_image : Db -> string) (partial : string -> string) (reload : Db -> string -> Db).

Definition Abs (path : string) : string := Join cwd path.

Definition db_file : string := "data/chatserver.db".
Definition backup_dir : string := "data/backups".
Definition backup_path (name : string) : string := backup_dir +:+ "/" +:+ name.

(** "20060102_150405" *)
Definition FormatStamp (t : Z) : string :=
  let secs := t / ns_per_sec in
  let c := civil_from_days (secs / 86400) in
  let s := secs mod 86400 in
  pad4 (c_year c) (pad2 (c_month c) (pad2 (c_day c) ("_" +:+
    pad2 (s / 3600) (pad2 (s / 60 mod 60) (pad2 (s mod 60) ""))))).

Definition stamp_char (b : Z) : bool :=
  in_range b 97 122 || in_range b 65 90 || is_digit b ||
  existsb (Z.eqb b) [47; 92; 45; 95; 46; 32; 58; 126].

(** [VACUUM INTO] refuses a file that is there and is not empty. *)
Definition vacuum_into (path : string) : H (result db_error unit) :=
  there ← gets (fun s => negb (String.eqb (default "" (sv_disk s !! Abs path)) ""));
  image ← db (exec (fun _ d => if there : bool then inl DbFault else inr (db_image d, d)));
  match image with
  | inl e => mret (inl e)
  | inr image => _ ← write_file (Abs path) image; mret (inr tt)
  end.

(** [path] is relative to [cwd] and clean, as the callers build it. *)
Definition BackupToSafe (path safeRoot : string) : H bool :=
  if negb (HasPrefix (Abs path) (Abs safeRoot +:+ "/")) then mret false else
  if negb (forallb stamp_char (bytes_of path)) then mret false else
  if Contains_text path "--" then mret false else
  done ← vacuum_into path;
  mret (match done with inl _ => false | inr _ => true end).
Definition BackupTo (path : string) : H bool := BackupToSafe path backup_dir.

(** [os.MkdirAll] only succeeds or fails: directories are not recorded. *)
Definition handleBackup : handler := fun r =>
  made ← io_ok;
  if negb made then internal "failed to create backup directory" else
  t ← clock;
  let timestamp := FormatStamp t in
  let name := "chatserver_" +:+ timestamp +:+ ".db" in
  ok ← BackupTo (backup_path name);
  if negb ok then internal "backup failed" else
  _ ← db (LogAudit (actorFromContext r) "backup_create" "server" 0 ("backup saved: " +:+ name));
  respond 200 (JObj [("created", JStr timestamp); ("path", JStr name)]).

(** The checks on a name from a URL. *)
Definition backup_name_ok (name : string) : bool :=
  negb (String.eqb name "" || Contains_text name ".." || existsb (fun b => (b =? slash) || (b =? 92)) (bytes_of name))
  && HasPrefix (Join (Abs backup_dir) name) (Abs backup_dir +:+ "/").

(** An existing backup. *)
Definition on_backup (r : Request) (k : string -> H Response) : H Response :=
  let name := URLParam r "name" in
  if negb (backup_name_ok name) then bad_request "invalid backup name" else
  stat ← io_ok;
  there ← gets (fun s => bool_decide (is_Some (sv_disk s !! Abs (backup_path name))));
  if stat && negb there then reject 404 "NOT_FOUND" "backup not found" else k name.

Definition handleDeleteBackup : handler := fun r =>
  on_backup r (fun name =>
    removed ← os_Remove (Abs (backup_path name));
    if negb removed then internal "failed to delete backup" else
    _ ← db (LogAudit (actorFromContext r) "backup_delete" "server" 0 ("deleted backup " +:+ name));
    no_content).

(** [os.ReadDir] of the backups, by name; a directory that is not there has no
    entries. Below a sub-directory is nothing of this list. *)
Definition backup_names (d : gmap string string) : list string :=
  let dir := Abs backup_dir +:+ "/" in
  sort_by String.leb
    (List.filter (fun name => negb (String.eqb name "") && negb (has_byte slash (bytes_of name)))
       ((fun p => skip (String.length dir) p) <$> List.filter (fun p => HasPrefix p dir) (map_to_list d).*1)).

(** [filepath.Ext(name) == ".db"]; [e.Info] may fail, and the entry is left out.
    [mtime]: the time of the last change of a file. *)
Definition backup_entry (mtime : string -> Z) (name : string) : H (list (string * Z * string)) :=
  if negb (HasSuffix name ".db") then mret [] else
  ok ← io_ok;
  content ← gets (fun s => sv_disk s !! Abs (backup_path name));
  mret (match content with
        | Some c => if ok : bool then [(name, Z.of_nat (String.length c), FormatISO (mtime (Abs (backup_path name))))] else []
        | None => []
        end).

Fixpoint backup_entries (mtime : string -> Z) (names : list string) : H (list (string * Z * string)) :=
  match names with
  | [] => mret []
  | name :: names => e ← backup_entry mtime name; es ← backup_entries mtime names; mret (e ++ es)%list
  end.

Definition backup_json (e : string * Z * string) : json :=
  JObj [("name", JStr e.1.1); ("size", JInt e.1.2); ("date", JStr e.2)].

(** The newest first; among those of one second [sort.Slice] fixes no order,
    here they stay ordered by name. *)
Definition handleListBackups (mtime : string -> Z) : handler := fun _ =>
  read ← io_ok;
  if negb read then internal "failed to list backups" else
  names ← gets (fun s => backup_names (sv_disk s));
  backups ← backup_entries mtime names;
  respond 200 (JArr (backup_json <$> sort_by (fun x y => String.leb y.2 x.2) backups)).

(** The file of the open database gets another content under the server's
    connections: [reload] is what they find from then on. *)
Definition overwrite (path content : string) : H unit :=
  _ ← write_file path content;
  db (fun y => (tt, with_db (reload (sys_db y) content) y)).

(** Opening, creating (which empties the destination), copying, syncing, closing. *)
Definition copyFile (src dst : string) : H bool :=
  content ← os_Open src;
  match content with
  | None => mret false
  | Some content =>
      created ← io_ok;
      if negb created then mret false else
      _ ← overwrite dst "";
      copied ← io_ok;
      _ ← overwrite dst (if copied : bool then content else partial content);
      if negb copied then mret false else
      synced ← io_ok;
      if negb synced then mret false else io_ok
  end.

(** The backup made first may fail; the restoration goes on. The audit entry is
    written to what was restored. *)
Definition handleRestoreBackup : handler := fun r =>
  on_backup r (fun name =>
    t ← clock;
    _ ← BackupTo (backup_path ("pre_restore_" +:+ FormatStamp t +:+ ".db"));
    copied ← copyFile (Abs (backup_path name)) (Abs db_file);
    if negb copied then internal "failed to restore database file" else
    _ ← db (LogAudit (actorFromContext r) "backup_restore" "server" 0 ("restored from " +:+ name));
    respond 200 (JObj [("backup", JStr name); ("message", JStr "database restored — server restart recommended")])).
End backup.

End Updates.
Export Updates.
