(* ===== verification/Routes.v ===== *)
(** * The router

    Model of the route tables of Server/api/router.go, of the Mount functions of
    Server/api and of Server/admin/api.go: which middleware stands before which
    handler. What the repository does not hold (bcrypt, the sanitizer, the
    full-text index, content sniffing, semver, what SQLite finds after its file was
    overwritten, what chi's recoverer answers, ...) and the configuration are the
    fields of [Env]. *)

From S2P Require Import Prelude Permissions RateLimiter GoText Wire Json GoTime Crypto Credentials Rows Store Hub Net LogStream Updater Config Http AuthApi RestApi Storage LiveKitProxy Status Uploads AdminApi Updates.
#[local] Open Scope string_scope.
#[local] Open Scope Z_scope.

Module Routes.

Record Env := mkEnv {
  env_bcrypt : string -> option string; env_compare : string -> string -> bool;
  env_sanitize : string -> string; env_fts : string -> gmap Z Message -> option (list Z);
  env_proxies : list string; env_adminCIDRs : list string; env_tls : string; env_store : Storage;
  env_sniff : list Z -> string; env_image : string -> option (Z * Z); env_save_text : save_error -> string;
  env_pages : Db -> Z; env_page_size : Db -> Z;
  env_quote : string -> string; env_db_text : db_error -> string;
  env_semver : string -> string -> Z; env_hostname : string -> option string;
  env_update_text : update_error -> string; env_partial : string -> string;
  env_exe : option string; env_symlink : string -> option string;
  env_cwd : string; env_db_image : Db -> string; env_reload : Db -> string -> Db; env_mtime : string -> Z;
  env_recovered : list (string * string) -> Response;
  env_config : Config; env_version : string; env_go_version : string; env_start : Z;
  env_url : string -> option Url; env_float : Z -> Z -> string }.

(** The endpoints that answer with JSON; an upload comes with its form and the
    fresh id of the file, a request that asks LiveKit or the runtime with what
    they answer. *)
Inductive plain_endpoint := EpHealth | EpInfo.

Inductive restricted_endpoint := EpLiveKitHealth (svc : RoomService) | EpMetrics (svc : RoomService) (mem : MemStats).

Inductive public_endpoint := EpRegister | EpLogin | EpVerifyTOTP.

Inductive user_endpoint :=
| EpLogout | EpMe | EpDeleteAccount | EpEnableTOTP | EpConfirmTOTP | EpDisableTOTP
| EpListChannels | EpMessages | EpPins | EpPin | EpUnpin | EpSearch
| EpCreateDM | EpListDMs | EpCloseDM
| EpCreateInvite | EpListInvites | EpRevokeInvite
| EpUpload (form : Form) (fileID : string)
| EpDiagnostics (svc : RoomService).

Inductive setup_endpoint := EpSetupStatus | EpSetup.

Inductive admin_endpoint :=
| EpLogTicket | EpStats | EpUsers | EpPatchUser | EpForceLogout
| EpAdminChannels | EpCreateChannel | EpPatchChannel | EpDeleteChannel
| EpAuditLog | EpSettings | EpPatchSettings | EpCheckUpdate | EpListBackups.

(** These require the owner's role as well. *)
Inductive owner_endpoint := EpBackup | EpDeleteBackup | EpRestoreBackup | EpApplyUpdate.

Inductive endpoint :=
| Plain (ep : plain_endpoint) | Restricted (ep : restricted_endpoint)
| Public (ep : public_endpoint) | Authed (ep : user_endpoint)
| Setup (ep : setup_endpoint) | Admin (ep : admin_endpoint) | Owner (ep : owner_endpoint).

Section routes.
Context (env : Env).

(** [MountAuthRoutes], [MountChannelRoutes], [MountDMRoutes], [MountInviteRoutes],
    [MountUploadRoutes]. *)
Definition public_route (ep : public_endpoint) : handler :=
  match ep with
  | EpRegister => register_route (env_bcrypt env) (env_sanitize env) (env_proxies env)
  | EpLogin => login_route (env_compare env) (env_proxies env)
  | EpVerifyTOTP => verify_totp_route (env_proxies env)
  end.

Definition user_route (ep : user_endpoint) : handler :=
  match ep with
  | EpLogout => logout_route
  | EpMe => me_route
  | EpDeleteAccount => account_route (env_compare env) (env_proxies env)
  | EpEnableTOTP => totp_enable_route (env_compare env) (env_proxies env)
  | EpConfirmTOTP => totp_confirm_route (env_compare env) (env_proxies env)
  | EpDisableTOTP => totp_disable_route (env_compare env) (env_proxies env)
  | EpListChannels => channels_route handleListChannels
  | EpMessages => channels_route handleGetMessages
  | EpPins => channels_route handleGetPins
  | EpPin => channels_route (handleSetPinned true)
  | EpUnpin => channels_route (handleSetPinned false)
  | EpSearch => search_route (env_fts env) (env_proxies env)
  | EpCreateDM => dms_route handleCreateDM
  | EpListDMs => dms_route handleListDMs
  | EpCloseDM => dms_route handleCloseDM
  | EpCreateInvite => invites_route handleCreateInvite
  | EpListInvites => invites_route handleListInvites
  | EpRevokeInvite => invites_route handleRevokeInvite
  | EpUpload form fileID =>
      upload_route (env_sniff env) (env_image env) (env_save_text env) (env_store env) form fileID
  | EpDiagnostics svc =>
      diagnostics_route (svc := svc) (env_url env) (env_go_version env) (env_config env) (env_version env) (env_start env)
  end.

(** Registered by [NewRouter] itself. *)
Definition plain_route (ep : plain_endpoint) : handler :=
  match ep with
  | EpHealth => handleHealth (env_version env) (env_start env)
  | EpInfo => handleInfo (env_config env) (env_version env)
  end.
(** A server without a LiveKit client has no route there. *)
Definition when_livekit (next : handler) : handler := fun r =>
  lk ← hub (gets w_livekit);
  match lk with None => mret (mkResponse 404 [] None) | Some _ => next r end.
Definition restricted_route (ep : restricted_endpoint) : handler :=
  match ep with
  | EpLiveKitHealth svc => when_livekit (livekit_health_route (svc := svc) (env_adminCIDRs env))
  | EpMetrics svc mem => metrics_route (svc := svc) (env_float env) (env_adminCIDRs env) mem (env_start env)
  end.

(** [NewAdminAPI] *)
Definition setup_route (ep : setup_endpoint) : handler :=
  match ep with
  | EpSetupStatus => handleSetupStatus
  | EpSetup => handleSetup (env_bcrypt env) (env_sanitize env)
  end.

Definition admin_handler (ep : admin_endpoint) : handler :=
  match ep with
  | EpLogTicket => handleLogTicket
  | EpStats => handleGetStats (env_pages env) (env_page_size env)
  | EpUsers => handleListUsers
  | EpPatchUser => handlePatchUser
  | EpForceLogout => handleForceLogout
  | EpAdminChannels => handleAdminListChannels
  | EpCreateChannel => handleCreateChannel
  | EpPatchChannel => handlePatchChannel
  | EpDeleteChannel => handleDeleteChannel
  | EpAuditLog => handleGetAuditLog
  | EpSettings => handleGetSettings
  | EpPatchSettings => handlePatchSettings (env_quote env) (env_db_text env)
  | EpCheckUpdate => handleCheckUpdate (env_semver env) (env_update_text env)
  | EpListBackups => handleListBackups (env_cwd env) (env_mtime env)
  end.

Definition owner_handler (ep : owner_endpoint) : handler :=
  match ep with
  | EpBackup => handleBackup (env_cwd env) (env_db_image env)
  | EpDeleteBackup => handleDeleteBackup (env_cwd env)
  | EpRestoreBackup => handleRestoreBackup (env_cwd env) (env_db_image env) (env_partial env) (env_reload env)
  | EpApplyUpdate => fun _ =>
      x ← handleApplyUpdate (env_semver env) (env_hostname env) (env_update_text env) (env_partial env)
            (env_exe env) (env_symlink env);
      mret x.1
  end.

Definition route (ep : endpoint) : handler :=
  match ep with
  | Plain ep => plain_route ep
  | Restricted ep => restricted_route ep
  | Public ep => public_route ep
  | Authed ep => user_route ep
  | Setup ep => AdminIPRestrict (env_adminCIDRs env) (setup_route ep)
  | Admin ep => AdminIPRestrict (env_adminCIDRs env) (adminAuthMiddleware (admin_handler ep))
  | Owner ep =>
      AdminIPRestrict (env_adminCIDRs env) (adminAuthMiddleware (ownerOnlyMiddleware (owner_handler ep)))
  end.

(** A handler that panics is answered by chi's recoverer, which finds the headers
    set so far. *)
Definition recovered (rs : Response) : Response :=
  if rs_panic rs then env_recovered env (rs_headers rs) else rs.
Definition Recoverer (next : handler) : handler := fun r =>
  rs ← next r;
  mret (recovered rs).

(** [NewRouter]: the stack every request goes through. *)
Definition serve (ep : endpoint) : handler :=
  Recoverer (SecurityHeadersWithTLS (env_tls env) (MaxBodySizeUnless (2 ^ 20) ["/api/v1/uploads"] (route ep))).
End routes.

End Routes.
Export Routes.
