(* ===== verification/HttpInv.v ===== *)
(** * Reasoning about handlers

    The relation between two states of the server that differ in nothing but
    the passing of time and of faults, weakest-precondition rules for the calls
    the handlers make, and the tactic that walks through a handler. *)

From S2P Require Import Prelude Permissions RateLimiter GoText Wire Json GoTime Crypto Credentials Rows Store StoreInv Hub Net LogStream Updater Http AuthApi RestApi AdminApi.
#[local] Open Scope string_scope.
#[local] Open Scope Z_scope.

Module HttpInv.

Definition sdb (s : Server) : Db := sys_db (w_sys (sv_world s)).
Definition snow (s : Server) : Z := sys_now (w_sys (sv_world s)).
Definition with_sys (y : Sys) (s : Server) : Server := sv_set_world (w_set_sys y (sv_world s)) s.
Definition with_sdb (d : Db) (s : Server) : Server := with_sys (with_db d (w_sys (sv_world s))) s.

(** [s'] is [s] later: only the clock, the faults and the results of the coming
    file operations have moved. *)
Record quiet (s s' : Server) : Prop := {
  q_db : sdb s' = sdb s;
  q_now : snow s <= snow s';
  q_world : sv_world s' = w_set_sys (w_sys (sv_world s')) (sv_world s);
  q_rest : s' = sv_set_io (sv_io s') (sv_set_world (sv_world s') s) }.

Lemma server_eta (s : Server) : s = sv_set_io (sv_io s) (sv_set_world (sv_world s) s).
Proof. by destruct s. Qed.

#[export] Instance quiet_preorder : PreOrder quiet.
Proof.
  split.
  - intros s. split; [done|lia| |].
    + by destruct (sv_world s).
    + apply server_eta.
  - intros a b c [H1 H2 H3 H4] [G1 G2 G3 G4]. split; [congruence|lia| |].
    + by rewrite G3, H3.
    + rewrite G4, H4. by destruct a.
Qed.

Lemma quiet_with_sys y s : sys_db y = sdb s -> snow s <= sys_now y -> quiet s (with_sys y s).
Proof. intros H1 H2. split; simpl; [done|done|by destruct (sv_world s)|by destruct s]. Qed.

Lemma quiet_io bs s : quiet s (sv_set_io bs s).
Proof. split; simpl; [done|apply Z.le_refl|by destruct (sv_world s)|by destruct s]. Qed.

(** What a quiet step leaves. *)
Lemma quiet_fields s s' : quiet s s' ->
  sv_disk s' = sv_disk s /\ sv_partial s' = sv_partial s /\ sv_pending s' = sv_pending s /\
  sv_setup s' = sv_setup s /\ sv_tickets s' = sv_tickets s /\ sv_updater s' = sv_updater s /\
  sv_random s' = sv_random s /\ sv_net s' = sv_net s /\ sv_sent s' = sv_sent s /\
  w_limiter (sv_world s') = w_limiter (sv_world s) /\ w_broadcast (sv_world s') = w_broadcast (sv_world s) /\
  w_conns (sv_world s') = w_conns (sv_world s) /\ w_clients (sv_world s') = w_clients (sv_world s).
Proof. intros [_ _ H3 H4]. rewrite H4. simpl. rewrite H3. by repeat split. Qed.

(** ** Rules *)

Lemma sys_wp {A} (m : ST Sys A) (Q : A -> Server -> Prop) s :
  Q (m (w_sys (sv_world s))).1 (with_sys (m (w_sys (sv_world s))).2 s) -> wp (db m) Q s.
Proof. done. Qed.

Lemma wp_clock (Q : Z -> Server -> Prop) s :
  (forall t s', quiet s s' -> snow s <= t -> snow s' = t -> Q t s') -> wp clock Q s.
Proof.
  intros H. apply sys_wp. unfold read_clock. cbn [fst snd].
  apply H; [apply quiet_with_sys; [apply tick_db|apply tick_now]|apply tick_now|done].
Qed.

Lemma exec_clock {A} (f : Z -> Db -> result db_error (A * Db)) y : sys_now y <= sys_now (exec f y).2.
Proof.
  pose proof (tick_now y). unfold exec. destruct (faulty (tick y)); [done|].
  by destruct (f _ _) as [e|[a d]].
Qed.

(** A SELECT fails, or gives its rows. *)
Lemma wp_query {A} (f : Db -> A) (Q : result db_error A -> Server -> Prop) s :
  (forall r s', quiet s s' -> (exists e, r = inl e) \/ r = inr (f (sdb s)) -> Q r s') -> wp (db (query f)) Q s.
Proof.
  intros H. apply sys_wp. destruct (query_cases f (w_sys (sv_world s))) as [Hd Hr].
  apply H; [apply quiet_with_sys; [done|apply exec_clock]|done].
Qed.

(** A statement fails and changes nothing, or has its effect. *)
Lemma wp_exec {A} (f : Z -> Db -> result db_error (A * Db)) (Q : result db_error A -> Server -> Prop) s :
  (forall e s', quiet s s' -> Q (inl e) s') ->
  (forall now a d s', snow s <= now -> f now (sdb s) = inr (a, d) -> quiet (with_sdb d s) s' -> Q (inr a) s') ->
  wp (db (exec f)) Q s.
Proof.
  intros H1 H2. apply sys_wp. pose proof (exec_clock f (w_sys (sv_world s))) as Hn.
  destruct (exec_cases f (w_sys (sv_world s))) as [(e & -> & Hd)|(now & a & d & -> & Hf & Hd & Ht)].
  - apply H1, quiet_with_sys; [done|exact Hn].
  - apply (H2 now a d); [done|done|].
    replace (with_sys (exec f (w_sys (sv_world s))).2 s)
      with (with_sys (exec f (w_sys (sv_world s))).2 (with_sdb d s)) by (by destruct s as [[]]).
    apply quiet_with_sys; [done|exact Hn].
Qed.

Lemma wp_update (f : Z -> Db -> Db) (Q : result db_error unit -> Server -> Prop) s :
  (forall e s', quiet s s' -> Q (inl e) s') ->
  (forall now s', snow s <= now -> quiet (with_sdb (f now (sdb s)) s) s' -> Q (inr tt) s') ->
  wp (db (update f)) Q s.
Proof.
  intros H1 H2. apply wp_exec; [done|]. intros now [] d s' Hn [= <-] Hq. by apply (H2 now).
Qed.

Lemma wp_io (Q : bool -> Server -> Prop) s : (forall b s', quiet s s' -> Q b s') -> wp io_ok Q s.
Proof. intros H. unfold wp, io_ok. destruct (sv_io s); apply H; [reflexivity|apply quiet_io]. Qed.

Lemma wp_act {A} (f : Server -> A * Server) (Q : A -> Server -> Prop) s : Q (f s).1 (f s).2 -> wp (act f) Q s.
Proof. done. Qed.

Lemma wp_hub {A} (m : M A) (Q : A -> Server -> Prop) s :
  Q (m (sv_world s)).1 (sv_set_world (m (sv_world s)).2 s) -> wp (hub m) Q s.
Proof. done. Qed.

Lemma wp_db_bind {A B} (m : ST Sys A) (k : A -> ST Sys B) (Q : B -> Server -> Prop) s :
  wp (db m) (fun a => wp (db (k a)) Q) s -> wp (db (m ≫= k)) Q s.
Proof. unfold wp, db, hub, sys, mbind, ST_bind. by destruct s as [[]]. Qed.

Lemma stay_db s : with_sys (w_sys (sv_world s)) s = s.
Proof. by destruct s as [[]]. Qed.

Lemma or_return_wp {A B} (m : ST Sys (result db_error A)) (k : A -> ST Sys (result db_error B)) s
    (Q : result db_error B -> Server -> Prop) :
  wp (db m) (fun x s' => match x with inl e => Q (inl e) s' | inr a => wp (db (k a)) Q s' end) s ->
  wp (db (or_return m k)) Q s.
Proof.
  intros H. unfold or_return. apply wp_db_bind. eapply wp_mono; [exact H|]. intros [e|a] s'; cbv beta iota; [|done].
  intros HQ. apply sys_wp. cbn [mret ST_ret fst snd]. by rewrite stay_db.
Qed.

Lemma wp_if {A} (b : bool) (m n : H A) (Q : A -> Server -> Prop) s :
  (b = true -> wp m Q s) -> (b = false -> wp n Q s) -> wp (if b then m else n) Q s.
Proof. destruct b; auto. Qed.

(** ** The same from an earlier state

    A handler reads what was there when it began, as long as it has only read.
    [R] is what has changed so far: nothing ([quiet]), or nothing in the database
    and the stores a theorem is about. *)

Lemma quiet_with_sdb d s s' : quiet s s' -> quiet (with_sdb d s) (with_sdb d s').
Proof.
  intros [H1 H2 H3 H4]. split; [done|exact H2| |].
  - simpl. rewrite H3. by destruct (sv_world s).
  - rewrite H4. by destruct s.
Qed.

Class View (R : Server -> Server -> Prop) := {
  view_trans : Transitive R;
  view_quiet : forall s s', quiet s s' -> R s s';
  view_db : forall s s', R s s' -> sdb s' = sdb s;
  view_now : forall s s', R s s' -> snow s <= snow s';
  view_set : forall d s s', R s s' -> R (with_sdb d s) (with_sdb d s') }.

#[export] Instance quiet_view : View quiet.
Proof. split; [apply quiet_preorder|done|apply q_db|apply q_now|apply quiet_with_sdb]. Qed.

(** The limiter and the hub may have moved. *)
Record kept (s s' : Server) : Prop := {
  k_db : sdb s' = sdb s;
  k_now : snow s <= snow s';
  k_partial : sv_partial s' = sv_partial s;
  k_disk : sv_disk s' = sv_disk s;
  k_settled : sv_pending s' = sv_pending s /\ sv_tickets s' = sv_tickets s /\ sv_updater s' = sv_updater s }.

#[export] Instance kept_view : View kept.
Proof.
  split.
  - intros a b c [A1 A2 A3 A4 (A5 & A6 & A7)] [B1 B2 B3 B4 (B5 & B6 & B7)]. repeat split; congruence || lia.
  - intros s s' Hq. pose proof (quiet_fields s s' Hq) as (? & ? & ? & _ & ? & ? & _). destruct Hq. by repeat split.
  - apply k_db.
  - apply k_now.
  - intros d s s' [H1 H2 H3 H4 H5]. by split.
Qed.

Lemma kept_refl s : kept s s.
Proof. by apply view_quiet. Qed.

Lemma kept_allow k l win s : kept s (hub (allow k l win) s).2.
Proof.
  split; unfold sdb, snow; simpl; rewrite ?tick_db; try done. etrans; apply tick_now.
Qed.
Lemma kept_locked k s : kept s (limiter_locked k s).2.
Proof. split; unfold sdb, snow; simpl; rewrite ?tick_db; try done. apply tick_now. Qed.
Lemma kept_lockout k d s : kept s (limiter_lockout k d s).2.
Proof. split; unfold sdb, snow; simpl; rewrite ?tick_db; try done. apply tick_now. Qed.
Lemma kept_reset k s : kept s (limiter_reset k s).2.
Proof. split; unfold sdb, snow; simpl; done || lia. Qed.
Lemma kept_random s : kept s (rand_read s).2.
Proof. unfold rand_read. destruct (sv_random s); split; simpl; done || apply Z.le_refl. Qed.

Section since.
Context (R : Server -> Server -> Prop) `{!View R} (s0 s : Server) (Hs : R s0 s).

Lemma since_quiet s' : quiet s s' -> R s0 s'.
Proof. intros Hq. eapply view_trans; [done|by apply view_quiet]. Qed.

Lemma since_clock (Q : Z -> Server -> Prop) :
  (forall t s', R s0 s' -> snow s0 <= t -> Q t s') -> wp clock Q s.
Proof.
  intros H. apply wp_clock. intros t s' Hq Ht _. apply H; [by apply since_quiet|]. pose proof (view_now _ _ Hs). lia.
Qed.

Lemma since_query {A} (f : Db -> A) (Q : result db_error A -> Server -> Prop) :
  (forall e s', R s0 s' -> Q (inl e) s') -> (forall s', R s0 s' -> Q (inr (f (sdb s0))) s') ->
  wp (db (query f)) Q s.
Proof.
  intros H1 H2. apply wp_query. rewrite (view_db _ _ Hs). intros r s' Hq [[e ->]| ->].
  - by apply H1, since_quiet.
  - by apply H2, since_quiet.
Qed.

Lemma since_exec {A} (f : Z -> Db -> result db_error (A * Db)) (Q : result db_error A -> Server -> Prop) :
  (forall e s', R s0 s' -> Q (inl e) s') ->
  (forall now a d s', snow s0 <= now -> f now (sdb s0) = inr (a, d) -> R (with_sdb d s0) s' -> Q (inr a) s') ->
  wp (db (exec f)) Q s.
Proof.
  intros H1 H2. apply wp_exec.
  - intros e s' Hq. by apply H1, since_quiet.
  - intros now a d s' Hn Hf Hq. rewrite (view_db _ _ Hs) in Hf. apply (H2 now a d); [|done|].
    + pose proof (view_now _ _ Hs). lia.
    + eapply view_trans; [by apply view_set|by apply view_quiet].
Qed.

Lemma since_update (f : Z -> Db -> Db) (Q : result db_error unit -> Server -> Prop) :
  (forall e s', R s0 s' -> Q (inl e) s') ->
  (forall now s', snow s0 <= now -> R (with_sdb (f now (sdb s0)) s0) s' -> Q (inr tt) s') ->
  wp (db (update f)) Q s.
Proof.
  intros H1 H2. apply since_exec; [done|]. intros now [] d s' Hn [= <-] Hq. by apply (H2 now).
Qed.

(** A single row that may be missing. *)
Lemma since_setting key (Q : result db_error string -> Server -> Prop) :
  (forall e s', R s0 s' -> e <> ErrNotFound \/ settings (sdb s0) !! key = None -> Q (inl e) s') ->
  (forall v s', R s0 s' -> settings (sdb s0) !! key = Some v -> Q (inr v) s') ->
  wp (db (GetSetting key)) Q s.
Proof.
  intros H1 H2. apply sys_wp. unfold GetSetting.
  match goal with |- context [exec ?f ?y] => pose proof (exec_clock f y) as Hn; set (g := f) in *; set (y0 := y) in * end.
  assert (Hdb : sys_db y0 = sdb s0) by apply (view_db _ _ Hs).
  assert (Hq : forall d, d = sys_db (exec g y0).2 -> d = sdb s0 -> R s0 (with_sys (exec g y0).2 s)).
  { intros d E1 E2. apply since_quiet, quiet_with_sys; [|done]. rewrite <- E1, E2. symmetry. apply (view_db _ _ Hs). }
  unfold exec in *. rewrite tick_db in *. destruct (faulty (tick y0)).
  - apply H1; [|by left]. eapply Hq; [done|]. simpl. by rewrite tick_db.
  - unfold g in *. rewrite Hdb in *. destruct (settings (sdb s0) !! key) as [v|] eqn:E.
    + apply H2; [|done]. by eapply Hq.
    + apply H1; [|by right]. eapply Hq; [done|]. simpl. by rewrite tick_db.
Qed.

Lemma since_io (Q : bool -> Server -> Prop) : (forall b s', R s0 s' -> Q b s') -> wp io_ok Q s.
Proof. intros H. apply wp_io. intros b s' Hq. by apply H, since_quiet. Qed.

(** Any call that stays within [R]. *)
Lemma since_call {A} (m : H A) (Q : A -> Server -> Prop) :
  (forall s, R s (m s).2) -> (forall a s', R s0 s' -> Q a s') -> wp m Q s.
Proof. intros Hm H. apply H. eapply view_trans; [done|apply Hm]. Qed.
End since.

(** A statement about a run, from its weakest precondition. *)
Lemma wp_pair {W A} (m : ST W A) (Q : A -> W -> Prop) w : wp m Q w -> let '(a, w') := m w in Q a w'.
Proof. unfold wp. by destruct (m w). Qed.

(** ** Refusals *)

(** A response that says no. *)
Definition refusal (rs : Response) : Prop := rs_panic rs = false /\ (rs_status rs = 401 \/ rs_status rs = 403).

(** The postcondition of a refusal that leaves no trace. *)
Definition refused (s : Server) (rs : Response) (s' : Server) : Prop := refusal rs /\ quiet s s'.

End HttpInv.
Export HttpInv.

(** One step through a handler that has only read since [s0]. *)
Ltac hread Hs :=
  lazymatch goal with
  | |- wp clock _ _ => refine (since_clock _ _ _ Hs _ _)
  | |- wp io_ok _ _ => refine (since_io _ _ _ Hs _ _)
  | |- wp (db (GetSetting _)) _ _ => refine (since_setting _ _ _ Hs _ _ _ _)
  | |- wp (db _) _ _ => refine (since_query _ _ _ Hs _ _ _ _)
  | |- wp (hub (allow _ _ _)) _ _ => refine (since_call kept _ _ Hs _ _ (kept_allow _ _ _) _)
  | |- wp (limiter_locked _) _ _ => refine (since_call kept _ _ Hs _ _ (kept_locked _) _)
  | |- wp (limiter_lockout _ _) _ _ => refine (since_call kept _ _ Hs _ _ (kept_lockout _ _) _)
  | |- wp (limiter_reset _) _ _ => refine (since_call kept _ _ Hs _ _ (kept_reset _) _)
  | |- wp rand_read _ _ => refine (since_call kept _ _ Hs _ _ kept_random _)
  end.

Ltac hstep :=
  lazymatch goal with
  | |- wp (_ ≫= _) _ _ => apply wp_bind
  | |- wp (mret _) _ _ => apply wp_ret
  | |- wp (reject _ _ _) _ _ => apply wp_ret
  | |- wp (internal _) _ _ => apply wp_ret
  | |- wp (bad_request _) _ _ => apply wp_ret
  | |- wp (respond _ _) _ _ => apply wp_ret
  | |- wp no_content _ _ => apply wp_ret
  | |- wp (if ?b then _ else _) _ _ => let E := fresh "E" in destruct b eqn:E
  | |- wp (match ?x with _ => _ end) _ _ => let E := fresh "E" in destruct x eqn:E
  | Hs : quiet _ ?s |- wp _ _ ?s => hread Hs; clear Hs; intros; cbv beta
  | Hs : kept _ ?s |- wp _ _ ?s => hread Hs; clear Hs; intros; cbv beta
  end.
