(* ===== verification/AuthThms.v ===== *)
(** * Who may call what

    The endpoints behind the middleware run only for a live session: of a user
    who is not banned in the REST API, of an administrator at an allowed address
    in the administration API, of the owner for backups and updates. Any other
    request is refused and leaves no trace. *)

From S2P Require Import Prelude Permissions RateLimiter GoText Wire Json GoTime Crypto Credentials Rows Store StoreInv Hub Net LogStream Updater Config Http AuthApi RestApi Storage LiveKitProxy Status Uploads AdminApi Updates Routes HttpInv.
#[local] Open Scope string_scope.
#[local] Open Scope Z_scope.

Module AuthThms.

(** The bearer token of the request is that of a session that has not expired,
    at a time of the request's treatment. *)
Record live_session (r : Request) (s : Server) (token : string) (sess : Session) (user : User) : Prop := {
  ls_token : Cred.ExtractBearerToken (header r "Authorization") = Some token;
  ls_session : session_by_token (HashToken token) (sdb s) = Some sess;
  ls_live : exists t, snow s <= t /\ Cred.IsSessionExpired t (s_expires sess) = false;
  ls_user : users (sdb s) !! s_user sess = Some user }.

Definition unbanned (s : Server) (user : User) : Prop :=
  exists t, snow s <= t /\ Cred.IsEffectivelyBanned t (user_ban user) = false.

(** The session's last use may have been noted. *)
Definition touch_session (hash : string) (now : Z) (d : Db) : Db :=
  set_sessions ((fun x => if String.eqb (s_token x) hash then session_touch (datetime_now now) x else x)
    <$> sessions d) d.
Definition touched (hash : string) (s s' : Server) : Prop :=
  quiet s s' \/ exists now, snow s <= now /\ quiet (with_sdb (touch_session hash now (sdb s)) s) s'.

Lemma refused_intro s s' (Q : Response -> Server -> Prop) status code msg :
  quiet s s' -> status = 401 \/ status = 403 -> (forall rs s', refused s rs s' -> Q rs s') ->
  Q (writeJSON status (errorResponse code msg)) s'.
Proof. intros Hq Hs H. apply H. by split; [split|]. Qed.

(** A refusal after nothing but reads. *)
Ltac refuse H := apply wp_ret; eapply refused_intro; [eassumption|first [by left|by right]|exact H].

Section middleware.
Context (next : handler) (r : Request) (s : Server) (Q : Response -> Server -> Prop).

(** [AuthMiddleware] refuses, or runs [next] for the session's user. *)
Lemma AuthMiddleware_wp :
  (forall rs s', refused s rs s' -> Q rs s') ->
  (forall token sess user s', live_session r s token sess user -> unbanned s user ->
     touched (HashToken token) s s' ->
     wp (next (with_context user sess (roles (sdb s) !! u_role user) r)) Q s') ->
  wp (AuthMiddleware next r) Q s.
Proof.
  intros Hno Hyes. unfold AuthMiddleware. assert (H0 : quiet s s) by reflexivity.
  destruct (Cred.ExtractBearerToken _) as [token|] eqn:Etok; [|refuse Hno].
  hstep. hstep; [refuse Hno|]. destruct (session_by_token _ _) as [sess|] eqn:Hsess; [|refuse Hno].
  hstep. hstep. hstep; [refuse Hno|]. rename t into t1, H0 into Ht1.
  hstep. hstep; [refuse Hno|]. destruct (users _ !! _) as [user|] eqn:Huser; [|refuse Hno].
  hstep. hstep. hstep; [refuse Hno|]. rename t into t2, H0 into Ht2.
  hstep. hstep; [refuse Hno|]. hstep.
  assert (Hlive : live_session r s token sess user) by (split; eauto).
  assert (Hun : unbanned s user) by (exists t2; auto).
  match goal with H : quiet s _ |- _ => refine (since_update _ _ _ H _ _ _ _) end.
  - intros e s9 Hq. apply (Hyes token sess user); [done|done|by left].
  - intros now s9 Hn Hq. apply (Hyes token sess user); [done|done|]. right. by exists now.
Qed.
End middleware.

(** The same for an administrator. *)
Record admin_session (r : Request) (s : Server) (token : string) (sess : Session) (user : User) (role : Role) : Prop := {
  as_live : live_session r s token sess user;
  as_role : roles (sdb s) !! u_role user = Some role;
  as_admin : HasAdmin (r_permissions role) = true }.

Lemma adminAuthMiddleware_wp next r s (Q : Response -> Server -> Prop) :
  (forall rs s', refused s rs s' -> Q rs s') ->
  (forall token sess user role s', admin_session r s token sess user role -> quiet s s' ->
     wp (next (with_context user sess (rq_role r) r)) Q s') ->
  wp (adminAuthMiddleware next r) Q s.
Proof.
  intros Hno Hyes. unfold adminAuthMiddleware. assert (H0 : quiet s s) by reflexivity.
  destruct (Cred.ExtractBearerToken _) as [token|] eqn:Etok; [|refuse Hno].
  hstep. hstep; [refuse Hno|]. destruct (session_by_token _ _) as [sess|] eqn:Hsess; [|refuse Hno].
  hstep. hstep. hstep; [refuse Hno|]. rename t into t1, H0 into Ht1.
  hstep. hstep; [refuse Hno|]. destruct (users _ !! _) as [user|] eqn:Huser; [|refuse Hno].
  hstep. hstep; [refuse Hno|]. destruct (roles _ !! _) as [role|] eqn:Hrole; [|refuse Hno].
  hstep; [|refuse Hno]. eapply Hyes; [|eassumption]. split; [split; eauto|done|done].
Qed.

Lemma AdminIPRestrict_wp cidrs next r s (Q : Response -> Server -> Prop) :
  (forall rs s', refused s rs s' -> Q rs s') ->
  (cidrs = [] \/ trusted_by (clientIP r) cidrs = true -> wp (next r) Q s) ->
  wp (AdminIPRestrict cidrs next r) Q s.
Proof.
  intros Hno Hyes. unfold AdminIPRestrict. assert (Hs : quiet s s) by reflexivity.
  destruct cidrs as [|c cidrs]; [by apply Hyes; left|].
  hstep; [by apply Hyes; right|refuse Hno].
Qed.

Lemma ownerOnlyMiddleware_wp next r s0 s (Q : Response -> Server -> Prop) user role : quiet s0 s ->
  rq_user r = Some user -> roles (sdb s0) !! u_role user = Some role ->
  (forall rs s', refused s0 rs s' -> Q rs s') ->
  (forall s', OwnerRolePosition <= r_position role -> quiet s0 s' -> wp (next r) Q s') ->
  wp (ownerOnlyMiddleware next r) Q s.
Proof.
  intros Hs Hu Hr Hno Hyes. unfold ownerOnlyMiddleware. rewrite Hu.
  hstep. hstep; [refuse Hno|]. rewrite Hr. hstep; [refuse Hno|]. bools. by apply Hyes.
Qed.

(** The router's outer layers change neither the header nor the address, add
    headers to the response, and answer where the handler has panicked. *)
Definition trimmed (r : Request) : Request :=
  if existsb (String.eqb (rq_path r)) ["/api/v1/uploads"] then r else limit_body (2 ^ 20) r.
Definition secured (env : Env) (rs : Response) : Response :=
  recovered env (add_headers (security_headers (env_tls env)) rs).

Lemma serve_wp env ep r s (Q : Response -> Server -> Prop) :
  wp (route env ep (trimmed r)) (fun rs => Q (secured env rs)) s -> wp (serve env ep r) Q s.
Proof.
  intros H. unfold serve, Recoverer, SecurityHeadersWithTLS. do 2 apply wp_bind. unfold MaxBodySizeUnless.
  unfold trimmed in H. by destruct (existsb _ _).
Qed.

Lemma secured_refused env s rs s' : refused s rs s' -> refused s (secured env rs) s'.
Proof. intros [[Hp Hr] Hq]. unfold secured, recovered. simpl. rewrite Hp. by split; [split|]. Qed.
#[export] Hint Resolve secured_refused : http_db.

Lemma trimmed_header r : rq_header (trimmed r) = rq_header r /\ rq_RemoteAddr (trimmed r) = rq_RemoteAddr r.
Proof. unfold trimmed, limit_body. repeat case_match; done. Qed.

Lemma live_trimmed r s token sess user : live_session (trimmed r) s token sess user -> live_session r s token sess user.
Proof. intros [H1 H2 H3 H4]. split; try done. unfold header in *. by rewrite (proj1 (trimmed_header r)) in H1. Qed.

Lemma clientIP_trimmed r : clientIP (trimmed r) = clientIP r.
Proof. unfold clientIP, clientIPWithProxies. by rewrite (proj2 (trimmed_header r)). Qed.

(** The handler behind [AuthMiddleware]. *)
Definition user_handler (env : Env) (ep : user_endpoint) : handler :=
  let proxies := env_proxies env in
  match ep with
  | EpLogout => handleLogout
  | EpMe => handleMe
  | EpDeleteAccount => RateLimitMiddleware 5 Minute proxies (handleDeleteAccount (env_compare env))
  | EpEnableTOTP => RateLimitMiddleware 5 Minute proxies (handleEnableTOTP (env_compare env))
  | EpConfirmTOTP => RateLimitMiddleware 5 Minute proxies (handleConfirmTOTP (env_compare env))
  | EpDisableTOTP => RateLimitMiddleware 5 Minute proxies (handleDisableTOTP (env_compare env))
  | EpListChannels => handleListChannels
  | EpMessages => handleGetMessages
  | EpPins => handleGetPins
  | EpPin => handleSetPinned true
  | EpUnpin => handleSetPinned false
  | EpSearch => rateLimitMiddlewareWithPrefix "search:" 30 Minute proxies (handleSearch (env_fts env))
  | EpCreateDM => handleCreateDM
  | EpListDMs => handleListDMs
  | EpCloseDM => handleCloseDM
  | EpCreateInvite => RequirePermission ManageInvites handleCreateInvite
  | EpListInvites => RequirePermission ManageInvites handleListInvites
  | EpRevokeInvite => RequirePermission ManageInvites handleRevokeInvite
  | EpUpload form fileID => MaxBodySize (100 * 1024 * 1024)
      (fun _ => handleUpload (env_sniff env) (env_image env) (env_save_text env) (env_store env) form fileID)
  | EpDiagnostics svc => handleDiagnosticsConnectivity (svc := svc) (env_url env) (env_go_version env)
      (env_config env) (env_version env) (env_start env)
  end.

Lemma user_route_auth env ep : user_route env ep = AuthMiddleware (user_handler env ep).
Proof. by destruct ep. Qed.

End AuthThms.
Export AuthThms.

(** C5: whatever the request, the state and the failures, an endpoint of the REST
    API that needs a user either refuses with 401 or 403 and changes nothing, or
    runs its handler as the user of a session that the bearer token names, that
    is live and whose user is not banned, with the role of that user. *)
Theorem auth_required env ep r s :
  let '(rs, s') := serve env (Authed ep) r s in
  refused s rs s' \/
  exists token sess user s1, live_session r s token sess user /\ unbanned s user /\
    touched (HashToken token) s s1 /\
    let '(rs1, s2) := user_handler env ep (with_context user sess (roles (sdb s) !! u_role user) (trimmed r)) s1 in
    rs = secured env rs1 /\ s' = s2.
Proof.
  apply wp_pair, serve_wp. cbn [route]. rewrite user_route_auth.
  apply AuthMiddleware_wp; [auto with http_db|]. intros token sess user s1 Hl Hu Ht. right.
  exists token, sess, user, s1. apply live_trimmed in Hl. repeat (split; [done|]).
  by rewrite (surjective_pairing (user_handler _ _ _ _)).
Qed.

(** C6: an endpoint of the administration API either refuses with 401 or 403 and
    changes nothing, or is called from an allowed address with a live session of
    a user whose role has the Administrator bit, and, for backups, restorations
    and updates, the position of the owner. *)
Theorem admin_required env ep r s :
  let '(rs, s') := serve env ep r s in
  match ep with
  | Admin _ | Owner _ =>
      refused s rs s' \/
      exists token sess user role, admin_session r s token sess user role /\
        (env_adminCIDRs env = [] \/ trusted_by (clientIP r) (env_adminCIDRs env) = true) /\
        match ep with Owner _ => OwnerRolePosition <= r_position role | _ => True end
  | _ => True
  end.
Proof.
  destruct ep as [ep|ep|ep|ep|ep|ep|ep]; try (by destruct (serve _ _ _ _)); apply wp_pair, serve_wp; cbn [route];
    (apply AdminIPRestrict_wp; [auto with http_db|]; rewrite clientIP_trimmed; intros Hip);
    (apply adminAuthMiddleware_wp; [auto with http_db|]; intros token sess user role s1 [Hl Hr Ha] Hq; apply live_trimmed in Hl).
  - right. exists token, sess, user, role. split; [by split|]. by split.
  - eapply ownerOnlyMiddleware_wp; [exact Hq|done|exact Hr|auto with http_db|].
    intros s2 Hpos _. right. exists token, sess, user, role. split; [by split|]. by split.
Qed.
