(* ===== verification/HttpFrame.v ===== *)
(** * What the endpoints keep

    Every handler is a composition of a few primitive effects: database calls,
    the limiter, broadcasts and sends, files, stores of its own. A predicate of
    the process that these keep is kept by every endpoint ([kp_serve]). *)

From S2P Require Import Prelude Permissions RingBuffer RateLimiter GoText Wire Json GoTime Crypto Credentials Rows Store StoreInv StoreOk StoreThms Hub Chat Voice Serve WsInv WsOk WsRun Net LogStream Updater Config Http AuthApi RestApi Storage LiveKitProxy Status Uploads AdminApi Updates Routes.
#[local] Open Scope string_scope.
#[local] Open Scope Z_scope.

Module HttpFrame.

Notation files := (gmap string string).

(** What keeps the predicate [I] of the process and of the files. *)
Definition keeps {A} (I : World -> files -> Prop) (m : H A) : Prop :=
  forall s, I (sv_world s) (sv_disk s) -> I (sv_world (m s).2) (sv_disk (m s).2).

(** Neither the process nor the files. *)
Definition private (s s' : Server) : Prop := sv_world s' = sv_world s /\ sv_disk s' = sv_disk s.

Section rules.
Context (I : World -> files -> Prop).

Lemma keeps_ret {A} (a : A) : keeps I (mret a).
Proof. intros s Hs. exact Hs. Qed.
Lemma keeps_bind {A B} (m : H A) (k : A -> H B) : keeps I m -> (forall a, keeps I (k a)) -> keeps I (m ≫= k).
Proof. intros Hm Hk s Hs. apply Hk, Hm, Hs. Qed.
Lemma keeps_gets {A} (f : Server -> A) : keeps I (gets f).
Proof. intros s Hs. exact Hs. Qed.
Lemma keeps_act {A} (f : Server -> A * Server) : (forall s, private s (f s).2) -> keeps I (act f).
Proof. intros Hf s Hs. unfold act. destruct (Hf s) as [-> ->]. exact Hs. Qed.
Lemma keeps_modify (f : Server -> Server) : (forall s, private s (f s)) -> keeps I (modify f).
Proof. intros Hf s Hs. simpl. destruct (Hf s) as [-> ->]. exact Hs. Qed.
Lemma keeps_hub {A} (m : M A) : (forall d, stable (fun w => I w d) m) -> keeps I (hub m).
Proof. intros Hm s Hs. by apply Hm. Qed.
Lemma keeps_forM {A} (l : list A) (f : A -> H unit) : (forall x, keeps I (f x)) -> keeps I (forM_ l f).
Proof. intros Hf. induction l as [|x l IH]; [apply keeps_ret|]. by apply keeps_bind. Qed.
Lemma keeps_io : keeps I io_ok.
Proof. apply (keeps_act io_ok). intros s. unfold io_ok. by destruct (sv_io s). Qed.
Lemma keeps_rand : keeps I rand_read.
Proof. apply (keeps_act rand_read). intros s. unfold rand_read. by destruct (sv_random s). Qed.
Lemma keeps_get url tok : keeps I (do_get url tok).
Proof. apply (keeps_act (do_get url tok)). intros s. unfold do_get. cbn zeta. by destruct (sv_net _). Qed.
End rules.

Create HintDb http_db.
#[export] Hint Resolve keeps_ret keeps_gets keeps_io keeps_rand keeps_get : http_db.

(** Walks through a handler, leaving the primitives to the hints. *)
Ltac hwalk_step :=
  match goal with
  | |- keeps _ (mret _) => apply keeps_ret
  | |- keeps _ (gets _) => apply keeps_gets
  | |- keeps _ (_ ≫= _) => apply keeps_bind; [|intros ?]
  | |- keeps _ (forM_ _ _) => apply keeps_forM; intros ?
  | |- keeps _ (if ?b then _ else _) => destruct b
  | |- keeps _ (match ?x with _ => _ end) => destruct x
  | |- keeps _ (let _ := _ in _) => cbv zeta
  | |- keeps _ (reject _ _ _) => apply keeps_ret
  | |- keeps _ (respond _ _) => apply keeps_ret
  | |- keeps _ no_content => apply keeps_ret
  | |- keeps _ (internal _) => apply keeps_ret
  | |- keeps _ (bad_request _) => apply keeps_ret
  | |- keeps _ (bad_id _) => apply keeps_ret
  | |- keeps _ nil_dereference => apply keeps_ret
  | |- keeps _ not_authenticated => apply keeps_ret
  | |- keeps _ (modify _) => apply keeps_modify; intros ?; split; reflexivity
  | |- keeps _ (act _) => apply keeps_act; intros ?; cbn -[sv_disk]; repeat case_match; split; reflexivity
  end.
Ltac hwalk := repeat (hwalk_step || solve [auto 4 with http_db nocore]); auto with http_db.

(** ** The database calls of the HTTP side *)

(** The calls that write; those that make a session, pin a message, delete a
    channel or delete an account only where [b] allows it. *)
Inductive gate := GSession | GPin (messageID : Z) | GDelete (channelID : Z) | GWipe (userID : Z).
Definition anything (g : gate) : bool := true.

Inductive http_write (b : gate -> bool) : forall A, ST Sys A -> Prop :=
| hw_CreateSession u t dv ip : b GSession = true -> http_write b _ (CreateSession u t dv ip)
| hw_LogAudit a x t i d : http_write b _ (LogAudit a x t i d)
| hw_CreateUserWithInvite n p r c : http_write b _ (CreateUserWithInvite n p r c)
| hw_CreateUser n p r : http_write b _ (CreateUser n p r)
| hw_UpdateUserTOTPSecret i x : http_write b _ (UpdateUserTOTPSecret i x)
| hw_DeleteSession t : http_write b _ (DeleteSession t)
| hw_DeleteAccount i : b (GWipe i) = true -> http_write b _ (DeleteAccount i)
| hw_TouchSession t : http_write b _ (TouchSession t)
| hw_SetMessagePinned i x : b (GPin i) = true -> http_write b _ (SetMessagePinned i x)
| hw_GetOrCreateDMChannel u1 u2 : http_write b _ (GetOrCreateDMChannel u1 u2)
| hw_CloseDM u c : http_write b _ (CloseDM u c)
| hw_CreateInvite c u m e : http_write b _ (CreateInvite c u m e)
| hw_RevokeInvite c : http_write b _ (RevokeInvite c)
| hw_CreateAttachment i f st m n w h : http_write b _ (CreateAttachment i f st m n w h)
| hw_BanUser i r e : http_write b _ (BanUser i r e)
| hw_UnbanUser i : http_write b _ (UnbanUser i)
| hw_UpdateUserRole i r : http_write b _ (UpdateUserRole i r)
| hw_ForceLogoutUser i : http_write b _ (ForceLogoutUser i)
| hw_CreateChannel n t c tp p : http_write b _ (CreateChannel n t c tp p)
| hw_AdminUpdateChannel i n tp s p a : http_write b _ (AdminUpdateChannel i n tp s p a)
| hw_DeleteChannel i : b (GDelete i) = true -> http_write b _ (DeleteChannel i)
| hw_SetSetting k v : http_write b _ (SetSetting k v).
#[export] Hint Constructors http_write : http_db.

Lemma writes_db_ok b A (m : ST Sys A) : http_write b A m -> preserves db_ok m.
Proof. destruct 1; auto with store_db. Qed.

(** [P] is about the database, [may] tells the files that may change, [I] is
    about the process and the files. *)
Record http_inv (b : gate -> bool) (P : Db -> Prop) (may : string -> Prop) (I : World -> files -> Prop) : Prop := {
  hi_write : forall A (m : ST Sys A), http_write b A m -> preserves P m;
  hi_call : forall d A (m : ST Sys A), preserves P m -> stable (fun w => I w d) (sys m);
  hi_limits : forall d r w, I w d -> I (w_set_limiter r w) d;
  hi_try : forall d q msg, stable (fun w => I w d) (trySendMsg q msg);
  hi_queue : forall d c msg, stable (fun w => I w d) (BroadcastToChannel c msg);
  hi_put : forall w d p c, may p -> I w d -> I w (<[p := c]> d);
  hi_drop : forall w d p, may p -> I w d -> I w (delete p d) }.

Section http.
Context (b : gate -> bool) (P : Db -> Prop) (may : string -> Prop) (I : World -> files -> Prop) (HI : http_inv b P may I).

Lemma kp_reads {A} (m : ST Sys A) : reads m -> keeps I (db m).
Proof. intros Hm. apply keeps_hub. intros d. by apply (hi_call _ _ _ _ HI), reads_preserves. Qed.
Lemma kp_query {A} (f : Db -> A) : keeps I (db (query f)).
Proof. apply kp_reads, reads_query. Qed.
Lemma kp_write {A} (m : ST Sys A) : http_write b A m -> keeps I (db m).
Proof. intros Hm. apply keeps_hub. intros d. by apply (hi_call _ _ _ _ HI), (hi_write _ _ _ _ HI). Qed.
Lemma kp_preserves {A} (m : ST Sys A) : preserves P m -> keeps I (db m).
Proof. intros Hm. apply keeps_hub. intros d. by apply (hi_call _ _ _ _ HI). Qed.
#[local] Hint Resolve kp_query kp_write : http_db.
#[local] Hint Extern 5 (keeps _ (db _)) => apply kp_reads; solve [auto with ws_db nocore] : http_db.
#[local] Hint Extern 6 (keeps _ (db _)) => apply kp_query : http_db.

Lemma kp_clock : keeps I clock.
Proof. apply kp_reads, reads_clock. Qed.
Lemma kp_all msg : keeps I (hub (BroadcastToAll msg)).
Proof. apply keeps_hub. intros d. apply HI. Qed.
Lemma kp_SendToUser u msg : keeps I (hub (SendToUser u msg)).
Proof.
  apply keeps_hub. intros d. unfold SendToUser, lookup_client. apply stable_bind; [apply stable_gets|].
  intros [q|]; [apply HI|apply stable_ret].
Qed.
Lemma kp_count : keeps I (hub ClientCount).
Proof. apply keeps_hub. intros d. apply stable_gets. Qed.
#[local] Hint Resolve kp_clock kp_all kp_SendToUser kp_count : http_db.
#[local] Hint Extern 4 (keeps _ (hub (BroadcastServerRestart _ _))) => apply kp_all : http_db.
#[local] Hint Extern 4 (keeps _ (hub (BroadcastChannelCreate _))) => apply kp_all : http_db.
#[local] Hint Extern 4 (keeps _ (hub (BroadcastChannelUpdate _))) => apply kp_all : http_db.
#[local] Hint Extern 4 (keeps _ (hub (BroadcastChannelDelete _))) => apply kp_all : http_db.
#[local] Hint Extern 4 (keeps _ (hub (BroadcastMemberBan _))) => apply kp_all : http_db.
#[local] Hint Extern 4 (keeps _ (hub (BroadcastMemberUpdate _ _))) => apply kp_all : http_db.

Lemma kp_allow k l win : keeps I (hub (allow k l win)).
Proof.
  apply keeps_hub. intros d. unfold allow. do 2 (apply stable_bind; [apply (hi_call _ _ _ _ HI), preserves_read_clock|intros ?]).
  intros w Hw. by apply HI.
Qed.
Lemma kp_locked k : keeps I (limiter_locked k).
Proof.
  apply keeps_bind; [apply kp_clock|intros t]. apply keeps_hub. intros d w Hw. by apply HI.
Qed.
Lemma kp_lockout k dur : keeps I (limiter_lockout k dur).
Proof.
  apply keeps_bind; [apply kp_clock|intros t]. apply keeps_hub. intros d. apply stable_modify. intros w Hw. by apply HI.
Qed.
Lemma kp_reset k : keeps I (limiter_reset k).
Proof. apply keeps_hub. intros d. apply stable_modify. intros w Hw. by apply HI. Qed.
#[local] Hint Resolve kp_allow kp_locked kp_lockout kp_reset : http_db.

Lemma kp_gets {A} (f : World -> A) : keeps I (hub (gets f)).
Proof. apply keeps_hub. intros d. apply stable_gets. Qed.

(** *** Status *)

Lemma kp_lk_health svc : keeps I (hub (LiveKitHealthCheck (svc := svc))).
Proof. apply keeps_hub. intros d. apply stable_bind; [apply stable_gets|intros ?; apply stable_ret]. Qed.
#[local] Hint Resolve kp_lk_health : http_db.
Lemma kp_health ver start r : keeps I (handleHealth ver start r).
Proof. unfold handleHealth. hwalk. Qed.
Lemma kp_info cfg ver r : keeps I (handleInfo cfg ver r).
Proof. apply keeps_ret. Qed.
Lemma kp_livekit_health svc r : keeps I (handleLiveKitHealth (svc := svc) r).
Proof. unfold handleLiveKitHealth. hwalk. Qed.
Lemma kp_diagnostics svc parse gv cfg ver start r :
  keeps I (handleDiagnosticsConnectivity (svc := svc) parse gv cfg ver start r).
Proof. unfold handleDiagnosticsConnectivity. hwalk. Qed.
Lemma kp_metrics svc f mem start r : keeps I (handleMetrics (svc := svc) f mem start r).
Proof. unfold handleMetrics. hwalk; apply kp_gets. Qed.

(** *** Middleware *)

Lemma kp_auth next : (forall r, keeps I (next r)) -> forall r, keeps I (AuthMiddleware next r).
Proof. intros Hn r. unfold AuthMiddleware. hwalk. Qed.
Lemma kp_permission q next : (forall r, keeps I (next r)) -> forall r, keeps I (RequirePermission q next r).
Proof. intros Hn r. unfold RequirePermission. hwalk. Qed.
Lemma kp_rate prefix l win proxies next r : keeps I (next r) ->
  keeps I (rateLimitMiddlewareWithPrefix prefix l win proxies next r).
Proof. intros Hn. unfold rateLimitMiddlewareWithPrefix. hwalk. Qed.
Lemma kp_admin_auth next : (forall r, keeps I (next r)) -> forall r, keeps I (adminAuthMiddleware next r).
Proof. intros Hn r. unfold adminAuthMiddleware. hwalk. Qed.
Lemma kp_owner next : (forall r, keeps I (next r)) -> forall r, keeps I (ownerOnlyMiddleware next r).
Proof. intros Hn r. unfold ownerOnlyMiddleware. hwalk. Qed.
Lemma kp_restrict cidrs next : (forall r, keeps I (next r)) -> forall r, keeps I (AdminIPRestrict cidrs next r).
Proof. intros Hn r. unfold AdminIPRestrict. hwalk. Qed.

(** *** Authentication *)

Lemma kp_setting k d : keeps I (getBooleanSetting k d).
Proof. unfold getBooleanSetting. hwalk. Qed.
Lemma kp_2fa : keeps I isRequire2FAEnabled.
Proof. apply kp_setting. Qed.
Lemma kp_open : keeps I isRegistrationOpen.
Proof. apply kp_setting. Qed.
Lemma kp_issue u dv ip : b GSession = true -> keeps I (issueSession u dv ip).
Proof. intros Hb. unfold issueSession. hwalk. Qed.
#[local] Hint Resolve kp_2fa kp_open kp_issue : http_db.

Lemma kp_register hash san r : b GSession = true -> keeps I (handleRegister hash san r).
Proof. intros Hb. unfold handleRegister, register_policy, register_user, register_session. hwalk. Qed.
Lemma kp_login cmp proxies r : b GSession = true -> keeps I (handleLogin cmp proxies r).
Proof. intros Hb. unfold handleLogin, login_failed, login_user, partial_issue. hwalk. Qed.
Lemma kp_verify r : b GSession = true -> keeps I (handleVerifyTOTP r).
Proof. intros Hb. unfold handleVerifyTOTP, verify_code, partial_lookup, partial_failure, partial_consume. hwalk. Qed.
Lemma kp_logout r : keeps I (handleLogout r).
Proof. unfold handleLogout. hwalk. Qed.
Lemma kp_me r : keeps I (handleMe r).
Proof. unfold handleMe. hwalk. Qed.
Lemma kp_delete_account cmp r : (forall u, rq_user r = Some u -> b (GWipe (u_id u)) = true) ->
  keeps I (handleDeleteAccount cmp r).
Proof.
  intros Hb. unfold handleDeleteAccount. destruct (rq_user r) as [u|]; [|apply keeps_ret].
  specialize (Hb u eq_refl). hwalk.
Qed.
Lemma kp_enable cmp r : keeps I (handleEnableTOTP cmp r).
Proof. unfold handleEnableTOTP, pending_put. hwalk. Qed.
Lemma kp_confirm cmp r : keeps I (handleConfirmTOTP cmp r).
Proof. unfold handleConfirmTOTP, pending_lookup, pending_delete. hwalk. Qed.
Lemma kp_disable cmp r : keeps I (handleDisableTOTP cmp r).
Proof. unfold handleDisableTOTP, pending_delete. hwalk. Qed.

(** *** Channels, messages, invites, files *)

Lemma kp_api_messages c bf l u : keeps I (db (GetMessagesForAPI c bf l u)).
Proof.
  apply kp_preserves, preserves_or_return; [apply preserves_query|intros ms].
  unfold scanAndEnrichMessages. destruct ms; [apply preserves_ret|].
  apply preserves_or_return; [apply preserves_query|intros ?].
  apply preserves_or_return; [apply reads_preserves, reads_attachments|intros ?; apply preserves_ret].
Qed.
Lemma kp_pins c u : keeps I (db (GetPinnedMessages c u)).
Proof.
  apply kp_preserves, preserves_or_return; [apply preserves_query|intros ms].
  unfold scanAndEnrichMessages. destruct ms; [apply preserves_ret|].
  apply preserves_or_return; [apply preserves_query|intros ?].
  apply preserves_or_return; [apply reads_preserves, reads_attachments|intros ?; apply preserves_ret].
Qed.
Lemma kp_search fts q c l : keeps I (db (SearchMessages fts q c l)).
Proof.
  apply kp_preserves. unfold SearchMessages. destruct (_ || _); [apply preserves_ret|].
  apply preserves_bind; [apply preserves_query|intros ?; apply preserves_ret].
Qed.
Lemma kp_types l : keeps I (db (GetChannelTypes l)).
Proof. unfold GetChannelTypes. destruct l; [apply kp_reads, reads_ret|apply kp_query]. Qed.
#[local] Hint Resolve kp_api_messages kp_pins kp_search kp_types : http_db.

Lemma kp_perm role c q : keeps I (hasChannelPermREST role c q).
Proof. unfold hasChannelPermREST. hwalk. Qed.
Lemma kp_overrides role : keeps I (role_overrides role).
Proof. unfold role_overrides. hwalk. Qed.
#[local] Hint Resolve kp_perm kp_overrides : http_db.
Lemma kp_on_channel r c q msg k : keeps I k -> keeps I (on_channel r c q msg k).
Proof. intros Hk. unfold on_channel, rest_access. hwalk. Qed.

Lemma kp_list r : keeps I (handleListChannels r).
Proof. unfold handleListChannels. hwalk. Qed.
Lemma kp_messages r : keeps I (handleGetMessages r).
Proof.
  unfold handleGetMessages. destruct (parseIDParam r "id"); [|apply keeps_ret].
  apply kp_on_channel. unfold get_messages. hwalk.
Qed.
Lemma kp_get_pins r : keeps I (handleGetPins r).
Proof. unfold handleGetPins. destruct (parseIDParam r "id"); [|apply keeps_ret]. apply kp_on_channel. hwalk. Qed.
Lemma kp_set_pinned x r : (forall i, b (GPin i) = true) -> keeps I (handleSetPinned x r).
Proof.
  intros Hb. unfold handleSetPinned. do 2 (destruct (parseIDParam r _); [|apply keeps_ret]).
  apply kp_on_channel. unfold set_pinned. hwalk.
Qed.
Lemma kp_filter r ov ty l : keeps I (search_filter r ov ty l).
Proof. induction l as [|x l IH]; simpl; [apply keeps_ret|]. unfold search_visible. hwalk. Qed.
#[local] Hint Resolve kp_filter : http_db.
Lemma kp_handle_search fts r : keeps I (handleSearch fts r).
Proof. unfold handleSearch, search_respond. hwalk. Qed.
Lemma kp_create_dm r : keeps I (handleCreateDM r).
Proof. unfold handleCreateDM. hwalk. Qed.
Lemma kp_list_dms r : keeps I (handleListDMs r).
Proof. unfold handleListDMs. hwalk. Qed.
Lemma kp_close_dm r : keeps I (handleCloseDM r).
Proof. unfold handleCloseDM. hwalk. Qed.
Lemma kp_create_invite u m e : keeps I (create_invite u m e).
Proof. unfold create_invite, generateInviteCode. hwalk. Qed.
#[local] Hint Resolve kp_create_invite : http_db.
Lemma kp_handle_invite r : keeps I (handleCreateInvite r).
Proof. unfold handleCreateInvite, create_invite_for. hwalk. Qed.
Lemma kp_list_invites r : keeps I (handleListInvites r).
Proof. unfold handleListInvites. hwalk. Qed.
Lemma kp_revoke r : keeps I (handleRevokeInvite r).
Proof. unfold handleRevokeInvite. hwalk. Qed.

Lemma kp_write_file p c : may p -> keeps I (write_file p c).
Proof. intros Hp s Hs. by apply HI. Qed.
Lemma kp_remove_file p : may p -> keeps I (remove_file p).
Proof. intros Hp s Hs. by apply HI. Qed.
Lemma kp_remove p : may p -> keeps I (os_Remove p).
Proof.
  intros Hp. apply keeps_bind; [apply keeps_io|intros ok]. intros s Hs. unfold act.
  repeat case_match; [by apply HI|done..].
Qed.
Lemma kp_rename p q : may p -> may q -> keeps I (os_Rename p q).
Proof.
  intros Hp Hq. apply keeps_bind; [apply keeps_io|intros ok]. intros s Hs. unfold act.
  repeat case_match; try done. apply (hi_put _ _ _ _ HI); [done|]. by apply (hi_drop _ _ _ _ HI).
Qed.
#[local] Hint Resolve kp_write_file kp_remove_file kp_remove kp_rename : http_db.

(** [p] is where the storage puts a file of this name. *)
Definition stored_at (st : Storage) (name p : string) : Prop := checked_path st name = Some p.
Lemma kp_save st u rd : (forall p, stored_at st u p -> may p) -> keeps I (Save st u rd).
Proof.
  intros Hp. unfold Save. destruct (checked_path st u) as [p|] eqn:E; [|apply keeps_ret].
  specialize (Hp p E). unfold save_to. hwalk.
Qed.
Lemma kp_delete st u : (forall p, stored_at st u p -> may p) -> keeps I (Delete st u).
Proof.
  intros Hp. unfold Delete. destruct (checked_path st u) as [p|] eqn:E; [|apply keeps_ret].
  by apply kp_remove, Hp.
Qed.
Lemma kp_file st u : keeps I (Open st u).
Proof. unfold Open. hwalk. Qed.
#[local] Hint Resolve kp_save kp_delete kp_file : http_db.
Lemma kp_upload sniff img txt st form id : (forall p, stored_at st id p -> may p) ->
  keeps I (handleUpload sniff img txt st form id).
Proof. intros Hp. unfold handleUpload, record_upload, image_dimensions. hwalk. Qed.
Lemma kp_serve_file disp st origins r : keeps I (handleServeFile disp st origins r).
Proof. unfold handleServeFile. hwalk. Qed.

(** *** Administration *)

Lemma preserves_tx {A} e1 e2 (body : ST Sys (result Response A)) : preserves P body -> preserves P (tx e1 e2 body).
Proof.
  intros Hb y Hy. unfold tx. pose proof (query_db (fun _ => tt) y) as H1.
  destruct (query (fun _ => tt) y) as [[e|u] s1]; simpl in *; [by rewrite H1|].
  rewrite <- H1 in Hy. specialize (Hb s1 Hy). destruct (body s1) as [[e|a] s2]; simpl in *; [done|].
  pose proof (query_db (fun _ => tt) s2) as H2.
  destruct (query (fun _ => tt) s2) as [[e|v] s3]; simpl in *; [done|by rewrite H2].
Qed.
Lemma preserves_stmt {A B} (m : ST Sys (result db_error A)) e (k : ST Sys (result Response B)) :
  http_write b _ m -> preserves P k -> preserves P (stmt m e k).
Proof.
  intros Hm Hk. apply preserves_bind; [by apply (hi_write _ _ _ _ HI)|]. intros [e'|a]; [apply preserves_ret|done].
Qed.
Lemma kp_patch_tx i req : keeps I (db (patch_user_tx i req)).
Proof.
  apply kp_preserves, preserves_tx.
  destruct (pu_RoleID req); [apply preserves_stmt; [auto with http_db|]|];
    (destruct (pu_Banned req) as [[]|]; [apply preserves_stmt; [auto with http_db|]..|]; apply preserves_ret).
Qed.
Lemma kp_settings_tx m : keeps I (db (settings_tx m)).
Proof.
  apply kp_preserves, preserves_tx. induction (map_to_list m) as [|[k v] l IH]; [apply preserves_ret|].
  apply preserves_stmt; [auto with http_db|done].
Qed.
Lemma kp_stats p1 p2 : keeps I (db (GetServerStats p1 p2)).
Proof.
  apply kp_preserves. do 6 (apply preserves_or_return; [apply preserves_query|intros ?]). apply preserves_ret.
Qed.
#[local] Hint Resolve kp_patch_tx kp_settings_tx kp_stats : http_db.

Lemma kp_get_stats p1 p2 r : keeps I (handleGetStats p1 p2 r).
Proof. unfold handleGetStats. hwalk. Qed.
Lemma kp_users r : keeps I (handleListUsers r).
Proof. unfold handleListUsers. hwalk. Qed.
Lemma kp_patch_user r : keeps I (handlePatchUser r).
Proof. unfold handlePatchUser, patch_user_announce, toAdminUserResponseFromUser. hwalk. Qed.
Lemma kp_force_logout r : keeps I (handleForceLogout r).
Proof. unfold handleForceLogout. hwalk. Qed.
Lemma kp_admin_list r : keeps I (handleAdminListChannels r).
Proof. unfold handleAdminListChannels. hwalk. Qed.
Lemma kp_create_channel r : keeps I (handleCreateChannel r).
Proof. unfold handleCreateChannel, AdminCreateChannel. hwalk. Qed.
Lemma kp_patch_channel r : keeps I (handlePatchChannel r).
Proof. unfold handlePatchChannel, with_channel. hwalk. Qed.
Lemma kp_delete_channel r : (forall i, pathInt64 r "id" = Some i -> b (GDelete i) = true) -> keeps I (handleDeleteChannel r).
Proof.
  intros Hb. unfold handleDeleteChannel, with_channel, AdminDeleteChannel.
  destruct (pathInt64 r "id") as [i|]; [|apply keeps_ret]. specialize (Hb i eq_refl). hwalk.
Qed.
Lemma kp_audit r : keeps I (handleGetAuditLog r).
Proof. unfold handleGetAuditLog. hwalk. Qed.
Lemma kp_get_settings r : keeps I (handleGetSettings r).
Proof. unfold handleGetSettings. hwalk. Qed.
Lemma kp_target q txt m k : keeps I (targetBoolSetting q txt m k).
Proof. unfold targetBoolSetting. hwalk. Qed.
#[local] Hint Resolve kp_target : http_db.
Lemma kp_patch_settings q txt r : keeps I (handlePatchSettings q txt r).
Proof. unfold handlePatchSettings, validateRequire2FAUpdate, commit_settings. hwalk. Qed.
Lemma kp_setup_status r : keeps I (handleSetupStatus r).
Proof. unfold handleSetupStatus. hwalk. Qed.
Lemma kp_setup hash san r : b GSession = true -> keeps I (handleSetup hash san r).
Proof. intros Hb. unfold handleSetup, setup_allow, setup_create, setup_owner, setup_rest. hwalk. Qed.
Lemma kp_ticket r : keeps I (handleLogTicket r).
Proof. unfold handleLogTicket. hwalk. Qed.

(** *** Updates and backups *)

Lemma kp_check cmp : keeps I (CheckForUpdate cmp).
Proof. unfold CheckForUpdate, fetchLatestRelease. hwalk. Qed.
Lemma kp_os_open d : keeps I (os_Open d).
Proof. unfold os_Open. hwalk. Qed.
#[local] Hint Resolve kp_check kp_os_open : http_db.
Lemma kp_check_update cmp txt r : keeps I (handleCheckUpdate cmp txt r).
Proof. unfold handleCheckUpdate. hwalk. Qed.
Lemma kp_verified host part u c p : may p -> keeps I (DownloadAndVerify host part u c p).
Proof. intros Hp. unfold DownloadAndVerify, fetchBody, downloadFile, VerifyChecksum. hwalk. Qed.
#[local] Hint Resolve kp_verified : http_db.
(** [p] is where an update is downloaded. *)
Definition downloaded_at (exe : option string) (link : string -> option string) (p : string) : Prop :=
  exists x y, exe = Some x /\ link x = Some y /\ p = y +:+ ".new".
Lemma kp_apply_update cmp host txt part exe link : (forall p, downloaded_at exe link p -> may p) ->
  keeps I (handleApplyUpdate cmp host txt part exe link).
Proof.
  intros Hp. unfold handleApplyUpdate. destruct exe as [x|]; [destruct (link x) as [y|] eqn:E|]; [|hwalk..].
  assert (may (y +:+ ".new")) by (apply Hp; by exists x, y). hwalk.
Qed.
Lemma kp_apply exe sp : may exe -> may (exe +:+ ".new") -> may (exe +:+ ".old") -> keeps I (apply_update exe sp).
Proof. intros H1 H2 H3. unfold apply_update. hwalk. Qed.
Lemma kp_client_update cmp host r : keeps I (handleClientUpdate cmp host r).
Proof. unfold handleClientUpdate, FetchTextAsset, fetchBody. hwalk. Qed.

(** [p] is below the backups' directory. *)
Definition in_backups (cwd p : string) : Prop := HasPrefix p (Abs cwd backup_dir +:+ "/") = true.
Lemma kp_backup_to cwd img p : (forall q, in_backups cwd q -> may q) -> keeps I (BackupTo cwd img p).
Proof.
  intros Hp. unfold BackupTo, BackupToSafe. destruct (HasPrefix _ _) eqn:E; cbn [negb]; [|apply keeps_ret].
  apply Hp in E. unfold vacuum_into. hwalk.
  all: apply kp_preserves, preserves_exec; intros now d x d' Hd Ex; case_hyp Ex; by simplify_eq.
Qed.
#[local] Hint Resolve kp_backup_to : http_db.
Lemma kp_backup cwd img r : (forall q, in_backups cwd q -> may q) -> keeps I (handleBackup cwd img r).
Proof. intros Hp. unfold handleBackup. hwalk. Qed.
Lemma kp_list_backups cwd mtime r : keeps I (handleListBackups cwd mtime r).
Proof.
  assert (forall names, keeps I (backup_entries cwd mtime names)).
  { induction names as [|n names IH]; simpl; [apply keeps_ret|]. unfold backup_entry. hwalk. }
  unfold handleListBackups. hwalk.
Qed.
Lemma kp_on_backup cwd r k : (forall name, backup_name_ok cwd name = true -> keeps I (k name)) ->
  keeps I (on_backup cwd r k).
Proof.
  intros Hk. unfold on_backup. cbv zeta. destruct (backup_name_ok _ _) eqn:E; cbn [negb]; [|apply keeps_ret].
  apply Hk in E. hwalk.
Qed.
Lemma kp_delete_backup cwd r : (forall name, backup_name_ok cwd name = true -> may (Abs cwd (backup_path name))) ->
  keeps I (handleDeleteBackup cwd r).
Proof. intros Hp. apply kp_on_backup. intros name Hn. apply Hp in Hn. hwalk. Qed.
Lemma kp_overwrite rl p c : may p -> (forall d c, P d -> P (rl d c)) -> keeps I (overwrite rl p c).
Proof.
  intros Hp Hr. apply keeps_bind; [by apply kp_write_file|intros _].
  apply kp_preserves. intros y Hy. by apply Hr.
Qed.
#[local] Hint Resolve kp_overwrite : http_db.
Lemma kp_restore cwd img part rl r : (forall q, in_backups cwd q -> may q) -> may (Abs cwd db_file) ->
  (forall d c, P d -> P (rl d c)) -> keeps I (handleRestoreBackup cwd img part rl r).
Proof. intros Hp Hd Hr. apply kp_on_backup. intros name Hn. unfold copyFile. hwalk. Qed.

(** *** The router *)

(** The endpoints that make sessions. *)
Definition makes_session (ep : endpoint) : bool :=
  match ep with Public _ | Setup EpSetup => true | _ => false end.
(** What an endpoint may do of the gated calls. *)
Definition opens (ep : endpoint) (g : gate) : bool :=
  match g, ep with
  | GSession, _ => makes_session ep
  | GPin _, Authed (EpPin | EpUnpin) => true
  | GDelete _, Admin EpDeleteChannel => true
  | GWipe _, Authed EpDeleteAccount => true
  | _, _ => false
  end.

(** The files an endpoint may change. *)
Definition writes_file (env : Env) (ep : endpoint) (p : string) : Prop :=
  match ep with
  | Authed (EpUpload _ id) => stored_at (env_store env) id p
  | Owner EpBackup => in_backups (env_cwd env) p
  | Owner EpDeleteBackup => exists name, backup_name_ok (env_cwd env) name = true /\
      p = Abs (env_cwd env) (backup_path name)
  | Owner EpRestoreBackup => in_backups (env_cwd env) p \/ p = Abs (env_cwd env) db_file
  | Owner EpApplyUpdate => downloaded_at (env_exe env) (env_symlink env) p
  | _ => False
  end.

(** The endpoint that replaces the database. *)
Definition restores (ep : endpoint) : bool :=
  match ep with Owner EpRestoreBackup => true | _ => false end.
(** What a restoration leaves keeps [P]. *)
Definition reload_keeps (env : Env) (P : Db -> Prop) : Prop := forall d c, P d -> P (env_reload env d c).

Lemma kp_serve env ep r : (forall g, opens ep g = true -> b g = true) -> (forall p, writes_file env ep p -> may p) ->
  (restores ep = true -> reload_keeps env P) -> keeps I (serve env ep r).
Proof.
  intros Hep Hw Hrl. pose proof (Hep GSession) as Hsession. assert (Hpin := fun i => Hep (GPin i)).
  assert (Hdelete := fun i => Hep (GDelete i)). assert (Hwipe := fun u => Hep (GWipe u)).
  clear Hep. unfold serve, Recoverer, SecurityHeadersWithTLS, MaxBodySizeUnless.
  do 2 (apply keeps_bind; [|intros ?; apply keeps_ret]).
  assert (Hr : forall r', keeps I (route env ep r')); [|destruct (existsb _ _); apply Hr].
  destruct ep as [[]|[]|[]|[]|[]|[]|[]]; simpl in *;
    unfold register_route, login_route, verify_totp_route, logout_route, me_route, account_route,
      totp_enable_route, totp_confirm_route, totp_disable_route, channels_route, search_route, dms_route,
      invites_route, upload_route, diagnostics_route, when_livekit, livekit_health_route, metrics_route, RateLimitMiddleware, MaxBodySize;
    repeat first [apply kp_auth | apply kp_rate | apply kp_restrict | apply kp_admin_auth | apply kp_owner
      | apply kp_permission | lazymatch goal with |- forall r, _ => intros r' end];
    auto using kp_register, kp_login, kp_verify, kp_logout, kp_me, kp_delete_account, kp_enable, kp_confirm,
      kp_disable, kp_list, kp_messages, kp_get_pins, kp_set_pinned, kp_handle_search, kp_create_dm,
      kp_list_dms, kp_close_dm, kp_handle_invite, kp_list_invites, kp_revoke, kp_upload, kp_setup_status,
      kp_setup, kp_ticket, kp_get_stats, kp_users, kp_patch_user, kp_force_logout, kp_admin_list,
      kp_create_channel, kp_patch_channel, kp_delete_channel, kp_audit, kp_get_settings, kp_patch_settings,
      kp_check_update, kp_backup, kp_list_backups, kp_health, kp_info, kp_diagnostics.
  - apply keeps_bind; [apply kp_gets|]. intros [u|]; [apply kp_restrict, kp_livekit_health|apply keeps_ret].
  - apply kp_metrics.
  - apply kp_delete_backup. intros name Hn. apply Hw. by exists name.
  - apply kp_restore; [intros q Hq; apply Hw; by left|apply Hw; by right|by apply Hrl].
  - apply keeps_bind; [by apply kp_apply_update|intros ?; apply keeps_ret].
Qed.
End http.

End HttpFrame.
Export HttpFrame.
