(* ===== verification/Maintenance.v ===== *)
(** * Start-up and maintenance

    Model of [run] in Server/main.go, apart from the wiring: the start, which
    clears what a previous process left, and the tick of the maintenance loop.
    The files of the storage may be absent from a server that could not create
    its directory ([None]). *)

From S2P Require Import Prelude Permissions RingBuffer RateLimiter GoText Wire Json GoTime Crypto Credentials Rows Store StoreInv StoreOk StoreThms Hub Chat Voice Serve WsInv WsOk WsRun Net LogStream Updater Http AuthApi RestApi Storage Uploads AdminApi Updates Routes HttpInv HttpFrame.
#[local] Open Scope string_scope.
#[local] Open Scope Z_scope.

Module Maintenance.

(** ** Start *)

(** The binary an update has replaced is removed. *)
Definition clean_old_binary (exe : option string) : H unit :=
  match exe with
  | None => mret tt
  | Some exePath => _ ← os_Remove (exePath +:+ ".old"); mret tt
  end.

(** Nobody is online yet, nor in a voice room; failures are only logged. *)
Definition clear_stale_state : H unit :=
  _ ← db ResetAllUserStatuses;
  _ ← db ClearAllVoiceStates;
  mret tt.

(** What [NewRouter] makes anew in memory. *)
Definition new_process (version token : string) (lk : option string) (proc : option bool) (wf : list bool) : H unit :=
  modify (fun s => mkServer (NewHub (w_sys (sv_world s)) lk proc wf)
    (Cred.NewPartialAuthStore (10 * Minute)) (Cred.NewPendingTOTPStore (10 * Minute)) Limiter.NewRateLimiter ∅
    (NewUpdater version token "J3vb" "OwnCord") (sv_random s) (sv_disk s) (sv_io s) (sv_net s) (sv_sent s)).

(** A new process on the database and the files of the last one. *)
Definition restart (exe : option string) (version token : string) (lk : option string) (proc : option bool)
    (wf : list bool) : H unit :=
  _ ← clean_old_binary exe;
  _ ← clear_stale_state;
  new_process version token lk proc wf.

(** ** The maintenance loop *)

Definition maxConsecutiveFailures : Z := 5.

Definition purge_orphans (fileStorage : option Storage) : H bool :=
  now ← clock;
  r ← db (DeleteOrphanedAttachments (FormatISO (now - Hour)));
  match r with
  | inl _ => mret true
  | inr files =>
      _ ← match fileStorage with
          | Some st => forM_ files (fun filename => _ ← Delete st filename; mret tt)
          | None => mret tt
          end;
      mret false
  end.

(** A tick; the result is the next count of consecutive failures. *)
Definition maintenance_tick (fileStorage : option Storage) (consecutiveFailures : Z) : H Z :=
  if maxConsecutiveFailures <=? consecutiveFailures then mret (maxConsecutiveFailures - 1) else
  r ← db DeleteExpiredSessions;
  orphans_failed ← purge_orphans fileStorage;
  mret (if match r with inl _ => true | inr _ => orphans_failed end then consecutiveFailures + 1 else 0).

(** ** What they keep *)

(** What the start and the maintenance write. *)
Inductive background_write : forall A, ST Sys A -> Prop :=
| bw_sessions : background_write _ DeleteExpiredSessions
| bw_attachments cutoff : background_write _ (DeleteOrphanedAttachments cutoff)
| bw_statuses : background_write _ ResetAllUserStatuses
| bw_voice : background_write _ ClearAllVoiceStates.

Lemma background_ok A (m : ST Sys A) : background_write A m -> preserves db_ok m.
Proof. destruct 1; auto with store_db. Qed.

Section keeps.
Context (b : gate -> bool) (P : Db -> Prop) (may : string -> Prop) (I : World -> files -> Prop) (HI : http_inv b P may I).
Context (HP : forall A (m : ST Sys A), background_write A m -> preserves P m).

#[local] Hint Constructors background_write : core.
Lemma kp_background {A} (m : ST Sys A) : background_write A m -> keeps I (db m).
Proof. intros Hm. by eapply kp_preserves, HP. Qed.

Lemma kp_purge st : (forall s f p, st = Some s -> stored_at s f p -> may p) -> keeps I (purge_orphans st).
Proof.
  intros Hm. unfold purge_orphans. apply keeps_bind; [by eapply kp_clock|intros now].
  apply keeps_bind; [by apply kp_background|intros [e|fs]]; [apply keeps_ret|].
  apply keeps_bind; [|intros _; apply keeps_ret]. destruct st as [st|]; [|apply keeps_ret].
  apply keeps_forM. intros f. apply keeps_bind; [|intros _; apply keeps_ret].
  eapply kp_delete; [done|]. intros p. by apply Hm.
Qed.

Lemma kp_maintenance st n : (forall s f p, st = Some s -> stored_at s f p -> may p) ->
  keeps I (maintenance_tick st n).
Proof.
  intros Hm. unfold maintenance_tick. destruct (_ <=? _); [apply keeps_ret|].
  apply keeps_bind; [by apply kp_background|intros r].
  apply keeps_bind; [by apply kp_purge|intros ?; apply keeps_ret].
Qed.

Lemma kp_clean exe : (forall x, exe = Some x -> may (x +:+ ".old")) -> keeps I (clean_old_binary exe).
Proof.
  intros Hm. destruct exe as [x|]; [|apply keeps_ret]. apply keeps_bind; [|intros _; apply keeps_ret].
  by apply (kp_remove _ _ _ _ HI), Hm.
Qed.

Lemma kp_clear : keeps I clear_stale_state.
Proof.
  unfold clear_stale_state. apply keeps_bind; [by apply kp_background|intros _].
  apply keeps_bind; [by apply kp_background|intros _; apply keeps_ret].
Qed.
End keeps.

(** ** What a tick removes *)

Definition expired_at (now : Z) (x : Session) : bool :=
  text_lt (strftime_s (s_expires x)) (Some (strftime_now now)).

(** The rows of [m] that stay. *)
Definition staying `{Countable K} {V} (gone : V -> bool) (m : gmap K V) : gmap K V :=
  filter (fun '(_, v) => gone v = false) m.

Definition is_orphan (now : Z) (a : Attachment) : bool := orphaned (FormatISO (now - Hour)) a.

(** Files that are gone are those of the given names. *)
Definition only_removed (st : Storage) (names : list string) (d d' : gmap string string) : Prop :=
  forall p, d' !! p = d !! p \/ (d' !! p = None /\ exists f, f ∈ names /\ checked_path st f = Some p).

Lemma only_removed_trans st l1 l2 d1 d2 d3 :
  only_removed st l1 d1 d2 -> only_removed st l2 d2 d3 -> only_removed st (l1 ++ l2) d1 d3.
Proof.
  intros H1 H2 p. destruct (H2 p) as [E|(E & f & Hf & Hp)].
  - rewrite E. destruct (H1 p) as [E1|(E1 & f & Hf & Hp)]; [by left|right]. split; [done|].
    exists f. split; [set_solver|done].
  - right. split; [done|]. exists f. split; [set_solver|done].
Qed.

Lemma Delete_wp st f (Q : bool -> Server -> Prop) s :
  (forall r s', sdb s' = sdb s -> only_removed st [f] (sv_disk s) (sv_disk s') -> Q r s') -> wp (Delete st f) Q s.
Proof.
  intros H. unfold Delete. destruct (checked_path st f) as [p|] eqn:Hp; [|apply H; [done|by left]].
  apply wp_bind, wp_io. intros ok s1 Hq. pose proof (quiet_fields _ _ Hq) as (Hd & _).
  assert (Hdb := q_db _ _ Hq). apply wp_act.
  destruct (sv_disk s1 !! p) eqn:E; [destruct ok|]; apply H; try done; simpl; rewrite ?Hd; try (by left).
  intros q. destruct (decide (q = p)) as [->|Hne].
  - right. split; [apply lookup_delete_eq|]. exists f. split; [set_solver|done].
  - left. by apply lookup_delete_ne.
Qed.

Lemma Deletes_wp st names (Q : unit -> Server -> Prop) s :
  (forall s', sdb s' = sdb s -> only_removed st names (sv_disk s) (sv_disk s') -> Q tt s') ->
  wp (forM_ names (fun f => _ ← Delete st f; mret tt)) Q s.
Proof.
  revert s. induction names as [|f l IH]; intros s H; [apply H; [done|by left]|].
  apply wp_bind, wp_bind, Delete_wp. intros r s1 Hdb1 Hd1. apply wp_ret, IH. intros s2 Hdb2 Hd2.
  apply H; [congruence|]. by apply (only_removed_trans st [f] l _ (sv_disk s1)).
Qed.

Lemma staying_all `{Countable K} {V} (gone : V -> bool) (m : gmap K V) :
  (forall v, v ∈ List.filter gone (rows m) -> False) -> staying gone m = m.
Proof.
  intros Hno. apply map_filter_id. intros i v Hi. destruct (gone v) eqn:E; [|done]. exfalso.
  apply (Hno v). apply list_elem_of_In, filter_In. split; [|done].
  apply list_elem_of_In, elem_of_rows. by exists i.
Qed.

(** What the second half of a tick leaves of [s]. *)
Definition purged (st : option Storage) (s : Server) (failed : bool) (s' : Server) : Prop :=
  if failed then sdb s' = sdb s /\ sv_disk s' = sv_disk s
  else exists now, snow s <= now /\
    sdb s' = set_attachments (staying (is_orphan now) (attachments (sdb s))) (sdb s) /\
    match st with
    | Some store =>
        only_removed store (a_stored_as <$> List.filter (is_orphan now) (rows (attachments (sdb s))))
          (sv_disk s) (sv_disk s')
    | None => sv_disk s' = sv_disk s
    end.

Lemma set_attachments_same d : set_attachments (attachments d) d = d.
Proof. by destruct d. Qed.
Lemma set_sessions_same d : set_sessions (sessions d) d = d.
Proof. by destruct d. Qed.

Lemma purge_orphans_wp st s : wp (purge_orphans st) (purged st s) s.
Proof.
  unfold purge_orphans. apply wp_bind, wp_clock. intros now s1 Hq1 Hnow _.
  pose proof (quiet_fields _ _ Hq1) as (Hd1 & _). pose proof (q_db _ _ Hq1) as Hdb1.
  unfold DeleteOrphanedAttachments. apply wp_bind, or_return_wp, wp_query. rewrite Hdb1.
  change (orphaned (FormatISO (now - Hour))) with (is_orphan now).
  set (names := a_stored_as <$> List.filter (is_orphan now) (rows (attachments (sdb s)))).
  intros r s2 Hq2 Hr. pose proof (quiet_fields _ _ Hq2) as (Hd2 & _). pose proof (q_db _ _ Hq2) as Hdb2.
  destruct Hr as [[e ->]| ->]; [apply wp_ret; simpl; by rewrite Hdb2, Hd2|].
  assert (Hdone : forall s3, sdb s3 = set_attachments (staying (is_orphan now) (attachments (sdb s))) (sdb s) ->
    sv_disk s3 = sv_disk s ->
    wp (_ ← match st with
            | Some store => forM_ names (fun f => _ ← Delete store f; mret tt)
            | None => mret tt
            end; mret false) (purged st s) s3).
  { intros s3 Hdb3 Hd3. destruct st as [store|]; apply wp_bind.
    - apply Deletes_wp. intros s4 Hdb4 Hd4. apply wp_ret. exists now. rewrite Hdb4, <- Hd3. done.
    - apply wp_ret, wp_ret. by exists now. }
  destruct names as [|f l] eqn:E.
  - apply sys_wp. cbn [mret ST_ret fst snd]. rewrite stay_db. apply Hdone; [|congruence].
    rewrite Hdb2, Hdb1, staying_all; [by rewrite set_attachments_same|].
    intros v Hv. apply fmap_nil_inv in E. rewrite E in Hv. by apply elem_of_nil in Hv.
  - apply or_return_wp, wp_update.
    + intros e s3 Hq3. apply wp_ret. pose proof (quiet_fields _ _ Hq3) as (Hd3 & _).
      split; [rewrite (q_db _ _ Hq3); congruence|congruence].
    + intros now' s3 _ Hq3. apply sys_wp. cbn [mret ST_ret fst snd]. rewrite stay_db.
      pose proof (quiet_fields _ _ Hq3) as (Hd3 & _). apply Hdone; [|simpl in Hd3; congruence].
      rewrite (q_db _ _ Hq3). by rewrite Hdb2, Hdb1.
Qed.

(** ** Times as texts of two layouts *)

Lemma compare_same_prefix p x y : String.compare (p +:+ x) (p +:+ y) = String.compare x y.
Proof.
  induction p as [|c p IH]; [done|]. simpl. unfold Ascii.compare. by rewrite N.compare_refl.
Qed.

(** A layout up to the separator is the date. *)
Definition date_text (t : Z) : string :=
  let c := civil_from_days (t / ns_per_sec / 86400) in
  pad4 (c_year c) ("-" +:+ pad2 (c_month c) ("-" +:+ pad2 (c_day c) "")).

Lemma format_date sep suffix t : exists rest, format sep suffix t = date_text t +:+ sep +:+ rest.
Proof. eexists. unfold format, date_text, pad4, pad2. reflexivity. Qed.

End Maintenance.
Export Maintenance.

(** What the maintenance removes. After five failed ticks one is skipped, and
    changes nothing. Any other tick removes the sessions that have expired, and
    no other, and then the attachments whose upload is taken for older than one
    hour and that no message has, and no other, with their files, and no
    other file; when a statement fails its part is left as it was. Nothing else
    of the database changes, and the count of failures is reset exactly when
    both parts are done. *)
Theorem maintenance_removes_only st n s :
  let '(n', s') := maintenance_tick st n s in
  if maxConsecutiveFailures <=? n then s' = s /\ n' = maxConsecutiveFailures - 1 else
  exists purge_failed sess s1,
    sdb s1 = set_sessions sess (sdb s) /\ sv_disk s1 = sv_disk s /\ snow s <= snow s1 /\
    purged st s1 purge_failed s' /\
    ((sess = sessions (sdb s) /\ n' = n + 1) \/
     (exists now, snow s <= now /\ sess = staying (expired_at now) (sessions (sdb s)) /\
        n' = if purge_failed then n + 1 else 0)).
Proof.
  apply (wp_pair (maintenance_tick st n)). unfold maintenance_tick.
  destruct (_ <=? n); [by apply wp_ret|]. apply wp_bind, wp_update.
  - intros e s1 Hq. apply wp_bind. eapply wp_mono; [apply purge_orphans_wp|]. intros failed s2 Hp. apply wp_ret.
    exists failed, (sessions (sdb s)), s1. pose proof (quiet_fields _ _ Hq) as (Hd & _).
    rewrite set_sessions_same. destruct Hq. auto 10.
  - intros now s1 Hn Hq. apply wp_bind. eapply wp_mono; [apply purge_orphans_wp|]. intros failed s2 Hp. apply wp_ret.
    exists failed, (staying (expired_at now) (sessions (sdb s))), s1.
    pose proof (quiet_fields _ _ Hq) as (Hd & _). destruct Hq as [Hdb Hnow _ _].
    repeat (split; [done|]). right. exists now. by destruct failed.
Qed.

(** The age of an unlinked upload is taken by the day: SQLite writes
    "2006-01-02 15:04:05" and the cutoff is "2006-01-02T14:04:05Z", which are
    compared as texts, and a space comes before a T. So an upload of the day of
    the cutoff is removed at the next tick, however recent it is. *)
Theorem upload_removed_same_day now t a
    (Hunlinked : a_message a = None) (Htime : a_uploaded_at a = FormatSQL t)
    (Hday : t / ns_per_sec / 86400 = (now - Hour) / ns_per_sec / 86400) :
  is_orphan now a = true.
Proof.
  unfold is_orphan, orphaned. rewrite Hunlinked, Htime. unfold FormatSQL, FormatISO.
  destruct (format_date " " "" t) as [r1 ->]. destruct (format_date "T" "Z" (now - Hour)) as [r2 ->].
  replace (date_text t) with (date_text (now - Hour)) by (unfold date_text; by rewrite Hday).
  unfold String.ltb. by rewrite compare_same_prefix.
Qed.

(** One minute after the upload, at noon. *)
Lemma upload_removed_same_day_witness :
  let t := 1700049600 * Second in
  let a := mkAttachment "id" None "cat.png" "id" "image/png" 10 (FormatSQL t) None None in
  is_orphan (t + Minute) a = true.
Proof.
  intros t a. apply (upload_removed_same_day (t + Minute) t a).
  - reflexivity.
  - reflexivity.
  - vm_compute. reflexivity.
Defined.
