(* ===== verification/Tls.v ===== *)
(** * TLS set-up

    Model of Server/auth/tls.go. What crypto/x509 and ecdsa make of the random
    source is an input ([Material]); [pem] is the text of a PEM block,
    [key_pair] whether [tls.LoadX509KeyPair] accepts the contents of two files,
    [partial] what a failing write leaves. Paths are absolute. *)

From S2P Require Import Prelude Permissions RateLimiter GoText Wire Json GoTime Crypto Credentials Rows Store Hub Net LogStream Updater Config Http AuthApi RestApi Storage AdminApi Updates.
#[local] Open Scope string_scope.
#[local] Open Scope Z_scope.

Module Tls.

(** A [tls.Config] of the repository: a loaded pair, or the manager of ACME;
    both require TLS 1.2 at least. *)
Inductive TLSConf :=
| TlsPair (certificate key : string)
| TlsAcme (host cacheDir : string).

(** [tr_HTTPHandler]: the handler for port 80, which answers challenges and
    redirects the rest to this host. *)
Record TLSResult := mkTLSResult { tr_TLSConfig : option TLSConf; tr_HTTPHandler : option string }.

Inductive tls_error :=
| TlsGenerate | TlsLoad | TlsNoDomain | TlsIPDomain | TlsWildcard | TlsCacheDir | TlsUnknownMode (mode : string).

(** What the generation of a key, a serial number, a certificate and the
    encoding of the key gave. *)
Record Material := mkMaterial {
  mt_key : bool; mt_serial : bool; mt_certDER : option string; mt_keyDER : option string }.

(** The certificate asked for: self-signed, for ten years from [now]. *)
Definition validity : Z := 10 * 365 * 24 * Hour.

Section tls.
Context (pem : string -> string -> string) (key_pair : string -> string -> bool) (partial : string -> string).

(** Opening with [O_CREATE|O_TRUNC], then writing. *)
Definition writePEM (path pemType data : string) : H bool :=
  opened ← io_ok;
  if negb opened then mret false else
  _ ← write_file path "";
  written ← io_ok;
  _ ← write_file path (if written : bool then pem pemType data else partial (pem pemType data));
  mret written.

Definition fileExists (path : string) : H bool :=
  ok ← io_ok; there ← gets (fun s => bool_decide (is_Some (sv_disk s !! path))); mret (ok && there).

(** [true] when both files were written. *)
Definition GenerateSelfSigned (mt : Material) (certFile keyFile : string) : H bool :=
  if negb (mt_key mt) then mret false else
  if negb (mt_serial mt) then mret false else
  match mt_certDER mt with
  | None => mret false
  | Some certDER =>
      cert ← writePEM certFile "CERTIFICATE" certDER;
      if negb cert then mret false else
      match mt_keyDER mt with
      | None => mret false
      | Some keyDER => writePEM keyFile "EC PRIVATE KEY" keyDER
      end
  end.

Definition loadCertPair (certFile keyFile : string) : H (result tls_error TLSConf) :=
  cert ← os_Open certFile;
  match cert with
  | None => mret (inl TlsLoad)
  | Some c =>
      key ← os_Open keyFile;
      mret (match key with
            | Some k => if key_pair c k then inr (TlsPair c k) else inl TlsLoad
            | None => inl TlsLoad
            end)
  end.

Definition loadOrGenerateSelfSigned (mt : Material) (cfg : TLSConfig) : H (result tls_error TLSConf) :=
  certExists ← fileExists (tc_CertFile cfg);
  keyExists ← fileExists (tc_KeyFile cfg);
  made ← (if negb certExists || negb keyExists then GenerateSelfSigned mt (tc_CertFile cfg) (tc_KeyFile cfg)
          else mret true);
  if negb made then mret (inl TlsGenerate) else loadCertPair (tc_CertFile cfg) (tc_KeyFile cfg).

(** The autocert manager of x/crypto serves the domain only. *)
Definition loadACME (cfg : TLSConfig) : H (result tls_error TLSResult) :=
  if String.eqb (tc_Domain cfg) "" then mret (inl TlsNoDomain) else
  match ParseIP (tc_Domain cfg) with
  | Some _ => mret (inl TlsIPDomain)
  | None =>
      if HasPrefix (tc_Domain cfg) "*." || Contains_text (tc_Domain cfg) "*" then mret (inl TlsWildcard) else
      let cacheDir := if String.eqb (tc_AcmeCacheDir cfg) "" then "data/acme_certs" else tc_AcmeCacheDir cfg in
      made ← io_ok;
      if negb made then mret (inl TlsCacheDir) else
      mret (inr (mkTLSResult (Some (TlsAcme (tc_Domain cfg) cacheDir)) (Some (tc_Domain cfg))))
  end.

(** The redirect of the handler for port 80. *)
Definition acme_redirect (host requestURI : string) : Z * string := (301, "https://" +:+ host +:+ requestURI).

Definition plain (r : result tls_error TLSConf) : result tls_error TLSResult :=
  match r with inl e => inl e | inr c => inr (mkTLSResult (Some c) None) end.

Definition LoadOrGenerate (mt : Material) (cfg : TLSConfig) : H (result tls_error TLSResult) :=
  if String.eqb (tc_Mode cfg) "off" then mret (inr (mkTLSResult None None)) else
  if String.eqb (tc_Mode cfg) "self_signed" then r ← loadOrGenerateSelfSigned mt cfg; mret (plain r) else
  if String.eqb (tc_Mode cfg) "manual" then r ← loadCertPair (tc_CertFile cfg) (tc_KeyFile cfg); mret (plain r) else
  if String.eqb (tc_Mode cfg) "acme" then loadACME cfg else
  mret (inl (TlsUnknownMode (tc_Mode cfg))).

(** ** Files *)

(** No file but these two changes. *)
Definition only_files (a b : string) (d d' : gmap string string) : Prop :=
  forall q, q <> a -> q <> b -> d' !! q = d !! q.

Lemma writePEM_disk path ty data s :
  let '(ok, s') := writePEM path ty data s in
  (forall q, q <> path -> sv_disk s' !! q = sv_disk s !! q) /\
  (ok = true -> sv_disk s' !! path = Some (pem ty data)).
Proof.
  unfold writePEM, write_file, modify, mbind, ST_bind.
  pose proof (io_ok_disk s) as E1. destruct (io_ok s) as [[] s1]; simpl in *; [|by rewrite E1].
  set (s2 := sv_set_disk _ s1). pose proof (io_ok_disk s2) as E2.
  destruct (io_ok s2) as [w s3]; simpl in *. split.
  - intros q Hq. rewrite lookup_insert_ne, E2 by done. by rewrite lookup_insert_ne, E1.
  - intros ->. by rewrite lookup_insert_eq.
Qed.

Lemma generate_disk mt a b s :
  let '(ok, s') := GenerateSelfSigned mt a b s in
  only_files a b (sv_disk s) (sv_disk s') /\
  (ok = true -> exists c k, mt_certDER mt = Some c /\ mt_keyDER mt = Some k /\
     sv_disk s' !! b = Some (pem "EC PRIVATE KEY" k) /\
     (a <> b -> sv_disk s' !! a = Some (pem "CERTIFICATE" c))).
Proof.
  unfold GenerateSelfSigned, mbind, ST_bind.
  destruct (mt_key mt); simpl; [|by split]. destruct (mt_serial mt); simpl; [|by split].
  destruct (mt_certDER mt) as [c|]; simpl; [|by split].
  pose proof (writePEM_disk a "CERTIFICATE" c s) as H1.
  destruct (writePEM a "CERTIFICATE" c s) as [[] s1]; simpl; destruct H1 as [Ho1 Hw1];
    [|by split; [intros q Hq _; apply Ho1|]].
  destruct (mt_keyDER mt) as [k|]; simpl; [|by split; [intros q Hq _; apply Ho1|]].
  pose proof (writePEM_disk b "EC PRIVATE KEY" k s1) as H2.
  destruct (writePEM b "EC PRIVATE KEY" k s1) as [ok s2]. destruct H2 as [Ho2 Hw2]. split.
  - intros q Ha Hb. by rewrite Ho2, Ho1.
  - intros ->. exists c, k. split; [done|]. split; [done|]. split; [by apply Hw2|].
    intros Hab. rewrite Ho2 by done. by apply Hw1.
Qed.

Lemma fileExists_disk p s : let '(there, s') := fileExists p s in
  sv_disk s' = sv_disk s /\ (there = true -> is_Some (sv_disk s !! p)) /\
  (sv_io s = [] -> sv_io s' = [] /\ there = bool_decide (is_Some (sv_disk s !! p))).
Proof.
  unfold fileExists, gets, mbind, ST_bind. pose proof (io_ok_disk s) as E.
  destruct (io_ok s) as [ok s1] eqn:Eo. simpl in *. rewrite E. split; [done|]. split.
  - intros [_ H]%andb_true_iff. by apply bool_decide_eq_true in H.
  - intros Hio. unfold io_ok in Eo. rewrite Hio in Eo. by injection Eo as <- <-.
Qed.

Lemma open_disk p s : let '(c, s') := os_Open p s in
  sv_disk s' = sv_disk s /\ (forall x, c = Some x -> sv_disk s !! p = Some x) /\
  (sv_io s = [] -> sv_io s' = [] /\ c = sv_disk s !! p).
Proof.
  unfold os_Open, gets, mbind, ST_bind. pose proof (io_ok_disk s) as E.
  destruct (io_ok s) as [ok s1] eqn:Eo. simpl in *. rewrite E. split; [done|]. split.
  - by destruct ok.
  - intros Hio. unfold io_ok in Eo. rewrite Hio in Eo. by injection Eo as <- <-.
Qed.

#[local] Opaque os_Open fileExists GenerateSelfSigned.

Lemma load_disk a b s :
  let '(r, s') := loadCertPair a b s in
  sv_disk s' = sv_disk s /\
  (forall x, r = inr x -> exists c k, x = TlsPair c k /\ key_pair c k = true /\
     sv_disk s !! a = Some c /\ sv_disk s !! b = Some k) /\
  (forall c k, sv_io s = [] -> sv_disk s !! a = Some c -> sv_disk s !! b = Some k -> key_pair c k = true ->
     r = inr (TlsPair c k)).
Proof.
  unfold loadCertPair, mbind, ST_bind.
  pose proof (open_disk a s) as H1. destruct (os_Open a s) as [[c|] s1]; destruct H1 as (E1 & Hc & Hio1); simpl;
    [|split; [done|]; split; [done|]; intros c k Hio Ha; destruct (Hio1 Hio) as [_ Hx]; by rewrite Ha in Hx].
  pose proof (open_disk b s1) as H2. destruct (os_Open b s1) as [ko s2]; destruct H2 as (E2 & Hk & Hio2); simpl.
  split; [by rewrite E2|]. split.
  - intros x Hx. destruct ko as [k|]; [|done]. destruct (key_pair c k) eqn:Hkp; [|done]. injection Hx as <-.
    exists c, k. split; [done|]. split; [done|]. split; [by apply Hc|]. rewrite <- E1. by apply Hk.
  - intros c' k Hio Ha Hb Hkp. destruct (Hio1 Hio) as [Hi Hx]. rewrite Ha in Hx. injection Hx as ->.
    destruct (Hio2 Hi) as [_ ->]. by rewrite E1, Hb, Hkp.
Qed.

#[local] Opaque loadCertPair.

(** The set-up of a self-signed pair: what a success means for the files. *)
Lemma self_signed_disk mt cfg s (a := tc_CertFile cfg) (b := tc_KeyFile cfg) :
  let '(r, s') := loadOrGenerateSelfSigned mt cfg s in
  only_files a b (sv_disk s) (sv_disk s') /\
  (forall x, r = inr x -> exists c k, x = TlsPair c k /\ key_pair c k = true /\
     sv_disk s' !! a = Some c /\ sv_disk s' !! b = Some k) /\
  (sv_io s = [] -> is_Some (sv_disk s !! a) -> is_Some (sv_disk s !! b) -> sv_disk s' = sv_disk s /\
     forall c k, sv_disk s !! a = Some c -> sv_disk s !! b = Some k -> key_pair c k = true -> r = inr (TlsPair c k)).
Proof.
  unfold loadOrGenerateSelfSigned. unfold mbind, ST_bind. fold a b.
  pose proof (fileExists_disk a s) as H1. destruct (fileExists a s) as [ea s1]; destruct H1 as (E1 & _ & I1). simpl.
  pose proof (fileExists_disk b s1) as H2. destruct (fileExists b s1) as [eb s2]; destruct H2 as (E2 & _ & I2). simpl.
  destruct (negb ea || negb eb) eqn:Hmake.
  - pose proof (generate_disk mt a b s2) as H3. destruct (GenerateSelfSigned mt a b s2) as [[] s3];
      destruct H3 as [Ho Hg]; rewrite E2, E1 in Ho; simpl.
    + pose proof (load_disk a b s3) as H4. destruct (loadCertPair a b s3) as [r s4]; destruct H4 as (E4 & Hr & _).
      rewrite E4. split; [done|]. split; [exact Hr|].
      intros Hio Ha Hb. destruct (I1 Hio) as [Hio1 ->]. destruct (I2 Hio1) as [_ ->].
      rewrite E1, !bool_decide_eq_true_2 in Hmake by done. done.
    + split; [done|]. split; [done|]. intros Hio Ha Hb. destruct (I1 Hio) as [Hio1 ->]. destruct (I2 Hio1) as [_ ->].
      rewrite E1, !bool_decide_eq_true_2 in Hmake by done. done.
  - simpl. pose proof (load_disk a b s2) as H4. destruct (loadCertPair a b s2) as [r s4]; destruct H4 as (E4 & Hr & Hl).
    assert (Ed : sv_disk s2 = sv_disk s) by by rewrite E2, E1. rewrite E4, Ed in *.
    split; [by intros ? ?|]. split; [exact Hr|]. intros Hio _ _. split; [done|]. intros c k Ha Hb Hkp.
    destruct (I1 Hio) as [Hio1 _]. destruct (I2 Hio1) as [Hio2 _]. by apply Hl.
Qed.
End tls.
End Tls.
Export Tls.

(** The certificate of a self-signed server is stable. When the first start
    succeeds, whatever was on the disk before, the pair in use is the one in the
    two files, no other file was touched, and every later start on these files,
    whatever the generator would give, uses the same pair and writes nothing. *)
Theorem self_signed_stable pem key_pair partial mt cfg s (Hmode : tc_Mode cfg = "self_signed") :
  let '(r, s') := LoadOrGenerate pem key_pair partial mt cfg s in
  only_files (tc_CertFile cfg) (tc_KeyFile cfg) (sv_disk s) (sv_disk s') /\
  forall x, r = inr x ->
    (exists c k, x = mkTLSResult (Some (TlsPair c k)) None /\ key_pair c k = true /\
       sv_disk s' !! tc_CertFile cfg = Some c /\ sv_disk s' !! tc_KeyFile cfg = Some k) /\
    forall mt' s'', sv_disk s'' = sv_disk s' -> sv_io s'' = [] ->
      let '(r2, s2) := LoadOrGenerate pem key_pair partial mt' cfg s'' in
      r2 = inr x /\ sv_disk s2 = sv_disk s'.
Proof.
  assert (Hrun : forall mt s, LoadOrGenerate pem key_pair partial mt cfg s =
    (plain (loadOrGenerateSelfSigned pem key_pair partial mt cfg s).1,
     (loadOrGenerateSelfSigned pem key_pair partial mt cfg s).2))
    by (intros; unfold LoadOrGenerate; by rewrite Hmode).
  rewrite Hrun. pose proof (self_signed_disk pem key_pair partial mt cfg s) as Hs; cbv zeta in Hs.
  destruct (loadOrGenerateSelfSigned pem key_pair partial mt cfg s) as [r s']. destruct Hs as (Ho & Hr & _).
  split; [exact Ho|]. intros x Hx. destruct r as [e|t]; [done|]. injection Hx as <-.
  destruct (Hr t eq_refl) as (c & k & -> & Hkp & Hc & Hk). split; [by exists c, k|].
  intros mt' s'' Hd Hio. rewrite Hrun. pose proof (self_signed_disk pem key_pair partial mt' cfg s'') as Hs; cbv zeta in Hs.
  destruct (loadOrGenerateSelfSigned pem key_pair partial mt' cfg s'') as [r2 s2]. destruct Hs as (_ & _ & Hl).
  simpl in *. rewrite Hd in Hl. rewrite Hc, Hk in Hl. destruct (Hl Hio ltac:(done) ltac:(done)) as [-> H2].
  by rewrite (H2 c k eq_refl eq_refl Hkp).
Qed.

(** In ACME mode a server only starts for a host name: not for an empty domain,
    an address or a wildcard; and port 80 redirects to this host. *)
Theorem acme_domain pem key_pair partial mt cfg s x (Hmode : tc_Mode cfg = "acme") :
  (LoadOrGenerate pem key_pair partial mt cfg s).1 = inr x ->
  exists dir, x = mkTLSResult (Some (TlsAcme (tc_Domain cfg) dir)) (Some (tc_Domain cfg)) /\
    tc_Domain cfg <> "" /\ dir <> "" /\ ParseIP (tc_Domain cfg) = None /\
    Contains_text (tc_Domain cfg) "*" = false.
Proof.
  unfold LoadOrGenerate. rewrite Hmode. simpl. unfold loadACME, mbind, ST_bind.
  destruct (String.eqb_spec (tc_Domain cfg) ""); [done|]. destruct (ParseIP _); [done|].
  destruct (_ || _) eqn:Hw; [done|]. apply orb_false_iff in Hw as [_ Hw].
  destruct (io_ok s) as [[] s1]; simpl; [|done]. intros [= <-]. eexists. split; [done|].
  repeat split; try done. by destruct (String.eqb_spec (tc_AcmeCacheDir cfg) "").
Qed.

Lemma self_signed_stable_witness :
  let cfg := mkTLS "self_signed" "/data/cert.pem" "/data/key.pem" "" "" in
  let pem := fun ty der => ty +:+ ":" +:+ der in
  let pair := fun c k => HasPrefix c "CERTIFICATE" && HasPrefix k "EC PRIVATE KEY" in
  let s := mkServer (NewHub (mkSys (mkDb ∅ ∅ ∅ ∅ ∅ ∅ ∅ ∅ ∅ ∅ ∅ ∅ ∅ [] ∅ 1 1 1 1 1 1) [] 0 []) None None []) (Cred.NewPartialAuthStore 0)
    (Cred.NewPendingTOTPStore 0) Limiter.NewRateLimiter ∅ (NewUpdater "" "" "" "") [] ∅ [] [] [] in
  let first := LoadOrGenerate pem pair id (mkMaterial true true (Some "c1") (Some "k1")) cfg s in
  first.1 = inr (mkTLSResult (Some (TlsPair "CERTIFICATE:c1" "EC PRIVATE KEY:k1")) None) /\
  (LoadOrGenerate pem pair id (mkMaterial true true (Some "c2") (Some "k2")) cfg first.2).1 = first.1.
Proof.
  intros cfg pem pair s first.
  assert (H1 : first.1 = inr (mkTLSResult (Some (TlsPair "CERTIFICATE:c1" "EC PRIVATE KEY:k1")) None)) by (vm_compute; reflexivity).
  split; [exact H1|].
  pose proof (self_signed_stable pem pair id (mkMaterial true true (Some "c1") (Some "k1")) cfg s eq_refl) as H.
  fold first in H. destruct first as [r s'] eqn:E. cbn [fst snd] in *. destruct H as [_ H].
  destruct (H _ H1) as [_ H2].
  assert (Hio : sv_io s' = []) by (apply (f_equal snd) in E; cbn [snd] in E; rewrite <- E; vm_compute; reflexivity).
  specialize (H2 (mkMaterial true true (Some "c2") (Some "k2")) s' eq_refl Hio).
  rewrite H1. destruct (LoadOrGenerate _ _ _ _ cfg s') as [r2 s2]. exact (proj1 H2).
Defined.
