(* ===== verification/Startup.v ===== *)
(** * Starting and stopping the server

    Model of [run] in Server/main.go as a whole, of [Open] and [Close] in
    Server/db/db.go, of [Load] in Server/config/config.go, of [New] in
    Server/storage/storage.go and of what [NewRouter] builds. The effects are a
    trace of the actions with the files and the statements that may fail beside
    it. koanf, the YAML parser, and the results of listening and shutting down are
    inputs. *)

From S2P Require Import Prelude Permissions RateLimiter GoText Wire Json GoTime Crypto Credentials Rows Store Hub Chat Voice Net LogStream Updater Config Http AuthApi RestApi Storage LiveKitProcess LiveKitProxy AdminApi Updates Maintenance Tls Status.
#[local] Open Scope string_scope.
#[local] Open Scope Z_scope.

Module Startup.

(** ** Actions *)

Inductive act :=
| ABanner (tls : bool) | ADbOpen | ADbClose | AMigrate | AClearStale
| ACompanion | ARouter | ARouterCleanup | AAcmeListen | AMaintenance | AStopMaintenance
| AListen (tls : bool) | ASleep (d : Z)
| AAcmeShutdown | AGracefulStop | AShutdown.

(** The server and what was done so far, the last action first. *)
Definition R := ST (Server * list act).
Definition lift {A} (m : H A) : R A := fun s => ((m s.1).1, ((m s.1).2, s.2)).
Definition emit (a : act) : R unit := fun s => (tt, (s.1, a :: s.2)).

(** ** config.go *)

Inductive load_error := LoadDefaults | LoadWrite | LoadRead | LoadYaml | LoadFile | LoadEnv | LoadDecode.

Section config.
(** [yaml_ok]: validateYAML; [from_defaults], [add_file], [add_env], [decode]: the
    three layers of koanf and its decoding, on koanf's own state [K]. *)
Context {K : Type} (from_defaults : Config -> option K) (yaml_ok : string -> bool)
  (add_file : string -> K -> option K) (add_env : (string -> string) -> K -> option K) (decode : K -> option Config)
  (partial : string -> string) (defaultYAML : string).

(** The file: written when it is missing, otherwise read, tried and merged
    (koanf reads it a second time). *)
Definition load_file (cfgPath : string) (k : K) : H (result load_error K) :=
  stat ← io_ok;
  content ← gets (fun s => sv_disk s !! cfgPath);
  if stat && bool_decide (content = None) then
    opened ← io_ok;
    if negb opened then mret (inl LoadWrite) else
    written ← io_ok;
    _ ← write_file cfgPath (if written : bool then defaultYAML else partial defaultYAML);
    mret (if written : bool then inr k else inl LoadWrite)
  else
    raw ← os_Open cfgPath;
    match raw with
    | None => mret (inl LoadRead)
    | Some raw =>
        if negb (yaml_ok raw) then mret (inl LoadYaml) else
        again ← os_Open cfgPath;
        mret (match again with
              | None => inl LoadFile
              | Some raw => match add_file raw k with Some k => inr k | None => inl LoadFile end
              end)
    end.

(** [key] and [secret]: the bytes drawn for missing credentials. *)
Definition Load (key secret : list Z) (cfgPath : string) : H (result load_error Config) :=
  match from_defaults defaults with
  | None => mret (inl LoadDefaults)
  | Some k =>
      r ← load_file cfgPath k;
      mret (match r with
            | inl e => inl e
            | inr k =>
                match add_env env_key k with
                | None => inl LoadEnv
                | Some k => match decode k with None => inl LoadDecode | Some c => inr (Load_merged key secret c) end
                end
            end)
  end.
End config.

(** ** db.go *)

Definition pragmas : list string :=
  ["PRAGMA journal_mode=WAL;"; "PRAGMA busy_timeout=5000;"; "PRAGMA foreign_keys=ON;"; "PRAGMA synchronous=NORMAL;";
   "PRAGMA temp_store=MEMORY;"; "PRAGMA mmap_size=268435456;"; "PRAGMA cache_size=-64000;"].

(** A statement without effect on the data, which may fail. *)
Definition statement : R bool :=
  r ← lift (db (query (fun _ => tt))); mret (match r with inl _ => false | inr _ => true end).

Fixpoint exec_pragmas (l : list string) : R bool :=
  match l with
  | [] => mret true
  | _ :: l => ok ← statement; if negb ok then mret false else exec_pragmas l
  end.

(** Any failure after the handle exists closes it. *)
Definition Open : R bool :=
  opened ← statement;
  if negb opened then mret false else
  _ ← emit ADbOpen;
  ping ← statement;
  if negb ping then _ ← emit ADbClose; mret false else
  ok ← exec_pragmas pragmas;
  if negb ok then _ ← emit ADbClose; mret false else mret true.

(** The statistics first, whose failure does not matter. *)
Definition Close : R unit := _ ← statement; emit ADbClose.

(** ** storage.go and router.go *)

Definition New (dir : string) (maxSizeMB : Z) : H (option Storage) :=
  made ← io_ok; mret (if made : bool then Some (mkStorage dir maxSizeMB) else None).

(** What [NewRouter] builds: the storage of the upload routes, the client for
    the voice routes, whether a companion process was started. *)
Record Router := mkRouter { rt_storage : option Storage; rt_livekit : option LiveKitClient; rt_companion : bool }.

Definition NewRouter (partial : string -> string) (cfg : Config) : R Router :=
  st ← lift (New (uc_StorageDir (cfg_Upload cfg)) (uc_MaxSizeMB (cfg_Upload cfg)));
  match NewLiveKitClient (cfg_Voice cfg) with
  | inl _ => _ ← emit ARouter; mret (mkRouter st None false)
  | inr lk =>
      if String.eqb (vc_LiveKitBinaryPath (cfg_Voice cfg)) "" then _ ← emit ARouter; mret (mkRouter st (Some lk) false) else
      path ← lift (generateConfig partial (cfg_Voice cfg) (sc_DataDir (cfg_Server cfg)));
      match path with
      | None => _ ← emit ARouter; mret (mkRouter st (Some lk) false)
      | Some _ => _ ← emit ACompanion; _ ← emit ARouter; mret (mkRouter st (Some lk) true)
      end
  end.

(** The routes that are only there with a storage, or with a client. *)
Definition upload_routes (rt : Router) : bool := bool_decide (is_Some (rt_storage rt)).
Definition voice_routes (rt : Router) : bool := bool_decide (is_Some (rt_livekit rt)).

(** ** main.go *)

Definition isAddrInUse (err : string) : bool :=
  Contains_text err "address already in use" || Contains_text err "Only one usage of each socket address".

Definition wsURL (httpScheme ip : string) (port : Z) : string :=
  (if String.eqb httpScheme "https" then "wss" else "ws") +:+ "://" +:+ ip +:+ ":" +:+ itoa port.
(** [local]: the address of the outgoing route, if there is one. *)
Definition getOutboundIP (local : option string) : string := default "localhost" local.
(** The addresses the banner shows: API, WebSocket, administration, health. *)
Definition banner_urls (tls : bool) (local : option string) (port : Z) : list string :=
  let scheme := if tls then "https" else "http" in
  let baseURL := scheme +:+ "://" +:+ getOutboundIP local +:+ ":" +:+ itoa port in
  [baseURL +:+ "/api/v1/info"; wsURL scheme (getOutboundIP local) port +:+ "/api/v1/ws"; baseURL +:+ "/admin"; baseURL +:+ "/health"].

(** How a call of [ListenAndServe] ends. *)
Inductive listened := LServerClosed | LError (text : string).
(** The goroutine that serves: still serving, or ended with or without an error. *)
Inductive served := Serving | Ended (err : option string).

Definition maxAttempts : nat := 20.

(** The loop with [n] attempts left; [outcomes] of the coming calls, none while
    the server is serving. *)
Fixpoint listen_loop (tls : bool) (n : nat) (outcomes : list listened) : R served :=
  match n with
  | O => mret (Ended None)
  | S n' =>
      _ ← emit (AListen tls);
      match outcomes with
      | [] => mret Serving
      | LServerClosed :: _ => mret (Ended None)
      | LError e :: outcomes =>
          if (1 <? n)%nat && isAddrInUse e then _ ← emit (ASleep (Second / 2)); listen_loop tls n' outcomes
          else mret (Ended (Some e))
      end
  end.

(** [select]: the signal, or the end of serving; [prefer_signal] when both are
    there. [None]: the process goes on waiting. *)
Definition wait (sv : served) (signal prefer_signal : bool) : option (option string) :=
  match sv with
  | Serving => if signal then Some None else None
  | Ended err => if signal && prefer_signal then Some None else Some err
  end.

Inductive run_error :=
| RunConfig | RunDataDir | RunTLS | RunOpen | RunMigrate | RunServe (text : string) | RunShutdown.

(** What the world outside answers. *)
Record Outside := mkOutside {
  o_load : H (result load_error Config); o_tls : Config -> H (result tls_error TLSResult);
  o_migrate : bool; o_listened : list listened; o_signal : bool; o_prefer_signal : bool;
  o_shutdown : bool; o_partial : string -> string }.

(** With the loading and the certificates of the repository. *)
Definition outside {K : Type} (from_defaults : Config -> option K) (yaml_ok : string -> bool)
    (add_file : string -> K -> option K) (add_env : (string -> string) -> K -> option K) (decode : K -> option Config)
    (partial : string -> string) (defaultYAML : string) (key secret : list Z)
    (pem : string -> string -> string) (key_pair : string -> string -> bool) (mt : Material)
    (migrate : bool) (listened : list listened) (signal prefer_signal shutdown : bool) : Outside :=
  mkOutside (Load from_defaults yaml_ok add_file add_env decode partial defaultYAML key secret "config.yaml")
    (fun cfg => LoadOrGenerate pem key_pair partial mt (cfg_TLS cfg)) migrate listened signal prefer_signal shutdown partial.

Inductive ended := Running | Returned (err : option run_error).

(** From the router on; [defer]red: the clean-up of the router. *)
Definition serve_and_stop (o : Outside) (cfg : Config) (tls : TLSResult) : R ended :=
  rt ← NewRouter (o_partial o) cfg;
  let on := bool_decide (is_Some (tr_TLSConfig tls)) in
  _ ← (if bool_decide (is_Some (tr_HTTPHandler tls)) then emit AAcmeListen else mret tt);
  _ ← lift (New (uc_StorageDir (cfg_Upload cfg)) (uc_MaxSizeMB (cfg_Upload cfg)));
  _ ← emit AMaintenance;
  sv ← listen_loop on maxAttempts (o_listened o);
  match wait sv (o_signal o) (o_prefer_signal o) with
  | None => mret Running
  | Some (Some e) => _ ← emit ARouterCleanup; mret (Returned (Some (RunServe e)))
  | Some None =>
      _ ← (if bool_decide (is_Some (tr_HTTPHandler tls)) then emit AAcmeShutdown else mret tt);
      _ ← emit AGracefulStop;
      _ ← emit AShutdown;
      if negb (o_shutdown o) then _ ← emit ARouterCleanup; mret (Returned (Some RunShutdown)) else
      _ ← emit AStopMaintenance;
      _ ← emit ARouterCleanup; mret (Returned None)
  end.

(** From the open database on; [defer]red: closing it. *)
Definition run_on_database (o : Outside) (cfg : Config) (tls : TLSResult) : R ended :=
  _ ← emit AMigrate;
  r ← (if negb (o_migrate o) then mret (Returned (Some RunMigrate)) else
       _ ← lift clear_stale_state;
       _ ← emit AClearStale;
       serve_and_stop o cfg tls);
  match r with
  | Running => mret Running
  | Returned e => _ ← Close; mret (Returned e)
  end.

Definition run (exe : option string) (o : Outside) : R ended :=
  _ ← lift (clean_old_binary exe);
  cfg ← lift (o_load o);
  match cfg with
  | inl _ => mret (Returned (Some RunConfig))
  | inr cfg =>
      made ← lift io_ok;
      if negb made then mret (Returned (Some RunDataDir)) else
      tls ← lift (o_tls o cfg);
      match tls with
      | inl _ => mret (Returned (Some RunTLS))
      | inr tls =>
          _ ← emit (ABanner (bool_decide (is_Some (tr_TLSConfig tls))));
          opened ← Open;
          if negb opened then mret (Returned (Some RunOpen)) else run_on_database o cfg tls
      end
  end.

(** The trace of a start, in order. *)
Definition trace (exe : option string) (o : Outside) (s : Server) : ended * list act :=
  let '(r, (_, tr)) := run exe o (s, []) in (r, rev tr).

(** ** What a start can look like *)

(** [m] does the actions [l], with the result, as [P] says. *)
Definition does {A} (m : R A) (P : A -> list act -> Prop) : Prop :=
  forall s, exists l, (m s).2.2 = (rev l ++ s.2)%list /\ P (m s).1 l.

Lemma does_ret {A} (x : A) (P : A -> list act -> Prop) : P x [] -> does (mret x) P.
Proof. intros H s. by exists []. Qed.
Lemma does_lift {A} (m : H A) (P : A -> list act -> Prop) : (forall x, P x []) -> does (lift m) P.
Proof. intros H s. by exists []. Qed.
Lemma does_emit a (P : unit -> list act -> Prop) : P tt [a] -> does (emit a) P.
Proof. intros H s. by exists [a]. Qed.
Lemma does_bind {A B} (m : R A) (k : A -> R B) (P : A -> list act -> Prop) (Q : B -> list act -> Prop) :
  does m P -> (forall x l, P x l -> does (k x) (fun y l' => Q y (l ++ l')%list)) -> does (m ≫= k) Q.
Proof.
  intros Hm Hk s. destruct (Hm s) as (l & E & HP). destruct (Hk _ _ HP (m s).2) as (l' & E' & HQ).
  exists (l ++ l')%list. unfold mbind, ST_bind. rewrite E', E, rev_app_distr, app_assoc. done.
Qed.
Lemma does_weaken {A} (m : R A) (P Q : A -> list act -> Prop) :
  does m P -> (forall x l, P x l -> Q x l) -> does m Q.
Proof. intros Hm H s. destruct (Hm s) as (l & E & HP). exists l. auto. Qed.
Lemma does_then {A B} (m : R A) (k : A -> R B) (Q : B -> list act -> Prop) :
  (forall P, (forall x, P x []) -> does m P) -> (forall x, does (k x) Q) -> does (m ≫= k) Q.
Proof. intros Hm Hk. apply (does_bind m k (fun _ l => l = [])); [by apply Hm|]. by intros x l ->. Qed.
Lemma does_say {B} a (k : R B) (Q : B -> list act -> Prop) :
  does k (fun y l => Q y (a :: l)) -> does (_ ← emit a; k) Q.
Proof. intros Hk. apply (does_bind _ _ (fun _ l => l = [a])); [by apply does_emit|]. by intros x l ->. Qed.

Lemma quiet_statement (P : bool -> list act -> Prop) : (forall x, P x []) -> does statement P.
Proof. intros H. apply does_then; [intros ? ?; by apply does_lift|]. intros r. by apply does_ret. Qed.

Lemma quiet_pragmas l (P : bool -> list act -> Prop) : (forall x, P x []) -> does (exec_pragmas l) P.
Proof.
  revert P. induction l as [|q l IH]; intros P H; simpl; [by apply does_ret|].
  apply does_then; [apply quiet_statement|]. intros []; simpl; [by apply IH|by apply does_ret].
Qed.

#[local] Opaque exec_pragmas.

Lemma does_Open : does Open (fun ok l => if ok : bool then l = [ADbOpen] else l = [] \/ l = [ADbOpen; ADbClose]).
Proof.
  apply does_then; [apply quiet_statement|]. intros []; simpl; [|apply does_ret; by left].
  apply does_say, does_then; [apply quiet_statement|]. intros []; simpl.
  - apply does_then; [apply quiet_pragmas|]. intros []; simpl; [by apply does_ret|].
    apply does_say, does_ret. by right.
  - apply does_say, does_ret. by right.
Qed.

Lemma does_Close (P : unit -> list act -> Prop) : P tt [ADbClose] -> does Close P.
Proof. intros H. apply does_then; [apply quiet_statement|]. intros _. by apply does_emit. Qed.

Definition companion_acts (companion : bool) : list act := if companion then [ACompanion] else [].

Lemma does_NewRouter partial cfg : does (NewRouter partial cfg)
  (fun rt l => l = (companion_acts (rt_companion rt) ++ [ARouter])%list).
Proof.
  apply does_then; [intros ? ?; by apply does_lift|]. intros st.
  destruct (NewLiveKitClient _) as [e|lk]; [by apply does_say, does_ret|].
  destruct (String.eqb _ _); [by apply does_say, does_ret|].
  apply does_then; [intros ? ?; by apply does_lift|]. intros [p|]; [|by apply does_say, does_ret].
  by apply does_say, does_say, does_ret.
Qed.

Definition retries (on : bool) (n : nat) : list act := concat (repeat [AListen on; ASleep (Second / 2)] n).
Definition in_use (x : listened) : bool := match x with LError e => isAddrInUse e | LServerClosed => false end.

(** The server listens again only while the address is in use, at most twenty
    times in all. *)
Definition listens (on : bool) (n : nat) (outcomes : list listened) (l : list act) : Prop :=
  exists k, (k < n)%nat /\ (k <= length outcomes)%nat /\ forallb in_use (take k outcomes) = true /\
    l = (retries on k ++ [AListen on])%list.

Lemma does_listen on n outcomes : (0 < n)%nat ->
  does (listen_loop on n outcomes) (fun _ => listens on n outcomes).
Proof.
  revert outcomes. induction n as [|n IH]; intros outcomes Hn; [lia|]. simpl.
  assert (Hlast : listens on (S n) outcomes [AListen on]) by (exists 0%nat; repeat split; (lia || done)).
  apply does_say. destruct outcomes as [|[|e] outcomes]; [by apply does_ret|by apply does_ret|].
  destruct (_ && _) eqn:Hu; [|by apply does_ret].
  apply andb_true_iff in Hu as [Hn' Hu]. apply Nat.ltb_lt in Hn'.
  apply does_say. eapply does_weaken; [apply IH; lia|]. intros r l (k & Hk & Hlen & Hall & ->).
  exists (S k). simpl. rewrite Hu. repeat split; (lia || done).
Qed.

Definition acme_acts (acme : bool) (a : act) : list act := if acme then [a] else [].

(** How the trace ends, with its result. *)
Definition ending (acme : bool) (r : ended) : list act :=
  match r with
  | Running => []
  | Returned (Some (RunServe _)) => [ARouterCleanup]
  | Returned None => (acme_acts acme AAcmeShutdown ++ [AGracefulStop; AShutdown; AStopMaintenance; ARouterCleanup])%list
  | Returned _ => (acme_acts acme AAcmeShutdown ++ [AGracefulStop; AShutdown; ARouterCleanup])%list
  end.

Definition served_result (r : ended) : bool :=
  match r with Running | Returned None | Returned (Some (RunServe _)) | Returned (Some RunShutdown) => true | _ => false end.

(** The actions from the router on. *)
Definition served_trace (o : Outside) (on acme companion : bool) (r : ended) (l : list act) : Prop :=
  exists ls, listens on maxAttempts (o_listened o) ls /\ served_result r = true /\
    l = (companion_acts companion ++ ARouter :: acme_acts acme AAcmeListen ++ AMaintenance :: ls ++ ending acme r)%list.

Lemma does_serve o cfg tls : does (serve_and_stop o cfg tls)
  (fun r l => exists companion,
     served_trace o (bool_decide (is_Some (tr_TLSConfig tls))) (bool_decide (is_Some (tr_HTTPHandler tls))) companion r l).
Proof.
  unfold serve_and_stop. eapply does_bind; [apply does_NewRouter|]. intros rt l ->. cbv zeta.
  set (on := bool_decide (is_Some (tr_TLSConfig tls))). set (acme := bool_decide (is_Some (tr_HTTPHandler tls))).
  apply (does_bind _ _ (fun _ l => l = acme_acts acme AAcmeListen)).
  { destruct acme; [by apply does_emit|by apply does_ret]. }
  intros _ ? ->. apply does_then; [intros ? ?; by apply does_lift|]. intros _. apply does_say.
  eapply does_bind; [apply does_listen; unfold maxAttempts; lia|]. intros sv ls Hls.
  assert (Hend : forall r, served_result r = true ->
    exists companion, served_trace o on acme companion r
      ((companion_acts (rt_companion rt) ++ [ARouter]) ++ acme_acts acme AAcmeListen ++ AMaintenance :: ls ++ ending acme r)).
  { intros r Hr. exists (rt_companion rt), ls. split; [done|]. split; [done|]. by rewrite <- app_assoc. }
  destruct (wait sv (o_signal o) (o_prefer_signal o)) as [[e|]|].
  - apply does_say, does_ret. by apply (Hend (Returned (Some (RunServe e)))).
  - apply (does_bind _ _ (fun _ l => l = acme_acts acme AAcmeShutdown)).
    { destruct acme; [by apply does_emit|by apply does_ret]. }
    intros _ ? ->. apply does_say, does_say. destruct (negb (o_shutdown o)).
    + apply does_say, does_ret. by apply (Hend (Returned (Some RunShutdown))).
    + apply does_say, does_say, does_ret. by apply (Hend (Returned None)).
  - apply does_ret. by apply (Hend Running).
Qed.

(** All traces of a start. *)
Inductive shape (o : Outside) : ended -> list act -> Prop :=
| shape_early e : e = RunConfig \/ e = RunDataDir \/ e = RunTLS -> shape o (Returned (Some e)) []
| shape_open on l : l = [] \/ l = [ADbOpen; ADbClose] -> shape o (Returned (Some RunOpen)) (ABanner on :: l)
| shape_migrate on : o_migrate o = false -> shape o (Returned (Some RunMigrate)) [ABanner on; ADbOpen; AMigrate; ADbClose]
| shape_served on acme companion r l :
    o_migrate o = true -> served_trace o on acme companion r l ->
    shape o r ([ABanner on; ADbOpen; AMigrate; AClearStale] ++ l ++ match r with Running => [] | _ => [ADbClose] end).

Lemma does_on_database o cfg tls : does (run_on_database o cfg tls)
  (fun r l => shape o r (ABanner (bool_decide (is_Some (tr_TLSConfig tls))) :: ADbOpen :: l)).
Proof.
  unfold run_on_database. apply does_say. destruct (o_migrate o) eqn:Hm; simpl.
  - eapply does_bind.
    { apply does_then; [intros ? ?; by apply does_lift|]. intros _.
      apply (does_say AClearStale _ (fun r l => exists l0, l = AClearStale :: l0 /\ exists companion,
        served_trace o (bool_decide (is_Some (tr_TLSConfig tls))) (bool_decide (is_Some (tr_HTTPHandler tls))) companion r l0)).
      eapply does_weaken; [apply does_serve|]. intros r l Hl. by exists l. }
    intros r ? (l & -> & companion & Hl). pose proof (shape_served o _ _ _ r l Hm Hl) as Hs.
    destruct r as [|e].
    + apply does_ret. rewrite app_nil_r. by rewrite app_nil_r in Hs.
    + apply (does_bind _ _ (fun _ l => l = [ADbClose])); [by apply does_Close|].
      intros _ ? ->. apply does_ret. exact Hs.
  - apply (does_bind _ _ (fun r l => r = Returned (Some RunMigrate) /\ l = [])); [by apply does_ret|].
    intros r l [-> ->]. apply (does_bind _ _ (fun _ l => l = [ADbClose])); [by apply does_Close|].
    intros _ ? ->. apply does_ret. by apply shape_migrate.
Qed.

Lemma does_run exe o : does (run exe o) (shape o).
Proof.
  unfold run. apply does_then; [intros ? ?; by apply does_lift|]. intros _.
  apply does_then; [intros ? ?; by apply does_lift|]. intros [e|cfg]; [apply does_ret, shape_early; by left|].
  apply does_then; [intros ? ?; by apply does_lift|]. intros []; simpl; [|apply does_ret, shape_early; by right; left].
  apply does_then; [intros ? ?; by apply does_lift|]. intros [e|tls]; [apply does_ret, shape_early; by right; right|].
  apply does_say. eapply does_bind; [apply does_Open|]. intros [] l Hl; simpl.
  - subst l. apply does_on_database.
  - apply does_ret. rewrite app_nil_r. by apply shape_open.
Qed.

Lemma trace_shape exe o s : let '(r, tr) := trace exe o s in shape o r tr.
Proof.
  unfold trace. destruct (does_run exe o (s, [])) as (l & E & HP).
  destruct (run exe o (s, [])) as [r [s' tr]]. simpl in *. by rewrite E, app_nil_r, rev_involutive.
Qed.

Lemma retries_no a on n : a <> AListen on -> a <> ASleep (Second / 2) -> a ∉ retries on n.
Proof.
  intros H1 H2. induction n as [|n IH]; simpl; [apply not_elem_of_nil|].
  unfold retries in *. simpl. rewrite !not_elem_of_cons. auto.
Qed.
End Startup.
Export Startup.

(** C38: the order of a start and of its end. Nothing is served before the
    configuration, the certificates, the database and its migrations are there
    and stale state was cleared; a database that was opened is closed last, on
    every way out; the server listens at most twenty times, again only while the
    address is in use; and a stop goes through the hub, then the open requests,
    then the maintenance, which a shutdown that does not end in time leaves. A
    server that cannot listen goes through none of the three: the router's own
    clean-up and the database are closed, and a companion process that was started
    is left running ([listen_failure_leaves_companion]). *)
Theorem startup_order exe o s : let '(r, tr) := trace exe o s in shape o r tr.
Proof. apply trace_shape. Qed.

(** A server that cannot listen returns without stopping the hub, so that a
    companion process it has started is left running. *)
Theorem listen_failure_leaves_companion exe o s e : let '(r, tr) := trace exe o s in
  r = Returned (Some (RunServe e)) -> AGracefulStop ∉ tr.
Proof.
  pose proof (trace_shape exe o s) as H. destruct (trace exe o s) as [r tr]. intros ->.
  inversion H as [? [Hx|[Hx|Hx]]| | |on acme companion ? l Hm (ls & (k & Hk & _ & _ & ->) & _ & ->)]; subst; try done.
  assert (AGracefulStop ∉ (retries on k ++ [AListen on])%list).
  { rewrite elem_of_app. intros [Hin|Hin]; [by apply retries_no in Hin|by apply list_elem_of_singleton in Hin]. }
  destruct companion, acme; simpl; rewrite ?not_elem_of_cons, ?elem_of_app; 
    repeat split; try done; rewrite ?elem_of_cons, ?elem_of_app; intros; set_solver.
Qed.
