(* ===== verification/ServerRun.v ===== *)
(** * The whole server

    Requests to the HTTP API and events of the WebSocket process in any order,
    on one database, one limiter and one hub: the safety of the process with the
    HTTP side included, over whatever a restored backup leaves in the database,
    and which endpoints can make sessions. *)

From S2P Require Import Prelude Permissions RingBuffer RateLimiter GoText Wire Json GoTime Crypto Credentials Rows Store StoreInv StoreOk StoreThms Hub Chat Voice Serve WsInv WsOk WsRun Net LogStream Updater Config Http AuthApi RestApi Storage Uploads AdminApi Updates Routes HttpInv HttpFrame Maintenance.
#[local] Open Scope string_scope.
#[local] Open Scope Z_scope.

Module ServerRun.

(** ** Runs *)

(** An event of the process, a request to an endpoint, a request for a file or
    for the client's update, the background end of an update, a tick of the
    maintenance loop, a new process on the same database and files. *)
Inductive server_event :=
| SvProcess (e : event)
| SvRequest (ep : endpoint) (r : Request)
| SvFile (disposition : string -> string) (origins : list string) (r : Request)
| SvClientUpdate (r : Request)
| SvApply (exePath : string) (spawned : bool)
| SvMaintenance (fileStorage : option Storage) (consecutiveFailures : Z)
| SvRestart (exe : option string) (version token : string) (lk : option string) (proc : option bool) (wf : list bool).

Section run.
Context (env : Env) (to_jwt : Grant -> option string).

Definition run_server_event (e : server_event) : H unit :=
  match e with
  | SvProcess e => hub (run_event (env_sanitize env) to_jwt e)
  | SvRequest ep r => _ ← serve env ep r; mret tt
  | SvFile disposition origins r => _ ← handleServeFile disposition (env_store env) origins r; mret tt
  | SvClientUpdate r => _ ← handleClientUpdate (env_semver env) (env_hostname env) r; mret tt
  | SvApply exePath spawned => _ ← apply_update exePath spawned; mret tt
  | SvMaintenance st n => _ ← maintenance_tick st n; mret tt
  | SvRestart exe version token lk proc wf => restart exe version token lk proc wf
  end.

Definition run_server (es : list server_event) : H unit := forM_ es run_server_event.
End run.


(** The requests that replace the database. *)
Definition restoring (e : server_event) : bool :=
  match e with SvRequest ep _ => restores ep | _ => false end.

(** ** The invariants *)

(** What every call of the server keeps of the database. *)
Class kept_calls (P : Db -> Prop) : Prop := {
  kept_process : kept_db P;
  kept_http : forall b A (m : ST Sys A), http_write b A m -> preserves P m;
  kept_background : forall A (m : ST Sys A), background_write A m -> preserves P m }.
#[export] Existing Instance kept_process.

#[export] Instance kept_calls_ok : kept_calls db_ok.
Proof. split; [apply _|apply writes_db_ok|apply background_ok]. Qed.
#[export] Instance kept_calls_any : kept_calls (fun _ => True).
Proof. split; [apply _|done|done]. Qed.

Lemma process_http (P : Db -> Prop) I : kept_calls P -> process_inv (keeping P) I ->
  http_inv anything P (fun _ => True) (fun w _ => I w).
Proof.
  intros HP HI. pose proof (pi_handler (keeping P) I HI 0) as Hh. split; try done.
  - apply kept_http.
  - intros _ A m Hm. by apply (hi_sys _ _ _ _ Hh).
  - intros _. apply (hi_limiter _ _ _ _ Hh).
  - intros _. apply (hi_send _ _ _ _ Hh).
  - intros _. apply (hi_broadcast _ _ _ _ Hh).
Qed.

Section inv.
Context (P : Db -> Prop) {HP : kept_calls P}.

(** The process is as a run of its own would have left it. *)
Definition server_inv (s : Server) : Prop := exists L, hub_invp P L (sv_world s).

Lemma keeps_inv {A} (m : H A) : (forall rb sq, keeps (fun w _ => wokp P [] rb sq w) m) ->
  forall s, server_inv s -> server_inv (m s).2.
Proof. intros Hm s (L & rb & Hrb & Hw). exists L, rb. split; [done|]. by apply Hm. Qed.

Lemma run_server_event_inv env to_jwt e s : (restoring e = true -> reload_keeps env P) ->
  server_inv s -> server_inv (run_server_event env to_jwt e s).2.
Proof.
  assert (HI : forall rb sq, http_inv anything P (fun _ => True) (fun w _ => wokp P [] rb sq w))
    by (intros; apply process_http, wok_process; done).
  intros Hrl. destruct e as [e|ep r|disp origins r|r|exe sp|st n|exe ver tok lk proc wf].
  - intros [L Hw]. exists (L ++ dispatched e (sv_world s))%list. by apply run_event_inv.
  - apply (keeps_inv (_ ← serve env ep r; mret tt)). intros rb sq.
    apply keeps_bind; [by eapply kp_serve|intros; apply keeps_ret].
  - apply (keeps_inv (_ ← handleServeFile _ _ _ r; mret tt)). intros rb sq.
    apply keeps_bind; [by eapply kp_serve_file|intros; apply keeps_ret].
  - apply (keeps_inv (_ ← handleClientUpdate _ _ r; mret tt)). intros rb sq.
    apply keeps_bind; [by eapply kp_client_update|intros; apply keeps_ret].
  - apply (keeps_inv (_ ← apply_update exe sp; mret tt)). intros rb sq.
    apply keeps_bind; [by eapply kp_apply|intros; apply keeps_ret].
  - apply (keeps_inv (_ ← maintenance_tick st n; mret tt)). intros rb sq.
    apply keeps_bind; [by eapply kp_maintenance; [apply HI|apply kept_background|]|intros; apply keeps_ret].
  - intros Hs. simpl. set (s1 := (clean_old_binary exe s).2).
    assert (H1 : server_inv s1) by (apply (keeps_inv (clean_old_binary exe)); [intros rb sq; by eapply kp_clean|done]).
    assert (H2 : server_inv (clear_stale_state s1).2)
      by (apply (keeps_inv clear_stale_state); [intros rb sq; by eapply kp_clear; [apply HI|apply kept_background]|done]).
    destruct H2 as (L & rb & _ & Hw). exists []. apply new_hub_inv. apply Hw.
Qed.

Lemma run_server_inv env to_jwt es s : existsb restoring es = false \/ reload_keeps env P ->
  server_inv s -> server_inv (run_server env to_jwt es s).2.
Proof.
  intros Hes. revert s. induction es as [|e es IH]; intros s Hs; [done|]. simpl in Hes.
  apply IH; [destruct Hes as [Hes|Hes]; [left; by apply orb_false_iff in Hes as [_ ?]|by right]|].
  apply run_server_event_inv; [|done]. intros He. destruct Hes as [Hes|Hes]; [|done]. by rewrite He in Hes.
Qed.

Lemma server_inv_start s0 faults now ticks lk proc wf : P initial_db ->
  server_inv (sv_set_world (start faults now ticks lk proc wf) s0).
Proof. intros Hi. exists []. by apply new_hub_inv. Qed.
End inv.

(** *** Sessions *)

(** The rows of [d] are rows of [d0], apart from the time of their last use. *)
Definition sub_sessions (d0 d : Db) : Prop :=
  forall i x, sessions d !! i = Some x -> exists x0, sessions d0 !! i = Some x0 /\
    s_user x = s_user x0 /\ s_token x = s_token x0 /\ s_expires x = s_expires x0.

Lemma sub_refl d : sub_sessions d d.
Proof. intros i x Hx. by exists x. Qed.
Lemma sub_eq d0 d d' : sessions d' = sessions d -> sub_sessions d0 d -> sub_sessions d0 d'.
Proof. intros E H i x Hx. rewrite E in Hx. by apply H. Qed.
Lemma sub_filter d0 d d' (p : Z * Session -> Prop) `{forall x, Decision (p x)} :
  sessions d' = filter p (sessions d) -> sub_sessions d0 d -> sub_sessions d0 d'.
Proof. intros E Hs i x Hx. rewrite E in Hx. apply map_lookup_filter_Some in Hx as [Hx _]. by apply Hs. Qed.

Ltac same_sessions := intros; eapply sub_eq; [|eassumption]; done.

Lemma sub_set_sessions f d0 d : (forall x, s_user (f x) = s_user x /\ s_token (f x) = s_token x /\ s_expires (f x) = s_expires x) ->
  sub_sessions d0 d -> sub_sessions d0 (set_sessions (f <$> sessions d) d).
Proof.
  intros Hf H i x Hx. simpl in Hx. apply lookup_fmap_Some in Hx as (y & <- & Hy).
  destruct (H i y Hy) as (x0 & H0 & E1 & E2 & E3). destruct (Hf y) as (F1 & F2 & F3).
  exists x0. repeat split; congruence.
Qed.

Lemma sub_purge d0 u : preserves (sub_sessions d0) (exec_all (purge_steps u)).
Proof.
  simpl. do 5 (apply preserves_or_return; [apply preserves_update; intros now d Hd;
    first [by eapply (sub_eq d0 d) | by eapply (sub_filter d0 d)]|intros _]). apply preserves_ret.
Qed.

(** A statement that leaves the sessions alone. *)
Ltac sub_same :=
  first [ apply preserves_update; intros ?now ?d ?Hd
        | apply preserves_exec; intros ?now ?d ?res ?d' ?Hd ?E; repeat case_hyp E; simplify_eq ];
  (eapply sub_eq; [|eassumption]; repeat case_match; done).

(** Neither the sessions nor the messages are written. *)
Definition side_frame (d d' : Db) : Prop :=
  sessions d' = sessions d /\ messages d' = messages d /\ next_message d' = next_message d.

(** What the opening of a direct message writes. *)
Inductive dm_step (d : Db) : Db -> Prop :=
| dm_same : dm_step d d
| dm_opened x : dm_step d (set_dm_open_state x d)
| dm_members x : dm_step d (set_dm_participants x d)
| dm_channel n c : dm_step d (set_next_channel n (set_channels c d)).

Lemma dm_step_frame d d' : dm_step d d' -> side_frame d d'.
Proof. by destruct 1. Qed.

Lemma open_dm_step u c now d x d' : open_dm u c now d = inr (x, d') -> dm_step d d'.
Proof. unfold open_dm. intros E. case_hyp E; simplify_eq. case_match; constructor. Qed.
Lemma open_dm_side u c now d x d' : open_dm u c now d = inr (x, d') -> side_frame d d'.
Proof. intros E. by eapply dm_step_frame, open_dm_step. Qed.

Lemma dm_channel_frame (I : Db -> Prop) u1 u2 :
  (forall d d', dm_step d d' -> I d -> I d') -> preserves I (GetOrCreateDMChannel u1 u2).
Proof.
  intros HI. apply preserves_or_return; [|intros [ch c]; apply preserves_or_return; [apply preserves_query|];
    intros [x|]; [apply preserves_ret|destruct c; apply preserves_ret]].
  apply preserves_in_tx', preserves_or_return; [apply preserves_query|intros [ch|]].
  - apply preserves_bind; [|intros ?; apply preserves_ret].
    apply preserves_exec. intros now d x d' Hd E. eapply HI; [by eapply open_dm_step|done].
  - apply preserves_or_return; [apply preserves_exec; intros now d x d' Hd E; injection E as _ <-; apply (HI d); [constructor|done]|].
    intros ch. apply preserves_or_return; [|intros _; apply preserves_or_return; [|intros _; apply preserves_ret]];
      apply preserves_exec; intros now d x d' Hd E.
    + unfold insert_participants in E. repeat case_hyp E; simplify_eq; (apply (HI d); [constructor|done]).
    + destruct (open_dm u1 ch now d) as [e|[[] d1]] eqn:E1; [done|].
      eapply HI, HI, Hd; by eapply open_dm_step.
Qed.

Lemma sub_dm_channel d0 u1 u2 : preserves (sub_sessions d0) (GetOrCreateDMChannel u1 u2).
Proof. apply dm_channel_frame. intros d d' [E _]%dm_step_frame. by apply sub_eq. Qed.

Lemma sub_delete_account d0 u : preserves (sub_sessions d0) (DeleteAccount u).
Proof.
  apply preserves_in_tx', preserves_or_return; [sub_same|intros rl].
  apply preserves_or_return; [destruct (admin_class rl); [|apply preserves_ret]|intros _].
  { apply preserves_or_return; [apply preserves_query|intros n; destruct (_ =? _)%nat; apply preserves_ret]. }
  apply preserves_or_return; [apply sub_purge|intros _]. apply preserves_or_return; [sub_same|intros _; sub_same].
Qed.

Lemma insert_user_frame n p r now d x d' : insert_user n p r now d = inr (x, d') -> side_frame d d'.
Proof. unfold insert_user. intros E. repeat case_hyp E; by simplify_eq. Qed.
Lemma redeem_frame c now d x d' : redeem_invite c now d = inr (x, d') -> side_frame d d'.
Proof. unfold redeem_invite. intros E. case_hyp E; by simplify_eq. Qed.

Lemma sub_exec {A} d0 (f : Z -> Db -> result db_error (A * Db)) :
  (forall now d x d', f now d = inr (x, d') -> sessions d' = sessions d) -> preserves (sub_sessions d0) (exec f).
Proof. intros Hf. apply preserves_exec. intros now d x d' Hd E. eapply sub_eq; [by eapply Hf|done]. Qed.

Definition no_session (g : gate) : bool := match g with GSession => false | _ => true end.

Lemma writes_sub d0 A (m : ST Sys A) : http_write no_session A m -> preserves (sub_sessions d0) m.
Proof.
  destruct 1; try done; try solve [sub_same | apply sub_dm_channel | apply sub_delete_account].
  - apply preserves_in_tx', preserves_or_return; [|intros _]; apply sub_exec;
      intros * E; [by apply redeem_frame in E as [-> _]|by apply insert_user_frame in E as [-> _]].
  - apply sub_exec. intros * E. by apply insert_user_frame in E as [-> _].
  - apply preserves_update. intros now d Hd. by eapply sub_filter.
  - apply preserves_update. intros now d Hd. apply sub_set_sessions; [|done]. intros x. by case_match.
  - destruct c; [|apply preserves_ret]. apply sub_exec. intros now d x d' E. cbv zeta in E.
    do 2 (case_hyp E; [done|]). by simplify_eq.
  - apply preserves_update. intros now d Hd. by eapply sub_filter.
  - apply sub_exec. intros now d x d' E. unfold insert_channel in E. by simplify_eq.
Qed.

(** Sends and the limiter do not concern the database. *)
Lemma db_http b (P : Db -> Prop) : (forall A (m : ST Sys A), http_write b A m -> preserves P m) ->
  http_inv b P (fun _ => True) (fun w _ => P (sys_db (w_sys w))).
Proof.
  intros HP. split; try done.
  - intros _ A m Hm w Hw. by apply Hm.
  - intros _ q msg w Hw. unfold trySendMsg, upd, gets, modify, go_panic, mbind, ST_bind. cbn [fst snd].
    by repeat case_match.
  - intros _ c msg w Hw. unfold BroadcastToChannel, when, gets, modify, mbind, ST_bind. cbn [fst snd].
    by repeat case_match.
Qed.

(** ** An example *)

(** A server without accounts, whose environment knows nothing. *)
Definition bare_env : Env :=
  mkEnv (fun _ => None) (fun _ _ => false) id (fun _ _ => None) [] [] "" (mkStorage "/srv/files" 1)
    (fun _ => "") (fun _ => None) (fun _ => "") (fun _ => 0) (fun _ => 0) id (fun _ => "") (fun _ _ => 0)
    (fun _ => None) (fun _ => "") id None Some "/srv" (fun _ => "") (fun d _ => d) (fun _ => 0)
    (fun h => mkResponse 500 h None) defaults "1.0.0" "go1.25" 0 (fun _ => None) (fun _ _ => "0").
Definition bare_server : Server :=
  mkServer (NewHub (mkSys initial_db [] 0 []) None None [])
    (Cred.NewPartialAuthStore 0) (Cred.NewPendingTOTPStore 0) Limiter.NewRateLimiter ∅
    (NewUpdater "1.0.0" "" "o" "r") [] ∅ [] [] [].
Definition bare_request : Request :=
  mkRequest "" ∅ "" {["name" := "first.db"]} ∅ "" false None None None.

End ServerRun.
Export ServerRun.

(** C1: safety of the whole server: whatever requests arrive at whatever
    endpoint, interleaved in any order with the events of the WebSocket process,
    the end of an update, the maintenance and restarts of the server, whichever
    statements, writes and file operations fail, and whatever the server finds in
    its database once a backup is restored over it: no goroutine of the hub
    panics, queues stay within their capacity and the hub's map points to
    connections of the right users. The database keeps its integrity unless a
    restoration breaks it: it does in a run without a restoration, and in every
    run when what a restoration leaves has integrity. (A handler of the HTTP API
    that panics is answered by the router's recoverer.) *)
Theorem server_safe env to_jwt es s0 faults now ticks lk proc wf :
  let w := sv_world (run_server env to_jwt es (sv_set_world (start faults now ticks lk proc wf) s0)).2 in
  wokp (fun _ => True) [] (w_replayBuf w) (w_seq w) w /\
  (existsb restoring es = false \/ reload_keeps env db_ok -> db_ok (sys_db (w_sys w))).
Proof.
  intros w. split.
  - assert (server_inv (fun _ => True) (run_server env to_jwt es (sv_set_world (start faults now ticks lk proc wf) s0)).2)
      as (L & rb & _ & Hw) by (apply (run_server_inv (fun _ => True)); [by right|by apply server_inv_start]).
    fold w in Hw. by rewrite (wok_rb _ _ _ _ Hw), (wok_sq _ _ _ _ Hw).
  - intros Hes. assert (server_inv db_ok (run_server env to_jwt es (sv_set_world (start faults now ticks lk proc wf) s0)).2)
      as (L & rb & _ & Hw) by (apply (run_server_inv db_ok); [done|apply (server_inv_start db_ok), initial_db_ok]).
    exact (wok_db _ _ _ _ Hw).
Qed.

(** A restoration, a message on a connection and a restart, where a restoration
    leaves the database as it is. *)
Lemma server_safe_witness :
  let es := [SvRequest (Owner EpRestoreBackup) bare_request; SvProcess (EvReceive 1 "{}");
             SvRestart None "1.0.0" "" None None []] in
  existsb restoring es = true /\ reload_keeps bare_env db_ok /\
  db_ok (sdb (run_server bare_env (fun _ => None) es (sv_set_world (start [] 0 [] None None []) bare_server)).2).
Proof.
  intros es. assert (Hr : reload_keeps bare_env db_ok) by (intros d c Hd; exact Hd).
  split; [reflexivity|]. split; [exact Hr|].
  apply (server_safe bare_env (fun _ => None) es bare_server [] 0 [] None None []). right. exact Hr.
Defined.

(** C13: sessions come from registration, login, two-factor verification and the
    first set-up only, apart from those that a restored backup holds: every other
    endpoint, whatever the request and whoever sends it, leaves only sessions that
    were there, for the same user, with the same token and the same end. *)
Theorem sessions_only_from_login env ep r s :
  let '(_, s') := serve env ep r s in
  if makes_session ep || restores ep then True else sub_sessions (sdb s) (sdb s').
Proof.
  rewrite (surjective_pairing (serve _ _ _ _)). destruct (makes_session ep) eqn:Hep; [done|].
  destruct (restores ep) eqn:Hre; [done|]. simpl.
  apply (kp_serve no_session (sub_sessions (sdb s)) _ _ (db_http _ _ (writes_sub (sdb s))) env ep r);
    [intros []; simpl; by rewrite ?Hep|done|by rewrite Hre|apply sub_refl].
Qed.
