(* ===== verification/LoginThms.v ===== *)
(** * How a session comes into being

    Login and two-factor verification: when each makes a session, for whom, and
    that a refusal leaves users, sessions, invites, settings and the challenges
    as they were. *)

From S2P Require Import Prelude Permissions RateLimiter GoText Wire Json GoTime Crypto Credentials Rows Store StoreInv StoreThms Hub Net LogStream Updater Http AuthApi RestApi AdminApi HttpInv AuthThms.
#[local] Open Scope string_scope.
#[local] Open Scope Z_scope.

Module LoginThms.

(** The tables that say who may enter (and the id of the next session). *)
Definition same_accounts (d d' : Db) : Prop :=
  users d' = users d /\ sessions d' = sessions d /\ invites d' = invites d /\ settings d' = settings d /\
  next_session d' = next_session d.

Lemma same_accounts_refl d : same_accounts d d.
Proof. done. Qed.

#[export] Instance same_accounts_preorder : PreOrder same_accounts.
Proof. split; [done|]. intros a b c (? & ? & ? & ? & ?) (? & ? & ? & ? & ?). repeat split; congruence. Qed.

(** A session of [uid] was added, for 30 days, under a token no session had. *)
Record made_session (from : Z) (d d' : Db) (uid : Z) (token : string) : Prop := {
  mk_sess : exists now later x, from <= now /\ from <= later /\ s_user x = uid /\
    s_token x = HashToken token /\ s_expires x = FormatISO (now + sessionTTL) /\
    s_created x = datetime_now later /\ sessions d' = <[next_session d := x]> (sessions d);
  mk_fresh : forall i x, sessions d !! i = Some x -> s_token x <> HashToken token;
  mk_known : has uid (users d) = true;
  mk_rest : users d' = users d /\ invites d' = invites d /\ settings d' = settings d }.

Lemma made_session_mono from from' d d' d'' uid token : from <= from' -> same_accounts d' d'' ->
  made_session from' d d' uid token -> made_session from d d'' uid token.
Proof.
  intros Hf (E1 & E2 & E3 & E4 & _) [(now & later & x & H1 & H2 & Hx) H3 H4 (F1 & F2 & F3)].
  split; [|done|done|repeat split; congruence].
  exists now, later, x. rewrite E2. split; [lia|]. split; [lia|done].
Qed.

Lemma made_session_after from d0 d d' uid token : same_accounts d0 d ->
  made_session from d d' uid token -> made_session from d0 d' uid token.
Proof.
  intros (E1 & E2 & E3 & E4 & E5) [Hx H3 H4 (F1 & F2 & F3)]. rewrite E1 in *. rewrite E2, E5 in *.
  split; [done|done|done|repeat split; congruence].
Qed.

Lemma insert_session_made from now later uid token dv ip d i d' : from <= now -> from <= later ->
  insert_session uid (HashToken token) dv ip (FormatISO (now + sessionTTL)) later d = inr (i, d') ->
  made_session from d d' uid token.
Proof.
  intros Hn Hl. unfold insert_session. destruct (existsb _ _) eqn:Hf; [done|].
  destruct (has uid (users d)) eqn:Hu; cbn [negb]; [|done]. intros E. injection E as <- <-. split; [|intros j x Hx Ht|done|done].
  - exists now, later, (mkSession (next_session d) uid (HashToken token) dv ip (datetime_now later)
      (datetime_now later) (FormatISO (now + sessionTTL))). by repeat split.
  - rewrite existsb_rows_false in Hf. specialize (Hf j x Hx). apply String.eqb_neq in Hf. done.
Qed.

(** ** Calls of the handlers *)

Lemma CreateSession_wp (R : Server -> Server -> Prop) `{!View R} s0 s uid token dv ip
    (Q : result db_error Z -> Server -> Prop) : R s0 s ->
  (forall e s', R s0 s' -> Q (inl e) s') ->
  (forall i d s', made_session (snow s0) (sdb s0) d uid token -> R (with_sdb d s0) s' -> Q (inr i) s') ->
  wp (db (CreateSession uid (HashToken token) dv ip)) Q s.
Proof.
  intros Hs Hno Hyes. apply wp_db_bind. change (db read_clock) with clock.
  refine (since_clock R _ _ Hs _ _). intros now s1 Hs1 Hn.
  refine (since_exec R _ _ Hs1 _ _ Hno _). intros later i d s2 Hl E Hk.
  apply (Hyes i d); [exact (insert_session_made _ _ _ _ _ _ _ _ _ _ Hn Hl E)|done].
Qed.

Section calls.
Context (R : Server -> Server -> Prop) `{!View R} (s0 s : Server) (Hs : R s0 s).

Lemma issueSession_wp uid dv ip (Q : option string -> Server -> Prop) :
  (forall s, R s (rand_read s).2) ->
  (forall s', R s0 s' -> Q None s') ->
  (forall token d s', made_session (snow s0) (sdb s0) d uid token -> R (with_sdb d s0) s' -> Q (Some token) s') ->
  wp (issueSession uid dv ip) Q s.
Proof.
  intros Hr Hno Hyes. unfold issueSession. apply wp_bind. refine (since_call R _ _ Hs _ _ Hr _).
  intros bytes s1 Hs1. destruct (GenerateToken bytes) as [token|]; [|by apply wp_ret, Hno].
  apply wp_bind. apply (CreateSession_wp R s0 s1); [done| |].
  - intros e s2 H2. by apply wp_ret, Hno.
  - intros i d s2 Hm H2. by eapply wp_ret, Hyes.
Qed.

Lemma LogAudit_wp a act ty tg det (Q : result db_error unit -> Server -> Prop) :
  (forall r d s', same_accounts (sdb s0) d -> R (with_sdb d s0) s' -> Q r s') ->
  wp (db (LogAudit a act ty tg det)) Q s.
Proof.
  intros HQ. refine (since_update R _ _ Hs _ _ _ _).
  - intros e s1 H1. apply (HQ _ (sdb s0)); [done|].
    replace (with_sdb (sdb s0) s0) with s0 by (by destruct s0 as [[[]]]). done.
  - intros now s1 _ H1. by eapply HQ, H1.
Qed.
End calls.

(** What a boolean setting says. *)
Definition setting_reads (d : Db) (key : string) (dflt b : bool) : Prop :=
  match settings d !! key with
  | None => b = dflt
  | Some v => parseBooleanSettingValue v = Some b
  end.

Lemma getBooleanSetting_wp (R : Server -> Server -> Prop) `{!View R} s0 s key dflt
    (Q : option bool -> Server -> Prop) : R s0 s ->
  (forall s', R s0 s' -> Q None s') ->
  (forall b s', R s0 s' -> setting_reads (sdb s0) key dflt b -> Q (Some b) s') ->
  wp (getBooleanSetting key dflt) Q s.
Proof.
  intros Hs Hno Hyes. apply wp_bind. refine (since_setting R _ _ Hs _ _ _ _); intros x s1 H1 Hx; apply wp_ret.
  - destruct x; try (by apply Hno). apply Hyes; [done|]. unfold setting_reads. by destruct Hx as [?| ->].
  - destruct (parseBooleanSettingValue x) eqn:E; [|by apply Hno]. apply Hyes; [done|]. unfold setting_reads. by rewrite Hx.
Qed.

(** The address is not locked out at a time of the request's treatment. *)
Definition not_locked (s : Server) (key : string) : Prop :=
  exists t, snow s <= t /\ (Limiter.IsLockedOut (w_limiter (sv_world s)) key t).1 = false.

Lemma limiter_locked_wp key s (Q : bool -> Server -> Prop) :
  (forall s', kept s s' -> Q true s') -> (forall s', kept s s' -> not_locked s key -> Q false s') ->
  wp (limiter_locked key) Q s.
Proof.
  intros H1 H2. pose proof (kept_locked key s) as Hk. unfold wp. destruct (limiter_locked key s) as [b s'] eqn:E.
  simpl in Hk. destruct b; [by apply H1|]. apply H2; [done|]. exists (sys_now (tick (w_sys (sv_world s)))).
  split; [apply tick_now|]. injection E as <- _. done.
Qed.

Section login.
Context (compare : string -> string -> bool) (proxies : list string).

(** The name and the password of the request are those of [user], who is not
    banned, and the address was not locked out. *)
Record right_password (r : Request) (s : Server) (user : User) : Prop := {
  rp_request : exists name password, Decode login_fields ("", "") r = DecodeOk (name, password) /\
    same_name (u_username user) (TrimSpace name) = true /\
    Cred.CheckPassword compare (u_password user) password = true;
  rp_known : exists i, users (sdb s) !! i = Some user;
  rp_unbanned : unbanned s user;
  rp_address : not_locked s ("login_lock:" +:+ clientIPWithProxies r proxies) }.

(** A challenge of [uid] was stored under [token], for the time of the store. *)
Definition challenged (r : Request) (s s' : Server) (uid : Z) (token : string) : Prop :=
  exists t later, snow s <= t /\ snow s <= later /\
    ps_entries (sv_partial s') =
      <[token := Cred.mkChallenge uid (header r "User-Agent") (clientIPWithProxies r proxies) 0
                   (later + ps_ttl (sv_partial s))]> (ps_entries (Cred.partial_cleanup (sv_partial s) t)).

(** What a login comes to. *)
Inductive login_outcome (r : Request) (s : Server) : Response -> Server -> Prop :=
| LoginRefused rs s' : rs_status rs <> 200 -> same_accounts (sdb s) (sdb s') -> sv_partial s' = sv_partial s ->
    login_outcome r s rs s'
| LoginChallenge user token s' : right_password r s user -> u_totp user <> None ->
    same_accounts (sdb s) (sdb s') -> challenged r s s' (u_id user) token ->
    login_outcome r s (writeJSON 200 (authSuccess "" token true None)) s'
| LoginSession user token s' : right_password r s user -> u_totp user = None ->
    setting_reads (sdb s) "require_2fa" false false ->
    made_session (snow s) (sdb s) (sdb s') (u_id user) token -> sv_partial s' = sv_partial s ->
    login_outcome r s (writeJSON 200 (authSuccess token "" false (Some user))) s'.

Lemma login_refuse r s0 s status code msg : kept s0 s -> status <> 200 ->
  wp (reject status code msg) (login_outcome r s0) s.
Proof.
  intros Hk Hst. apply wp_ret, LoginRefused; [done|by rewrite (k_db _ _ Hk)|apply (k_partial _ _ Hk)].
Qed.

Lemma login_failed_wp r s0 s fk lk : kept s0 s -> wp (login_failed fk lk) (login_outcome r s0) s.
Proof.
  intros Hs. unfold login_failed. hstep. hstep. hstep. hstep; [hstep|hstep]; by apply login_refuse.
Qed.

Lemma partial_issue_wp r s0 s uid (Q : option string -> Server -> Prop) : kept s0 s ->
  (forall s', kept s0 s' -> Q None s') ->
  (forall token s', sdb s' = sdb s0 -> challenged r s0 s' uid token -> Q (Some token) s') ->
  wp (partial_issue uid (header r "User-Agent") (clientIPWithProxies r proxies)) Q s.
Proof.
  intros Hs Hno Hyes. unfold partial_issue. hstep. hstep. hstep. hstep. rename H0 into Ht1. hstep. hstep. rename H0 into Ht2.
  apply wp_act. unfold generateOpaqueToken. destruct a as [bytes|]; simpl.
  - match goal with Hk : kept s0 ?s1 |- _ => destruct Hk as [K1 K2 K3 _ _] end. apply Hyes; [exact K1|].
    exists t, t0. rewrite <- K3. done.
  - match goal with Hk : kept s0 ?s1 |- Q None ?s2 => replace s2 with s1 by (by destruct s1) end. by apply Hno.
Qed.

Lemma login_user_wp r s0 s user : kept s0 s ->
  (unbanned s0 user -> right_password r s0 user) ->
  wp (login_user user (clientIPWithProxies r proxies) r) (login_outcome r s0) s.
Proof.
  intros Hs Hright. unfold login_user. hstep. refine (since_clock _ _ _ Hs _ _). intros t s1 H1 Ht.
  destruct (Cred.IsEffectivelyBanned t _) eqn:Eb.
  { hstep. apply (LogAudit_wp kept s0 s1); [done|]. intros _ d s2 Hd H2. apply wp_ret, LoginRefused; [done| |].
    - by rewrite (k_db _ _ H2).
    - apply (k_partial _ _ H2). }
  assert (Hp : right_password r s0 user) by (apply Hright; by exists t).
  hstep. apply (getBooleanSetting_wp kept s0 s1); [done|intros; by apply login_refuse|].
  intros b s2 H2 Hb. destruct (u_totp user) as [secret|] eqn:Et.
  - hstep. apply (partial_issue_wp r s0 s2); [done|intros; by apply login_refuse|].
    intros token s3 E3 Hc. eapply wp_ret, LoginChallenge; [done|congruence|by rewrite E3|done].
  - destruct b; [by apply login_refuse|]. hstep. apply (issueSession_wp kept s0 s2); [done|apply kept_random| |].
    { intros. by apply login_refuse. }
    intros token d s3 Hm H3. hstep. apply (LogAudit_wp kept (with_sdb d s0) s3); [done|].
    intros _ d' s4 Hd H4. eapply wp_ret, LoginSession; try done.
    + eapply made_session_mono; [apply Z.le_refl| |exact Hm]. by rewrite (k_db _ _ H4).
    + apply (k_partial _ _ H4).
Qed.
End login.
End LoginThms.
Export LoginThms.

(** C8: what a login comes to, whatever the body, the state and the failures: it
    is refused and leaves users, sessions, invites, settings and challenges as
    they were; or the name and the password are those of a stored user who is
    not banned, from an address that is not locked out, and then either the user
    has two-factor authentication and gets nothing but a challenge of their own,
    or has not, two-factor is not required, and exactly one session is added: of
    that user, for thirty days, under a token no session had, which is the token
    of the response. *)
Theorem login_sound compare proxies r s :
  let '(rs, s') := handleLogin compare proxies r s in login_outcome compare proxies r s rs s'.
Proof.
  apply wp_pair. unfold handleLogin. assert (H0 := kept_refl s).
  destruct (Decode _ _ _) as [[name password]| |] eqn:Er; try by apply login_refuse.
  hstep; [by apply login_refuse|]. hstep. apply limiter_locked_wp; [intros; by apply login_refuse|].
  intros s1 H1 Hlock. hstep. refine (since_query _ _ _ H1 _ _ _ _); [intros; by apply login_refuse|].
  intros s2 H2. destruct (find_row _ _) as [user|] eqn:Ef; [|by apply login_failed_wp].
  apply find_row_Some in Ef as [Hk Hn].
  destruct (Cred.CheckPassword _ _ _) eqn:Ec; [|by apply login_failed_wp].
  hstep. hread H2. intros _ s3 H3. apply login_user_wp; [done|]. intros Hu. split; [|done..].
  by exists name, password.
Qed.

Module VerifyThms.

(** Nothing changed in the database. *)
Record calm (s s' : Server) : Prop := { c_db : sdb s' = sdb s; c_now : snow s <= snow s' }.

#[export] Instance calm_view : View calm.
Proof.
  split.
  - intros a b c [A1 A2] [B1 B2]. split; [congruence|lia].
  - intros s s' Hq. by destruct Hq.
  - apply c_db.
  - apply c_now.
  - intros d s s' [H1 H2]. by split.
Qed.

Lemma calm_refl s : calm s s.
Proof. by apply view_quiet. Qed.
Lemma calm_random s : calm s (rand_read s).2.
Proof. by destruct (kept_random s). Qed.

(** An operation of the store of challenges, at the time it reads. *)
Lemma partial_op_wp {A} (f : Cred.PartialAuthStore -> Z -> A * Cred.PartialAuthStore) s0 s
    (Q : A -> Server -> Prop) : calm s0 s ->
  (forall t s', snow s0 <= t -> calm s0 s' -> sv_partial s' = (f (sv_partial s) t).2 ->
     Q (f (sv_partial s) t).1 s') ->
  wp (t ← clock; act (fun s => let x := f (sv_partial s) t in (x.1, sv_set_partial x.2 s))) Q s.
Proof.
  intros Hs HQ. apply wp_bind, wp_clock. intros t s1 Hq Ht _. apply wp_act. cbn [fst snd].
  pose proof (quiet_fields _ _ Hq) as (_ & E & _). rewrite E.
  destruct Hs as [Hd Hn]. pose proof (q_db _ _ Hq) as E1. pose proof (q_now _ _ Hq).
  apply HQ; [lia|split|done]; change (sdb s1 = sdb s0) || change (snow s0 <= snow s1); [congruence|lia].
Qed.

(** What the verification of a code comes to. *)
Inductive verify_outcome (r : Request) (s : Server) : Response -> Server -> Prop :=
| VerifyRefused rs s' : rs_status rs <> 200 -> same_accounts (sdb s) (sdb s') -> verify_outcome r s rs s'
| VerifySession partialToken challenge code user secret t1 t2 token s' :
    Cred.ExtractBearerToken (header r "Authorization") = Some partialToken ->
    ps_entries (sv_partial s) !! partialToken = Some challenge ->
    snow s <= t1 -> Cred.challenge_live t1 challenge = true ->
    users (sdb s) !! pc_UserID challenge = Some user -> u_totp user = Some secret ->
    Decode code_fields "" r = DecodeOk code ->
    snow s <= t2 -> VerifyTOTPCode secret (TrimSpace code) t2 = true ->
    made_session (snow s) (sdb s) (sdb s') (u_id user) token ->
    ps_entries (sv_partial s') !! partialToken = None ->
    verify_outcome r s (writeJSON 200 (authSuccess token "" false (Some user))) s'.

Lemma verify_refuse r s0 s status code msg : calm s0 s -> status <> 200 ->
  wp (reject status code msg) (verify_outcome r s0) s.
Proof. intros Hk Hst. apply wp_ret, VerifyRefused; [done|by rewrite (c_db _ _ Hk)]. Qed.

Lemma lookup_live p token t ch : (Cred.Partial_Lookup p token t).1 = Some ch ->
  ps_entries p !! token = Some ch /\ Cred.challenge_live t ch = true.
Proof. simpl. intros H. by apply map_lookup_filter_Some in H. Qed.

Lemma consume_gone p token t ch : (Cred.Partial_Consume p token t).1 = Some ch ->
  ps_entries (Cred.Partial_Consume p token t).2 !! token = None.
Proof.
  unfold Cred.Partial_Consume. cbv zeta. destruct (ps_entries _ !! token); [|done]. intros _. apply lookup_delete_eq.
Qed.

Lemma verify_code_wp r s0 s tok code user secret ch t1 : calm s0 s ->
  Cred.ExtractBearerToken (header r "Authorization") = Some tok ->
  ps_entries (sv_partial s0) !! tok = Some ch -> snow s0 <= t1 -> Cred.challenge_live t1 ch = true ->
  users (sdb s0) !! pc_UserID ch = Some user -> u_totp user = Some secret ->
  Decode code_fields "" r = DecodeOk code ->
  wp (verify_code tok code secret user ch) (verify_outcome r s0) s.
Proof.
  intros Hs Htok Hch Ht1 Hlive Hu Hsec Hd. unfold verify_code. apply wp_bind.
  refine (since_clock calm _ _ Hs _ _). intros t2 s1 H1 Ht2.
  destruct (VerifyTOTPCode _ _ _) eqn:Ev; cbn [negb].
  - apply wp_bind, (partial_op_wp (fun p => Cred.Partial_Consume p tok) s0 s1); [done|].
    intros t3 s2 Ht3 H2 Hp. destruct (Cred.Partial_Consume _ _ _).1 as [e|] eqn:Ec; [|by apply verify_refuse].
    apply consume_gone in Ec. apply wp_bind, (issueSession_wp kept s2 s2); [apply kept_refl|apply kept_random| |].
    + intros s3 H3. apply verify_refuse; [|done]. destruct H2, H3. split; [congruence|lia].
    + intros token d s3 Hm H3. rewrite (c_db _ _ H2) in Hm. eapply wp_ret, (VerifySession r s0 tok ch code user secret t1 t2); try done.
      * eapply made_session_mono; [apply (c_now _ _ H2)| |exact Hm]. by rewrite (k_db _ _ H3).
      * rewrite (k_partial _ _ H3). change (ps_entries (sv_partial s2) !! tok = None). by rewrite Hp.
  - apply wp_bind, (partial_op_wp (fun p => Cred.Partial_RegisterFailure p tok 5) s0 s1); [done|].
    intros. by apply verify_refuse.
Qed.
End VerifyThms.
Export VerifyThms.

(** C15: a two-factor code makes a session only for the user of a challenge that
    the bearer token names and that is live, whose stored secret gives that code
    around the time of the request; the challenge is used up, and exactly one
    session of that user is added. Anything else leaves users, sessions, invites
    and settings as they were. *)
Theorem verify_totp_sound r s :
  let '(rs, s') := handleVerifyTOTP r s in verify_outcome r s rs s'.
Proof.
  apply wp_pair. unfold handleVerifyTOTP. assert (H0 := calm_refl s).
  destruct (Cred.ExtractBearerToken _) as [tok|] eqn:Etok; [|by apply verify_refuse].
  apply wp_bind, (partial_op_wp (fun p => Cred.Partial_Lookup p tok) s s); [done|].
  intros t1 s1 Ht1 H1 _. destruct (Cred.Partial_Lookup _ _ _).1 as [ch|] eqn:El; [|by apply verify_refuse].
  apply lookup_live in El as [Hch Hlive].
  destruct (Decode _ _ _) as [code| |] eqn:Ed; try by apply verify_refuse.
  apply wp_bind. refine (since_query calm _ _ H1 _ _ _ _); [intros; by apply verify_refuse|].
  intros s2 H2. destruct (users _ !! _) as [user|] eqn:Eu; [|by apply verify_refuse].
  destruct (u_totp user) as [secret|] eqn:Es; [|by apply verify_refuse].
  by eapply verify_code_wp.
Qed.

Module RegisterThms.
(** The clock does not go back. *)
Lemma now_or_return {A B} (m : ST Sys (result db_error A)) (k : A -> ST Sys (result db_error B)) y :
  (forall y, sys_now y <= sys_now (m y).2) -> (forall a y, sys_now y <= sys_now (k a y).2) ->
  sys_now y <= sys_now (or_return m k y).2.
Proof.
  intros Hm Hk. unfold or_return, mbind, ST_bind. specialize (Hm y). destruct (m y) as [[e|a] y1]; cbn [fst snd] in *; [done|].
  etrans; [exact Hm|apply Hk].
Qed.

Lemma now_in_tx {A} (body : ST Sys (result db_error A)) y :
  (forall y, sys_now y <= sys_now (body y).2) -> sys_now y <= sys_now (in_tx body y).2.
Proof.
  intros Hb. unfold in_tx. pose proof (exec_clock (fun _ d => inr (tt, d)) y) as H1. unfold query.
  destruct (exec (fun _ d => inr (tt, d)) y) as [[e|u] y1]; cbn [fst snd] in *; [done|].
  specialize (Hb y1). destruct (body y1) as [[e|a] y2]; cbn [fst snd] in *; [by etrans|].
  pose proof (exec_clock (fun _ d => inr (tt, d)) y2) as H2.
  destruct (exec (fun _ d => inr (tt, d)) y2) as [[e|u'] y3]; cbn [fst snd] in *; (etrans; [exact H1|]); by etrans.
Qed.

Lemma now_CreateUserWithInvite n p role c y : sys_now y <= sys_now (CreateUserWithInvite n p role c y).2.
Proof. apply now_in_tx. intros y1. apply now_or_return; intros; apply exec_clock. Qed.

Section register.
Context (hash : string -> option string) (sanitize : string -> string).

(** What a registration needs: it is open, no second factor is required, and the
    name and the password of the body pass the checks. *)
Record may_register (r : Request) (d : Db) (name pw code : string) : Prop := {
  mr_open : setting_reads d "registration_open" false true;
  mr_single : setting_reads d "require_2fa" false false;
  mr_request : exists req, Decode register_fields (mkRegister "" "" "") r = DecodeOk req /\
    name = TrimSpace (sanitize (rg_Username req)) /\ code = TrimSpace (rg_InviteCode req) /\
    Cred.ValidatePasswordStrength (rg_Password req) = None /\ hash (rg_Password req) = Some pw;
  mr_name : Cred.ValidateUsername name = None }.

(** What a registration comes to. The account stays when its first session
    cannot be made. *)
Inductive register_outcome (r : Request) (s : Server) (rs : Response) (s' : Server) : Prop :=
| RegisterRefused : rs_status rs <> 201 -> same_accounts (sdb s) (sdb s') -> register_outcome r s rs s'
| Registered name pw code d uid : may_register r (sdb s) name pw code ->
    invited name pw MemberRoleID code (sdb s) d uid ->
    (rs_status rs <> 201 /\ same_accounts d (sdb s')) \/
    (exists token, made_session (snow s) d (sdb s') uid token) ->
    register_outcome r s rs s'.

Lemma register_refuse r s0 s status code msg : kept s0 s -> status <> 201 ->
  wp (reject status code msg) (register_outcome r s0) s.
Proof. intros Hk Hst. apply wp_ret, RegisterRefused; [done|by rewrite (k_db _ _ Hk)]. Qed.

Lemma register_session_wp r s0 s name pw code d uid : may_register r (sdb s0) name pw code ->
  invited name pw MemberRoleID code (sdb s0) d uid -> sdb s = d -> snow s0 <= snow s ->
  wp (register_session uid r) (register_outcome r s0) s.
Proof.
  intros Hm Hi Hd Hn. unfold register_session. cbv zeta.
  apply wp_bind, (LogAudit_wp kept s s); [apply kept_refl|]. intros _ d1 s1 Hd1 H1. rewrite Hd in Hd1.
  apply wp_bind, (issueSession_wp kept s1 s1); [apply kept_refl|apply kept_random| |].
  { intros s2 H2. apply wp_ret. eapply Registered; [done..|]. left. split; [done|].
    by rewrite (k_db _ _ H2), (k_db _ _ H1). }
  intros token d2 s2 Hs2 H2. pose proof (k_db _ _ H1) as E1. change (sdb s1 = d1) in E1. rewrite E1 in Hs2.
  assert (Hn1 : snow s <= snow s1) by apply (k_now _ _ H1).
  assert (Hok : forall rs s3, sdb s3 = d2 -> register_outcome r s0 rs s3).
  { intros rs s3 E3. eapply Registered; [done..|]. right. exists token. rewrite E3.
    eapply made_session_after; [done|]. eapply made_session_mono; [|done|done]. lia. }
  pose proof (k_db _ _ H2) as E2. change (sdb s2 = d2) in E2.
  apply wp_bind. refine (since_query calm s2 s2 _ _ _ _ _); [apply calm_refl|intros e s3 H3|intros s3 H3].
  - apply wp_ret, Hok. by rewrite (c_db _ _ H3).
  - destruct (users (sdb s2) !! uid); apply wp_ret, Hok; by rewrite (c_db _ _ H3).
Qed.

Lemma register_user_wp r s0 s req : kept s0 s ->
  setting_reads (sdb s0) "registration_open" false true -> setting_reads (sdb s0) "require_2fa" false false ->
  Decode register_fields (mkRegister "" "" "") r = DecodeOk req ->
  wp (register_user hash (TrimSpace (sanitize (rg_Username req))) (rg_Password req) (TrimSpace (rg_InviteCode req)) r)
    (register_outcome r s0) s.
Proof.
  intros Hs Ho H2 Hd. unfold register_user. destruct (_ || _); [by apply register_refuse|].
  destruct (Cred.ValidateUsername _) eqn:Ev; [by apply register_refuse|].
  destruct (Cred.ValidatePasswordStrength _) eqn:Ep; [by apply register_refuse|].
  destruct (hash _) as [pw|] eqn:Eh; [|by apply register_refuse].
  apply wp_bind, sys_wp. set (name := TrimSpace (sanitize (rg_Username req))) in *. set (code := TrimSpace (rg_InviteCode req)).
  pose proof (CreateUserWithInvite_spec name pw MemberRoleID code (w_sys (sv_world s))) as Hspec.
  pose proof (now_CreateUserWithInvite name pw MemberRoleID code (w_sys (sv_world s))) as Hnow.
  destruct (CreateUserWithInvite _ _ _ _ _) as [[e|uid] y]; cbn [fst snd] in *.
  - assert (Hk : kept s0 (with_sys y s)).
    { destruct Hs as [K1 K2 K3 K4 K5]. split; [by etrans|etrans; [exact K2|exact Hnow]|done..]. }
    destruct (_ || _); [|by apply register_refuse]. apply wp_ret, RegisterRefused; [done|by rewrite (k_db _ _ Hk)].
  - change (sys_db (w_sys (sv_world s))) with (sdb s) in Hspec. rewrite (k_db _ _ Hs) in Hspec.
    eapply (register_session_wp _ _ _ name pw code); [|exact Hspec|done|].
    + split; [done..|by exists req|done].
    + pose proof (k_now _ _ Hs). etrans; [done|exact Hnow].
Qed.
End register.
End RegisterThms.
Export RegisterThms.

(** C16: what a registration comes to: it is refused and changes no user, session,
    invite or setting; or registration is open, no second factor is required,
    name and password pass the checks, a usable invite is used up once, exactly
    one member is added whose password is stored hashed, and then at most one
    session is made, of that member. *)
Theorem register_sound hash sanitize r s :
  let '(rs, s') := handleRegister hash sanitize r s in register_outcome hash sanitize r s rs s'.
Proof.
  apply wp_pair. unfold handleRegister, register_policy.
  apply wp_bind, (getBooleanSetting_wp kept s s); [apply kept_refl|intros; by apply register_refuse|].
  intros o s1 H1 Ho. destruct o; [|by apply register_refuse].
  apply wp_bind, (getBooleanSetting_wp kept s s1); [done|intros; by apply register_refuse|].
  intros q s2 H2 Hq. destruct q; [by apply register_refuse|].
  destruct (Decode _ _ _) as [req| |] eqn:Ed; try by apply register_refuse.
  by apply register_user_wp.
Qed.
