(* ===== verification/DiskThms.v ===== *)
(** * What updates and backups do to the disk

    A binary is installed only when its hash is the listed one; replacing the
    running binary never loses it; backups stay in their directory and a
    restoration writes one file. *)

From S2P Require Import Prelude Permissions RateLimiter GoText Wire Json GoTime Crypto Credentials Rows Store StoreInv Hub Net LogStream Updater Config Http AuthApi RestApi Storage LiveKitProxy Status AdminApi Updates Routes HttpInv HttpFrame.
#[local] Open Scope string_scope.
#[local] Open Scope Z_scope.

Module DiskThms.

(** ** Rules for file operations

    [s] is [s0] with the files [d], apart from the clock and the faults. *)

Lemma quiet_set_disk d s s' : quiet s s' -> quiet (sv_set_disk d s) (sv_set_disk d s').
Proof. intros [H1 H2 H3 H4]. split; [done|exact H2|exact H3|]. simpl. rewrite H4. by destruct s. Qed.

Lemma set_own_disk s : sv_set_disk (sv_disk s) s = s.
Proof. by destruct s. Qed.

Lemma quiet_disk d s0 s : quiet (sv_set_disk d s0) s -> sv_disk s = d.
Proof. intros H. by apply quiet_fields in H as (-> & _). Qed.

Section disk.
Context (s0 : Server) (d : gmap string string) (s : Server) (Hs : quiet (sv_set_disk d s0) s).

Lemma disk_io (Q : bool -> Server -> Prop) :
  (forall b s', quiet (sv_set_disk d s0) s' -> Q b s') -> wp io_ok Q s.
Proof. intros HQ. refine (since_io quiet _ _ Hs _ _). done. Qed.

Lemma disk_put d' s' : quiet (sv_set_disk d s0) s' -> quiet (sv_set_disk d' s0) (sv_set_disk d' s').
Proof. intros H. exact (quiet_set_disk d' _ _ H). Qed.

Lemma disk_write dst c (Q : unit -> Server -> Prop) :
  (forall s', quiet (sv_set_disk (<[dst := c]> d) s0) s' -> Q tt s') -> wp (write_file dst c) Q s.
Proof. intros HQ. unfold write_file. apply wp_modify, HQ. rewrite (quiet_disk _ _ _ Hs). by apply disk_put. Qed.

Lemma disk_remove path (Q : bool -> Server -> Prop) :
  (forall s', quiet (sv_set_disk d s0) s' -> Q false s') ->
  (forall s', quiet (sv_set_disk (delete path d) s0) s' -> Q true s') -> wp (os_Remove path) Q s.
Proof.
  intros H1 H2. unfold os_Remove. apply wp_bind, disk_io. intros b s1 Hq. apply wp_act.
  rewrite (quiet_disk _ _ _ Hq). destruct (d !! path); [destruct b|]; [by apply H2, disk_put|by apply H1..].
Qed.

Lemma disk_rename old new (Q : bool -> Server -> Prop) :
  (forall s', quiet (sv_set_disk d s0) s' -> Q false s') ->
  (forall c s', d !! old = Some c -> quiet (sv_set_disk (<[new := c]> (delete old d)) s0) s' -> Q true s') ->
  wp (os_Rename old new) Q s.
Proof.
  intros H1 H2. unfold os_Rename. apply wp_bind, disk_io. intros b s1 Hq. apply wp_act.
  rewrite (quiet_disk _ _ _ Hq). destruct (d !! old) as [c|] eqn:E; [destruct b|];
    [by eapply H2, disk_put|by apply H1..].
Qed.

Lemma disk_open path (Q : option string -> Server -> Prop) :
  (forall s', quiet (sv_set_disk d s0) s' -> Q None s') ->
  (forall c s', d !! path = Some c -> quiet (sv_set_disk d s0) s' -> Q (Some c) s') -> wp (os_Open path) Q s.
Proof.
  intros H1 H2. unfold os_Open. apply wp_bind, disk_io. intros b s1 Hq. apply wp_gets.
  destruct b; [|by apply H1]. rewrite (quiet_disk _ _ _ Hq). destruct (d !! path) eqn:E; [by eapply H2|by apply H1].
Qed.
End disk.

Lemma only_at_refl p d : only_at p d d.
Proof. done. Qed.
Lemma only_at_insert p c d d' : only_at p d d' -> only_at p d (<[p := c]> d').
Proof. intros H q Hq. rewrite lookup_insert_ne by done. by apply H. Qed.
Lemma only_at_delete p d d' : only_at p d d' -> only_at p d (delete p d').
Proof. intros H q Hq. rewrite lookup_delete_ne by done. by apply H. Qed.

(** ** Downloads *)

(** A reply that a request was answered with, and what it left. *)
Lemma wp_get url tok s (Q : option Reply -> Server -> Prop) :
  (forall r l, sv_net s = r :: l \/ (r = None /\ l = sv_net s) ->
     Q r (sv_set_net l (sv_set_sent (sv_sent s ++ [(url, tok)])%list s))) -> wp (do_get url tok) Q s.
Proof.
  intros HQ. unfold wp, do_get. simpl. destruct (sv_net s) as [|r l] eqn:E; simpl.
  - replace (sv_set_sent _ s) with (sv_set_net [] (sv_set_sent (sv_sent s ++ [(url, tok)])%list s))
      by (destruct s; simpl in *; by subst). apply HQ. by right.
  - apply HQ. by left.
Qed.


Lemma wp_gets_bind {A B} (f : Server -> A) (k : A -> H B) (Q : B -> Server -> Prop) s :
  wp (k (f s)) Q s -> wp (gets f ≫= k) Q s.
Proof. done. Qed.

Lemma body_whole (n : nat) (text : string) : (length (bytes_of text) <= n)%nat -> string_of (take n (bytes_of text)) = text.
Proof. intros H. by rewrite take_ge, string_of_bytes. Qed.

Lemma take_within {A} (n : Z) (l : list A) : 0 <= n -> Z.of_nat (length (take (Z.to_nat (n + 1)) l)) <= n ->
  (length l <= Z.to_nat (n + 1))%nat /\ Z.of_nat (length l) <= n.
Proof. rewrite length_take. lia. Qed.

Lemma max_positive : 0 <= maxBinarySize.
Proof. apply Z.leb_le. vm_compute. reflexivity. Qed.

Section download.
Context (url_hostname : string -> option string) (partial : string -> string).

(** The state after a GET that was answered. *)
Definition asked (url : string) (l : list (option Reply)) (s : Server) : Server :=
  sv_set_net l (sv_set_sent (sv_sent s ++ [(url, token_for url_hostname (sv_updater s) url)])%list s).

Lemma downloadFile_wp url dst s (Q : option update_error -> Server -> Prop) :
  (forall e s', only_at dst (sv_disk s) (sv_disk s') -> Q (Some e) s') ->
  (forall rp l s', sv_net s = Some rp :: l -> rp_status rp = 200 ->
     Z.of_nat (String.length (rp_body rp)) <= maxBinarySize ->
     quiet (sv_set_disk (<[dst := rp_body rp]> (sv_disk s)) (asked url l s)) s' -> Q None s') ->
  wp (downloadFile url_hostname partial url dst) Q s.
Proof.
  intros Hno Hyes. unfold downloadFile. apply wp_gets_bind, wp_bind, wp_get. intros r l Hl.
  fold (asked url l s). set (s1 := asked url l s). assert (E1 : sv_disk s1 = sv_disk s) by done.
  assert (H1 : quiet (sv_set_disk (sv_disk s) s1) s1) by (rewrite <- E1, set_own_disk; reflexivity).
  destruct r as [rp|]; [|apply wp_ret, Hno; by rewrite E1].
  destruct Hl as [Hl|[? _]]; [|done].
  apply wp_if; [intros _; apply wp_ret, Hno; by rewrite E1|intros Est].
  apply wp_bind, (disk_io _ _ _ H1). intros b s2 H2.
  apply wp_if; [intros _; apply wp_ret, Hno; by rewrite (quiet_disk _ _ _ H2)|intros _]. cbv zeta.
  apply wp_bind, (disk_io _ _ _ H2). intros copied s3 H3. apply wp_bind, (disk_write _ _ _ H3). intros s4 H4.
  assert (Hfail : forall e, wp (_ ← os_Remove dst; mret (Some e)) Q s4).
  { intros e. apply wp_bind, (disk_remove _ _ _ H4); intros s5 H5; apply wp_ret, Hno; rewrite (quiet_disk _ _ _ H5);
      [|apply only_at_delete]; by apply only_at_insert. }
  apply wp_if; [intros _; apply Hfail|intros Eok]. apply wp_if; [intros _; apply Hfail|intros Elen].
  apply orb_false_iff in Eok as [Ec _]. apply negb_false_iff in Ec, Est. apply Z.eqb_eq in Est. apply Z.ltb_ge in Elen.
  rewrite Ec in H4. pose proof (take_within _ _ max_positive Elen) as Hlen.
  destruct Hlen as [Hle Hmax]. rewrite (body_whole _ _ Hle) in H4. rewrite length_bytes_of in Hmax.
  apply wp_ret. exact (Hyes rp l s4 Hl Est Hmax H4).
Qed.

(** A body of at most 1 MiB fetched with a GET. *)
Lemma fetchBody_wp url s (Q : result update_error string -> Server -> Prop) :
  (forall e s', sv_disk s' = sv_disk s -> Q (inl e) s') ->
  (forall rp l, sv_net s = Some rp :: l -> rp_status rp = 200 ->
     Q (inr (string_of (take body_limit (bytes_of (rp_body rp))))) (asked url l s)) ->
  wp (fetchBody url_hostname url) Q s.
Proof.
  intros Hno Hyes. unfold fetchBody. apply wp_gets_bind, wp_bind, wp_get. intros r l Hl. apply wp_ret.
  fold (asked url l s). destruct r as [rp|]; [|by apply Hno]. destruct Hl as [Hl|[? _]]; [|done].
  destruct (rp_status rp =? 200) eqn:Est; cbn [negb]; [|by apply Hno]. cbv zeta.
  destruct (_ && _); [by apply Hno|]. apply Hyes; [done|]. by apply Z.eqb_eq.
Qed.

(** What a verified download is: the listing and the binary came from the release's
    own URLs, the binary is whole, and its hash is the one listed. *)
Record verified (durl curl dst : string) (s s' : Server) : Prop := {
  vf_urls : ValidateDownloadURL (sv_updater s) durl = true /\ ValidateDownloadURL (sv_updater s) curl = true;
  vf_replies : exists listing binary l hash, sv_net s = Some listing :: Some binary :: l /\
    rp_status listing = 200 /\ rp_status binary = 200 /\
    Z.of_nat (String.length (rp_body binary)) <= maxBinarySize /\
    ParseChecksumFile (string_of (take body_limit (bytes_of (rp_body listing)))) (Base dst) = Some hash /\
    EqualFold (actual_hash (rp_body binary)) hash = true /\
    sv_disk s' = <[dst := rp_body binary]> (sv_disk s);
  vf_sent : sv_sent s' = (sv_sent s ++ [(curl, token_for url_hostname (sv_updater s) curl);
                                       (durl, token_for url_hostname (sv_updater s) durl)])%list }.
End download.

(** ** The replacement of the binary *)

Lemma append_ne (p t : string) : t <> "" -> p +:+ t <> p.
Proof. intros Ht. induction p as [|c p IH]; simpl; [done|]. intros [= E]. by apply IH. Qed.

Lemma append_inj (p t u : string) : p +:+ t = p +:+ u -> t = u.
Proof. induction p as [|c p IH]; simpl; [done|]. intros [= E]. by apply IH. Qed.

(** The three files of an update, before it and after. [old0] is what was left of
    an earlier update. *)
Record binaries := mkBinaries { bn_exe : option string; bn_new : option string; bn_old : option string }.
Definition binaries_of (exe : string) (s : Server) : binaries :=
  mkBinaries (sv_disk s !! exe) (sv_disk s !! (exe +:+ ".new")) (sv_disk s !! (exe +:+ ".old")).

Definition applied (o : apply_outcome) (b b' : binaries) : Prop :=
  match o with
  | ApNotRenamed => bn_exe b' = bn_exe b /\ bn_new b' = bn_new b
  | ApRestored => b' = mkBinaries (bn_exe b) (bn_new b) None
  | ApLost => b' = mkBinaries None (bn_new b) (bn_exe b)
  | ApNotSpawned | ApExited => is_Some (bn_new b) /\ b' = mkBinaries (bn_new b) None (bn_exe b)
  end.

(** Nothing else changed. *)
Definition only_binaries (exe : string) (d d' : gmap string string) : Prop :=
  forall p, p <> exe -> p <> exe +:+ ".new" -> p <> exe +:+ ".old" -> d' !! p = d !! p.

Lemma binary_names exe : exe +:+ ".new" <> exe /\ exe +:+ ".old" <> exe /\ exe +:+ ".new" <> exe +:+ ".old".
Proof. split; [|split]; [by apply append_ne..|]. intros E. by apply append_inj in E. Qed.

(** Lookups among names known to differ. *)
Ltac files :=
  repeat first [rewrite lookup_insert_eq | rewrite lookup_delete_eq
               | rewrite lookup_insert_ne by done | rewrite lookup_delete_ne by done].

(** The renames, once ".old" is out of the way. *)
Definition swap_binaries (exe : string) (spawned : bool) : H apply_outcome :=
  moved ← os_Rename exe (exe +:+ ".old");
  if negb moved then mret ApNotRenamed else
  installed ← os_Rename (exe +:+ ".new") exe;
  if negb installed then
    restored ← os_Rename (exe +:+ ".old") exe;
    if restored : bool then mret ApRestored
    else _ ← hub (BroadcastServerRestart "update_failed" 0); mret ApLost
  else mret (if spawned then ApExited else ApNotSpawned).

Lemma swap_binaries_wp exe spawned s0 d0 d1 s : only_at (exe +:+ ".old") d0 d1 -> quiet (sv_set_disk d1 s0) s ->
  wp (swap_binaries exe spawned) (fun o s' =>
    applied o (binaries_of exe (sv_set_disk d0 s0)) (binaries_of exe s') /\
    (o = ApExited -> spawned = true) /\ only_binaries exe d0 (sv_disk s')) s.
Proof.
  intros Hd Hs. destruct (binary_names exe) as (N1 & N2 & N3). unfold swap_binaries, binaries_of.
  assert (E1 : d1 !! exe = d0 !! exe) by (by apply Hd).
  assert (E2 : d1 !! (exe +:+ ".new") = d0 !! (exe +:+ ".new")) by (by apply Hd).
  apply wp_bind, (disk_rename _ _ _ Hs).
  { intros s3 H3. apply wp_ret. rewrite (quiet_disk _ _ _ H3). split; [done|]. split; [done|].
    intros p _ _ Hp. by apply Hd. }
  intros c s3 Hc H3. rewrite E1 in Hc. apply wp_bind, (disk_rename _ _ _ H3).
  - intros s4 H4. apply wp_bind, (disk_rename _ _ _ H4).
    + intros s5 H5. apply wp_bind, wp_hub, wp_ret. cbn [sv_disk sv_set_world]. rewrite (quiet_disk _ _ _ H5).
      split; [simpl; files; by rewrite E2, Hc|]. split; [done|]. intros p P1 P2 P3. files. by apply Hd.
    + intros c' s5 Hc' H5. rewrite lookup_insert_eq in Hc'. injection Hc' as <-. apply wp_ret. rewrite (quiet_disk _ _ _ H5).
      split; [simpl; files; by rewrite E2, Hc|]. split; [done|]. intros p P1 P2 P3. files. by apply Hd.
  - intros c' s4 Hc' H4. rewrite lookup_insert_ne, lookup_delete_ne, E2 in Hc' by done.
    apply wp_ret. rewrite (quiet_disk _ _ _ H4). split; [|split; [by destruct spawned|]].
    + destruct spawned; simpl; files; rewrite Hc, Hc'; by split.
    + intros p P1 P2 P3. files. by apply Hd.
Qed.

(** ** Which files an endpoint touches *)

Lemma elsewhere_http (may : string -> Prop) (d0 : gmap string string) :
  http_inv anything (fun _ => True) may (fun _ d => forall p, ~ may p -> d !! p = d0 !! p).
Proof.
  split.
  - by intros A m _ y _.
  - by intros d A m _ w Hw.
  - done.
  - by intros d q msg w Hw.
  - by intros d c msg w Hw.
  - intros w d p c Hp Hd q Hq. rewrite lookup_insert_ne; [by apply Hd|]. by intros ->.
  - intros w d p Hp Hd q Hq. rewrite lookup_delete_ne; [by apply Hd|]. by intros ->.
Qed.

Lemma HasPrefix_append (p t : string) : HasPrefix (p +:+ t) p = true.
Proof. induction p as [|c p IH]; [by destruct t|]. rewrite append_cons. simpl. by rewrite Ascii.eqb_refl. Qed.

Lemma HasPrefix_longer (p t : string) : t <> "" -> HasPrefix p (p +:+ t) = false.
Proof.
  intros Ht. induction p as [|c p IH]; [by destruct t|]. rewrite append_cons. simpl. by rewrite Ascii.eqb_refl.
Qed.

(** A directory other than the root, as [os.Getwd] gives it. *)
Definition working_dir (cwd : string) : Prop := clean_dir cwd /\ cwd <> "/".

Lemma Join_dir cwd name : working_dir cwd -> plain_name name ->
  Join cwd name = cwd +:+ "/" +:+ name /\ working_dir (Join cwd name).
Proof.
  intros [Hc Hr] Hn. destruct (Join_plain cwd name Hc Hn) as [E|[? _]]; [|done].
  split; [done|]. rewrite E. split; [exact E|]. destruct cwd as [|c cwd]; [|by destruct cwd].
  simpl. destruct Hn as [Hn _]. by intros [= ?].
Qed.

Lemma Join_deep cwd x rest : working_dir cwd -> plain_name x -> Join cwd (x +:+ "/" +:+ rest) = Join (Join cwd x) rest.
Proof.
  intros Hc Hx. rewrite (proj1 (Join_dir cwd x Hc Hx)). unfold Join. by rewrite !string_app_assoc.
Qed.

Lemma Join_dot dir : clean_dir dir -> Join dir "." = dir.
Proof.
  intros Hd. unfold Join, Clean. rewrite bytes_of_app. change (bytes_of ("/" +:+ ".")) with [slash; dot].
  rewrite split_app, clean_elems_app. exact Hd.
Qed.

(** A backup lies directly in the backups' directory. *)
Lemma backup_at cwd name : working_dir cwd -> backup_name_ok cwd name = true ->
  plain_name name /\ Abs cwd (backup_path name) = (Abs cwd backup_dir +:+ "/") +:+ name.
Proof.
  intros Hc Hn.
  assert (P1 : plain_name "data") by done. assert (P2 : plain_name "backups") by done.
  destruct (Join_dir cwd "data" Hc P1) as [_ Hc1]. destruct (Join_dir _ "backups" Hc1 P2) as [_ Hc2].
  assert (E : Abs cwd backup_dir = Join (Join cwd "data") "backups") by (by apply (Join_deep cwd "data" "backups")).
  unfold backup_name_ok in Hn. rewrite E in *. set (D := Join (Join cwd "data") "backups") in *.
  apply andb_true_iff in Hn as [Hn Hp]. apply negb_true_iff in Hn.
  apply orb_false_iff in Hn as [Hn Hs]. apply orb_false_iff in Hn as [H0 Hd].
  assert (Hplain : plain_name name).
  { split; [by apply String.eqb_neq|]. split; [|split].
    - intros ->. rewrite Join_dot, HasPrefix_longer in Hp by (done || apply Hc2). done.
    - by intros ->.
    - unfold has_byte. clear -Hs. induction (bytes_of name) as [|b l IH]; [done|]. cbn [existsb] in *.
      apply orb_false_iff in Hs as [Hb Hl]. apply orb_false_iff in Hb as [Hb _]. rewrite Z.eqb_sym, Hb. by apply IH. }
  split; [done|]. rewrite string_app_assoc, <- (proj1 (Join_dir D name Hc2 Hplain)).
  unfold D, Abs, backup_path. etrans; [apply (Join_deep cwd "data" ("backups" +:+ "/" +:+ name) Hc P1)|].
  by apply Join_deep.
Qed.

(** The files an endpoint may change, in a server that runs in [env_cwd]. *)
Definition own_files (env : Env) (ep : endpoint) (p : string) : Prop :=
  match ep with
  | Authed (EpUpload _ id) => plain_name id /\ p = st_dir (env_store env) +:+ "/" +:+ id
  | Owner EpBackup | Owner EpDeleteBackup => in_backups (env_cwd env) p
  | Owner EpRestoreBackup => in_backups (env_cwd env) p \/ p = Abs (env_cwd env) db_file
  | Owner EpApplyUpdate => downloaded_at (env_exe env) (env_symlink env) p
  | _ => False
  end.

Lemma writes_own env ep p : clean_dir (st_dir (env_store env)) -> working_dir (env_cwd env) ->
  writes_file env ep p -> own_files env ep p.
Proof.
  intros Hst Hc. destruct ep as [[]|[]|[]|[]|[]|[]|[]]; simpl; try done.
  - intros Hp. by destruct (checked_path_in _ _ _ Hst Hp).
  - intros (name & Hn & ->). destruct (backup_at _ _ Hc Hn) as [_ E]. unfold in_backups. rewrite E.
    apply HasPrefix_append.
Qed.
End DiskThms.
Export DiskThms.

(** C12: an update is accepted only when both files come from URLs of the
    repository's releases, the requests are answered with 200, and the SHA-256 of
    the whole binary that was fetched is the hash the fetched list has for the
    destination's name; the destination then holds exactly that binary. Whatever
    happens, no other file changes. *)
Theorem update_verified url_hostname partial durl curl dst s :
  let '(e, s') := DownloadAndVerify url_hostname partial durl curl dst s in
  only_at dst (sv_disk s) (sv_disk s') /\
  match e with None => verified url_hostname durl curl dst s s' | Some _ => True end.
Proof.
  apply wp_pair. unfold DownloadAndVerify. apply wp_gets_bind.
  apply wp_if; [intros _; by apply wp_ret|intros Hd]. apply wp_if; [intros _; by apply wp_ret|intros Hc].
  apply negb_false_iff in Hd, Hc.
  apply wp_bind, fetchBody_wp; [intros e s1 E; apply wp_ret; by rewrite E|]. intros listing l Hl Hst. cbv zeta.
  set (s1 := asked url_hostname curl l s). assert (E1 : sv_disk s1 = sv_disk s) by done.
  destruct (ParseChecksumFile _ _) as [hash|] eqn:Eh; [|by apply wp_ret].
  apply wp_bind, downloadFile_wp; [intros e s2 H2; by apply wp_ret|].
  intros rp l' s2 Hl' Hst' Hlen H2. change (sv_net s1) with l in Hl'. subst l. rewrite E1 in H2.
  set (d := <[dst := rp_body rp]> (sv_disk s)) in *.
  assert (Hd' : only_at dst (sv_disk s) d) by (by apply only_at_insert).
  assert (Hfail : forall (e : update_error) s3, quiet (sv_set_disk d (asked url_hostname durl l' s1)) s3 ->
    wp (_ ← os_Remove dst; mret (Some e)) (fun e s' => only_at dst (sv_disk s) (sv_disk s') /\
      match e with None => verified url_hostname durl curl dst s s' | Some _ => True end) s3).
  { intros e s3 H3. apply wp_bind, (disk_remove _ _ _ H3); intros s4 H4; apply wp_ret; rewrite (quiet_disk _ _ _ H4);
      (split; [|done]); [done|by apply only_at_delete]. }
  apply wp_bind. unfold VerifyChecksum. apply wp_bind, (disk_open _ _ _ H2); [intros s3 H3; apply wp_ret; by apply Hfail|].
  intros c s3 Hget H3. apply wp_bind, (disk_io _ _ _ H3). intros b s4 H4. apply wp_ret.
  destruct b; cbn [negb]; [|by apply Hfail]. destruct (checksum_ok c hash) eqn:Eck; [|by apply Hfail].
  apply wp_ret. rewrite (quiet_disk _ _ _ H4). split; [done|].
  unfold d in Hget. rewrite lookup_insert_eq in Hget. injection Hget as <-. split; [done| |].
  - exists listing, rp, l', hash. by rewrite (quiet_disk _ _ _ H4).
  - apply quiet_fields in H4 as (_ & _ & _ & _ & _ & _ & _ & _ & -> & _). simpl. by rewrite <- app_assoc.
Qed.

(** C37: replacing the running binary never loses it: whatever fails, after the
    update either it is in place, or the new one is and it is kept as ".old", or
    (when it could not be moved back) it is kept as ".old"; the new process is
    started only when the new binary is in place, and no other file changes. *)
Theorem apply_update_keeps_binary exe spawned s :
  let '(o, s') := apply_update exe spawned s in
  applied o (binaries_of exe s) (binaries_of exe s') /\
  (o = ApExited -> spawned = true) /\ only_binaries exe (sv_disk s) (sv_disk s').
Proof.
  apply wp_pair. unfold apply_update. cbv zeta. apply wp_bind, wp_hub. set (s1 := sv_set_world _ s).
  assert (H1 : quiet (sv_set_disk (sv_disk s) s1) s1) by (change (sv_disk s) with (sv_disk s1); rewrite set_own_disk; reflexivity).
  apply wp_bind, (disk_remove _ _ _ H1); intros s2 H2;
    eapply (swap_binaries_wp exe spawned s1 (sv_disk s)); try exact H2; [done|by apply only_at_delete].
Qed.

(** C11: whatever the request, an endpoint leaves every file as it was except: an
    upload, the file of its own fresh id directly in the storage directory; the
    owner's backups, files in the backups' directory; a restoration, those and
    the database file; an update, the downloaded binary next to the running one. *)
Theorem files_confined env ep r s (Hst : clean_dir (st_dir (env_store env))) (Hcwd : working_dir (env_cwd env)) :
  let '(_, s') := serve env ep r s in
  forall p, ~ own_files env ep p -> sv_disk s' !! p = sv_disk s !! p.
Proof.
  rewrite (surjective_pairing (serve env ep r s)). intros p Hp.
  apply (kp_serve anything (fun _ => True) (writes_file env ep) _ (elsewhere_http _ (sv_disk s)) env ep r); try done.
  intros Hw. apply Hp. by apply writes_own.
Qed.

Lemma files_confined_witness :
  let env := mkEnv (fun _ => None) (fun _ _ => false) id (fun _ _ => None) [] [] "" (mkStorage "/srv/files" 1)
    (fun _ => "") (fun _ => None) (fun _ => "") (fun _ => 0) (fun _ => 0) id (fun _ => "") (fun _ _ => 0)
    (fun _ => None) (fun _ => "") id None Some "/srv" (fun _ => "") (fun d _ => d) (fun _ => 0) (fun h => mkResponse 500 h None) defaults "1.0.0" "go1.25" 0 (fun _ => None) (fun _ _ => "0") in
  let s := mkServer (NewHub (mkSys (mkDb ∅ ∅ ∅ ∅ ∅ ∅ ∅ ∅ ∅ ∅ ∅ ∅ ∅ [] ∅ 1 1 1 1 1 1) [] 0 []) None None [])
    (Cred.NewPartialAuthStore 0) (Cred.NewPendingTOTPStore 0) Limiter.NewRateLimiter ∅
    (NewUpdater "1.0.0" "" "o" "r") [] {["/etc/passwd" := "root"]} [] [] [] in
  let r := mkRequest "" ∅ "" {["name" := "../../etc/passwd"]} ∅ "" false None None None in
  sv_disk (serve env (Owner EpRestoreBackup) r s).2 !! "/etc/passwd" = Some "root".
Proof.
  intros env s r. pose proof (files_confined env (Owner EpRestoreBackup) r s) as H.
  destruct (serve env (Owner EpRestoreBackup) r s) as [rs s']. etrans; [apply H|].
  - vm_compute. reflexivity.
  - split; [vm_compute; reflexivity|done].
  - intros [Hp|Hp]; vm_compute in Hp; done.
  - vm_compute. reflexivity.
Defined.

Lemma HasPrefix_skip s p : HasPrefix s p = true -> p +:+ skip (String.length p) s = s.
Proof.
  revert s. induction p as [|c p IH]; intros s H; [by destruct s|].
  destruct s as [|x s]; [done|]. simpl in *. apply andb_true_iff in H as [Hc H].
  apply Ascii.eqb_eq in Hc as ->. change (String x (p +:+ skip (String.length p) s) = String x s). by rewrite IH.
Qed.

(** The list of backups names exactly the files directly in the directory of
    the backups. *)
Lemma backup_names_spec cwd d name :
  name ∈ backup_names cwd d <->
  name <> "" /\ has_byte slash (bytes_of name) = false /\ is_Some (d !! (Abs cwd backup_dir +:+ "/" +:+ name)).
Proof.
  unfold backup_names. set (dir := Abs cwd backup_dir +:+ "/").
  rewrite elem_of_sort_by, <- (string_app_assoc (Abs cwd backup_dir) "/" name). fold dir.
  rewrite list_elem_of_In, List.filter_In, andb_true_iff, !negb_true_iff, String.eqb_neq, <- list_elem_of_In, list_elem_of_fmap.
  split.
  - intros [(p & -> & Hp) [Hne Hs]]. split; [done|]. split; [done|].
    apply list_elem_of_In, List.filter_In in Hp as [Hin Hpre]. rewrite (HasPrefix_skip _ _ Hpre).
    apply list_elem_of_In, list_elem_of_fmap in Hin as ((q & c) & -> & Hq). apply elem_of_map_to_list in Hq. by exists c.
  - intros (Hne & Hs & [c Hc]). split; [|done]. exists (dir +:+ name). split; [symmetry; apply skip_app|].
    apply list_elem_of_In, List.filter_In. split; [|apply HasPrefix_append].
    apply list_elem_of_In, list_elem_of_fmap. exists (dir +:+ name, c). split; [done|]. by apply elem_of_map_to_list.
Qed.
