(* ===== verification/AdminThms.v ===== *)
(** * What the administration endpoints do

    The effect of a change of settings and of a user, in one transaction each;
    the first set-up happens once; the log stream needs a fresh ticket and an
    administrator's live session. *)

From S2P Require Import Prelude Permissions RateLimiter GoText Wire Json GoTime Crypto Credentials Rows Store StoreInv StoreThms Hub Net LogStream Updater Http AuthApi RestApi AdminApi HttpInv AuthThms LoginThms.
#[local] Open Scope string_scope.
#[local] Open Scope Z_scope.

Module AdminThms.

(** ** Calls that keep a predicate of the database *)

Lemma db_wp {A} (P : Db -> Prop) (m : ST Sys A) s (Q : A -> Server -> Prop) :
  preserves P m -> P (sdb s) -> (forall a s', P (sdb s') -> Q a s') -> wp (db m) Q s.
Proof. intros Hm Hs HQ. apply sys_wp, HQ. by apply Hm. Qed.

Lemma query_wp {A} (f : Db -> A) s (Q : result db_error A -> Server -> Prop) :
  (forall e s', sdb s' = sdb s -> Q (inl e) s') -> (forall s', sdb s' = sdb s -> Q (inr (f (sdb s))) s') ->
  wp (db (query f)) Q s.
Proof.
  intros H1 H2. apply wp_query. intros x s' Hq [[e ->]| ->]; [apply H1|apply H2]; apply (q_db _ _ Hq).
Qed.

Lemma setting_wp key s (Q : result db_error string -> Server -> Prop) :
  (forall e s', sdb s' = sdb s -> e <> ErrNotFound \/ settings (sdb s) !! key = None -> Q (inl e) s') ->
  (forall v s', sdb s' = sdb s -> settings (sdb s) !! key = Some v -> Q (inr v) s') ->
  wp (db (GetSetting key)) Q s.
Proof.
  intros H1 H2. refine (since_setting quiet s s _ _ _ _ _); [reflexivity|..]; intros x s' Hq Hx;
    [apply H1|apply H2]; done || apply (q_db _ _ Hq).
Qed.

Lemma same_accounts_audit d0 a x t i det : preserves (same_accounts d0) (LogAudit a x t i det).
Proof. apply preserves_update. intros now d Hd. by etrans. Qed.

(** ** Transactions *)

(** A transaction fails as a whole, or its body ran on the database it found. *)
Lemma tx_cases {A} e1 e2 (body : ST Sys (result Response A)) y :
  (sys_db (tx e1 e2 body y).2 = sys_db y /\ exists rs, (tx e1 e2 body y).1 = inl rs /\
     (rs = e1 \/ rs = e2 \/ exists y1, (body y1).1 = inl rs)) \/
  (exists a y1, sys_db y1 = sys_db y /\ (body y1).1 = inr a /\ (tx e1 e2 body y).1 = inr a /\
     sys_db (tx e1 e2 body y).2 = sys_db (body y1).2).
Proof.
  unfold tx. pose proof (query_db (fun _ => tt) y) as H1.
  destruct (query (fun _ => tt) y) as [[e|u] y1]; cbn [fst snd] in *; [left; eauto|].
  destruct (body y1) as [[rs|a] y2] eqn:E; [left; cbn [fst snd]; split; [done|]; exists rs; split; [done|];
    right; right; exists y1; by rewrite E|].
  pose proof (query_db (fun _ => tt) y2) as H2. destruct (query (fun _ => tt) y2) as [[e|u'] y3]; cbn [fst snd] in *.
  - left. eauto 6.
  - right. exists a, y1. rewrite E. cbn [fst snd]. by rewrite H2.
Qed.

Lemma tx_wp {A} e1 e2 (body : ST Sys (result Response A)) s (Q : result Response A -> Server -> Prop) :
  (forall rs s', sdb s' = sdb s -> (rs = e1 \/ rs = e2 \/ exists y, (body y).1 = inl rs) -> Q (inl rs) s') ->
  (forall a y s', sys_db y = sdb s -> (body y).1 = inr a -> sdb s' = sys_db (body y).2 -> Q (inr a) s') ->
  wp (db (tx e1 e2 body)) Q s.
Proof.
  intros H1 H2. apply sys_wp.
  destruct (tx_cases e1 e2 body (w_sys (sv_world s))) as [(E & rs & -> & Hrs)|(a & y & E & Ea & -> & Es)].
  - by apply H1.
  - by apply (H2 a y).
Qed.

(** A statement that succeeded. *)
Lemma update_at (f : Z -> Db -> Db) y x : (update f y).1 = inr x -> exists now, sys_db (update f y).2 = f now (sys_db y).
Proof.
  unfold update. intros H. match goal with |- context [exec ?g y] =>
    destruct (exec_cases g y) as [(e & E & _)|(now & a & d & _ & Hf & Hd & _)] end; [congruence|].
  injection Hf as <- <-. by exists now.
Qed.

Lemma stmt_inr {A B} (m : ST Sys (result db_error A)) e (k : ST Sys (result Response B)) y b :
  (stmt m e k y).1 = inr b -> (exists a, (m y).1 = inr a) /\ (k (m y).2).1 = inr b /\ (stmt m e k y).2 = (k (m y).2).2.
Proof.
  unfold stmt, mbind, ST_bind. destruct (m y) as [[x|a] y1]; cbn [fst snd]; [done|]. intros H. split; [by exists a|done].
Qed.

Lemma stmt_inl {A B} (m : ST Sys (result db_error A)) e (k : ST Sys (result Response B)) y rs :
  (stmt m e k y).1 = inl rs -> rs = e \/ exists y1, (k y1).1 = inl rs.
Proof.
  unfold stmt, mbind, ST_bind. destruct (m y) as [[x|a] y1]; cbn [fst snd]; [intros [= <-]; by left|]. intros H. right. by exists y1.
Qed.


(** ** Settings *)

Lemma apply_settings_inl l y rs : (apply_settings l y).1 = inl rs -> rs_status rs = 500.
Proof.
  revert y. induction l as [|[k v] l IH]; intros y; simpl; [done|]. intros H.
  apply stmt_inl in H as [->|[y1 H]]; [done|by eapply IH].
Qed.

Lemma apply_settings_inr l y x : NoDup l.*1 -> (apply_settings l y).1 = inr x ->
  sys_db (apply_settings l y).2 =
    set_settings (list_to_map l ∪ settings (sys_db y)) (sys_db y).
Proof.
  revert y. induction l as [|[k v] l IH]; intros y Hnd; simpl.
  - intros _. rewrite (left_id_L ∅ (∪)). by destruct (sys_db y).
  - apply NoDup_cons in Hnd as [Hk Hnd]. intros H. apply stmt_inr in H as ([u Hu] & Hl & ->).
    apply update_at in Hu as [now Hu]. rewrite (IH _ Hnd Hl). unfold SetSetting in *. rewrite Hu. simpl.
    rewrite <- insert_union_r; [by rewrite insert_union_l|]. by apply not_elem_of_list_to_map_1.
Qed.

(** Every user who may enter has a second factor. *)
Definition everyone_enrolled (d : Db) : Prop :=
  forall i u, users d !! i = Some u -> u_banned u = false -> u_totp u <> None.

Lemma counted_enrolled d :
  0 <? Z.of_nat (countb (fun u => negb (u_banned u) && match u_totp u with None => true | Some _ => false end)
    (rows (users d))) = false -> everyone_enrolled d.
Proof.
  intros H i u Hu Hb Ht. apply Z.ltb_ge in H.
  assert (Hin : u ∈ rows (users d)) by (apply elem_of_rows; by exists i).
  apply list_elem_of_split in Hin as (l1 & l2 & E). rewrite E, countb_app in H. unfold countb in H.
  cbn [List.filter] in H. rewrite Hb, Ht in H. cbn in H. lia.
Qed.

(** The value [key] will have after [m]. *)
Definition will_read (m : gmap string string) (d : Db) (key : string) (b : bool) : Prop :=
  setting_reads (set_settings (m ∪ settings d) d) key false b.

Lemma will_read_inj m d key b b' : will_read m d key b -> will_read m d key b' -> b = b'.
Proof. unfold will_read, setting_reads. destruct (_ !! key); congruence. Qed.

Lemma targetBoolSetting_wp quote err m key s0 s (Q : result string bool -> Server -> Prop) : sdb s = sdb s0 ->
  (forall e s', sdb s' = sdb s0 -> Q (inl e) s') ->
  (forall b s', sdb s' = sdb s0 -> will_read m (sdb s0) key b -> Q (inr b) s') ->
  wp (targetBoolSetting quote err m key) Q s.
Proof.
  intros Hs H1 H2. unfold targetBoolSetting, will_read, setting_reads in *. simpl in *.
  assert (Hp : forall v s', sdb s' = sdb s0 -> (m ∪ settings (sdb s0)) !! key = Some v -> Q (parse_setting quote v) s').
  { intros v s' E Hv. unfold parse_setting. destruct (parseBooleanSettingValue v) eqn:Ev; [|by apply H1].
    apply H2; [done|]. by rewrite Hv. }
  destruct (m !! key) as [v|] eqn:Em.
  { apply wp_ret, Hp; [done|]. by apply lookup_union_Some_l. }
  apply wp_bind, setting_wp; rewrite Hs; intros x s' E Hx; apply wp_ret.
  - destruct x; try (by apply H1). apply H2; [done|]. rewrite lookup_union_r by done. by destruct Hx as [?| ->].
  - apply Hp; [done|]. by rewrite lookup_union_r.
Qed.

(** What a change that requires a second factor needs. *)
Definition rule_2fa (m : gmap string string) (d : Db) : Prop :=
  will_read m d "require_2fa" true -> will_read m d "registration_open" false /\ everyone_enrolled d.

Lemma validateRequire2FAUpdate_wp quote err m s0 s (Q : option string -> Server -> Prop) : sdb s = sdb s0 ->
  (forall e s', sdb s' = sdb s0 -> Q (Some e) s') ->
  (forall s', sdb s' = sdb s0 -> rule_2fa m (sdb s0) -> Q None s') ->
  wp (validateRequire2FAUpdate quote err m) Q s.
Proof.
  intros Hs H1 H2. unfold validateRequire2FAUpdate.
  apply wp_bind, (targetBoolSetting_wp _ _ _ _ s0); [done|intros; by apply wp_ret, H1|]. intros b s1 E1 Hb.
  destruct b; [|apply wp_ret, H2; [done|]; intros Ht; by pose proof (will_read_inj _ _ _ _ _ Hb Ht)].
  apply wp_bind, (targetBoolSetting_wp _ _ _ _ s0); [done|intros; by apply wp_ret, H1|]. intros o s2 E2 Ho.
  destruct o; [by apply wp_ret, H1|]. apply wp_bind, query_wp; rewrite E2.
  - intros e s3 E3. by apply wp_ret, H1.
  - intros s3 E3. apply wp_ret. destruct (0 <? _) eqn:Ec; [by apply H1|]. apply H2; [done|]. intros _.
    split; [done|]. by apply counted_enrolled.
Qed.

(** What a request to change settings comes to. *)
Inductive settings_outcome (quote : string -> string) (r : Request) (s : Server) (rs : Response) (s' : Server) : Prop :=
| SettingsKept : rs_status rs <> 200 -> same_accounts (sdb s) (sdb s') -> settings_outcome quote r s rs s'
| SettingsSet updates m : decode_updates r = Some updates ->
    (forall k v, updates !! k = Some v -> k ∈ allowedSettingKeys) ->
    normalizeSettingUpdates quote updates = inr m -> rule_2fa m (sdb s) ->
    same_accounts (set_settings (m ∪ settings (sdb s)) (sdb s)) (sdb s') -> settings_outcome quote r s rs s'.

(** ** Users *)

Lemma broadcast_sys c msg w : w_sys (BroadcastToChannel c msg w).2 = w_sys w.
Proof. unfold BroadcastToChannel, mbind, ST_bind. cbn [fst snd gets when modify]. unfold when. by case_match. Qed.

Lemma broadcast_wp (P : Db -> Prop) c msg s (Q : unit -> Server -> Prop) :
  P (sdb s) -> (forall s', P (sdb s') -> Q tt s') -> wp (hub (BroadcastToChannel c msg)) Q s.
Proof.
  intros Hs HQ. apply wp_hub. destruct (BroadcastToChannel c msg (sv_world s)).1. apply HQ.
  change (P (sys_db (w_sys (BroadcastToChannel c msg (sv_world s)).2))). by rewrite broadcast_sys.
Qed.

(** The users after a change of role and of ban. *)
Definition patched (id : Z) (req : patchUserRequest) (us : gmap Z User) : gmap Z User :=
  let us := match pu_RoleID req with Some roleID => update_row id (user_set_role roleID) us | None => us end in
  match pu_Banned req with
  | None => us
  | Some true => update_row id (user_set_ban true (Some (default "" (pu_BanReason req))) None) us
  | Some false => update_row id (user_set_ban false None None) us
  end.

Definition patched_db (id : Z) (req : patchUserRequest) (d : Db) : Db := set_users (patched id req (users d)) d.

Definition ban_stmts (id : Z) (req : patchUserRequest) : ST Sys (result Response unit) :=
  match pu_Banned req with
  | None => tx_done
  | Some true => stmt (BanUser id (default "" (pu_BanReason req)) None) (internal_error "failed to ban user") tx_done
  | Some false => stmt (UnbanUser id) (internal_error "failed to unban user") tx_done
  end.

Lemma ban_stmts_inr id req y x : (ban_stmts id req y).1 = inr x ->
  sys_db (ban_stmts id req y).2 =
    set_users (match pu_Banned req with
               | None => users (sys_db y)
               | Some true => update_row id (user_set_ban true (Some (default "" (pu_BanReason req))) None) (users (sys_db y))
               | Some false => update_row id (user_set_ban false None None) (users (sys_db y))
               end) (sys_db y).
Proof.
  unfold ban_stmts. destruct (pu_Banned req) as [[]|].
  - intros H. apply stmt_inr in H as ([u Hu] & _ & ->). apply update_at in Hu as [now Hu]. exact Hu.
  - intros H. apply stmt_inr in H as ([u Hu] & _ & ->). apply update_at in Hu as [now Hu]. exact Hu.
  - intros _. simpl. by destruct (sys_db y).
Qed.

Definition user_stmts (id : Z) (req : patchUserRequest) : ST Sys (result Response unit) :=
  match pu_RoleID req with
  | None => ban_stmts id req
  | Some roleID => stmt (UpdateUserRole id roleID) (internal_error "failed to update role") (ban_stmts id req)
  end.

Lemma user_stmts_inr id req y x : (user_stmts id req y).1 = inr x ->
  sys_db (user_stmts id req y).2 = patched_db id req (sys_db y) /\
  (forall roleID, pu_RoleID req = Some roleID -> has id (users (sys_db y)) = true -> has roleID (roles (sys_db y)) = true).
Proof.
  unfold user_stmts, patched_db, patched. destruct (pu_RoleID req) as [roleID|] eqn:Er.
  - intros H. apply stmt_inr in H as ([u Hu] & Hb & ->). rewrite (ban_stmts_inr _ _ _ _ Hb).
    unfold UpdateUserRole in *.
    match goal with |- context [exec ?g y] => destruct (exec_cases g y) as [(e & E & _)|(now & a & d & _ & Hf & -> & _)] end;
      [congruence|].
    destruct (has id _ && negb _) eqn:Ef; [done|]. injection Hf as _ <-. split; [by destruct (sys_db y)|].
    intros rid [= <-] Hid. rewrite Hid in Ef. by destruct (has roleID _).
  - intros H. split; [by apply (ban_stmts_inr _ _ _ _ H)|done].
Qed.

Lemma user_stmts_inl id req y rs : (user_stmts id req y).1 = inl rs -> rs_status rs = 500.
Proof.
  assert (Hb : forall y, (ban_stmts id req y).1 = inl rs -> rs_status rs = 500).
  { intros y' H. unfold ban_stmts in H. destruct (pu_Banned req) as [[]|]; [apply stmt_inl in H as [->|[? H]]; done..|done]. }
  unfold user_stmts. destruct (pu_RoleID req); [|apply Hb]. intros H. apply stmt_inl in H as [->|[y1 H]]; [done|by eapply Hb].
Qed.

(** What a request to change a user comes to. *)
Inductive patch_outcome (r : Request) (s : Server) (rs : Response) (s' : Server) : Prop :=
| PatchKept : rs_status rs <> 200 -> same_accounts (sdb s) (sdb s') -> patch_outcome r s rs s'
| PatchDone id req user : pathInt64 r "id" = Some id -> id <> actorFromContext r ->
    Decode patch_user_fields (mkPatchUser None None None) r = DecodeOk req ->
    users (sdb s) !! id = Some user ->
    (forall roleID, pu_RoleID req = Some roleID -> has roleID (roles (sdb s)) = true) ->
    same_accounts (patched_db id req (sdb s)) (sdb s') -> patch_outcome r s rs s'.

Lemma patch_user_announce_wp (P : Db -> Prop) actor id name req s :
  (forall a x t i det, preserves P (LogAudit a x t i det)) -> P (sdb s) ->
  wp (patch_user_announce actor id name req) (fun _ s' => P (sdb s')) s.
Proof.
  intros HP Hs. unfold patch_user_announce.
  assert (Hban : forall s1, P (sdb s1) ->
    wp (match pu_Banned req with
        | None => mret tt
        | Some true => _ ← db (LogAudit actor "user_ban" "user" id ("banned " +:+ name +:+ ": " +:+ default "" (pu_BanReason req)));
            hub (BroadcastMemberBan id)
        | Some false => _ ← db (LogAudit actor "user_unban" "user" id ("unbanned " +:+ name)); mret tt
        end) (fun _ s' => P (sdb s')) s1).
  { intros s1 H1. destruct (pu_Banned req) as [[]|]; [..|done];
      (apply wp_bind, (db_wp P); [apply HP|done|]; intros _ s2 H2); [by apply (broadcast_wp P)|done]. }
  apply wp_bind. destruct (pu_RoleID req) as [rid|]; [|by apply Hban].
  apply wp_bind, (db_wp P); [apply HP|done|]. intros _ s2 H2.
  apply wp_bind, query_wp; [intros e s3 E|intros s3 E].
  - apply wp_ret, Hban. by rewrite E.
  - destruct (roles _ !! rid) as [role|]; [|apply wp_ret, Hban; by rewrite E].
    apply (broadcast_wp P); [by rewrite E|]. intros s4 H4. by apply Hban.
Qed.

(** ** The first set-up *)

Definition same_users (us : gmap Z User) (d : Db) : Prop := users d = us.

(** A statement that leaves the users alone. *)
Lemma exec_users {A} us (f : Z -> Db -> result db_error (A * Db)) :
  (forall now d x d', f now d = inr (x, d') -> users d' = users d) -> preserves (same_users us) (exec f).
Proof. intros Hf. apply preserves_exec. intros now d x d' Hd E. red. by rewrite (Hf _ _ _ _ E). Qed.

Lemma users_CreateSession us u t dv ip : preserves (same_users us) (CreateSession u t dv ip).
Proof.
  apply preserves_bind; [apply preserves_read_clock|intros now]. apply exec_users.
  intros later d x d' E. unfold insert_session in E. repeat case_hyp E; by simplify_eq.
Qed.
Lemma users_CreateChannel us n t c tp p : preserves (same_users us) (CreateChannel n t c tp p).
Proof. apply exec_users. intros now d x d' E. unfold insert_channel in E. repeat case_hyp E; by simplify_eq. Qed.
Lemma users_CreateInvite us c u m e : preserves (same_users us) (CreateInvite c u m e).
Proof. destruct c; [|apply preserves_ret]. apply exec_users. intros now d x d' E. cbv zeta in E. repeat case_hyp E; by simplify_eq. Qed.
Lemma users_LogAudit us a x t i det : preserves (same_users us) (LogAudit a x t i det).
Proof. by apply preserves_update. Qed.

(** The owner's account. *)
Definition owner_account (hash : string -> option string) (d : Db) (u : User) : Prop :=
  u_id u = next_user d /\ u_role u = ownerRoleID /\ Cred.ValidateUsername (u_username u) = None /\
  exists password, Cred.ValidatePasswordStrength password = None /\ hash password = Some (u_password u).

(** What a first set-up comes to. *)
Inductive setup_outcome (hash : string -> option string) (s : Server) (rs : Response) (s' : Server) : Prop :=
| SetupRefused : rs_status rs <> 201 -> same_accounts (sdb s) (sdb s') -> setup_outcome hash s rs s'
| SetupDone u : users (sdb s) = ∅ -> owner_account hash (sdb s) u ->
    users (sdb s') = {[u_id u := u]} -> setup_outcome hash s rs s'.

Lemma setup_rest_wp (Q : Response -> Server -> Prop) us username host r uid s : same_users us (sdb s) ->
  (forall rs s', same_users us (sdb s') -> Q rs s') -> wp (setup_rest uid username host r) Q s.
Proof.
  intros Hs HQ.
  assert (Hrand : forall s, same_users us (sdb s) -> same_users us (sdb (rand_read s).2)).
  { intros s1 H1. by rewrite (k_db _ _ (kept_random s1)). }
  unfold setup_rest. apply wp_bind, (wp_act rand_read).
  set (s1 := (rand_read s).2). assert (H1 : same_users us (sdb s1)) by (by apply Hrand).
  destruct (Crypto.GenerateToken _) as [token|]; [|by apply wp_ret, HQ].
  apply wp_bind, (db_wp (same_users us)); [apply users_CreateSession|done|]. intros [e|x] s2 H2; [by apply wp_ret, HQ|].
  apply wp_bind, (db_wp (same_users us)); [apply users_CreateChannel|done|]. intros _ s3 H3.
  apply wp_bind, (db_wp (same_users us)); [apply users_CreateChannel|done|]. intros _ s4 H4.
  apply wp_bind, wp_bind, wp_bind, (wp_act rand_read), wp_ret.
  apply (db_wp (same_users us)); [apply users_CreateInvite|by apply Hrand|]. intros [e|c] s5 H5; [by apply wp_ret, HQ|].
  apply wp_bind, (db_wp (same_users us)); [apply users_LogAudit|done|]. intros _ s6 H6. by apply wp_ret, HQ.
Qed.
End AdminThms.
Export AdminThms.

(** C36: a request to change settings either is refused and changes no user,
    session, invite or setting, or sets exactly the given settings, all of them
    allowed keys with booleans in normal form, all at once; and then a required
    second factor means that registration is closed and that every user who is
    not banned has a second factor. *)
Theorem settings_rule quote err r s :
  let '(rs, s') := handlePatchSettings quote err r s in settings_outcome quote r s rs s'.
Proof.
  apply wp_pair. unfold handlePatchSettings.
  assert (Hno : forall rs s', rs_status rs <> 200 -> sdb s' = sdb s -> settings_outcome quote r s rs s').
  { intros rs s' Hst E. apply SettingsKept; [done|]. by rewrite E. }
  destruct (decode_updates r) as [updates|] eqn:Ed; [|by apply wp_ret, Hno].
  destruct (List.find _ _) as [key|] eqn:Ek; [by apply wp_ret, Hno|].
  destruct (normalizeSettingUpdates quote updates) as [e|m] eqn:En; [by apply wp_ret, Hno|].
  apply wp_bind, (validateRequire2FAUpdate_wp _ _ _ s); [done|intros; by apply wp_ret, Hno|].
  intros s1 E1 Hrule. unfold commit_settings. apply wp_bind, tx_wp; rewrite E1.
  { intros rs s2 E2 Hrs. apply wp_ret, Hno; [|done]. destruct Hrs as [->|[->|[y Hy]]]; [done..|].
    by rewrite (apply_settings_inl _ _ _ Hy). }
  intros u y s2 Ey Ha E2. rewrite (apply_settings_inr _ _ u (NoDup_fst_map_to_list m) Ha) in E2.
  rewrite list_to_map_to_list, Ey in E2.
  set (d := set_settings (m ∪ settings (sdb s)) (sdb s)) in *.
  assert (Hyes : forall rs s', same_accounts d (sdb s') -> settings_outcome quote r s rs s').
  { intros rs s' Hd. eapply SettingsSet; try done. intros k v Hk.
    pose proof (List.find_none _ _ Ek k) as Hall. cbv beta in Hall.
    assert (Hin : List.In k (map_to_list updates).*1).
    { apply list_elem_of_In, list_elem_of_fmap. exists (k, v). split; [done|]. by apply elem_of_map_to_list. }
    apply Hall, negb_false_iff, existsb_exists in Hin as (k' & Hk' & ->%String.eqb_eq). by apply list_elem_of_In. }
  assert (Hl : forall l s3, same_accounts d (sdb s3) ->
    wp (forM_ l (fun k => _ ← db (LogAudit (actorFromContext r) "setting_change" "setting" 0 (k +:+ " updated")); mret tt))
      (fun _ s' => same_accounts d (sdb s')) s3).
  { induction l as [|k l IH]; intros s3 H3; [done|]. simpl. apply wp_bind, wp_bind.
    apply (db_wp (same_accounts d)); [apply same_accounts_audit|done|]. intros _ s4 H4. by apply wp_ret, IH. }
  apply wp_bind. eapply wp_mono; [apply (Hl _ s2); by rewrite E2|]. intros x s3 H3. cbv beta in H3.
  apply wp_bind, query_wp; [intros e s4 E4|intros s4 E4]; apply wp_ret, Hyes; by rewrite E4.
Qed.

(** A request to change a user either is refused, or fails as a whole, and
    changes no user, session, invite or setting; or gives the user exactly the
    role and the ban asked for, together, when the user exists, is not the one
    who asks, and the role exists. *)
Theorem patch_user_atomic r s :
  let '(rs, s') := handlePatchUser r s in patch_outcome r s rs s'.
Proof.
  apply wp_pair. unfold handlePatchUser.
  assert (Hno : forall rs s', rs_status rs <> 200 -> sdb s' = sdb s -> patch_outcome r s rs s').
  { intros rs s' Hst E. apply PatchKept; [done|]. by rewrite E. }
  destruct (pathInt64 r "id") as [id|] eqn:Eid; [|by apply wp_ret, Hno].
  destruct (Decode _ _ _) as [req| |] eqn:Ed; try by apply wp_ret, Hno.
  apply wp_bind, query_wp; [intros e s1 E1; by apply wp_ret, Hno|intros s1 E1].
  destruct (users (sdb s) !! id) as [user|] eqn:Eu; [|by apply wp_ret, Hno]. cbv zeta.
  destruct (id =? actorFromContext r) eqn:Ea; [by apply wp_ret, Hno|]. apply Z.eqb_neq in Ea.
  apply wp_bind. change (patch_user_tx id req) with (tx (internal_error "failed to begin transaction")
    (internal_error "failed to commit user update") (user_stmts id req)).
  apply tx_wp; rewrite E1.
  { intros rs s2 E2 Hrs. apply wp_ret, Hno; [|done]. destruct Hrs as [->|[->|[y Hy]]]; [done..|].
    by rewrite (user_stmts_inl _ _ _ _ Hy). }
  intros x y s2 Ey Hx E2. apply user_stmts_inr in Hx as [Hx Hrole]. rewrite Hx, Ey in E2. rewrite Ey in Hrole.
  set (d := patched_db id req (sdb s)) in *.
  assert (Hyes : forall rs s', same_accounts d (sdb s') -> patch_outcome r s rs s').
  { intros rs s' Hd. eapply PatchDone; try done. intros rid Hr. apply (Hrole rid Hr).
    unfold has. by rewrite Eu. }
  apply wp_bind. eapply wp_mono; [apply (patch_user_announce_wp (same_accounts d)); [intros; apply same_accounts_audit|by rewrite E2]|].
  intros u s3 H3. cbv beta in H3. apply wp_bind, query_wp; [intros e s4 E4; apply wp_ret, Hyes; by rewrite E4|intros s4 E4].
  destruct (users (sdb s3) !! id) as [user'|]; [|apply wp_ret, Hyes; by rewrite E4].
  unfold toAdminUserResponseFromUser. apply wp_bind, wp_bind, query_wp; intros; do 2 apply wp_ret; apply Hyes; congruence.
Qed.

(** The first set-up happens once: when there is a user, a request to set the
    server up is refused and changes no user, session, invite or setting; when
    there is none, what it makes is one account with the owner's role, whose name
    and password pass the checks and whose password is stored hashed. *)
Theorem setup_once hash sanitize r s :
  let '(rs, s') := handleSetup hash sanitize r s in setup_outcome hash s rs s'.
Proof.
  apply wp_pair. unfold handleSetup. cbv zeta.
  assert (Hno : forall rs s', rs_status rs <> 201 -> sdb s' = sdb s -> setup_outcome hash s rs s').
  { intros rs s' Hst E. apply SetupRefused; [done|]. by rewrite E. }
  apply wp_bind. unfold setup_allow. apply wp_bind, wp_clock. intros t1 s1 E1 _ _. apply wp_bind, wp_clock.
  intros t2 s2 E2 _ _. apply wp_act. pose proof (q_db _ _ E1) as D1. pose proof (q_db _ _ E2) as D2.
  match goal with |- wp _ _ ?s3 => set (s3' := s3); assert (D3 : sdb s3' = sdb s) by (change (sdb s2 = sdb s); congruence) end.
  destruct (negb _); [by apply wp_ret, Hno|].
  apply wp_bind, query_wp; rewrite D3; [intros e s4 E4; by apply wp_ret, Hno|intros s4 E4].
  destruct (0 <? _) eqn:En; [by apply wp_ret, Hno|].
  assert (Hempty : users (sdb s) = ∅) by (apply Z.ltb_ge in En; apply map_size_empty_inv; lia).
  destruct (Decode _ _ _) as [[name password]| |]; try by apply wp_ret, Hno.
  unfold setup_create. destruct (_ || _); [by apply wp_ret, Hno|].
  destruct (Cred.ValidateUsername _) eqn:Ev; [by apply wp_ret, Hno|].
  destruct (Cred.ValidatePasswordStrength _) eqn:Ep; [by apply wp_ret, Hno|].
  destruct (hash password) as [h|] eqn:Eh; [|by apply wp_ret, Hno].
  unfold setup_owner. apply wp_bind, wp_exec.
  { intros e s5 E5. apply wp_ret, Hno; [done|]. rewrite (q_db _ _ E5). congruence. }
  assert (E4' : sdb s4 = sdb s) by congruence. rewrite E4'.
  intros now uid d s5 _ Hins E5. unfold insert_user in Hins. do 2 (case_hyp Hins; [done|]). injection Hins as <- <-.
  match type of E5 with quiet (with_sdb (set_next_user _ (set_users (<[_ := ?u]> _) _)) _) _ =>
    apply (setup_rest_wp _ {[u_id u := u]}); [red; rewrite (q_db _ _ E5); simpl; by rewrite Hempty, insert_empty|];
    intros rs s6 E6; apply (SetupDone _ _ _ _ u); [done| |done] end.
  repeat (split; [done|]). by exists password.
Qed.

Module StreamThms.

(** [hash] is the token hash of a live session of an administrator, at times of
    the request's treatment. *)
Definition stream_session (hash : string) (s : Server) : Prop :=
  exists sess user role t, session_by_token hash (sdb s) = Some sess /\
    snow s <= t /\ Cred.IsSessionExpired t (s_expires sess) = false /\
    users (sdb s) !! s_user sess = Some user /\ roles (sdb s) !! u_role user = Some role /\
    HasAdmin (r_permissions role) = true.

Lemma sessionStillAuthorized_wp hash s0 s (Q : bool -> Server -> Prop) : calm s0 s ->
  (forall s', calm s0 s' -> Q false s') -> (forall s', calm s0 s' -> stream_session hash s0 -> Q true s') ->
  wp (sessionStillAuthorized hash) Q s.
Proof.
  intros Hs Hno Hyes. unfold sessionStillAuthorized.
  apply wp_bind. refine (since_query calm _ _ Hs _ _ _ _); [intros e s1 H1; by apply wp_ret, Hno|intros s1 H1].
  destruct (session_by_token _ _) as [sess|] eqn:Es; [|by apply wp_ret, Hno].
  apply wp_bind. refine (since_clock calm _ _ H1 _ _). intros t s2 H2 Ht.
  destruct (Cred.IsSessionExpired _ _) eqn:Ex; [by apply wp_ret, Hno|].
  apply wp_bind. refine (since_query calm _ _ H2 _ _ _ _); [intros e s3 H3; by apply wp_ret, Hno|intros s3 H3].
  destruct (users _ !! _) as [user|] eqn:Eu; [|by apply wp_ret, Hno].
  apply wp_bind. refine (since_query calm _ _ H3 _ _ _ _); [intros e s4 H4; by apply wp_ret, Hno|intros s4 H4].
  apply wp_ret. destruct (roles _ !! _) as [role|] eqn:Er; [|by apply Hno].
  destruct (HasAdmin _) eqn:Ea; [|by apply Hno]. apply Hyes; [done|]. by exists sess, user, role, t.
Qed.

(** The request holds a ticket that is not stale, made for [hash]. *)
Definition good_ticket (r : Request) (s : Server) (hash : string) : Prop :=
  exists entry t, sv_tickets s !! query_param r "ticket" = Some entry /\ snow s <= t /\
    ticket_stale t entry = false /\ te_tokenHash entry = hash.

(** A refusal that leaves the database alone. *)
Definition stream_refused (r : Request) (s s' : Server) (status : Z) : Prop :=
  (status = 401 \/ status = 403) /\ sdb s' = sdb s.

Lemma redeem_fresh ts ticket t e : (redeem ts ticket t).1 = Some e -> ts !! ticket = Some e /\ ticket_stale t e = false.
Proof. unfold redeem. destruct (ts !! ticket) as [e'|]; [|done]. cbn [fst]. destruct (ticket_stale t e') eqn:E; [done|]. by intros [= <-]. Qed.

End StreamThms.
Export StreamThms.

(** The log stream sends nothing unless the request holds a ticket that was
    issued and not redeemed before, that is at most thirty seconds old, and was issued
    to a session that is still live and whose user's role still has the
    Administrator bit; every other request is refused and the database stays as
    it was. *)
Theorem log_stream_authorised snapshot evs r s :
  let '(out, s') := handleLogStream snapshot evs r s in
  match out with
  | Streamed _ => exists hash, good_ticket r s hash /\ stream_session hash s
  | StreamRefused status _ _ => stream_refused r s s' status
  end.
Proof.
  apply wp_pair. unfold handleLogStream, log_redeem. cbv zeta.
  assert (H0 : calm s s) by apply calm_refl.
  assert (Hno : forall st code msg s', st = 401 \/ st = 403 -> calm s s' ->
    wp (mret (StreamRefused st code msg)) (fun out s' => match out with
      | Streamed _ => exists hash, good_ticket r s hash /\ stream_session hash s
      | StreamRefused status _ _ => stream_refused r s s' status end) s').
  { intros st code msg s' Hst Hc. apply wp_ret. split; [done|apply (c_db _ _ Hc)]. }
  apply wp_bind, wp_bind, wp_clock. intros t s1 Hq Ht _. apply wp_act. cbn [fst snd].
  set (s2 := sv_set_tickets _ s1).
  assert (H2 : calm s s2) by (destruct Hq; by split).
  assert (Et : sv_tickets s1 = sv_tickets s) by (by apply quiet_fields in Hq as (_ & _ & _ & _ & -> & _)).
  destruct (redeem (sv_tickets s1) _ t).1 as [entry|] eqn:Er; [|by apply Hno; [left|]].
  apply redeem_fresh in Er as [Ee Efresh]. rewrite Et in Ee.
  destruct (String.eqb _ "") ; [by apply Hno; [left|]|].
  assert (Hticket : good_ticket r s (te_tokenHash entry)) by (by exists entry, t).
  apply wp_bind. refine (since_query calm _ _ H2 _ _ _ _); [intros e s3 H3; by apply Hno; [left|]|intros s3 H3].
  destruct (session_by_token _ _) as [sess|]; [|by apply Hno; [left|]].
  apply wp_bind. refine (since_clock calm _ _ H3 _ _). intros t' s4 H4 _.
  destruct (Cred.IsSessionExpired _ _); [by apply Hno; [left|]|].
  apply wp_bind, (sessionStillAuthorized_wp _ s); [done|intros; by apply Hno; [right|]|]. intros s5 H5 Hsess.
  apply wp_bind, (wp_mono _ (fun _ _ => True)); [done|]. intros back s6 _.
  destruct (negb _); [apply wp_ret; by eauto|].
  apply wp_bind, (wp_mono _ (fun _ _ => True)); [done|]. intros rest s7 _. apply wp_ret. by eauto.
Qed.
