(* ===== verification/RestThms.v ===== *)
(** * Reading over REST

    Who gets the messages of a channel, which ones, and which results a search
    shows. *)

From S2P Require Import Prelude Permissions RateLimiter GoText Wire Json GoTime Crypto Credentials Rows Store StoreInv StoreThms Hub Net LogStream Updater Http AuthApi RestApi HttpInv AuthThms LoginThms.
#[local] Open Scope string_scope.
#[local] Open Scope Z_scope.

Module RestThms.

(** The requester may do [perm] in channel [c] of type [type]: they take part in a
    direct message; elsewhere their role grants it there. *)
Definition may (r : Request) (d : Db) (c : Z) (type : string) (perm : Z) : Prop :=
  if String.eqb type "dm" then exists user, rq_user r = Some user /\ (c, u_id user) ∈ dm_participants d
  else exists role, rq_role r = Some role /\
    (Z.testbit (r_permissions role) 30 = true \/
     exists allow deny, default (0, 0) (overrides d !! (c, r_id role)) = (allow, deny) /\
       grants (r_permissions role) allow deny perm).

(** A query that only reads. *)
Lemma calm_query {A} s0 s (f : Db -> A) (Q : result db_error A -> Server -> Prop) : calm s0 s ->
  (forall e s', calm s0 s' -> Q (inl e) s') -> (forall s', calm s0 s' -> Q (inr (f (sdb s0))) s') ->
  wp (db (query f)) Q s.
Proof. intros Hs. apply (since_query calm _ _ Hs). Qed.

Lemma hasChannelPermREST_wp role c perm s0 s (Q : bool -> Server -> Prop) : calm s0 s ->
  (forall s', calm s0 s' -> Q false s') ->
  (forall s', calm s0 s' -> (exists ro, role = Some ro /\
     (Z.testbit (r_permissions ro) 30 = true \/
      exists allow deny, default (0, 0) (overrides (sdb s0) !! (c, r_id ro)) = (allow, deny) /\
        grants (r_permissions ro) allow deny perm)) -> Q true s') ->
  wp (hasChannelPermREST role c perm) Q s.
Proof.
  intros Hs Hno Hyes. unfold hasChannelPermREST. destruct role as [ro|]; [|by apply wp_ret, Hno].
  destruct (HasAdmin (r_permissions ro)) eqn:Ea.
  { apply wp_ret, Hyes; [done|]. exists ro. split; [done|]. left. by rewrite <- HasAdmin_bit. }
  apply wp_bind, (calm_query s0); [done|intros e s1 H1; by apply wp_ret, Hno|intros s1 H1].
  apply wp_ret. destruct (default (0, 0) _) as [allow deny] eqn:Eo.
  destruct (_ =? perm) eqn:Ep; [|by apply Hno]. apply Hyes; [done|]. exists ro. split; [done|]. right.
  exists allow, deny. split; [done|]. by apply EffectivePerms_grants.
Qed.

Section channel.
Context (r : Request) (c perm : Z) (refusal : string) (k : H Response) (s0 : Server) (Q : Response -> Server -> Prop).
Hypothesis Hno : forall status code msg s', calm s0 s' -> status <> 200 -> Q (writeJSON status (errorResponse code msg)) s'.
Hypothesis Hyes : forall ch s', calm s0 s' -> channels (sdb s0) !! c = Some ch ->
  may r (sdb s0) c (c_type ch) perm -> wp k Q s'.

Lemma rest_access_wp ch s : calm s0 s -> channels (sdb s0) !! c = Some ch -> wp (rest_access r ch c perm refusal k) Q s.
Proof.
  intros Hs Hch. unfold rest_access. destruct (String.eqb (c_type ch) "dm") eqn:Et.
  - destruct (rq_user r) as [user|] eqn:Eu; [|by apply wp_ret, Hno].
    apply wp_bind, (calm_query s0); [done|intros e s1 H1; by apply wp_ret, Hno|intros s1 H1].
    case_bool_decide as Hin; [|by apply wp_ret, Hno]. apply (Hyes ch); [done..|].
    unfold may. rewrite Et. by exists user.
  - apply wp_bind, (hasChannelPermREST_wp _ _ _ s0); [done|intros; by apply wp_ret, Hno|].
    intros s1 H1 Hp. apply (Hyes ch); [done..|]. unfold may. by rewrite Et.
Qed.

Lemma on_channel_wp s : calm s0 s -> wp (on_channel r c perm refusal k) Q s.
Proof.
  intros Hs. unfold on_channel. apply wp_bind, (calm_query s0); [done|intros e s1 H1; by apply wp_ret, Hno|intros s1 H1].
  case_eq (channels (sdb s0) !! c); [intros ch Ec; by apply rest_access_wp|intros _; by apply wp_ret, Hno].
Qed.
End channel.

(** ** Pages *)

(** A batch query, which an empty list of ids skips. *)
Lemma batch_wp {A B} (ids : list A) (none : B) (f : Db -> B) s0 s (Q : result db_error B -> Server -> Prop) : calm s0 s ->
  (forall e s', calm s0 s' -> Q (inl e) s') -> (forall x s', calm s0 s' -> Q (inr x) s') ->
  wp (db (match ids with [] => mret (inr none) | _ => query f end)) Q s.
Proof.
  intros Hs Hno Hyes. destruct ids; [|apply (calm_query s0); auto]. apply sys_wp. cbn [mret ST_ret fst snd].
  rewrite stay_db. auto.
Qed.

Lemma scan_messages ms u s0 s (Q : result db_error (list MessageAPIResponse) -> Server -> Prop) : calm s0 s ->
  (forall e s', calm s0 s' -> Q (inl e) s') ->
  (forall l s', calm s0 s' -> am_message <$> l = fst <$> ms -> Q (inr l) s') ->
  wp (db (scanAndEnrichMessages ms u)) Q s.
Proof.
  intros Hs Hno Hyes. unfold scanAndEnrichMessages. destruct ms as [|m0 ms0] eqn:Ems.
  { apply sys_wp. cbn [mret ST_ret fst snd]. rewrite stay_db. by apply Hyes. }
  rewrite <- Ems in *. clear Ems.
  apply or_return_wp, (batch_wp _ _ _ s0); [done|done|intros reacts s1 H1].
  apply or_return_wp, (batch_wp _ _ _ s0); [done|done|intros atts s2 H2].
  apply sys_wp. cbn [mret ST_ret fst snd]. rewrite stay_db. apply Hyes; [done|].
  rewrite <- list_fmap_compose. apply list_fmap_ext. by intros i [x y] _.
Qed.

(** What a request for messages comes to: an error, or a page of the channel. *)
Inductive page_outcome (r : Request) (s : Server) (rs : Response) : Prop :=
| PageRefused : rs_status rs <> 200 -> page_outcome r s rs
| Page id ch before limit ms more : parseIDParam r "id" = Some id ->
    channels (sdb s) !! id = Some ch -> may r (sdb s) id (c_type ch) ReadMessages ->
    before_param r = Some before -> limit_param r = Some limit -> 1 <= limit <= 100 ->
    rs = writeJSON 200 (messages_json ms more) ->
    am_message <$> ms = take (Z.to_nat limit) (fst <$> channel_messages id before (fun _ => true) (sdb s)) ->
    (more = true <-> limit < Z.of_nat (length (channel_messages id before (fun _ => true) (sdb s)))) ->
    page_outcome r s rs.

Lemma limit_param_range r limit : limit_param r = Some limit -> 1 <= limit <= 100.
Proof.
  unfold limit_param, defaultMessageLimit, maxMessageLimit. intros H.
  destruct (String.eqb _ _); [injection H as <-; lia|]. destruct (ParseInt64 _) as [v|]; [|done].
  destruct (v <? 1) eqn:E; [done|]. injection H as <-. lia.
Qed.

Lemma get_messages_wp r id ch s0 s : calm s0 s -> parseIDParam r "id" = Some id ->
  channels (sdb s0) !! id = Some ch -> may r (sdb s0) id (c_type ch) ReadMessages ->
  wp (get_messages r id) (fun rs s' => calm s0 s' /\ page_outcome r s0 rs) s.
Proof.
  intros Hs Hid Hch Hmay. unfold get_messages.
  assert (Hno : forall st code msg s', st <> 200 -> calm s0 s' ->
    calm s0 s' /\ page_outcome r s0 (writeJSON st (errorResponse code msg))).
  { intros st code msg s' Hst H1. split; [done|]. by apply PageRefused. }
  destruct (before_param r) as [before|] eqn:Eb; [|by apply wp_ret, Hno].
  destruct (limit_param r) as [limit|] eqn:El; [|by apply wp_ret, Hno].
  pose proof (limit_param_range _ _ El) as Hl.
  apply wp_bind, or_return_wp, (calm_query s0); [done|intros e s1 H1; by apply wp_ret, Hno|intros s1 H1].
  set (all := channel_messages id before (fun _ => true) (sdb s0)) in *.
  unfold sql_limit. rewrite (proj2 (Z.ltb_ge (limit + 1) 0)) by lia.
  apply (scan_messages _ _ s0); [done|intros e s2 H2; by apply wp_ret, Hno|intros l s2 H2 El'].
  assert (Hlen : length l = length (take (Z.to_nat (limit + 1)) all)).
  { apply (f_equal length) in El'. by rewrite !length_fmap in El'. }
  rewrite length_take in Hlen. destruct (limit <? Z.of_nat (length l)) eqn:Em; apply wp_ret; (split; [done|]);
    (eapply (Page _ _ _ id ch before limit); try done).
  - rewrite fmap_take, El', fmap_take, take_take. f_equal. lia.
  - fold all. lia.
  - apply Z.ltb_ge in Em. assert (Hall : (length all <= Z.to_nat limit)%nat) by lia.
    rewrite El', !take_ge; [done|rewrite length_fmap; exact Hall|lia].
  - fold all. lia.
Qed.

(** ** Search *)

Definition role_row (rid : Z) (x : (Z * Z) * (Z * Z)) : option (Z * ChannelOverride) :=
  let '((c, r), (a, dn)) := x in if r =? rid then Some (c, mkOverride a dn) else None.

(** The overrides read for a role are those of its channels. *)
Lemma role_overrides_lookup (m : gmap (Z * Z) (Z * Z)) rid c :
  default (mkOverride 0 0) ((list_to_map (omap (role_row rid) (map_to_list m)) : gmap Z ChannelOverride) !! c) =
    let '(a, dn) := default (0, 0) (m !! (c, rid)) in mkOverride a dn.
Proof.
  destruct (list_to_map _ !! c) as [o|] eqn:E; simpl.
  - apply elem_of_list_to_map_2, list_elem_of_omap in E as ([[c' r'] [a dn]] & Hin & Hf).
    apply elem_of_map_to_list in Hin. unfold role_row in Hf. destruct (Z.eqb_spec r' rid); [|done]. simplify_eq.
    by rewrite Hin.
  - apply not_elem_of_list_to_map_2 in E. destruct (m !! (c, rid)) as [[a dn]|] eqn:Em; [|done]. destruct E.
    apply list_elem_of_fmap. exists (c, mkOverride a dn). split; [done|]. apply list_elem_of_omap.
    exists ((c, rid), (a, dn)). split; [by apply elem_of_map_to_list|]. simpl. by rewrite Z.eqb_refl.
Qed.

(** Overrides that [role_overrides] may have read. *)
Definition read_overrides (r : Request) (d : Db) (o : gmap Z ChannelOverride) : Prop :=
  match rq_role r with
  | None => True
  | Some ro => HasAdmin (r_permissions ro) = true \/
      o = list_to_map (omap (role_row (r_id ro)) (map_to_list (overrides d)))
  end.

Lemma role_overrides_wp r s0 s (Q : result db_error (gmap Z ChannelOverride) -> Server -> Prop) : calm s0 s ->
  (forall e s', calm s0 s' -> Q (inl e) s') -> (forall o s', calm s0 s' -> read_overrides r (sdb s0) o -> Q (inr o) s') ->
  wp (role_overrides (rq_role r)) Q s.
Proof.
  intros Hs Hno Hyes. unfold role_overrides, read_overrides in *. destruct (rq_role r) as [ro|]; [|by apply wp_ret, Hyes].
  destruct (HasAdmin (r_permissions ro)) eqn:Ea; [apply wp_ret, Hyes; by auto|].
  apply (calm_query s0); [done|done|]. intros s1 H1. apply Hyes; [done|]. by right.
Qed.

Lemma batch_may r d o c t : read_overrides r d o -> String.eqb t "dm" = false ->
  hasChannelPermBatch (rq_role r) o c ReadMessages = true -> may r d c t ReadMessages.
Proof.
  unfold read_overrides, hasChannelPermBatch, may. intros Ho ->. destruct (rq_role r) as [ro|]; [|done].
  destruct (HasAdmin (r_permissions ro)) eqn:Ea.
  { intros _. exists ro. split; [done|]. left. by rewrite <- HasAdmin_bit. }
  destruct Ho as [?| ->]; [done|]. rewrite role_overrides_lookup.
  destruct (default (0, 0) _) as [a dn] eqn:Eo. simpl. intros Hp. exists ro. split; [done|]. right.
  exists a, dn. split; [done|]. by apply EffectivePerms_grants.
Qed.

(** A result the requester may see: a message that is there, in a channel they may
    read. *)
Definition may_see (r : Request) (d : Db) (x : MessageSearchResult) : Prop :=
  exists ch, channels d !! m_channel (sr_message x) = Some ch /\
    may r d (m_channel (sr_message x)) (c_type ch) ReadMessages.

Lemma search_filter_wp r o types l s0 s (Q : list MessageSearchResult -> Server -> Prop) : calm s0 s ->
  read_overrides r (sdb s0) o ->
  (forall c t, types !! c = Some t -> exists ch, channels (sdb s0) !! c = Some ch /\ c_type ch = t) ->
  (forall l' s', calm s0 s' -> l' `sublist_of` l -> Forall (may_see r (sdb s0)) l' -> Q l' s') ->
  wp (search_filter r o types l) Q s.
Proof.
  intros Hs Ho Ht. revert s Hs Q. induction l as [|x l IH]; intros s Hs Q HQ; simpl; [by apply wp_ret, HQ|].
  assert (Hrest : forall (b : bool) s1, calm s0 s1 -> (b = true -> may_see r (sdb s0) x) ->
    wp (rest ← search_filter r o types l; mret (if b then x :: rest else rest)) Q s1).
  { intros b s1 H1 Hb. apply wp_bind, IH; [done|]. intros l' s2 H2 Hsub Hall. apply wp_ret, HQ; [done|..].
    - destruct b; [by apply sublist_skip|by apply sublist_cons].
    - destruct b; [constructor; auto|done]. }
  apply wp_bind. unfold search_visible. destruct (types !! _) as [t|] eqn:Et; [|by apply wp_ret, (Hrest false)].
  apply Ht in Et as (ch & Hch & <-). destruct (String.eqb (c_type ch) "dm") eqn:Ed.
  - destruct (rq_user r) as [user|] eqn:Eu; [|by apply wp_ret, (Hrest false)].
    apply wp_bind, (calm_query s0); [done|intros e s1 H1; by apply wp_ret, (Hrest false)|intros s1 H1].
    apply wp_ret, (Hrest (bool_decide _)); [done|]. intros Hin%bool_decide_eq_true. exists ch. split; [done|].
    unfold may. rewrite Ed. by exists user.
  - apply wp_ret, (Hrest (hasChannelPermBatch _ _ _ _)); [done|]. intros Hp. exists ch. split; [done|]. by eapply batch_may.
Qed.

(** A message the index may find. *)
Definition findable (d : Db) (x : MessageSearchResult) : Prop :=
  exists i, messages d !! i = Some (sr_message x) /\ m_deleted (sr_message x) = false.

Lemma search_rows_findable ids c d : Forall (findable d) (search_rows ids c d).
Proof.
  apply Forall_forall. intros x Hx. apply list_elem_of_omap in Hx as (i & _ & Hx).
  apply bind_Some in Hx as (m & Hm & Hx). destruct (m_deleted m) eqn:Ed; [done|]. simpl in Hx.
  destruct (negb _); [done|]. apply bind_Some in Hx as (ch & _ & Hx). apply bind_Some in Hx as (u & _ & Hx).
  injection Hx as <-. by exists i.
Qed.

Lemma sublist_all {A} (P : A -> Prop) l k : l `sublist_of` k -> Forall P k -> Forall P l.
Proof. induction 1; intros Hk; [done|inversion Hk; subst; constructor; auto|inversion Hk; subst; auto]. Qed.

(** What a search comes to. *)
Inductive search_outcome (r : Request) (s : Server) (rs : Response) : Prop :=
| SearchRefused : rs_status rs <> 200 -> search_outcome r s rs
| SearchResults l : rs = writeJSON 200 (JObj [("results", JArr (search_result_json <$> l))]) ->
    (length l <= 100)%nat -> Forall (findable (sdb s)) l -> Forall (may_see r (sdb s)) l -> search_outcome r s rs.

Lemma search_respond_wp r l s0 s : calm s0 s -> (length l <= 100)%nat -> Forall (findable (sdb s0)) l ->
  wp (search_respond r l) (fun rs s' => calm s0 s' /\ search_outcome r s0 rs) s.
Proof.
  intros Hs Hl Hf. unfold search_respond.
  assert (Hno : forall st code msg s', st <> 200 -> calm s0 s' ->
    calm s0 s' /\ search_outcome r s0 (writeJSON st (errorResponse code msg))).
  { intros st code msg s' Hst H1. split; [done|]. by apply SearchRefused. }
  apply wp_bind, (role_overrides_wp _ s0); [done|intros e s1 H1; by apply wp_ret, Hno|]. intros o s1 H1 Ho.
  assert (Hfilter : forall types s2, calm s0 s2 ->
    (forall c t, types !! c = Some t -> exists ch, channels (sdb s0) !! c = Some ch /\ c_type ch = t) ->
    wp (filtered ← search_filter r o types l; respond 200 (JObj [("results", JArr (search_result_json <$> filtered))]))
      (fun rs s' => calm s0 s' /\ search_outcome r s0 rs) s2).
  { intros types s2 H2 Ht. apply wp_bind, (search_filter_wp _ _ _ _ s0); [done..|]. intros l' s3 H3 Hsub Hall.
    apply wp_ret. split; [done|]. eapply SearchResults; [done|..|done].
    - apply sublist_length in Hsub. lia.
    - by eapply sublist_all. }
  apply wp_bind. unfold GetChannelTypes. destruct (elements _) as [|i ids].
  - apply sys_wp. cbn [mret ST_ret fst snd]. rewrite stay_db. by apply Hfilter.
  - apply (calm_query s0); [done|intros e s2 H2; by apply wp_ret, Hno|intros s2 H2]. apply Hfilter; [done|].
    intros c t Hc. apply lookup_fmap_Some in Hc as (ch & <- & Hc). apply map_lookup_filter_Some in Hc as [Hc _].
    by exists ch.
Qed.
End RestThms.
Export RestThms.

(** C9: the messages of a channel go only to who may read them: a request for
    messages changes nothing, and it succeeds only when the channel exists and
    the requester takes part in it (a direct message) or has the permission there;
    the answer then is the page asked for, at most a hundred of the channel's
    visible messages, newest first, with a flag that says whether older ones
    remain. *)
Theorem messages_read_authorised r s :
  let '(rs, s') := handleGetMessages r s in calm s s' /\ page_outcome r s rs.
Proof.
  apply wp_pair. unfold handleGetMessages. assert (H0 := calm_refl s).
  destruct (parseIDParam r "id") as [id|] eqn:Eid; [|apply wp_ret; split; [done|by apply PageRefused]].
  apply (on_channel_wp _ _ _ _ _ s).
  - intros st code msg s' H1 Hst. split; [done|by apply PageRefused].
  - intros ch s' H1 Hch Hmay. by eapply get_messages_wp.
  - done.
Qed.

(** A search shows only what the requester may read: it changes nothing, and
    every one of its results, at most a hundred, is a message that is stored and
    not deleted, of a direct message the requester takes part in or of a channel
    where their role may read, whatever the index finds. *)
Theorem search_authorised fts r s :
  let '(rs, s') := handleSearch fts r s in calm s s' /\ search_outcome r s rs.
Proof.
  apply wp_pair. unfold handleSearch. assert (H0 := calm_refl s). cbv zeta.
  assert (Hno : forall st code msg s', st <> 200 -> calm s s' ->
    calm s s' /\ search_outcome r s (writeJSON st (errorResponse code msg))).
  { intros st code msg s' Hst H1. split; [done|]. by apply SearchRefused. }
  destruct (String.eqb _ ""); [by apply wp_ret, Hno|].
  destruct (channel_id_param r) as [c|]; [|by apply wp_ret, Hno].
  destruct (limit_param r) as [limit|] eqn:El; [|by apply wp_ret, Hno]. apply limit_param_range in El.
  apply wp_bind. unfold SearchMessages. destruct (_ || _).
  { apply sys_wp. cbn [mret ST_ret fst snd]. rewrite stay_db. by apply search_respond_wp; [|simpl; lia|]. }
  apply wp_db_bind, (calm_query s); [done|intros e s1 H1|intros s1 H1]; apply sys_wp; cbn [mret ST_ret fst snd]; rewrite stay_db.
  - by apply wp_ret, Hno.
  - destruct (fts _ _) as [ids|]; [|by apply wp_ret, Hno]. cbn [fmap option_fmap option_map].
    apply search_respond_wp; [done|rewrite length_take; lia|].
    apply Forall_take, search_rows_findable.
Qed.
