(* ===== verification/Messages.v ===== *)
(** * Every change of a message, over the whole server

    The stored messages change in few ways, each the right of somebody: the
    author posts and edits, the author or a moderator deletes and pins, an
    administrator deletes a channel, a user erases what they wrote, the owner
    restores a backup. Whatever event the server treats, no other change happens
    ([message_authority]). *)

From S2P Require Import Prelude Permissions RingBuffer RateLimiter GoText Wire Json GoTime Crypto Credentials Rows Store StoreInv StoreOk StoreThms Hub Chat Voice Serve WsInv WsOk WsRun WsAuth Net LogStream Updater Http AuthApi RestApi Storage Uploads AdminApi Updates Routes HttpInv AuthThms HttpFrame Maintenance ServerRun LoginThms RestThms.
#[local] Open Scope string_scope.
#[local] Open Scope Z_scope.

Module Messages.

Notation table := (gmap Z Message).

(** ** The changes *)

(** The message [id] was pinned or unpinned. *)
Definition repinned (M : table) (id : Z) (M' : table) : Prop :=
  exists m x, M !! id = Some m /\ m_deleted m = false /\ M' = <[id := message_set_pinned x m]> M.

(** The messages outside a channel, replies to what was in it forgotten. *)
Definition dropped (id : Z) (M : table) : table :=
  let kept := filter (fun '(_, m) => m_channel m <> id) M in
  let keep_reply r := match r with Some k => if has k kept then r else None | None => None end in
  (fun m => message_set_reply (keep_reply (m_reply_to m)) m) <$> kept.

(** What [userID] wrote is emptied. *)
Definition wiped (userID : Z) (M : table) : table :=
  (fun m => if m_user m =? userID then message_wipe m else m) <$> M.

(** The changes a user makes through the connection: none, a post, an edit of
    their own message, the deletion of their own message or, for a moderator,
    of another's. *)
Definition authored (d : Db) (uid : Z) (ou : option User) (d' : Db) : Prop :=
  messages d' = messages d \/
  (exists channelID ch content reply, channels d !! channelID = Some ch /\ post_access d uid ou ch channelID /\
     rune_count content <= maxMessageLen /\ posted d uid channelID content reply d') \/
  (exists id m content ts, messages d !! id = Some m /\ m_user m = uid /\
     change_access d uid ou (m_channel m) SendMessages /\ content <> "" /\ rune_count content <= maxMessageLen /\
     messages d' = <[id := message_set_content content (Some ts) m]> (messages d)) \/
  (exists id m, messages d !! id = Some m /\ change_access d uid ou (m_channel m) ReadMessages /\
     (m_user m = uid \/ user_may d ou (m_channel m) ManageMessages) /\
     messages d' = <[id := message_set_deleted m]> (messages d)).

(** *** They are closed under repetition *)

Lemma repinned_again M id M' x m : repinned M id M' -> M' !! id = Some m ->
  repinned M id (<[id := message_set_pinned x m]> M').
Proof.
  intros (m0 & y & H0 & Hd & ->) Hm. rewrite lookup_insert_eq in Hm. injection Hm as <-.
  exists m0, x. split; [done|]. split; [done|]. by rewrite insert_insert_eq.
Qed.

Lemma wiped_again u M : wiped u (wiped u M) = wiped u M.
Proof.
  unfold wiped. rewrite <- map_fmap_compose. apply map_fmap_ext. intros k m _. simpl.
  destruct (m_user m =? u) eqn:E; [|by rewrite E]. change (m_user (message_wipe m)) with (m_user m). by rewrite E.
Qed.

(** The replies that stay. *)
Definition live_reply (M : table) (r : option Z) : option Z :=
  match r with Some k => if has k M then r else None | None => None end.

Lemma live_reply_again M M' r : (forall k, has k M = true -> has k M' = true) ->
  live_reply M' (live_reply M r) = live_reply M r.
Proof.
  intros Hk. destruct r as [k|]; simpl; [|done]. destruct (has k M) eqn:E; [|done]. simpl. by rewrite (Hk k E).
Qed.

Lemma dropped_again id M : dropped id (dropped id M) = dropped id M.
Proof.
  set (kept := filter (fun '(_, m) => m_channel m <> id) M).
  assert (E0 : dropped id M = (fun m => message_set_reply (live_reply kept (m_reply_to m)) m) <$> kept) by done.
  assert (E1 : filter (fun '(_, m) => m_channel m <> id) (dropped id M) = dropped id M).
  { apply map_filter_id. intros k m H. rewrite E0, lookup_fmap in H. apply fmap_Some in H as (m0 & H & ->).
    by apply map_lookup_filter_Some in H as [_ H]. }
  unfold dropped at 1. rewrite E1, E0. cbv zeta. rewrite <- map_fmap_compose. apply map_fmap_ext. intros k m _. simpl.
  change (message_set_reply (live_reply (dropped id M) (live_reply kept (m_reply_to m))) m
    = message_set_reply (live_reply kept (m_reply_to m)) m).
  rewrite live_reply_again; [done|]. intros j. rewrite E0. unfold has. rewrite lookup_fmap. by destruct (kept !! j).
Qed.

(** ** The database calls *)

(** A statement that leaves the messages alone. *)
Ltac same_messages :=
  first [ apply preserves_update; intros ?now ?d ?Hd
        | apply preserves_exec; intros ?now ?d ?res ?d' ?Hd ?E; cbv beta zeta in E; repeat case_hyp E; simplify_eq ];
  repeat case_match; done.

Section calls.
Context (P : table -> Prop).
Let PM (d : Db) : Prop := P (messages d).

Lemma msg_frame (d d' : Db) : messages d' = messages d -> PM d -> PM d'.
Proof. intros E. unfold PM. by rewrite E. Qed.

Lemma msg_exec {A} (f : Z -> Db -> result db_error (A * Db)) :
  (forall now d x d', f now d = inr (x, d') -> messages d' = messages d) -> preserves PM (exec f).
Proof. intros Hf. apply preserves_exec. intros now d x d' Hd E. eapply msg_frame; [by eapply Hf|done]. Qed.

(** The WebSocket side, but for its three handlers of messages. *)
Lemma msg_ws A (m : ST Sys A) : ws_write false A m -> preserves PM m.
Proof.
  destruct 1; try done; try solve [same_messages].
  - destruct l; [apply preserves_ret|]. same_messages.
  - apply msg_exec. intros now d x d' E. by apply open_dm_side in E as (_ & E & _).
Qed.

Lemma msg_background A (m : ST Sys A) : background_write A m -> preserves PM m.
Proof.
  destruct 1; try solve [same_messages].
  apply preserves_or_return; [apply preserves_query|]. intros [|f fs]; [apply preserves_ret|].
  apply preserves_or_return; [same_messages|intros _; apply preserves_ret].
Qed.

Section http.
Context (b : gate -> bool).
Hypothesis Hpin : forall id x m M, b (GPin id) = true -> P M -> M !! id = Some m -> m_deleted m = false ->
  P (<[id := message_set_pinned x m]> M).
Hypothesis Hdrop : forall id M, b (GDelete id) = true -> P M -> P (dropped id M).
Hypothesis Hwipe : forall u M, b (GWipe u) = true -> P M -> P (wiped u M).

Lemma msg_purge u : preserves PM (exec_all (purge_steps u)).
Proof.
  simpl. do 5 (apply preserves_or_return; [same_messages|intros _]). apply preserves_ret.
Qed.

Lemma msg_delete_account u : b (GWipe u) = true -> preserves PM (DeleteAccount u).
Proof.
  intros Hu. apply preserves_in_tx', preserves_or_return; [same_messages|intros rl].
  apply preserves_or_return; [destruct (admin_class rl); [|apply preserves_ret]|intros _].
  { apply preserves_or_return; [apply preserves_query|intros n; destruct (_ =? _)%nat; apply preserves_ret]. }
  apply preserves_or_return; [apply msg_purge|intros _]. apply preserves_or_return; [|intros _; same_messages].
  apply preserves_update. intros now d. by apply Hwipe.
Qed.

Lemma msg_http A (m : ST Sys A) : http_write b A m -> preserves PM m.
Proof.
  destruct 1; try done; try solve [same_messages].
  - apply preserves_bind; [apply preserves_read_clock|intros t0].
    apply msg_exec. intros * E. unfold insert_session in E. repeat case_hyp E; by simplify_eq.
  - apply preserves_in_tx', preserves_or_return; [|intros _]; apply msg_exec;
      intros * E; [by apply redeem_frame in E as (_ & -> & _)|by apply insert_user_frame in E as (_ & -> & _)].
  - apply msg_exec. intros * E. by apply insert_user_frame in E as (_ & -> & _).
  - by apply msg_delete_account.
  - apply preserves_exec. intros now d r d' Hd E. repeat case_hyp E; simplify_eq. by apply Hpin.
  - apply dm_channel_frame. intros d d' (_ & E & _)%dm_step_frame. by apply msg_frame.
  - destruct c; [|apply preserves_ret]. same_messages.
  - apply msg_exec. intros * E. unfold insert_channel in E. by simplify_eq.
  - apply preserves_update. intros now d Hd. by apply (Hdrop i (messages d)).
Qed.
End http.
End calls.

(** ** The process *)

(** Predicates of the database alone: deliveries, timers and connections do not
    concern them. *)
Section database.
Context (P : Db -> Prop).
Let I (w : World) : Prop := P (sys_db (w_sys w)).
Let calls (A : Type) (m : ST Sys A) : Prop := preserves P m.

Lemma on_db w w' : I w -> w_sys w' = w_sys w -> I w'.
Proof. intros Hw E. unfold I. by rewrite E. Qed.

Lemma db_handler p U : handler_inv p calls U I.
Proof.
  split.
  - intros A m Hm w Hw. by apply Hm.
  - intros r w Hw. by apply (on_db w).
  - intros q msg w Hw. unfold trySendMsg, upd, conn, gets, modify, go_panic, mbind, ST_bind. cbn [fst snd].
    repeat case_match; by apply (on_db w).
  - intros c msg w Hw. unfold BroadcastToChannel, when, gets, modify, mbind, ST_bind. cbn [fst snd].
    repeat case_match; by apply (on_db w).
  - intros f _ w Hw. by apply (on_db w).
  - intros x w Hw. by apply (on_db w).
  - intros x w Hw. by apply (on_db w).
  - intros w Hw. unfold drop_client, lookup_client, conn, gets, mbind, ST_bind, when. simpl.
    case_match; by apply (on_db w).
  - intros w Hw. unfold closeSend, conn, gets, mbind, ST_bind. simpl. repeat case_match; by apply (on_db w).
Qed.

Lemma db_wire p frame : stable I (conn_write p frame).
Proof. intros w Hw. unfold conn_write. destruct (w_wire_faults w) as [|[] fs]; by apply (on_db w). Qed.

Context (Hws : forall A (m : ST Sys A), ws_write false A m -> preserves P m).

Lemma db_process : process_inv calls I.
Proof.
  split.
  - intros A m. apply reads_preserves.
  - apply Hws.
  - intros p. apply db_handler.
  - apply db_wire.
  - intros p w Hw. unfold pump, conn, gets, mbind, ST_bind. simpl.
    destruct (ch_buf _); [done|]. simpl. by apply db_wire.
  - intros x w Hw. by apply (on_db w).
  - intros x w Hw. by apply (on_db w).
Qed.

Lemma db_upd p f : stable I (upd p f).
Proof. intros w Hw. by apply (on_db w). Qed.

Lemma db_connect raw addr : stable I (ServeWS raw addr).
Proof.
  apply (connect_stable calls I (fun _ => I)); try done; try (intros; apply db_upd).
  - apply db_process.
  - intros _. apply db_process.
  - intros u h. unfold newClient. apply stable_bind; [eapply pr_now, db_process|intros t].
    intros w Hw. by apply (on_db w).
  - intros p. unfold registerNow. apply stable_bind; [apply stable_gets|intros c].
    apply stable_bind; [apply stable_gets|intros old].
    apply stable_bind; [destruct old; [eapply pr_take_over, db_process|apply stable_ret]|intros _].
    apply stable_modify. intros w Hw. by apply (on_db w).
  - intros _ k. unfold events_since. apply stable_bind; [apply stable_gets|intros rb].
    destruct (Ring.EventsSince _ _); [apply stable_ret|]. apply stable_bind; [|intros _; apply stable_ret].
    apply stable_modify. intros w Hw. by apply (on_db w).
Qed.

Lemma db_dispatch : stable I dispatch_broadcast.
Proof.
  unfold dispatch_broadcast. apply stable_bind; [apply stable_gets|intros [|bm q]]; [apply stable_ret|].
  apply stable_bind; [apply stable_modify; intros w Hw; by apply (on_db w)|intros _].
  unfold deliverBroadcast. apply stable_bind; [intros w Hw; by apply (on_db w)|intros sq].
  apply stable_bind; [|intros _].
  - unfold push_replay. apply stable_bind; [apply stable_gets|intros rb].
    destruct (Ring.Push _ _ _); apply stable_modify; intros w Hw; by apply (on_db w).
  - apply stable_bind; [apply stable_gets|intros cs]. apply (pr_fanout calls I db_process).
Qed.

(** Every event of the process but the arrival of a message and a bare call on
    the database. *)
Definition silent (e : event) : bool := match e with EvReceive _ _ | EvDb _ => false | _ => true end.

Lemma db_event sanitize to_jwt e : silent e = true -> stable I (run_event sanitize to_jwt e).
Proof.
  intros He. destruct e; try done; simpl.
  - apply stable_bind; [apply db_connect|intros ?; apply stable_ret].
  - eapply pr_disconnect, db_process.
  - apply db_process.
  - apply db_dispatch.
  - eapply pr_sweep, db_process.
  - eapply pr_retry, db_process.
  - eapply pr_webhook, db_process.
  - eapply pr_cleanup, db_process.
  - apply (pi_handler _ _ db_process 0).
  - apply stable_bind; [eapply pr_SendToUser, db_process|intros ?; apply stable_ret].
  - eapply pr_stop, db_process.
Qed.
End database.

(** *** The arrival of a message *)

Section receive.
Context (sanitize : string -> string) (to_jwt : Grant -> option string) (p : Z) (d : Db) (uid : Z) (ou : option User).
Let I := actor p (eq d) uid ou.
Let J (w : World) : Prop := authored d uid ou (sys_db (w_sys w)).

Lemma same_authored w : messages (sys_db (w_sys w)) = messages d -> J w.
Proof. by left. Qed.
Lemma actor_authored w : I w -> J w.
Proof. intros Hw. by apply same_authored, (I_messages p d uid ou). Qed.
Lemma stable_authored {A} (m : M A) : stable I m -> triple I m (fun _ => J).
Proof. intros Hm w Hw. by apply actor_authored, Hm. Qed.

(** What a handler did to the messages is not undone by an answer. *)
Lemma authored_fail code msg : stable J (fail p code msg).
Proof.
  apply (pr_send _ _ (db_process (fun d' => authored d uid ou d')
    (fun A m Hm => msg_ws (fun M => authored d uid ou (set_messages M d)) A m Hm)) p).
Qed.

Lemma act_count : stable I (count_message p).
Proof.
  unfold count_message. apply stable_bind; [apply stable_gets|intros c]. cbv zeta.
  apply stable_bind; [|intros _; apply stable_ret]. intros w Hw. by apply act_alter.
Qed.
Lemma act_touch : stable I (touch p).
Proof. handler st_touch with (act_handler p (eq d) uid ou). exact (keeps_reads _). Qed.
Lemma act_alive : stable I (session_alive p).
Proof. handler st_session_alive with (act_handler p (eq d) uid ou). exact (keeps_reads _). Qed.
Lemma act_invalid : stable I (invalid_message p).
Proof. handler st_invalid with (act_handler p (eq d) uid ou). Qed.

Lemma dispatch_authored ty reqID pl : triple I (Dispatch (registry sanitize to_jwt) ty p reqID pl) (fun _ => J).
Proof.
  unfold Dispatch. destruct (registry sanitize to_jwt !! ty) as [h|] eqn:Hh; [|by apply stable_authored, stable_ret].
  eapply triple_bind with (J := fun _ => J); [|intros _ w Hw; exact Hw].
  pose proof (db_handler (fun d' => messages d' = messages d) p own_update) as HI.
  eapply registry_split in Hh as [E|[E|[E|E]]]; [..|exact HI| | |done]; try rewrite E.
  - intros w Hw. destruct (send_handler sanitize p d uid ou reqID pl w Hw)
      as [H|(x & c & ch & _ & _ & Hch & Hacc & _ & Hlen & _ & Hp)]; [by left|].
    right; left. by exists c, ch, (sanitize (cs_Content x)), (cs_ReplyTo x).
  - intros w Hw. destruct (edit_handler p d uid ou sanitize pl w Hw)
      as [H|(lit & raw & id & m & ts & _ & _ & Hm & Hu & Hacc & Hne & Hlen & H)]; [by left|].
    right; right; left. by exists id, m, (sanitize raw), ts.
  - intros w Hw. destruct (delete_handler p d uid ou pl w Hw)
      as [H|(lit & id & m & _ & _ & Hm & Hacc & Hown & H)]; [by left|].
    right; right; right. by exists id, m.
  - intros w Hw. apply same_authored, E. by apply (I_messages p d uid ou).
  - intros A m. apply reads_preserves.
  - intros A m Hm. by apply (msg_ws (fun M => M = messages d)).
Qed.

Lemma receive_authored raw : triple I (Serve.receive sanitize to_jwt p raw) (fun _ => J).
Proof.
  unfold Serve.receive, handleMessage. eapply triple_bind; [apply act_touch|intros []].
  eapply triple_bind; [apply act_count|intros due].
  eapply triple_bind with (J := fun _ => I); [destruct due; [apply act_alive|apply stable_ret]|intros alive].
  destruct alive; [|by apply stable_authored, stable_ret]. cbn [negb]. unfold process_message.
  destruct (decode_envelope raw) as [env|]; [|by apply stable_authored, act_invalid].
  eapply triple_bind with (J := fun _ => I); [intros w Hw; by apply act_alter|intros []].
  eapply triple_bind; [apply dispatch_authored|intros found].
  destruct found; [intros w Hw; exact Hw|]. apply authored_fail.
Qed.
End receive.

(** ** The API *)

(** A pin or its removal, by somebody who may manage the messages there. *)
Definition pinned_by (d : Db) (user : User) (d' : Db) : Prop :=
  messages d' = messages d \/
  exists id m x, messages d !! id = Some m /\ m_deleted m = false /\
    change_access d (u_id user) (Some user) (m_channel m) ManageMessages /\
    messages d' = <[id := message_set_pinned x m]> (messages d).

Lemma may_access r d user c type perm : rq_user r = Some user -> rq_role r = roles d !! u_role user ->
  may r d c type perm -> change_access d (u_id user) (Some user) c perm.
Proof.
  intros Hu Hr. unfold may. destruct (String.eqb type "dm").
  - intros (u & Eu & Hin). rewrite Hu in Eu. injection Eu as <-. by left.
  - intros (ro & Ero & Hg). rewrite Hr in Ero. right. exists user, ro. split; [done|]. split; [done|].
    destruct Hg as [Hg|(a & dn & E & Hg)]; [left; by rewrite HasAdmin_bit|right]. by rewrite E.
Qed.

Lemma pin_handler x r user s : rq_user r = Some user -> rq_role r = roles (sdb s) !! u_role user ->
  wp (handleSetPinned x r) (fun _ s' => pinned_by (sdb s) user (sdb s')) s.
Proof.
  intros Hu Hr. unfold handleSetPinned.
  assert (Hno : forall s', calm s s' -> pinned_by (sdb s) user (sdb s')) by (intros s' [-> _]; by left).
  destruct (parseIDParam r "id") as [ch|]; [|by apply wp_ret, Hno, calm_refl].
  destruct (parseIDParam r "messageId") as [id|]; [|by apply wp_ret, Hno, calm_refl].
  apply (on_channel_wp r ch _ _ _ s); [intros; by apply Hno| |apply calm_refl].
  intros c s1 H1 Hc Hmay. unfold set_pinned.
  apply wp_bind, (calm_query s); [done|intros e s2 H2; by apply wp_ret, Hno|intros s2 H2].
  destruct (messages (sdb s) !! id) as [m|] eqn:Hm; [|by apply wp_ret, Hno].
  destruct (Z.eqb_spec (m_channel m) ch) as [Ech|]; [|by apply wp_ret, Hno]. cbn [negb].
  apply wp_bind, wp_exec.
  - intros e s3 H3. apply wp_ret, Hno. by apply (since_quiet calm _ _ H2).
  - intros now a d' s3 Hn E H3. rewrite (c_db _ _ H2), Hm in E. destruct (m_deleted m) eqn:Hd; [done|].
    injection E as _ <-. apply wp_ret. right. exists id, m, x. split; [done|]. split; [done|]. rewrite Ech.
    split; [by eapply may_access|]. by rewrite (q_db _ _ H3).
Qed.

(** The account of the session. *)
Lemma account_handler env r user s : rq_user r = Some user ->
  wp (user_handler env EpDeleteAccount r) (fun _ s' =>
    messages (sdb s') = messages (sdb s) \/ messages (sdb s') = wiped (u_id user) (messages (sdb s))) s.
Proof.
  intros Hu. set (P := fun M => M = messages (sdb s) \/ M = wiped (u_id user) (messages (sdb s))).
  set (b := fun g => match g with GWipe u => u =? u_id user | _ => false end).
  assert (HP : forall A (m : ST Sys A), http_write b A m -> preserves (fun d => P (messages d)) m).
  { apply msg_http; try done. intros u M Hb. apply Z.eqb_eq in Hb as ->. intros [->| ->]; right; [done|apply wiped_again]. }
  pose proof (db_http b _ HP) as HI.
  assert (Hk : keeps (fun w _ => P (messages (sys_db (w_sys w)))) (user_handler env EpDeleteAccount r)).
  { cbn [user_handler]. eapply kp_rate; [exact HI|]. eapply kp_delete_account; [exact HI|]. intros u E. rewrite Hu in E. injection E as <-.
    simpl. apply Z.eqb_refl. }
  apply (Hk s). by left.
Qed.

Lemma touched_sessions hash s s1 : touched hash s s1 -> exists x, sdb s1 = set_sessions x (sdb s).
Proof.
  intros [Hq|(now & _ & Hq)]; rewrite (q_db _ _ Hq); [|by eexists].
  exists (sessions (sdb s)). by rewrite set_sessions_same.
Qed.

(** A change of the messages made for the user of the session. *)
Lemma session_change env ep r s (R : Db -> User -> Db -> Prop) :
  (forall x d u d', R (set_sessions x d) u d' -> R d u d') ->
  (forall r' u s1, rq_user r' = Some u -> rq_role r' = roles (sdb s1) !! u_role u ->
     wp (user_handler env ep r') (fun _ s' => messages (sdb s') = messages (sdb s1) \/ R (sdb s1) u (sdb s')) s1) ->
  wp (serve env (Authed ep) r) (fun _ s' => messages (sdb s') = messages (sdb s) \/
    exists token sess user, live_session r s token sess user /\ unbanned s user /\ R (sdb s) user (sdb s')) s.
Proof.
  intros HR Hh. apply serve_wp. cbn [route]. rewrite user_route_auth. apply AuthMiddleware_wp.
  - intros rs s' [_ Hq]. left. by rewrite (q_db _ _ Hq).
  - intros token sess user s1 Hl Hun Ht. apply live_trimmed in Hl. apply touched_sessions in Ht as [x E].
    eapply wp_mono; [apply (Hh _ user); [done|by rewrite E]|]. intros _ s' [H|H]; rewrite E in H; [by left|].
    right. exists token, sess, user. split; [done|]. split; [done|by eapply HR].
Qed.

(** The channel of the path. *)
Lemma drop_handler r s :
  wp (handleDeleteChannel r) (fun _ s' => messages (sdb s') = messages (sdb s) \/
    exists id, pathInt64 r "id" = Some id /\ messages (sdb s') = dropped id (messages (sdb s))) s.
Proof.
  set (P := fun M => M = messages (sdb s) \/
    exists id, pathInt64 r "id" = Some id /\ M = dropped id (messages (sdb s))).
  set (b := fun g => match g with GDelete i => bool_decide (pathInt64 r "id" = Some i) | _ => false end).
  assert (HP : forall A (m : ST Sys A), http_write b A m -> preserves (fun d => P (messages d)) m).
  { apply msg_http; try done. intros i M Hb. apply bool_decide_eq_true_1 in Hb.
    intros [->|(j & Hj & ->)]; right; [by exists i|]. rewrite Hb in Hj. injection Hj as <-. exists i.
    split; [done|apply dropped_again]. }
  pose proof (db_http b _ HP) as HI.
  assert (Hk : keeps (fun w _ => P (messages (sys_db (w_sys w)))) (handleDeleteChannel r)).
  { eapply kp_delete_channel; [exact HI|]. intros i Hi. by apply bool_decide_eq_true_2. }
  apply (Hk s). by left.
Qed.

(** *** The rest *)

(** The endpoints that have nothing to do with stored messages. *)
Definition indifferent (ep : endpoint) : bool :=
  match ep with
  | Authed (EpPin | EpUnpin | EpDeleteAccount) | Admin EpDeleteChannel | Owner EpRestoreBackup => false
  | _ => true
  end.

Definition no_message (g : gate) : bool := match g with GSession => true | _ => false end.

Lemma no_message_http M : http_inv no_message (fun d => messages d = M) (fun _ => True)
  (fun w _ => messages (sys_db (w_sys w)) = M).
Proof. apply (db_http no_message (fun d => messages d = M)), (msg_http (fun M' => M' = M)); done. Qed.

Lemma indifferent_serve env ep r s : indifferent ep = true ->
  messages (sdb (serve env ep r s).2) = messages (sdb s).
Proof.
  intros He. apply (kp_serve _ _ _ _ (no_message_http (messages (sdb s))) env ep r); [|done| |done].
  2: by destruct ep as [| | | | | |[]].
  intros g. destruct g, ep as [ep|ep|ep|ep|ep|ep|ep]; try done; by destruct ep.
Qed.

Lemma trimmed_path r param : pathInt64 (trimmed r) param = pathInt64 r param.
Proof. unfold pathInt64, URLParam, trimmed, limit_body. by repeat case_match. Qed.

Lemma drop_channel env r s :
  wp (serve env (Admin EpDeleteChannel) r) (fun _ s' => messages (sdb s') = messages (sdb s) \/
    exists token sess user role id, admin_session r s token sess user role /\
      pathInt64 r "id" = Some id /\ messages (sdb s') = dropped id (messages (sdb s))) s.
Proof.
  assert (Hno : forall rs s', refused s rs s' -> messages (sdb s') = messages (sdb s)).
  { intros rs s' [_ Hq]. by rewrite (q_db _ _ Hq). }
  apply serve_wp. cbn [route]. apply AdminIPRestrict_wp; [intros; left; by eapply Hno|intros _].
  apply adminAuthMiddleware_wp; [intros; left; by eapply Hno|].
  intros token sess user role s1 [Hl Hr Ha] Hq. apply live_trimmed in Hl. apply (q_db _ _) in Hq as Ed.
  eapply wp_mono; [apply drop_handler|]. cbv beta. rewrite Ed. intros _ s' [H|(id & Hid & H)]; [by left|right].
  exists token, sess, user, role, id. split; [done|]. split; [|done].
  change (pathInt64 (trimmed r) "id" = Some id) in Hid. by rewrite trimmed_path in Hid.
Qed.

(** *** A restored backup *)

(** Only what is read, and the files. *)
Lemma same_backup_to D cwd img p : keeps (fun w _ => sys_db (w_sys w) = D) (BackupTo cwd img p).
Proof.
  unfold BackupTo, BackupToSafe, vacuum_into. hwalk.
  - apply keeps_hub. intros _ w Hw. revert Hw. apply (preserves_exec (fun d => d = D)).
    intros now d x d' Hd E. case_hyp E; by simplify_eq.
  - intros y Hy. exact Hy.
Qed.

(** What a restoration makes of the database [d]: its file is emptied, then it
    gets the content of the backup. *)
Definition restored_from (env : Env) (d d' : Db) : Prop :=
  d' = env_reload env d "" \/ exists content, d' = env_reload env (env_reload env d "") content.

Lemma wp_same {A} (m : H A) (Q : A -> Server -> Prop) s :
  (forall D, keeps (fun w _ => sys_db (w_sys w) = D) m) -> (forall a s', sdb s' = sdb s -> Q a s') -> wp m Q s.
Proof. intros Hm HQ. apply HQ. by apply (Hm (sdb s)). Qed.

Lemma wp_overwrite rl p c (Q : unit -> Server -> Prop) s :
  (forall s', sdb s' = rl (sdb s) c -> Q tt s') -> wp (overwrite rl p c) Q s.
Proof. intros HQ. by apply HQ. Qed.

Lemma copy_file_wp env p q s :
  wp (copyFile (env_partial env) (env_reload env) p q) (fun _ s' => sdb s' = sdb s \/ restored_from env (sdb s) (sdb s')) s.
Proof.
  unfold copyFile. apply wp_bind, wp_same; [intros D; unfold os_Open; hwalk|intros content s1 H1].
  destruct content as [content|]; [|left; exact H1].
  apply wp_bind, wp_same; [intros D; apply keeps_io|intros created s2 H2]. rewrite <- H1, <- H2.
  destruct created; [|by left]. simpl negb. cbv iota.
  apply wp_bind, wp_overwrite. intros s3 H3.
  apply wp_bind, wp_same; [intros D; apply keeps_io|intros copied s4 H4].
  apply wp_bind, wp_overwrite. intros s5 H5. rewrite H4, H3 in H5.
  apply wp_same; [intros D; hwalk|]. intros b s6 H6. right. right. rewrite H6. eauto.
Qed.

Lemma restore_handler env r s :
  wp (owner_handler env EpRestoreBackup r) (fun _ s' => messages (sdb s') = messages (sdb s) \/
    exists d1, restored_from env (sdb s) d1 /\ messages (sdb s') = messages d1) s.
Proof.
  cbn [owner_handler]. unfold handleRestoreBackup, on_backup. cbv zeta. destruct (negb _); [by left|].
  apply wp_bind, wp_same; [intros D; apply keeps_io|intros stat s1 H1]. rewrite <- H1.
  apply wp_bind, wp_same; [intros D; apply keeps_gets|intros there s2 H2]. rewrite <- H2.
  destruct (_ && _); [by left|].
  apply wp_bind, wp_same; [intros D; apply keeps_hub; intros _ w; apply (preserves_read_clock (fun d => d = D))|intros t s3 H3]. rewrite <- H3.
  apply wp_bind, wp_same; [intros D; apply same_backup_to|intros e s4 H4]. rewrite <- H4.
  apply wp_bind. eapply wp_mono; [apply copy_file_wp|]. cbv beta. intros copied s5 H5.
  assert (Hm : forall M, keeps (fun w _ => messages (sys_db (w_sys w)) = M)
    (if negb copied then internal "failed to restore database file" else
     _ ← db (LogAudit (actorFromContext r) "backup_restore" "server" 0 ("restored from " +:+ URLParam r "name"));
     respond 200 (JObj [("backup", JStr (URLParam r "name")); ("message", JStr "database restored — server restart recommended")]))).
  { intros M. pose proof (no_message_http M) as HI. destruct copied; simpl negb; [|apply keeps_ret].
    apply keeps_bind; [eapply kp_write; [apply HI|constructor]|intros ?; apply keeps_ret]. }
  specialize (Hm (messages (sdb s5)) s5 eq_refl). unfold wp.
  destruct H5 as [H5|H5]; [left; by rewrite <- H5|right; by exists (sdb s5)].
Qed.

Lemma restore_backup env r s :
  wp (serve env (Owner EpRestoreBackup) r) (fun _ s' => messages (sdb s') = messages (sdb s) \/
    exists token sess user role d1, admin_session r s token sess user role /\
      (env_adminCIDRs env = [] \/ trusted_by (clientIP r) (env_adminCIDRs env) = true) /\
      OwnerRolePosition <= r_position role /\ restored_from env (sdb s) d1 /\ messages (sdb s') = messages d1) s.
Proof.
  assert (Hno : forall rs s', refused s rs s' -> messages (sdb s') = messages (sdb s)).
  { intros rs s' [_ Hq]. by rewrite (q_db _ _ Hq). }
  apply serve_wp. cbn [route]. apply AdminIPRestrict_wp; [intros; left; by eapply Hno|].
  rewrite clientIP_trimmed. intros Hip.
  apply adminAuthMiddleware_wp; [intros; left; by eapply Hno|].
  intros token sess user role s1 [Hl Hr Ha] Hq. apply live_trimmed in Hl.
  eapply ownerOnlyMiddleware_wp; [exact Hq|done|exact Hr|intros; left; by eapply Hno|].
  intros s2 Hpos Hq2. apply (q_db _ _) in Hq2 as Ed. eapply wp_mono; [apply restore_handler|]. cbv beta. rewrite Ed.
  intros _ s' [H|(d1 & H1 & H)]; [by left|right]. by exists token, sess, user, role, d1.
Qed.

Lemma background_same M A (m : ST Sys A) : background_write A m -> preserves (fun d => messages d = M) m.
Proof. apply (msg_background (fun M' => M' = M)). Qed.

(** A restart, for any predicate of the database. *)
Lemma db_restart (P : Db -> Prop) exe version token lk proc wf s :
  (forall A (m : ST Sys A), http_write no_message A m -> preserves P m) ->
  (forall A (m : ST Sys A), ws_write false A m -> preserves P m) ->
  (forall A (m : ST Sys A), background_write A m -> preserves P m) ->
  P (sdb s) -> P (sdb (restart exe version token lk proc wf s).2).
Proof.
  intros Hhttp Hws Hb Hs. pose proof (db_http no_message P Hhttp) as HI.
  change (P (sys_db (w_sys (NewHub (w_sys (sv_world (clear_stale_state (clean_old_binary exe s).2).2)) lk proc wf)))).
  unfold NewHub. eapply (pr_refresh _ _ (db_process P Hws)).
  cbn [w_sys]. apply (kp_clear _ _ _ _ HI Hb (clean_old_binary exe s).2). by apply (kp_clean _ _ _ _ HI exe).
Qed.
End Messages.
Export Messages.

(** C3: every change of a stored message has its authority, whatever the server
    treats: a message that arrives on a connection can only post, edit or delete
    as that connection's user may; the two pin endpoints can only pin or unpin
    one message that is not deleted, for a live session whose user may manage
    the messages of its channel; the deletion of an account only empties what
    the user of the live session wrote; the deletion of a channel by an
    administrator only removes that channel's messages and what refers to them.
    the restoration of a backup replaces the messages by what the server then
    finds in its database, for the owner only. No other request, connection,
    broadcast, timer, update, maintenance or restart changes any message,
    whatever fails. ([EvDb] is a database call the environment makes, which is
    arbitrary.) *)
Theorem message_authority env to_jwt e s :
  let d := sdb s in
  let s' := (run_server_event env to_jwt e s).2 in
  let d' := sdb s' in
  match e with
  | SvProcess (EvDb _) => True
  | SvProcess (EvReceive p _) => let c := conn_of (sv_world s) p in authored d (cl_userID c) (cl_user c) d'
  | SvRequest (Authed (EpPin | EpUnpin)) r =>
      messages d' = messages d \/
      exists token sess user, live_session r s token sess user /\ unbanned s user /\ pinned_by d user d'
  | SvRequest (Authed EpDeleteAccount) r =>
      messages d' = messages d \/
      exists token sess user, live_session r s token sess user /\ unbanned s user /\
        messages d' = wiped (u_id user) (messages d)
  | SvRequest (Admin EpDeleteChannel) r =>
      messages d' = messages d \/
      exists token sess user role id, admin_session r s token sess user role /\
        pathInt64 r "id" = Some id /\ messages d' = dropped id (messages d)
  | SvRequest (Owner EpRestoreBackup) r =>
      messages d' = messages d \/
      exists token sess user role d1, admin_session r s token sess user role /\
        (env_adminCIDRs env = [] \/ trusted_by (clientIP r) (env_adminCIDRs env) = true) /\
        OwnerRolePosition <= r_position role /\ restored_from env d d1 /\ messages d' = messages d1
  | _ => messages d' = messages d
  end.
Proof.
  cbv zeta. set (M := messages (sdb s)). pose proof (no_message_http M) as HI.
  destruct e as [e|ep r|disp origins r|r|exe sp|st n|exe ver tok lk proc wf].
  - destruct (silent e) eqn:He; [|destruct e; try done; by apply (receive_authored _ _ _ _ _ _ _ (sv_world s))].
    assert (H : messages (sdb (run_server_event env to_jwt (SvProcess e) s).2) = M); [|by destruct e].
    apply (db_event (fun d => messages d = M)); [|done|done]. intros A m. apply (msg_ws (fun M' => M' = M)).
  - destruct (indifferent ep) eqn:He; [by destruct ep as [[]|[]|[]|[]|[]|[]|[]]; try done; apply indifferent_serve|].
    destruct ep as [ep|ep|ep|ep|ep|ep|ep]; try done; destruct ep; try done.
    + apply (session_change env EpDeleteAccount r s (fun d u d' => messages d' = wiped (u_id u) (messages d))); [done|].
      intros r' u s1 Hu _. by apply account_handler.
    + apply (session_change env EpPin r s pinned_by); [done|]. intros r' u s1 Hu Hr.
      eapply wp_mono; [by apply pin_handler|]. by right.
    + apply (session_change env EpUnpin r s pinned_by); [done|]. intros r' u s1 Hu Hr.
      eapply wp_mono; [by apply pin_handler|]. by right.
    + apply drop_channel.
    + apply restore_backup.
  - by apply (kp_serve_file _ _ _ _ HI disp (env_store env) origins r).
  - by apply (kp_client_update _ _ _ _ HI (env_semver env) (env_hostname env) r).
  - by apply (kp_apply _ _ _ _ HI exe sp).
  - by apply (kp_maintenance _ _ _ _ HI (background_same M) st n).
  - apply (db_restart (fun d => messages d = M)); [apply (msg_http (fun M' => M' = M)); done|..|done].
    + intros A m. apply (msg_ws (fun M' => M' = M)).
    + apply background_same.
Qed.
