(* ===== verification/History.v ===== *)
(** * The history of a message

    What no run of the server, whatever it treats but the restoration of a backup,
    can do to a message: give it another author, channel or time, take a deletion
    back, or use an identifier a second time ([message_history]). *)

From S2P Require Import Prelude Permissions RingBuffer RateLimiter GoText Wire Json GoTime Crypto Credentials Rows Store StoreInv StoreOk StoreThms Hub Chat Voice Serve WsInv WsOk WsRun Net LogStream Updater Http AuthApi RestApi Storage Uploads AdminApi Updates Routes HttpInv HttpFrame Maintenance ServerRun Messages.
#[local] Open Scope string_scope.
#[local] Open Scope Z_scope.

Module History.

(** [m'] is [m] later on. *)
Record later (m m' : Message) : Prop := {
  lt_id : m_id m' = m_id m;
  lt_author : m_user m' = m_user m;
  lt_channel : m_channel m' = m_channel m;
  lt_time : m_timestamp m' = m_timestamp m;
  lt_deleted : m_deleted m = true -> m_deleted m' = true }.

#[export] Instance later_preorder : PreOrder later.
Proof.
  split; [by intros m|]. intros a b c [A1 A2 A3 A4 A5] [B1 B2 B3 B4 B5]. split; try congruence. auto.
Qed.

(** From [d] on no identifier was used again, and what is still there of the
    messages is what it was. *)
Definition evolves (d d' : Db) : Prop :=
  next_message d <= next_message d' /\
  forall k m', messages d' !! k = Some m' -> next_message d <= k \/ exists m, messages d !! k = Some m /\ later m m'.

Lemma evolves_refl d : evolves d d.
Proof. split; [done|]. intros k m Hm. right. by exists m. Qed.

Section calls.
Context (d0 : Db).
Let P (d : Db) : Prop := evolves d0 d.

Lemma evo_frame d d' : messages d' = messages d -> next_message d' = next_message d -> P d -> P d'.
Proof. unfold P, evolves. by intros -> ->. Qed.

(** Changes of rows, which may also drop some. *)
Lemma evo_rows d (M : gmap Z Message) :
  (forall k m', M !! k = Some m' -> exists m, messages d !! k = Some m /\ later m m') ->
  P d -> P (set_messages M d).
Proof.
  intros HM [Hn Hd]. split; [done|]. intros k m' Hk. apply HM in Hk as (m & Hk & Hl).
  destruct (Hd k m Hk) as [H|(m0 & H0 & Hl0)]; [by left|right]. exists m0. split; [done|]. by etrans.
Qed.
Lemma evo_update_row d k f : (forall m, later m (f m)) -> P d -> P (set_messages (update_row k f (messages d)) d).
Proof.
  intros Hf. apply evo_rows. intros j m' Hj. unfold update_row in Hj. destruct (decide (k = j)) as [->|Hne].
  - rewrite lookup_alter_eq in Hj. apply fmap_Some in Hj as (m & Hm & ->). by exists m.
  - rewrite lookup_alter_ne in Hj by done. by exists m'.
Qed.
Lemma evo_insert d k m f : messages d !! k = Some m -> later m (f m) -> P d -> P (set_messages (<[k := f m]> (messages d)) d).
Proof.
  intros Hm Hf. apply evo_rows. intros j m' Hj. apply lookup_insert_Some in Hj as [[<- <-]|[_ Hj]]; [by exists m|by exists m'].
Qed.

(** A statement that leaves the messages alone. *)
Ltac frame :=
  first [ apply preserves_update; intros ?now ?d ?Hd
        | apply preserves_exec; intros ?now ?d ?res ?d' ?Hd ?E; cbv beta zeta in E; repeat case_hyp E; simplify_eq ];
  (eapply evo_frame; [| |eassumption]; repeat case_match; done).

Lemma evo_exec {A} (f : Z -> Db -> result db_error (A * Db)) :
  (forall now d x d', f now d = inr (x, d') -> messages d' = messages d /\ next_message d' = next_message d) ->
  preserves P (exec f).
Proof. intros Hf. apply preserves_exec. intros now d x d' Hd E. destruct (Hf _ _ _ _ E). by eapply evo_frame. Qed.

Lemma evo_EditMessage i u t : preserves P (EditMessage i u t).
Proof.
  apply preserves_or_return; [apply preserves_query|intros [m|]]; [|apply preserves_ret].
  destruct (negb _); [apply preserves_ret|]. apply preserves_update. intros now d. by apply evo_update_row.
Qed.
Lemma evo_DeleteMessage i u x : preserves P (DeleteMessage i u x).
Proof.
  apply preserves_or_return; [apply preserves_query|intros [m|]]; [|apply preserves_ret].
  destruct (negb x && _); [apply preserves_ret|]. apply preserves_update. intros now d. by apply evo_update_row.
Qed.
Lemma evo_CreateMessage c u t r : preserves P (CreateMessage c u t r).
Proof.
  apply preserves_exec. intros now d id d' [Hn Hd] E. destruct (_ && _); [|done]. injection E as <- <-.
  split; [simpl; lia|]. intros k m' Hk. simpl in Hk. apply lookup_insert_Some in Hk as [[<- _]|[_ Hk]]; [by left|by apply Hd].
Qed.
Lemma evo_SetMessagePinned i x : preserves P (SetMessagePinned i x).
Proof.
  apply preserves_exec. intros now d r d' Hd E. case_hyp E; [|done]. case_hyp E; [done|]. simplify_eq.
  by eapply (evo_insert d i _ (message_set_pinned x)).
Qed.
Lemma evo_DeleteChannel i : preserves P (DeleteChannel i).
Proof.
  apply preserves_update. intros now d Hd. refine (evo_rows d (dropped i (messages d)) _ Hd).
  intros k m' Hk. unfold dropped in Hk. rewrite lookup_fmap in Hk. apply fmap_Some in Hk as (m & Hk & ->).
  apply map_lookup_filter_Some in Hk as [Hk _]. by exists m.
Qed.
Lemma evo_DeleteAccount u : preserves P (DeleteAccount u).
Proof.
  apply preserves_in_tx', preserves_or_return; [frame|intros rl].
  apply preserves_or_return; [destruct (admin_class rl); [|apply preserves_ret]|intros _].
  { apply preserves_or_return; [apply preserves_query|intros n; destruct (_ =? _)%nat; apply preserves_ret]. }
  apply preserves_or_return; [|intros _; apply preserves_or_return; [|intros _; frame]].
  - simpl. do 5 (apply preserves_or_return; [frame|intros _]). apply preserves_ret.
  - apply preserves_update. intros now d Hd. refine (evo_rows d (wiped u (messages d)) _ Hd).
    intros k m' Hk. unfold wiped in Hk. rewrite lookup_fmap in Hk. apply fmap_Some in Hk as (m & Hk & ->).
    exists m. split; [done|]. by case_match.
Qed.

Lemma evo_user_with_invite n p r c : preserves P (CreateUserWithInvite n p r c).
Proof.
  apply preserves_in_tx', preserves_or_return; [|intros _]; apply evo_exec;
    intros * E; [by apply redeem_frame in E as (_ & -> & ->)|by apply insert_user_frame in E as (_ & -> & ->)].
Qed.
Lemma evo_CreateUser n p r : preserves P (CreateUser n p r).
Proof. apply evo_exec. intros * E. by apply insert_user_frame in E as (_ & -> & ->). Qed.
Lemma evo_CreateSession u t dv ip : preserves P (CreateSession u t dv ip).
Proof.
  apply preserves_bind; [apply preserves_read_clock|intros now].
  apply evo_exec. intros * E. unfold insert_session in E. repeat case_hyp E; by simplify_eq.
Qed.
Lemma evo_CreateInvite c u m e : preserves P (CreateInvite c u m e).
Proof. destruct c; [|apply preserves_ret]. frame. Qed.
Lemma evo_UseInvite c : preserves P (UseInviteAtomic c).
Proof. apply evo_exec. intros * E. by apply redeem_frame in E as (_ & -> & ->). Qed.
Lemma evo_CreateChannel n t c tp p : preserves P (CreateChannel n t c tp p).
Proof. apply evo_exec. intros * E. unfold insert_channel in E. by simplify_eq. Qed.
Lemma evo_dm u1 u2 : preserves P (GetOrCreateDMChannel u1 u2).
Proof. apply dm_channel_frame. intros d d' (_ & E & En)%dm_step_frame. by apply evo_frame. Qed.
Lemma evo_OpenDM u c : preserves P (OpenDM u c).
Proof. apply evo_exec. intros now d x d' E. by apply open_dm_side in E as (_ & -> & ->). Qed.
Lemma evo_Link i l : preserves P (LinkAttachmentsToMessage i l).
Proof. destruct l; [apply preserves_ret|]. frame. Qed.
Lemma evo_orphans c : preserves P (DeleteOrphanedAttachments c).
Proof.
  apply preserves_or_return; [apply preserves_query|]. intros [|f fs]; [apply preserves_ret|].
  apply preserves_or_return; [frame|intros _; apply preserves_ret].
Qed.
#[local] Hint Resolve evo_EditMessage evo_DeleteMessage evo_CreateMessage evo_SetMessagePinned evo_DeleteChannel
  evo_DeleteAccount evo_user_with_invite evo_CreateUser evo_CreateSession evo_CreateInvite evo_UseInvite
  evo_CreateChannel evo_dm evo_OpenDM evo_Link evo_orphans : evo_db.

(** *** Whoever calls *)

Lemma evo_ws b A (m : ST Sys A) : ws_write b A m -> preserves P m.
Proof. destruct 1; solve [auto with evo_db nocore | frame]. Qed.
Lemma evo_http b A (m : ST Sys A) : http_write b A m -> preserves P m.
Proof. destruct 1; solve [auto with evo_db nocore | frame]. Qed.
Lemma evo_background A (m : ST Sys A) : background_write A m -> preserves P m.
Proof. destruct 1; solve [auto with evo_db nocore | frame]. Qed.
Lemma evo_op o : preserves P (run_op o).
Proof.
  destruct o; simpl; (apply preserves_bind; [|intros ?; apply preserves_ret]); solve [auto with evo_db nocore | frame].
Qed.
End calls.

(** ** The server *)

(** A predicate of the database that every call keeps is kept by every event. *)
Section database.
Context (P : Db -> Prop).
Hypothesis Hws : forall b A (m : ST Sys A), ws_write b A m -> preserves P m.
Hypothesis Hhttp : forall b A (m : ST Sys A), http_write b A m -> preserves P m.
Hypothesis Hback : forall A (m : ST Sys A), background_write A m -> preserves P m.
Hypothesis Hop : forall o, preserves P (run_op o).
Let I (w : World) : Prop := P (sys_db (w_sys w)).

Lemma db_receive sanitize to_jwt p raw : stable I (Serve.receive sanitize to_jwt p raw).
Proof.
  apply (receive_stable true p (fun A m => preserves P m) own_update I (db_handler P p own_update)); try done.
  - intros A m. apply reads_preserves.
  - apply Hws.
  - unfold count_message. apply stable_bind; [apply stable_gets|intros c]. cbv zeta.
    apply stable_bind; [apply db_upd|intros _; apply stable_ret].
Qed.

Lemma db_any_event sanitize to_jwt e : stable I (run_event sanitize to_jwt e).
Proof.
  destruct (silent e) eqn:He; [by apply db_event; [apply Hws|]|]. destruct e; try done; [apply db_receive|].
  intros w Hw. by apply Hop.
Qed.

Lemma db_server_event env to_jwt e s : restoring e = false -> P (sdb s) -> P (sdb (run_server_event env to_jwt e s).2).
Proof.
  pose proof (db_http anything P (Hhttp anything)) as HI. intros He Hs.
  destruct e as [e|ep r|disp origins r|r|exe sp|st n|exe ver tok lk proc wf].
  - by apply (db_any_event (env_sanitize env) to_jwt e (sv_world s)).
  - simpl in He. apply (kp_serve _ _ _ _ HI env ep r); [done|done|by rewrite He|done].
  - by apply (kp_serve_file _ _ _ _ HI disp (env_store env) origins r).
  - by apply (kp_client_update _ _ _ _ HI (env_semver env) (env_hostname env) r).
  - by apply (kp_apply _ _ _ _ HI exe sp).
  - by apply (kp_maintenance _ _ _ _ HI Hback st n).
  - by apply (db_restart P); [apply Hhttp|apply Hws|apply Hback|].
Qed.

Lemma db_server_run env to_jwt es s : existsb restoring es = false ->
  P (sdb s) -> P (sdb (run_server env to_jwt es s).2).
Proof.
  revert s. induction es as [|e es IH]; intros s Hes Hs; [done|]. apply orb_false_iff in Hes as [He Hes].
  by apply IH, db_server_event.
Qed.
End database.

End History.
Export History.

(** C4: the history of a message. Over any run of the server between two
    restorations of a backup, whatever requests, messages, database calls,
    timers, failures, updates and restarts it is made of: an identifier is never given to a second message, and what is left of a
    message at the end has the author, the channel and the time it always had;
    once deleted it stays deleted. *)
Theorem message_history env to_jwt es s (Hes : existsb restoring es = false) :
  let d := sdb s in
  let d' := sdb (run_server env to_jwt es s).2 in
  next_message d <= next_message d' /\
  forall k m', messages d' !! k = Some m' ->
    next_message d <= k \/ exists m, messages d !! k = Some m /\ later m m'.
Proof.
  cbv zeta. apply (db_server_run (evolves (sdb s))).
  - apply evo_ws.
  - apply evo_http.
  - apply evo_background.
  - apply evo_op.
  - exact Hes.
  - apply evolves_refl.
Qed.

(** A message that is posted, then edited and deleted, with a restart between. *)
Lemma message_history_witness :
  let call o := SvProcess (EvDb o) in
  let no_token := fun _ : Grant => None in
  let posted := [call (OpCreateUser "ann" "hash" 1); call (OpCreateChannel "general" "text" "" "" 0);
                 call (OpCreateMessage 1 1 "hello" None)] in
  let es := [call (OpEditMessage 1 1 "bye"); SvRestart None "1.0.0" "" None None []; call (OpDeleteMessage 1 1 false)] in
  let s := (run_server bare_env no_token posted bare_server).2 in
  let s' := (run_server bare_env no_token es s).2 in
  existsb restoring es = false /\
  exists m m', messages (sdb s) !! 1 = Some m /\ messages (sdb s') !! 1 = Some m' /\ later m m'.
Proof.
  intros call no_token posted es s s'. assert (Hes : existsb restoring es = false) by reflexivity.
  split; [exact Hes|]. destruct (message_history bare_env no_token es s Hes) as [_ H].
  assert (E : exists m', messages (sdb s') !! 1 = Some m') by (vm_compute; eexists; reflexivity).
  destruct E as [m' E]. destruct (H 1 m' E) as [Hle|(m & Hm & Hl)].
  - exfalso. revert Hle. vm_compute. intros Hle. by apply Hle.
  - exists m, m'. exact (conj Hm (conj E Hl)).
Defined.
