(* ===== verification/Records.v ===== *)
(** * What the server never forgets

    Over any run between two restorations of a backup: the audit log only grows, the row of an account stays with its
    name and its password until the account is deleted, an invite is not used
    beyond its limit nor after its revocation, and a session keeps its user and
    its end and does not come back ([records_kept]). *)

From S2P Require Import Prelude Permissions RingBuffer RateLimiter GoText Wire Json GoTime Crypto Credentials Rows Store StoreInv StoreOk StoreThms Hub Chat Voice Serve WsInv WsOk WsRun Net LogStream Updater Http AuthApi RestApi Storage Uploads AdminApi Updates Routes HttpInv HttpFrame Maintenance ServerRun Messages History.
#[local] Open Scope string_scope.
#[local] Open Scope Z_scope.

Module Records.

(** [u'] is the account [k] later on: the same, or deleted. *)
Definition account_later (k : Z) (u u' : User) : Prop :=
  u_id u' = u_id u /\ u_created u' = u_created u /\
  ((u_username u' = u_username u /\ u_password u' = u_password u) \/
   (u_username u' = deleted_name k /\ u_password u' = "")).

#[export] Instance account_later_preorder k : PreOrder (account_later k).
Proof.
  split; [by repeat split; left|]. intros a b c (A1 & A2 & A3) (B1 & B2 & B3).
  split; [congruence|]. split; [congruence|]. destruct B3 as [[E1 E2]|B3]; [rewrite E1, E2|by right]. exact A3.
Qed.

(** [i'] is the invite [i] later on. *)
Record invite_later (i i' : Invite) : Prop := {
  il_id : i_id i' = i_id i;
  il_code : i_code i' = i_code i;
  il_creator : i_created_by i' = i_created_by i;
  il_max : i_max_uses i' = i_max_uses i;
  il_expires : i_expires i' = i_expires i;
  il_uses : i_uses i <= i_uses i';
  il_limit : forall m, i_max_uses i = Some m -> i_uses i' <= Z.max m (i_uses i);
  il_revoked : i_revoked i = true -> i_revoked i' = true /\ i_uses i' = i_uses i }.

#[export] Instance invite_later_preorder : PreOrder invite_later.
Proof.
  split; [by split; auto with lia|]. intros a b c [A1 A2 A3 A4 A5 A6 A7 A8] [B1 B2 B3 B4 B5 B6 B7 B8].
  split; try congruence; [lia|..].
  - intros m Hm. specialize (A7 m Hm). rewrite A4 in B7. specialize (B7 m Hm). lia.
  - intros H. destruct (A8 H) as [H1 H2]. destruct (B8 H1) as [H3 H4]. split; [done|congruence].
Qed.

Lemma invite_used now code i : invite_usable now code i = true -> invite_later i (invite_use i).
Proof.
  unfold invite_usable. intros H. repeat (apply andb_true_iff in H as [H ?]). split; simpl; try done; [lia|..].
  - intros m Hm. rewrite Hm in *. bools. lia.
  - intros Hr. rewrite Hr in *. done.
Qed.

Definition invites_later (n : Z) (V V' : gmap Z Invite) : Prop :=
  forall k i, k < n -> V !! k = Some i -> exists i', V' !! k = Some i' /\ invite_later i i'.

Definition accounts_later (n : Z) (U U' : gmap Z User) : Prop :=
  forall k u, k < n -> U !! k = Some u -> exists u', U' !! k = Some u' /\ account_later k u u'.

(** What is left of the old sessions is what it was, but for the last use. *)
Definition sessions_fixed (n : Z) (S S' : gmap Z Session) : Prop :=
  forall k x', k < n -> S' !! k = Some x' -> exists x, S !! k = Some x /\
    s_user x' = s_user x /\ s_token x' = s_token x /\ s_expires x' = s_expires x.

Definition remembers (d d' : Db) : Prop :=
  (exists entries, audit_log d' = (entries ++ audit_log d)%list) /\ next_user d <= next_user d' /\
  accounts_later (next_user d) (users d) (users d') /\
  next_invite d <= next_invite d' /\ invites_later (next_invite d) (invites d) (invites d') /\
  next_session d <= next_session d' /\ sessions_fixed (next_session d) (sessions d) (sessions d').

Lemma remembers_refl d : remembers d d.
Proof.
  split; [by exists []|]. split; [done|]. split; [intros k u _ Hu; by exists u|].
  split; [done|]. split; [intros k i _ Hi; by exists i|]. split; [done|]. intros k x _ Hx. by exists x.
Qed.

Section calls.
Context (d0 : Db).
Let P (d : Db) : Prop := remembers d0 d.

(** Neither accounts nor the log nor invites nor sessions are written. *)
Definition aside (d d' : Db) : Prop :=
  users d' = users d /\ audit_log d' = audit_log d /\ next_user d' = next_user d /\
  invites d' = invites d /\ next_invite d' = next_invite d /\
  sessions d' = sessions d /\ next_session d' = next_session d.

Lemma rec_aside d d' : aside d d' -> P d -> P d'.
Proof. unfold P, remembers. by intros (-> & -> & -> & -> & -> & -> & ->). Qed.

Lemma rec_users d (U : gmap Z User) : (forall k u, users d !! k = Some u -> exists u', U !! k = Some u' /\ account_later k u u') ->
  P d -> P (set_users U d).
Proof.
  intros HU (Ha & Hn & Hd & Hi). split; [done|]. split; [done|]. split; [|done]. intros k u Hk Hu.
  destruct (Hd k u Hk Hu) as (u1 & H1 & L1). destruct (HU k u1 H1) as (u2 & H2 & L2). exists u2. split; [done|by etrans].
Qed.
Lemma rec_invites d f : (forall i, invite_later i (f i)) -> P d -> P (set_invites (f <$> invites d) d).
Proof.
  intros Hf (Ha & Hn & Hd & Hm & Hi & Hs). do 4 (split; [done|]). split; [|done]. intros k i Hk E.
  destruct (Hi k i Hk E) as (i1 & H1 & L1). exists (f i1). simpl. rewrite lookup_fmap, H1. split; [done|by etrans].
Qed.
Lemma rec_sessions d S : (forall k x', S !! k = Some x' -> exists x, sessions d !! k = Some x /\
    s_user x' = s_user x /\ s_token x' = s_token x /\ s_expires x' = s_expires x) ->
  P d -> P (set_sessions S d).
Proof.
  intros HS (Ha & Hn & Hd & Hm & Hi & Hl & Hs). do 6 (split; [done|]). intros k x' Hk E.
  apply HS in E as (x & E & E1 & E2 & E3). destruct (Hs k x Hk E) as (x0 & H0 & F1 & F2 & F3).
  exists x0. repeat split; congruence.
Qed.
Lemma rec_filter d (p : Z * Session -> Prop) `{forall x, Decision (p x)} : P d -> P (set_sessions (filter p (sessions d)) d).
Proof. apply rec_sessions. intros k x Hx. apply map_lookup_filter_Some in Hx as [Hx _]. by exists x. Qed.
Lemma rec_update_row d i f : (forall u, account_later i u (f u)) -> P d -> P (set_users (update_row i f (users d)) d).
Proof.
  intros Hf. apply rec_users. intros k u Hu. unfold update_row. destruct (decide (i = k)) as [->|Hne].
  - rewrite lookup_alter_eq, Hu. by exists (f u).
  - rewrite lookup_alter_ne by done. by exists u.
Qed.
Lemma same_account k u u' : u_id u' = u_id u -> u_created u' = u_created u -> u_username u' = u_username u ->
  u_password u' = u_password u -> account_later k u u'.
Proof. by repeat split; try left. Qed.

(** An update of one account's other columns. *)
Ltac same_row := intros; apply rec_update_row; [intros; by apply same_account|assumption].

(** A statement aside: [E] is its result. *)
Ltac aside_in E :=
  cbv beta zeta delta [insert_channel open_dm insert_participants] in E;
  repeat case_hyp E; simplify_eq; (eapply rec_aside; [|eassumption]); repeat split; repeat case_match; done.
(** Walks through a call, leaving the statements that write accounts. *)
Ltac aside_step :=
  match goal with
  | |- preserves _ (mret _) => apply preserves_ret
  | |- preserves _ (if ?b then _ else _) => destruct b
  | |- preserves _ (match ?x with _ => _ end) => destruct x
  | |- _ => first
      [ apply preserves_query | apply preserves_read_clock
      | apply preserves_update; intros ?now ?d ?Hd; by apply rec_filter
      | apply preserves_update; intros ?now ?d ?Hd; eapply rec_aside; [|eassumption]; repeat split; repeat case_match; done
      | apply preserves_exec; intros ?now ?d ?res ?d' ?Hd ?E; aside_in E
      | apply preserves_in_tx'
      | apply preserves_or_return; [|intros ?]
      | apply preserves_bind; [|intros ?]
      | apply preserves_ret ]
  end.
Ltac aside := solve [repeat aside_step].

Lemma rec_insert_user n p r now d x d' : insert_user n p r now d = inr (x, d') -> P d -> P d'.
Proof.
  unfold insert_user. intros E (Ha & Hn & Hd & Hi). repeat case_hyp E; simplify_eq.
  split; [done|]. split; [simpl; lia|]. split; [|done]. intros k u Hk Hu. destruct (Hd k u Hk Hu) as (u1 & H1 & L1). exists u1.
  split; [|done]. simpl. rewrite lookup_insert_ne by lia. done.
Qed.
Lemma rec_CreateSession u t dv ip : preserves P (CreateSession u t dv ip).
Proof.
  apply preserves_bind; [apply preserves_read_clock|intros now].
  apply preserves_exec. intros now' d x d' (Ha & Hn & Hd & Hm & Hi & Hl & Hs) E. unfold insert_session in E. cbv zeta in E.
  do 2 (case_hyp E; [done|]). simplify_eq. do 5 (split; [done|]). split; [simpl; lia|]. intros k y Hk Ey. simpl in Ey.
  rewrite lookup_insert_ne in Ey by lia. by apply (Hs k y Hk).
Qed.
Lemma rec_touch t : preserves P (TouchSession t).
Proof.
  apply preserves_update. intros now d. apply rec_sessions. intros k x' Hx. apply lookup_fmap_Some in Hx as (x & <- & Hx).
  exists x. split; [done|]. by case_match.
Qed.
Lemma rec_redeem_invite code now d x d' : redeem_invite code now d = inr (x, d') -> P d -> P d'.
Proof.
  unfold redeem_invite. intros E. case_hyp E; simplify_eq. apply rec_invites. intros i.
  destruct (invite_usable now code i) eqn:Hu; [by eapply invite_used|done].
Qed.
Lemma rec_use c : preserves P (UseInviteAtomic c).
Proof. apply preserves_exec. intros now d x d' Hd E. by eapply rec_redeem_invite. Qed.
Lemma rec_revoke c : preserves P (RevokeInvite c).
Proof.
  apply preserves_update. intros now d. apply rec_invites. intros i. case_match; [|done].
  split; simpl; try done; lia.
Qed.
Lemma rec_CreateUser n p r : preserves P (CreateUser n p r).
Proof. apply preserves_exec. intros now d x d' Hd E. by eapply rec_insert_user. Qed.
Lemma rec_with_invite n p r c : preserves P (CreateUserWithInvite n p r c).
Proof.
  apply preserves_in_tx', preserves_or_return; [apply rec_use|intros _].
  apply preserves_exec. intros now d x d' Hd E. by eapply rec_insert_user.
Qed.
Lemma rec_status i st : preserves P (UpdateUserStatus i st).
Proof. apply preserves_update. same_row. Qed.
Lemma rec_totp i x : preserves P (UpdateUserTOTPSecret i x).
Proof. apply preserves_update. same_row. Qed.
Lemma rec_ban i r e : preserves P (BanUser i r e).
Proof. apply preserves_update. same_row. Qed.
Lemma rec_unban i : preserves P (UnbanUser i).
Proof. apply preserves_update. same_row. Qed.
Lemma rec_role i r : preserves P (UpdateUserRole i r).
Proof.
  apply preserves_exec. intros now d x d' Hd E. case_hyp E; simplify_eq. revert Hd. same_row.
Qed.
Lemma rec_statuses : preserves P ResetAllUserStatuses.
Proof.
  apply preserves_update. intros now d. apply rec_users. intros k u Hu. rewrite lookup_fmap, Hu.
  eexists. split; [done|]. by case_match; apply same_account.
Qed.
Lemma rec_audit a x t i dt : preserves P (LogAudit a x t i dt).
Proof.
  apply preserves_update. intros now d ((l & E) & Hd). split; [|done].
  eexists (_ :: l)%list. simpl. by rewrite E.
Qed.
Lemma rec_invite c u m e : preserves P (CreateInvite c u m e).
Proof.
  destruct c as [c|]; [|aside]. apply preserves_exec. intros now d x d' (Ha & Hn & Hd & Hm & Hi & Hs) E.
  cbv zeta in E. do 2 (case_hyp E; [done|]). simplify_eq. do 3 (split; [done|]). split; [simpl; lia|]. split; [|done]. intros k i Hk Ei.
  destruct (Hi k i Hk Ei) as (i1 & H1 & L1). exists i1. split; [|done]. simpl. by rewrite lookup_insert_ne by lia.
Qed.
Lemma rec_link i l : preserves P (LinkAttachmentsToMessage i l).
Proof. destruct l; aside. Qed.
Lemma rec_dm u1 u2 : preserves P (GetOrCreateDMChannel u1 u2).
Proof. apply dm_channel_frame. intros d d' H. by apply rec_aside; destruct H. Qed.
Lemma rec_purge u : preserves P (exec_all (purge_steps u)).
Proof. simpl. aside. Qed.
Lemma rec_delete_account u : preserves P (DeleteAccount u).
Proof.
  apply preserves_in_tx', preserves_or_return; [aside|intros rl]. apply preserves_or_return; [aside|intros _].
  apply preserves_or_return; [apply rec_purge|intros _]. apply preserves_or_return; [aside|intros _].
  apply preserves_exec. intros now d x d' Hd E. case_hyp E; [done|]. simplify_eq. apply rec_update_row; [|done].
  intros y. split; [done|]. split; [done|by right].
Qed.
#[local] Hint Resolve rec_CreateUser rec_with_invite rec_status rec_totp rec_ban rec_unban rec_role rec_statuses rec_audit rec_invite rec_link rec_dm rec_use rec_revoke rec_CreateSession rec_touch
  rec_delete_account : rec_db.

(** *** Whoever calls *)

Lemma rec_ws b A (m : ST Sys A) : ws_write b A m -> preserves P m.
Proof. destruct 1; solve [auto with rec_db nocore | aside]. Qed.
Lemma rec_http b A (m : ST Sys A) : http_write b A m -> preserves P m.
Proof. destruct 1; solve [auto with rec_db nocore | aside]. Qed.
Lemma rec_background A (m : ST Sys A) : background_write A m -> preserves P m.
Proof. destruct 1; solve [auto with rec_db nocore | aside]. Qed.
Lemma rec_op o : preserves P (run_op o).
Proof.
  destruct o; simpl; (apply preserves_bind; [|intros ?; apply preserves_ret]); solve [auto with rec_db nocore | aside].
Qed.
End calls.

End Records.
Export Records.

(** C14: what the server keeps of its past. Over any run between two
    restorations of a backup, whatever requests, messages, database calls,
    timers, failures, updates and restarts it is made of: entries are only added to the audit log, none is changed or removed; and
    the row of every account stays, with its identifier, its time of creation,
    and its name and password, unless it is deleted, which leaves the name
    "[deleted-id]" and no password for good; and an invite keeps its code and
    its limit, is not used beyond the limit, and not at all once revoked; and a
    session keeps its user, its token and its end, and never comes back once it
    is gone. *)
Theorem records_kept env to_jwt es s (Hes : existsb restoring es = false) :
  let d := sdb s in
  let d' := sdb (run_server env to_jwt es s).2 in
  (exists entries, audit_log d' = (entries ++ audit_log d)%list) /\ next_user d <= next_user d' /\
  (forall k u, k < next_user d -> users d !! k = Some u -> exists u', users d' !! k = Some u' /\
    u_id u' = u_id u /\ u_created u' = u_created u /\
    ((u_username u' = u_username u /\ u_password u' = u_password u) \/
     (u_username u' = deleted_name k /\ u_password u' = ""))) /\
  next_invite d <= next_invite d' /\
  (forall k i, k < next_invite d -> invites d !! k = Some i -> exists i', invites d' !! k = Some i' /\ invite_later i i') /\
  next_session d <= next_session d' /\
  forall k x', k < next_session d -> sessions d' !! k = Some x' -> exists x, sessions d !! k = Some x /\
    s_user x' = s_user x /\ s_token x' = s_token x /\ s_expires x' = s_expires x.
Proof.
  cbv zeta. apply (db_server_run (remembers (sdb s))).
  - apply rec_ws.
  - apply rec_http.
  - apply rec_background.
  - apply rec_op.
  - exact Hes.
  - apply remembers_refl.
Qed.

(** An account that is made, banned and deleted keeps its row. *)
Lemma records_kept_witness :
  let call o := SvProcess (EvDb o) in
  let no_token := fun _ : Grant => None in
  let made := [call (OpCreateUser "ann" "hash" 1); call (OpCreateUser "bob" "hash" 4)] in
  let es := [call (OpBanUser 2 "spam" None); SvRestart None "1.0.0" "" None None []; call (OpCreateSession 2 "t" "" "")] in
  let s := (run_server bare_env no_token made bare_server).2 in
  let s' := (run_server bare_env no_token es s).2 in
  existsb restoring es = false /\
  exists u u', users (sdb s) !! 2 = Some u /\ users (sdb s') !! 2 = Some u' /\ u_created u' = u_created u.
Proof.
  intros call no_token made es s s'. assert (Hes : existsb restoring es = false) by reflexivity.
  split; [exact Hes|]. destruct (records_kept bare_env no_token es s Hes) as (_ & _ & H & _).
  assert (E : exists u, users (sdb s) !! 2 = Some u) by (vm_compute; eexists; reflexivity).
  destruct E as [u E]. destruct (H 2 u) as (u' & E' & _ & Hc & _); [vm_compute; reflexivity|exact E|].
  exists u, u'. exact (conj E (conj E' Hc)).
Defined.
