(* ===== verification/RangeMap.v ===== *)
(** * Sequence number offsets by range

    Model of pkg/sfu/utils/rangemap.go of the media server, at the only
    instance it is used at: keys and values are [uint64]. A map is a list of
    closed ranges, oldest first, and a last range that is open to the right;
    a key between two ranges is excluded. The wrap-around comparisons of
    [GetValue] are compared with the plain reading of the list ([lookup]). *)

From S2P Require Import Prelude.
#[local] Open Scope Z_scope.

Module RangeMap.

Inductive range_error := ReversedOrder | KeyNotFound | KeyTooOld | KeyExcluded.

Record rangeVal := mkRange { rv_start : Z; rv_end : Z; rv_value : Z }.

(** [size] is what [NewRangeMap] was given, at least one. *)
Record RangeMap := mkRangeMap { rm_size : Z; rm_ranges : list rangeVal }.

Definition minRanges : Z := 1.
Definition halfRange : Z := Z.shiftl 1 (8 * 8 - 1).

Definition initRanges (start val : Z) (r : RangeMap) : RangeMap :=
  mkRangeMap (rm_size r) [mkRange start 0 val].

Definition NewRangeMap (size : Z) : RangeMap := initRanges 0 0 (mkRangeMap (Z.max size minRanges) []).

Definition ClearAndResetValue (start val : Z) (r : RangeMap) : RangeMap := initRanges start val r.

(** The most recent ranges and the open one. *)
Definition prune (r : RangeMap) : RangeMap :=
  if rm_size r + 1 <? Z.of_nat (length (rm_ranges r))
  then mkRangeMap (rm_size r) (drop (length (rm_ranges r) - Z.to_nat (rm_size r) - 1) (rm_ranges r))
  else r.

(** The last range, and the ranges before it; [None] is the index panic. *)
Definition open_range (r : RangeMap) : option (list rangeVal * rangeVal) :=
  lr ← last (rm_ranges r); Some (take (length (rm_ranges r) - 1) (rm_ranges r), lr).

Definition DecValue (end_ dec : Z) (r : RangeMap) : option RangeMap :=
  '(before, lr) ← open_range r;
  if end_ <? rv_start lr
  then Some (mkRangeMap (rm_size r) (before ++ [mkRange (rv_start lr) (rv_end lr) (wrap_uint64 (rv_value lr - dec))]))
  else Some (prune (mkRangeMap (rm_size r)
    (before ++ [mkRange (rv_start lr) end_ (rv_value lr);
                mkRange (wrap_uint64 (end_ + 1)) 0 (wrap_uint64 (rv_value lr - dec))]))).

Definition ExcludeRange (startInclusive endExclusive : Z) (r : RangeMap) : option (result range_error RangeMap) :=
  if (endExclusive =? startInclusive) || (halfRange <? wrap_uint64 (endExclusive - startInclusive))
  then Some (inl ReversedOrder) else
  '(before, lr) ← open_range r;
  if startInclusive <? rv_start lr then Some (inl ReversedOrder) else
  let newValue := wrap_uint64 (rv_value lr + wrap_uint64 (endExclusive - startInclusive)) in
  if rv_start lr =? startInclusive
  then Some (inr (mkRangeMap (rm_size r) (before ++ [mkRange endExclusive (rv_end lr) newValue])))
  else Some (inr (prune (mkRangeMap (rm_size r)
    (before ++ [mkRange (rv_start lr) (wrap_uint64 (startInclusive - 1)) (rv_value lr);
                mkRange endExclusive 0 newValue])))).

(** The loop from the end: [idx] ranges are left, all of [l] but the last is
    reversed before it. *)
Definition in_closed (rv : rangeVal) (key : Z) : bool :=
  (wrap_uint64 (key - rv_start rv) <? halfRange) && (wrap_uint64 (rv_end rv - key) <? halfRange).
Definition in_excluded (prev rv : rangeVal) (key : Z) : bool :=
  let beforeDiff := wrap_uint64 (key - rv_end prev) in
  let afterDiff := wrap_uint64 (rv_start rv - key) in
  (0 <? beforeDiff) && (beforeDiff <? halfRange) && (0 <? afterDiff) && (afterDiff <? halfRange).

Fixpoint scan (is_open : bool) (newest_first : list rangeVal) (key : Z) : result range_error Z :=
  match newest_first with
  | [] => inl KeyNotFound
  | rv :: older =>
      if negb is_open && in_closed rv key then inr (rv_value rv) else
      match older with
      | prev :: _ => if in_excluded prev rv key then inl KeyExcluded else scan false older key
      | [] => inl KeyNotFound
      end
  end.

Definition GetValue (key : Z) (r : RangeMap) : result range_error Z :=
  match last (rm_ranges r), head (rm_ranges r) with
  | Some newest, Some oldest =>
      if rv_start newest <=? key then inr (rv_value newest)
      else if key <? rv_start oldest then inl KeyTooOld
      else scan true (rev (rm_ranges r)) key
  | _, _ => inl KeyNotFound
  end.

(** ** What the list means *)

Fixpoint find_range (rs : list rangeVal) (key : Z) : result range_error Z :=
  match rs with
  | [] => inl KeyNotFound
  | rv :: later =>
      match later with
      | [] => inr (rv_value rv)
      | next :: _ =>
          if key <=? rv_end rv then inr (rv_value rv)
          else if key <? rv_start next then inl KeyExcluded
          else find_range later key
      end
  end.

Definition lookup (key : Z) (r : RangeMap) : result range_error Z :=
  match rm_ranges r with
  | [] => inl KeyNotFound
  | oldest :: _ => if key <? rv_start oldest then inl KeyTooOld else find_range (rm_ranges r) key
  end.

(** ** Well-formed lists: ranges in order, keys below half of the key space *)

Fixpoint ordered (rs : list rangeVal) : Prop :=
  match rs with
  | [] => False
  | rv :: later =>
      0 <= rv_start rv < two63 /\ 0 <= rv_value rv < two64 /\
      match later with
      | [] => True
      | next :: _ => rv_start rv <= rv_end rv /\ rv_end rv < rv_start next /\ ordered later
      end
  end.

Record rm_ok (r : RangeMap) : Prop := {
  ok_ordered : ordered (rm_ranges r);
  ok_size : 1 <= rm_size r;
  ok_length : Z.of_nat (length (rm_ranges r)) <= rm_size r + 1 }.

(** ** Comparisons across the wrap-around *)

Lemma wrap_diff a b : 0 <= a < two63 -> 0 <= b < two63 ->
  wrap_uint64 (a - b) = if b <=? a then a - b else a - b + two64.
Proof.
  unfold wrap_uint64, two63, two64. intros Ha Hb. destruct (Z.leb_spec b a).
  - apply Z.mod_small. lia.
  - rewrite <- (Z.mod_add _ 1) by lia. rewrite Z.mod_small; lia.
Qed.

Lemma diff_lt_half a b : 0 <= a < two63 -> 0 <= b < two63 ->
  (wrap_uint64 (a - b) <? halfRange) = (b <=? a).
Proof.
  intros Ha Hb. rewrite wrap_diff by done. change halfRange with two63. unfold two63, two64 in *.
  destruct (Z.leb_spec b a); [apply Z.ltb_lt|apply Z.ltb_ge]; lia.
Qed.

Lemma diff_pos a b : 0 <= a < two63 -> 0 <= b < two63 -> (0 <? wrap_uint64 (a - b)) = negb (a =? b).
Proof.
  intros Ha Hb. rewrite wrap_diff by done. unfold two63, two64 in *.
  destruct (Z.leb_spec b a), (Z.eqb_spec a b); simpl; (apply Z.ltb_lt || apply Z.ltb_ge); lia.
Qed.

Lemma in_closed_spec rv key : 0 <= rv_start rv < two63 -> 0 <= rv_end rv < two63 -> 0 <= key < two63 ->
  in_closed rv key = (rv_start rv <=? key) && (key <=? rv_end rv).
Proof. intros. unfold in_closed. by rewrite !diff_lt_half. Qed.

Lemma in_excluded_spec prev rv key : 0 <= rv_start rv < two63 -> 0 <= rv_end prev < two63 -> 0 <= key < two63 ->
  in_excluded prev rv key = (rv_end prev <? key) && (key <? rv_start rv).
Proof.
  intros H1 H2 H3. unfold in_excluded. rewrite !diff_lt_half, !diff_pos by done.
  destruct (Z.leb_spec (rv_end prev) key), (Z.leb_spec key (rv_start rv)), (Z.eqb_spec key (rv_end prev)), (Z.eqb_spec (rv_start rv) key),
    (Z.ltb_spec (rv_end prev) key), (Z.ltb_spec key (rv_start rv)); simpl; done || lia.
Qed.

(** ** Ordered lists *)

Lemma ordered_app l x r : ordered (l ++ x :: r) -> ordered (x :: r).
Proof. induction l as [|a l IH]; [done|]. simpl. destruct l; simpl in *; intros (_ & _ & _ & _ & H); by apply IH. Qed.

Lemma ordered_cut l x y : ordered (l ++ [x; y]) -> ordered (l ++ [x]).
Proof.
  induction l as [|a l IH]; [by intros (? & ? & _)|]. intros H. destruct l as [|b l]; simpl in *.
  - destruct H as (? & ? & ? & ? & ? & ? & _). done.
  - destruct H as (? & ? & ? & ? & H). split_and!; try done; try lia. by apply IH.
Qed.

Lemma ordered_bounds l x y r : ordered (l ++ x :: y :: r) ->
  0 <= rv_start x < two63 /\ 0 <= rv_end x < two63 /\ 0 <= rv_start y < two63 /\ rv_start x <= rv_end x < rv_start y.
Proof. intros H. apply ordered_app in H. simpl in H. destruct H as (? & ? & ? & ? & ? & _). lia. Qed.

Lemma find_range_skip l x r key : ordered (l ++ x :: r) -> rv_start x <= key -> find_range (l ++ x :: r) key = find_range (x :: r) key.
Proof.
  induction l as [|a l IH]; [done|]. intros H Hk.
  assert (Ho : ordered (l ++ x :: r)) by (simpl in H; destruct l; simpl in *; tauto).
  rewrite <- IH by done. simpl. destruct l as [|b l]; simpl in *.
  - destruct H as (_ & _ & H1 & H2 & _).
    rewrite (proj2 (Z.leb_gt _ _)), (proj2 (Z.ltb_ge _ _)) by lia. done.
  - destruct H as (_ & _ & H1 & H2 & H3).
    assert (rv_start b <= rv_start x). { clear -H3. revert b H3. induction l as [|c l IHl]; intros b H3; simpl in *; [lia|].
      destruct H3 as (? & ? & ? & ? & H3). specialize (IHl c). apply IHl in H3. lia. }
    rewrite (proj2 (Z.leb_gt _ _)), (proj2 (Z.ltb_ge _ _)) by lia. done.
Qed.

Lemma find_range_cut l x y key : key <= rv_end x -> find_range (l ++ [x; y]) key = find_range (l ++ [x]) key.
Proof.
  intros Hk. induction l as [|a l IH]; simpl; [by apply Z.leb_le in Hk as ->|].
  destruct l; simpl in *; by rewrite IH.
Qed.

Lemma scan_closed l x y key : ordered (l ++ [x; y]) -> 0 <= key < two63 ->
  (forall o, head (l ++ [x]) = Some o -> rv_start o <= key) -> key <= rv_end x ->
  scan false (x :: rev l) key = find_range (l ++ [x; y]) key.
Proof.
  revert x y. induction l as [|p l IH] using rev_ind; intros x y Ho Hkey Hh Hk.
  - specialize (Hh x eq_refl). pose proof (ordered_bounds [] _ _ _ Ho) as (? & ? & ? & ?). simpl.
    rewrite in_closed_spec by done. rewrite !(proj2 (Z.leb_le _ _)) by lia. done.
  - rewrite rev_app_distr. rewrite <- app_assoc in *. simpl in Ho |- *.
    pose proof (ordered_bounds _ _ _ _ Ho) as (Hp1 & Hp2 & Hx1 & Hp3).
    assert (Ho' : ordered ((l ++ [p]) ++ [x; y])) by by rewrite <- app_assoc.
    pose proof (ordered_bounds _ _ _ _ Ho') as (_ & Hx2 & Hy & Hx3).
    rewrite in_closed_spec, in_excluded_spec by done. rewrite (proj2 (Z.leb_le key _)) by done.
    rewrite andb_true_r. destruct (Z.leb_spec (rv_start x) key).
    + change (l ++ [p; x; y]) with (l ++ [p] ++ [x; y]). rewrite app_assoc, find_range_skip by done. simpl.
      by rewrite (proj2 (Z.leb_le _ _)) by done.
    + rewrite (proj2 (Z.ltb_lt key _)) by done. rewrite andb_true_r. destruct (Z.ltb_spec (rv_end p) key).
      * rewrite (find_range_skip l p) by (done || lia). simpl.
        by rewrite (proj2 (Z.leb_gt _ _)), (proj2 (Z.ltb_lt _ _)) by lia.
      * simpl in IH. rewrite (IH p x).
        -- pose proof (find_range_cut (l ++ [p]) x y key) as Hc. rewrite <- !app_assoc in Hc. simpl in Hc. by rewrite Hc by lia.
        -- apply ordered_cut in Ho'. by rewrite <- app_assoc in Ho'.
        -- done.
        -- intros o E. apply Hh. destruct l; simpl in *; done.
        -- lia.
Qed.

(** [GetValue] reads the list as it is meant. *)
Lemma GetValue_lookup key r : rm_ok r -> 0 <= key < two63 -> GetValue key r = lookup key r.
Proof.
  intros [Ho _ _] Hkey. unfold GetValue, lookup. destruct r as [sz rs]. simpl in *.
  destruct rs as [|x rs _] using rev_ind; [done|].
  rewrite last_snoc. destruct (rs ++ [x]) as [|oldest rest] eqn:E; [by destruct rs|].
  cbn [head]. destruct (Z.leb_spec (rv_start x) key) as [Hx|Hx].
  - assert (rv_start oldest <= rv_start x).
    { destruct rs as [|p rs]; simpl in E; simplify_eq; [done|].
      clear -Ho. revert oldest Ho. induction rs as [|b rs IH]; intros a Ho; simpl in *; [lia|].
      destruct Ho as (_ & _ & ? & ? & Ho). apply IH in Ho. lia. }
    rewrite (proj2 (Z.ltb_ge _ _)) by lia. rewrite <- E in *. by rewrite find_range_skip.
  - destruct (Z.ltb_spec key (rv_start oldest)) as [Hold|Hold]; [done|].
    rewrite <- E in *. destruct rs as [|p rs _] using rev_ind; [simpl in E; simplify_eq; lia|].
    rewrite rev_app_distr, rev_app_distr. simpl. rewrite <- app_assoc in *. simpl in *.
    pose proof (ordered_bounds _ _ _ _ Ho) as (H1 & H2 & H3 & H4).
    rewrite in_excluded_spec by done. rewrite (proj2 (Z.ltb_lt key _)) by done. rewrite andb_true_r.
    destruct (Z.ltb_spec (rv_end p) key).
    + rewrite find_range_skip by (done || lia). simpl. by rewrite (proj2 (Z.leb_gt _ _)), (proj2 (Z.ltb_lt _ _)) by lia.
    + apply scan_closed; try done. intros o Eo. destruct rs; simpl in *; simplify_eq; done.
Qed.

(** ** What the operations do to the meaning *)

Definition value_at (key : Z) (r : RangeMap) : option Z := match lookup key r with inr v => Some v | inl _ => None end.

Lemma value_at_ranges key sz l : value_at key (mkRangeMap sz l) =
  match l with
  | [] => None
  | oldest :: _ => if key <? rv_start oldest then None else match find_range l key with inr v => Some v | inl _ => None end
  end.
Proof. unfold value_at, lookup. simpl. destruct l; [done|]. by destruct (_ <? _). Qed.

Lemma rm_open r : rm_ok r -> exists before lr, rm_ranges r = before ++ [lr] /\ open_range r = Some (before, lr).
Proof.
  intros [Ho _ _]. destruct r as [sz rs]. simpl in *. destruct rs as [|lr rs _] using rev_ind; [done|].
  exists rs, lr. split; [done|]. unfold open_range. simpl. rewrite last_snoc, length_app. simpl.
  by rewrite Nat.add_sub, take_app_length.
Qed.

(** The start and the value of the open range. *)
Definition open_start (r : RangeMap) : Z := match last (rm_ranges r) with Some lr => rv_start lr | None => 0 end.
Definition open_value (r : RangeMap) : Z := match last (rm_ranges r) with Some lr => rv_value lr | None => 0 end.

Lemma head_le_last l x o : ordered (l ++ [x]) -> head (l ++ [x]) = Some o -> rv_start o <= rv_start x.
Proof.
  revert o. induction l as [|a l IH]; intros o Ho E; simpl in *; simplify_eq; [lia|].
  destruct l as [|b l]; simpl in *.
  - destruct Ho as (_ & _ & ? & ? & _). lia.
  - destruct Ho as (_ & _ & ? & ? & Ho). specialize (IH b Ho eq_refl). lia.
Qed.

Lemma value_at_open key r : rm_ok r -> open_start r <= key -> value_at key r = Some (open_value r).
Proof.
  intros Hr Hk. destruct (rm_open r Hr) as (b & lr & E & _). destruct Hr as [Ho _ _]. destruct r as [sz rs]. simpl in *. subst rs.
  unfold open_start, open_value in *. simpl in *. rewrite last_snoc in *. rewrite value_at_ranges.
  pose proof (fun o => head_le_last b lr o Ho) as Hh.
  destruct (b ++ [lr]) as [|o rest] eqn:E; [by destruct b|]. specialize (Hh o eq_refl).
  rewrite (proj2 (Z.ltb_ge _ _)) by lia. rewrite <- E in *. by rewrite find_range_skip.
Qed.

Lemma ordered_drop n l : (n < length l)%nat -> ordered l -> ordered (drop n l).
Proof.
  intros Hn Ho. rewrite <- (take_drop n l) in Ho. destruct (drop n l) as [|x r] eqn:E.
  - apply (f_equal length) in E. rewrite length_drop in E. simpl in E. lia.
  - by apply ordered_app in Ho.
Qed.

(** Pruning keeps the values it does not forget. *)
Lemma value_at_drop sz n l key v : (n < length l)%nat -> ordered l ->
  value_at key (mkRangeMap sz (drop n l)) = Some v -> value_at key (mkRangeMap sz l) = Some v.
Proof.
  intros Hn Ho. rewrite !value_at_ranges. rewrite <- (take_drop n l) in Ho.
  assert (El : l = take n l ++ drop n l) by by rewrite take_drop.
  destruct (drop n l) as [|x r] eqn:E.
  { apply (f_equal length) in E. rewrite length_drop in E. simpl in E. lia. }
  destruct (Z.ltb_spec key (rv_start x)) as [?|Hk]; [done|]. rewrite El. rewrite find_range_skip by done.
  destruct (take n l) as [|o t]; cbn -[find_range]; [by rewrite (proj2 (Z.ltb_ge _ _))|].
  assert (rv_start o <= rv_start x).
  { clear -Ho. revert o Ho. induction t as [|b t IH]; intros o Ho; simpl in *; [lia|].
    destruct Ho as (_ & _ & ? & ? & Ho). apply IH in Ho. lia. }
  by rewrite (proj2 (Z.ltb_ge _ _)) by lia.
Qed.

Lemma prune_ok sz l : ordered l -> 1 <= sz -> rm_ok (prune (mkRangeMap sz l)).
Proof.
  intros Ho Hs. unfold prune. simpl. destruct (Z.ltb_spec (sz + 1) (Z.of_nat (length l))); split; simpl; try done.
  - apply ordered_drop; [lia|done].
  - rewrite length_drop. lia.
Qed.

Lemma prune_value sz l key v : 1 <= sz -> ordered l -> value_at key (prune (mkRangeMap sz l)) = Some v -> value_at key (mkRangeMap sz l) = Some v.
Proof.
  intros Hs Ho. unfold prune. simpl. destruct (Z.ltb_spec (sz + 1) (Z.of_nat (length l))); [|done].
  apply value_at_drop; [lia|done].
Qed.

Lemma last_of_drop (n : nat) (l : list rangeVal) : (n < length l)%nat -> last (drop n l) = last l.
Proof.
  intros Hn. rewrite <- (take_drop n l) at 2. rewrite last_app. destruct (last (drop n l)) eqn:E; [done|].
  apply last_None in E. apply (f_equal length) in E. rewrite length_drop in E. simpl in E. lia.
Qed.

Lemma last_two (l : list rangeVal) x y : last (l ++ [x; y]) = Some y.
Proof. by rewrite last_app. Qed.

Lemma prune_open sz l : 1 <= sz -> open_start (prune (mkRangeMap sz l)) = open_start (mkRangeMap sz l) /\
  open_value (prune (mkRangeMap sz l)) = open_value (mkRangeMap sz l).
Proof.
  intros Hs. unfold prune, open_start, open_value. simpl. destruct (Z.ltb_spec (sz + 1) (Z.of_nat (length l))); [|done].
  simpl. by rewrite last_of_drop by lia.
Qed.

(** Closing the open range at [e] and opening one at [n]. *)
Lemma ordered_close b lr e n v : ordered (b ++ [lr]) -> rv_start lr <= e -> e < n < two63 -> 0 <= v < two64 ->
  ordered (b ++ [mkRange (rv_start lr) e (rv_value lr); mkRange n 0 v]).
Proof.
  intros Ho He Hn Hv. induction b as [|a b IH]; simpl in *.
  - destruct Ho as (? & ? & _). unfold two63 in *. split_and!; done || lia.
  - destruct b as [|c b]; simpl in *; destruct Ho as (? & ? & ? & ? & Ho); split_and!; try done; try lia; by apply IH.
Qed.

Lemma close_values b lr e n v sz key w : ordered (b ++ [lr]) -> rv_start lr <= e -> e < n < two63 ->
  value_at key (mkRangeMap sz (b ++ [mkRange (rv_start lr) e (rv_value lr); mkRange n 0 v])) = Some w -> key < n ->
  key <= e /\ value_at key (mkRangeMap sz (b ++ [lr])) = Some w.
Proof.
  intros Ho He Hn. rewrite !value_at_ranges. intros E Hk.
  assert (Hf : match find_range (b ++ [mkRange (rv_start lr) e (rv_value lr); mkRange n 0 v]) key with inr x => Some x | inl _ => None end = Some w ->
    key <= e /\ find_range (b ++ [lr]) key = inr w).
  { clear E. induction b as [|a b IH]; simpl.
    - destruct (Z.leb_spec key e); [intros; simplify_eq; by split|]. by rewrite (proj2 (Z.ltb_lt _ _)).
    - destruct b as [|c b]; simpl in *.
      + destruct Ho as (_ & _ & ? & ? & Ho). destruct (Z.leb_spec key (rv_end a)); [intros; simplify_eq; split; [lia|done]|].
        destruct (key <? rv_start lr); [done|]. by apply IH.
      + destruct Ho as (_ & _ & ? & ? & Ho).
        destruct (Z.leb_spec key (rv_end a)); [intros; simplify_eq; split; [|done]|].
        * assert (rv_start c <= rv_start lr) by by apply (head_le_last (c :: b) lr). lia.
        * destruct (key <? rv_start c); [done|]. by apply IH. }
  destruct b as [|a b]; cbn -[find_range] in E, Hf |- *; [destruct (key <? rv_start lr)|destruct (key <? rv_start a)]; try done;
    apply Hf in E as [? ->]; done.
Qed.

(** Moving the open range to [n]. *)
Lemma ordered_move b lr n v : ordered (b ++ [lr]) -> rv_start lr <= n < two63 -> 0 <= v < two64 ->
  ordered (b ++ [mkRange n (rv_end lr) v]).
Proof.
  intros Ho Hn Hv. induction b as [|a b IH]; simpl in *; [lia|].
  destruct b as [|c b]; simpl in *; destruct Ho as (? & ? & ? & ? & Ho); split_and!; try done; try lia; by apply IH.
Qed.

Lemma move_values b lr n v sz key w : ordered (b ++ [lr]) -> rv_start lr <= n ->
  value_at key (mkRangeMap sz (b ++ [mkRange n (rv_end lr) v])) = Some w -> key < n ->
  key < rv_start lr /\ value_at key (mkRangeMap sz (b ++ [lr])) = Some w.
Proof.
  intros Ho Hn. rewrite !value_at_ranges. intros E Hk. destruct b as [|a b]; cbn -[find_range] in E |- *.
  { by rewrite (proj2 (Z.ltb_lt _ _)) in E. }
  destruct (key <? rv_start a); [done|].
  assert (Hf : match find_range ((a :: b) ++ [mkRange n (rv_end lr) v]) key with inr x => Some x | inl _ => None end = Some w ->
    key < rv_start lr /\ find_range ((a :: b) ++ [lr]) key = inr w).
  { clear E. revert a Ho. induction b as [|c b IH]; intros a Ho; simpl in *.
    - destruct Ho as (_ & _ & ? & ? & Ho). destruct (Z.leb_spec key (rv_end a)); [intros; simplify_eq; split; [lia|done]|].
      by rewrite (proj2 (Z.ltb_lt _ _)).
    - destruct Ho as (_ & _ & ? & ? & Ho). destruct (Z.leb_spec key (rv_end a)); [intros; simplify_eq; split; [|done]|].
      + assert (rv_start c <= rv_start lr) by by apply (head_le_last (c :: b) lr). lia.
      + destruct (key <? rv_start c); [done|]. by apply IH. }
  apply Hf in E as [? E]. split; [done|]. cbn -[find_range] in E. by rewrite E.
Qed.

Lemma value_at_settled key r v : rm_ok r -> 0 <= key < two63 -> value_at key r = Some v <-> GetValue key r = inr v.
Proof. intros Hr Hk. rewrite GetValue_lookup by done. unfold value_at. destruct (lookup key r); split; intros; simplify_eq; done. Qed.

Lemma rm_size_pos r : rm_ok r -> 1 <= rm_size r.
Proof. by intros []. Qed.
#[local] Hint Resolve rm_size_pos wrap_uint64_range : core.

(** Everything up to [n] is as it was, as far as it is still known. *)
Definition kept_to (n : Z) (r r' : RangeMap) : Prop :=
  forall k v, k <= n -> value_at k r' = Some v -> value_at k r = Some v.

Lemma NewRangeMap_ok size : rm_ok (NewRangeMap size).
Proof. split; simpl; unfold two63, two64, minRanges; lia. Qed.
Lemma ClearAndResetValue_ok start val r : rm_ok r -> 0 <= start < two63 -> 0 <= val < two64 -> rm_ok (ClearAndResetValue start val r).
Proof. intros [_ Hs _] H1 H2. split; simpl; [done|done|lia]. Qed.

Lemma prune_after sz l n r : 1 <= sz -> ordered l -> kept_to n r (mkRangeMap sz l) -> kept_to n r (prune (mkRangeMap sz l)).
Proof. intros Hs Ho H k v Hk E. apply prune_value in E; [|done..]. by apply (H k). Qed.

(** [DecValue] at the last key that has been mapped: later keys get the decremented value. *)
Lemma DecValue_spec end_ dec r : rm_ok r -> 0 <= end_ < two63 - 1 -> open_start r <= end_ + 1 ->
  exists r', DecValue end_ dec r = Some r' /\ rm_ok r' /\ kept_to end_ r r' /\ open_start r' <= end_ + 1 /\
    open_value r' = wrap_uint64 (open_value r - dec).
Proof.
  intros Hr He Hs. destruct (rm_open r Hr) as (b & lr & E & Eo). unfold DecValue. rewrite Eo. simpl.
  destruct r as [sz rs]. simpl in *. subst rs. pose proof (rm_size_pos _ Hr) as Hsz. destruct Hr as [Ho _ Hl]. simpl in *.
  unfold open_start, open_value in *. simpl in *. rewrite last_snoc in *.
  destruct (Z.ltb_spec end_ (rv_start lr)) as [Hlt|Hge].
  - eexists. split; [done|]. assert (Hb : 0 <= rv_start lr < two63) by by apply ordered_app in Ho as [? _].
    split; [split; simpl; try done|split; [|simpl; rewrite !last_snoc; simpl; split; [lia|done]]].
    + assert (Hm := ordered_move b lr (rv_start lr) (wrap_uint64 (rv_value lr - dec)) Ho). apply Hm; [lia|done].
    + rewrite length_app in *. done.
    + intros k v Hk Ev. apply move_values in Ev as [_ Ev]; [|done|lia|lia]. by destruct lr.
  - assert (Hn : wrap_uint64 (end_ + 1) = end_ + 1) by (apply wrap_uint64_small; unfold two63, two64 in *; lia). rewrite Hn.
    assert (Hoc : ordered (b ++ [mkRange (rv_start lr) end_ (rv_value lr); mkRange (end_ + 1) 0 (wrap_uint64 (rv_value lr - dec))])).
    { apply ordered_close; [done|lia|unfold two63 in *; lia|done]. }
    eexists. split; [done|]. split; [by apply prune_ok|]. destruct (prune_open sz (b ++ [mkRange (rv_start lr) end_ (rv_value lr); mkRange (end_ + 1) 0 (wrap_uint64 (rv_value lr - dec))]) Hsz) as [H1 H2].
    unfold open_start, open_value in H1, H2. rewrite H1, H2. simpl. rewrite last_two. simpl.
    split; [|split; [lia|done]]. apply prune_after; [done|done|]. intros k v Hk Ev. eapply (close_values b lr end_ (end_ + 1)); [done|lia|unfold two63 in *; lia|done|lia].
Qed.

(** [ExcludeRange] beyond what has been closed. *)
Lemma ExcludeRange_spec s e r : rm_ok r -> 0 <= s -> s < e < two63 -> open_start r <= s ->
  exists r', ExcludeRange s e r = Some (inr r') /\ rm_ok r' /\ kept_to (e - 1) r r' /\
    (forall k, s <= k < e -> value_at k r' = None) /\ open_start r' = e /\
    open_value r' = wrap_uint64 (open_value r + (e - s)).
Proof.
  intros Hr Hs0 He Hs. destruct (rm_open r Hr) as (b & lr & E & Eo). unfold ExcludeRange. rewrite Eo. simpl.
  assert (Hd : wrap_uint64 (e - s) = e - s) by (apply wrap_uint64_small; unfold two63, two64 in *; lia). rewrite Hd.
  rewrite (proj2 (Z.eqb_neq e s)) by lia. change halfRange with two63. rewrite (proj2 (Z.ltb_ge _ _)) by lia. simpl.
  destruct r as [sz rs]. simpl in *. subst rs. pose proof (rm_size_pos _ Hr) as Hsz. destruct Hr as [Ho _ Hl]. simpl in *.
  unfold open_start, open_value in *. simpl in *. rewrite last_snoc in *.
  rewrite (proj2 (Z.ltb_ge _ _)) by done. assert (Hb : 0 <= rv_start lr < two63) by by apply ordered_app in Ho as [? _].
  set (nv := wrap_uint64 (rv_value lr + (e - s))). assert (Hnv : 0 <= nv < two64) by by unfold nv.
  destruct (Z.eqb_spec (rv_start lr) s) as [Heq|Hneq].
  - eexists. split; [done|]. split; [split; simpl; try done|].
    { apply ordered_move; [done|lia|done]. } { rewrite length_app in *. done. }
    simpl rm_ranges. rewrite !last_snoc. split; [|split; [|done]].
    + intros k v Hk Ev. apply move_values in Ev as [_ Ev]; [done|done|lia|lia].
    + intros k Hk. destruct (value_at _ _) as [v|] eqn:Ev; [|done].
      apply move_values in Ev as [? _]; [lia|done|lia|lia].
  - assert (Hw : wrap_uint64 (s - 1) = s - 1) by (apply wrap_uint64_small; unfold two63, two64 in *; lia). rewrite Hw.
    assert (Hoc : ordered (b ++ [mkRange (rv_start lr) (s - 1) (rv_value lr); mkRange e 0 nv])).
    { apply ordered_close; [done|lia|lia|done]. }
    eexists. split; [done|]. split; [by apply prune_ok|].
    destruct (prune_open sz (b ++ [mkRange (rv_start lr) (s - 1) (rv_value lr); mkRange e 0 nv]) Hsz) as [H1 H2].
    unfold open_start, open_value in H1, H2. rewrite H1, H2. simpl. rewrite last_two. simpl.
    split; [|split; [|done]].
    + apply prune_after; [done|done|]. intros k v Hk Ev. eapply (close_values b lr (s - 1) e); [done|lia|lia|done|lia].
    + intros k Hk. destruct (value_at _ _) as [v|] eqn:Ev; [|done]. apply prune_value in Ev; [|done|done].
      apply (close_values b lr (s - 1) e) in Ev as [? _]; [lia|done|lia|lia|lia].
Qed.

End RangeMap.
Export RangeMap.
