(* ===== verification/Vp8.v ===== *)
(** * VP8 payload descriptors and forwarded packets

    Model of the VP8 part of pkg/sfu/buffer/helpers.go of the media server and of
    the packets its forwarding path works on (ExtPacket of
    pkg/sfu/buffer/buffer_base.go). Bytes are integers between 0 and 255. *)

From S2P Require Import Prelude.
#[local] Open Scope Z_scope.

(** Sequencing of calls that return an error. *)
#[export] Instance result_mbind {E} : MBind (sum E) := fun A B f m => match m with inl e => inl e | inr a => f a end.
#[export] Instance result_mret {E} : MRet (sum E) := fun A a => inr a.

Module Vp8.

Inductive vp8_error := NilPacket | ShortPacket | InvalidPacket.

Record VP8 := mkVP8 {
  FirstByte : Z; bitS : bool;
  bitI : bool; bitM : bool; PictureID : Z;
  bitL : bool; TL0PICIDX : Z;
  bitT : bool; TID : Z; bitY : bool;
  bitK : bool; KEYIDX : Z;
  HeaderSize : Z; vp8_IsKeyFrame : bool }.

(** [b & mask > 0] *)
Definition has_bits (b mask : Z) : bool := 0 <? Z.land b mask.

(** [payload[idx]] after the test of the length. *)
Definition byte_at (payload : list Z) (idx : nat) : result vp8_error Z :=
  match payload !! idx with Some b => inr b | None => inl ShortPacket end.

(** The picture identifier at [idx + 1], and the index after it. *)
Definition read_picture_id (payload : list Z) (idx : nat) : result vp8_error (nat * bool * Z) :=
  b ← byte_at payload (idx + 1);
  let pid := Z.land b 0x7f in
  if has_bits b 0x80
  then low ← byte_at payload (idx + 2); inr ((idx + 2)%nat, true, pid * 256 + low)
  else inr ((idx + 1)%nat, false, pid).

Definition read_tl0 (payload : list Z) (idx : nat) : result vp8_error (nat * Z) :=
  b ← byte_at payload (idx + 1); inr ((idx + 1)%nat, b).

Definition read_tid_keyidx (t k : bool) (payload : list Z) (idx : nat) : result vp8_error (nat * Z * bool * Z) :=
  b ← byte_at payload (idx + 1);
  inr ((idx + 1)%nat, (if t then Z.shiftr (Z.land b 0xc0) 6 else 0), t && has_bits b 0x20, (if k then Z.land b 0x1f else 0)).

(** [None] is a nil slice. *)
Definition Unmarshal (payload : option (list Z)) : result vp8_error VP8 :=
  match payload with
  | None => inl NilPacket
  | Some payload =>
      first ← byte_at payload 0;
      let s := has_bits first 0x10 in
      if has_bits first 0x80 then
        x ← byte_at payload 1;
        let i := has_bits x 0x80 in let l := has_bits x 0x40 in
        let t := has_bits x 0x20 in let k := has_bits x 0x10 in
        if l && negb t then inl InvalidPacket else
        '(idx, m, pid) ← (if i then read_picture_id payload 1 else inr (1%nat, false, 0));
        '(idx, tl0) ← (if l then read_tl0 payload idx else inr (idx, 0));
        '(idx, tid, y, key) ← (if t || k then read_tid_keyidx t k payload idx else inr (idx, 0, false, 0));
        p ← byte_at payload (idx + 1);
        inr (mkVP8 first s i m pid l tl0 t tid y k key (Z.of_nat (idx + 1)) ((Z.land p 1 =? 0) && s))
      else
        p ← byte_at payload 1;
        inr (mkVP8 first s false false 0 false 0 false 0 false false 0 1 ((Z.land p 1 =? 0) && s))
  end.

Lemma Unmarshal_header payload v : Unmarshal (Some payload) = inr v -> 0 <= HeaderSize v.
Proof.
  unfold Unmarshal. destruct (byte_at payload 0) as [|b]; [done|]. simpl. destruct (has_bits b 0x80).
  - destruct (byte_at payload 1) as [|x]; [done|]. simpl. destruct (_ && _); [done|].
    destruct (if has_bits x 0x80 then _ else _) as [|[[? ?] ?]]; [done|]. simpl. destruct (if has_bits x 0x40 then _ else _) as [|[? ?]]; [done|]. simpl.
    destruct (if _ || _ then _ else _) as [|[[[? ?] ?] ?]]; [done|]. simpl. destruct (byte_at payload _) as [|p]; [done|]. simpl. intros [= <-]. simpl. lia.
  - destruct (byte_at payload 1) as [|p]; [done|]. simpl. intros [= <-]. simpl. lia.
Qed.

(** Writing from [idx] on; [None] is the index panic. *)
Definition write_picture_id (v : VP8) (idx : Z) (buf : list Z) : option (Z * list Z) :=
  if bitI v then
    if bitM v then
      buf ← slice_set buf idx (Z.lor 0x80 (Z.land (Z.shiftr (PictureID v) 8) 0x7f));
      buf ← slice_set buf (idx + 1) (Z.land (PictureID v) 0xff);
      Some (idx + 2, buf)
    else buf ← slice_set buf idx (Z.land (PictureID v) 0xff); Some (idx + 1, buf)
  else Some (idx, buf).

Definition write_tl0 (v : VP8) (idx : Z) (buf : list Z) : option (Z * list Z) :=
  if bitL v then buf ← slice_set buf idx (TL0PICIDX v); Some (idx + 1, buf) else Some (idx, buf).

Definition tid_keyidx_byte (v : VP8) : Z :=
  let b := if bitT v then Z.lor (Z.land (Z.shiftl (TID v) 6) 0xff) (if bitY v then 0x20 else 0) else 0 in
  if bitK v then Z.lor b (Z.land (KEYIDX v) 0x1f) else b.
Definition write_tid_keyidx (v : VP8) (idx : Z) (buf : list Z) : option (Z * list Z) :=
  if bitT v || bitK v then buf ← slice_set buf idx (tid_keyidx_byte v); Some (idx + 1, buf) else Some (idx, buf).

Definition xval (v : VP8) : Z :=
  Z.lor (Z.lor (if bitI v then 0x80 else 0) (if bitL v then 0x40 else 0))
        (Z.lor (if bitT v then 0x20 else 0) (if bitK v then 0x10 else 0)).

Definition MarshalTo (v : VP8) (buf : list Z) : option (result vp8_error (Z * list Z)) :=
  if Z.of_nat (length buf) <? HeaderSize v then Some (inl ShortPacket) else
  if bitI v || bitL v || bitT v || bitK v then
    buf ← slice_set buf 0 (Z.lor (FirstByte v) 0x80);
    '(idx, buf) ← write_picture_id v 2 buf;
    '(idx, buf) ← write_tl0 v idx buf;
    '(idx, buf) ← write_tid_keyidx v idx buf;
    buf ← slice_set buf 1 (xval v);
    Some (inr (idx, buf))
  else
    buf ← slice_set buf 0 (Z.ldiff (FirstByte v) 0x80);
    Some (inr (1, buf)).

Definition Marshal (v : VP8) : option (result vp8_error (list Z)) :=
  if HeaderSize v <? 0 then None else
  r ← MarshalTo v (replicate (Z.to_nat (HeaderSize v)) 0);
  match r with
  | inl e => Some (inl e)
  | inr (n, buf) => Some (inr (take (Z.to_nat n) buf))
  end.

Definition VPxPictureIdSizeDiff (mBit1 mBit2 : bool) : Z :=
  if Bool.eqb mBit1 mBit2 then 0 else if mBit1 then 1 else -1.

(** ** What is written, byte by byte *)

Definition picture_bytes (v : VP8) : list Z :=
  if bitI v then
    if bitM v then [Z.lor 0x80 (Z.land (Z.shiftr (PictureID v) 8) 0x7f); Z.land (PictureID v) 0xff]
    else [Z.land (PictureID v) 0xff]
  else [].
Definition wire (v : VP8) : list Z :=
  if bitI v || bitL v || bitT v || bitK v then
    Z.lor (FirstByte v) 0x80 :: xval v :: picture_bytes v ++ (if bitL v then [TL0PICIDX v] else []) ++
      (if bitT v || bitK v then [tid_keyidx_byte v] else [])
  else [Z.ldiff (FirstByte v) 0x80].

(** The fields fit where they are written. *)
Record vp8_ok (v : VP8) : Prop := {
  vo_first : 0 <= FirstByte v < 256;
  vo_pid : 0 <= PictureID v < 32768;
  vo_short : bitM v = false -> PictureID v < 128;
  vo_tl0 : 0 <= TL0PICIDX v < 256;
  vo_tid : 0 <= TID v < 4;
  vo_lt : bitL v = true -> bitT v = true }.

(** What a reader makes of it: the fields whose flags are off are not there. *)
Definition as_read (v : VP8) (next : Z) : VP8 :=
  let x := bitI v || bitL v || bitT v || bitK v in
  mkVP8 (if x then Z.lor (FirstByte v) 0x80 else Z.ldiff (FirstByte v) 0x80) (has_bits (FirstByte v) 0x10)
    (bitI v) (bitI v && bitM v) (if bitI v then PictureID v else 0) (bitL v) (if bitL v then TL0PICIDX v else 0)
    (bitT v) (if bitT v then TID v else 0) (bitT v && bitY v) (bitK v) (if bitK v then Z.land (KEYIDX v) 0x1f else 0)
    (Z.of_nat (length (wire v))) ((Z.land next 1 =? 0) && has_bits (FirstByte v) 0x10).

Lemma byte_all (P : Z -> bool) : forallb P (seqZ 0 256) = true -> forall b, 0 <= b < 256 -> P b = true.
Proof. rewrite forallb_forall. intros H b Hb. apply H. apply list_elem_of_In, elem_of_seqZ. lia. Qed.

Ltac by_bytes :=
  match goal with |- forall b, 0 <= b < 256 -> @?P b = true => apply (byte_all P); vm_compute; reflexivity end.

Lemma put_next pre n x : slice_set (pre ++ replicate (S n) 0) (Z.of_nat (length pre)) x = Some ((pre ++ [x]) ++ replicate n 0).
Proof.
  rewrite slice_set_in_range by (rewrite length_app, length_replicate; lia).
  rewrite Nat2Z.id, insert_app_r_alt, Nat.sub_diag by lia. simpl. by rewrite <- app_assoc.
Qed.

Definition opt_byte (b : bool) (x : Z) : list Z := if b then [x] else [].

Lemma write_picture_bytes v pre n : (length (picture_bytes v) <= n)%nat ->
  write_picture_id v (Z.of_nat (length pre)) (pre ++ replicate n 0) =
    Some (Z.of_nat (length (pre ++ picture_bytes v)), (pre ++ picture_bytes v) ++ replicate (n - length (picture_bytes v)) 0).
Proof.
  unfold write_picture_id, picture_bytes. intros Hn. destruct (bitI v); [|by rewrite app_nil_r, Nat.sub_0_r].
  destruct (bitM v); simpl in Hn.
  - destruct n as [|[|n]]; [lia..|]. rewrite put_next. simpl.
    replace (Z.of_nat (length pre) + 1) with (Z.of_nat (length (pre ++ [Z.lor 0x80 (Z.land (Z.shiftr (PictureID v) 8) 0x7f)])))
      by (rewrite length_app; simpl; lia).
    rewrite (put_next _ n). simpl. rewrite <- !app_assoc, Nat.sub_0_r, length_app. simpl. do 2 f_equal. lia.
  - destruct n as [|n]; [lia|]. rewrite put_next. simpl. rewrite Nat.sub_0_r, length_app. simpl. do 2 f_equal. lia.
Qed.

Lemma write_opt (b : bool) x pre n : (length (opt_byte b x) <= n)%nat ->
  (if b then buf ← slice_set (pre ++ replicate n 0) (Z.of_nat (length pre)) x; Some (Z.of_nat (length pre) + 1, buf)
   else Some (Z.of_nat (length pre), pre ++ replicate n 0)) =
  Some (Z.of_nat (length (pre ++ opt_byte b x)), (pre ++ opt_byte b x) ++ replicate (n - length (opt_byte b x)) 0).
Proof.
  intros Hn. destruct b; simpl in *; [|by rewrite app_nil_r, Nat.sub_0_r].
  destruct n as [|n]; [lia|]. rewrite put_next. simpl. rewrite Nat.sub_0_r, length_app. simpl. do 2 f_equal. lia.
Qed.

Lemma Marshal_wire v : Z.of_nat (length (wire v)) <= HeaderSize v -> Marshal v = Some (inr (wire v)).
Proof.
  intros Hn. unfold Marshal, MarshalTo. rewrite (proj2 (Z.ltb_ge _ _)) by lia.
  rewrite length_replicate, (proj2 (Z.ltb_ge _ _)) by lia. remember (Z.to_nat (HeaderSize v)) as n eqn:En.
  assert (Hw : (length (wire v) <= n)%nat) by lia. clear Hn En. revert Hw. unfold wire.
  destruct (bitI v || bitL v || bitT v || bitK v).
  - simpl. rewrite !length_app. intros Hw. destruct n as [|[|n]]; [lia..|].
    rewrite (put_next [] (S n) _ : slice_set (replicate (S (S n)) 0) 0 _ = _). simpl.
    pose proof (write_picture_bytes v [Z.lor (FirstByte v) 128; 0] n) as H1. simpl in H1. change (Z.of_nat 2) with 2 in H1. rewrite H1 by lia. clear H1. cbn [mbind option_bind].
    set (m := (n - length (picture_bytes v))%nat). unfold write_tl0.
    pose proof (write_opt (bitL v) (TL0PICIDX v) ([Z.lor (FirstByte v) 128; 0] ++ picture_bytes v) m) as H1. simpl in H1.
    unfold opt_byte in H1. rewrite H1 by (unfold m; lia). clear H1. cbn [mbind option_bind]. unfold write_tid_keyidx.
    set (k := (m - length (if bitL v then [TL0PICIDX v] else []))%nat).
    pose proof (write_opt (bitT v || bitK v) (tid_keyidx_byte v)
      (([Z.lor (FirstByte v) 128; 0] ++ picture_bytes v) ++ (if bitL v then [TL0PICIDX v] else [])) k) as H1. simpl in H1.
    unfold opt_byte in H1. rewrite H1 by (unfold k, m; lia). clear H1. cbn [mbind option_bind].
    rewrite slice_set_in_range by (simpl; rewrite !length_app; lia). simpl. do 2 f_equal.
    rewrite Nat2Z.id. simpl. do 2 f_equal. by rewrite take_app_length, <- app_assoc.
  - simpl. intros Hw. destruct n as [|n]; [lia|].
    rewrite (put_next [] n _ : slice_set (replicate (S n) 0) 0 _ = _). done.
Qed.

(** ** Reading back *)

Lemma bits_byte : forall b, 0 <= b < 256 ->
  (has_bits (Z.lor b 0x80) 0x80 && negb (has_bits (Z.ldiff b 0x80) 0x80) &&
   Bool.eqb (has_bits (Z.lor b 0x80) 0x10) (has_bits b 0x10) && Bool.eqb (has_bits (Z.ldiff b 0x80) 0x10) (has_bits b 0x10)) = true.
Proof. by_bytes. Qed.

Lemma bits_flags (i l t k : bool) :
  let x := Z.lor (Z.lor (if i then 0x80 else 0) (if l then 0x40 else 0)) (Z.lor (if t then 0x20 else 0) (if k then 0x10 else 0)) in
  has_bits x 0x80 = i /\ has_bits x 0x40 = l /\ has_bits x 0x20 = t /\ has_bits x 0x10 = k.
Proof. by destruct i, l, t, k. Qed.

Lemma pid_long p : 0 <= p < 32768 ->
  let hi := Z.lor 0x80 (Z.land (Z.shiftr p 8) 0x7f) in
  has_bits hi 0x80 = true /\ Z.land hi 0x7f * 256 + Z.land p 0xff = p.
Proof.
  intros Hp. assert (Hq : 0 <= Z.shiftr p 8 < 128).
  { rewrite Z.shiftr_div_pow2 by done. change (2 ^ 8) with 256.
    split; [apply Z.div_pos; lia|apply Z.div_lt_upper_bound; lia]. }
  assert (Hb : forall q, 0 <= q < 256 -> (128 <=? q) || (has_bits (Z.lor 0x80 (Z.land q 0x7f)) 0x80 && (Z.land (Z.lor 0x80 (Z.land q 0x7f)) 0x7f =? q)) = true).
  { by_bytes. }
  specialize (Hb (Z.shiftr p 8)). rewrite (proj2 (Z.leb_gt _ _)) in Hb by lia. simpl in Hb.
  destruct (andb_prop _ _ (Hb ltac:(lia))) as [H1 H2]. apply Z.eqb_eq in H2. split; [done|]. simpl. rewrite H2.
  rewrite Z.shiftr_div_pow2 by done. change 255 with (Z.ones 8). rewrite Z.land_ones by done.
  change (2 ^ 8) with 256. pose proof (Z.div_mod p 256). lia.
Qed.

Lemma pid_short p : 0 <= p < 128 -> has_bits (Z.land p 0xff) 0x80 = false /\ Z.land (Z.land p 0xff) 0x7f = p.
Proof.
  intros Hp. assert (Hb : forall q, 0 <= q < 256 -> (128 <=? q) || (negb (has_bits (Z.land q 0xff) 0x80) && (Z.land (Z.land q 0xff) 0x7f =? q)) = true).
  { by_bytes. }
  specialize (Hb p ltac:(lia)). rewrite (proj2 (Z.leb_gt _ _)) in Hb by lia. simpl in Hb. bools. done.
Qed.

Lemma tk_byte (t y k : bool) tid key : 0 <= tid < 4 ->
  let b := if t then Z.lor (Z.land (Z.shiftl tid 6) 0xff) (if y then 0x20 else 0) else 0 in
  let b := if k then Z.lor b (Z.land key 0x1f) else b in
  (if t then Z.shiftr (Z.land b 0xc0) 6 else 0) = (if t then tid else 0) /\ t && has_bits b 0x20 = t && y /\
  (if k then Z.land b 0x1f else 0) = (if k then Z.land key 0x1f else 0).
Proof.
  intros Ht. assert (Hk : 0 <= Z.land key 0x1f < 256).
  { change 0x1f with (Z.ones 5). rewrite Z.land_ones by done. pose proof (Z.mod_pos_bound key (2 ^ 5)). lia. }
  assert (Hi : Z.land (Z.land key 0x1f) 0x1f = Z.land key 0x1f) by by rewrite <- Z.land_assoc.
  set (q := Z.land key 0x1f) in *. clearbody q. assert (E : tid = 0 \/ tid = 1 \/ tid = 2 \/ tid = 3) by lia.
  assert (Hall : forall q, 0 <= q < 256 -> negb (Z.land q 0x1f =? q) || forallb (fun tid => forallb (fun '(t, y, k) =>
    let b := if t : bool then Z.lor (Z.land (Z.shiftl tid 6) 0xff) (if y : bool then 0x20 else 0) else 0 in
    let b := if k : bool then Z.lor b q else b in
    ((if t then Z.shiftr (Z.land b 0xc0) 6 else 0) =? (if t then tid else 0)) && Bool.eqb (t && has_bits b 0x20) (t && y) &&
    ((if k then Z.land b 0x1f else 0) =? (if k then q else 0)))
    [(true, true, true); (true, true, false); (true, false, true); (true, false, false);
     (false, true, true); (false, true, false); (false, false, true); (false, false, false)]) [0; 1; 2; 3] = true).
  { by_bytes. }
  specialize (Hall q Hk). rewrite (proj2 (Z.eqb_eq _ _) Hi) in Hall. cbn [negb orb] in Hall.
  rewrite forallb_forall in Hall. specialize (Hall tid ltac:(simpl; intuition)). rewrite forallb_forall in Hall.
  specialize (Hall (t, y, k) ltac:(destruct t, y, k; simpl; intuition)). cbv zeta in *.
  apply andb_prop in Hall as [Hall H3]. apply andb_prop in Hall as [H1 H2].
  apply Z.eqb_eq in H1, H3. apply Bool.eqb_prop in H2. done.
Qed.

Lemma Unmarshal_wire v next rest : vp8_ok v -> Unmarshal (Some (wire v ++ next :: rest)) = inr (as_read v next).
Proof.
  intros [Hf Hp Hs H0 Ht Hlt]. pose proof (bits_byte _ Hf) as Hb. apply andb_prop in Hb as [Hb Hb4]. apply andb_prop in Hb as [Hb Hb3].
  apply andb_prop in Hb as [Hb1 Hb2]. apply Bool.eqb_prop in Hb3, Hb4. apply negb_true_iff in Hb2.
  unfold as_read, wire. destruct (bitI v || bitL v || bitT v || bitK v) eqn:Hx.
  - unfold Unmarshal. cbn [app byte_at lookup list_lookup mbind result_mbind]. rewrite Hb1, Hb3.
    destruct (bits_flags (bitI v) (bitL v) (bitT v) (bitK v)) as (F1 & F2 & F3 & F4). unfold xval. rewrite F1, F2, F3, F4. clear F1 F2 F3 F4 Hb1 Hb2 Hb3 Hb4.
    rewrite <- !app_assoc.
    pose proof (pid_long _ Hp) as [G1 G2]. pose proof (pid_short (PictureID v)) as G3. cbv zeta in *.
    pose proof (tk_byte (bitT v) (bitY v) (bitK v) (TID v) (KEYIDX v) Ht) as (T1 & T2 & T3). fold (tid_keyidx_byte v) in T1, T2, T3.
    unfold picture_bytes. destruct (bitL v) eqn:EL; [rewrite (Hlt eq_refl) in *|];
      (destruct (bitI v) eqn:EI; [destruct (bitM v) eqn:EM|]); try destruct (bitT v) eqn:ET; destruct (bitK v) eqn:EK; try discriminate Hx;
      unfold read_picture_id, read_tl0, read_tid_keyidx, byte_at; simpl;
      rewrite ?G1, ?G2; try (destruct (G3 ltac:(specialize (Hs eq_refl); lia)) as [-> ->]); simpl;
      simpl in T1, T2, T3; rewrite ?T1, ?T2, ?T3; done.
  - unfold Unmarshal. cbn [app byte_at lookup list_lookup mbind result_mbind]. rewrite Hb2, Hb4.
    apply orb_false_iff in Hx as [Hx EK]. apply orb_false_iff in Hx as [Hx ET]. apply orb_false_iff in Hx as [EI EL].
    by rewrite EI, EL, ET, EK.
Qed.

(** ** Packets on the forwarding path

    The fields the forwarding path uses; [ep_vp8] is the payload descriptor when
    the parsed payload is one of VP8. *)
Record ExtPacket := mkExtPacket {
  ep_Temporal : Z; ep_ExtSequenceNumber : Z; ep_ExtTimestamp : Z; ep_SSRC : Z; ep_PayloadType : Z;
  ep_Payload : list Z; ep_vp8 : option VP8; ep_IsKeyFrame : bool; ep_IsOutOfOrder : bool }.

End Vp8.
Export Vp8.
