(* ===== verification/RtpMunger.v ===== *)
(** * Sequence numbers and timestamps of forwarded packets

    Model of pkg/sfu/rtpmunger.go of the media server: a subscriber gets the
    packets of one source after the other as one stream, without the packets that
    are dropped and with padding packets in between. Sequence numbers and
    timestamps are [uint64]. *)

From S2P Require Import Prelude RangeMap Vp8.
#[local] Open Scope Z_scope.

Module RtpMunger.

Inductive SequenceNumberOrdering := Contiguous | OutOfOrder | Gap | Duplicate.
Definition RtxGateWindow : Z := 2000.

Record TranslationParamsRTP := mkTpRTP { snOrdering : SequenceNumberOrdering; tp_SN : Z; tp_TS : Z }.
Record SnTs := mkSnTs { st_SN : Z; st_TS : Z }.

Inductive munger_error := OutOfOrderCacheMiss | PaddingOnlyPacket | DuplicatePacket | PaddingNotOnFrameBoundary.

Record RTPMunger := mkMunger {
  extHighestIncomingSN : Z; snRangeMap : RangeMap;
  extLastSN : Z; extSecondLastSN : Z; snOffset : Z;
  extLastTS : Z; extSecondLastTS : Z; tsOffset : Z;
  lastMarker : bool; secondLastMarker : bool;
  extRtxGateSn : Z; isInRtxGateRegion : bool }.

Definition NewRTPMunger : RTPMunger := mkMunger 0 (NewRangeMap 100) 0 0 0 0 0 0 false false 0 false.

(** RTPMungerState of the protocol package. *)
Record RTPMungerState := mkMungerState {
  ExtLastSequenceNumber : Z; ExtSecondLastSequenceNumber : Z;
  ExtLastTimestamp : Z; ExtSecondLastTimestamp : Z; LastMarker : bool; SecondLastMarker : bool }.

Definition GetState (r : RTPMunger) : RTPMungerState :=
  mkMungerState (extLastSN r) (extSecondLastSN r) (extLastTS r) (extSecondLastTS r) (lastMarker r) (secondLastMarker r).
Definition SeedState (s : RTPMungerState) (r : RTPMunger) : RTPMunger :=
  mkMunger (extHighestIncomingSN r) (snRangeMap r) (ExtLastSequenceNumber s) (ExtSecondLastSequenceNumber s) (snOffset r)
    (ExtLastTimestamp s) (ExtSecondLastTimestamp s) (tsOffset r) (LastMarker s) (SecondLastMarker s)
    (extRtxGateSn r) (isInRtxGateRegion r).

(** The setters of the fields that are assigned together. *)
Definition set_sns (highest : Z) (m : RangeMap) (lastSN secondSN : Z) (r : RTPMunger) : RTPMunger :=
  mkMunger highest m lastSN secondSN (snOffset r) (extLastTS r) (extSecondLastTS r) (tsOffset r)
    (lastMarker r) (secondLastMarker r) (extRtxGateSn r) (isInRtxGateRegion r).
Definition set_ts (lastTS secondTS offset : Z) (r : RTPMunger) : RTPMunger :=
  mkMunger (extHighestIncomingSN r) (snRangeMap r) (extLastSN r) (extSecondLastSN r) (snOffset r) lastTS secondTS offset
    (lastMarker r) (secondLastMarker r) (extRtxGateSn r) (isInRtxGateRegion r).
Definition set_markers (last second : bool) (r : RTPMunger) : RTPMunger :=
  mkMunger (extHighestIncomingSN r) (snRangeMap r) (extLastSN r) (extSecondLastSN r) (snOffset r)
    (extLastTS r) (extSecondLastTS r) (tsOffset r) last second (extRtxGateSn r) (isInRtxGateRegion r).
Definition set_gate (sn : Z) (inside : bool) (r : RTPMunger) : RTPMunger :=
  mkMunger (extHighestIncomingSN r) (snRangeMap r) (extLastSN r) (extSecondLastSN r) (snOffset r)
    (extLastTS r) (extSecondLastTS r) (tsOffset r) (lastMarker r) (secondLastMarker r) sn inside.

(** The offset of the next packet in order; a failed lookup gives 0 and a log line. *)
Definition updateSnOffset (r : RTPMunger) : RTPMunger :=
  let offset := match GetValue (wrap_uint64 (extHighestIncomingSN r + 1)) (snRangeMap r) with inr v => v | inl _ => 0 end in
  mkMunger (extHighestIncomingSN r) (snRangeMap r) (extLastSN r) (extSecondLastSN r) offset
    (extLastTS r) (extSecondLastTS r) (tsOffset r) (lastMarker r) (secondLastMarker r) (extRtxGateSn r) (isInRtxGateRegion r).

Definition SetLastSnTs (extPkt : ExtPacket) (r : RTPMunger) : RTPMunger :=
  let sn := ep_ExtSequenceNumber extPkt in
  let r := set_sns (wrap_uint64 (sn - 1)) (ClearAndResetValue sn 0 (snRangeMap r)) sn (wrap_uint64 (sn - 1)) r in
  let r := updateSnOffset r in
  set_ts (ep_ExtTimestamp extPkt) (ep_ExtTimestamp extPkt) 0 r.

Definition UpdateSnTsOffsets (extPkt : ExtPacket) (snAdjust tsAdjust : Z) (r : RTPMunger) : RTPMunger :=
  let sn := ep_ExtSequenceNumber extPkt in
  let m := ClearAndResetValue sn (wrap_uint64 (sn - extLastSN r - snAdjust)) (snRangeMap r) in
  let r := set_sns (wrap_uint64 (sn - 1)) m (extLastSN r) (extSecondLastSN r) r in
  let r := updateSnOffset r in
  set_ts (extLastTS r) (extSecondLastTS r) (wrap_uint64 (ep_ExtTimestamp extPkt - extLastTS r - tsAdjust)) r.

(** A failed exclusion leaves the map as it was, with a log line. *)
Definition exclude_highest (r : RTPMunger) : option RTPMunger :=
  x ← ExcludeRange (extHighestIncomingSN r) (wrap_uint64 (extHighestIncomingSN r + 1)) (snRangeMap r);
  Some (set_sns (extHighestIncomingSN r) (match x with inr m => m | inl _ => snRangeMap r end) (extLastSN r) (extSecondLastSN r) r).

(** [None] is a panic in the range map. *)
Definition PacketDropped (extPkt : ExtPacket) (r : RTPMunger) : option RTPMunger :=
  if negb (extHighestIncomingSN r =? ep_ExtSequenceNumber extPkt) then Some r else
  r ← exclude_highest r;
  let r := set_sns (extHighestIncomingSN r) (snRangeMap r) (extSecondLastSN r) (extSecondLastSN r) r in
  let r := updateSnOffset r in
  let r := set_ts (extSecondLastTS r) (extSecondLastTS r) (tsOffset r) r in
  Some (set_markers (secondLastMarker r) (secondLastMarker r) r).

(** A packet that moves the stream forward. *)
Definition forward_in_order (extPkt : ExtPacket) (marker : bool) (ordering : SequenceNumberOrdering) (r : RTPMunger)
  : TranslationParamsRTP * RTPMunger :=
  let extMungedSN := wrap_uint64 (ep_ExtSequenceNumber extPkt - snOffset r) in
  let extMungedTS := wrap_uint64 (ep_ExtTimestamp extPkt - tsOffset r) in
  let r := set_sns (ep_ExtSequenceNumber extPkt) (snRangeMap r) extMungedSN (extLastSN r) r in
  let r := set_ts extMungedTS (extLastTS r) (tsOffset r) r in
  let r := set_markers marker (lastMarker r) r in
  let r := if ep_IsKeyFrame extPkt then set_gate extMungedSN true r else r in
  let r := if isInRtxGateRegion r && (RtxGateWindow <? wrap_uint64 (extMungedSN - extRtxGateSn r))
           then set_gate (extRtxGateSn r) false r else r in
  (mkTpRTP ordering extMungedSN extMungedTS, r).

(** A late packet. *)
Definition forward_late (extPkt : ExtPacket) (r : RTPMunger) : result munger_error TranslationParamsRTP :=
  match GetValue (ep_ExtSequenceNumber extPkt) (snRangeMap r) with
  | inl _ => inl OutOfOrderCacheMiss
  | inr offset =>
      let extSequenceNumber := wrap_uint64 (ep_ExtSequenceNumber extPkt - offset) in
      if extLastSN r <=? extSequenceNumber then inl OutOfOrderCacheMiss
      else inr (mkTpRTP OutOfOrder extSequenceNumber (wrap_uint64 (ep_ExtTimestamp extPkt - tsOffset r)))
  end.

Definition UpdateAndGetSnTs (extPkt : ExtPacket) (marker : bool) (r : RTPMunger)
  : option (result munger_error TranslationParamsRTP * RTPMunger) :=
  let diff := wrap_int64 (ep_ExtSequenceNumber extPkt - extHighestIncomingSN r) in
  if ((diff =? 1) && negb (Z.of_nat (length (ep_Payload extPkt)) =? 0)) || (1 <? diff) then
    let '(tp, r) := forward_in_order extPkt marker (if 1 <? diff then Gap else Contiguous) r in
    Some (inr tp, r)
  else if diff <? 0 then Some (forward_late extPkt r, r)
  else if diff =? 1 then
    r ← exclude_highest (set_sns (ep_ExtSequenceNumber extPkt) (snRangeMap r) (extLastSN r) (extSecondLastSN r) r);
    Some (inl PaddingOnlyPacket, updateSnOffset r)
  else Some (inl DuplicatePacket, r).

Definition FilterRTX (nacks : list Z) (r : RTPMunger) : list Z :=
  if negb (isInRtxGateRegion r) then nacks
  else filter (fun sn => (sn - extRtxGateSn r mod 2 ^ 16) mod 2 ^ 16 < 2 ^ 15) nacks.

(** The padding packets from index [i] on; arithmetic on counts and rates is 32 bits wide. *)
Fixpoint padding_vals (n : nat) (i clockRate frameRate : Z) (useLastTSForFirst : bool) (extRtpTimestamp : Z)
    (sn lastTS lastTS0 : Z) : list SnTs * (Z * Z) :=
  match n with
  | O => ([], (sn, lastTS))
  | S n =>
      let sn := wrap_uint64 (sn + 1) in
      let off := if useLastTSForFirst then 1 else 0 in
      let '(ts, lastTS) :=
        if frameRate =? 0 then (lastTS0, lastTS) else
        if useLastTSForFirst && (i =? 0) then (lastTS0, lastTS) else
        let frames := (((i + 1 - off) mod 2 ^ 32 * clockRate) mod 2 ^ 32 + frameRate - 1) mod 2 ^ 32 / frameRate in
        let ets := wrap_uint64 (extRtpTimestamp + frames) in
        let ets := if wrap_int64 (ets - lastTS) <=? 0 then wrap_uint64 (lastTS + 1) else ets in
        (ets, ets) in
      let '(vals, last) := padding_vals n (i + 1) clockRate frameRate useLastTSForFirst extRtpTimestamp sn lastTS lastTS0 in
      (mkSnTs sn ts :: vals, last)
  end.

(** A negative count panics. *)
Definition UpdateAndGetPaddingSnTs (num clockRate frameRate : Z) (forceMarker : bool) (extRtpTimestamp : Z) (r : RTPMunger)
  : option (result munger_error (list SnTs) * RTPMunger) :=
  if num =? 0 then Some (inr [], r) else
  if negb (lastMarker r) && negb forceMarker then Some (inl PaddingNotOnFrameBoundary, r) else
  if num <? 0 then None else
  let useLastTSForFirst := negb (lastMarker r) in
  let '(vals, (lastSN, lastTS)) :=
    padding_vals (Z.to_nat num) 0 clockRate frameRate useLastTSForFirst extRtpTimestamp (extLastSN r) (extLastTS r) (extLastTS r) in
  m ← DecValue (extHighestIncomingSN r) (wrap_uint64 num) (snRangeMap r);
  let r := updateSnOffset (set_sns (extHighestIncomingSN r) m lastSN (wrap_uint64 (lastSN - 1)) r) in
  let second := match vals !! (length vals - 2)%nat with
                | Some v => if (length vals =? 1)%nat then extLastTS r else st_TS v
                | None => extLastTS r
                end in
  let r := set_ts lastTS second (wrap_uint64 (tsOffset r - wrap_uint64 (lastTS - extLastTS r))) r in
  Some (inr vals, set_markers (if forceMarker then true else lastMarker r) (lastMarker r) r).

Definition IsOnFrameBoundary (r : RTPMunger) : bool := lastMarker r.
Definition GetTSOffset (r : RTPMunger) : Z := tsOffset r.

(** ** A stream: what is sent, and where it comes from *)

(** A packet of a source (counted by the switches before it) by its incoming
    sequence number, or padding. *)
Inductive item := Pkt (epoch : nat) (sn : Z) | Pad (n : nat).

(** Whether the last sequence number is used up: not after the start; once
    padding went out in that state the next packet has to come with a switch. *)
Inductive phase := Unused | Aligned | Stale.

Record MState := mkMState { ms_r : RTPMunger; ms_phase : phase; ms_epoch : nat; ms_sent : list (item * Z) }.

Inductive mevent :=
  | ESwitch (p : ExtPacket) (tsAdjust : Z)
  | EPacket (p : ExtPacket) (marker drop : bool)
  | EPadding (num clockRate frameRate : Z) (forceMarker : bool) (extRtpTimestamp : Z).

Definition set_r (r : RTPMunger) (s : MState) : MState := mkMState r (ms_phase s) (ms_epoch s) (ms_sent s).
Definition send (i : item) (sn : Z) (s : MState) : MState := mkMState (ms_r s) (ms_phase s) (ms_epoch s) (ms_sent s ++ [(i, sn)]).

(** The packet as the forwarder treats it: a packet it decides to drop is taken
    back when it came in order without a gap, and is not sent. *)
Definition packet_step (p : ExtPacket) (marker drop : bool) (s : MState) : option MState :=
  '(res, r) ← UpdateAndGetSnTs p marker (ms_r s);
  match res with
  | inl _ => Some (set_r r s)
  | inr tp =>
      match snOrdering tp, drop with
      | Contiguous, true => r ← PacketDropped p r; Some (set_r r s)
      | OutOfOrder, true => Some (set_r r s)
      | OutOfOrder, false => Some (send (Pkt (ms_epoch s) (ep_ExtSequenceNumber p)) (tp_SN tp) (set_r r s))
      | _, true => Some (mkMState r Aligned (ms_epoch s) (ms_sent s))
      | _, false => Some (send (Pkt (ms_epoch s) (ep_ExtSequenceNumber p)) (tp_SN tp) (mkMState r Aligned (ms_epoch s) (ms_sent s)))
      end
  end.

Definition pad_items (base : nat) (vals : list SnTs) : list (item * Z) := imap (fun k v => (Pad (base + k), st_SN v)) vals.
#[global] Arguments pad_items : simpl never.

Definition mstep (e : mevent) (s : MState) : option MState :=
  match e with
  | ESwitch p tsAdjust => Some (mkMState (UpdateSnTsOffsets p 1 tsAdjust (ms_r s)) Aligned (S (ms_epoch s)) (ms_sent s))
  | EPacket p marker drop => packet_step p marker drop s
  | EPadding num clockRate frameRate force ts =>
      '(res, r) ← UpdateAndGetPaddingSnTs num clockRate frameRate force ts (ms_r s);
      match res with
      | inr (v :: vals) =>
          Some (mkMState r (match ms_phase s with Aligned => Aligned | _ => Stale end) (ms_epoch s)
            (ms_sent s ++ pad_items (length (ms_sent s)) (v :: vals)))
      | _ => Some (set_r r s)
      end
  end.

(** Extended numbers stay far from the end of 64 bits; a packet of the same
    source does not follow padding that was sent before the source's first packet. *)
Definition sn_limit : Z := 2 ^ 61.
Definition fits (sn : Z) : bool := (1 <=? sn) && (sn <? sn_limit).
Definition allowed (e : mevent) (s : MState) : bool :=
  (extLastSN (ms_r s) <? sn_limit) &&
  match e with
  | ESwitch p _ => fits (ep_ExtSequenceNumber p)
  | EPacket p _ _ => fits (ep_ExtSequenceNumber p) && match ms_phase s with Stale => false | _ => true end
  | EPadding num _ _ _ _ => (0 <=? num) && (num <? sn_limit)
  end.

Fixpoint mrun (es : list mevent) (s : MState) : option MState :=
  match es with
  | [] => Some s
  | e :: es => if allowed e s then s ← mstep e s; mrun es s else None
  end.

(** The stream starts with the first packet, or with a made-up one. *)
Definition mstart (p : ExtPacket) (r : RTPMunger) : MState := mkMState (SetLastSnTs p r) Unused 0 [].

(** ** The invariant *)

(** What the next packet in order is mapped beyond, and everything sent is below. *)
Definition pending (ph : phase) : Z := match ph with Aligned => 1 | _ => 0 end.
Definition top (ph : phase) (lastSN : Z) : Z := match ph with Unused => lastSN - 1 | _ => lastSN end.

(** [g] is where each incoming number of the source has been placed. *)
Record placed (s : MState) (g : Z -> option Z) : Prop := {
  pl_range : forall k o, g k = Some o -> k <= extHighestIncomingSN (ms_r s) /\ o <= top (ms_phase s) (extLastSN (ms_r s));
  pl_mono : forall k1 k2 o1 o2, g k1 = Some o1 -> g k2 = Some o2 -> k1 < k2 -> o1 < o2;
  pl_map : forall k v, k <= extHighestIncomingSN (ms_r s) -> value_at k (snRangeMap (ms_r s)) = Some v -> g k = Some (wrap_uint64 (k - v));
  pl_sent : forall i o, (i, o) ∈ ms_sent s -> o <= top (ms_phase s) (extLastSN (ms_r s)) /\
    match i with
    | Pkt e k => (e < ms_epoch s)%nat /\ (forall k, g k <> Some o) \/ e = ms_epoch s /\ g k = Some o
    | Pad n => (n < length (ms_sent s))%nat /\ forall k, g k <> Some o
    end }.

Definition unique_sent (l : list (item * Z)) : Prop := forall i j o o', (i, o) ∈ l -> (j, o') ∈ l -> i = j <-> o = o'.

Record munger_ok (s : MState) : Prop := {
  mo_map : rm_ok (snRangeMap (ms_r s));
  mo_high : 0 <= extHighestIncomingSN (ms_r s) < sn_limit;
  mo_last : 0 <= extLastSN (ms_r s) < two63;
  mo_open : open_start (snRangeMap (ms_r s)) <= extHighestIncomingSN (ms_r s) + 1;
  mo_offset : snOffset (ms_r s) = open_value (snRangeMap (ms_r s));
  mo_next : wrap_uint64 (extHighestIncomingSN (ms_r s) + 1 - snOffset (ms_r s)) = extLastSN (ms_r s) + pending (ms_phase s);
  mo_placed : exists g, placed s g;
  mo_unique : unique_sent (ms_sent s);
  mo_unused : ms_phase s = Unused ->
    ms_sent s = [] /\ forall k, k <= extHighestIncomingSN (ms_r s) -> value_at k (snRangeMap (ms_r s)) = None }.

(** ** Arithmetic *)

Lemma wrap_add a b c : wrap_uint64 a = c -> 0 <= c + b < two64 -> wrap_uint64 (a + b) = c + b.
Proof.
  intros <- H. unfold wrap_uint64 in *. rewrite <- Zplus_mod_idemp_l. by apply Z.mod_small.
Qed.

Lemma wrap_sub_wrap a b : wrap_uint64 (a - wrap_uint64 b) = wrap_uint64 (a - b).
Proof. unfold wrap_uint64. by rewrite Zminus_mod_idemp_r. Qed.

Lemma wrap_u64_id z : 0 <= z < two63 -> wrap_uint64 z = z.
Proof. intros. apply wrap_uint64_small. unfold two63, two64 in *. lia. Qed.

Lemma diff_signed a b : 0 <= a < two63 -> 0 <= b < two63 -> wrap_int64 (a - b) = a - b.
Proof. intros. apply wrap_int64_small. unfold is_int64, two63 in *. lia. Qed.

Lemma fits_range sn : fits sn = true -> 1 <= sn < sn_limit.
Proof. unfold fits. intros H. bools. lia. Qed.

Lemma limit_small z : 0 <= z -> z < sn_limit -> 0 <= z < two63.
Proof. unfold sn_limit, two63. lia. Qed.

(** The offset of the next packet is that of the open range. *)
Lemma updateSnOffset_open r : rm_ok (snRangeMap r) -> 0 <= extHighestIncomingSN r < two63 - 1 ->
  open_start (snRangeMap r) <= extHighestIncomingSN r + 1 -> snOffset (updateSnOffset r) = open_value (snRangeMap r).
Proof.
  intros Hm Hh Ho. unfold updateSnOffset. simpl. rewrite wrap_u64_id by lia.
  assert (E : GetValue (extHighestIncomingSN r + 1) (snRangeMap r) = inr (open_value (snRangeMap r))); [|by rewrite E].
  apply value_at_settled; [done|lia|by apply value_at_open].
Qed.

Lemma padding_sns n i c f u ts sn lt l0 : 0 <= sn -> sn + Z.of_nat n < two64 ->
  st_SN <$> (padding_vals n i c f u ts sn lt l0).1 = seqZ (sn + 1) (Z.of_nat n) /\
  (padding_vals n i c f u ts sn lt l0).2.1 = sn + Z.of_nat n.
Proof.
  revert i sn lt. induction n as [|n IH]; intros i sn lt H0 Hn; [by rewrite Z.add_0_r|].
  cbn [padding_vals]. rewrite (wrap_uint64_small (sn + 1)) by lia.
  match goal with |- context [let '(ts, lastTS) := ?x in _] => destruct x as [t lt'] end.
  specialize (IH (i + 1) (sn + 1) lt' ltac:(lia) ltac:(lia)). destruct (padding_vals n _ _ _ _ _ _ _ _) as [vals last]. csimpl in *.
  destruct IH as [IH1 IH2]. rewrite IH1, IH2. split; [|lia]. rewrite (seqZ_cons (sn + 1)) by lia. f_equal. f_equal; lia.
Qed.

(** ** Every operation keeps the invariant *)

Lemma mstart_ok p r : rm_ok (snRangeMap r) -> fits (ep_ExtSequenceNumber p) = true -> munger_ok (mstart p r).
Proof.
  intros Hr Hp%fits_range. unfold mstart, SetLastSnTs. set (sn := ep_ExtSequenceNumber p) in *. clearbody sn.
  pose proof (limit_small sn ltac:(lia) ltac:(lia)) as Hs.
  assert (Hw : wrap_uint64 (sn - 1) = sn - 1) by (apply wrap_u64_id; lia). rewrite Hw.
  assert (Hm : rm_ok (ClearAndResetValue sn 0 (snRangeMap r))) by (apply ClearAndResetValue_ok; [done..|by unfold two64]).
  pose proof (updateSnOffset_open (set_sns (sn - 1) (ClearAndResetValue sn 0 (snRangeMap r)) sn (sn - 1) r)) as Ho.
  cbn [snRangeMap extHighestIncomingSN set_sns] in Ho. specialize (Ho Hm). unfold open_start in Ho. simpl in Ho. specialize (Ho ltac:(lia) ltac:(lia)).
  split; simpl; try done; try lia.
  - unfold open_start. simpl. lia.
  - rewrite Ho, Z.sub_add. unfold open_value. simpl. rewrite Z.sub_0_r. rewrite wrap_u64_id by lia. lia.
  - exists (fun _ => None). split; simpl; try done.
    + intros k v Hk. unfold value_at, lookup. simpl. by rewrite (proj2 (Z.ltb_lt _ _)) by lia.
    + by intros i o Hi%elem_of_nil.
  - by intros i j o o' Hi%elem_of_nil.
  - intros _. split; [done|]. intros k Hk. unfold value_at, lookup. simpl. by rewrite (proj2 (Z.ltb_lt _ _)) by lia.
Qed.

(** What stays, and what the next number is, after a switch. *)
Lemma switch_ok p ts s : munger_ok s -> allowed (ESwitch p ts) s = true ->
  forall s', mstep (ESwitch p ts) s = Some s' -> munger_ok s'.
Proof.
  intros [Hm Hh HL Ho Hoff Hn (g & [Hgr Hgm Hgv Hgs]) Hu Hun] Ha s' [= <-]. unfold allowed in Ha. bools.
  match goal with H : fits _ = true |- _ => apply fits_range in H as Hsn end.
  unfold UpdateSnTsOffsets. set (sn := ep_ExtSequenceNumber p) in *. clearbody sn. pose proof (limit_small sn ltac:(lia) ltac:(lia)) as Hs.
  set (v := wrap_uint64 (sn - extLastSN (ms_r s) - 1)). assert (Hv : 0 <= v < two64) by apply wrap_uint64_range.
  assert (Hw : wrap_uint64 (sn - 1) = sn - 1) by (apply wrap_u64_id; lia). rewrite Hw.
  set (m := ClearAndResetValue sn v (snRangeMap (ms_r s))).
  assert (Hm' : rm_ok m) by by apply ClearAndResetValue_ok.
  pose proof (updateSnOffset_open (set_sns (sn - 1) m (extLastSN (ms_r s)) (extSecondLastSN (ms_r s)) (ms_r s)) Hm') as Hsn_off.
  simpl in Hsn_off. specialize (Hsn_off ltac:(lia)). unfold open_start in Hsn_off. simpl in Hsn_off. specialize (Hsn_off ltac:(lia)).
  split; simpl; try done; try lia.
  - unfold open_start. simpl. lia.
  - rewrite Hsn_off, Z.sub_add. unfold open_value. simpl. unfold v. rewrite wrap_sub_wrap.
    replace (sn - (sn - extLastSN (ms_r s) - 1)) with (extLastSN (ms_r s) + 1) by lia.
    apply wrap_uint64_small. unfold two63, two64 in *. lia.
  - exists (fun _ => None). split; simpl; try done.
    + intros k w Hk. unfold value_at, lookup. simpl. by rewrite (proj2 (Z.ltb_lt _ _)) by lia.
    + intros i o Hi. apply Hgs in Hi as [Hi1 Hi2]. split; [unfold top in Hi1; destruct (ms_phase s); lia|].
      destruct i as [e k|n]; [left|split; [apply Hi2|done]]. split; [|done]. destruct Hi2 as [[? _]|[-> _]]; lia.
Qed.

(** The new numbers are above all there were. *)
Lemma unique_app l l' b : unique_sent l -> (forall i o, (i, o) ∈ l -> o <= b) -> unique_sent l' ->
  (forall i o, (i, o) ∈ l' -> b < o) -> (forall i o o', (i, o) ∈ l -> (i, o') ∈ l' -> False) -> unique_sent (l ++ l').
Proof.
  intros Hl Hb Hl' Hb' Hd i j o o' [Hi|Hi]%elem_of_app [Hj|Hj]%elem_of_app; [by apply Hl| | |by apply Hl'].
  - pose proof (Hb _ _ Hi). pose proof (Hb' _ _ Hj). split; [intros ->; exfalso; eauto|lia].
  - pose proof (Hb _ _ Hj). pose proof (Hb' _ _ Hi). split; [intros ->; exfalso; eauto|lia].
Qed.

Lemma unique_one i o : unique_sent [(i, o)].
Proof. intros j k a b [= -> ->]%list_elem_of_singleton [= -> ->]%list_elem_of_singleton. done. Qed.

Lemma padding_ok n c f force ts s : munger_ok s -> allowed (EPadding n c f force ts) s = true ->
  exists s', mstep (EPadding n c f force ts) s = Some s' /\ munger_ok s'.
Proof.
  intros Hok Ha. pose proof Hok as [Hm Hh HL Ho Hoff Hn (g & [Hgr Hgm Hgv Hgs]) Hu Hun]. unfold allowed in Ha. bools.
  unfold mstep, UpdateAndGetPaddingSnTs. destruct (Z.eqb_spec n 0) as [->|Hn0]; [eexists; split; [done|]; by destruct s|].
  destruct (_ && _); [eexists; split; [done|]; by destruct s|]. rewrite (proj2 (Z.ltb_ge n 0)) by lia.
  destruct (padding_sns (Z.to_nat n) 0 c f (negb (lastMarker (ms_r s))) ts (extLastSN (ms_r s)) (extLastTS (ms_r s)) (extLastTS (ms_r s))) as [Hv Hl].
  { lia. } { unfold sn_limit, two64 in *. lia. }
  rewrite Z2Nat.id in Hv, Hl by lia. destruct (padding_vals _ _ _ _ _ _ _ _ _) as [vals [lsn lts]]. simpl in Hv, Hl. subst lsn.
  destruct (DecValue_spec (extHighestIncomingSN (ms_r s)) (wrap_uint64 n) (snRangeMap (ms_r s)) Hm) as (m & -> & Hm' & Hk & Ho' & Hv').
  { unfold sn_limit, two63 in *. lia. } { done. }
  simpl. rewrite wrap_sub_wrap in Hv'.
  pose proof (updateSnOffset_open (set_sns (extHighestIncomingSN (ms_r s)) m (extLastSN (ms_r s) + n) (wrap_uint64 (extLastSN (ms_r s) + n - 1)) (ms_r s)) Hm') as Hoff'.
  simpl in Hoff'. specialize (Hoff' ltac:(unfold sn_limit, two63 in *; lia) Ho').
  destruct vals as [|v0 vals]; [exfalso; apply (f_equal length) in Hv; rewrite length_seqZ in Hv; simpl in Hv; lia|].
  eexists. split; [done|]. set (vs := v0 :: vals) in *. clearbody vs. set (ph := match ms_phase s with Aligned => Aligned | _ => Stale end).
  assert (Hpend : pending ph = pending (ms_phase s)) by by destruct (ms_phase s).
  assert (Htop : top (ms_phase s) (extLastSN (ms_r s)) <= extLastSN (ms_r s)) by (destruct (ms_phase s); simpl; lia).
  assert (Htop' : top ph (extLastSN (ms_r s) + n) = extLastSN (ms_r s) + n) by by destruct (ms_phase s).
  assert (Hnew : forall i o, (i, o) ∈ pad_items (length (ms_sent s)) vs ->
    extLastSN (ms_r s) < o <= extLastSN (ms_r s) + n /\ exists k, i = Pad (length (ms_sent s) + k) /\ o = extLastSN (ms_r s) + 1 + Z.of_nat k /\ (k < length vs)%nat).
  { intros i o (k & v & [= -> ->] & Hk')%elem_of_lookup_imap. assert (Hk2 : (st_SN <$> vs) !! k = Some (st_SN v)) by by rewrite list_lookup_fmap, Hk'.
    rewrite Hv in Hk2. apply lookup_seqZ in Hk2 as [Hk2 Hk3]. split; [lia|]. exists k. split_and!; [done|lia|]. by eapply lookup_lt_Some. }
  set (pads := pad_items _ vs) in *. assert (Hlen : length (ms_sent s ++ pads) = (length (ms_sent s) + length vs)%nat) by (unfold pads, pad_items; by rewrite length_app, length_imap). clearbody pads.
  split; simpl; try done; try lia.
  - unfold sn_limit, two63 in *. lia.
  - rewrite Hoff', Hv', wrap_sub_wrap, Hpend, <- Hoff.
    replace (extHighestIncomingSN (ms_r s) + 1 - (snOffset (ms_r s) - n)) with (extHighestIncomingSN (ms_r s) + 1 - snOffset (ms_r s) + n) by lia.
    erewrite wrap_add; [|exact Hn|]; [lia|]. unfold sn_limit, two64, two63 in *. destruct (ms_phase s); simpl; lia.
  - exists g. split; simpl; rewrite ?Htop'; try done.
    + intros k o E. apply Hgr in E as [? ?]. split; [done|lia].
    + intros k v Hk1 E. apply Hgv; [done|]. by apply (Hk k).
    + intros i o [Hi|Hi]%elem_of_app.
      * apply Hgs in Hi as [Hi1 Hi2]. split; [lia|]. destruct i; [done|]. simpl. rewrite Hlen. split; [|apply Hi2]. destruct Hi2; lia.
      * apply Hnew in Hi as (? & k & -> & -> & ?). split; [lia|]. simpl. rewrite Hlen. split; [lia|]. intros k' E. apply Hgr in E as [_ E]. lia.
  - apply (unique_app _ _ (extLastSN (ms_r s))); try done.
    + intros i o Hi. apply Hgs in Hi as [Hi _]. lia.
    + intros i j o o' (? & k & -> & -> & ?)%Hnew (? & k' & -> & -> & ?)%Hnew. split; [intros [= ?]; lia|]. intros E. f_equal. lia.
    + intros i o Hi%Hnew. lia.
    + intros i o o' Hi (? & k & -> & _)%Hnew. apply Hgs in Hi as (_ & Hi & _). lia.
  - by destruct (ms_phase s).
Qed.

Lemma exclude_highest_ok r : rm_ok (snRangeMap r) -> 0 <= extHighestIncomingSN r < sn_limit ->
  open_start (snRangeMap r) <= extHighestIncomingSN r ->
  exists m, exclude_highest r = Some (set_sns (extHighestIncomingSN r) m (extLastSN r) (extSecondLastSN r) r) /\ rm_ok m /\
    kept_to (extHighestIncomingSN r) (snRangeMap r) m /\ value_at (extHighestIncomingSN r) m = None /\
    open_start m = extHighestIncomingSN r + 1 /\ open_value m = wrap_uint64 (open_value (snRangeMap r) + 1).
Proof.
  intros Hm Hh Ho. unfold exclude_highest. rewrite wrap_u64_id by (unfold sn_limit, two63 in *; lia).
  destruct (ExcludeRange_spec (extHighestIncomingSN r) (extHighestIncomingSN r + 1) (snRangeMap r) Hm) as (m & -> & H1 & H2 & H3 & H4 & H5);
    [lia|unfold sn_limit, two63 in *; lia|done|].
  simpl. exists m. replace (extHighestIncomingSN r + 1 - 1) with (extHighestIncomingSN r) in H2 by lia.
  replace (extHighestIncomingSN r + 1 - extHighestIncomingSN r) with 1 in H5 by lia. split_and!; try done. apply H3. lia.
Qed.

(** A packet that leaves the stream as it is but for its own number [sn], which
    is taken out: one without payload, or one that is dropped. *)
Lemma removed_ok s r sn m : munger_ok s -> sn = extHighestIncomingSN (ms_r s) + 1 -> sn < sn_limit ->
  rm_ok m -> kept_to sn (snRangeMap (ms_r s)) m -> value_at sn m = None -> open_start m = sn + 1 ->
  open_value m = wrap_uint64 (open_value (snRangeMap (ms_r s)) + 1) ->
  extHighestIncomingSN r = sn -> snRangeMap r = m -> extLastSN r = extLastSN (ms_r s) -> snOffset r = open_value m ->
  munger_ok (set_r r s).
Proof.
  intros [Hm Hh HL Ho Hoff Hn (g & [Hgr Hgm Hgv Hgs]) Hu Hun] Esn Hsn Hm' Hk Hnone Ho' Hv' Er1 Er2 Er3 Er4.
  split; simpl; rewrite ?Er1, ?Er2, ?Er3, ?Er4; try done; try lia.
  - rewrite Hv', wrap_sub_wrap, <- Hoff.
    replace (sn + 1 - (snOffset (ms_r s) + 1)) with (extHighestIncomingSN (ms_r s) + 1 - snOffset (ms_r s)) by lia. done.
  - exists g. split; simpl; rewrite ?Er1, ?Er2, ?Er3; try done.
    + intros k o E. apply Hgr in E. lia.
    + intros k v Hk1 E. destruct (decide (k = sn)) as [->|]; [by rewrite Hnone in E|]. apply Hgv; [lia|]. by apply (Hk k).
  - intros Eu. destruct (Hun Eu) as [? Hnv]. split; [done|]. intros k Hk1. destruct (value_at k m) as [v|] eqn:E; [|done].
    destruct (decide (k = sn)) as [->|]; [by rewrite Hnone in E|]. rewrite <- (Hnv k) by lia. symmetry. by apply (Hk k).
Qed.

(** The numbers up to [sn] get their places. *)
Lemma advanced_placed s r sn o g : munger_ok s -> placed s g -> extHighestIncomingSN (ms_r s) < sn < sn_limit ->
  extLastSN (ms_r s) < sn_limit -> ms_phase s <> Stale ->
  extHighestIncomingSN r = sn -> snRangeMap r = snRangeMap (ms_r s) -> extLastSN r = o ->
  o = wrap_uint64 (sn - snOffset (ms_r s)) ->
  o = extLastSN (ms_r s) + pending (ms_phase s) + (sn - extHighestIncomingSN (ms_r s) - 1) /\
  exists g', placed (mkMState r Aligned (ms_epoch s) (ms_sent s)) g' /\ g' sn = Some o.
Proof.
  intros [Hm Hh HL Ho Hoff Hn _ Hu Hun] [Hgr Hgm Hgv Hgs] Hsn HL2 Hph Er1 Er2 Er3 Eo. set (h := extHighestIncomingSN (ms_r s)) in *.
  set (base := extLastSN (ms_r s) + pending (ms_phase s)).
  assert (Hpl : forall k, h < k <= sn -> wrap_uint64 (k - snOffset (ms_r s)) = base + (k - h - 1)).
  { intros k Hk. replace (k - snOffset (ms_r s)) with (h + 1 - snOffset (ms_r s) + (k - h - 1)) by lia. apply wrap_add; [done|].
    unfold base. unfold sn_limit, two64 in *. destruct (ms_phase s); simpl; lia. }
  assert (Hb : top (ms_phase s) (extLastSN (ms_r s)) = base - 1) by (unfold base; destruct (ms_phase s); simpl; [lia..|done]).
  rewrite Hpl in Eo by lia. split; [done|].
  exists (fun k => if k <=? h then g k else if k <=? sn then Some (base + (k - h - 1)) else None). split.
  - split; simpl; rewrite ?Er1, ?Er2, ?Er3.
    + intros k v. destruct (Z.leb_spec k h) as [?|?]; [intros E%Hgr; lia|].
      destruct (Z.leb_spec k sn); intros; simplify_eq. lia.
    + intros k1 k2 o1 o2. destruct (Z.leb_spec k1 h), (Z.leb_spec k2 h); [by apply Hgm|..].
      * intros E1%Hgr. destruct (Z.leb_spec k2 sn); intros; simplify_eq. lia.
      * destruct (Z.leb_spec k1 sn); intros; simplify_eq. lia.
      * destruct (Z.leb_spec k1 sn), (Z.leb_spec k2 sn); intros; simplify_eq. lia.
    + intros k v Hk E. destruct (Z.leb_spec k h) as [?|?]; [by apply Hgv|]. rewrite (proj2 (Z.leb_le k sn)) by lia.
      rewrite value_at_open in E by (done || lia). simplify_eq. rewrite <- Hoff, Hpl by lia. done.
    + intros i v Hi. apply Hgs in Hi as [Hi1 Hi2]. split; [lia|].
      assert (Hnew : (forall k, g k <> Some v) -> forall k, (if k <=? h then g k else if k <=? sn then Some (base + (k - h - 1)) else None) <> Some v).
      { intros H k. destruct (Z.leb_spec k h); [apply H|]. destruct (Z.leb_spec k sn); [|done]. intros [= ?]. lia. }
      destruct i as [e k|n]; simpl; [|destruct Hi2; eauto].
      destruct Hi2 as [[? ?]|[-> E]]; [left; eauto|right]. split; [done|]. pose proof (Hgr _ _ E) as [? _].
      by rewrite (proj2 (Z.leb_le k h)) by done.
  - rewrite (proj2 (Z.leb_gt sn h)), (proj2 (Z.leb_le sn sn)) by lia. by rewrite Eo.
Qed.

(** What [forward_in_order] changes: the gate aside, the numbers it gives out. *)
Lemma forward_in_order_facts p mk ord r : let '(tp, r') := forward_in_order p mk ord r in
  tp = mkTpRTP ord (wrap_uint64 (ep_ExtSequenceNumber p - snOffset r)) (wrap_uint64 (ep_ExtTimestamp p - tsOffset r)) /\
  extHighestIncomingSN r' = ep_ExtSequenceNumber p /\ snRangeMap r' = snRangeMap r /\
  extLastSN r' = tp_SN tp /\ extSecondLastSN r' = extLastSN r /\ snOffset r' = snOffset r.
Proof. unfold forward_in_order. cbv zeta. destruct (ep_IsKeyFrame p); simpl; by case_match. Qed.

Lemma unique_send l i o : unique_sent l -> (forall j v, (j, v) ∈ l -> j = i <-> v = o) -> unique_sent (l ++ [(i, o)]).
Proof.
  intros Hl H j k a b [Hj|[= -> ->]%list_elem_of_singleton]%elem_of_app [Hk|[= -> ->]%list_elem_of_singleton]%elem_of_app.
  - by apply Hl.
  - by apply H.
  - split; intros E; symmetry; by apply (H k b).
  - done.
Qed.

(** An item of the source of the moment at its place. *)
Lemma send_placed s g k o : munger_ok s -> placed s g -> g k = Some o -> ms_phase s <> Unused ->
  munger_ok (send (Pkt (ms_epoch s) k) o s).
Proof.
  intros [Hm Hh HL Ho Hoff Hn _ Hu Hun] [Hgr Hgm Hgv Hgs] E Hph. split; simpl; try done.
  - exists g. split; simpl; try done. intros i v [Hi|[= -> ->]%list_elem_of_singleton]%elem_of_app.
    + apply Hgs in Hi as [? Hi]. split; [done|]. destruct i; simpl; [done|]. rewrite length_app. simpl. destruct Hi. split; [lia|done].
    + split; [by eapply Hgr|by right].
  - apply unique_send; [done|]. intros i v Hi. apply Hgs in Hi as [_ Hi]. split.
    + intros ->. destruct Hi as [[? _]|[_ ?]]; [lia|congruence].
    + intros ->. destruct i as [e k'|n]; [|exfalso; by apply (proj2 Hi k)].
      destruct Hi as [[_ Hi]|[-> Hi]]; [exfalso; by apply (Hi k)|]. f_equal.
      destruct (Z.lt_trichotomy k k') as [Hlt|[?|Hlt]]; [|done|]; [pose proof (Hgm _ _ _ _ E Hi Hlt)|pose proof (Hgm _ _ _ _ Hi E Hlt)]; lia.
Qed.

(** A packet that is not late: its number follows what has been used up. *)
Lemma advance_ok s r sn o : munger_ok s -> extHighestIncomingSN (ms_r s) < sn < sn_limit ->
  extLastSN (ms_r s) < sn_limit -> ms_phase s <> Stale ->
  extHighestIncomingSN r = sn -> snRangeMap r = snRangeMap (ms_r s) -> extLastSN r = o -> snOffset r = snOffset (ms_r s) ->
  o = wrap_uint64 (sn - snOffset (ms_r s)) ->
  let s' := mkMState r Aligned (ms_epoch s) (ms_sent s) in
  munger_ok s' /\ munger_ok (send (Pkt (ms_epoch s) sn) o s').
Proof.
  intros Hok Hsn HL2 Hph Er1 Er2 Er3 Er4 Eo s'. pose proof Hok as [Hm Hh HL Ho Hoff Hn (g & Hg) Hu Hun].
  destruct (advanced_placed s r sn o g) as (Eo' & g' & Hg' & E); try done.
  assert (Hs' : munger_ok s').
  { split; simpl; rewrite ?Er1, ?Er2, ?Er3, ?Er4; try done; try lia.
    - rewrite Eo'. unfold sn_limit, two63 in *. destruct (ms_phase s); simpl; lia.
    - rewrite Eo. replace (sn + 1 - snOffset (ms_r s)) with (sn - snOffset (ms_r s) + 1) by lia.
      apply wrap_add; [done|]. rewrite <- Eo, Eo'. unfold sn_limit, two64, two63 in *. destruct (ms_phase s); simpl; lia.
    - by exists g'. }
  split; [done|]. by eapply (send_placed s').
Qed.

(** A packet in order that is taken back. *)
Lemma dropped_ok s p r : munger_ok s -> ep_ExtSequenceNumber p = extHighestIncomingSN (ms_r s) + 1 ->
  ep_ExtSequenceNumber p < sn_limit -> extHighestIncomingSN r = ep_ExtSequenceNumber p ->
  snRangeMap r = snRangeMap (ms_r s) -> extSecondLastSN r = extLastSN (ms_r s) ->
  exists r', PacketDropped p r = Some r' /\ munger_ok (set_r r' s).
Proof.
  intros Hok Esn Hsn Er1 Er2 Er3. pose proof Hok as [Hm Hh HL Ho Hoff Hn _ Hu Hun].
  unfold PacketDropped. rewrite Er1, Z.eqb_refl. simpl.
  destruct (exclude_highest_ok r) as (m & -> & Hm' & Hk & Hnone & Hopen & Hval); [by rewrite Er2|rewrite Er1; lia|rewrite Er1, Er2; lia|].
  simpl. eexists. split; [done|]. rewrite Er1, Er2 in *.
  eapply (removed_ok s _ (ep_ExtSequenceNumber p) m); try done. simpl. rewrite wrap_u64_id by (unfold sn_limit, two63 in *; lia).
  assert (E : GetValue (ep_ExtSequenceNumber p + 1) m = inr (open_value m)); [|by rewrite E].
  apply value_at_settled; [done|unfold sn_limit, two63 in *; lia|apply value_at_open; [done|lia]].
Qed.

Lemma padding_only_ok s p : munger_ok s -> ep_ExtSequenceNumber p = extHighestIncomingSN (ms_r s) + 1 -> ep_ExtSequenceNumber p < sn_limit ->
  exists r, exclude_highest (set_sns (ep_ExtSequenceNumber p) (snRangeMap (ms_r s)) (extLastSN (ms_r s)) (extSecondLastSN (ms_r s)) (ms_r s)) = Some r /\
    munger_ok (set_r (updateSnOffset r) s).
Proof.
  intros Hok Esn Hsn. pose proof Hok as [Hm Hh HL Ho Hoff Hn _ Hu Hun].
  destruct (exclude_highest_ok (set_sns (ep_ExtSequenceNumber p) (snRangeMap (ms_r s)) (extLastSN (ms_r s)) (extSecondLastSN (ms_r s)) (ms_r s)))
    as (m & -> & Hm' & Hk & Hnone & Hopen & Hval); simpl in *; [done|lia|lia|].
  eexists. split; [done|]. eapply (removed_ok s _ (ep_ExtSequenceNumber p) m); try done.
  rewrite updateSnOffset_open; simpl; [done|done|unfold sn_limit, two63 in *; lia|lia].
Qed.

Lemma late_ok s p tp : munger_ok s -> fits (ep_ExtSequenceNumber p) = true -> ep_ExtSequenceNumber p < extHighestIncomingSN (ms_r s) ->
  forward_late p (ms_r s) = inr tp ->
  snOrdering tp = OutOfOrder /\ munger_ok (send (Pkt (ms_epoch s) (ep_ExtSequenceNumber p)) (tp_SN tp) s).
Proof.
  intros Hok Hf%fits_range Hlt. pose proof Hok as [Hm Hh HL Ho Hoff Hn (g & Hg) Hu Hun]. unfold forward_late.
  destruct (GetValue _ _) as [|v] eqn:Ev; [done|]. apply value_at_settled in Ev; [|done|unfold sn_limit, two63 in *; lia].
  destruct (extLastSN (ms_r s) <=? _); [done|]. intros [= <-]. simpl. split; [done|].
  pose proof Ev as Ep. apply (pl_map _ _ Hg) in Ep; [|lia]. eapply send_placed; try done.
  intros [_ Hnv]%Hun. by rewrite Hnv in Ev by lia.
Qed.

Lemma packet_ok p mk drop s : munger_ok s -> allowed (EPacket p mk drop) s = true ->
  exists s', mstep (EPacket p mk drop) s = Some s' /\ munger_ok s'.
Proof.
  intros Hok Ha. pose proof Hok as [Hm Hh HL _ _ _ _ _ _]. unfold allowed in Ha. bools.
  match goal with H : fits _ = true |- _ => pose proof H as Hfit; apply fits_range in H as Hsn end.
  assert (Hph : ms_phase s <> Stale) by (intros E; by rewrite E in *).
  unfold mstep, packet_step, UpdateAndGetSnTs.
  rewrite diff_signed by (apply limit_small; lia). set (d := ep_ExtSequenceNumber p - extHighestIncomingSN (ms_r s)).
  destruct ((d =? 1) && _ || (1 <? d)) eqn:Hd; [|destruct (Z.ltb_spec d 0) as [Hneg|Hneg]; [|destruct (Z.eqb_spec d 1) as [Hone|Hone]]].
  - pose proof (forward_in_order_facts p mk (if 1 <? d then Gap else Contiguous) (ms_r s)) as Hf.
    destruct (forward_in_order _ _ _ _) as [tp r]. destruct Hf as (-> & F1 & F2 & F3 & F4 & F5). simpl in F3. simpl.
    assert (Hd1 : 1 <= d) by (apply orb_true_iff in Hd as [Hd|Hd]; bools; lia).
    destruct (advance_ok s r (ep_ExtSequenceNumber p) (extLastSN r)) as [A1 A2]; try done; [unfold d in *; lia|].
    rewrite F3 in A2. destruct (1 <? d) eqn:Hgap, drop; try (eexists; split; [reflexivity|done]).
    apply Z.ltb_ge in Hgap. destruct (dropped_ok s p r) as (r' & -> & Hr'); try done; [unfold d in *; lia|lia|].
    eexists. split; [reflexivity|done].
  - destruct (forward_late p (ms_r s)) as [|tp] eqn:El; simpl; [eexists; split; [done|]; by destruct s|].
    destruct (late_ok s p tp) as [-> Hs]; try done; [unfold d in *; lia|].
    destruct drop; (eexists; split; [done|]); by destruct s.
  - destruct (padding_only_ok s p) as (r & -> & Hr); try done; [unfold d in *; lia|lia|]. simpl. eexists. split; [done|]. done.
  - simpl. eexists. split; [done|]. by destruct s.
Qed.

(** A packet that is not late and has something to send. *)
Lemma in_order_sent p mk s s' : munger_ok s -> allowed (EPacket p mk false) s = true -> mstep (EPacket p mk false) s = Some s' ->
  extHighestIncomingSN (ms_r s) < ep_ExtSequenceNumber p -> ep_Payload p <> [] ->
  exists o, ms_sent s' = ms_sent s ++ [(Pkt (ms_epoch s) (ep_ExtSequenceNumber p), o)] /\
    (forall i v, (i, v) ∈ ms_sent s -> v < o) /\
    (ep_ExtSequenceNumber p = extHighestIncomingSN (ms_r s) + 1 -> ms_phase s = Aligned -> o = extLastSN (ms_r s) + 1).
Proof.
  intros Hok Ha E Hlt Hpay. pose proof Hok as [Hm Hh HL _ _ _ (g & Hg) _ _]. unfold allowed in Ha. bools.
  match goal with H : fits _ = true |- _ => pose proof H as Hfit; apply fits_range in H as Hsn end.
  assert (Hph : ms_phase s <> Stale) by (intros Es; by rewrite Es in *). revert E. unfold mstep, packet_step, UpdateAndGetSnTs.
  rewrite diff_signed by (apply limit_small; lia). set (d := ep_ExtSequenceNumber p - extHighestIncomingSN (ms_r s)).
  replace ((d =? 1) && _ || (1 <? d)) with true.
  2: { symmetry. destruct (ep_Payload p); [done|]. apply orb_true_iff. destruct (Z.eqb_spec d 1); [by left|right]. apply Z.ltb_lt. unfold d in *. lia. }
  pose proof (forward_in_order_facts p mk (if 1 <? d then Gap else Contiguous) (ms_r s)) as Hf.
  destruct (forward_in_order _ _ _ _) as [tp r]. destruct Hf as (-> & F1 & F2 & F3 & F4 & F5). simpl in F3. simpl.
  assert (Eo : extLastSN r = extLastSN (ms_r s) + pending (ms_phase s) + (ep_ExtSequenceNumber p - extHighestIncomingSN (ms_r s) - 1)).
  { apply (advanced_placed s r (ep_ExtSequenceNumber p) (extLastSN r) g); done || lia. }
  rewrite F3 in Eo. intros E. exists (wrap_uint64 (ep_ExtSequenceNumber p - snOffset (ms_r s))).
  split; [destruct (1 <? d); by simplify_eq|]. split.
  - intros i v Hi. apply (pl_sent _ _ Hg) in Hi as [Hi _]. destruct (ms_phase s); simpl in *; lia.
  - intros E1 E2. rewrite Eo, E1, E2. simpl. lia.
Qed.

Lemma step_ok e s : munger_ok s -> allowed e s = true -> exists s', mstep e s = Some s' /\ munger_ok s'.
Proof.
  intros Hok Ha. destruct e; [|by apply packet_ok|by apply padding_ok]. eexists. split; [done|]. by eapply switch_ok.
Qed.

Lemma run_ok es s s' : munger_ok s -> mrun es s = Some s' -> munger_ok s'.
Proof.
  revert s. induction es as [|e es IH]; simpl; intros s Hok E; [by simplify_eq|].
  destruct (allowed e s) eqn:Ha; [|done]. destruct (step_ok e s Hok Ha) as (s1 & E1 & Hok1). rewrite E1 in E. by apply (IH s1).
Qed.

End RtpMunger.
Export RtpMunger.

(** C23: no subscriber gets two packets under one sequence number. However the
    packets of the sources come (late, twice, with gaps, without payload), however
    they are dropped, and whenever padding is put in and the source is switched,
    under two conditions ([allowed]): the extended numbers stay within 61 bits, and
    no packet of the first source comes after padding that was put in before any
    of its packets counted, unless a switch comes between (phase [Stale]; without
    it the claim fails, [padding_before_first]). Then two sent packets have the
    same number exactly when they are the same packet of the same source; nothing
    panics; and a packet that is not late gets a number above all that were sent,
    which is the next one when the packet follows the last one that came and one
    of its source has counted already, or the source was switched to (phase
    [Aligned]). *)
Theorem munger_stream first r es s :
  rm_ok (snRangeMap r) -> fits (ep_ExtSequenceNumber first) = true -> mrun es (mstart first r) = Some s ->
  unique_sent (ms_sent s) /\
  (forall e, allowed e s = true -> exists s', mstep e s = Some s') /\
  (forall p marker s', allowed (EPacket p marker false) s = true -> mstep (EPacket p marker false) s = Some s' ->
    extHighestIncomingSN (ms_r s) < ep_ExtSequenceNumber p -> ep_Payload p <> [] ->
    exists o, ms_sent s' = ms_sent s ++ [(Pkt (ms_epoch s) (ep_ExtSequenceNumber p), o)] /\
      (forall i v, (i, v) ∈ ms_sent s -> v < o) /\
      (ep_ExtSequenceNumber p = extHighestIncomingSN (ms_r s) + 1 -> ms_phase s = Aligned -> o = extLastSN (ms_r s) + 1)).
Proof.
  intros Hr Hf Hrun. assert (Hok : munger_ok s) by (eapply run_ok; [by apply mstart_ok|exact Hrun]).
  split; [apply Hok|]. split; [intros e Ha; destruct (step_ok e s Hok Ha) as (s' & E & _); by exists s'|].
  intros p mk s' Ha E Hlt Hpay. by eapply in_order_sent.
Qed.

(** The first packet has no payload and is taken out, padding is forced, and the
    next packet gets the number of the padding. *)
Example padding_before_first :
  let p sn payload := mkExtPacket 0 sn 0 1 96 payload None false false in
  (r ← snd <$> UpdateAndGetSnTs (p 100 []) false (SetLastSnTs (p 100 []) NewRTPMunger);
   '(pads, r) ← UpdateAndGetPaddingSnTs 2 48000 0 true 0 r;
   '(res, _) ← UpdateAndGetSnTs (p 101 [1]) false r;
   Some (pads, res)) = Some (inr [mkSnTs 101 0; mkSnTs 102 0], inr (mkTpRTP Contiguous 102 0)).
Proof. vm_compute. done. Qed.

Definition sample_packet (sn : Z) : ExtPacket := mkExtPacket 0 sn 0 1 96 [1] None false false.
Definition sample_events : list mevent :=
  [EPacket (sample_packet 100) true false; EPacket (sample_packet 102) true false; EPacket (sample_packet 103) true true;
   EPadding 2 48000 0 false 0; EPacket (sample_packet 101) true false; EPacket (sample_packet 104) true false].

Lemma munger_stream_witness :
  exists s, mrun sample_events (mstart (sample_packet 100) NewRTPMunger) = Some s /\
    ms_sent s = [(Pkt 0 100, 100); (Pkt 0 102, 102); (Pad 2, 103); (Pad 3, 104); (Pkt 0 101, 101); (Pkt 0 104, 105)] /\
    unique_sent (ms_sent s).
Proof.
  eexists. split; [vm_compute; reflexivity|]. split; [reflexivity|].
  refine (proj1 (munger_stream (sample_packet 100) NewRTPMunger sample_events _ (NewRangeMap_ok 100) _ _)); vm_compute; reflexivity.
Defined.
