(* ===== verification/Vp8Munger.v ===== *)
(** * Picture identifiers of forwarded VP8 packets

    Model of pkg/sfu/codecmunger/vp8.go of the media server: the payload
    descriptors are rewritten so that a subscriber sees one run of pictures,
    without the temporal layers that are filtered out and across switches of the
    source. The ordered maps of the third-party package are an interface. *)

From S2P Require Import Prelude Vp8.
#[local] Open Scope Z_scope.

(** What the code uses of elliotchance/orderedmap, and what it promises: a map
    that knows its oldest key. *)
Class OrderedMap (M : Type -> Type) := {
  om_new : forall A, M A;
  om_get : forall A, Z -> M A -> option A;
  om_set : forall A, Z -> A -> M A -> M A;
  om_delete : forall A, Z -> M A -> M A;
  om_len : forall A, M A -> nat;
  om_front : forall A, M A -> option Z }.
#[global] Arguments om_new {M _ A}.
#[global] Arguments om_get {M _ A}.
#[global] Arguments om_set {M _ A}.
#[global] Arguments om_delete {M _ A}.
#[global] Arguments om_len {M _ A}.
#[global] Arguments om_front {M _ A}.

Class OrderedMapLaws (M : Type -> Type) `{OrderedMap M} := {
  om_get_new : forall A k, om_get k (om_new : M A) = None;
  om_get_set : forall A k k' (v : A) m, om_get k (om_set k' v m) = if k =? k' then Some v else om_get k m;
  om_get_delete : forall A k k' (m : M A), om_get k (om_delete k' m) = if k =? k' then None else om_get k m;
  om_front_none : forall A (m : M A), om_front m = None -> om_len m = 0%nat;
  om_len_delete : forall A k (m : M A), om_front m = Some k -> (om_len (om_delete k m) < om_len m)%nat }.

Module Vp8Munger.

Definition wrap_int32 (z : Z) : Z := (z + 2 ^ 31) mod 2 ^ 32 - 2 ^ 31.
Definition wrap_uint8 (z : Z) : Z := z mod 256.

(** ** The picture identifier without wrap-around *)

Record WrapHandler := mkWrap { maxPictureId : Z; maxMBit : bool; totalWrap : Z; lastWrap : Z }.

Definition Init (extPictureId : Z) (mBit : bool) : WrapHandler := mkWrap extPictureId mBit 0 0.
Definition MaxPictureId (v : WrapHandler) : Z := maxPictureId v.

Definition isWrapping7Bit (val1 val2 : Z) : bool := (val2 <? val1) && (Z.shiftl 1 6 <? wrap_int32 (val1 - val2)).
Definition isWrapping15Bit (val1 val2 : Z) : bool := (val2 <? val1) && (Z.shiftl 1 14 <? wrap_int32 (val1 - val2)).

Definition Unwrap (pictureId : Z) (mBit : bool) (v : WrapHandler) : Z * WrapHandler :=
  let max := if 0 <? maxPictureId v
             then if maxMBit v then Z.land (maxPictureId v) 0x7fff else Z.land (maxPictureId v) 0x7f
             else maxPictureId v in
  let newPictureId := if mBit then Z.land pictureId 0x7fff else Z.land pictureId 0x7f in
  if (0 <? totalWrap v) &&
     (wrap_int32 (maxPictureId v + Z.shiftr (lastWrap v) 1) <? wrap_int32 (newPictureId + totalWrap v))
  then (wrap_int32 (newPictureId + totalWrap v - lastWrap v), v)
  else
    let wrap := if maxMBit v then if isWrapping15Bit max newPictureId then Z.shiftl 1 15 else 0
                else if isWrapping7Bit max newPictureId then Z.shiftl 1 7 else 0 in
    let total := wrap_int32 (totalWrap v + wrap) in
    (wrap_int32 (newPictureId + total),
     mkWrap (maxPictureId v) (maxMBit v) total (if wrap =? 0 then lastWrap v else wrap)).

Definition UpdateMaxPictureId (extPictureId : Z) (mBit : bool) (v : WrapHandler) : WrapHandler :=
  mkWrap extPictureId mBit (totalWrap v) (lastWrap v).

(** ** The munger *)

Inductive codec_error := NotVP8 | PictureIdCacheMiss | FilteredTemporalLayer | HeaderError (e : vp8_error).

Definition missingPictureIdsThreshold : nat := 50.
Definition droppedPictureIdsThreshold : nat := 20.
Definition exemptedPictureIdsThreshold : nat := 20.

Section munger.
Context {M : Type -> Type} `{!OrderedMap M}.

Record VP8M := mkVP8M {
  pictureIdWrapHandler : WrapHandler; extLastPictureId : Z; pictureIdOffset : Z; pictureIdUsed : bool;
  lastTl0PicIdx : Z; tl0PicIdxOffset : Z; tl0PicIdxUsed : bool; tidUsed : bool;
  lastKeyIdx : Z; keyIdxOffset : Z; keyIdxUsed : bool;
  missingPictureIds : M Z; droppedPictureIds : M bool; exemptedPictureIds : M bool }.

Definition NewVP8 : VP8M := mkVP8M (mkWrap 0 false 0 0) 0 0 false 0 0 false false 0 0 false om_new om_new om_new.

Definition set_last (ext tl0 key : Z) (v : VP8M) : VP8M :=
  mkVP8M (pictureIdWrapHandler v) ext (pictureIdOffset v) (pictureIdUsed v) tl0 (tl0PicIdxOffset v) (tl0PicIdxUsed v)
    (tidUsed v) key (keyIdxOffset v) (keyIdxUsed v) (missingPictureIds v) (droppedPictureIds v) (exemptedPictureIds v).
Definition set_offsets (pic tl0 key : Z) (v : VP8M) : VP8M :=
  mkVP8M (pictureIdWrapHandler v) (extLastPictureId v) pic (pictureIdUsed v) (lastTl0PicIdx v) tl0 (tl0PicIdxUsed v)
    (tidUsed v) (lastKeyIdx v) key (keyIdxUsed v) (missingPictureIds v) (droppedPictureIds v) (exemptedPictureIds v).
Definition set_handler (h : WrapHandler) (v : VP8M) : VP8M :=
  mkVP8M h (extLastPictureId v) (pictureIdOffset v) (pictureIdUsed v) (lastTl0PicIdx v) (tl0PicIdxOffset v) (tl0PicIdxUsed v)
    (tidUsed v) (lastKeyIdx v) (keyIdxOffset v) (keyIdxUsed v) (missingPictureIds v) (droppedPictureIds v) (exemptedPictureIds v).
Definition set_used (i l t k : bool) (v : VP8M) : VP8M :=
  mkVP8M (pictureIdWrapHandler v) (extLastPictureId v) (pictureIdOffset v) i (lastTl0PicIdx v) (tl0PicIdxOffset v) l
    t (lastKeyIdx v) (keyIdxOffset v) k (missingPictureIds v) (droppedPictureIds v) (exemptedPictureIds v).
Definition set_caches (missing : M Z) (dropped exempted : M bool) (v : VP8M) : VP8M :=
  mkVP8M (pictureIdWrapHandler v) (extLastPictureId v) (pictureIdOffset v) (pictureIdUsed v) (lastTl0PicIdx v) (tl0PicIdxOffset v)
    (tl0PicIdxUsed v) (tidUsed v) (lastKeyIdx v) (keyIdxOffset v) (keyIdxUsed v) missing dropped exempted.

Definition SetLast (extPkt : ExtPacket) (v : VP8M) : VP8M :=
  match ep_vp8 extPkt with
  | None => v
  | Some vp8 =>
      let v := set_used (bitI vp8) (bitL vp8) (bitT vp8) (bitK vp8) v in
      let v := if bitI vp8 then set_handler (Init (wrap_int32 (PictureID vp8 - 1)) (bitM vp8)) v else v in
      set_last (if bitI vp8 then PictureID vp8 else extLastPictureId v)
        (if bitL vp8 then TL0PICIDX vp8 else lastTl0PicIdx v) (if bitK vp8 then KEYIDX vp8 else lastKeyIdx v) v
  end.

Definition UpdateOffsets (extPkt : ExtPacket) (v : VP8M) : VP8M :=
  match ep_vp8 extPkt with
  | None => v
  | Some vp8 =>
      let v := if pictureIdUsed v then set_handler (Init (wrap_int32 (PictureID vp8 - 1)) (bitM vp8)) v else v in
      let v := set_offsets
        (if pictureIdUsed v then wrap_int32 (PictureID vp8 - extLastPictureId v - 1) else pictureIdOffset v)
        (if tl0PicIdxUsed v then wrap_uint8 (TL0PICIDX vp8 - lastTl0PicIdx v - 1) else tl0PicIdxOffset v)
        (if keyIdxUsed v then Z.land (wrap_uint8 (KEYIDX vp8 - lastKeyIdx v - 1)) 0x1f else keyIdxOffset v) v in
      set_caches om_new om_new om_new v
  end.

(** [for m.Len() > threshold { m.Delete(m.Front().Key) }] *)
Fixpoint trim_steps {A} (fuel : nat) (threshold : nat) (m : M A) : M A :=
  match fuel with
  | O => m
  | S fuel =>
      if (threshold <? om_len m)%nat
      then match om_front m with Some k => trim_steps fuel threshold (om_delete k m) | None => m end
      else m
  end.
Definition trim {A} (threshold : nat) (m : M A) : M A := trim_steps (om_len m) threshold m.

(** The pictures a gap may have hidden, from [lost] on. *)
Fixpoint record_lost (n : nat) (lost offset : Z) (dropped : M bool) (missing : M Z) : M Z :=
  match n with
  | O => missing
  | S n =>
      record_lost n (lost + 1) offset dropped
        (match om_get lost dropped with None => om_set lost offset missing | Some _ => missing end)
  end.

(** The rewritten descriptor. *)
Definition munged (vp8 : VP8) (pictureId tl0 key : Z) : VP8 :=
  mkVP8 (FirstByte vp8) false (bitI vp8) (127 <? pictureId) pictureId (bitL vp8) tl0 (bitT vp8) (TID vp8) (bitY vp8)
    (bitK vp8) key (HeaderSize vp8 + VPxPictureIdSizeDiff (127 <? pictureId) (bitM vp8)) (vp8_IsKeyFrame vp8).

(** The header size, the new descriptor and its bytes; [None] is a panic of [Marshal]. *)
Definition marshalled (vp8 out : VP8) : option (result codec_error (Z * list Z)) :=
  r ← Marshal out;
  Some (match r with inl e => inl (HeaderError e) | inr bytes => inr (HeaderSize vp8, bytes) end).

Definition update_late (vp8 : VP8) (extPictureId : Z) (v : VP8M) : option (result codec_error (Z * list Z)) :=
  match om_get extPictureId (missingPictureIds v) with
  | None => Some (inl PictureIdCacheMiss)
  | Some offset =>
      let pictureId := Z.land (wrap_int32 (extPictureId - offset)) 0x7fff in
      marshalled vp8 (munged vp8 pictureId (wrap_uint8 (TL0PICIDX vp8 - tl0PicIdxOffset v)) (wrap_uint8 (KEYIDX vp8 - keyIdxOffset v)))
  end.

(** The caches after a gap; [above] tells that the packet's layer is to be filtered. *)
Definition after_gap (prevMax extPictureId : Z) (above : bool) (v : VP8M) : VP8M :=
  let missing := trim missingPictureIdsThreshold
    (record_lost (Z.to_nat (extPictureId - prevMax + 1)) prevMax (pictureIdOffset v) (droppedPictureIds v) (missingPictureIds v)) in
  let exempted := if above then trim exemptedPictureIdsThreshold (om_set extPictureId true (exemptedPictureIds v))
                  else exemptedPictureIds v in
  set_caches missing (droppedPictureIds v) exempted v.

(** A picture of a filtered layer; its identifier is taken out once. *)
Definition after_drop (vp8 : VP8) (prevMax extPictureId : Z) (v : VP8M) : VP8M :=
  if bitI vp8 && negb (prevMax =? extPictureId) then
    let dropped := trim droppedPictureIdsThreshold (om_set extPictureId true (droppedPictureIds v)) in
    let v := set_caches (missingPictureIds v) dropped (exemptedPictureIds v) v in
    set_offsets (wrap_int32 (pictureIdOffset v + 1)) (tl0PicIdxOffset v) (keyIdxOffset v) v
  else v.

Definition UpdateAndGet (extPkt : ExtPacket) (snOutOfOrder snHasGap : bool) (maxTemporalLayer : Z) (v : VP8M)
  : option (result codec_error (Z * list Z) * VP8M) :=
  match ep_vp8 extPkt with
  | None => Some (inl NotVP8, v)
  | Some vp8 =>
      let '(extPictureId, h) := Unwrap (PictureID vp8) (bitM vp8) (pictureIdWrapHandler v) in
      let v := set_handler h v in
      if snOutOfOrder then r ← update_late vp8 extPictureId v; Some (r, v) else
      let prevMax := MaxPictureId h in
      let v := set_handler (UpdateMaxPictureId extPictureId (bitM vp8) h) v in
      let above := maxTemporalLayer <? ep_Temporal extPkt in
      if negb snHasGap && above && negb (bool_decide (is_Some (om_get extPictureId (exemptedPictureIds v))))
      then Some (inl FilteredTemporalLayer, after_drop vp8 prevMax extPictureId v)
      else
        let v := if snHasGap then after_gap prevMax extPictureId above v else v in
        let extMunged := wrap_int32 (extPictureId - pictureIdOffset v) in
        let tl0 := wrap_uint8 (TL0PICIDX vp8 - tl0PicIdxOffset v) in
        let key := Z.land (wrap_uint8 (KEYIDX vp8 - keyIdxOffset v)) 0x1f in
        let v := set_last extMunged tl0 key v in
        r ← marshalled vp8 (munged vp8 (Z.land extMunged 0x7fff) tl0 key);
        Some (r, v)
  end.

Definition padding_header (v : VP8M) (pictureId tl0 key headerSize : Z) : VP8 :=
  mkVP8 0x10 false (pictureIdUsed v) (127 <? pictureId) pictureId (tl0PicIdxUsed v) tl0 (tidUsed v) 0 true (keyIdxUsed v) key headerSize true.

Definition UpdateAndGetPadding (newPicture : bool) (v : VP8M) : option (result vp8_error (list Z) * VP8M) :=
  let offset := if newPicture then 1 else 0 in
  let ext := if pictureIdUsed v then wrap_int32 (extLastPictureId v + offset) else extLastPictureId v in
  let pictureId := Z.land ext 0x7fff in
  let headerSize :=
    1 + (if pictureIdUsed v || tl0PicIdxUsed v || tidUsed v || keyIdxUsed v then 1 else 0) +
    (if pictureIdUsed v then if 127 <? pictureId then 2 else 1 else 0) +
    (if tl0PicIdxUsed v then 1 else 0) + (if tidUsed v || keyIdxUsed v then 1 else 0) in
  let tl0 := if tl0PicIdxUsed v then wrap_uint8 (lastTl0PicIdx v + offset) else 0 in
  let key := if keyIdxUsed v then Z.land (wrap_uint8 (lastKeyIdx v + offset)) 0x1f else 0 in
  let out := padding_header v pictureId tl0 key headerSize in
  let v := set_last (if pictureIdUsed v then ext else extLastPictureId v) (if tl0PicIdxUsed v then tl0 else lastTl0PicIdx v)
             (if keyIdxUsed v then key else lastKeyIdx v) v in
  let v := set_offsets (if pictureIdUsed v then wrap_int32 (pictureIdOffset v - offset) else pictureIdOffset v)
             (if tl0PicIdxUsed v then wrap_uint8 (tl0PicIdxOffset v - offset) else tl0PicIdxOffset v)
             (if keyIdxUsed v then wrap_uint8 (keyIdxOffset v - offset) else keyIdxOffset v) v in
  r ← Marshal out; Some (r, v).

End munger.

(** ** Unwrapping finds the nearest picture *)

Lemma wrap_int32_small z : - 2 ^ 31 <= z < 2 ^ 31 -> wrap_int32 z = z.
Proof. intros H. unfold wrap_int32. rewrite Z.mod_small; lia. Qed.

(** Descriptors with 15 bits: the handler stands at picture [m] of an unbounded count. *)
Definition stands_at (m : Z) (h : WrapHandler) : Prop :=
  maxPictureId h = m /\ maxMBit h = true /\ exists q, 0 <= q /\ totalWrap h = 32768 * q /\
    (0 < q -> lastWrap h = 32768) /\ (32768 * q <= m < 32768 * q + 32768 \/ m = -1 /\ q = 0).

Definition picture_bits (t : Z) : Z := Z.land t 0x7fff.

Lemma picture_bits_mod t : picture_bits t = t mod 32768.
Proof. unfold picture_bits. change 0x7fff with (Z.ones 15). by rewrite Z.land_ones. Qed.

Lemma mod_cycle t q : 32768 * q <= t < 32768 * q + 32768 -> t mod 32768 = t - 32768 * q.
Proof. intros H. symmetry. apply (Z.mod_unique _ _ q); lia. Qed.

Lemma Unwrap_near m t h : stands_at m h -> m < 2 ^ 30 -> 0 <= t < 2 ^ 30 -> Z.abs (t - m) < 16384 ->
  exists h', Unwrap (picture_bits t) true h = (t, h') /\ maxPictureId h' = m /\
    (m <= t -> stands_at t (UpdateMaxPictureId t true h')) /\ (t < m -> h' = h).
Proof.
  intros (Em & EM & q & Hq & Et & El & Hc) Hm Ht Hd. unfold Unwrap. rewrite EM, Em, Et.
  assert (Hb : Z.land (picture_bits t) 32767 = t mod 32768).
  { rewrite picture_bits_mod. change 32767 with (Z.ones 15). rewrite Z.land_ones by done. by rewrite Zmod_mod. }
  rewrite Hb.
  assert (Hmax : (if 0 <? m then Z.land m 32767 else m) = m - 32768 * q).
  { destruct (Z.ltb_spec 0 m) as [Hpos|Hneg].
    - change (Z.land m 32767) with (picture_bits m). rewrite picture_bits_mod. destruct Hc as [Hc|[-> ->]]; [by apply mod_cycle|lia].
    - destruct Hc as [Hc|[-> ->]]; lia. }
  rewrite Hmax. clear Hb Hmax.
  assert (Hback : (if (0 <? 32768 * q) && (wrap_int32 (m + Z.shiftr (lastWrap h) 1) <? wrap_int32 (t mod 32768 + 32768 * q)) then true else false) = true <->
    0 < q /\ m + 16384 < t mod 32768 + 32768 * q).
  { destruct (Z.ltb_spec 0 (32768 * q)) as [Hq0|Hq0]; [|split; [done|lia]]. rewrite El by lia. change (Z.shiftr 32768 1) with 16384.
    pose proof (Z.mod_pos_bound t 32768). destruct Hc as [Hc|[-> ->]]; [|lia].
    rewrite !wrap_int32_small by lia. simpl. destruct (Z.ltb_spec (m + 16384) (t mod 32768 + 32768 * q)); split; try done; lia. }
  assert (Hq2 : 32768 * q <= 2 ^ 30) by (destruct Hc as [Hc|[-> ->]]; lia).
  assert (Hcase : t < 32768 * q \/ 32768 * q <= t < 32768 * q + 32768 \/ 32768 * (q + 1) <= t) by lia.
  destruct Hcase as [Hp|[Hs|Hn]].
  - (* the cycle before *)
    assert (Emod : t mod 32768 = t - 32768 * (q - 1)) by (apply mod_cycle; destruct Hc as [Hc|[-> ->]]; lia).
    rewrite Emod in *. destruct (_ && _); [|destruct Hback as [_ Hback]; exfalso; specialize (Hback ltac:(destruct Hc as [Hc|[-> ->]]; lia)); done].
    rewrite El by lia. rewrite wrap_int32_small by lia. exists h. split_and!; try done; [f_equal; lia|intros; destruct Hc as [Hc|[-> ->]]; lia].
  - (* the same cycle *)
    assert (Emod : t mod 32768 = t - 32768 * q) by by apply mod_cycle.
    rewrite Emod in *. destruct (_ && _); [destruct Hback as [Hback _]; specialize (Hback eq_refl); lia|].
    unfold isWrapping15Bit. change (Z.shiftl 1 14) with 16384.
    assert (Hw : (t - 32768 * q <? m - 32768 * q) && (16384 <? wrap_int32 (m - 32768 * q - (t - 32768 * q))) = false).
    { destruct (Z.ltb_spec (t - 32768 * q) (m - 32768 * q)); [|done]. rewrite wrap_int32_small by lia. apply Z.ltb_ge. lia. }
    rewrite Hw. rewrite Z.add_0_r, (wrap_int32_small (32768 * q)) by lia. rewrite wrap_int32_small by lia.
    exists (mkWrap m true (32768 * q) (lastWrap h)). split; [f_equal; lia|]. split; [done|]. split.
    + intros Hle. split_and!; try done. exists q. simpl. split_and!; try done; by left.
    + intros Hlt. destruct h. simpl in *. by subst.
  - (* the next cycle *)
    assert (Emod : t mod 32768 = t - 32768 * (q + 1)) by (apply mod_cycle; destruct Hc as [Hc|[-> ->]]; lia).
    rewrite Emod in *. destruct (_ && _); [destruct Hback as [Hback _]; specialize (Hback eq_refl); lia|].
    unfold isWrapping15Bit. change (Z.shiftl 1 14) with 16384. change (Z.shiftl 1 15) with 32768.
    assert (Hw : (t - 32768 * (q + 1) <? m - 32768 * q) && (16384 <? wrap_int32 (m - 32768 * q - (t - 32768 * (q + 1)))) = true).
    { rewrite wrap_int32_small by lia. apply andb_true_intro. split; apply Z.ltb_lt; lia. }
    rewrite Hw. rewrite (wrap_int32_small (32768 * q + 32768)) by lia. rewrite wrap_int32_small by lia. simpl.
    exists (mkWrap m true (32768 * q + 32768) 32768). split; [f_equal; lia|]. split; [done|]. split; [|lia].
    intros Hle. split_and!; try done. exists (q + 1). simpl. split_and!; try lia.
Qed.

(** ** What a parsed descriptor is like *)

Record parsed (payload : list Z) (v : VP8) : Prop := {
  pa_ok : vp8_ok v;
  pa_m : bitI v = false -> bitM v = false;
  pa_s : bitS v = has_bits (FirstByte v) 0x10;
  pa_key : 0 <= KEYIDX v < 32;
  pa_size : Z.of_nat (length (wire v)) <= HeaderSize v;
  pa_rest : exists next rest, drop (Z.to_nat (HeaderSize v)) payload = next :: rest /\
              vp8_IsKeyFrame v = (Z.land next 1 =? 0) && bitS v;
  pa_off : (bitI v = false -> PictureID v = 0) /\ (bitL v = false -> TL0PICIDX v = 0) /\ (bitK v = false -> KEYIDX v = 0) /\
           (bitT v = false -> TID v = 0 /\ bitY v = false) }.

Lemma byte_masks : forall b, 0 <= b < 256 ->
  ((0 <=? Z.land b 0x7f) && (Z.land b 0x7f <? 128) && (0 <=? Z.land b 0x1f) && (Z.land b 0x1f <? 32) &&
   (0 <=? Z.shiftr (Z.land b 0xc0) 6) && (Z.shiftr (Z.land b 0xc0) 6 <? 4)) = true.
Proof. by_bytes. Qed.

Lemma byte_masks_spec b : 0 <= b < 256 -> 0 <= Z.land b 0x7f < 128 /\ 0 <= Z.land b 0x1f < 32 /\ 0 <= Z.shiftr (Z.land b 0xc0) 6 < 4.
Proof. intros H%byte_masks. bools. lia. Qed.

Ltac parsed_case :=
  split; cbn -[Z.land Z.shiftr wire];
  [split; cbn -[Z.land Z.shiftr]; done || lia
  |done
  |done
  |lia
  |unfold wire, picture_bytes; cbn -[Z.land Z.shiftr Z.lor Z.ldiff]; lia
  |eexists _, _; split; [reflexivity|done]
  |split_and!; done].

Lemma Unmarshal_parsed payload v : Forall (fun b => 0 <= b < 256) payload -> Unmarshal (Some payload) = inr v -> parsed payload v.
Proof.
  intros Hb. unfold Unmarshal, read_picture_id, read_tl0, read_tid_keyidx, byte_at.
  destruct payload as [|b0 payload]; [done|]. apply Forall_cons in Hb as [Hb0 Hb]. simpl. destruct (has_bits b0 0x80).
  2: { destruct payload as [|b1 payload]; [done|]. intros [= <-]. parsed_case. }
  destruct payload as [|b1 payload]; [done|]. apply Forall_cons in Hb as [Hb1 Hb]. simpl.
  destruct payload as [|b2 payload]; [simpl; repeat (case_match; simpl; try done)|].
  apply Forall_cons in Hb as [Hb2 Hb]. pose proof (byte_masks_spec _ Hb2) as (? & ? & ?).
  destruct payload as [|b3 payload]; [|apply Forall_cons in Hb as [Hb3 Hb]; pose proof (byte_masks_spec _ Hb3) as (? & ? & ?);
  destruct payload as [|b4 payload]; [|apply Forall_cons in Hb as [Hb4 Hb]; pose proof (byte_masks_spec _ Hb4) as (? & ? & ?);
  destruct payload as [|b5 payload]; [|apply Forall_cons in Hb as [Hb5 Hb]; pose proof (byte_masks_spec _ Hb5) as (? & ? & ?); destruct payload as [|b6 payload]]]].
  all: destruct (has_bits b1 0x80), (has_bits b1 0x40), (has_bits b1 0x20), (has_bits b1 0x10); simpl; try done.
  all: try (destruct (has_bits b2 0x80); simpl; try done).
  all: try (intros [= <-]; parsed_case).
Qed.

(** The same descriptor but for the numbers. *)
Record renumbered (v out : VP8) (pictureId tl0 key : Z) : Prop := {
  rn_flags : bitI out = bitI v /\ bitL out = bitL v /\ bitT out = bitT v /\ bitK out = bitK v;
  rn_kept : bitS out = bitS v /\ TID out = TID v /\ bitY out = bitY v /\ vp8_IsKeyFrame out = vp8_IsKeyFrame v;
  rn_pid : bitI v = true -> PictureID out = pictureId;
  rn_tl0 : bitL v = true -> TL0PICIDX out = tl0;
  rn_key : bitK v = true -> KEYIDX out = Z.land key 0x1f }.

Lemma picture_bits_range t : 0 <= picture_bits t < 32768.
Proof. rewrite picture_bits_mod. by apply Z.mod_pos_bound. Qed.
Lemma wrap_uint8_range z : 0 <= wrap_uint8 z < 256.
Proof. by apply Z.mod_pos_bound. Qed.

(** Writing the new descriptor in front of the rest of the payload. *)
Lemma marshalled_reads payload vp8 pid tl0 key : parsed payload vp8 -> 0 <= pid < 32768 -> 0 <= tl0 < 256 ->
  exists bytes out, marshalled vp8 (munged vp8 pid tl0 key) = Some (inr (HeaderSize vp8, bytes)) /\
    Unmarshal (Some (bytes ++ drop (Z.to_nat (HeaderSize vp8)) payload)) = inr out /\ renumbered vp8 out pid tl0 key.
Proof.
  intros [[Hf Hp Hs H0 Ht Hlt] Hm HS Hk Hsz (next & rest & Hd & Hkey) (O1 & O2 & O3 & O4)] Hpid Htl0.
  set (m := munged vp8 pid tl0 key).
  assert (Hok : vp8_ok m).
  { split; simpl; try done. intros E. apply Z.ltb_ge in E. lia. }
  assert (Hw : Z.of_nat (length (wire m)) <= HeaderSize m).
  { revert Hsz. unfold wire, picture_bytes. simpl. unfold VPxPictureIdSizeDiff.
    destruct (bitI vp8) eqn:EI; [|rewrite (Hm eq_refl)];
      destruct (bitL vp8), (bitT vp8), (bitK vp8), (127 <? pid); try destruct (bitM vp8); simpl; lia. }
  unfold marshalled. rewrite (Marshal_wire m Hw). exists (wire m), (as_read m next). split; [done|].
  rewrite Hd, Unmarshal_wire by done. split; [done|]. split; simpl.
  - done.
  - rewrite HS, Hkey, HS. split_and!; try done; destruct (bitT vp8); simpl; try done; symmetry; by apply O4.
  - by intros ->.
  - by intros ->.
  - by intros ->.
Qed.

(** ** One run of pictures *)

Section pictures.
Context {M : Type -> Type} `{!OrderedMap M}.

(** A packet of picture [t] of a source that sends 15-bit identifiers, its
    temporal layer, and the layer the subscriber may have. *)
Record picture_packet := mkPP { pp_t : Z; pp_temporal : Z; pp_max : Z; pp_packet : ExtPacket }.
Definition is_picture (x : picture_packet) : Prop :=
  ep_Temporal (pp_packet x) = pp_temporal x /\
  exists payload vp8, Forall (fun b => 0 <= b < 256) payload /\ Unmarshal (Some payload) = inr vp8 /\
    ep_vp8 (pp_packet x) = Some vp8 /\ bitI vp8 = true /\ bitM vp8 = true /\ PictureID vp8 = picture_bits (pp_t x).

(** Packets without gaps in their sequence numbers; the pictures that were forwarded with
    the identifiers they got. *)
Fixpoint run_pictures (l : list picture_packet) (v : VP8M) : option (list (Z * Z) * VP8M) :=
  match l with
  | [] => Some ([], v)
  | x :: l =>
      '(res, v) ← UpdateAndGet (pp_packet x) false false (pp_max x) v;
      '(out, v') ← run_pictures l v;
      Some (match res with inr (_, bytes) => (pp_t x, picture_bits (extLastPictureId v)) :: out | inl _ => out end, v')
  end.

Definition above_layer (x : picture_packet) : bool := pp_max x <? pp_temporal x.

(** Every picture is the one before or the next one, and one picture is all forwarded or all dropped. *)
Fixpoint steady (m : Z) (dropped : bool) (l : list picture_packet) : Prop :=
  match l with
  | [] => True
  | x :: l =>
      is_picture x /\ 0 <= pp_t x < 2 ^ 30 /\ (pp_t x = m /\ (above_layer x = dropped) \/ pp_t x = m + 1) /\
      steady (pp_t x) (above_layer x) l
  end.

(** The identifier stays within a picture and goes up by one, in 15 bits, from a
    forwarded picture to the next. *)
Fixpoint consecutive (t id : Z) (l : list (Z * Z)) : Prop :=
  match l with
  | [] => True
  | (t', id') :: l => t <= t' /\ id' = (if t' =? t then id else (id + 1) mod 32768) /\ consecutive t' id' l
  end.

Lemma wrap_int32_mod a b : (a - b) mod 2 ^ 32 = 0 -> wrap_int32 a = wrap_int32 b.
Proof.
  intros H. unfold wrap_int32. f_equal. replace (a + 2 ^ 31) with ((a - b) + (b + 2 ^ 31)) by lia.
  rewrite <- Zplus_mod_idemp_l, H. done.
Qed.

Lemma wrap_int32_idem a b : wrap_int32 (a - wrap_int32 b) = wrap_int32 (a - b).
Proof.
  apply wrap_int32_mod. unfold wrap_int32. rewrite (Zmod_eq_full (b + 2 ^ 31)) by lia.
  replace (a - (b + 2 ^ 31 - (b + 2 ^ 31) / 2 ^ 32 * 2 ^ 32 - 2 ^ 31) - (a - b)) with ((b + 2 ^ 31) / 2 ^ 32 * 2 ^ 32) by lia. by rewrite Z_mod_mult.
Qed.

Lemma picture_bits_wrap z : picture_bits (wrap_int32 z) = picture_bits z.
Proof.
  rewrite !picture_bits_mod. unfold wrap_int32. rewrite (Zmod_eq_full (z + 2 ^ 31)) by lia.
  replace (z + 2 ^ 31 - (z + 2 ^ 31) / 2 ^ 32 * 2 ^ 32 - 2 ^ 31) with (z + (- ((z + 2 ^ 31) / 2 ^ 32) * 2 ^ 17) * 32768) by lia.
  by rewrite Z_mod_plus_full.
Qed.

(** The munger after picture [m]: the last identifier is the one of [m], or of the
    picture before if [m] was taken out. No picture is exempted. *)
Record in_step (m : Z) (v : VP8M) : Prop := {
  is_stands : stands_at m (pictureIdWrapHandler v);
  is_last : extLastPictureId v = wrap_int32 (m - pictureIdOffset v);
  is_exempted : forall k, om_get k (exemptedPictureIds v) = None }.

Lemma picture_step x m v : in_step m v -> is_picture x -> m < 2 ^ 30 -> 0 <= pp_t x < 2 ^ 30 -> pp_t x = m \/ pp_t x = m + 1 ->
  exists res v', UpdateAndGet (pp_packet x) false false (pp_max x) v = Some (res, v') /\ in_step (pp_t x) v' /\
    if above_layer x then res = inl FilteredTemporalLayer /\ extLastPictureId v' = extLastPictureId v
    else (exists n bytes, res = inr (n, bytes)) /\
      picture_bits (extLastPictureId v') = (picture_bits (extLastPictureId v) + (pp_t x - m)) mod 32768.
Proof.
  intros [Hst Hl He] (Htl & payload & vp8 & Hb & Hu & Ev & HI & HM & Hp) Hm Ht Hstep.
  unfold UpdateAndGet. rewrite Ev, HM, Hp. destruct (Unwrap_near m (pp_t x) _ Hst Hm Ht) as (h & -> & Hmax & Hup & _); [lia|].
  specialize (Hup ltac:(lia)). unfold MaxPictureId. rewrite Hmax. simpl. rewrite He, Htl. simpl.
  fold (above_layer x). destruct (above_layer x); simpl.
  - eexists _, _. split; [done|]. unfold after_drop. rewrite HI. simpl.
    destruct (Z.eqb_spec m (pp_t x)) as [Heq|Hne]; simpl; (split; [|done]); split; simpl; try done.
    + by rewrite <- Heq.
    + rewrite wrap_int32_idem, Hl. f_equal. lia.
  - destruct (marshalled_reads payload vp8 (picture_bits (wrap_int32 (pp_t x - pictureIdOffset v))) (wrap_uint8 (TL0PICIDX vp8 - tl0PicIdxOffset v))
      (Z.land (wrap_uint8 (KEYIDX vp8 - keyIdxOffset v)) 31)) as (bytes & out & E & _); [by apply Unmarshal_parsed|apply picture_bits_range|apply wrap_uint8_range|].
    unfold picture_bits in E at 1. change (Z.land ?a 0x7fff) with (Z.land a 32767). rewrite E. simpl.
    eexists _, _. split; [done|]. split; [by split|]. split; [by eexists _, _|]. simpl.
    rewrite Hl, !picture_bits_wrap, !picture_bits_mod, Zplus_mod_idemp_l. f_equal. lia.
Qed.

Lemma UpdateOffsets_last first (v : VP8M) : extLastPictureId (UpdateOffsets first v) = extLastPictureId v.
Proof. unfold UpdateOffsets. destruct (ep_vp8 first); [|done]. by destruct (pictureIdUsed v). Qed.

(** A switch puts the munger right before the first picture of the new source. *)
Lemma UpdateOffsets_in_step `{!OrderedMapLaws M} first vp8 (v : VP8M) : ep_vp8 first = Some vp8 -> bitM vp8 = true -> 0 <= PictureID vp8 < 32768 ->
  pictureIdUsed v = true -> - 2 ^ 31 <= extLastPictureId v < 2 ^ 31 -> in_step (PictureID vp8 - 1) (UpdateOffsets first v).
Proof.
  intros Ev HM Hp Hu He. unfold UpdateOffsets. rewrite Ev, Hu, HM. rewrite (wrap_int32_small (PictureID vp8 - 1)) by lia. split; simpl.
  - split; [done|]. split; [done|]. exists 0. simpl. split_and!; lia || done.
  - rewrite Hu, wrap_int32_idem. replace (PictureID vp8 - 1 - (PictureID vp8 - extLastPictureId v - 1)) with (extLastPictureId v) by lia.
    by rewrite wrap_int32_small.
  - intros k. apply om_get_new.
Qed.

Lemma run_pictures_consecutive l m dropped v t0 id0 : in_step m v -> -1 <= m < 2 ^ 30 -> steady m dropped l ->
  id0 = picture_bits (extLastPictureId v) -> t0 <= m -> (dropped = false -> t0 = m) -> (dropped = true -> t0 < m) ->
  exists out v', run_pictures l v = Some (out, v') /\ consecutive t0 id0 out /\
    (exists m', in_step m' v') /\ out.*1 = pp_t <$> filter (fun x => above_layer x = false) l.
Proof.
  revert m dropped v t0 id0. induction l as [|x l IH]; intros m dropped v t0 id0 Hin Hm Hs -> Ht Hd1 Hd2.
  { eexists _, _. split; [done|]. split; [done|]. split; [by exists m|done]. }
  destruct Hs as (Hx & Hxt & Hnext & Hs). simpl.
  destruct (picture_step x m v) as (res & v1 & E & Hin1 & Hr); try done; [lia|naive_solver|]. rewrite E. simpl.
  destruct (above_layer x) eqn:Ha.
  - destruct Hr as [-> Hlast].
    destruct (IH (pp_t x) true v1 t0 (picture_bits (extLastPictureId v1))) as (out & v' & E' & Hc & Hm' & Hl); try done.
    { lia. } { destruct Hnext as [[-> <-]| ->]; [done|lia]. } { intros _. destruct Hnext as [[-> <-]| ->]; [by apply Hd2|lia]. }
    rewrite E'. simpl. eexists _, _. split; [done|]. rewrite <- Hlast. split; [done|]. split; [done|].
    by rewrite filter_cons_False by (by rewrite Ha).
  - destruct Hr as [(n & bytes & ->) Hlast].
    destruct (IH (pp_t x) false v1 (pp_t x) (picture_bits (extLastPictureId v1))) as (out & v' & E' & Hc & Hm' & Hl); try done.
    { lia. }
    rewrite E'. simpl. eexists _, _. split; [done|]. split; [|split; [done|]].
    + split; [destruct Hnext as [[-> _]| ->]; lia|]. split; [|done]. rewrite Hlast.
      destruct Hnext as [[-> Hdr]| ->].
      * rewrite (Hd1 (eq_sym Hdr)), Z.eqb_refl, Z.sub_diag, Z.add_0_r. apply Z.mod_small, picture_bits_range.
      * rewrite (proj2 (Z.eqb_neq _ _)) by lia. f_equal. lia.
    + rewrite filter_cons_True by done. rewrite !fmap_cons. by rewrite Hl.
Qed.
End pictures.

(** ** The caches stay small *)

Section caches.
Context {M : Type -> Type} `{!OrderedMap M, !OrderedMapLaws M}.

Lemma trim_steps_len {A} fuel threshold (m : M A) : (om_len m <= fuel)%nat -> (om_len (trim_steps fuel threshold m) <= threshold)%nat.
Proof.
  revert m. induction fuel as [|fuel IH]; intros m Hm; simpl; [lia|].
  destruct (Nat.ltb_spec threshold (om_len m)); [|done]. destruct (om_front m) as [k|] eqn:E.
  - apply IH. pose proof (om_len_delete _ k m E). lia.
  - apply om_front_none in E. lia.
Qed.

Lemma trim_len {A} threshold (m : M A) : (om_len (trim threshold m) <= threshold)%nat.
Proof. by apply trim_steps_len. Qed.

(** A late packet is forwarded only with an offset of the cache, any other with the running one. *)
Lemma UpdateAndGet_reads payload vp8 p late gap tl v : parsed payload vp8 -> ep_vp8 p = Some vp8 ->
  exists res v', UpdateAndGet p late gap tl v = Some (res, v') /\ (forall e, res <> inl (HeaderError e)) /\
    (forall n bytes, res = inr (n, bytes) -> exists out tl0 key pid,
      Unmarshal (Some (bytes ++ drop (Z.to_nat n) payload)) = inr out /\ renumbered vp8 out pid tl0 key /\
      pid = picture_bits (if late then wrap_int32 ((Unwrap (PictureID vp8) (bitM vp8) (pictureIdWrapHandler v)).1 -
                                       default 0 (om_get (Unwrap (PictureID vp8) (bitM vp8) (pictureIdWrapHandler v)).1 (missingPictureIds v)))
                          else extLastPictureId v')) /\
    (late = false -> gap = true -> (om_len (missingPictureIds v') <= missingPictureIdsThreshold)%nat).
Proof.
  intros Hp Ev. unfold UpdateAndGet. rewrite Ev. destruct (Unwrap _ _ _) as [ext h]. simpl. destruct late.
  - unfold update_late. simpl. destruct (om_get ext (missingPictureIds v)) as [off|].
    + destruct (marshalled_reads payload vp8 (picture_bits (wrap_int32 (ext - off))) (wrap_uint8 (TL0PICIDX vp8 - tl0PicIdxOffset v))
        (wrap_uint8 (KEYIDX vp8 - keyIdxOffset v))) as (bytes & out & E & Hu & Hr); [done|apply picture_bits_range|apply wrap_uint8_range|].
      unfold picture_bits in E at 1. rewrite E. simpl. eexists _, _. split; [done|]. split; [done|]. split; [|done].
      intros n b [= <- <-]. exists out. do 3 eexists. split; [exact Hu|]. by split.
    + eexists _, _. split; [done|]. done.
  - destruct (negb gap && _ && _) eqn:Hd.
    { eexists _, _. split; [done|]. split; [done|]. split; [done|]. intros _ ->. done. }
    set (v1 := if gap then _ else _). set (tl0 := wrap_uint8 (TL0PICIDX vp8 - tl0PicIdxOffset v1)).
    set (key := Z.land (wrap_uint8 (KEYIDX vp8 - keyIdxOffset v1)) 31). set (e := wrap_int32 (ext - pictureIdOffset v1)).
    destruct (marshalled_reads payload vp8 (picture_bits e) tl0 key) as (bytes & out & E & Hu & Hr); [done|apply picture_bits_range|apply wrap_uint8_range|].
    unfold picture_bits in E at 1. rewrite E. simpl. eexists _, _. split; [done|]. split; [done|]. split.
    + intros n b [= <- <-]. exists out. do 3 eexists. split; [exact Hu|]. by split.
    + intros _ ->. unfold v1, after_gap. simpl. apply trim_len.
Qed.
End caches.

(** ** An ordered map that is a list, oldest key first *)

Definition ListMap (A : Type) : Type := list (Z * A).
Fixpoint lm_get {A} (k : Z) (m : ListMap A) : option A :=
  match m with [] => None | (k', v) :: m => if k =? k' then Some v else lm_get k m end.
Fixpoint lm_set {A} (k : Z) (v : A) (m : ListMap A) : ListMap A :=
  match m with [] => [(k, v)] | (k', v') :: m => if k =? k' then (k', v) :: m else (k', v') :: lm_set k v m end.
Definition lm_delete {A} (k : Z) (m : ListMap A) : ListMap A := List.filter (fun x => negb (x.1 =? k)) m.

#[export] Instance list_map : OrderedMap ListMap := {
  om_new A := []; om_get A := lm_get; om_set A := lm_set; om_delete A := lm_delete;
  om_len A m := length m; om_front A m := fst <$> head m }.

#[export] Instance list_map_laws : OrderedMapLaws ListMap.
Proof.
  split; simpl.
  - done.
  - intros A k k' v m. induction m as [|[k1 v1] m IH]; simpl; [done|].
    destruct (Z.eqb_spec k' k1) as [->|]; simpl; [by destruct (k =? k1)|].
    rewrite IH. destruct (Z.eqb_spec k k1) as [->|]; [by rewrite (proj2 (Z.eqb_neq _ _))|done].
  - intros A k k' m. induction m as [|[k1 v1] m IH]; simpl; [by destruct (k =? k')|].
    destruct (Z.eqb_spec k1 k') as [->|]; simpl; rewrite IH; [by destruct (k =? k')|].
    destruct (Z.eqb_spec k k1) as [->|]; [by rewrite (proj2 (Z.eqb_neq _ _))|done].
  - by intros A [].
  - intros A k [|[k1 v1] m] E; simpl in *; simplify_eq. rewrite Z.eqb_refl. simpl.
    assert (length (lm_delete k m) <= length m)%nat; [|unfold lm_delete in *; lia].
    induction m as [|[k2 v2] m IH]; simpl; [lia|]. destruct (negb _); simpl; unfold lm_delete in *; lia.
Qed.

End Vp8Munger.
Export Vp8Munger.

(** C30: a rewritten VP8 packet is the packet with other numbers. For every payload
    whose descriptor can be parsed, in every state, whether the packet is late,
    follows a gap or belongs to a filtered layer: nothing panics and the new
    descriptor can always be written; in front of the rest of the payload it is
    parsed back with the same flags, temporal layer and key frame mark, and with
    the identifier of the run of pictures (for a late packet, the one its picture
    had when the gap was seen); and after a gap the cache has at most fifty entries. *)
Theorem vp8_rewritten {M} `{OrderedMapLaws M} payload vp8 p late gap tl (v : VP8M) :
  Forall (fun b => 0 <= b < 256) payload -> Unmarshal (Some payload) = inr vp8 -> ep_vp8 p = Some vp8 ->
  exists res v', UpdateAndGet p late gap tl v = Some (res, v') /\ (forall e, res <> inl (HeaderError e)) /\
    (forall n bytes, res = inr (n, bytes) -> exists out tl0 key pid,
      Unmarshal (Some (bytes ++ drop (Z.to_nat n) payload)) = inr out /\ renumbered vp8 out pid tl0 key /\
      pid = picture_bits (if late then wrap_int32 ((Unwrap (PictureID vp8) (bitM vp8) (pictureIdWrapHandler v)).1 -
                                       default 0 (om_get (Unwrap (PictureID vp8) (bitM vp8) (pictureIdWrapHandler v)).1 (missingPictureIds v)))
                          else extLastPictureId v')) /\
    (late = false -> gap = true -> (om_len (missingPictureIds v') <= missingPictureIdsThreshold)%nat).
Proof. intros Hb Hu Ev. by apply UpdateAndGet_reads, Ev; apply Unmarshal_parsed. Qed.

(** C31: filtering temporal layers leaves no hole. After a switch to a source that
    numbers its pictures with 15 bits, one after the other and over any number of
    wrap-arounds, whose packets come without gaps, and where a picture is
    forwarded or filtered as a whole: exactly the packets of the pictures that are
    not filtered are forwarded, and their identifiers start after the last one
    sent before the switch and go up by one (in 15 bits) from each forwarded
    picture to the next. *)
Theorem vp8_pictures_consecutive {M} `{OrderedMapLaws M} first vp8 l (v : VP8M) :
  ep_vp8 first = Some vp8 -> bitM vp8 = true -> 0 <= PictureID vp8 < 32768 ->
  pictureIdUsed v = true -> - 2 ^ 31 <= extLastPictureId v < 2 ^ 31 -> steady (PictureID vp8 - 1) false l ->
  exists out v', run_pictures l (UpdateOffsets first v) = Some (out, v') /\
    consecutive (PictureID vp8 - 1) (picture_bits (extLastPictureId v)) out /\
    out.*1 = pp_t <$> filter (fun x => above_layer x = false) l.
Proof.
  intros Ev HM Hp Hused He Hs. pose proof (UpdateOffsets_in_step first vp8 v Ev HM Hp Hused He) as Hin.
  destruct (run_pictures_consecutive l (PictureID vp8 - 1) false (UpdateOffsets first v) (PictureID vp8 - 1) (picture_bits (extLastPictureId v)))
    as (out & v' & H1 & H2 & _ & H3); try done; [lia|by rewrite UpdateOffsets_last|]. by exists out, v'.
Qed.

(** Two layers, every second picture filtered, around a wrap-around. *)
Definition sample_payload (id : Z) : list Z := [0x90; 0xa0; Z.lor 0x80 (Z.shiftr id 8); Z.land id 0xff; 0x40; 1; 7].
Definition sample_vp8 (id : Z) : VP8 := mkVP8 0x90 true true true id false 0 true 1 false false 0 5 false.
Definition sample_picture (t temporal : Z) : picture_packet :=
  mkPP t temporal 0 (mkExtPacket temporal t 0 1 96 (sample_payload (picture_bits t)) (Some (sample_vp8 (picture_bits t))) false false).
Definition sample_munger : VP8M :=
  mkVP8M (mkWrap 41 true 0 0) 41 0 true 0 0 false true 0 0 false (om_new : ListMap Z) om_new om_new.
Definition sample_pictures : list picture_packet :=
  [sample_picture 32766 0; sample_picture 32767 1; sample_picture 32768 0; sample_picture 32769 1; sample_picture 32770 0].

Lemma sample_is_picture t temporal : Forall (fun b => 0 <= b < 256) (sample_payload (picture_bits t)) ->
  Unmarshal (Some (sample_payload (picture_bits t))) = inr (sample_vp8 (picture_bits t)) -> is_picture (sample_picture t temporal).
Proof. intros Hb Hu. split; [done|]. by exists (sample_payload (picture_bits t)), (sample_vp8 (picture_bits t)). Qed.

Lemma vp8_pictures_consecutive_witness :
  (fst <$> run_pictures sample_pictures (UpdateOffsets (pp_packet (sample_picture 32766 0)) sample_munger)) = Some [(32766, 42); (32768, 43); (32770, 44)] /\
  exists out v', run_pictures sample_pictures (UpdateOffsets (pp_packet (sample_picture 32766 0)) sample_munger) = Some (out, v') /\
    consecutive 32765 41 out.
Proof.
  split; [vm_compute; reflexivity|].
  destruct (vp8_pictures_consecutive (pp_packet (sample_picture 32766 0)) (sample_vp8 32766) sample_pictures sample_munger) as (out & v' & H1 & H2 & _).
  - reflexivity.
  - reflexivity.
  - vm_compute. split; congruence.
  - reflexivity.
  - vm_compute. split; congruence.
  - assert (Hs : forall t temporal, Forall (fun b => 0 <= b < 256) (sample_payload (picture_bits t)) ->
      Unmarshal (Some (sample_payload (picture_bits t))) = inr (sample_vp8 (picture_bits t)) -> is_picture (sample_picture t temporal))
      by apply sample_is_picture.
    cbn [steady sample_pictures]. split_and!; try (apply Hs; [repeat (constructor; [vm_compute; split; congruence|]); constructor|reflexivity]);
      try (right; reflexivity); try (vm_compute; congruence); exact I.
  - exists out, v'. split; [exact H1|exact H2].
Defined.

Lemma vp8_rewritten_witness : exists res v', UpdateAndGet (pp_packet (sample_picture 300 0)) false true 1 sample_munger = Some (res, v') /\
  (om_len (missingPictureIds v') <= 50)%nat.
Proof.
  destruct (vp8_rewritten (sample_payload 300) (sample_vp8 300) (pp_packet (sample_picture 300 0)) false true 1 sample_munger) as (res & v' & H1 & _ & _ & H2).
  - repeat (constructor; [vm_compute; split; congruence|]). constructor.
  - reflexivity.
  - reflexivity.
  - exists res, v'. split; [exact H1|by apply H2].
Defined.
