(* ===== verification/Sequencer.v ===== *)
(** * What was sent under which number

    Model of pkg/sfu/sequencer.go of the media server: a ring of the packets a
    subscriber was sent, which answers its requests for retransmission. Numbers
    of padding packets take no slot. Times are nanoseconds. *)

From S2P Require Import Prelude RangeMap Vp8 RtpMunger.
#[local] Open Scope Z_scope.

Module Sequencer.

Definition defaultRtt : Z := 70.
Definition ignoreRetransmission : Z := 100.
Definition maxAck : Z := 3.

(** Byte strings of up to eight bytes are kept in an array, longer ones in a slice. *)
Record Stored := mkStored { sd_array : list Z; sd_size : Z; sd_slice : list Z }.
Definition store_bytes (bytes : list Z) : Stored :=
  let n := length bytes in
  if (8 <? n)%nat then mkStored (replicate 8 0) (Z.of_nat n mod 256) bytes
  else mkStored (bytes ++ replicate (8 - n) 0) (Z.of_nat n mod 256) [].
Definition no_bytes : Stored := mkStored (replicate 8 0) 0 [].
(** As downtrack.go reads them. *)
Definition stored_bytes (s : Stored) : list Z :=
  if negb (Z.of_nat (length (sd_slice s)) =? 0) then sd_slice s else take (Z.to_nat (sd_size s)) (sd_array s).

Record packetMeta := mkMeta {
  sourceSeqNo : Z; targetSeqNo : Z; pm_timestamp : Z; pm_marker : bool; lastNack : Z; nacked : Z; pm_layer : Z;
  codecBytes : Stored; numCodecBytesIn : Z; ddBytes : Stored; actBytes : list Z }.
Definition empty_meta : packetMeta := mkMeta 0 0 0 false 0 0 0 no_bytes 0 no_bytes [].

Record extPacketMeta := mkExtMeta { em_meta : packetMeta; em_extSequenceNumber : Z; em_extTimestamp : Z }.

Record sequencer := mkSeq {
  sq_size : Z; startTime : Z; initialized : bool; extStartSN : Z; extHighestSN : Z; sq_snOffset : Z; extHighestTS : Z;
  meta : list packetMeta; sq_map : option RangeMap; sq_rtt : Z }.

(** [None] is the nil sequencer. *)
Definition newSequencer (now size : Z) (maybeSparse : bool) : option sequencer :=
  if size =? 0 then None else
  Some (mkSeq size now false 0 0 0 0 (replicate (Z.to_nat size) empty_meta)
    (if maybeSparse then Some (NewRangeMap (Z.quot (size + 1) 2)) else None) defaultRtt).

Definition set_rtt (rtt : Z) (s : sequencer) : sequencer :=
  mkSeq (sq_size s) (startTime s) (initialized s) (extStartSN s) (extHighestSN s) (sq_snOffset s) (extHighestTS s) (meta s) (sq_map s) rtt.
Definition setRTT (rtt : Z) (s : sequencer) : sequencer := set_rtt (if rtt =? 0 then defaultRtt else rtt) s.

Definition set_meta (l : list packetMeta) (s : sequencer) : sequencer :=
  mkSeq (sq_size s) (startTime s) (initialized s) (extStartSN s) (extHighestSN s) (sq_snOffset s) (extHighestTS s) l (sq_map s) (sq_rtt s).
Definition set_highest (sn ts : Z) (s : sequencer) : sequencer :=
  mkSeq (sq_size s) (startTime s) (initialized s) (extStartSN s) sn (sq_snOffset s) ts (meta s) (sq_map s) (sq_rtt s).
Definition set_sq_offset (o : Z) (s : sequencer) : sequencer :=
  mkSeq (sq_size s) (startTime s) (initialized s) (extStartSN s) (extHighestSN s) o (extHighestTS s) (meta s) (sq_map s) (sq_rtt s).
Definition set_sq_map (m : RangeMap) (s : sequencer) : sequencer :=
  mkSeq (sq_size s) (startTime s) (initialized s) (extStartSN s) (extHighestSN s) (sq_snOffset s) (extHighestTS s) (meta s) (Some m) (sq_rtt s).

Definition getRefTime (at_ : Z) (s : sequencer) : Z := (Z.quot (at_ - startTime s) 1000000) mod 2 ^ 32.

Definition updateSNOffset (s : sequencer) : sequencer :=
  match sq_map s with
  | None => s
  | Some m => match GetValue (wrap_uint64 (extHighestSN s + 1)) m with inr v => set_sq_offset v s | inl _ => s end
  end.

Definition invalidateSlot (slot : Z) (s : sequencer) : sequencer := set_meta (<[Z.to_nat slot := empty_meta]> (meta s)) s.
Definition is_invalid_meta (m : packetMeta) : bool := (sourceSeqNo m =? 0) && (targetSeqNo m =? 0) && (lastNack m =? 0).
Definition isInvalidSlot (slot : Z) (s : sequencer) : bool :=
  match meta s !! Z.to_nat slot with Some m => is_invalid_meta m | None => true end.

(** The first push starts the sequence. *)
Definition seq_init (sn ts : Z) (s : sequencer) : sequencer :=
  if initialized s then s else
  updateSNOffset (mkSeq (sq_size s) (startTime s) true sn sn (sq_snOffset s) ts (meta s) (sq_map s) (sq_rtt s)).

(** From [esn] on, at most [fuel] slots, up to but not including [stop]. *)
Fixpoint invalidate_gap (fuel : nat) (esn stop : Z) (s : sequencer) : sequencer :=
  match fuel with
  | O => s
  | S fuel =>
      if esn =? stop then s
      else invalidate_gap fuel (wrap_uint64 (esn + 1)) stop (invalidateSlot (esn mod sq_size s) s)
  end.

(** A packet to be recorded. *)
Record pushed := mkPushed {
  pu_time : Z; pu_in : Z; pu_sn : Z; pu_ts : Z; pu_marker : bool; pu_layer : Z;
  pu_codec : list Z; pu_codec_in : Z; pu_dd : list Z; pu_act : list Z }.

Definition pushed_meta (p : pushed) (s : sequencer) : packetMeta :=
  mkMeta (pu_in p) (pu_sn p mod 2 ^ 16) (pu_ts p mod 2 ^ 32) (pu_marker p) (getRefTime (pu_time p) s) 0 (pu_layer p)
    (store_bytes (pu_codec p)) (pu_codec_in p mod 256) (store_bytes (pu_dd p)) (pu_act p).

(** The number without the padding before it; [None] when it cannot be told. *)
Definition adjusted (sn : Z) (s : sequencer) : option Z :=
  if sn <? extHighestSN s then
    match sq_map s with
    | Some m => match GetValue sn m with inr o => Some (wrap_uint64 (sn - o)) | inl _ => None end
    | None => Some (wrap_uint64 (sn - sq_snOffset s))
    end
  else Some (wrap_uint64 (sn - sq_snOffset s)).

Definition push (p : pushed) (s : sequencer) : sequencer :=
  let s := seq_init (pu_sn p) (pu_ts p) s in
  if pu_sn p <? extStartSN s then s else
  let highest := wrap_uint64 (extHighestSN s - sq_snOffset s) in
  match adjusted (pu_sn p) s with
  | None => s
  | Some adj =>
      if wrap_int64 (adj - highest) <=? - sq_size s then s else
      let s := if highest <? adj then invalidate_gap (Z.to_nat (sq_size s)) (wrap_uint64 (highest + 1)) adj s else s in
      let s := set_meta (<[Z.to_nat (adj mod sq_size s) := pushed_meta p s]> (meta s)) s in
      set_highest (Z.max (pu_sn p) (extHighestSN s)) (Z.max (pu_ts p) (extHighestTS s)) s
  end.

(** The slots of old padding are emptied, from [esn] on, [n] numbers. *)
Fixpoint invalidate_old (n : nat) (esn : Z) (m : RangeMap) (s : sequencer) : sequencer :=
  match n with
  | O => s
  | S n =>
      let diff := wrap_int64 (esn - extHighestSN s) in
      let s' :=
        if (0 <=? diff) || (diff <? - sq_size s) then s
        else match GetValue esn m with
             | inl _ => s
             | inr o => invalidateSlot (wrap_uint64 (esn - o) mod sq_size s) s
             end in
      invalidate_old n (wrap_uint64 (esn + 1)) m s'
  end.

(** [None] is a panic in the range map. *)
Definition pushPadding (first last : Z) (s : sequencer) : option sequencer :=
  match sq_map s with
  | None => Some s
  | Some m =>
      if negb (initialized s) then Some s else
      if first <=? extHighestSN s
      then Some (invalidate_old (Z.to_nat (wrap_uint64 (wrap_uint64 (last + 1) - first))) first m s)
      else
        r ← ExcludeRange first (wrap_uint64 (last + 1)) m;
        Some (match r with
              | inl _ => s
              | inr m => updateSNOffset (set_highest last (extHighestTS s) (set_sq_map m s))
              end)
  end.

Definition ext_timestamp (ts : Z) (s : sequencer) : Z :=
  let extTS := wrap_uint64 (ts + (extHighestTS s - extHighestTS s mod 2 ^ 32)) in
  if extHighestTS s mod 2 ^ 32 <? ts then wrap_uint64 (extTS - 2 ^ 32) else extTS.

Definition offset_of (sn : Z) (s : sequencer) : option Z :=
  match sq_map s with
  | None => Some 0
  | Some m => match GetValue sn m with inr o => Some o | inl _ => None end
  end.

(** The slot of a number, if it may still be there. *)
Definition slot_of (extSN : Z) (s : sequencer) : option Z :=
  o ← offset_of extSN s;
  let adj := wrap_uint64 (extSN - o) in
  if sq_size s <=? wrap_uint64 (wrap_uint64 (extHighestSN s - sq_snOffset s) - adj) then None
  else Some (adj mod sq_size s).

(** The last two parts of a requested 16-bit number, put together. *)
Definition ext_of (sn : Z) (s : sequencer) : Z :=
  let e := wrap_uint64 (sn + (extHighestSN s - extHighestSN s mod 2 ^ 16)) in
  if extHighestSN s mod 2 ^ 16 <? sn then wrap_uint64 (e - 2 ^ 16) else e.

Definition nack_due (refTime : Z) (m : packetMeta) (s : sequencer) : bool :=
  (nacked m <? maxAck) && (Z.min ignoreRetransmission (2 * sq_rtt s mod 2 ^ 32) <? (refTime - lastNack m) mod 2 ^ 32).

(** One request. *)
Definition get_meta (refTime sn : Z) (s : sequencer) : option extPacketMeta * sequencer :=
  if 2 ^ 15 <? (extHighestSN s mod 2 ^ 16 - sn) mod 2 ^ 16 then (None, s) else
  let extSN := ext_of sn s in
  match slot_of extSN s with
  | None => (None, s)
  | Some slot =>
      match meta s !! Z.to_nat slot with
      | None => (None, s)
      | Some m =>
          if negb (targetSeqNo m =? sn) || is_invalid_meta m then (None, s) else
          if nack_due refTime m s then
            let m := mkMeta (sourceSeqNo m) (targetSeqNo m) (pm_timestamp m) (pm_marker m) refTime ((nacked m + 1) mod 256)
                       (pm_layer m) (codecBytes m) (numCodecBytesIn m) (ddBytes m) (actBytes m) in
            (Some (mkExtMeta m extSN (ext_timestamp (pm_timestamp m) s)), set_meta (<[Z.to_nat slot := m]> (meta s)) s)
          else (None, s)
      end
  end.

Fixpoint get_metas (refTime : Z) (seqNo : list Z) (s : sequencer) : list extPacketMeta * sequencer :=
  match seqNo with
  | [] => ([], s)
  | sn :: seqNo =>
      let '(r, s) := get_meta refTime sn s in
      let '(l, s) := get_metas refTime seqNo s in
      (match r with Some e => e :: l | None => l end, s)
  end.

Definition getExtPacketMetas (now : Z) (seqNo : list Z) (s : sequencer) : list extPacketMeta * sequencer :=
  if negb (initialized s) then ([], s) else get_metas (getRefTime now s) seqNo s.

Definition lookupExtPacketMeta (extSN : Z) (s : sequencer) : option extPacketMeta :=
  if negb (initialized s) then None else
  slot ← slot_of extSN s;
  m ← meta s !! Z.to_nat slot;
  if is_invalid_meta m then None else Some (mkExtMeta m extSN (ext_timestamp (pm_timestamp m) s)).

(** ** Bytes are kept as they are *)

Lemma stored_bytes_store bytes : stored_bytes (store_bytes bytes) = bytes.
Proof.
  unfold stored_bytes, store_bytes. destruct (Nat.ltb_spec 8 (length bytes)); simpl.
  - by rewrite (proj2 (Z.eqb_neq _ _)) by lia.
  - rewrite Z.mod_small by lia. by rewrite Nat2Z.id, take_app_length.
Qed.

(** ** Runs *)

Inductive sevent := SPush (p : pushed) | SPadding (first last : Z) | SNack (now : Z) (seqNo : list Z) | SRtt (rtt : Z).

(** The state, and all packets that were pushed. *)
Definition sstep (e : sevent) (x : sequencer * list pushed) : option (sequencer * list pushed) :=
  let '(s, log) := x in
  match e with
  | SPush p => Some (push p s, log ++ [p])
  | SPadding first last => s' ← pushPadding first last s; Some (s', log)
  | SNack now seqNo => Some ((getExtPacketMetas now seqNo s).2, log)
  | SRtt rtt => Some (setRTT rtt s, log)
  end.

(** Padding is recorded when it is sent: it does not leave numbers out. A number
    that was padding is not used for a packet. *)
Definition s_allowed (e : sevent) (s : sequencer) : Prop :=
  match e with
  | SPush p => 0 <= pu_sn p < sn_limit /\ 0 <= pu_ts p < two63 /\ (initialized s = true -> pu_sn p = extHighestSN s -> is_Some (offset_of (pu_sn p) s))
  | SPadding first last => 0 <= first <= last /\ last < sn_limit /\ (initialized s = true -> first <= extHighestSN s + 1)
  | SNack _ seqNo => Forall (fun sn => 0 <= sn < 65536) seqNo
  | SRtt _ => True
  end.

Inductive sreach (x0 : sequencer * list pushed) : sequencer * list pushed -> Prop :=
  | sreach_refl : sreach x0 x0
  | sreach_step x e x' : sreach x0 x -> s_allowed e x.1 -> sstep e x = Some x' -> sreach x0 x'.

(** ** The invariant *)

(** [m] records [p], requests aside. *)
Definition records (m : packetMeta) (p : pushed) : Prop :=
  sourceSeqNo m = pu_in p /\ targetSeqNo m = pu_sn p mod 2 ^ 16 /\ pm_timestamp m = pu_ts p mod 2 ^ 32 /\
  pm_marker m = pu_marker p /\ pm_layer m = pu_layer p /\ codecBytes m = store_bytes (pu_codec p) /\
  numCodecBytesIn m = pu_codec_in p mod 256 /\ ddBytes m = store_bytes (pu_dd p) /\ actBytes m = pu_act p.

Definition value_of (k : Z) (om : option RangeMap) : option Z := match om with None => Some 0 | Some m => value_at k m end.

(** [g] numbers the packets, without the padding; [top] is the number of the last. *)
Record numbered (h top : Z) (om : option RangeMap) (g : Z -> option Z) : Prop := {
  nu_range : forall k a, g k = Some a -> 0 <= k <= h /\ a <= top;
  nu_mono : forall k1 k2 a1 a2, g k1 = Some a1 -> g k2 = Some a2 -> k1 < k2 -> a1 < a2;
  nu_map : forall k v, 0 <= k <= h -> value_of k om = Some v -> 0 <= v <= k /\ g k = Some (k - v) }.

Definition map_ok (om : option RangeMap) (h offset : Z) : Prop :=
  match om with None => offset = 0 | Some m => rm_ok m /\ open_start m <= h + 1 /\ offset = open_value m end.

Definition slots_ok (size top ts : Z) (g : Z -> option Z) (l : list packetMeta) (log : list pushed) : Prop :=
  forall i m, l !! i = Some m -> is_invalid_meta m = true \/
    exists p a, p ∈ log /\ records m p /\ 0 <= pu_ts p <= ts /\ g (pu_sn p) = Some a /\ top - size < a <= top /\ Z.to_nat (a mod size) = i.

Record seq_inv (s : sequencer) (log : list pushed) : Prop := {
  si_high : 0 <= extHighestSN s < sn_limit;
  si_ts : 0 <= extHighestTS s < two63;
  si_offset : 0 <= sq_snOffset s <= extHighestSN s;
  si_map : map_ok (sq_map s) (extHighestSN s) (sq_snOffset s);
  si_last : forall v, value_of (extHighestSN s) (sq_map s) = Some v -> v = sq_snOffset s;
  si_slots : exists g, numbered (extHighestSN s) (extHighestSN s - sq_snOffset s) (sq_map s) g /\
    slots_ok (sq_size s) (extHighestSN s - sq_snOffset s) (extHighestTS s) g (meta s) log }.

(** Before the first packet. *)
Record seq_fresh (s : sequencer) : Prop := {
  sf_meta : forall i m, meta s !! i = Some m -> is_invalid_meta m = true;
  sf_offset : sq_snOffset s = 0;
  sf_map : map_ok (sq_map s) 0 0;
  sf_value : forall k, 0 <= k -> value_of k (sq_map s) = Some 0;
  sf_open : forall m, sq_map s = Some m -> open_start m = 0 }.

Record seq_ok (x : sequencer * list pushed) : Prop := {
  se_size : 1 <= sq_size x.1 < two63;
  se_length : Z.of_nat (length (meta x.1)) = sq_size x.1;
  se_inv : if initialized x.1 then seq_inv x.1 x.2 else seq_fresh x.1 }.

Lemma offset_of_value k s : map_ok (sq_map s) (extHighestSN s) (sq_snOffset s) -> 0 <= k < two63 -> offset_of k s = value_of k (sq_map s).
Proof.
  unfold offset_of, value_of, map_ok. destruct (sq_map s) as [m|]; [|done]. intros (Hm & _) Hk.
  rewrite GetValue_lookup by done. done.
Qed.

(** Emptying slots keeps what the others hold. *)
Lemma slots_invalid size top ts g l log i : slots_ok size top ts g l log -> slots_ok size top ts g (<[i := empty_meta]> l) log.
Proof.
  intros H j m Hj. destruct (decide (i = j)) as [->|Hne].
  - destruct (decide (j < length l)%nat); [|rewrite list_insert_ge in Hj by lia; by apply H].
    rewrite list_lookup_insert_eq in Hj by done. simplify_eq. by left.
  - rewrite list_lookup_insert_ne in Hj by done. by apply H.
Qed.

Lemma invalidate_gap_spec fuel x stop s : 0 <= x -> x <= stop < two63 ->
  let s' := invalidate_gap fuel x stop s in
  (exists l, s' = set_meta l s /\ length l = length (meta s) /\
    forall i m, l !! i = Some m -> is_invalid_meta m = true \/
      (meta s !! i = Some m /\ forall k, x <= k < stop -> k < x + Z.of_nat fuel -> Z.to_nat (k mod sq_size s) <> i)).
Proof.
  revert x s. induction fuel as [|fuel IH]; intros x s Hx Hs.
  { exists (meta s). split; [by destruct s|]. split; [done|]. intros i m Hi. right. split; [done|]. lia. }
  simpl. destruct (Z.eqb_spec x stop) as [->|Hne].
  { exists (meta s). split; [by destruct s|]. split; [done|]. intros i m Hi. right. split; [done|]. lia. }
  rewrite wrap_u64_id by lia. destruct (IH (x + 1) (invalidateSlot (x mod sq_size s) s)) as (l & -> & Hl & H); [lia..|].
  exists l. split; [done|]. split; [rewrite Hl; simpl; by rewrite length_insert|].
  intros i m Hi. apply H in Hi as [?|[Hi Hk]]; [by left|]. simpl in Hi, Hk.
  destruct (decide (Z.to_nat (x mod sq_size s) = i)) as [<-|Hi'].
  - left. destruct (decide (Z.to_nat (x mod sq_size s) < length (meta s))%nat).
    + rewrite list_lookup_insert_eq in Hi by done. by simplify_eq.
    + rewrite list_insert_ge in Hi by lia. apply lookup_lt_Some in Hi. lia.
  - rewrite list_lookup_insert_ne in Hi by done. right. split; [done|]. intros k Hk1 Hk2.
    destruct (decide (k = x)) as [->|]; [done|]. apply Hk; lia.
Qed.

Lemma new_seq_ok now size sparse s : 1 <= size < two63 -> newSequencer now size sparse = Some s -> seq_ok (s, []).
Proof.
  intros Hs. unfold newSequencer. destruct (size =? 0); [done|]. intros [= <-]. split; simpl; [done|rewrite length_replicate; lia|].
  split; simpl.
  - intros i m Hm%lookup_replicate. destruct Hm as [-> _]. done.
  - done.
  - destruct sparse; [|done]. split; [apply NewRangeMap_ok|]. unfold open_start, open_value. simpl. lia.
  - intros k Hk. destruct sparse; [|done]. simpl. rewrite value_at_open; [done|apply NewRangeMap_ok|unfold open_start; simpl; lia].
  - intros m. by destruct sparse; intros [= <-].
Qed.

Lemma updateSNOffset_spec s : match sq_map s with Some m => rm_ok m /\ open_start m <= extHighestSN s + 1 | None => True end ->
  0 <= extHighestSN s < sn_limit ->
  updateSNOffset s = set_sq_offset (match sq_map s with Some m => open_value m | None => sq_snOffset s end) s.
Proof.
  intros Hm Hh. unfold updateSNOffset. destruct (sq_map s) as [m|]; [|by destruct s]. destruct Hm as [Hm Ho].
  rewrite wrap_u64_id by (unfold sn_limit, two63 in *; lia).
  assert (E : GetValue (extHighestSN s + 1) m = inr (open_value m)); [|by rewrite E].
  apply value_at_settled; [done|unfold sn_limit, two63 in *; lia|by apply value_at_open].
Qed.

(** The state a push works on. *)
Lemma seq_init_ok p s log : seq_ok (s, log) -> 0 <= pu_sn p < sn_limit -> 0 <= pu_ts p < two63 ->
  let s1 := seq_init (pu_sn p) (pu_ts p) s in
  seq_inv s1 log /\ initialized s1 = true /\ sq_size s1 = sq_size s /\ length (meta s1) = length (meta s) /\
  (initialized s = true -> s1 = s) /\ (initialized s = false -> extHighestSN s1 = pu_sn p).
Proof.
  intros [_ _ Hi] Hp Ht. simpl in Hi. unfold seq_init. destruct (initialized s) eqn:Ei; simpl; [done|].
  destruct Hi as [Hm Hoff Hmap Hval Hopen]. set (s1 := mkSeq _ _ _ _ _ _ _ _ _ _).
  assert (E : updateSNOffset s1 = s1).
  { rewrite updateSNOffset_spec; simpl; [|destruct (sq_map s) as [m|] eqn:E; [split; [apply Hmap|rewrite (Hopen m); [lia|done]]|done]|done].
    unfold s1. destruct (sq_map s) as [m|] eqn:E; [|done]. destruct Hmap as (_ & _ & Hmap). unfold set_sq_offset. simpl. by rewrite <- Hmap, Hoff. }
  rewrite E. split; [|split_and!; done || by rewrite Ei]. split; simpl; try done; try lia.
  - unfold map_ok in *. rewrite Hoff. destruct (sq_map s); [|done]. destruct Hmap as (? & ? & ?). split_and!; done || lia.
  - intros v. rewrite Hval by lia. rewrite Hoff. by intros [= <-].
  - rewrite Hoff, Z.sub_0_r. exists (fun k => if (0 <=? k) && (k <=? pu_sn p) then Some k else None). split; [split|].
    + intros k a. destruct (Z.leb_spec 0 k), (Z.leb_spec k (pu_sn p)); simpl; intros; simplify_eq; lia.
    + intros k1 k2 a1 a2. do 2 case_match; intros; simplify_eq; lia.
    + intros k v Hk E'. rewrite Hval in E' by lia. simplify_eq. rewrite Z.sub_0_r.
      rewrite (proj2 (Z.leb_le 0 k)), (proj2 (Z.leb_le k _)) by lia. split; [lia|done].
    + intros i m Hi. left. by eapply Hm.
Qed.

Lemma slots_mono size top ts ts' g l log log' : slots_ok size top ts g l log -> ts <= ts' -> (forall p, p ∈ log -> p ∈ log') ->
  slots_ok size top ts' g l log'.
Proof.
  intros H Ht Hl i m Hi. destruct (H i m Hi) as [?|(p & a & H1 & H2 & H3 & H4 & H5 & H6)]; [by left|right].
  exists p, a. split; [by apply Hl|]. split; [done|]. split; [lia|done].
Qed.

Lemma inv_more s log log' : seq_inv s log -> (forall p, p ∈ log -> p ∈ log') -> seq_inv s log'.
Proof.
  intros [H1 H2 H3 H4 H5 (g & Hg & Hs)] Hl. split; try done. exists g. split; [done|]. by eapply slots_mono.
Qed.

Lemma records_pushed p s : records (pushed_meta p s) p.
Proof. done. Qed.

(** A packet in its slot. *)
Lemma slots_write size top ts g l log p a m : 1 <= size -> slots_ok size top ts g l log -> p ∈ log -> records m p -> 0 <= pu_ts p <= ts ->
  g (pu_sn p) = Some a -> top - size < a <= top -> slots_ok size top ts g (<[Z.to_nat (a mod size) := m]> l) log.
Proof.
  intros Hsz H Hp Hm Hts Hg Ha i m' Hi. destruct (decide (Z.to_nat (a mod size) = i)) as [<-|Hne].
  - destruct (decide (Z.to_nat (a mod size) < length l)%nat); [|rewrite list_insert_ge in Hi by lia; by apply H].
    rewrite list_lookup_insert_eq in Hi by done. simplify_eq. right. by exists p, a.
  - rewrite list_lookup_insert_ne in Hi by done. by apply H.
Qed.

(** The window moves to [top'], with the slots on the way emptied and the last one written. *)
Lemma slots_advance size top top' ts g g' l l' log p m : 1 <= size < two63 -> top < top' -> slots_ok size top ts g l log ->
  (forall k a, g k = Some a -> g' k = Some a) -> p ∈ log -> records m p -> 0 <= pu_ts p <= ts -> g' (pu_sn p) = Some top' ->
  (forall i m, l' !! i = Some m -> is_invalid_meta m = true \/
     (l !! i = Some m /\ forall k, top + 1 <= k < top' -> k < top + 1 + size -> Z.to_nat (k mod size) <> i)) ->
  slots_ok size top' ts g' (<[Z.to_nat (top' mod size) := m]> l') log.
Proof.
  intros Hsz Htop H Hgg Hp Hm Hts Hg Hl i m' Hi. destruct (decide (Z.to_nat (top' mod size) = i)) as [<-|Hne].
  - destruct (decide (Z.to_nat (top' mod size) < length l')%nat) as [|Hge].
    + rewrite list_lookup_insert_eq in Hi by done. simplify_eq. right. exists p, top'. split_and!; done || lia.
    + rewrite list_insert_ge in Hi by lia. apply lookup_lt_Some in Hi. lia.
  - rewrite list_lookup_insert_ne in Hi by done. apply Hl in Hi as [?|[Hi Hk]]; [by left|].
    apply H in Hi as [?|(q & a & Hq & Hmq & Htq & Hgq & Ha & Hai)]; [by left|right].
    exists q, a. split_and!; try done; try lia; [by apply Hgg|].
    destruct (Z.le_gt_cases a (top' - size)) as [Hle|]; [exfalso|lia].
    assert (Emod : (a + size) mod size = a mod size) by (replace (a + size) with (a + 1 * size) by lia; apply Z_mod_plus_full).
    destruct (decide (a + size = top')) as [E|Hne']; [apply Hne; by rewrite <- E, Emod|].
    apply (Hk (a + size)); [lia|lia|]. by rewrite Emod.
Qed.

Lemma numbered_advance h off om g e : numbered h (h - off) om g -> 0 <= off <= h -> 0 <= h < e -> map_ok om h off ->
  let g' k := if k <=? h then g k else if k <=? e then Some (k - off) else None in
  numbered e (e - off) om g' /\ (forall k a, g k = Some a -> g' k = Some a) /\ g' e = Some (e - off) /\
  map_ok om e off /\ (forall v, value_of e om = Some v -> v = off).
Proof.
  intros [H1 H2 H3] Hoff He Hm g'.
  assert (Hv : forall k v, h < k -> value_of k om = Some v -> v = off).
  { intros k v Hk. unfold value_of, map_ok in *. destruct om as [m|]; [|intros; simplify_eq; done]. destruct Hm as (Hm & Ho & ->).
    rewrite value_at_open by (done || lia). by intros [= <-]. }
  split_and!.
  - split; unfold g'.
    + intros k a. destruct (Z.leb_spec k h); [intros E%H1; lia|]. destruct (Z.leb_spec k e); intros; simplify_eq. lia.
    + intros k1 k2 a1 a2. destruct (Z.leb_spec k1 h), (Z.leb_spec k2 h); [by apply H2|..].
      * intros E1%H1. destruct (Z.leb_spec k2 e); intros; simplify_eq. lia.
      * destruct (Z.leb_spec k1 e); intros; simplify_eq. lia.
      * destruct (Z.leb_spec k1 e), (Z.leb_spec k2 e); intros; simplify_eq. lia.
    + intros k v Hk E. destruct (Z.leb_spec k h); [apply H3; [lia|done]|]. rewrite (proj2 (Z.leb_le k e)) by lia.
      apply Hv in E as ->; [|done]. split; [lia|done].
  - intros k a E. unfold g'. pose proof (H1 _ _ E). by rewrite (proj2 (Z.leb_le k h)) by lia.
  - unfold g'. by rewrite (proj2 (Z.leb_gt e h)), (proj2 (Z.leb_le e e)) by lia.
  - unfold map_ok in *. destruct om; [|done]. destruct Hm as (? & ? & ?). split_and!; done || lia.
  - intros v. apply Hv. lia.
Qed.

Lemma push_new_ok p s log : 1 <= sq_size s < two63 -> seq_inv s log -> extHighestSN s < pu_sn p < sn_limit -> 0 <= pu_ts p < two63 ->
  Z.of_nat (length (meta s)) = sq_size s -> extStartSN s <= pu_sn p -> initialized s = true ->
  seq_inv (push p s) (log ++ [p]) /\ sq_size (push p s) = sq_size s /\ length (meta (push p s)) = length (meta s) /\ initialized (push p s) = true.
Proof.
  intros Hsz [Hh Hts Ho Hm Hlast (g & Hg & Hsl)] Hp Hpt Hlen Hst Hini. unfold push.
  assert (Es : seq_init (pu_sn p) (pu_ts p) s = s) by (unfold seq_init; by rewrite Hini). rewrite Es. clear Es.
  rewrite (proj2 (Z.ltb_ge _ _)) by done. unfold adjusted. rewrite (proj2 (Z.ltb_ge _ _)) by lia.
  assert (E1 : wrap_uint64 (pu_sn p - sq_snOffset s) = pu_sn p - sq_snOffset s) by (apply wrap_u64_id; unfold sn_limit, two63 in *; lia).
  assert (E2 : wrap_uint64 (extHighestSN s - sq_snOffset s) = extHighestSN s - sq_snOffset s) by (apply wrap_u64_id; unfold sn_limit, two63 in *; lia).
  rewrite E1, E2. rewrite diff_signed by (unfold sn_limit, two63 in *; lia).
  rewrite (proj2 (Z.leb_gt _ _)) by lia. rewrite (proj2 (Z.ltb_lt _ _)) by lia.
  rewrite wrap_u64_id by (unfold sn_limit, two63 in *; lia).
  destruct (invalidate_gap_spec (Z.to_nat (sq_size s)) (extHighestSN s - sq_snOffset s + 1) (pu_sn p - sq_snOffset s) s) as (l & -> & Hl & Hgap);
    [lia|unfold sn_limit, two63 in *; lia|].
  destruct (numbered_advance _ _ _ _ (pu_sn p) Hg Ho ltac:(lia) Hm) as (Hg' & Hgg & Hge & Hm' & Hv).
  simpl. split; [|split; [done|split; [by rewrite length_insert|done]]].
  split; simpl; rewrite ?Z.max_l by lia; try done; try lia.
  eexists. split; [exact Hg'|]. eapply (slots_advance _ (extHighestSN s - sq_snOffset s)); try done; try lia.
  - eapply slots_mono; [exact Hsl|lia|]. intros q Hq. apply elem_of_app. by left.
  - apply elem_of_app. right. by apply list_elem_of_singleton.
  - intros i m Hi. apply Hgap in Hi as [?|[Hi Hk]]; [by left|right]. split; [done|]. intros k H1 H2. apply Hk; lia.
Qed.

(** The number of a packet that is not new. *)
Lemma adjusted_old p s log g : seq_inv s log -> numbered (extHighestSN s) (extHighestSN s - sq_snOffset s) (sq_map s) g ->
  0 <= pu_sn p <= extHighestSN s -> (pu_sn p = extHighestSN s -> is_Some (offset_of (pu_sn p) s)) ->
  adjusted (pu_sn p) s = None \/ exists a, adjusted (pu_sn p) s = Some a /\ g (pu_sn p) = Some a /\ 0 <= a.
Proof.
  intros [Hh Hts Ho Hm Hlast _] Hg Hp Heq. unfold adjusted.
  assert (Hk : 0 <= pu_sn p < two63) by (unfold sn_limit, two63 in *; lia).
  assert (Hval : forall v, value_of (pu_sn p) (sq_map s) = Some v -> wrap_uint64 (pu_sn p - v) = pu_sn p - v /\ g (pu_sn p) = Some (pu_sn p - v) /\ 0 <= pu_sn p - v).
  { intros v Hv. destruct (nu_map _ _ _ _ Hg (pu_sn p) v) as [Hv1 Hv2]; [lia|done|]. split_and!; [|done|lia]. apply wrap_u64_id. lia. }
  destruct (Z.ltb_spec (pu_sn p) (extHighestSN s)).
  - destruct (sq_map s) as [m|] eqn:Em.
    + destruct Hm as (Hm & _). rewrite GetValue_lookup by done. unfold value_of, value_at in Hval.
      destruct (lookup (pu_sn p) m) as [|v]; [by left|right]. destruct (Hval v eq_refl) as (-> & H1 & H2). eauto.
    + right. unfold map_ok in Hm. rewrite Hm. destruct (Hval 0 eq_refl) as (-> & H1 & H2). eauto.
  - assert (E : pu_sn p = extHighestSN s) by lia. destruct (Heq E) as [v Hv]. rewrite offset_of_value in Hv by done.
    right. assert (v = sq_snOffset s) as -> by (apply Hlast; by rewrite <- E). destruct (Hval _ Hv) as (-> & H1 & H2). eauto.
Qed.

Lemma push_old_ok p s log : 1 <= sq_size s < two63 -> seq_inv s log -> 0 <= pu_sn p <= extHighestSN s -> 0 <= pu_ts p < two63 ->
  (pu_sn p = extHighestSN s -> is_Some (offset_of (pu_sn p) s)) -> initialized s = true ->
  seq_inv (push p s) (log ++ [p]) /\ sq_size (push p s) = sq_size s /\ length (meta (push p s)) = length (meta s) /\ initialized (push p s) = true.
Proof.
  intros Hsz Hinv Hp Hpt Heq Hini. pose proof Hinv as [Hh Hts Ho Hm Hlast (g & Hg & Hsl)]. unfold push.
  assert (Es : seq_init (pu_sn p) (pu_ts p) s = s) by (unfold seq_init; by rewrite Hini). rewrite Es. clear Es.
  assert (Hsame : seq_inv s (log ++ [p])) by (eapply inv_more; [exact Hinv|]; intros q Hq; apply elem_of_app; by left).
  destruct (pu_sn p <? extStartSN s); [done|].
  destruct (adjusted_old p s log g) as [->|(a & -> & Ea & Ha)]; try done.
  assert (E2 : wrap_uint64 (extHighestSN s - sq_snOffset s) = extHighestSN s - sq_snOffset s) by (apply wrap_u64_id; unfold sn_limit, two63 in *; lia).
  rewrite E2. pose proof (nu_range _ _ _ _ Hg _ _ Ea). rewrite diff_signed by (unfold sn_limit, two63 in *; lia).
  destruct (Z.leb_spec (a - (extHighestSN s - sq_snOffset s)) (- sq_size s)); [done|].
  rewrite (proj2 (Z.ltb_ge _ _)) by lia. simpl. split; [|split; [done|split; [by rewrite length_insert|done]]].
  split; simpl; rewrite ?(Z.max_r (pu_sn p)) by lia; try done; try lia.
  exists g. split; [done|]. eapply slots_write; try done; [lia| | |lia|lia].
  - eapply slots_mono; [exact Hsl|lia|]. intros q Hq. apply elem_of_app. by left.
  - apply elem_of_app. right. by apply list_elem_of_singleton.
Qed.

Lemma push_ok p s log : seq_ok (s, log) -> s_allowed (SPush p) s -> seq_ok (push p s, log ++ [p]).
Proof.
  intros Hok (Hp & Ht & Heq). pose proof Hok as [Hsz Hlen Hinv]. simpl in *.
  destruct (seq_init_ok p s log Hok Hp Ht) as (Hinv1 & Hini & Es1 & Es2 & Hsame & Hnew).
  set (s1 := seq_init (pu_sn p) (pu_ts p) s) in *.
  assert (Epush : push p s = push p s1).
  { unfold push. assert (E : seq_init (pu_sn p) (pu_ts p) s1 = s1) by (unfold seq_init at 1; by rewrite Hini). by rewrite E. }
  rewrite Epush. assert (Hsz1 : 1 <= sq_size s1 < two63) by by rewrite Es1.
  assert (Hres : seq_inv (push p s1) (log ++ [p]) /\ sq_size (push p s1) = sq_size s1 /\ length (meta (push p s1)) = length (meta s1) /\ initialized (push p s1) = true).
  { destruct (Z.le_gt_cases (pu_sn p) (extHighestSN s1)) as [Hle|Hgt].
    - apply push_old_ok; try done; [lia|]. intros E. destruct (initialized s) eqn:Ei.
      + rewrite (Hsame eq_refl) in *. by apply Heq.
      + rewrite offset_of_value; [|apply Hinv1|unfold sn_limit, two63 in *; lia].
        assert (Hv : value_of (pu_sn p) (sq_map s1) = Some 0); [|by rewrite Hv].
        assert (Em : sq_map s1 = sq_map s).
        { unfold s1, seq_init. rewrite Ei. unfold updateSNOffset. simpl. destruct (sq_map s); [|done]. by destruct (GetValue _ _). }
        rewrite Em. apply (sf_value _ Hinv). lia.
    - destruct (Z.le_gt_cases (extStartSN s1) (pu_sn p)).
      + apply push_new_ok; try done; [lia|]. by rewrite Es1, Es2.
      + unfold push. assert (E : seq_init (pu_sn p) (pu_ts p) s1 = s1) by (unfold seq_init at 1; by rewrite Hini). rewrite E.
        rewrite (proj2 (Z.ltb_lt _ _)) by done. split_and!; try done. eapply inv_more; [exact Hinv1|]. intros q Hq. apply elem_of_app. by left. }
  destruct Hres as (H1 & H2 & H3 & H4). split; simpl; [by rewrite H2, Es1|by rewrite H3, H2, Es1, Es2|by rewrite H4].
Qed.

Lemma invalidate_old_ok n esn m s log : seq_inv s log ->
  seq_inv (invalidate_old n esn m s) log /\ sq_size (invalidate_old n esn m s) = sq_size s /\
  length (meta (invalidate_old n esn m s)) = length (meta s) /\ initialized (invalidate_old n esn m s) = initialized s.
Proof.
  revert esn s. induction n as [|n IH]; intros esn s Hinv; [done|]. simpl.
  assert (Hi : forall i, seq_inv (invalidateSlot i s) log).
  { intros i. destruct Hinv as [H1 H2 H3 H4 H5 (g & Hg & Hs)]. split; simpl; try done. exists g. split; [done|]. by apply slots_invalid. }
  destruct (_ || _); [by apply IH|]. destruct (GetValue esn m) as [|o]; [by apply IH|].
  destruct (IH (wrap_uint64 (esn + 1)) (invalidateSlot (wrap_uint64 (esn - o) mod sq_size s) s) (Hi _)) as (H1 & H2 & H3 & H4).
  split_and!; try done. rewrite H3. simpl. by rewrite length_insert.
Qed.

Lemma padding_seq_ok first last s log : seq_ok (s, log) -> s_allowed (SPadding first last) s ->
  exists s', pushPadding first last s = Some s' /\ seq_ok (s', log).
Proof.
  intros Hok (Hf & Hl & Hnext). pose proof Hok as [Hsz Hlen Hinv]. simpl in *. unfold pushPadding.
  destruct (sq_map s) as [m|] eqn:Em; [|by eexists]. destruct (initialized s) eqn:Ei; simpl; [|by eexists].
  specialize (Hnext eq_refl). destruct (Z.leb_spec first (extHighestSN s)) as [Hle|Hgt].
  { eexists. split; [done|]. destruct (invalidate_old_ok (Z.to_nat (wrap_uint64 (wrap_uint64 (last + 1) - first))) first m s log Hinv) as (H1 & H2 & H3 & H4).
    split; simpl; [by rewrite H2|by rewrite H3, H2|by rewrite H4, Ei]. }
  destruct Hinv as [Hh Hts Ho Hm Hlast (g & Hg & Hsl)]. rewrite Em in Hm, Hlast, Hg. destruct Hm as (Hm & Hopen & Hoff).
  rewrite wrap_u64_id by (unfold sn_limit, two63 in *; lia).
  destruct (ExcludeRange_spec first (last + 1) m Hm) as (m' & -> & Hm' & Hk & Hnone & Hopen' & Hval'); [lia|unfold sn_limit, two63 in *; lia|lia|].
  simpl. eexists. split; [done|]. rewrite updateSNOffset_spec; simpl; [|split; [done|lia]|lia].
  assert (Hv : open_value m' = sq_snOffset s + (last + 1 - first)).
  { rewrite Hval', <- Hoff. apply wrap_u64_id. unfold sn_limit, two63 in *. lia. }
  split; simpl; [done|done|]. rewrite Ei. split; simpl; try done; try lia.
  - split; [done|]. split; [lia|done].
  - intros v. rewrite Hnone by lia. done.
  - rewrite Hv. replace (last - (sq_snOffset s + (last + 1 - first))) with (extHighestSN s - sq_snOffset s) by lia.
    exists g. split; [|done]. destruct Hg as [G1 G2 G3]. split; simpl.
    + intros k a E. apply G1 in E. lia.
    + done.
    + intros k v Hk1 E. destruct (Z.le_gt_cases k (extHighestSN s)); [|rewrite Hnone in E by lia; done].
      apply G3; [lia|]. apply (Hk k); [lia|done].
Qed.

(** ** Answers *)

(** What a slot says of the number it was asked for. *)
Lemma slot_of_spec e s log g slot : 1 <= sq_size s < two63 -> seq_inv s log ->
  numbered (extHighestSN s) (extHighestSN s - sq_snOffset s) (sq_map s) g -> 0 <= e <= extHighestSN s -> slot_of e s = Some slot ->
  exists a, g e = Some a /\ extHighestSN s - sq_snOffset s - sq_size s < a <= extHighestSN s - sq_snOffset s /\ slot = a mod sq_size s.
Proof.
  intros Hsz [Hh Hts Ho Hm Hlast _] Hg He. unfold slot_of. rewrite offset_of_value by (done || unfold sn_limit, two63 in *; lia).
  destruct (value_of e (sq_map s)) as [v|] eqn:Ev; [|done]. simpl.
  destruct (nu_map _ _ _ _ Hg e v He Ev) as [Hv Ea]. pose proof (nu_range _ _ _ _ Hg _ _ Ea) as [_ Hr].
  rewrite (wrap_u64_id (e - v)), (wrap_u64_id (extHighestSN s - sq_snOffset s)) by (unfold sn_limit, two63 in *; lia).
  rewrite wrap_u64_id by (unfold sn_limit, two63 in *; lia).
  destruct (Z.leb_spec (sq_size s) (extHighestSN s - sq_snOffset s - (e - v))); [done|]. intros [= <-]. exists (e - v). split_and!; done || lia.
Qed.

Lemma window_unique size top a b : 1 <= size -> top - size < a <= top -> top - size < b <= top ->
  Z.to_nat (a mod size) = Z.to_nat (b mod size) -> a = b.
Proof.
  intros Hs Ha Hb E. pose proof (Z.mod_pos_bound a size ltac:(lia)). pose proof (Z.mod_pos_bound b size ltac:(lia)).
  assert (Em : a mod size = b mod size) by (apply Z2Nat.inj; tauto). pose proof (Z.div_mod a size ltac:(lia)). pose proof (Z.div_mod b size ltac:(lia)).
  assert (Hd : a - b = size * (a / size - b / size)) by lia. destruct (Z.eq_dec (a / size - b / size) 0); nia.
Qed.

(** The packet in the slot of a number is the packet of that number. *)
Lemma slot_holds e s log slot m : seq_ok (s, log) -> initialized s = true -> 0 <= e <= extHighestSN s -> slot_of e s = Some slot ->
  meta s !! Z.to_nat slot = Some m -> is_invalid_meta m = false ->
  exists p, p ∈ log /\ records m p /\ pu_sn p = e /\ 0 <= pu_ts p <= extHighestTS s.
Proof.
  intros [Hsz _ Hinv] Hini He Hslot Hm Hval. simpl in *. rewrite Hini in Hinv. pose proof Hinv as [Hh Hts Ho Hmap Hlast (g & Hg & Hsl)].
  destruct (slot_of_spec e s log g slot Hsz Hinv Hg He Hslot) as (a & Ea & Ha & ->).
  destruct (Hsl _ _ Hm) as [?|(p & b & Hp & Hrec & Hpt & Eb & Hb & Ei)]; [congruence|].
  exists p. split_and!; try done; try lia.
  assert (b = a) as -> by (eapply window_unique; [|exact Hb|exact Ha|exact Ei]; lia).
  destruct (Z.lt_trichotomy (pu_sn p) e) as [Hlt|[?|Hlt]]; [|done|]; exfalso.
  - pose proof (nu_mono _ _ _ _ Hg _ _ _ _ Eb Ea Hlt). lia.
  - pose proof (nu_mono _ _ _ _ Hg _ _ _ _ Ea Eb Hlt). lia.
Qed.

(** [em] is the packet [p], as it was sent. *)
Definition answers (em : extPacketMeta) (p : pushed) (s : sequencer) : Prop :=
  em_extSequenceNumber em = pu_sn p /\ records (em_meta em) p /\ stored_bytes (codecBytes (em_meta em)) = pu_codec p /\
  stored_bytes (ddBytes (em_meta em)) = pu_dd p /\ (extHighestTS s - 2 ^ 32 < pu_ts p -> em_extTimestamp em = pu_ts p).

Lemma ext_timestamp_spec ts s : 0 <= ts <= extHighestTS s -> extHighestTS s < two63 -> extHighestTS s - 2 ^ 32 < ts ->
  ext_timestamp (ts mod 2 ^ 32) s = ts.
Proof.
  intros Ht Hh Hw. unfold ext_timestamp. set (h := extHighestTS s) in *. clearbody h.
  pose proof (Z.div_mod ts (2 ^ 32) ltac:(lia)) as Dt. pose proof (Z.mod_pos_bound ts (2 ^ 32) ltac:(lia)) as Bt.
  pose proof (Z.div_mod h (2 ^ 32) ltac:(lia)) as Dh. pose proof (Z.mod_pos_bound h (2 ^ 32) ltac:(lia)) as Bh.
  set (qt := ts / 2 ^ 32) in *. set (rt := ts mod 2 ^ 32) in *. set (qh := h / 2 ^ 32) in *. set (rh := h mod 2 ^ 32) in *.
  clearbody qt rt qh rh. unfold two63 in *. rewrite (wrap_uint64_small (rt + _)) by (unfold two64; lia).
  destruct (Z.ltb_spec rh rt).
  - assert (qt = qh - 1) by nia. rewrite wrap_uint64_small by (unfold two64; nia). nia.
  - assert (qt = qh) by nia. nia.
Qed.

Lemma answers_records m p s slot_sn : records m p -> pu_sn p = slot_sn -> 0 <= pu_ts p <= extHighestTS s -> extHighestTS s < two63 ->
  answers (mkExtMeta m slot_sn (ext_timestamp (pm_timestamp m) s)) p s.
Proof.
  intros Hr E Ht Hh. pose proof Hr as (_ & _ & R3 & _ & _ & R6 & _ & R8 & _). unfold answers. simpl.
  rewrite R6, R8, !stored_bytes_store. split_and!; try done. intros Hw. rewrite R3. by apply ext_timestamp_spec.
Qed.

Lemma ext_of_spec sn s : 0 <= sn < 65536 -> 0 <= extHighestSN s < sn_limit ->
  0 <= ext_of sn s <= extHighestSN s \/ extHighestSN s < sn.
Proof.
  intros Hsn Hh. unfold ext_of. change (2 ^ 16) with 65536.
  pose proof (Z.div_mod (extHighestSN s) 65536 ltac:(lia)). pose proof (Z.mod_pos_bound (extHighestSN s) 65536 ltac:(lia)).
  set (q := extHighestSN s / 65536) in *. set (r := extHighestSN s mod 65536) in *. clearbody q r. unfold sn_limit in *.
  rewrite (wrap_uint64_small (sn + _)) by (unfold two64; lia). destruct (Z.ltb_spec r sn); [|left; lia].
  destruct (Z.lt_ge_cases q 1); [right; nia|left]. rewrite wrap_uint64_small by (unfold two64; nia). nia.
Qed.

Lemma slots_in_log s log i m : seq_ok (s, log) -> initialized s = true -> meta s !! i = Some m -> is_invalid_meta m = false ->
  exists p, p ∈ log /\ records m p /\ 0 <= pu_sn p <= extHighestSN s.
Proof.
  intros [_ _ Hinv] Hini Hm Hv. simpl in Hinv. rewrite Hini in Hinv. destruct Hinv as [_ _ _ _ _ (g & Hg & Hsl)].
  destruct (Hsl _ _ Hm) as [?|(p & a & H1 & H2 & _ & H3 & _)]; [congruence|]. exists p. split_and!; try done; by eapply Hg.
Qed.

(** A valid slot may count a request. *)
Lemma slots_counted size top ts g l log i m m' : slots_ok size top ts g l log -> l !! i = Some m -> is_invalid_meta m = false ->
  (forall p, records m p -> records m' p) -> slots_ok size top ts g (<[i := m']> l) log.
Proof.
  intros H Hm Hv Hr j x Hj. destruct (decide (i = j)) as [->|Hne].
  - rewrite list_lookup_insert_eq in Hj by (by eapply lookup_lt_Some). simplify_eq. right.
    destruct (H _ _ Hm) as [?|(p & a & H1 & H2 & H3)]; [congruence|]. exists p, a. split; [done|]. split; [by apply Hr|done].
  - rewrite list_lookup_insert_ne in Hj by done. by apply H.
Qed.

Lemma get_meta_ok refTime sn s log : seq_ok (s, log) -> initialized s = true -> 0 <= sn < 65536 ->
  let '(r, s') := get_meta refTime sn s in
  seq_ok (s', log) /\ initialized s' = true /\ extHighestTS s' = extHighestTS s /\
  forall em, r = Some em -> (exists p, p ∈ log /\ answers em p s) /\ em_extSequenceNumber em mod 2 ^ 16 = sn.
Proof.
  intros Hok Hini Hsn. unfold get_meta. destruct (2 ^ 15 <? _); [done|]. destruct (slot_of _ s) as [slot|] eqn:Hslot; [|done].
  destruct (meta s !! Z.to_nat slot) as [m|] eqn:Hm; [|done].
  destruct (negb (targetSeqNo m =? sn) || is_invalid_meta m) eqn:Hv; [done|]. apply orb_false_iff in Hv as [Htgt Hv].
  apply negb_false_iff, Z.eqb_eq in Htgt. destruct (nack_due refTime m s); [|done].
  pose proof Hok as [Hsz Hlen Hinv]. simpl in Hsz, Hlen, Hinv. rewrite Hini in Hinv.
  destruct (slots_in_log s log _ m Hok Hini Hm Hv) as (q & Hq & Rq & Hq2).
  assert (He : 0 <= ext_of sn s <= extHighestSN s).
  { destruct (ext_of_spec sn s Hsn (si_high _ _ Hinv)) as [?|Hlt]; [done|exfalso]. destruct Rq as (_ & Rt & _).
    rewrite Htgt, Z.mod_small in Rt by lia. lia. }
  destruct (slot_holds _ s log slot m Hok Hini He Hslot Hm Hv) as (p & Hp & Rp & Ep & Hpt).
  set (m' := mkMeta _ _ _ _ _ _ _ _ _ _ _). assert (Hr : forall p, records m p -> records m' p) by done.
  split; [|split; [done|split; [done|]]].
  - split; simpl; [done|by rewrite length_insert|]. rewrite Hini. destruct Hinv as [H1 H2 H3 H4 H5 (g & Hg & Hsl)]. split; simpl; try done.
    exists g. split; [done|]. by eapply slots_counted.
  - intros em [= <-]. split.
    + exists p. split; [done|]. apply (answers_records m' p s); [by apply Hr|done|done|apply Hinv].
    + simpl. rewrite <- Ep. destruct Rp as (_ & Rt & _). by rewrite <- Rt.
Qed.

Lemma get_metas_ok refTime seqNo s log : seq_ok (s, log) -> initialized s = true -> Forall (fun sn => 0 <= sn < 65536) seqNo ->
  let '(l, s') := get_metas refTime seqNo s in
  seq_ok (s', log) /\ (forall em, em ∈ l -> (exists p, p ∈ log /\ answers em p s) /\ em_extSequenceNumber em mod 2 ^ 16 ∈ seqNo).
Proof.
  revert s. induction seqNo as [|sn seqNo IH]; intros s Hok Hini Hall; simpl; [split; [done|]; by intros em ?%elem_of_nil|].
  apply Forall_cons in Hall as [Hsn Hall]. pose proof (get_meta_ok refTime sn s log Hok Hini Hsn) as H1.
  destruct (get_meta refTime sn s) as [r s1]. destruct H1 as (Hok1 & Hini1 & Ets & H1).
  specialize (IH s1 Hok1 Hini1 Hall). destruct (get_metas refTime seqNo s1) as [l s2]. destruct IH as [Hok2 H2].
  assert (H2' : forall em, em ∈ l -> (exists p, p ∈ log /\ answers em p s) /\ em_extSequenceNumber em mod 2 ^ 16 ∈ sn :: seqNo).
  { intros em Hem. destruct (H2 em Hem) as [(p & Hp & Ha) Hin]. split; [|by apply list_elem_of_further].
    exists p. split; [done|]. unfold answers in *. by rewrite Ets in Ha. }
  split; [done|]. intros em Hem. destruct r as [em0|]; [|by apply H2'].
  apply elem_of_cons in Hem as [->|Hem]; [|by apply H2']. destruct (H1 em0 eq_refl) as [Hp <-]. split; [done|apply list_elem_of_here].
Qed.

Lemma lookup_ok e s log em : seq_ok (s, log) -> 0 <= e < two63 -> lookupExtPacketMeta e s = Some em -> exists p, p ∈ log /\ answers em p s.
Proof.
  intros Hok He. unfold lookupExtPacketMeta. destruct (initialized s) eqn:Hini; [|done]. simpl.
  destruct (slot_of e s) as [slot|] eqn:Hslot; [|done]. simpl. destruct (meta s !! Z.to_nat slot) as [m|] eqn:Hm; [|done]. simpl.
  destruct (is_invalid_meta m) eqn:Hv; [done|]. intros [= <-]. pose proof Hok as [Hsz _ Hinv]. simpl in Hsz, Hinv. rewrite Hini in Hinv.
  assert (Hle : e <= extHighestSN s).
  { destruct (Z.le_gt_cases e (extHighestSN s)) as [|Hgt]; [done|exfalso]. destruct Hinv as [Hh Hts Ho Hmap _ _]. revert Hslot.
    unfold slot_of. rewrite offset_of_value by done.
    assert (Hv2 : value_of e (sq_map s) = Some (sq_snOffset s)).
    { unfold value_of, map_ok in *. destruct (sq_map s) as [mm|]; [|by rewrite Hmap]. destruct Hmap as (? & ? & ->). apply value_at_open; [done|lia]. }
    rewrite Hv2. simpl. rewrite (wrap_u64_id (e - _)), (wrap_u64_id (extHighestSN s - _)) by lia.
    rewrite wrap_diff by lia. rewrite (proj2 (Z.leb_gt (e - sq_snOffset s) (extHighestSN s - sq_snOffset s))) by lia. rewrite (proj2 (Z.leb_le _ _)); [done|]. unfold two63, two64 in *. lia. }
  destruct (slot_holds e s log slot m Hok Hini ltac:(lia) Hslot Hm Hv) as (p & Hp & Rp & Ep & Hpt).
  exists p. split; [done|]. apply answers_records; try done. apply Hinv.
Qed.

(** ** Every packet is sent again at most three times *)

Definition counts_ok (s : sequencer) : Prop := Forall (fun m => 0 <= nacked m) (meta s).

Lemma counts_write i m s : counts_ok s -> 0 <= nacked m -> counts_ok (set_meta (<[i := m]> (meta s)) s).
Proof. intros H Hm. by apply Forall_insert. Qed.

Lemma counts_gap fuel x stop s : counts_ok s -> counts_ok (invalidate_gap fuel x stop s).
Proof.
  revert x s. induction fuel as [|fuel IH]; intros x s Hs; simpl; [done|]. destruct (x =? stop); [done|]. apply IH. by apply counts_write.
Qed.

Lemma counts_old n esn m s : counts_ok s -> counts_ok (invalidate_old n esn m s).
Proof.
  revert esn s. induction n as [|n IH]; intros esn s Hs; simpl; [done|]. apply IH.
  destruct (_ || _); [done|]. destruct (GetValue esn m); [done|]. by apply counts_write.
Qed.

Lemma counts_offset s : counts_ok s -> counts_ok (updateSNOffset s).
Proof. unfold updateSNOffset. intros H. by repeat case_match. Qed.

Lemma counts_push p s : counts_ok s -> counts_ok (push p s).
Proof.
  intros H. unfold push. assert (H1 : counts_ok (seq_init (pu_sn p) (pu_ts p) s)).
  { unfold seq_init. destruct (initialized s); [done|]. by apply counts_offset. }
  set (s1 := seq_init _ _ s) in *. clearbody s1. repeat case_match; try done; apply counts_write; try done. by apply counts_gap.
Qed.

Lemma counts_get refTime sn s : counts_ok s -> counts_ok (get_meta refTime sn s).2.
Proof.
  intros H. unfold get_meta. repeat case_match; try done. apply counts_write; [done|]. simpl. by apply Z.mod_pos_bound.
Qed.

Lemma counts_gets refTime l s : counts_ok s -> counts_ok (get_metas refTime l s).2.
Proof.
  revert s. induction l as [|sn l IH]; intros s H; simpl; [done|]. pose proof (counts_get refTime sn s H) as H1.
  destruct (get_meta refTime sn s) as [r s1]. specialize (IH s1 H1). by destruct (get_metas refTime l s1).
Qed.

Lemma reach_ok x0 x : sreach x0 x -> seq_ok x0 /\ counts_ok x0.1 -> seq_ok x /\ counts_ok x.1.
Proof.
  intros Hr H0. induction Hr as [|x e x' Hr [Hok Hc] Ha E]; [done|]. destruct x as [s log]. simpl in *. destruct e as [p|f l|now seqNo|rtt]; simpl in E.
  - simplify_eq. split; [by apply push_ok|by apply counts_push].
  - destruct (padding_seq_ok f l s log Hok Ha) as (s' & E' & Hok'). rewrite E' in E. simpl in E. simplify_eq. split; [done|].
    revert E'. unfold pushPadding. simpl. destruct (sq_map s); [|by intros [= <-]]. destruct (negb _); [by intros [= <-]|].
    destruct (f <=? _); [intros [= <-]; by apply counts_old|]. destruct (ExcludeRange _ _ _) as [[]|]; intros [= <-]; [done|by apply counts_offset].
  - simplify_eq. unfold getExtPacketMetas. destruct (initialized s) eqn:Ei; simpl; [|done].
    pose proof (get_metas_ok (getRefTime now s) seqNo s log Hok Ei Ha) as H. split; [|by apply counts_gets].
    destruct (get_metas _ _ _). apply H.
  - simplify_eq. split; [|done]. destruct Hok as [H1 H2 H3]. split; simpl in *; try done.
    destruct (initialized s); [destruct H3 as [A1 A2 A3 A4 A5 A6]; by split|destruct H3 as [A1 A2 A3 A4 A5]; by split].
Qed.

(** Requests in a row, and how often a number is among the answers. *)
Fixpoint request (l : list (Z * list Z)) (s : sequencer) : list extPacketMeta :=
  match l with
  | [] => []
  | (now, seqNo) :: l => let '(r, s) := getExtPacketMetas now seqNo s in r ++ request l s
  end.
Definition times (e : Z) (l : list extPacketMeta) : nat := countb (fun em => em_extSequenceNumber em =? e) l.

(** How often a number may still be answered. *)
Definition left_for (e : Z) (s : sequencer) : nat :=
  match slot_of e s with
  | Some slot => match meta s !! Z.to_nat slot with Some m => Z.to_nat (maxAck - nacked m) | None => 0 end
  | None => 0
  end.

Lemma left_le e s : counts_ok s -> (left_for e s <= 3)%nat.
Proof.
  intros H. unfold left_for. destruct (slot_of e s); [|lia]. destruct (meta s !! _) as [m|] eqn:E; [|lia].
  apply Forall_lookup_1 with (i := Z.to_nat z) (x := m) in H; [|done]. unfold maxAck. lia.
Qed.

Lemma get_meta_left refTime sn e s : counts_ok s ->
  let '(r, s') := get_meta refTime sn s in
  ((match r with Some em => if (em_extSequenceNumber em =? e)%Z then 1 else 0 | None => 0 end) + left_for e s' <= left_for e s)%nat /\
  initialized s' = initialized s.
Proof.
  intros Hc. unfold get_meta. destruct (2 ^ 15 <? _); [done|]. destruct (slot_of (ext_of sn s) s) as [slot|] eqn:Hs; [|done].
  destruct (meta s !! Z.to_nat slot) as [m|] eqn:Hm; [|done]. destruct (_ || _); [done|]. unfold nack_due.
  destruct (Z.ltb_spec (nacked m) maxAck) as [Hn|Hn]; simpl; [|done]. destruct (_ <? _); [|done]. split; [|done]. simpl.
  pose proof (Forall_lookup_1 _ _ _ _ Hc Hm) as Hge. simpl in Hge. unfold maxAck in *.
  set (m' := mkMeta _ _ _ _ _ _ _ _ _ _ _). unfold left_for.
  change (slot_of e (set_meta _ s)) with (slot_of e s). simpl.
  assert (Hn' : nacked m' = nacked m + 1) by (simpl; apply Z.mod_small; lia).
  destruct (Z.eqb_spec (ext_of sn s) e) as [<-|Hne].
  - rewrite Hs, Hm, list_lookup_insert_eq by (by eapply lookup_lt_Some). rewrite Hn'. unfold maxAck. lia.
  - destruct (slot_of e s) as [slot'|]; [|done]. destruct (decide (Z.to_nat slot = Z.to_nat slot')) as [E|E].
    + rewrite <- E, Hm, list_lookup_insert_eq by (by eapply lookup_lt_Some). rewrite Hn'. lia.
    + by rewrite list_lookup_insert_ne by done.
Qed.

Lemma get_metas_left refTime l e s : counts_ok s ->
  let '(r, s') := get_metas refTime l s in (times e r + left_for e s' <= left_for e s)%nat /\ initialized s' = initialized s.
Proof.
  revert s. induction l as [|sn l IH]; intros s Hc; simpl; [done|].
  pose proof (get_meta_left refTime sn e s Hc) as H1. pose proof (counts_get refTime sn s Hc) as Hc1.
  destruct (get_meta refTime sn s) as [r s1]. simpl in Hc1. destruct H1 as [H1 Ei1]. specialize (IH s1 Hc1).
  destruct (get_metas refTime l s1) as [out s2]. destruct IH as [IH Ei2]. split; [|by rewrite Ei2].
  destruct r as [em|]; [|lia]. unfold times, countb in *. simpl. destruct (_ =? e); simpl; lia.
Qed.

Lemma request_left l e s : counts_ok s -> (times e (request l s) <= left_for e s)%nat.
Proof.
  revert s. induction l as [|[now seqNo] l IH]; intros s Hc; simpl; [unfold times, countb; simpl; lia|].
  unfold getExtPacketMetas. destruct (initialized s) eqn:Ei; simpl; [|by apply IH].
  pose proof (get_metas_left (getRefTime now s) seqNo e s Hc) as H. pose proof (counts_gets (getRefTime now s) seqNo s Hc) as Hc'.
  destruct (get_metas _ _ _) as [r s']. simpl in Hc'. destruct H as [H _]. specialize (IH s' Hc').
  unfold times in *. rewrite countb_app. lia.
Qed.

End Sequencer.
Export Sequencer.

(** C26: a request for retransmission is answered with what was sent under that
    number, or not at all. Whatever was pushed, however late and with whatever
    gaps, padding, requests and round-trip times in between (padding is recorded
    when it is sent, and its numbers are not used for packets): every answer is a
    pushed packet, its number is one of those asked for, and it carries the
    number in the source, the marker, the layer, the descriptor bytes and (less
    than 2^32 behind the newest) the timestamp it was pushed with; nothing
    panics; and however often one asks, a number is answered at most three times
    between two pushes. *)
Theorem retransmits_what_was_sent now size sparse s0 s log :
  newSequencer now size sparse = Some s0 -> 1 <= size < two63 -> sreach (s0, []) (s, log) ->
  (forall now' seqNo em, Forall (fun sn => 0 <= sn < 65536) seqNo -> em ∈ (getExtPacketMetas now' seqNo s).1 ->
     (exists p, p ∈ log /\ answers em p s) /\ em_extSequenceNumber em mod 2 ^ 16 ∈ seqNo) /\
  (forall e em, 0 <= e < two63 -> lookupExtPacketMeta e s = Some em -> exists p, p ∈ log /\ answers em p s) /\
  (forall e, s_allowed e s -> is_Some (sstep e (s, log))) /\
  (forall requests e, (times e (request requests s) <= 3)%nat).
Proof.
  intros Hnew Hsz Hr. destruct (reach_ok _ _ Hr) as [Hok Hc].
  { split; [by eapply new_seq_ok|]. revert Hnew. unfold newSequencer. destruct (size =? 0); [done|]. intros [= <-]. by apply Forall_replicate. }
  simpl in Hc. split; [|split; [|split]].
  - intros now' seqNo em Hs. unfold getExtPacketMetas. destruct (initialized s) eqn:Ei; simpl; [|by intros ?%elem_of_nil].
    pose proof (get_metas_ok (getRefTime now' s) seqNo s log Hok Ei Hs) as H. destruct (get_metas _ _ _) as [l s']. apply H.
  - intros e em He. by eapply lookup_ok.
  - intros [p|f l|n q|r] Ha; try by eexists. simpl. destruct (padding_seq_ok f l s log Hok Ha) as (s' & -> & _). by eexists.
  - intros l e. etrans; [by apply request_left|by apply left_le].
Qed.


Definition sample_push (sn : Z) : pushed := mkPushed 1000000000 sn sn (sn * 3000) false 0 [] 0 [] [].
Definition sample_steps : list sevent :=
  [SPush (sample_push 100); SPush (sample_push 102); SPadding 103 104; SPush (sample_push 101); SRtt 20; SPush (sample_push 105)].

(** The conditions of a step, decided. *)
Definition s_allowedb (e : sevent) (s : sequencer) : bool :=
  match e with
  | SPush p => (0 <=? pu_sn p) && (pu_sn p <? sn_limit) && (0 <=? pu_ts p) && (pu_ts p <? two63) && (negb (initialized s) || negb (pu_sn p =? extHighestSN s))
  | SPadding first last => (0 <=? first) && (first <=? last) && (last <? sn_limit) && (first <=? extHighestSN s + 1)
  | SNack _ seqNo => forallb (fun sn => (0 <=? sn) && (sn <? 65536)) seqNo
  | SRtt _ => true
  end.

Lemma s_allowedb_allowed e s : s_allowedb e s = true -> s_allowed e s.
Proof.
  destruct e as [p|f l|n q|r]; simpl; rewrite ?andb_true_iff; intros H; [| | |done].
  - destruct H as [[[[? ?] ?] ?] H]. split_and!; try lia. intros Hi He. rewrite Hi in H. simpl in H. lia.
  - split_and!; intros; lia.
  - apply Forall_forall. intros sn Hsn. rewrite forallb_forall in H. specialize (H sn). rewrite <- list_elem_of_In in H.
    specialize (H Hsn). lia.
Qed.

Fixpoint srun (es : list sevent) (x : sequencer * list pushed) : option (sequencer * list pushed) :=
  match es with [] => Some x | e :: es => if s_allowedb e x.1 then x ← sstep e x; srun es x else None end.

Lemma srun_reach es x0 x x' : sreach x0 x -> srun es x = Some x' -> sreach x0 x'.
Proof.
  revert x. induction es as [|e es IH]; intros x Hx; simpl; [by intros [= <-]|].
  destruct (s_allowedb e x.1) eqn:Ea; [|done]. destruct (sstep e x) as [y|] eqn:Ey; [|done]. simpl. apply IH.
  eapply sreach_step; [done|by apply s_allowedb_allowed|done].
Qed.

Lemma retransmits_what_was_sent_witness :
  exists s0 s log, newSequencer 0 8 true = Some s0 /\ srun sample_steps (s0, []) = Some (s, log) /\
    map em_extSequenceNumber (getExtPacketMetas 2000000000 [100; 101; 103; 105; 106] s).1 = [100; 101; 105] /\
    (forall requests e, (times e (request requests s) <= 3)%nat).
Proof.
  do 3 eexists. split; [vm_compute; reflexivity|]. split; [vm_compute; reflexivity|]. split; [vm_compute; reflexivity|].
  refine (proj2 (proj2 (proj2 (retransmits_what_was_sent 0 8 true _ _ _ _ _ _)))).
  - vm_compute; reflexivity.
  - unfold two63. lia.
  - eapply (srun_reach sample_steps); [apply sreach_refl|vm_compute; reflexivity].
Defined.
