(* ===== verification/Frames.v ===== *)
(** * Which packets begin a picture that stands alone

    Model of pkg/sfu/buffer/helpers.go of the media server, after the VP8 part
    ([Vp8]): whether the payload of a packet begins a key frame, for H.264, H.265,
    VP9 and AV1, and the size of a VP8 picture. The payload is what a publisher
    sent. [None] is an index out of range, or a loop that outlasts its fuel;
    the VP9 descriptor is read by a third-party package, a parameter. *)

From S2P Require Import Prelude Vp8.
#[local] Open Scope Z_scope.

Module Frames.

(** ** H.264 *)

Definition be16 (hi lo : Z) : Z := Z.lor (Z.shiftl hi 8) lo.

(** The bytes before the unit, after its length. *)
Definition h264_offset (nalu : Z) : nat := if nalu =? 26 then 3 else if nalu =? 27 then 4 else 0.

(** The units of an aggregation packet, from [i] on. *)
Fixpoint h264_aggregate (fuel : nat) (nalu : Z) (payload : list Z) (i : nat) : option bool :=
  match fuel with
  | O => None
  | S fuel =>
      if negb (i <? length payload)%nat then Some false else
      if (length payload <? i + 2)%nat then Some false else
      hi ← payload !! i; lo ← payload !! (i + 1)%nat;
      let len := Z.to_nat (be16 hi lo) in
      let i := (i + 2)%nat in
      if (length payload <? i + len)%nat then Some false else
      if (len <=? h264_offset nalu)%nat then Some false else
      b ← payload !! (i + h264_offset nalu)%nat;
      if Z.land b 0x1F =? 7 then Some true else h264_aggregate fuel nalu payload (i + len)%nat
  end.

Definition IsH264KeyFrame (payload : list Z) : option bool :=
  match payload with
  | [] => Some false
  | b0 :: _ =>
      let nalu := Z.land b0 0x1F in
      if nalu =? 0 then Some false
      else if nalu <=? 23 then Some (nalu =? 7)
      else if (nalu =? 24) || (nalu =? 25) || (nalu =? 26) || (nalu =? 27)
      then h264_aggregate (S (length payload)) nalu payload (if nalu =? 24 then 1 else 3)
      else if (nalu =? 28) || (nalu =? 29)
      then if (length payload <? 2)%nat then Some false
           else b1 ← payload !! 1%nat;
                if Z.land b1 0x80 =? 0 then Some false else Some (Z.land b1 0x1F =? 7)
      else Some false
  end.

(** ** VP9 *)

(** The fields the code uses. *)
Record VP9Packet := mkVP9 {
  vp9_B : bool; vp9_Payload : list Z; vp9_SID : Z; vp9_TID : Z; vp9_Width : list Z; vp9_Height : list Z }.


Section vp9.
(** Unmarshal of the package pion/rtp: [None] is an error. *)
Context (vp9_unmarshal : list Z -> option VP9Packet).

Definition IsVP9KeyFrame (vp9 : option VP9Packet) (payload : list Z) : option bool :=
  let frame (p : VP9Packet) : option bool :=
    if negb (vp9_B p) then Some false else
    b ← vp9_Payload p !! 0%nat;
    if negb (Z.land b 0xc0 =? 0x80) then Some false else
    let profile := Z.land (Z.shiftr b 4) 0x3 in
    Some (if negb (profile =? 3) then Z.land b 0xC =? 0 else Z.land b 0x6 =? 0) in
  match vp9 with
  | Some p => frame p
  | None =>
      match vp9_unmarshal payload with
      | None => Some false
      | Some p => if (length (vp9_Payload p) <? 1)%nat then Some false else frame p
      end
  end.
End vp9.

(** ** AV1 *)

(** The length of a unit: its value and the number of bytes it takes; [inl] is
    one that does not end, after that many bytes, with whether that counts as
    cut off. *)
Fixpoint leb128 (fuel : nat) (data : list Z) (offset : nat) (len : Z) : option ((nat * bool) + (nat * Z)) :=
  match fuel with
  | O => None
  | S fuel =>
      if (length data <=? offset)%nat then Some (inl (offset, (0 <? offset)%nat)) else
      if (4 <=? offset)%nat then Some (inl (offset, true)) else
      l ← data !! offset;
      let len := Z.lor len (Z.shiftl (Z.land l 0x7f) (Z.of_nat offset * 7)) in
      let offset := S offset in
      if Z.land l 0x80 =? 0 then Some (inr (offset, len)) else leb128 fuel data offset len
  end.

Definition slice (from to : nat) (l : list Z) : option (list Z) :=
  if (from <=? to)%nat && (to <=? length l)%nat then Some (take (to - from) (drop from l)) else None.

(** A unit, the bytes it takes with its length, and whether it is cut off. *)
Definition getObu (data : list Z) (last : bool) : option (list Z * nat * bool) :=
  if last then Some (data, length data, false) else
  r ← leb128 6 data 0 0;
  match r with
  | inl (offset, cut) => Some ([], offset, cut)
  | inr (offset, len) =>
      let stop := (offset + Z.to_nat len)%nat in
      if (length data <? stop)%nat
      then obu ← slice offset (length data) data; Some (obu, length data, true)
      else obu ← slice offset stop data; Some (obu, stop, false)
  end.

Fixpoint av1_units (fuel : nat) (w : Z) (payload : list Z) (i : Z) (offset : nat) : option bool :=
  match fuel with
  | O => None
  | S fuel =>
      rest ← slice offset (length payload) payload;
      '(obu, len, truncated) ← getObu rest (w =? i + 1);
      match obu with
      | [] => Some false
      | b0 :: _ =>
          let tpe := Z.shiftr (Z.land b0 0x38) 3 in
          let next := if truncated || (w <=? i) then Some false else av1_units fuel w payload (i + 1) (offset + len)%nat in
          if i =? 0 then if negb (tpe =? 1) then Some false else next
          else if (tpe =? 3) || (tpe =? 6) then
            if (length obu <? 2)%nat then Some false else
            b1 ← obu !! 1%nat;
            if negb (Z.land b1 0x80 =? 0) then Some false else Some (Z.land b1 0x60 =? 0)
          else next
      end
  end.

Definition IsAV1KeyFrame (payload : list Z) : option bool :=
  if (length payload <? 2)%nat then Some false else
  b0 ← payload !! 0%nat;
  if negb (Z.land b0 0x88 =? 0x08) then Some false else
  av1_units 5 (Z.shiftr (Z.land b0 0x30) 4) payload 0 1.

(** ** H.265 *)

Definition h265_type (b : Z) : Z := Z.shiftr (Z.land b 0x7E) 1.
Definition h265_parameters (t : Z) : bool := (t =? 33) || (t =? 34).

Fixpoint h265_aggregate (fuel : nat) (payload : list Z) (idx : nat) : option bool :=
  match fuel with
  | O => None
  | S fuel =>
      if negb (Z.of_nat idx <? Z.of_nat (length payload) - 2) then Some false else
      hi ← payload !! idx; lo ← payload !! (idx + 1)%nat;
      let idx := (idx + 2)%nat in
      if (length payload <=? idx)%nat then Some false else
      b ← payload !! idx;
      if h265_parameters (h265_type b) then Some true else h265_aggregate fuel payload (idx + Z.to_nat (be16 hi lo))%nat
  end.

Definition IsH265KeyFrame (payload : list Z) : option bool :=
  match payload with
  | b0 :: _ :: _ =>
      let naluType := h265_type b0 in
      if h265_parameters naluType then Some true
      else if naluType =? 48 then h265_aggregate (S (length payload)) payload 2
      else if naluType =? 49 then
        if (length payload <? 3)%nat then Some false else
        b ← payload !! 2%nat; Some (h265_parameters (h265_type b))
      else Some false
  | _ => Some false
  end.

(** ** VP8 *)

Record VideoSize := mkSize { Width : Z; Height : Z }.
Definition no_size : VideoSize := mkSize 0 0.

Definition ExtractVP8VideoSize (v : VP8) (payload : list Z) : option VideoSize :=
  if negb (vp8_IsKeyFrame v) || (Z.of_nat (length payload) <? HeaderSize v + 10) then Some no_size else
  p ← slice (Z.to_nat (HeaderSize v)) (length payload) payload;
  if (length p <? 10)%nat then Some no_size else
  b3 ← p !! 3%nat; b4 ← p !! 4%nat; b5 ← p !! 5%nat;
  if negb (b3 =? 0x9D) || negb (b4 =? 0x01) || negb (b5 =? 0x2A) then Some no_size else
  b6 ← p !! 6%nat; b7 ← p !! 7%nat; b8 ← p !! 8%nat; b9 ← p !! 9%nat;
  Some (mkSize (Z.land (Z.lor b6 (Z.shiftl b7 8)) 0x3FFF) (Z.land (Z.lor b8 (Z.shiftl b9 8)) 0x3FFF)).

(** ** Nothing is read out of bounds, and every loop ends *)

Lemma lookup_in {A} (l : list A) i : (i < length l)%nat -> exists x, l !! i = Some x.
Proof. intros H. destruct (lookup_lt_is_Some_2 l i H) as [x E]. by exists x. Qed.

(** Case analysis on a read that is in bounds. *)
Ltac read_byte b :=
  match goal with
  | |- context [ (?l !! ?i) ≫= _ ] =>
      let E := fresh "E" in destruct (lookup_in l i ltac:(simpl in *; lia)) as [b E]; rewrite E; simpl
  end.

Lemma h264_aggregate_total fuel nalu payload i : (length payload - i < fuel)%nat -> is_Some (h264_aggregate fuel nalu payload i).
Proof.
  revert i. induction fuel as [|fuel IH]; intros i Hf; [lia|]. simpl.
  destruct (Nat.ltb_spec i (length payload)) as [Hi|]; simpl; [|done]. destruct (Nat.ltb_spec (length payload) (i + 2)); [done|].
  read_byte hi. read_byte lo. set (n := Z.to_nat _). clearbody n.
  destruct (Nat.ltb_spec (length payload) (i + 2 + n)); [done|]. destruct (Nat.leb_spec n (h264_offset nalu)); [done|].
  read_byte b. destruct (_ =? 7); [done|]. apply IH. lia.
Qed.

Lemma h265_aggregate_total fuel payload i : (length payload - i < fuel)%nat -> is_Some (h265_aggregate fuel payload i).
Proof.
  revert i. induction fuel as [|fuel IH]; intros i Hf; [lia|]. simpl.
  destruct (Z.ltb_spec (Z.of_nat i) (Z.of_nat (length payload) - 2)) as [Hi|]; simpl; [|done].
  read_byte hi. read_byte lo. set (n := Z.to_nat _). clearbody n.
  destruct (Nat.leb_spec (length payload) (i + 2)); [done|]. read_byte b. destruct (h265_parameters _); [done|]. apply IH. lia.
Qed.

Lemma leb128_total fuel data offset len : (5 <= fuel + offset)%nat -> (0 < fuel)%nat ->
  exists r, leb128 fuel data offset len = Some r /\
    match r with inr (o, _) => (o <= length data)%nat | inl _ => True end.
Proof.
  revert offset len. induction fuel as [|fuel IH]; intros offset len Hf Hp; [lia|]. cbn [leb128].
  destruct (Nat.leb_spec (length data) offset); [eexists; by split|]. destruct (Nat.leb_spec 4 offset); [eexists; by split|].
  read_byte l. destruct (_ =? 0); [eexists; split; [done|]; simpl; lia|]. apply IH; lia.
Qed.

Lemma slice_in from to l : (from <= to <= length l)%nat -> slice from to l = Some (take (to - from) (drop from l)).
Proof. intros H. unfold slice. rewrite (proj2 (Nat.leb_le _ _)) by lia. by rewrite (proj2 (Nat.leb_le _ _)) by lia. Qed.

Lemma getObu_total data last : exists obu len cut, getObu data last = Some (obu, len, cut) /\ (obu <> [] -> (len <= length data)%nat).
Proof.
  unfold getObu. destruct last; [by eexists _, _, _|]. destruct (leb128_total 6 data 0 0 ltac:(lia) ltac:(lia)) as (r & -> & Hr).
  simpl. destruct r as [[o c]|[o n]]; [by eexists _, _, _|]. destruct (Nat.ltb_spec (length data) (o + Z.to_nat n)).
  - rewrite slice_in by lia. simpl. eexists _, _, _. split; [done|]. lia.
  - rewrite slice_in by lia. simpl. eexists _, _, _. split; [done|]. lia.
Qed.

Lemma av1_units_total fuel w payload i offset : (offset <= length payload)%nat -> 0 <= i <= w + 1 -> w - i + 1 < Z.of_nat fuel ->
  is_Some (av1_units fuel w payload i offset).
Proof.
  revert i offset. induction fuel as [|fuel IH]; intros i offset Ho Hi Hf; [lia|]. simpl.
  rewrite slice_in by lia. simpl. set (rest := take _ _).
  assert (Hrest : length rest = (length payload - offset)%nat) by (unfold rest; rewrite length_take, length_drop; lia).
  destruct (getObu_total rest (w =? i + 1)) as (obu & n & cut & -> & Hn). simpl. destruct obu as [|b0 obu]; [done|].
  assert (Hnext : is_Some (if cut || (w <=? i) then Some false else av1_units fuel w payload (i + 1) (offset + n)%nat)).
  { destruct cut; [done|]. simpl. destruct (Z.leb_spec w i); [done|]. apply IH; [specialize (Hn ltac:(done)); lia|lia|lia]. }
  destruct (i =? 0); [by destruct (negb _)|]. destruct ((_ =? 3) || _); [|exact Hnext].
  destruct (Nat.ltb_spec (length (b0 :: obu)) 2); [done|]. destruct obu as [|b1 obu]; simpl in *; [lia|]. by destruct (negb _).
Qed.

Lemma IsH264KeyFrame_total payload : is_Some (IsH264KeyFrame payload).
Proof.
  unfold IsH264KeyFrame. destruct payload as [|b0 l] eqn:E; [done|]. rewrite <- E. destruct (_ =? 0); [done|]. destruct (_ <=? 23); [done|].
  destruct (_ || _ || _ || _); [apply h264_aggregate_total; lia|]. destruct (_ || _); [|done].
  destruct (Nat.ltb_spec (length payload) 2); [done|]. read_byte b1. by destruct (_ =? 0).
Qed.

Lemma IsH265KeyFrame_total payload : is_Some (IsH265KeyFrame payload).
Proof.
  unfold IsH265KeyFrame. destruct payload as [|b0 [|b1 l]]; try done. destruct (h265_parameters _); [done|]. destruct (_ =? 48).
  - apply h265_aggregate_total. simpl. lia.
  - destruct (_ =? 49); [|done]. destruct (Nat.ltb_spec (length (b0 :: b1 :: l)) 3); [done|]. by read_byte b.
Qed.

#[local] Arguments av1_units : simpl never.
Lemma IsAV1KeyFrame_total payload : is_Some (IsAV1KeyFrame payload).
Proof.
  unfold IsAV1KeyFrame. destruct (Nat.ltb_spec (length payload) 2); [done|]. read_byte b0. destruct (negb _); [done|].
  assert (Hw : 0 <= Z.shiftr (Z.land b0 0x30) 4 <= 3).
  { rewrite Z.shiftr_div_pow2 by lia. change 0x30 with (Z.shiftl (Z.ones 2) 4). rewrite <- Z.shiftr_div_pow2 by lia. rewrite Z.shiftr_land, Z.shiftr_shiftl_l by lia.
    change (4 - 4) with 0. rewrite Z.shiftl_0_r, Z.land_ones by lia. pose proof (Z.mod_pos_bound (Z.shiftr b0 4) (2 ^ 2)). lia. }
  apply av1_units_total; lia.
Qed.

Lemma ExtractVP8VideoSize_total v payload : 0 <= HeaderSize v -> is_Some (ExtractVP8VideoSize v payload).
Proof.
  intros Hh. unfold ExtractVP8VideoSize. destruct (negb _); simpl; [done|]. destruct (Z.ltb_spec (Z.of_nat (length payload)) (HeaderSize v + 10)); [done|].
  rewrite slice_in by lia. simpl. set (p := take _ _).
  assert (Hp : (10 <= length p)%nat) by (unfold p; rewrite length_take, length_drop; lia). clearbody p.
  destruct (Nat.ltb_spec (length p) 10); [done|]. read_byte b3. read_byte b4. read_byte b5. destruct (_ || _); [done|].
  read_byte b6. read_byte b7. read_byte b8. by read_byte b9.
Qed.

(** ** Aggregated units *)

(** The length of a unit in two bytes, and the unit. *)
Definition framed (u : list Z) : list Z := Z.of_nat (length u) / 256 :: Z.of_nat (length u) mod 256 :: u.
Definition unit_ok (u : list Z) : Prop := u <> [] /\ Z.of_nat (length u) < 65536.
Definition first_of (f : Z -> bool) (u : list Z) : bool := match u with b :: _ => f b | [] => false end.

Lemma lor_disjoint a b : Z.land a b = 0 -> Z.lor a b = a + b.
Proof. intros H. rewrite <- Z.add_lor_land, H. lia. Qed.

Lemma be16_div_mod n : 0 <= n < 65536 -> be16 (n / 256) (n mod 256) = n.
Proof.
  intros H. unfold be16. rewrite lor_disjoint.
  - rewrite Z.shiftl_mul_pow2 by lia. pose proof (Z.div_mod n 256 ltac:(lia)). lia.
  - apply Z.bits_inj'. intros k Hk. rewrite Z.land_spec, Z.bits_0. destruct (Z.lt_ge_cases k 8).
    + by rewrite Z.shiftl_spec_low.
    + change 256 with (2 ^ 8). by rewrite Z.mod_pow2_bits_high, andb_false_r by lia.
Qed.

(** The two bytes of the length of the next unit, and its first byte. *)
Lemma framed_at pre u rest : unit_ok u -> let l := pre ++ framed u ++ rest in
  l !! length pre = Some (Z.of_nat (length u) / 256) /\ l !! (length pre + 1)%nat = Some (Z.of_nat (length u) mod 256) /\
  l !! (length pre + 2)%nat = head u /\ length l = (length pre + 2 + length u + length rest)%nat /\
  Z.to_nat (be16 (Z.of_nat (length u) / 256) (Z.of_nat (length u) mod 256)) = length u.
Proof.
  intros [Hne Hl] l. unfold l. rewrite !(lookup_app_r pre) by lia. rewrite Nat.sub_diag.
  replace (length pre + 1 - length pre)%nat with 1%nat by lia. replace (length pre + 2 - length pre)%nat with 2%nat by lia.
  rewrite be16_div_mod, Nat2Z.id by lia. rewrite !length_app. destruct u; [done|]. simpl. split_and!; try done; lia.
Qed.

Lemma h264_units fuel pre units : Forall unit_ok units -> (length units < fuel)%nat ->
  h264_aggregate fuel 24 (pre ++ flat_map framed units) (length pre) = Some (existsb (first_of (fun b => Z.land b 0x1F =? 7)) units).
Proof.
  revert fuel pre. induction units as [|u units IH]; intros fuel pre Hu Hf; (destruct fuel as [|fuel]; [simpl in Hf; lia|]); cbn [h264_aggregate flat_map existsb].
  - rewrite app_nil_r, (proj2 (Nat.ltb_ge _ _)) by lia. done.
  - inversion Hu as [|? ? Hok Hu']; subst. destruct (framed_at pre u (flat_map framed units) Hok) as (E1 & E2 & E3 & El & En).
    assert (Hpos : (0 < length u)%nat) by (destruct u; [by destruct Hok|simpl; lia]).
    rewrite (proj2 (Nat.ltb_lt _ _)), (proj2 (Nat.ltb_ge _ _)) by lia. rewrite E1, E2. cbn [negb mbind option_bind]. rewrite En.
    rewrite (proj2 (Nat.ltb_ge _ _)) by lia. change (h264_offset 24) with 0%nat. rewrite (proj2 (Nat.leb_gt _ _)) by lia.
    rewrite Nat.add_0_r, E3. destruct u as [|b u]; [simpl in Hpos; lia|]. cbn [head mbind option_bind first_of].
    destruct (Z.land b 0x1F =? 7); [done|]. simpl in Hf. specialize (IH fuel (pre ++ framed (b :: u)) Hu' ltac:(lia)).
    rewrite length_app, <- app_assoc in IH. simpl length in IH. simpl orb.
    replace (length pre + 2 + length (b :: u))%nat with (length pre + S (S (S (length u))))%nat by (simpl; lia). exact IH.
Qed.

Lemma h265_units fuel pre units : Forall unit_ok units -> (length units < fuel)%nat ->
  h265_aggregate fuel (pre ++ flat_map framed units) (length pre) = Some (existsb (first_of (fun b => h265_parameters (h265_type b))) units).
Proof.
  revert fuel pre. induction units as [|u units IH]; intros fuel pre Hu Hf; (destruct fuel as [|fuel]; [simpl in Hf; lia|]); cbn [h265_aggregate flat_map existsb].
  - rewrite app_nil_r, (proj2 (Z.ltb_ge _ _)) by lia. done.
  - inversion Hu as [|? ? Hok Hu']; subst. destruct (framed_at pre u (flat_map framed units) Hok) as (E1 & E2 & E3 & El & En).
    assert (Hpos : (0 < length u)%nat) by (destruct u; [by destruct Hok|simpl; lia]).
    rewrite (proj2 (Z.ltb_lt _ _)) by lia. rewrite E1, E2. cbn [negb mbind option_bind]. rewrite En.
    rewrite (proj2 (Nat.leb_gt _ _)) by lia. rewrite E3. destruct u as [|b u]; [simpl in Hpos; lia|]. cbn [head mbind option_bind first_of].
    destruct (h265_parameters (h265_type b)); [done|]. simpl in Hf. specialize (IH fuel (pre ++ framed (b :: u)) Hu' ltac:(lia)).
    rewrite length_app, <- app_assoc in IH. simpl length in IH. simpl orb.
    replace (length pre + 2 + length (b :: u))%nat with (length pre + S (S (S (length u))))%nat by (simpl; lia). exact IH.
Qed.

Lemma framed_length units : (length units <= length (flat_map framed units))%nat.
Proof. induction units as [|u units IH]; simpl; [done|]. rewrite length_app. lia. Qed.

Lemma h264_stap b0 units : Z.land b0 0x1F = 24 -> Forall unit_ok units ->
  IsH264KeyFrame (b0 :: flat_map framed units) = Some (existsb (first_of (fun b => Z.land b 0x1F =? 7)) units).
Proof.
  intros Hb Hu. unfold IsH264KeyFrame. rewrite Hb. cbn -[h264_aggregate flat_map existsb].
  pose proof (framed_length units). exact (h264_units (S (length (b0 :: flat_map framed units))) [b0] units Hu ltac:(simpl; lia)).
Qed.

Lemma h265_ap b0 b1 units : h265_type b0 = 48 -> Forall unit_ok units ->
  IsH265KeyFrame (b0 :: b1 :: flat_map framed units) = Some (existsb (first_of (fun b => h265_parameters (h265_type b))) units).
Proof.
  intros Hb Hu. unfold IsH265KeyFrame. rewrite Hb. cbn -[h265_aggregate flat_map existsb].
  pose proof (framed_length units). exact (h265_units (S (length (b0 :: b1 :: flat_map framed units))) [b0; b1] units Hu ltac:(simpl; lia)).
Qed.

(** A packet of AV1 whose units all have a length is never said to begin a key
    frame, whatever it holds. *)
Lemma av1_all_lengths payload b0 : payload !! 0%nat = Some b0 -> Z.land b0 0x30 = 0 -> IsAV1KeyFrame payload = Some false.
Proof.
  intros E0 Hw. unfold IsAV1KeyFrame. destruct (Nat.ltb_spec (length payload) 2); [done|]. rewrite E0. cbn [mbind option_bind].
  destruct (negb _); [done|]. rewrite Hw. change (Z.shiftr 0 4) with 0. unfold av1_units; fold av1_units.
  rewrite slice_in by lia. cbn [mbind option_bind].
  destruct (getObu_total (take (length payload - 1) (drop 1 payload)) (0 =? 0 + 1)) as (obu & n & cut & -> & _). cbn [mbind option_bind].
  destruct obu as [|b obu]; [done|]. simpl Z.eqb. cbv iota. destruct (negb _); [done|]. by destruct cut.
Qed.

End Frames.
Export Frames.
