(* ===== verification/Sps.v ===== *)
(** * The size of a picture, from its parameter set

    Model of pkg/sfu/buffer/h26xhelper.go of the media server: the bit reader
    with its Exp-Golomb codes, the emulation prevention, and the sequence
    parameter sets of H.264 and H.265. H.265 stops at the first error; H.264
    goes on with zero. *)

From S2P Require Import Prelude Vp8 Frames.
#[local] Open Scope Z_scope.

Module Sps.

(** ** The bit reader *)

(** From a position: the value, or the error, and the next position; [None] is a
    panic, or a loop that outlasts its fuel. *)
Definition rd (A : Type) : Type := nat -> option (option A * nat).
Definition rd_ret {A} (a : A) : rd A := fun pos => Some (Some a, pos).
Definition rd_fail {A} : rd A := fun pos => Some (None, pos).
(** Stopping at an error, and going on with a zero value. *)
Definition rd_bind {A B} (m : rd A) (f : A -> rd B) : rd B :=
  fun pos => '(r, pos) ← m pos; match r with Some a => f a pos | None => Some (None, pos) end.
Definition rd_go {A B} (zero : A) (m : rd A) (f : A -> rd B) : rd B :=
  fun pos => '(r, pos) ← m pos; f (default zero r) pos.
Notation "'let?' x := m 'in' k" := (rd_bind m (fun x => k)) (at level 200, x name, k at level 200).
Notation "'let~' x := m 'in' k" := (rd_go 0 m (fun x => k)) (at level 200, x name, k at level 200).
Notation "'let~~' x := m 'in' k" := (rd_go false m (fun x => k)) (at level 200, x name, k at level 200).

Section reader.
Context (data : list Z).

Definition left (pos : nat) : Z := Z.of_nat (length data) * 8 - Z.of_nat pos.

Fixpoint read_bits (n : nat) (v : Z) (pos : nat) : option (option Z * nat) :=
  match n with
  | O => Some (Some v, pos)
  | S n =>
      b ← data !! (pos / 8)%nat;
      let bit := Z.land (Z.shiftr b (7 - Z.of_nat (pos mod 8))) 1 in
      read_bits n (wrap_uint64 (Z.lor (Z.shiftl v 1) bit)) (S pos)
  end.

Definition ReadBits (n : nat) : rd Z := fun pos => if left pos <? Z.of_nat n then Some (None, pos) else read_bits n 0 pos.

Definition ReadFlag : rd bool := let? b := ReadBits 1 in rd_ret (b =? 1).

Fixpoint leading_zeros (fuel : nat) (zeros : nat) : rd nat :=
  match fuel with
  | O => fun _ => None
  | S fuel => let? bit := ReadBits 1 in if bit =? 0 then leading_zeros fuel (S zeros) else rd_ret zeros
  end.

Definition ReadUE : rd Z :=
  let? zeros := leading_zeros (S (8 * length data)) 0 in
  if (zeros =? 0)%nat then rd_ret 0 else
  let? info := ReadBits zeros in
  rd_ret (wrap_uint64 (wrap_uint64 (2 ^ Z.of_nat zeros) - 1 + info)).

Definition ReadSE : rd Z :=
  let? ueVal := ReadUE in
  let k := wrap_int64 ueVal in
  rd_ret (if Z.rem k 2 =? 0 then wrap_int64 (- Z.quot k 2) else Z.quot (wrap_int64 (k + 1)) 2).

(** [n] flags, or signed codes, that nothing is done with. *)
Fixpoint skip_flags (n : nat) : rd unit :=
  match n with O => rd_ret tt | S n => let~~ _ := ReadFlag in skip_flags n end.
Fixpoint skip_signed (n : nat) : rd unit :=
  match n with O => rd_ret tt | S n => let~ _ := ReadSE in skip_signed n end.
(** [n] reads of [k] bits that must succeed. *)
Fixpoint skip_bits (n k : nat) : rd unit :=
  match n with O => rd_ret tt | S n => let? _ := ReadBits k in skip_bits n k end.
End reader.

(** ** Units *)

Definition stripStartCode (b : list Z) : list Z :=
  match b with
  | 0 :: 0 :: 0 :: 1 :: rest => rest
  | 0 :: 0 :: 1 :: rest => rest
  | _ => b
  end.

(** The bytes before [l], the last one first, are [p1] and [p2]. *)
Fixpoint remove_from (p2 p1 : option Z) (l : list Z) : list Z :=
  match l with
  | [] => []
  | b :: l =>
      let out := remove_from p1 (Some b) l in
      if (b =? 0x03) && bool_decide (p1 = Some 0) && bool_decide (p2 = Some 0) then out else b :: out
  end.
Definition removeEmulationPreventionBytes (data : list Z) : list Z := remove_from None None data.

Record SPSInfo := mkSPS {
  ChromaFormatIDC : Z; PicWidthInLumaSamples : Z; PicHeightInLumaSamples : Z; ConformanceWindowFlag : bool;
  ConfWinLeftOffset : Z; ConfWinRightOffset : Z; ConfWinTopOffset : Z; ConfWinBottomOffset : Z;
  CodedWidth : Z; CodedHeight : Z; DisplayWidth : Z; DisplayHeight : Z }.

Definition getSubWidthC (c : Z) : Z := if (c =? 1) || (c =? 2) then 2 else 1.
Definition getSubHeightC (c : Z) : Z := if c =? 1 then 2 else 1.

(** ** H.264 *)

Definition high_profiles : list Z := [100; 110; 122; 244; 44; 83; 86; 118; 128].

Section h264.
Context (data : list Z).

(** What the high profiles add: the chroma format. *)
Definition h264_chroma (profileIDC : Z) : rd Z :=
  if negb (existsb (Z.eqb profileIDC) high_profiles) then rd_ret 1 else
  let~ chromaFormatIDC := ReadUE data in
  let~~ _ := (if chromaFormatIDC =? 3 then ReadFlag data else rd_ret false) in
  let~ _ := ReadUE data in
  let~ _ := ReadUE data in
  let~~ _ := ReadFlag data in
  let~~ v := ReadFlag data in
  let? _ := (if v : bool then skip_flags data 8 else rd_ret tt) in
  rd_ret chromaFormatIDC.

(** The picture order count; [false] is too many frames in its cycle. *)
Definition h264_order : rd bool :=
  let~ pocType := ReadUE data in
  if pocType =? 0 then let~ _ := ReadUE data in rd_ret true
  else if pocType =? 1 then
    let~~ _ := ReadFlag data in
    let~ _ := ReadSE data in
    let~ _ := ReadSE data in
    let~ cnt := ReadUE data in
    if 255 <? cnt then rd_ret false else
    let? _ := skip_signed data (Z.to_nat cnt) in rd_ret true
  else rd_ret true.

Record Crop := mkCrop { cropLeft : Z; cropRight : Z; cropTop : Z; cropBottom : Z }.
Definition h264_crop : rd Crop :=
  let~~ frameCropping := ReadFlag data in
  if frameCropping : bool then
    let~ l := ReadUE data in let~ r := ReadUE data in let~ t := ReadUE data in let~ b := ReadUE data in rd_ret (mkCrop l r t b)
  else rd_ret (mkCrop 0 0 0 0).

Definition h264_info (chromaFormatIDC wMbs hMapUnits : Z) (frameMbsOnly : bool) (c : Crop) : SPSInfo :=
  let width := wrap_uint64 ((wMbs + 1) * 16) in
  let height := wrap_uint64 (wrap_uint64 ((hMapUnits + 1) * 16) * (if frameMbsOnly then 1 else 2)) in
  let cropUnitX := if chromaFormatIDC =? 0 then 1 else getSubWidthC chromaFormatIDC in
  let cropUnitY := if chromaFormatIDC =? 0 then (if frameMbsOnly then 1 else 2) else getSubHeightC chromaFormatIDC * (if frameMbsOnly then 1 else 2) in
  mkSPS chromaFormatIDC width height (0 <? wrap_uint64 (cropLeft c + cropRight c + cropTop c + cropBottom c))
    (cropLeft c) (cropRight c) (cropTop c) (cropBottom c) width height
    (wrap_uint64 (width - (cropLeft c + cropRight c) * cropUnitX)) (wrap_uint64 (height - (cropTop c + cropBottom c) * cropUnitY)).

(** [inl] is the error of the parameter set. *)
Definition h264_fields : rd (result unit SPSInfo) :=
  let~ profileIDC := ReadBits data 8 in
  let~ _ := ReadBits data 8 in
  let~ _ := ReadBits data 8 in
  let~ _ := ReadUE data in
  let? chromaFormatIDC := h264_chroma profileIDC in
  let~ _ := ReadUE data in
  let? order := h264_order in
  if negb order then rd_ret (inl tt) else
  let~ _ := ReadUE data in
  let~~ _ := ReadFlag data in
  let~ wMbs := ReadUE data in
  let~ hMapUnits := ReadUE data in
  let~~ frameMbsOnly := ReadFlag data in
  let~~ _ := (if frameMbsOnly then rd_ret false else ReadFlag data) in
  let~~ _ := ReadFlag data in
  let? c := h264_crop in
  rd_ret (inr (h264_info chromaFormatIDC wMbs hMapUnits frameMbsOnly c)).
End h264.

Definition parseH264SPS (nal : list Z) : option (result unit SPSInfo) :=
  match nal with
  | [] => Some (inl tt)
  | _ =>
      match stripStartCode nal with
      | [] => Some (inl tt)
      | b0 :: payload =>
          if negb (Z.land b0 0x1F =? 7) then Some (inl tt) else
          '(r, _) ← h264_fields (removeEmulationPreventionBytes payload) 0%nat;
          Some (default (inl tt) r)
      end
  end.

Definition size_of (r : result unit SPSInfo) : VideoSize :=
  match r with inl _ => no_size | inr i => mkSize (DisplayWidth i mod 2 ^ 32) (DisplayHeight i mod 2 ^ 32) end.

Definition h264_size (nal : list Z) : option VideoSize := size_of <$> parseH264SPS nal.

(** The first parameter set among the units from [offset] on. *)
Fixpoint h264_search (fuel : nat) (payload : list Z) (offset : nat) : option VideoSize :=
  match fuel with
  | O => None
  | S fuel =>
      if negb (offset + 2 <=? length payload)%nat then Some no_size else
      hi ← payload !! offset; lo ← payload !! (offset + 1)%nat;
      let naluSize := Z.to_nat (be16 hi lo) in
      let offset := (offset + 2)%nat in
      if (length payload <? offset + naluSize)%nat then Some no_size else
      if (naluSize =? 0)%nat then h264_search fuel payload offset else
      nalu ← slice offset (offset + naluSize) payload;
      b ← nalu !! 0%nat;
      if Z.land b 0x1F =? 7 then h264_size nalu else h264_search fuel payload (offset + naluSize)%nat
  end.

Definition ExtractH264VideoSize (payload : list Z) : option VideoSize :=
  match payload with
  | [] => Some no_size
  | b0 :: rest =>
      let nalType := Z.land b0 0x1F in
      if nalType =? 7 then h264_size payload
      else if nalType =? 28 then
        match rest with
        | [] => Some no_size
        | b1 :: fragment =>
            if Z.land b1 0x80 =? 0 then Some no_size
            else h264_size (Z.lor (Z.land b0 0xE0) (Z.land b1 0x1F) :: fragment)
        end
      else if (24 <=? nalType) && (nalType <=? 27) then
        h264_search (S (length payload)) payload
          (if nalType =? 25 then 3 else if nalType =? 26 then 4 else if nalType =? 27 then 5 else 1)
      else Some no_size
  end.

(** ** H.265 *)

Section h265.
Context (data : list Z).

(** Whether the profile and the level of each sub-layer are present. *)
Fixpoint sub_layer_flags (n : nat) : rd (list (bool * bool)) :=
  match n with
  | O => rd_ret []
  | S n => let? f1 := ReadFlag data in let? f2 := ReadFlag data in let? l := sub_layer_flags n in rd_ret ((f1, f2) :: l)
  end.
Fixpoint sub_layers (l : list (bool * bool)) : rd unit :=
  match l with
  | [] => rd_ret tt
  | (f1, f2) :: l =>
      let? _ := (if f1 : bool then let? _ := ReadBits data 8 in let? _ := ReadBits data 32 in let? _ := ReadBits data 48 in rd_ret tt else rd_ret tt) in
      let? _ := (if f2 : bool then let? _ := ReadBits data 8 in rd_ret tt else rd_ret tt) in
      sub_layers l
  end.

(** From the header to the levels of the sub-layers. *)
Definition h265_prefix : rd unit :=
  let? _ := ReadBits data 1 in
  let? nalUnitType := ReadBits data 6 in
  let? _ := ReadBits data 6 in
  let? _ := ReadBits data 3 in
  if negb (nalUnitType =? 33) then rd_fail else
  let? _ := ReadBits data 4 in
  let? maxSubLayersMinus1 := ReadBits data 3 in
  let? _ := ReadBits data 1 in
  let? _ := ReadBits data 8 in
  let? _ := ReadBits data 32 in
  let? _ := ReadBits data 16 in
  let? _ := ReadBits data 32 in
  let? _ := ReadBits data 8 in
  let n := Z.to_nat maxSubLayersMinus1 in
  let? flags := sub_layer_flags n in
  let? _ := (if (0 <? n)%nat then skip_bits data (8 - n) 2 else rd_ret tt) in
  sub_layers flags.

Definition h265_window (confFlag : bool) : rd Crop :=
  if confFlag then
    let? l := ReadUE data in let? r := ReadUE data in let? t := ReadUE data in let? b := ReadUE data in rd_ret (mkCrop l r t b)
  else rd_ret (mkCrop 0 0 0 0).

Definition h265_info (chromaFormatIDC picW picH : Z) (confFlag : bool) (c : Crop) : SPSInfo :=
  let int (z : Z) : Z := wrap_int64 z in
  let shown (pic off unit_ : Z) : Z := Z.max 0 (int (int pic - int (int (wrap_uint64 off) * unit_))) in
  mkSPS chromaFormatIDC picW picH confFlag (cropLeft c) (cropRight c) (cropTop c) (cropBottom c) picW picH
    (if confFlag then shown picW (cropLeft c + cropRight c) (getSubWidthC chromaFormatIDC) else picW)
    (if confFlag then shown picH (cropTop c + cropBottom c) (getSubHeightC chromaFormatIDC) else picH).

Definition h265_fields : rd SPSInfo :=
  let? _ := h265_prefix in
  let? _ := ReadUE data in
  let? chromaFormatIDC := ReadUE data in
  let? _ := (if chromaFormatIDC =? 3 then ReadFlag data else rd_ret false) in
  let? picW := ReadUE data in
  let? picH := ReadUE data in
  let? confFlag := ReadFlag data in
  let? c := h265_window confFlag in
  rd_ret (h265_info chromaFormatIDC picW picH confFlag c).
End h265.

Definition parseH265SPS (nal : list Z) : option (result unit SPSInfo) :=
  '(r, _) ← h265_fields (removeEmulationPreventionBytes (stripStartCode nal)) 0%nat;
  Some (match r with Some i => inr i | None => inl tt end).

Definition h265_nal_type (b : Z) : Z := Z.land (Z.shiftr b 1) 0x3F.

(** The first parameter set among the units from [i] on; empty for none. *)
Fixpoint h265_search (fuel : nat) (payload : list Z) (i : nat) : option (list Z) :=
  match fuel with
  | O => None
  | S fuel =>
      if negb (i + 2 <=? length payload)%nat then Some [] else
      hi ← payload !! i; lo ← payload !! (i + 1)%nat;
      let nalSize := Z.to_nat (be16 hi lo) in
      let i := (i + 2)%nat in
      if (length payload <? i + nalSize)%nat then Some [] else
      if (nalSize =? 0)%nat then h265_search fuel payload i else
      nalUnit ← slice i (i + nalSize) payload;
      b ← nalUnit !! 0%nat;
      if h265_nal_type b =? 33 then Some nalUnit else h265_search fuel payload (i + nalSize)%nat
  end.

Definition ExtractH265VideoSize (payload : list Z) : option VideoSize :=
  match payload with
  | b0 :: _ :: _ =>
      spsNalu ← (if h265_nal_type b0 =? 33 then Some payload
                 else if h265_nal_type b0 =? 48 then h265_search (S (length payload)) payload 2 else Some []);
      if (length spsNalu =? 0)%nat then Some no_size else size_of <$> parseH265SPS spsNalu
  | _ => Some no_size
  end.

(** ** Nothing is read out of bounds, and every loop ends *)

Definition total {A} (m : rd A) : Prop := forall pos, is_Some (m pos).

(** The reads that are known to be total. *)
Create HintDb rd_db.

Lemma total_ret {A} (a : A) : total (rd_ret a).
Proof. intros pos. by eexists. Qed.
Lemma total_fail {A} : total (rd_fail : rd A).
Proof. intros pos. by eexists. Qed.
Lemma total_bind {A B} (m : rd A) (f : A -> rd B) : total m -> (forall a, total (f a)) -> total (rd_bind m f).
Proof. intros Hm Hf pos. unfold rd_bind. destruct (Hm pos) as [[[a|] p] ->]; simpl; [apply Hf|done]. Qed.
Lemma total_go {A B} zero (m : rd A) (f : A -> rd B) : total m -> (forall a, total (f a)) -> total (rd_go zero m f).
Proof. intros Hm Hf pos. unfold rd_go. destruct (Hm pos) as [[r p] ->]. simpl. apply Hf. Qed.

(** Reads put together of reads that are total. *)
Ltac all_total :=
  repeat first [ progress intros | progress cbv zeta | solve [auto 1 with rd_db] | apply total_ret | apply total_fail | apply total_bind | apply total_go
               | match goal with |- context [if ?b then _ else _] => destruct b end ].

Section totality.
Context (data : list Z).

Lemma read_bits_total n v pos : (pos + n <= 8 * length data)%nat ->
  exists v', read_bits data n v pos = Some (Some v', (pos + n)%nat).
Proof.
  revert v pos. induction n as [|n IH]; intros v pos H; cbn [read_bits]; [exists v; by rewrite Nat.add_0_r|].
  destruct (lookup_in data (pos / 8)%nat) as [b ->]; [apply Nat.Div0.div_lt_upper_bound; lia|]. cbn [mbind option_bind].
  destruct (IH (wrap_uint64 (Z.lor (Z.shiftl v 1) (Z.land (Z.shiftr b (7 - Z.of_nat (pos mod 8))) 1))) (S pos) ltac:(lia)) as [v' E].
  exists v'. rewrite E. by replace (pos + S n)%nat with (S pos + n)%nat by lia.
Qed.

Lemma ReadBits_cases n pos :
  (ReadBits data n pos = Some (None, pos) /\ left data pos < Z.of_nat n) \/
  (exists v, ReadBits data n pos = Some (Some v, (pos + n)%nat) /\ Z.of_nat n <= left data pos).
Proof.
  unfold ReadBits. destruct (Z.ltb_spec (left data pos) (Z.of_nat n)) as [H|H]; [by left|right]. unfold left in *.
  destruct (read_bits_total n 0 pos ltac:(lia)) as [v E]. exists v. by split.
Qed.

Lemma ReadBits_total n : total (ReadBits data n).
Proof. intros pos. destruct (ReadBits_cases n pos) as [[-> _]|(v & -> & _)]; done. Qed.
#[local] Hint Resolve ReadBits_total : rd_db.

Lemma ReadFlag_total : total (ReadFlag data).
Proof. unfold ReadFlag. all_total. Qed.
#[local] Hint Resolve ReadFlag_total : rd_db.

Lemma leading_zeros_total fuel zeros pos : left data pos < Z.of_nat fuel -> (0 < fuel)%nat -> is_Some (leading_zeros data fuel zeros pos).
Proof.
  revert zeros pos. induction fuel as [|fuel IH]; intros zeros pos Hf Hp; [lia|]. cbn [leading_zeros]. unfold rd_bind.
  destruct (ReadBits_cases 1 pos) as [[-> _]|(v & -> & Hl)]; simpl; [done|]. destruct (v =? 0); [|done].
  apply IH; unfold left in *; lia.
Qed.

Lemma ReadUE_total : total (ReadUE data).
Proof.
  unfold ReadUE. apply total_bind; [|all_total]. intros pos. apply leading_zeros_total; unfold left; lia.
Qed.
#[local] Hint Resolve ReadUE_total : rd_db.

Lemma ReadSE_total : total (ReadSE data).
Proof. unfold ReadSE. all_total. Qed.
#[local] Hint Resolve ReadSE_total : rd_db.

Lemma skip_flags_total n : total (skip_flags data n).
Proof. induction n; simpl; all_total. Qed.
Lemma skip_signed_total n : total (skip_signed data n).
Proof. induction n; simpl; all_total. Qed.
Lemma skip_bits_total n k : total (skip_bits data n k).
Proof. induction n; simpl; all_total. Qed.
#[local] Hint Resolve skip_flags_total skip_signed_total skip_bits_total : rd_db.

Lemma h264_fields_total : total (h264_fields data).
Proof. unfold h264_fields, h264_chroma, h264_order, h264_crop. all_total. Qed.

Lemma sub_layer_flags_total n : total (sub_layer_flags data n).
Proof. induction n; simpl; all_total. Qed.
Lemma sub_layers_total l : total (sub_layers data l).
Proof. induction l as [|[f1 f2] l IH]; simpl; all_total. Qed.
#[local] Hint Resolve sub_layer_flags_total sub_layers_total : rd_db.

Lemma h265_fields_total : total (h265_fields data).
Proof. unfold h265_fields, h265_prefix, h265_window. all_total. Qed.
End totality.

Lemma parseH264SPS_total nal : is_Some (parseH264SPS nal).
Proof.
  unfold parseH264SPS. destruct nal as [|b nal]; [done|]. destruct (stripStartCode _) as [|b0 l]; [done|]. destruct (negb _); [done|].
  by destruct (h264_fields_total (removeEmulationPreventionBytes l) 0%nat) as [[r p] ->].
Qed.

Lemma parseH265SPS_total nal : is_Some (parseH265SPS nal).
Proof. unfold parseH265SPS. by destruct (h265_fields_total (removeEmulationPreventionBytes (stripStartCode nal)) 0%nat) as [[r p] ->]. Qed.

Lemma h264_size_total nal : is_Some (h264_size nal).
Proof. unfold h264_size. by destruct (parseH264SPS_total nal) as [r ->]. Qed.

Lemma h264_search_total fuel payload offset : (length payload - offset < fuel)%nat -> is_Some (h264_search fuel payload offset).
Proof.
  revert offset. induction fuel as [|fuel IH]; intros offset Hf; [lia|]. cbn [h264_search].
  destruct (Nat.leb_spec (offset + 2) (length payload)); cbn [negb]; [|done]. read_byte hi. read_byte lo. set (n := Z.to_nat _). clearbody n.
  destruct (Nat.ltb_spec (length payload) (offset + 2 + n)); [done|]. destruct (Nat.eqb_spec n 0); [apply IH; lia|].
  rewrite slice_in by lia. cbn [mbind option_bind]. destruct (lookup_in (take (offset + 2 + n - (offset + 2)) (drop (offset + 2) payload)) 0) as [b ->].
  { rewrite length_take, length_drop. lia. }
  simpl. destruct (_ =? 7); [apply h264_size_total|]. apply IH. lia.
Qed.

Lemma h265_search_total fuel payload i : (length payload - i < fuel)%nat -> is_Some (h265_search fuel payload i).
Proof.
  revert i. induction fuel as [|fuel IH]; intros i Hf; [lia|]. cbn [h265_search].
  destruct (Nat.leb_spec (i + 2) (length payload)); cbn [negb]; [|done]. read_byte hi. read_byte lo. set (n := Z.to_nat _). clearbody n.
  destruct (Nat.ltb_spec (length payload) (i + 2 + n)); [done|]. destruct (Nat.eqb_spec n 0); [apply IH; lia|].
  rewrite slice_in by lia. cbn [mbind option_bind]. destruct (lookup_in (take (i + 2 + n - (i + 2)) (drop (i + 2) payload)) 0) as [b ->].
  { rewrite length_take, length_drop. lia. }
  simpl. destruct (_ =? 33); [done|]. apply IH. lia.
Qed.

Lemma ExtractH264VideoSize_total payload : is_Some (ExtractH264VideoSize payload).
Proof.
  unfold ExtractH264VideoSize. destruct payload as [|b0 l]; [done|]. destruct (_ =? 7); [apply h264_size_total|]. destruct (_ =? 28).
  - destruct l as [|b1 l]; [done|]. destruct (_ =? 0); [done|]. apply h264_size_total.
  - destruct (_ && _); [|done]. apply h264_search_total. lia.
Qed.

Lemma ExtractH265VideoSize_total payload : is_Some (ExtractH265VideoSize payload).
Proof.
  unfold ExtractH265VideoSize. destruct payload as [|b0 [|b1 l]]; try done.
  assert (Hs : is_Some (if h265_nal_type b0 =? 33 then Some (b0 :: b1 :: l)
    else if h265_nal_type b0 =? 48 then h265_search (S (length (b0 :: b1 :: l))) (b0 :: b1 :: l) 2 else Some [])).
  { destruct (_ =? 33); [done|]. destruct (_ =? 48); [|done]. apply h265_search_total. lia. }
  destruct Hs as [u ->]. cbn [mbind option_bind]. destruct (_ =? 0)%nat; [done|]. by destruct (parseH265SPS_total u) as [r ->].
Qed.

(** ** Bits that are read *)

Definition byte_bits (b : Z) : list bool := map (fun k => Z.testbit b (7 - Z.of_nat k)) (seq 0 8).
Fixpoint bits_of (data : list Z) : list bool := match data with [] => [] | b :: data => byte_bits b ++ bits_of data end.
#[global] Arguments byte_bits : simpl never.
(** The [n] low bits of [v], the highest first. *)
Fixpoint nbits (n : nat) (v : Z) : list bool := match n with O => [] | S n => Z.testbit v (Z.of_nat n) :: nbits n v end.
(** The Exp-Golomb code of [v]. *)
Definition ue_bits (v : Z) : list bool :=
  let k := Z.to_nat (Z.log2 (v + 1)) in replicate k false ++ true :: nbits k (v + 1).
#[global] Arguments ue_bits : simpl never.
#[global] Arguments nbits : simpl nomatch.

Definition bits_value (v : Z) (bs : list bool) : Z := foldl (fun v b => wrap_uint64 (2 * v + Z.b2z b)) v bs.

Lemma byte_bits_length b : length (byte_bits b) = 8%nat.
Proof. done. Qed.

Lemma bits_of_at data pos b : data !! (pos / 8)%nat = Some b -> bits_of data !! pos = Some (Z.testbit b (7 - Z.of_nat (pos mod 8))).
Proof.
  revert pos. induction data as [|b0 data IH]; intros pos H; [done|]. cbn [bits_of].
  destruct (Nat.lt_ge_cases pos 8) as [Hp|Hp].
  - rewrite Nat.div_small in H by done. simpl in H. simplify_eq. rewrite Nat.mod_small by done.
    rewrite lookup_app_l by (rewrite byte_bits_length; lia). unfold byte_bits. rewrite list_lookup_fmap. by rewrite lookup_seq_lt.
  - rewrite lookup_app_r by (rewrite byte_bits_length; lia). rewrite byte_bits_length.
    replace pos with ((pos - 8) + 1 * 8)%nat in H by lia. rewrite Nat.div_add in H by lia. rewrite Nat.add_1_r in H. simpl in H.
    rewrite (IH _ H). f_equal. f_equal. replace pos with ((pos - 8) + 1 * 8)%nat at 2 by lia. by rewrite Nat.Div0.mod_add.
Qed.

Lemma bits_of_length data : length (bits_of data) = (8 * length data)%nat.
Proof. induction data as [|b data IH]; [done|]. cbn [bits_of]. rewrite length_app, IH, byte_bits_length. simpl. lia. Qed.

Lemma nbits_length n v : length (nbits n v) = n.
Proof. induction n; simpl; congruence. Qed.

Lemma nbits_value n acc v : 0 <= acc -> 0 <= v -> acc * 2 ^ Z.of_nat n + v mod 2 ^ Z.of_nat n < two64 ->
  bits_value acc (nbits n v) = acc * 2 ^ Z.of_nat n + v mod 2 ^ Z.of_nat n.
Proof.
  revert acc. induction n as [|n IH]; intros acc Ha Hv Hb; [simpl; rewrite Z.mod_1_r; lia|]. cbn [nbits bits_value foldl].
  pose proof (Z.mod_pos_bound v (2 ^ Z.of_nat n) ltac:(lia)). pose proof (Z.pow_pos_nonneg 2 (Z.of_nat n) ltac:(lia) ltac:(lia)).
  assert (Hs : v mod 2 ^ Z.of_nat (S n) = Z.b2z (Z.testbit v (Z.of_nat n)) * 2 ^ Z.of_nat n + v mod 2 ^ Z.of_nat n).
  { rewrite Z.testbit_spec' by lia. rewrite Nat2Z.inj_succ, Z.pow_succ_r, (Z.mul_comm 2) by lia. rewrite Z.rem_mul_r by lia. lia. }
  rewrite Nat2Z.inj_succ, Z.pow_succ_r in * by lia. rewrite Hs in *.
  assert (Hw : wrap_uint64 (2 * acc + Z.b2z (Z.testbit v (Z.of_nat n))) = 2 * acc + Z.b2z (Z.testbit v (Z.of_nat n))).
  { apply wrap_uint64_small. destruct (Z.testbit v (Z.of_nat n)); simpl Z.b2z in *; nia. }
  rewrite Hw. change (foldl _ _ _) with (bits_value (2 * acc + Z.b2z (Z.testbit v (Z.of_nat n))) (nbits n v)).
  rewrite IH; [lia| |done|lia]. destruct (Z.testbit v (Z.of_nat n)); simpl; lia.
Qed.

Lemma push_bit v b : Z.lor (Z.shiftl v 1) (Z.b2z b) = 2 * v + Z.b2z b.
Proof.
  replace (Z.shiftl v 1) with (2 * v) by (rewrite Z.shiftl_mul_pow2; lia). apply lor_disjoint. apply Z.bits_inj'. intros k Hk.
  rewrite Z.land_spec, Z.bits_0. destruct (Z.eq_dec k 0) as [->|Hk0]; [by rewrite Z.testbit_even_0|].
  destruct b; simpl Z.b2z; [|by rewrite Z.bits_0, andb_false_r]. rewrite (Z.bits_above_log2 1 k) by (simpl; lia). apply andb_false_r.
Qed.

Lemma low_bit x k : 0 <= k -> Z.land (Z.shiftr x k) 1 = Z.b2z (Z.testbit x k).
Proof. intros Hk. change 1 with (Z.ones 1). rewrite Z.land_ones by lia. rewrite <- Z.bit0_mod, Z.shiftr_spec by lia. by rewrite Z.add_0_l. Qed.

Section reads.
Context (data : list Z).

(** [m] reads the bits [bs], wherever they are, as [a]. *)
Definition reads {A} (m : rd A) (bs : list bool) (a : A) : Prop :=
  forall pos rest, drop pos (bits_of data) = bs ++ rest -> m pos = Some (Some a, (pos + length bs)%nat).

Lemma bits_ret {A} (a : A) : reads (rd_ret a) [] a.
Proof. intros pos rest _. unfold rd_ret. by rewrite Nat.add_0_r. Qed.

Lemma drop_further {A} pos (l bs rest : list A) : drop pos l = bs ++ rest -> drop (pos + length bs) l = rest.
Proof. intros E. rewrite <- drop_drop, E. by rewrite drop_app_length. Qed.

Lemma bits_bind {A B} (m : rd A) (f : A -> rd B) bs bs' a b : reads m bs a -> reads (f a) bs' b -> reads (rd_bind m f) (bs ++ bs') b.
Proof.
  intros Hm Hf pos rest E. rewrite <- app_assoc in E. unfold rd_bind. rewrite (Hm _ _ E). simpl.
  rewrite (Hf _ _ (drop_further _ _ _ _ E)). rewrite length_app. by rewrite Nat.add_assoc.
Qed.

Lemma reads_go {A B} zero (m : rd A) (f : A -> rd B) bs bs' a b : reads m bs a -> reads (f a) bs' b -> reads (rd_go zero m f) (bs ++ bs') b.
Proof.
  intros Hm Hf pos rest E. rewrite <- app_assoc in E. unfold rd_go. rewrite (Hm _ _ E). simpl.
  rewrite (Hf _ _ (drop_further _ _ _ _ E)). rewrite length_app. by rewrite Nat.add_assoc.
Qed.

Lemma read_bits_spec bs v pos rest : drop pos (bits_of data) = bs ++ rest ->
  read_bits data (length bs) v pos = Some (Some (bits_value v bs), (pos + length bs)%nat).
Proof.
  revert v pos. induction bs as [|b bs IH]; intros v pos E; cbn [length read_bits]; [by rewrite Nat.add_0_r|].
  assert (Hb : bits_of data !! pos = Some b) by (rewrite <- (Nat.add_0_r pos), <- lookup_drop, E; done).
  pose proof (lookup_lt_Some _ _ _ Hb) as Hlt. rewrite bits_of_length in Hlt.
  destruct (lookup_in data (pos / 8)%nat) as [x Ex]; [apply Nat.Div0.div_lt_upper_bound; lia|].
  rewrite (bits_of_at _ _ _ Ex) in Hb. apply (inj Some) in Hb. rewrite Ex. cbn [mbind option_bind].
  rewrite IH with (pos := S pos).
  - rewrite Nat.add_succ_r. cbn [bits_value foldl]. do 3 f_equal. unfold bits_value. f_equal. f_equal.
    pose proof (Nat.mod_upper_bound pos 8 ltac:(lia)). rewrite low_bit, Hb by lia. apply push_bit.
  - replace (S pos) with (pos + length [b])%nat by (simpl; lia). apply (drop_further pos _ [b] (bs ++ rest)). done.
Qed.

Lemma reads_bits n v : 0 <= v < 2 ^ Z.of_nat n -> 1 <= Z.of_nat n <= 63 -> reads (ReadBits data n) (nbits n v) v.
Proof.
  intros Hv Hn pos rest E. unfold ReadBits, left. rewrite nbits_length.
  assert (Hl : (length (bits_of data) - pos = n + length rest)%nat) by (rewrite <- length_drop, E, length_app, nbits_length; done).
  rewrite bits_of_length in Hl. rewrite (proj2 (Z.ltb_ge _ _)) by lia.
  pose proof (read_bits_spec (nbits n v) 0 pos rest E) as Hr. rewrite nbits_length in Hr. rewrite Hr.
  pose proof (Z.pow_le_mono_r 2 (Z.of_nat n) 63 ltac:(lia) ltac:(lia)).
  rewrite nbits_value, Z.mod_small by (try done; rewrite ?Z.mod_small by done; unfold two64; lia). by rewrite Z.mul_0_l, Z.add_0_l.
Qed.

Lemma reads_bit b : reads (ReadBits data 1) [b] (Z.b2z b).
Proof. pose proof (reads_bits 1 (Z.b2z b)) as H. destruct b; apply H; simpl; lia. Qed.

Lemma reads_flag b : reads (ReadFlag data) [b] b.
Proof. apply (bits_bind _ _ [b] [] (Z.b2z b)); [apply reads_bit|]. destruct b; apply bits_ret. Qed.

Lemma reads_zeros fuel zeros k pos rest : drop pos (bits_of data) = replicate k false ++ true :: rest -> (k < fuel)%nat ->
  leading_zeros data fuel zeros pos = Some (Some (zeros + k)%nat, (pos + k + 1)%nat).
Proof.
  revert fuel zeros pos. induction k as [|k IH]; intros fuel zeros pos E Hf; (destruct fuel as [|fuel]; [lia|]); cbn [leading_zeros]; unfold rd_bind.
  - rewrite (reads_bit true pos rest E). simpl. unfold rd_ret. by rewrite !Nat.add_0_r.
  - rewrite (reads_bit false pos (replicate k false ++ true :: rest) E). simpl.
    rewrite (IH fuel (S zeros) (pos + 1)%nat); [do 2 f_equal; [f_equal; lia|lia]| |lia]. exact (drop_further pos _ [false] _ E).
Qed.

(** Codes of up to 32 bits. *)
Definition code_ok (v : Z) : Prop := 0 <= v < 2 ^ 32 - 1.

Lemma nbits_low n v : nbits n v = nbits n (v mod 2 ^ Z.of_nat n).
Proof.
  assert (H : forall m, (m <= n)%nat -> nbits m v = nbits m (v mod 2 ^ Z.of_nat n)); [|by apply H].
  induction m as [|m IH]; intros Hm; [done|]. cbn [nbits]. rewrite Z.mod_pow2_bits_low by lia. f_equal. apply IH. lia.
Qed.

Lemma reads_ue v : code_ok v -> reads (ReadUE data) (ue_bits v) v.
Proof.
  intros Hv pos rest E. unfold ReadUE, rd_bind. unfold ue_bits in *. set (k := Z.to_nat (Z.log2 (v + 1))) in *. unfold code_ok in Hv.
  assert (Hk : Z.of_nat k = Z.log2 (v + 1)) by (unfold k; rewrite Z2Nat.id; [done|apply Z.log2_nonneg]).
  pose proof (Z.log2_spec (v + 1) ltac:(lia)) as Hlog. rewrite Z.pow_succ_r in Hlog by apply Z.log2_nonneg. rewrite <- Hk in Hlog.
  assert (Hk32 : Z.of_nat k < 32) by (rewrite Hk; apply Z.log2_lt_pow2; lia). clearbody k.
  rewrite <- app_assoc in E. simpl in E.
  assert (Hl : (length (bits_of data) - pos = k + S (k + length rest))%nat).
  { rewrite <- length_drop, E, length_app, length_replicate. simpl. by rewrite length_app, nbits_length. }
  rewrite bits_of_length in Hl. rewrite (reads_zeros _ 0 k pos _ E) by lia. simpl.
  rewrite length_app, length_replicate. simpl length. rewrite nbits_length.
  destruct (Nat.eqb_spec k 0) as [->|Hk0].
  - unfold rd_ret. do 2 f_equal; [f_equal; simpl in Hlog; lia|lia].
  - pose proof (drop_further pos (bits_of data) (replicate k false ++ [true]) (nbits k (v + 1) ++ rest)) as Ed.
    rewrite length_app, length_replicate, <- app_assoc in Ed. simpl in Ed. specialize (Ed E).
    assert (Hlow : (v + 1) mod 2 ^ Z.of_nat k = v + 1 - 2 ^ Z.of_nat k).
    { symmetry. apply Z.mod_unique with 1; lia. }
    rewrite nbits_low, Hlow in Ed. rewrite <- Nat.add_assoc.
    rewrite (reads_bits k (v + 1 - 2 ^ Z.of_nat k) ltac:(lia) ltac:(lia) _ _ Ed). rewrite nbits_length. unfold rd_ret. simpl.
    pose proof (Z.pow_le_mono_r 2 (Z.of_nat k) 32 ltac:(lia) ltac:(lia)).
    rewrite (wrap_uint64_small (2 ^ _)) by (unfold two64; lia). rewrite wrap_uint64_small by (unfold two64; lia).
    do 2 f_equal; [f_equal; lia|lia].
Qed.

Lemma reads_se v : code_ok v -> exists x, reads (ReadSE data) (ue_bits v) x.
Proof.
  intros Hv. eexists. rewrite <- (app_nil_r (ue_bits v)). eapply bits_bind; [by apply reads_ue|]. apply bits_ret.
Qed.

Lemma reads_skip_signed l : Forall code_ok l -> reads (skip_signed data (length l)) (flat_map ue_bits l) tt.
Proof.
  induction 1 as [|v l Hv _ IH]; simpl; [apply bits_ret|]. destruct (reads_se v Hv) as [x Hx]. by eapply reads_go.
Qed.
End reads.

(** ** Writing a parameter set *)

(** The fields of a parameter set of H.264, without scaling lists. *)
Record High := mkHigh { hi_chroma : Z; hi_separate : bool; hi_luma : Z; hi_depth : Z; hi_bypass : bool }.
Inductive Order :=
  | Order0 (log2_max : Z) | Order1 (always_zero : bool) (non_ref top_bottom : Z) (cycle : list Z) | Order2.
Record Sps := mkSps {
  sp_profile : Z; sp_constraints : Z; sp_level : Z; sp_id : Z; sp_high : option High; sp_frame_num : Z; sp_order : Order; sp_refs : Z;
  sp_gaps : bool; sp_wMbs : Z; sp_hMapUnits : Z; sp_frame_only : bool; sp_adaptive : bool; sp_direct : bool; sp_crop : option Crop }.

Definition high_bits (h : High) : list bool :=
  ue_bits (hi_chroma h) ++ (if hi_chroma h =? 3 then [hi_separate h] else []) ++ ue_bits (hi_luma h) ++ ue_bits (hi_depth h) ++
  [hi_bypass h] ++ [false].
Definition order_bits (o : Order) : list bool :=
  match o with
  | Order0 v => ue_bits 0 ++ ue_bits v
  | Order1 z n t cycle => ue_bits 1 ++ [z] ++ ue_bits n ++ ue_bits t ++ ue_bits (Z.of_nat (length cycle)) ++ flat_map ue_bits cycle
  | Order2 => ue_bits 2
  end.
Definition crop_bits (c : option Crop) : list bool :=
  match c with
  | None => [false]
  | Some c => [true] ++ ue_bits (cropLeft c) ++ ue_bits (cropRight c) ++ ue_bits (cropTop c) ++ ue_bits (cropBottom c)
  end.
Definition sps_bits (s : Sps) : list bool :=
  nbits 8 (sp_profile s) ++ nbits 8 (sp_constraints s) ++ nbits 8 (sp_level s) ++ ue_bits (sp_id s) ++
  match sp_high s with Some h => high_bits h | None => [] end ++ ue_bits (sp_frame_num s) ++ order_bits (sp_order s) ++ ue_bits (sp_refs s) ++
  [sp_gaps s] ++ ue_bits (sp_wMbs s) ++ ue_bits (sp_hMapUnits s) ++ [sp_frame_only s] ++
  (if sp_frame_only s then [] else [sp_adaptive s]) ++ [sp_direct s] ++ crop_bits (sp_crop s).

Definition chroma_of (s : Sps) : Z := match sp_high s with Some h => hi_chroma h | None => 1 end.
Definition no_crop : Crop := mkCrop 0 0 0 0.
Definition crop_of (s : Sps) : Crop := default no_crop (sp_crop s).

Definition high_ok (h : High) : Prop := 0 <= hi_chroma h <= 3 /\ code_ok (hi_luma h) /\ code_ok (hi_depth h).
Definition order_ok (o : Order) : Prop :=
  match o with
  | Order0 v => code_ok v
  | Order1 _ n t cycle => code_ok n /\ code_ok t /\ Forall code_ok cycle /\ (length cycle <= 255)%nat
  | Order2 => True
  end.
Definition crop_ok (c : Crop) : Prop := code_ok (cropLeft c) /\ code_ok (cropRight c) /\ code_ok (cropTop c) /\ code_ok (cropBottom c).
Definition byte_ok (b : Z) : Prop := 0 <= b < 256.

Record sps_ok (s : Sps) : Prop := {
  so_profile : byte_ok (sp_profile s); so_constraints : byte_ok (sp_constraints s); so_level : byte_ok (sp_level s); so_id : code_ok (sp_id s);
  so_high : match sp_high s with Some h => high_ok h /\ existsb (Z.eqb (sp_profile s)) high_profiles = true
                               | None => existsb (Z.eqb (sp_profile s)) high_profiles = false end;
  so_frame_num : code_ok (sp_frame_num s); so_order : order_ok (sp_order s); so_refs : code_ok (sp_refs s);
  so_width : code_ok (sp_wMbs s); so_height : code_ok (sp_hMapUnits s); so_crop : crop_ok (crop_of s) }.

Section fields.
Context (data : list Z).

(** A last read. *)
Lemma reads_bind_last {A B} (m : rd A) (f : A -> rd B) bs a b : reads data m bs a -> reads data (f a) [] b -> reads data (rd_bind m f) bs b.
Proof. intros Hm Hf. rewrite <- (app_nil_r bs). by eapply bits_bind. Qed.
Lemma reads_go_last {A B} zero (m : rd A) (f : A -> rd B) bs a b : reads data m bs a -> reads data (f a) [] b -> reads data (rd_go zero m f) bs b.
Proof. intros Hm Hf. rewrite <- (app_nil_r bs). by eapply reads_go. Qed.

(** The next field. *)
Ltac field :=
  first [ eapply reads_go; [ first [ apply reads_flag | apply reads_ue; assumption | apply reads_bits; [assumption|simpl; lia] ]|] ].

Lemma reads_optional_flag (b x : bool) : reads data (if b then rd_ret false else ReadFlag data) (if b then [] else [x]) (if b then false else x).
Proof. destruct b; [apply bits_ret|apply reads_flag]. Qed.

Lemma reads_chroma s : sps_ok s ->
  reads data (h264_chroma data (sp_profile s)) match sp_high s with Some h => high_bits h | None => [] end (chroma_of s).
Proof.
  intros Hs. pose proof (so_high s Hs) as Hh. unfold chroma_of, h264_chroma. destruct (sp_high s) as [h|].
  - destruct Hh as [(Hc & Hl & Hd) Hp]. rewrite Hp. cbn [negb]. unfold high_bits.
    assert (Hcc : code_ok (hi_chroma h)) by (unfold code_ok; lia). field.
    eapply reads_go with (a := if hi_chroma h =? 3 then hi_separate h else false); [destruct (_ =? 3); [apply reads_flag|apply bits_ret]|].
    do 3 field. eapply reads_go_last; [apply reads_flag|]. eapply reads_bind_last; [apply (bits_ret data tt)|apply bits_ret].
  - rewrite Hh. apply bits_ret.
Qed.

Lemma reads_order o : order_ok o -> reads data (h264_order data) (order_bits o) true.
Proof.
  unfold h264_order. destruct o as [v|z n t cycle|]; cbn [order_bits order_ok]; intros Ho.
  - eapply reads_go; [by apply reads_ue|]. cbn [Z.eqb]. eapply reads_go_last; [by apply reads_ue|apply bits_ret].
  - destruct Ho as (Hn & Ht & Hc & Hl). eapply reads_go; [by apply reads_ue|]. cbn [Z.eqb Pos.eqb].
    eapply (reads_go _ _ _ _ [z]); [apply reads_flag|]. destruct (reads_se data n Hn) as [x Hx]. destruct (reads_se data t Ht) as [y Hy].
    eapply reads_go; [exact Hx|]. eapply reads_go; [exact Hy|]. eapply reads_go; [apply reads_ue; unfold code_ok; lia|].
    rewrite (proj2 (Z.ltb_ge _ _)) by lia. rewrite Nat2Z.id. eapply reads_bind_last; [by apply reads_skip_signed|apply bits_ret].
  - eapply reads_go_last; [by apply reads_ue|]. apply bits_ret.
Qed.

Lemma reads_crop c : crop_ok (default no_crop c) -> reads data (h264_crop data) (crop_bits c) (default no_crop c).
Proof.
  unfold h264_crop. destruct c as [c|]; simpl; intros Hc.
  - destruct Hc as (Hl & Hr & Ht & Hb). eapply (reads_go _ _ _ _ [true]); [apply reads_flag|]. do 3 field.
    eapply reads_go_last; [by apply reads_ue|]. destruct c. apply bits_ret.
  - eapply reads_go_last; [apply reads_flag|apply bits_ret].
Qed.

Lemma reads_sps s : sps_ok s ->
  reads data (h264_fields data) (sps_bits s)
    (inr (h264_info (chroma_of s) (sp_wMbs s) (sp_hMapUnits s) (sp_frame_only s) (crop_of s))).
Proof.
  intros Hs. pose proof Hs as []. unfold h264_fields, sps_bits, byte_ok in *. do 4 field. eapply bits_bind; [by apply reads_chroma|]. field.
  eapply bits_bind; [by apply reads_order|]. cbn [negb]. do 5 field.
  eapply reads_go; [apply reads_optional_flag|]. field. eapply reads_bind_last; [by apply reads_crop|]. apply bits_ret.
Qed.
End fields.

(** Bits into bytes; the last one is filled up with zeros. *)
Definition byte_of_bits (bs : list bool) : Z := foldl (fun v b => 2 * v + Z.b2z b) 0 (take 8 (bs ++ replicate 8 false)).
Fixpoint pack (n : nat) (bs : list bool) : list Z :=
  match n with O => [] | S n => byte_of_bits bs :: pack n (drop 8 bs) end.
Definition to_bytes (bs : list bool) : list Z := pack ((length bs + 7) / 8) bs.

Lemma byte_of_bits_bits bs : length bs = 8%nat -> byte_bits (byte_of_bits bs) = bs.
Proof.
  do 9 (destruct bs as [|? bs]; [try done|]); [|done]. intros _.
  repeat match goal with b : bool |- _ => destruct b end; vm_compute; reflexivity.
Qed.

Lemma byte_of_bits_pad bs : byte_of_bits bs = byte_of_bits (take 8 (bs ++ replicate 8 false)).
Proof.
  unfold byte_of_bits. set (l := bs ++ replicate 8 false). assert (Hl : (8 <= length l)%nat) by (unfold l; rewrite length_app, length_replicate; lia).
  clearbody l. rewrite (take_app_le (take 8 l)) by (rewrite length_take; lia). by rewrite take_take.
Qed.

Lemma pack_bits n bs : (length bs <= 8 * n)%nat -> exists k, bits_of (pack n bs) = bs ++ replicate k false.
Proof.
  revert bs. induction n as [|n IH]; intros bs H; [exists 0%nat; destruct bs; [done|simpl in H; lia]|]. cbn [pack bits_of].
  rewrite byte_of_bits_pad, byte_of_bits_bits by (rewrite length_take, length_app, length_replicate; lia).
  destruct (IH (drop 8 bs)) as [k E]; [rewrite length_drop; lia|]. rewrite E.
  destruct (Nat.le_gt_cases 8 (length bs)) as [Hl|Hl].
  - exists k. rewrite take_app_le by done. by rewrite app_assoc, take_drop.
  - rewrite drop_ge by lia. rewrite take_app_ge by lia. rewrite take_replicate. exists (min (8 - length bs) 8 + k)%nat.
    rewrite app_nil_l, <- app_assoc, <- replicate_add. done.
Qed.

Lemma to_bytes_bits bs : exists k, bits_of (to_bytes bs) = bs ++ replicate k false.
Proof. apply pack_bits. pose proof (Nat.div_mod (length bs + 7) 8 ltac:(lia)). pose proof (Nat.mod_upper_bound (length bs + 7) 8 ltac:(lia)). lia. Qed.

(** A byte 3 goes before a byte up to 3 that follows two zeros. *)
Fixpoint escape (zeros : nat) (l : list Z) : list Z :=
  match l with
  | [] => []
  | b :: l =>
      if (2 <=? zeros)%nat && (b <=? 3) then 3 :: b :: escape (if b =? 0 then 1 else 0) l
      else b :: escape (if b =? 0 then S zeros else 0) l
  end.

(** The zeros before, as the removal sees them. *)
Definition zeros_seen (zeros : nat) (p2 p1 : option Z) : Prop :=
  match zeros with
  | O => p1 <> Some 0
  | S O => p1 = Some 0 /\ p2 <> Some 0
  | _ => p1 = Some 0 /\ p2 = Some 0
  end.

Lemma remove_escape l : forall zeros p2 p1, zeros_seen zeros p2 p1 -> remove_from p2 p1 (escape zeros l) = l.
Proof.
  induction l as [|b l IH]; intros zeros p2 p1 Hz; [done|]. cbn [escape].
  destruct (Nat.leb_spec 2 zeros) as [H2|H2]; [destruct (Z.leb_spec b 3) as [Hb|Hb]|]; cbn [andb remove_from].
  - destruct zeros as [|[|zeros]]; [lia..|]. destruct Hz as [-> ->]. rewrite (bool_decide_eq_true_2 (Some 0 = Some 0)), (bool_decide_eq_false_2 (Some 3 = Some 0)) by done.
    rewrite Z.eqb_refl, andb_false_r. cbn [andb]. f_equal. apply IH. destruct (Z.eqb_spec b 0) as [->|]; simpl; [done|congruence].
  - destruct zeros as [|[|zeros]]; [lia..|]. destruct Hz as [-> ->]. rewrite (proj2 (Z.eqb_neq b 3)) by lia. simpl. f_equal.
    rewrite (proj2 (Z.eqb_neq b 0)) by lia. apply IH. simpl. intros [= ->]. lia.
  - assert (Hk : (b =? 3) && bool_decide (p1 = Some 0) && bool_decide (p2 = Some 0) = false).
    { destruct zeros as [|[|]]; [|destruct Hz as [_ Hz]|lia].
      - rewrite (bool_decide_eq_false_2 (p1 = Some 0)) by done. by rewrite andb_false_r.
      - rewrite (bool_decide_eq_false_2 (p2 = Some 0)) by done. by rewrite andb_false_r. }
    rewrite Hk. f_equal. apply IH. destruct (Z.eqb_spec b 0) as [->|]; [|simpl; congruence].
    destruct zeros as [|[|]]; simpl in *; [by split| |lia]. by destruct Hz.
Qed.

(** The unit of a parameter set: a header of type 7, and the bits with a stop bit. *)
Definition h264_nal (header : Z) (s : Sps) : list Z := header :: escape 0 (to_bytes (sps_bits s ++ [true])).

Lemma parse_nal header s : Z.land header 0x1F = 7 -> sps_ok s ->
  parseH264SPS (h264_nal header s) = Some (inr (h264_info (chroma_of s) (sp_wMbs s) (sp_hMapUnits s) (sp_frame_only s) (crop_of s))).
Proof.
  intros Hh Hs. unfold parseH264SPS, h264_nal. set (l := escape 0 _). assert (Hstrip : stripStartCode (header :: l) = header :: l).
  { destruct header; [done| |]; [by destruct p|done]. }
  rewrite Hstrip, Hh. cbn [Z.eqb negb]. unfold l, removeEmulationPreventionBytes. rewrite remove_escape by done.
  destruct (to_bytes_bits (sps_bits s ++ [true])) as [k E]. rewrite <- app_assoc in E.
  rewrite (reads_sps _ s Hs 0%nat _ E). done.
Qed.

Lemma slice_framed pre u rest : slice (length pre + 2) (length pre + 2 + length u) (pre ++ framed u ++ rest) = Some u.
Proof.
  rewrite slice_in by (rewrite !length_app; simpl; lia). f_equal. rewrite drop_app_ge by lia.
  replace (length pre + 2 - length pre)%nat with 2%nat by lia. replace (length pre + 2 + length u - (length pre + 2))%nat with (length u) by lia.
  change (drop 2 (framed u ++ rest)) with (u ++ rest). by rewrite take_app_length.
Qed.

Lemma sps_search fuel pre others nal more :
  Forall unit_ok (others ++ [nal]) -> Forall (fun u => first_of (fun b => Z.land b 0x1F =? 7) u = false) others ->
  first_of (fun b => Z.land b 0x1F =? 7) nal = true -> (length others < fuel)%nat ->
  h264_search fuel (pre ++ flat_map framed (others ++ nal :: more)) (length pre) = h264_size nal.
Proof.
  revert fuel pre. induction others as [|u others IH]; intros fuel pre Hu Ho Hn Hf; (destruct fuel as [|fuel]; [simpl in Hf; lia|]);
    cbn [h264_search flat_map app].
  - apply Forall_cons_1 in Hu as [Hok _]. destruct (framed_at pre nal (flat_map framed more) Hok) as (E1 & E2 & E3 & El & En).
    rewrite (proj2 (Nat.leb_le _ _)) by lia. rewrite E1, E2. cbn [negb mbind option_bind]. rewrite En. rewrite (proj2 (Nat.ltb_ge _ _)) by lia.
    rewrite (proj2 (Nat.eqb_neq (length nal) 0)) by (destruct nal; [by destruct Hok|done]). rewrite slice_framed by done. cbn [mbind option_bind].
    destruct nal as [|b nal]; [done|]. simpl in Hn |- *. by rewrite Hn.
  - apply Forall_cons_1 in Hu as [Hok Hu]. apply Forall_cons_1 in Ho as [Hou Ho].
    destruct (framed_at pre u (flat_map framed (others ++ nal :: more)) Hok) as (E1 & E2 & E3 & El & En).
    rewrite (proj2 (Nat.leb_le _ _)) by lia. rewrite E1, E2. cbn [negb mbind option_bind]. rewrite En. rewrite (proj2 (Nat.ltb_ge _ _)) by lia.
    rewrite (proj2 (Nat.eqb_neq (length u) 0)) by (destruct u; [by destruct Hok|done]). rewrite slice_framed by done. cbn [mbind option_bind].
    specialize (IH fuel (pre ++ framed u) Hu Ho Hn ltac:(simpl in Hf; lia)). rewrite length_app, <- app_assoc in IH. simpl length in IH.
    destruct u as [|b u]; [by destruct Hok|]. cbn [lookup list_lookup mbind option_bind]. simpl in Hou. rewrite Hou.
    replace (length pre + 2 + length (b :: u))%nat with (length pre + S (S (S (length u))))%nat by (simpl; lia). exact IH.
Qed.

(** ** What a packet shows (processVideoPacket of buffer_base.go) *)

Definition InvalidLayerSpatial : Z := -1.
Record VideoLayer := mkLayer { ly_Spatial : Z; ly_Temporal : Z }.
Inductive codec := CodecVP8 | CodecVP9 | CodecH264 | CodecAV1 | CodecH265 | CodecOther.

(** Whether it begins a key frame, its layer, the VP8 descriptor, and the sizes. *)
Record Inspected := mkInspected { in_key : bool; in_layer : VideoLayer; in_vp8 : option VP8; in_sizes : list VideoSize }.

Definition known_size (s : VideoSize) : bool := (0 <? Width s) && (0 <? Height s).
Definition set_tid (tid : Z) (v : VP8) : VP8 :=
  mkVP8 (FirstByte v) (bitS v) (bitI v) (bitM v) (PictureID v) (bitL v) (TL0PICIDX v) (bitT v) tid (bitY v) (bitK v) (KEYIDX v)
    (HeaderSize v) (vp8_IsKeyFrame v).

Section inspect.
Context (vp9_unmarshal : list Z -> option VP9Packet).

(** [dd] is the layer and the sizes of the dependency descriptor, if there is one;
    [inl] is the error that drops the packet. *)
Definition inspect_vp8 (payload : list Z) (dd : option (VideoLayer * list VideoSize)) : option (result unit Inspected) :=
  match Unmarshal (Some payload) with
  | inl _ => Some (inl tt)
  | inr v =>
      match dd with
      | None =>
          size ← (if vp8_IsKeyFrame v then ExtractVP8VideoSize v payload else Some no_size);
          Some (inr (mkInspected (vp8_IsKeyFrame v) (mkLayer InvalidLayerSpatial (TID v)) (Some v) (if known_size size then [size] else [])))
      | Some (layer, sizes) =>
          Some (inr (mkInspected (vp8_IsKeyFrame v) (mkLayer InvalidLayerSpatial (ly_Temporal layer)) (Some (set_tid (ly_Temporal layer mod 256) v)) sizes))
      end
  end.

(** [for i := 0; i < len(Width); i++]: the height of each width must be there. *)
Fixpoint vp9_sizes (widths heights : list Z) : option (list VideoSize) :=
  match widths, heights with
  | [], _ => Some []
  | w :: widths, h :: heights => l ← vp9_sizes widths heights; Some (mkSize w h :: l)
  | _ :: _, [] => None
  end.

Definition inspect_vp9 (payload : list Z) (dd : option (VideoLayer * list VideoSize)) : option (result unit Inspected) :=
  match dd with
  | None =>
      match vp9_unmarshal payload with
      | None => Some (inl tt)
      | Some p =>
          key ← IsVP9KeyFrame vp9_unmarshal (Some p) payload;
          sizes ← (if key : bool then vp9_sizes (vp9_Width p) (vp9_Height p) else Some []);
          Some (inr (mkInspected key (mkLayer (vp9_SID p) (vp9_TID p)) None sizes))
      end
  | Some (layer, sizes) => key ← IsVP9KeyFrame vp9_unmarshal None payload; Some (inr (mkInspected key layer None sizes))
  end.

(** The layer and sizes before the switch. *)
Definition first_layer (dd : option (VideoLayer * list VideoSize)) : VideoLayer := default (mkLayer InvalidLayerSpatial 0) (fst <$> dd).
Definition first_sizes (dd : option (VideoLayer * list VideoSize)) : list VideoSize := default [] (snd <$> dd).

Definition inspect_h264 (payload : list Z) (dd : option (VideoLayer * list VideoSize)) : option (result unit Inspected) :=
  key ← IsH264KeyFrame payload;
  size ← (if key : bool then ExtractH264VideoSize payload else Some no_size);
  Some (inr (mkInspected key (mkLayer InvalidLayerSpatial (ly_Temporal (first_layer dd))) None
    (first_sizes dd ++ if known_size size then [size] else []))).

Definition inspect_h265 (payload : list Z) (dd : option (VideoLayer * list VideoSize)) : option (result unit Inspected) :=
  key ← IsH265KeyFrame payload;
  match dd with
  | Some (layer, sizes) => Some (inr (mkInspected key layer None sizes))
  | None =>
      if (length payload <? 2)%nat then Some (inl tt) else
      b1 ← payload !! 1%nat;
      size ← (if key : bool then ExtractH265VideoSize payload else Some no_size);
      Some (inr (mkInspected key (mkLayer InvalidLayerSpatial (Z.land b1 0x07 - 1)) None (if known_size size then [size] else [])))
  end.

Definition processVideoPacket (mime : codec) (payload : list Z) (dd : option (VideoLayer * list VideoSize)) : option (result unit Inspected) :=
  match mime with
  | CodecVP8 => inspect_vp8 payload dd
  | CodecVP9 => inspect_vp9 payload dd
  | CodecH264 => inspect_h264 payload dd
  | CodecAV1 => key ← IsAV1KeyFrame payload; Some (inr (mkInspected key (first_layer dd) None (first_sizes dd)))
  | CodecH265 => inspect_h265 payload dd
  | CodecOther => Some (inr (mkInspected false (first_layer dd) None (first_sizes dd)))
  end.

(** A descriptor of VP9 the code does not stand: one that begins a frame, with
    nothing after it, or a key frame with fewer heights than widths. *)
Definition vp9_unsafe (p : VP9Packet) : Prop :=
  vp9_B p = true /\ (vp9_Payload p = [] \/
    (IsVP9KeyFrame vp9_unmarshal (Some p) [] = Some true /\ (length (vp9_Height p) < length (vp9_Width p))%nat)).

Lemma vp9_sizes_none w h : vp9_sizes w h = None <-> (length h < length w)%nat.
Proof.
  revert h. induction w as [|x w IH]; intros h; simpl; [split; [done|lia]|]. destruct h as [|y h]; simpl; [split; [lia|done]|].
  specialize (IH h). destruct (vp9_sizes w h); simpl; [|split; [intros; apply IH in H; lia|done]].
  split; [done|]. intros H. assert (Some l = None) by (apply IH; lia). done.
Qed.

Lemma vp9_key_payload p l1 l2 : IsVP9KeyFrame vp9_unmarshal (Some p) l1 = IsVP9KeyFrame vp9_unmarshal (Some p) l2.
Proof. done. Qed.

Lemma inspect_vp9_none payload dd : inspect_vp9 payload dd = None <-> dd = None /\ exists p, vp9_unmarshal payload = Some p /\ vp9_unsafe p.
Proof.
  unfold inspect_vp9, vp9_unsafe. destruct dd as [[layer sizes]|].
  - split; [|by intros [? _]]. unfold IsVP9KeyFrame. destruct (vp9_unmarshal payload) as [p|]; [|done].
    destruct (vp9_Payload p) as [|b l]; simpl; [done|]. destruct (negb (vp9_B p)); simpl; [done|]. by destruct (negb _).
  - destruct (vp9_unmarshal payload) as [p|] eqn:Eu; [|split; [done|by intros (_ & ? & ? & _)]].
    rewrite (vp9_key_payload p payload []). destruct (IsVP9KeyFrame vp9_unmarshal (Some p) []) as [key|] eqn:Ek.
    + assert (Hb : vp9_B p = true -> vp9_Payload p <> []).
      { intros HB HP. unfold IsVP9KeyFrame in Ek. rewrite HB, HP in Ek. done. }
      assert (HB : key = true -> vp9_B p = true).
      { intros ->. unfold IsVP9KeyFrame in Ek. by destruct (vp9_B p). }
      cbn [mbind option_bind]. destruct key.
      * destruct (vp9_sizes (vp9_Width p) (vp9_Height p)) eqn:Es; cbn [mbind option_bind].
        -- split; [done|]. intros (_ & p' & [= <-] & Hp & [Hn|[_ Hl]]); [by destruct (Hb Hp)|]. apply vp9_sizes_none in Hl. congruence.
        -- split; [|done]. intros _. split; [done|]. exists p. split; [done|]. split; [by apply HB|]. right. split; [done|]. by apply vp9_sizes_none.
      * split; [done|]. intros (_ & p' & [= <-] & Hp & [Hn|[Hk _]]); [by destruct (Hb Hp)|congruence].
    + split; [|done]. intros _. split; [done|]. exists p. split; [done|]. unfold IsVP9KeyFrame in Ek. destruct (vp9_B p); simpl in Ek; [|done].
      split; [done|]. left. destruct (vp9_Payload p); [done|]. simpl in Ek. by destruct (negb _) in Ek.
Qed.

Lemma inspect_vp8_some payload dd : is_Some (inspect_vp8 payload dd).
Proof.
  unfold inspect_vp8. destruct (Unmarshal (Some payload)) as [|v] eqn:E; [done|]. destruct dd as [[layer sizes]|]; [done|].
  destruct (vp8_IsKeyFrame v); [|done]. destruct (ExtractVP8VideoSize_total v payload (Unmarshal_header payload v E)) as [s ->]. by eexists.
Qed.

Lemma inspect_h264_some payload dd : is_Some (inspect_h264 payload dd).
Proof.
  unfold inspect_h264. destruct (IsH264KeyFrame_total payload) as [key ->]. cbn [mbind option_bind]. destruct key; [|by eexists].
  destruct (ExtractH264VideoSize_total payload) as [s ->]. by eexists.
Qed.

Lemma inspect_h265_some payload dd : is_Some (inspect_h265 payload dd).
Proof.
  unfold inspect_h265. destruct (IsH265KeyFrame_total payload) as [key ->]. cbn [mbind option_bind]. destruct dd as [[layer sizes]|]; [by eexists|].
  destruct (Nat.ltb_spec (length payload) 2); [by eexists|]. destruct (lookup_in payload 1) as [b ->]; [lia|]. cbn [mbind option_bind].
  destruct key; [|by eexists]. destruct (ExtractH265VideoSize_total payload) as [s ->]. by eexists.
Qed.
End inspect.

(** ** The size a parameter set gives *)

Definition crop_unit_x (s : Sps) : Z := if chroma_of s =? 0 then 1 else getSubWidthC (chroma_of s).
Definition crop_unit_y (s : Sps) : Z := (if chroma_of s =? 0 then 1 else getSubHeightC (chroma_of s)) * (if sp_frame_only s then 1 else 2).
(** Macroblocks of 16 samples, fields of half the height, without the cropped edges. *)
Definition shown_width (s : Sps) : Z := 16 * (sp_wMbs s + 1) - crop_unit_x s * (cropLeft (crop_of s) + cropRight (crop_of s)).
Definition shown_height (s : Sps) : Z :=
  16 * (sp_hMapUnits s + 1) * (if sp_frame_only s then 1 else 2) - crop_unit_y s * (cropTop (crop_of s) + cropBottom (crop_of s)).

Lemma h264_nal_size header s : Z.land header 0x1F = 7 -> sps_ok s -> 0 <= shown_width s < 2 ^ 32 -> 0 <= shown_height s < 2 ^ 32 ->
  h264_size (h264_nal header s) = Some (mkSize (shown_width s) (shown_height s)).
Proof.
  intros Hh Hs Hw Hht. unfold h264_size. rewrite parse_nal by done. cbn [fmap option_fmap option_map size_of h264_info DisplayWidth DisplayHeight].
  pose proof (so_width s Hs) as Cw. pose proof (so_height s Hs) as Ch. unfold code_ok in *. unfold shown_width, shown_height, crop_unit_x, crop_unit_y in *.
  set (cw := (cropLeft (crop_of s) + cropRight (crop_of s))) in *. set (chh := (cropTop (crop_of s) + cropBottom (crop_of s))) in *. clearbody cw chh.
  rewrite (wrap_uint64_small ((sp_wMbs s + 1) * 16)) by (unfold two64; lia). rewrite (wrap_uint64_small ((sp_hMapUnits s + 1) * 16)) by (unfold two64; lia).
  do 2 f_equal.
  - set (u := if chroma_of s =? 0 then 1 else _) in *. clearbody u. rewrite wrap_uint64_small by (unfold two64; nia). rewrite Z.mod_small by nia. lia.
  - assert (E : (if chroma_of s =? 0 then if sp_frame_only s then 1 else 2 else getSubHeightC (chroma_of s) * (if sp_frame_only s then 1 else 2)) =
      (if chroma_of s =? 0 then 1 else getSubHeightC (chroma_of s)) * (if sp_frame_only s then 1 else 2)) by (by destruct (chroma_of s =? 0), (sp_frame_only s)).
    rewrite E. set (u := (if chroma_of s =? 0 then 1 else _) * _) in *. clearbody u.
    set (f := if sp_frame_only s then 1 else 2) in *. assert (Hf : f = 1 \/ f = 2) by (unfold f; destruct (sp_frame_only s); lia). clearbody f.
    rewrite (wrap_uint64_small (_ * f)) by (unfold two64; destruct Hf as [-> | ->]; lia).
    rewrite wrap_uint64_small by (unfold two64; nia). rewrite Z.mod_small by nia. lia.
Qed.

End Sps.
Export Sps.



(** 1280x720, and a picture of fields with cropped edges. *)
Definition sample_sps : Sps :=
  mkSps 66 0xC0 31 0 None 0 (Order1 true 3 4 [5; 6]) 1 false 79 44 true false true None.
Definition sample_high : Sps :=
  mkSps 100 0 40 0 (Some (mkHigh 1 false 0 0 false)) 4 Order2 2 false 119 33 false true true (Some (mkCrop 0 0 0 2)).

Lemma sample_sps_ok : sps_ok sample_sps.
Proof.
  split; simpl; unfold byte_ok, crop_ok, code_ok; simpl; try lia; try done.
  split; [lia|]. split; [lia|]. split; [|lia]. repeat constructor; unfold code_ok; lia.
Qed.
Lemma sample_high_ok : sps_ok sample_high.
Proof. split; simpl; unfold byte_ok, high_ok, crop_ok, code_ok; simpl; try lia; done. Qed.


(** A parameter set with scaling lists is read wrongly: only their flags are
    skipped. Here the first list is there, sixteen steps of which only the first is not
    zero. *)
Definition scaled_fields (flags : list bool) (list_bits : list bool) : list Z :=
  to_bytes (nbits 8 100 ++ nbits 8 0 ++ nbits 8 31 ++ ue_bits 0 ++ ue_bits 1 ++ ue_bits 0 ++ ue_bits 0 ++ [false; true] ++
    flags ++ list_bits ++ ue_bits 0 ++ ue_bits 2 ++ ue_bits 1 ++ [false] ++ ue_bits 79 ++ ue_bits 44 ++ [true; true; false; true]).
Example scaling_lists_ignored :
  ExtractH264VideoSize (0x67 :: escape 0 (scaled_fields (replicate 8 false) [])) = Some (mkSize 1280 720) /\
  ExtractH264VideoSize (0x67 :: escape 0 (scaled_fields (true :: replicate 7 false) (ue_bits 3 ++ replicate 15 true))) = Some (mkSize 16 16).
Proof. split; vm_compute; reflexivity. Qed.

(** An aggregation packet with times has them before every unit; the search for
    the size skips them once. *)
Example mtap_size_unread :
  IsH264KeyFrame (0x7a :: [0; 0] ++ framed ([0; 0; 0] ++ h264_nal 0x67 sample_sps)) = Some true /\
  ExtractH264VideoSize (0x7a :: [0; 0] ++ framed ([0; 0; 0] ++ h264_nal 0x67 sample_sps)) = Some no_size.
Proof. vm_compute. split; reflexivity. Qed.
