(* ===== verification/MediaAuth.v ===== *)
(** * Who may do what at the media server

    Model of pkg/service of the media server, as far as a request is admitted:
    the token middleware and the permission tests (auth.go), the admission of a
    participant (utils.go, the validation of rtcservice.go) and the room API
    (roomservice.go). Composed with the tokens the chat server gives out
    ([Voice.GenerateToken]). The SDK's tokens and grants, the decoders, and what
    answers the room API (router, store, room and participant clients) are
    parameters. *)

From Stdlib Require Import Ascii.
From S2P Require Import Prelude GoText Net Voice.
#[local] Open Scope string_scope.
#[local] Open Scope Z_scope.

Module MediaAuth.

(** ** The SDK's grants *)

Record VideoGrant := mkVideoGrant {
  vg_RoomCreate : bool; vg_RoomList : bool; vg_RoomRecord : bool; vg_RoomAdmin : bool; vg_RoomJoin : bool;
  vg_Room : string; vg_DestinationRoom : string; vg_IngressAdmin : bool;
  vg_CanPublish : option bool; vg_CanSubscribe : option bool; vg_CanPublishData : option bool;
  vg_CanUpdateOwnMetadata : option bool }.
Record SIPGrant := mkSIPGrant { sg_Admin : bool; sg_Call : bool }.

(** Messages that are only passed on stay encoded. *)
Definition message : Type := list Z.
Record RoomConfiguration := mkRoomConfig {
  rc_Agents : list message; rc_Egress : option message; rc_EmptyTimeout : Z; rc_DepartureTimeout : Z; rc_MaxParticipants : Z;
  rc_MinPlayoutDelay : Z; rc_MaxPlayoutDelay : Z; rc_SyncStreams : bool; rc_Metadata : string }.

Record ClaimGrants := mkClaims {
  cg_Identity : string; cg_Name : string; cg_Video : option VideoGrant; cg_SIP : option SIPGrant;
  cg_RoomPreset : string; cg_RoomConfig : option RoomConfiguration; cg_Metadata : string; cg_Attributes : gmap string string }.
Definition set_identity (i : string) (c : ClaimGrants) : ClaimGrants :=
  mkClaims i (cg_Name c) (cg_Video c) (cg_SIP c) (cg_RoomPreset c) (cg_RoomConfig c) (cg_Metadata c) (cg_Attributes c).
Definition set_video (v : VideoGrant) (c : ClaimGrants) : ClaimGrants :=
  mkClaims (cg_Identity c) (cg_Name c) (Some v) (cg_SIP c) (cg_RoomPreset c) (cg_RoomConfig c) (cg_Metadata c) (cg_Attributes c).
Definition set_metadata (m : string) (c : ClaimGrants) : ClaimGrants :=
  mkClaims (cg_Identity c) (cg_Name c) (cg_Video c) (cg_SIP c) (cg_RoomPreset c) (cg_RoomConfig c) m (cg_Attributes c).
Definition set_attributes (a : gmap string string) (c : ClaimGrants) : ClaimGrants :=
  mkClaims (cg_Identity c) (cg_Name c) (cg_Video c) (cg_SIP c) (cg_RoomPreset c) (cg_RoomConfig c) (cg_Metadata c) a.

(** What the code uses of the SDK, and what the SDK documents of it. *)
Class GrantSdk := {
  GetCanPublish : VideoGrant -> bool;
  GetCanUpdateOwnMetadata : VideoGrant -> bool;
  SetCanSubscribe : bool -> VideoGrant -> VideoGrant }.
Class GrantLaws `{GrantSdk} := {
  can_publish_set : forall v b, vg_CanPublish v = Some b -> GetCanPublish v = b;
  metadata_unset : forall v, vg_CanUpdateOwnMetadata v = None -> GetCanUpdateOwnMetadata v = false;
  set_can_subscribe : forall b v, SetCanSubscribe b v =
    mkVideoGrant (vg_RoomCreate v) (vg_RoomList v) (vg_RoomRecord v) (vg_RoomAdmin v) (vg_RoomJoin v) (vg_Room v)
      (vg_DestinationRoom v) (vg_IngressAdmin v) (vg_CanPublish v) (Some b) (vg_CanPublishData v) (vg_CanUpdateOwnMetadata v) }.

(** Tokens, and the secrets of the configured keys. *)
Class TokenSdk (Token : Type) := {
  ParseAPIToken : string -> option Token;
  APIKey : Token -> string;
  Verify : Token -> string -> result string ClaimGrants;
  GetSecret : string -> string }.

Inductive error :=
  | ErrPermissionDenied | ErrIdentityEmpty | ErrParticipantIdentityExceedsLimits | ErrNoRoomName | ErrRoomNameExceedsLimits
  | ErrRoomNotFound | ErrLimitExceeded | ErrEgressNotConnected | ErrParticipantNotFound | ErrDestinationIdentityRequired
  | ErrUnimplemented | Unauthenticated (e : error) | InvalidArgument (what : string) | BadJoinRequest (what : string) | Failed (what : string).

(** ** auth.go *)

Definition bearerPrefix : string := "Bearer ".

Record Request := mkRequest {
  rq_path : string; rq_authorization : string; rq_FormValue : string -> string; rq_header : string -> string;
  rq_RemoteAddr : string; rq_UserAgent : string }.

Record grantsValue := mkGrantsValue { gv_claims : ClaimGrants; gv_apiKey : string }.
(** The value the context carries, if any. *)
Definition Context : Type := option grantsValue.

Inductive admitted := Refused (status : Z) (body : string) | Next (ctx : Context).

Section auth.
Context {Token} `{TokenSdk Token}.

(** The token of a request; [None] when the header is of another kind. *)
Definition request_token (r : Request) : option string :=
  if negb (String.eqb (rq_authorization r) "") then
    if HasPrefix (rq_authorization r) bearerPrefix then Some (skip (String.length bearerPrefix) (rq_authorization r)) else None
  else Some (rq_FormValue r "access_token").

(** Whether any origin is allowed, and what becomes of the request. *)
Definition ServeHTTP (r : Request) (ctx : Context) : bool * admitted :=
  (String.eqb (rq_path r) "/rtc/validate" || String.eqb (rq_path r) "/rtc/v1/validate",
   match request_token r with
   | None => Refused 401 ("invalid authorization header. Must start with " +:+ bearerPrefix)
   | Some authToken =>
       if String.eqb authToken "" then Next ctx else
       match ParseAPIToken authToken with
       | None => Refused 401 "invalid authorization token"
       | Some v =>
           let secret := GetSecret (APIKey v) in
           if String.eqb secret "" then Refused 401 ("invalid API key: " +:+ APIKey v) else
           match Verify v secret with
           | inl err => Refused 401 ("invalid token: " +:+ authToken +:+ ", error: " +:+ err)
           | inr grants => Next (Some (mkGrantsValue grants (APIKey v)))
           end
       end
   end).

End auth.

Definition GetGrants (ctx : Context) : option ClaimGrants := gv_claims <$> ctx.
Definition GetAPIKey (ctx : Context) : string := default "" (gv_apiKey <$> ctx).
Definition WithGrants (grants : ClaimGrants) (apiKey : string) (ctx : Context) : Context := Some (mkGrantsValue grants apiKey).
Definition WithAPIKey (grants : ClaimGrants) (apiKey : string) (ctx : Context) : Context := Some (mkGrantsValue grants apiKey).

(** The video grant of the request. *)
Definition video_grant (ctx : Context) : option VideoGrant := GetGrants ctx ≫= cg_Video.
Definition sip_grant (ctx : Context) : option SIPGrant := GetGrants ctx ≫= cg_SIP.

Definition permit (b : bool) : result error unit := if b then inr tt else inl ErrPermissionDenied.
Definition granted (f : VideoGrant -> bool) (ctx : Context) : result error unit := permit (from_option f false (video_grant ctx)).

Definition EnsureJoinPermission (ctx : Context) : result error string :=
  match video_grant ctx with
  | None => inl ErrPermissionDenied
  | Some v => if vg_RoomJoin v then inr (vg_Room v) else inl ErrPermissionDenied
  end.
Definition EnsureAdminPermission (room : string) : Context -> result error unit := granted (fun v => vg_RoomAdmin v && String.eqb room (vg_Room v)).
Definition EnsureCreatePermission : Context -> result error unit := granted vg_RoomCreate.
Definition EnsureListPermission : Context -> result error unit := granted vg_RoomList.
Definition EnsureRecordPermission : Context -> result error unit := granted vg_RoomRecord.
Definition EnsureIngressAdminPermission : Context -> result error unit := granted vg_IngressAdmin.
Definition EnsureSIPAdminPermission (ctx : Context) : result error unit := permit (from_option sg_Admin false (sip_grant ctx)).
Definition EnsureSIPCallPermission (ctx : Context) : result error unit := permit (from_option sg_Call false (sip_grant ctx)).
Definition EnsureDestRoomPermission (source destination : string) : Context -> result error unit :=
  granted (fun v => vg_RoomAdmin v && String.eqb source (vg_Room v) && String.eqb destination (vg_DestinationRoom v)).

(** ** Limits *)

Record LimitConfig := mkLimits {
  MaxRoomNameLength : Z; MaxParticipantIdentityLength : Z; MaxParticipantNameLength : Z; MaxMetadataSize : Z; MaxAttributesSize : Z }.
Definition len (s : string) : Z := Z.of_nat (String.length s).
Definition CheckRoomNameLength (l : LimitConfig) (name : string) : bool := (MaxRoomNameLength l =? 0) || (len name <=? MaxRoomNameLength l).
Definition CheckParticipantIdentityLength (l : LimitConfig) (identity : string) : bool :=
  (MaxParticipantIdentityLength l =? 0) || (len identity <=? MaxParticipantIdentityLength l).
Definition CheckParticipantNameLength (l : LimitConfig) (name : string) : bool :=
  (MaxParticipantNameLength l =? 0) || (len name <=? MaxParticipantNameLength l).
Definition CheckMetadataSize (l : LimitConfig) (metadata : string) : bool :=
  (MaxMetadataSize l =? 0) || (len metadata mod 2 ^ 32 <=? MaxMetadataSize l).
Definition CheckAttributesSize (l : LimitConfig) (attributes : gmap string string) : bool :=
  (MaxAttributesSize l =? 0) || (map_fold (fun k v n => n + (len k + len v)) 0 attributes mod 2 ^ 32 <=? MaxAttributesSize l).

(** ** roomservice.go *)

(** What the handlers ask of the other parts of the server. *)
Inductive action :=
  | SelectRoomNode (room node : string) | RouterCreateRoom (room : string) | StoreListRooms (names : list string)
  | StoreRoomExists (room : string) | ClientDeleteRoom (room : string) | StoreDeleteRoom (room : string)
  | ClientListParticipants (room : string) | StoreListParticipants (room : string)
  | ClientGetParticipant (room identity : string) | StoreLoadParticipant (room identity : string)
  | StoreHasParticipant (room identity : string) | ClientRemoveParticipant (room identity : string)
  | ClientMutePublishedTrack (room identity : string) | ClientUpdateParticipant (room identity : string)
  | ClientUpdateSubscriptions (room identity : string) | ClientSendData (room : string) | ClientUpdateRoomMetadata (room : string)
  | ClientForwardParticipant (room identity destination : string) | ClientMoveParticipant (room identity destination : string)
  | ClientPerformRpc (room identity : string).

(** What a handler has asked for, and its result. *)
Definition rpc (A : Type) : Type := list action * result error A.
Definition rpc_ret {A} (r : result error A) : rpc A := ([], r).
Definition rpc_bind {A B} (m : rpc A) (f : A -> rpc B) : rpc B :=
  match m with
  | (l, inl e) => (l, inl e)
  | (l, inr a) => let '(l', r) := f a in ((l ++ l')%list, r)
  end.
Notation "'let!' x := m 'in' k" := (rpc_bind m (fun x => k)) (at level 200, x name, k at level 200).

Record RoomService := mkRoomService {
  limitConf : LimitConfig; has_egressLauncher : bool; EnablePsrpcForGetListParticpants : bool; is_OSSServiceStore : bool;
  answer : action -> result error message; answer_bool : action -> result error bool }.

Section room_service.
Context (s : RoomService).

Definition ask (a : action) : rpc message := ([a], answer s a).
Definition ask_bool (a : action) : rpc bool := ([a], answer_bool s a).
Definition twirpAuthError {A} (r : result error A) : rpc A :=
  match r with inl e => rpc_ret (inl (Unauthenticated e)) | inr a => rpc_ret (inr a) end.
Definition require (b : bool) (e : error) : rpc unit := rpc_ret (if b then inr tt else inl e).

Definition CreateRoom (ctx : Context) (name node : string) (egress : bool) : rpc message :=
  let! _ := twirpAuthError (EnsureCreatePermission ctx) in
  let! _ := require (negb (egress && negb (has_egressLauncher s))) ErrEgressNotConnected in
  let! _ := require (CheckRoomNameLength (limitConf s) name) ErrRoomNameExceedsLimits in
  let! _ := ask (SelectRoomNode name node) in
  ask (RouterCreateRoom name).

Definition ListRooms (ctx : Context) (names : list string) : rpc message :=
  let! _ := twirpAuthError (EnsureListPermission ctx) in
  ask (StoreListRooms names).

Definition DeleteRoom (ctx : Context) (room : string) : rpc message :=
  let! _ := twirpAuthError (EnsureCreatePermission ctx) in
  let! exists_ := ask_bool (StoreRoomExists room) in
  let! _ := require exists_ ErrRoomNotFound in
  let! _ := ask (RouterCreateRoom room) in
  let! res := ask (ClientDeleteRoom room) in
  if is_OSSServiceStore s then ask (StoreDeleteRoom room) else rpc_ret (inr res).

Definition ListParticipants (ctx : Context) (room : string) : rpc message :=
  let! _ := twirpAuthError (EnsureAdminPermission room ctx) in
  if EnablePsrpcForGetListParticpants s then ask (ClientListParticipants room)
  else if is_OSSServiceStore s then ask (StoreListParticipants room)
  else rpc_ret (inl ErrUnimplemented).

Definition GetParticipant (ctx : Context) (room identity : string) : rpc message :=
  let! _ := twirpAuthError (EnsureAdminPermission room ctx) in
  if EnablePsrpcForGetListParticpants s then ask (ClientGetParticipant room identity)
  else if is_OSSServiceStore s then ask (StoreLoadParticipant room identity)
  else rpc_ret (inl ErrUnimplemented).

(** The test that a store of its own makes possible. *)
Definition require_participant (room identity : string) : rpc unit :=
  if is_OSSServiceStore s then
    let! found := ask_bool (StoreHasParticipant room identity) in
    require found ErrParticipantNotFound
  else rpc_ret (inr tt).

Definition RemoveParticipant (ctx : Context) (room identity : string) : rpc message :=
  let! _ := twirpAuthError (EnsureAdminPermission room ctx) in
  let! _ := require_participant room identity in
  ask (ClientRemoveParticipant room identity).

Definition MutePublishedTrack (ctx : Context) (room identity : string) : rpc message :=
  let! _ := twirpAuthError (EnsureAdminPermission room ctx) in
  ask (ClientMutePublishedTrack room identity).

Definition UpdateParticipant (ctx : Context) (room identity name metadata : string) (attributes : gmap string string) : rpc message :=
  let! _ := require (CheckParticipantNameLength (limitConf s) name) (InvalidArgument "name") in
  let! _ := require (CheckMetadataSize (limitConf s) metadata) (InvalidArgument "metadata") in
  let! _ := require (CheckAttributesSize (limitConf s) attributes) (InvalidArgument "attributes") in
  let! _ := twirpAuthError (EnsureAdminPermission room ctx) in
  let! _ := require_participant room identity in
  ask (ClientUpdateParticipant room identity).

Definition UpdateSubscriptions (ctx : Context) (room identity : string) : rpc message :=
  let! _ := twirpAuthError (EnsureAdminPermission room ctx) in
  ask (ClientUpdateSubscriptions room identity).

Definition SendData (ctx : Context) (room : string) (nonce : list Z) : rpc message :=
  let! _ := twirpAuthError (EnsureAdminPermission room ctx) in
  let! _ := require (bool_decide (length nonce = 0%nat) || bool_decide (length nonce = 16%nat)) (InvalidArgument "nonce") in
  ask (ClientSendData room).

Definition UpdateRoomMetadata (ctx : Context) (room metadata : string) : rpc message :=
  let max := MaxMetadataSize (limitConf s) in
  let! _ := require (negb ((0 <? max) && (max <? len metadata))) (InvalidArgument "metadata") in
  let! _ := twirpAuthError (EnsureAdminPermission room ctx) in
  let! exists_ := ask_bool (StoreRoomExists room) in
  let! _ := require exists_ ErrRoomNotFound in
  ask (ClientUpdateRoomMetadata room).

Definition ForwardParticipant (ctx : Context) (room identity destination : string) : rpc message :=
  let! _ := twirpAuthError (EnsureDestRoomPermission room destination ctx) in
  let! _ := require (negb (String.eqb room destination)) (InvalidArgument "destination") in
  ask (ClientForwardParticipant room identity destination).

Definition MoveParticipant (ctx : Context) (room identity destination : string) : rpc message :=
  let! _ := twirpAuthError (EnsureDestRoomPermission room destination ctx) in
  let! _ := require (negb (String.eqb room destination)) (InvalidArgument "destination") in
  ask (ClientMoveParticipant room identity destination).

Definition PerformRpc (ctx : Context) (room identity : string) : rpc message :=
  let! _ := twirpAuthError (EnsureAdminPermission room ctx) in
  let! _ := require (negb (String.eqb identity "")) ErrDestinationIdentityRequired in
  ask (ClientPerformRpc room identity).

End room_service.

(** ** The client of a participant (utils.go) *)

Definition boolValue (s : string) : bool := String.eqb s "1" || String.eqb s "true".

Definition GetClientIP (r : Request) : string :=
  if negb (String.eqb (rq_header r "CF-Connecting-IP") "") then rq_header r "CF-Connecting-IP"
  else if negb (String.eqb (rq_header r "X-Forwarded-For") "") then rq_header r "X-Forwarded-For"
  else if negb (String.eqb (rq_header r "X-Real-IP") "") then rq_header r "X-Real-IP"
  else default "" (Net.SplitHost (rq_RemoteAddr r)).

Inductive ClientSdk :=
  | UNKNOWN | JS | SWIFT | ANDROID | FLUTTER | GO | UNITY | REACT_NATIVE | RUST | PYTHON | CPP | UNITY_WEB | NODE | ESP32.

Record ClientInfo := mkClientInfo {
  ci_Sdk : ClientSdk; ci_Protocol : Z; ci_ClientProtocol : Z; ci_Version : string; ci_Os : string; ci_OsVersion : string;
  ci_Browser : string; ci_BrowserVersion : string; ci_DeviceModel : string; ci_Network : string; ci_Address : string }.

(** What the parser of the User-Agent header tells. *)
Record Agent := mkAgent {
  ua_Family : string; ua_Version : string; ua_Os : string; ua_OsVersion : string; ua_Device : string; ua_Model : string }.

Definition sdk_named (s : string) : ClientSdk :=
  if String.eqb s "js" then JS else if String.eqb s "ios" || String.eqb s "swift" then SWIFT
  else if String.eqb s "android" then ANDROID else if String.eqb s "flutter" then FLUTTER else if String.eqb s "go" then GO
  else if String.eqb s "unity" then UNITY else if String.eqb s "reactnative" then REACT_NATIVE else if String.eqb s "rust" then RUST
  else if String.eqb s "python" then PYTHON else if String.eqb s "cpp" then CPP else if String.eqb s "unityweb" then UNITY_WEB
  else if String.eqb s "node" then NODE else if String.eqb s "esp32" then ESP32 else UNKNOWN.

(** [strconv.ParseInt(s, 10, 32)], zero for an error. *)
Definition int32_value (s : string) : Z :=
  match ParseInt64 s with Some z => if in_range z (- 2 ^ 31) (2 ^ 31 - 1) then z else 0 | None => 0 end.

Definition in_browser (sdk : ClientSdk) : bool :=
  match sdk with JS | REACT_NATIVE | FLUTTER | UNITY | UNKNOWN => true | _ => false end.

Definition device_model (a : Agent) : string :=
  if negb (String.eqb (ua_Device a) "") && negb (String.eqb (ua_Model a) "") && negb (String.eqb (ua_Device a) (ua_Model a))
  then ua_Device a +:+ " " +:+ ua_Model a else ua_Device a.

Section client.
Context (parse_agent : string -> Agent).

Definition AugmentClientInfo (ci : ClientInfo) (req : Request) : ClientInfo :=
  let a := parse_agent (rq_UserAgent req) in
  let ci := mkClientInfo (ci_Sdk ci) (ci_Protocol ci) (ci_ClientProtocol ci) (ci_Version ci) (ci_Os ci) (ci_OsVersion ci)
    (ci_Browser ci) (ci_BrowserVersion ci) (ci_DeviceModel ci) (ci_Network ci) (GetClientIP req) in
  if in_browser (ci_Sdk ci) then
    let no_browser := String.eqb (ci_Browser ci) "" in let no_os := String.eqb (ci_Os ci) "" in
    mkClientInfo (ci_Sdk ci) (ci_Protocol ci) (ci_ClientProtocol ci) (ci_Version ci)
      (if no_os then ua_Os a else ci_Os ci) (if no_os then ua_OsVersion a else ci_OsVersion ci)
      (if no_browser then ua_Family a else ci_Browser ci) (if no_browser then ua_Version a else ci_BrowserVersion ci)
      (if String.eqb (ci_DeviceModel ci) "" then device_model a else ci_DeviceModel ci) (ci_Network ci) (ci_Address ci)
  else ci.

Definition ParseClientInfo (r : Request) : ClientInfo :=
  let v := rq_FormValue r in
  AugmentClientInfo (mkClientInfo (sdk_named (v "sdk")) (int32_value (v "protocol")) (int32_value (v "client_protocol"))
    (v "version") (v "os") (v "os_version") (v "browser") (v "browser_version") (v "device_model") (v "network") "") r.

End client.

(** ** Admission of a participant (utils.go) *)

Record CreateRoomRequest := mkCreateRoom { cr_Name : string; cr_RoomPreset : string; cr_config : option RoomConfiguration }.
Definition SetRoomConfiguration (conf : option RoomConfiguration) (r : CreateRoomRequest) : CreateRoomRequest :=
  match conf with None => r | Some c => mkCreateRoom (cr_Name r) (cr_RoomPreset r) (Some c) end.

Record ValidateConnectRequestParams := mkParams {
  pa_roomName : string; pa_publish : string; pa_metadata : string; pa_attributes : gmap string string }.
Record ValidateConnectRequestResult := mkConnect {
  co_roomName : string; co_grants : ClaimGrants; co_region : string; co_createRoomRequest : CreateRoomRequest }.

(** The room allocator and the router: whether rooms are created on demand and
    what loading one answers; the region, and whether the node of a room has
    reached its limits, for a router that knows ([None] for one that does not). *)
Record Placement := mkPlacement {
  AutoCreate : bool; LoadRoom : string -> result error unit; GetRegion : option string; LimitsReached : string -> option bool }.

Definition ValidateCreateRoom (pl : Placement) (roomName : string) : result error unit :=
  if negb (AutoCreate pl) then LoadRoom pl roomName else inr tt.

Section admission.
Context `{GrantSdk} (limits : LimitConfig) (pl : Placement).

(** A connection that only publishes has an identity of its own. *)
Definition publish_claims (publish : string) (v : VideoGrant) (c : ClaimGrants) : ClaimGrants :=
  set_identity (cg_Identity c +:+ "#" +:+ publish) (set_video (SetCanSubscribe false v) c).

(** Attributes with no value are left out. *)
Definition add_attributes (attributes : gmap string string) (c : ClaimGrants) : ClaimGrants :=
  set_attributes (base.filter (fun kv : string * string => kv.2 <> "") attributes ∪ cg_Attributes c) c.

Definition own_metadata (v : VideoGrant) (params : ValidateConnectRequestParams) (c : ClaimGrants) : result (Z * error) ClaimGrants :=
  if negb (String.eqb (pa_metadata params) "") && negb (GetCanUpdateOwnMetadata v) then inl (401, ErrPermissionDenied) else
  let c := if String.eqb (pa_metadata params) "" then c else set_metadata (pa_metadata params) c in
  if bool_decide (pa_attributes params <> ∅) && negb (GetCanUpdateOwnMetadata v) then inl (401, ErrPermissionDenied) else
  inr (if bool_decide (pa_attributes params <> ∅) then add_attributes (pa_attributes params) c else c).

Definition node_full (roomName : string) : bool :=
  match GetRegion pl with Some _ => default false (LimitsReached pl roomName) | None => false end.

Definition ValidateConnectRequest (ctx : Context) (params : ValidateConnectRequestParams) : result (Z * error) ValidateConnectRequestResult :=
  match GetGrants ctx with
  | None => inl (401, ErrPermissionDenied)
  | Some claims =>
  match cg_Video claims with
  | None => inl (401, ErrPermissionDenied)
  | Some v =>
  match EnsureJoinPermission ctx with
  | inl e => inl (401, e)
  | inr roomNameInToken =>
  if String.eqb (cg_Identity claims) "" then inl (400, ErrIdentityEmpty) else
  if negb (CheckParticipantIdentityLength limits (cg_Identity claims)) then inl (400, ErrParticipantIdentityExceedsLimits) else
  let roomName := if String.eqb roomNameInToken "" then pa_roomName params else roomNameInToken in
  if String.eqb roomName "" then inl (400, ErrNoRoomName) else
  if negb (CheckRoomNameLength limits roomName) then inl (400, ErrRoomNameExceedsLimits) else
  let publish := negb (String.eqb (pa_publish params) "") in
  if publish && negb (GetCanPublish v) then inl (401, ErrPermissionDenied) else
  let c := if publish then publish_claims (pa_publish params) v claims else claims in
  let v := if publish then SetCanSubscribe false v else v in
  match ValidateCreateRoom pl roomName with
  | inl ErrRoomNotFound => inl (404, ErrRoomNotFound)
  | inl e => inl (500, e)
  | inr _ =>
  if node_full roomName then inl (503, ErrLimitExceeded) else
  match own_metadata v params c with
  | inl e => inl e
  | inr c' =>
      inr (mkConnect roomName c' (default "" (GetRegion pl))
        (SetRoomConfiguration (cg_RoomConfig c) (mkCreateRoom roomName (cg_RoomPreset c) None)))
  end end end end end.

End admission.

(** ** The validation of a connection (rtcservice.go) *)

Record ConnectionSettings := mkSettings {
  se_AutoSubscribe : bool; se_AutoSubscribeDataTrack : bool; se_AdaptiveStream : bool; se_DisableIceLite : bool; se_SubscriberAllowPause : bool }.
(** The getters of a missing message give zero values. *)
Definition no_settings : ConnectionSettings := mkSettings false false false false false.

Record JoinRequest := mkJoinRequest {
  jr_ClientInfo : option ClientInfo; jr_ConnectionSettings : option ConnectionSettings; jr_Metadata : string;
  jr_ParticipantAttributes : gmap string string; jr_AddTrackRequests : list message; jr_PublisherOffer : option message;
  jr_Reconnect : bool; jr_ReconnectReason : Z; jr_ParticipantSid : string }.
Definition no_join_request : JoinRequest := mkJoinRequest None None "" ∅ [] None false 0 "".

Inductive compression := NONE | GZIP | OtherCompression.
Record WrappedJoinRequest := mkWrapped { wr_Compression : compression; wr_JoinRequest : message }.

(** The decoders: base64, JSON of a map of texts, the messages, and gzip, which
    gives the bytes of the stream and whether it breaks off. *)
Record Decoders := mkDecoders {
  base64 : string -> option (list Z); json_attributes : list Z -> option (gmap string string);
  wrapped_join_request : list Z -> option WrappedJoinRequest; join_request : list Z -> option JoinRequest;
  gzip : list Z -> option (list Z * bool); user_agent : string -> Agent }.

Definition DefaultMaxHeaderBytes : nat := Z.to_nat (2 ^ 20).

Inductive gzip_error := ErrGzipReadFailed | ErrGzipTooLarge.

Record ParticipantInit := mkInit {
  pi_Identity : string; pi_Name : string; pi_Reconnect : bool; pi_ReconnectReason : Z; pi_AutoSubscribe : bool;
  pi_AutoSubscribeDataTrack : option bool; pi_Client : ClientInfo; pi_Grants : ClaimGrants; pi_Region : string; pi_AdaptiveStream : bool;
  pi_ID : string; pi_SubscriberAllowPause : option bool; pi_DisableICELite : bool; pi_CreateRoom : CreateRoomRequest;
  pi_AddTrackRequests : list message; pi_PublisherOffer : option message; pi_UseSinglePeerConnection : bool }.

(** [int32] of [strconv.Atoi] whose error is dropped: beyond the range of an int
    the nearest int is given with the error. *)
Definition digits_value (s : string) : option Z :=
  match s with
  | String c rest => if Ascii.eqb c "-"%char then Z.opp <$> parse_nat rest else if Ascii.eqb c "+"%char then parse_nat rest else parse_nat s
  | EmptyString => None
  end.
Definition reason_value (s : string) : Z :=
  match digits_value s with
  | Some z => (Z.max (- two63) (Z.min (two63 - 1) z) + 2 ^ 31) mod 2 ^ 32 - 2 ^ 31
  | None => 0
  end.

Section validation.
Context `{GrantSdk} (d : Decoders) (limits : LimitConfig) (pl : Placement).

Definition DecompressGzip (compressed : list Z) : result gzip_error (list Z) :=
  match gzip d compressed with
  | None => inl ErrGzipReadFailed
  | Some (stream, broken) =>
      let out := take (DefaultMaxHeaderBytes + 1) stream in
      if broken && (length stream <? DefaultMaxHeaderBytes + 1)%nat then inl ErrGzipReadFailed
      else if (DefaultMaxHeaderBytes <? length out)%nat then inl ErrGzipTooLarge else inr out
  end.

Definition decodeAttributes (str : string) : option (gmap string string) := data ← base64 d str; json_attributes d data.

Definition bad {A} (what : string) : result (Z * error) A := inl (400, BadJoinRequest what).

(** The request of version 0, in the form values. *)
Definition form_params (needsJoinRequest strict : bool) (r : Request) : result (Z * error) ValidateConnectRequestParams :=
  if needsJoinRequest then bad "join_request is required" else
  let attributesStrParam := rq_FormValue r "attributes" in
  if String.eqb attributesStrParam "" then inr (mkParams "" (rq_FormValue r "publish") "" ∅) else
  match decodeAttributes attributesStrParam with
  | Some attrs => inr (mkParams "" (rq_FormValue r "publish") "" attrs)
  | None => if strict then bad "cannot decode attributes" else inr (mkParams "" (rq_FormValue r "publish") "" ∅)
  end.

Definition decode_join (protoBytes : list Z) : result (Z * error) JoinRequest :=
  match join_request d protoBytes with Some j => inr j | None => bad "cannot unmarshal join request" end.

(** The join request of version 1. *)
Definition wrapped_join (wrappedJoinRequestBase64 : string) : result (Z * error) JoinRequest :=
  match base64 d wrappedJoinRequestBase64 with
  | None => bad "cannot base64 decode wrapped join request"
  | Some wrappedProtoBytes =>
  match wrapped_join_request d wrappedProtoBytes with
  | None => bad "cannot unmarshal wrapped join request"
  | Some w =>
      match wr_Compression w with
      | NONE => if (DefaultMaxHeaderBytes <? length (wr_JoinRequest w))%nat then bad "join request too large" else decode_join (wr_JoinRequest w)
      | GZIP =>
          match DecompressGzip (wr_JoinRequest w) with
          | inl ErrGzipTooLarge => bad "join request too large"
          | inl ErrGzipReadFailed => bad "cannot read decompressed join request"
          | inr protoBytes => decode_join protoBytes
          end
      | OtherCompression => inr no_join_request
      end
  end end.

Definition form_init (r : Request) (res : ValidateConnectRequestResult) : ParticipantInit :=
  let v := rq_FormValue r in
  let opt (s : string) : option bool := if String.eqb s "" then None else Some (boolValue s) in
  mkInit (cg_Identity (co_grants res)) (cg_Name (co_grants res)) (boolValue (v "reconnect")) (reason_value (v "reconnect_reason"))
    (default true (opt (v "auto_subscribe"))) (opt (v "auto_subscribe_data_track")) (ParseClientInfo (user_agent d) r) (co_grants res) (co_region res)
    (boolValue (v "adaptive_stream")) (if boolValue (v "reconnect") then v "sid" else "") (opt (v "subscriber_allow_pause"))
    (boolValue (v "disable_ice_lite")) (co_createRoomRequest res) [] None false.

(** [None] is the panic on a join request that does not describe its client. *)
Definition join_init (r : Request) (j : JoinRequest) (res : ValidateConnectRequestResult) : option ParticipantInit :=
  ci ← jr_ClientInfo j;
  let se := default no_settings (jr_ConnectionSettings j) in
  Some (mkInit (cg_Identity (co_grants res)) (cg_Name (co_grants res)) (jr_Reconnect j) (jr_ReconnectReason j)
    (se_AutoSubscribe se) (Some (se_AutoSubscribeDataTrack se)) (AugmentClientInfo (user_agent d) ci r) (co_grants res) (co_region res)
    (se_AdaptiveStream se) (jr_ParticipantSid j) (Some (se_SubscriberAllowPause se))
    (se_DisableIceLite se) (co_createRoomRequest res) (jr_AddTrackRequests j) (jr_PublisherOffer j) true).

Definition validateInternal (ctx : Context) (r : Request) (needsJoinRequest strict : bool) : option (result (Z * error) (string * ParticipantInit)) :=
  match video_grant ctx with
  | None => Some (inl (401, ErrPermissionDenied))
  | Some _ =>
      let wrappedJoinRequestBase64 := rq_FormValue r "join_request" in
      if String.eqb wrappedJoinRequestBase64 "" then
        match form_params needsJoinRequest strict r with
        | inl e => Some (inl e)
        | inr params =>
            match ValidateConnectRequest limits pl ctx params with
            | inl e => Some (inl e)
            | inr res => Some (inr (co_roomName res, form_init r res))
            end
        end
      else
        match wrapped_join wrappedJoinRequestBase64 with
        | inl e => Some (inl e)
        | inr j =>
            match ValidateConnectRequest limits pl ctx (mkParams "" "" (jr_Metadata j) (jr_ParticipantAttributes j)) with
            | inl e => Some (inl e)
            | inr res => pi ← join_init r j res; Some (inr (co_roomName res, pi))
            end
        end
  end.

End validation.

(** ** The room API as a whole *)

Inductive api_request :=
  | QCreateRoom (name node : string) (egress : bool) | QListRooms (names : list string) | QDeleteRoom (room : string)
  | QListParticipants (room : string) | QGetParticipant (room identity : string) | QRemoveParticipant (room identity : string)
  | QMutePublishedTrack (room identity : string)
  | QUpdateParticipant (room identity name metadata : string) (attributes : gmap string string)
  | QUpdateSubscriptions (room identity : string) | QSendData (room : string) (nonce : list Z)
  | QUpdateRoomMetadata (room metadata : string) | QForwardParticipant (room identity destination : string)
  | QMoveParticipant (room identity destination : string) | QPerformRpc (room identity : string).

Definition room_api (s : RoomService) (ctx : Context) (q : api_request) : rpc message :=
  match q with
  | QCreateRoom name node egress => CreateRoom s ctx name node egress
  | QListRooms names => ListRooms s ctx names
  | QDeleteRoom room => DeleteRoom s ctx room
  | QListParticipants room => ListParticipants s ctx room
  | QGetParticipant room identity => GetParticipant s ctx room identity
  | QRemoveParticipant room identity => RemoveParticipant s ctx room identity
  | QMutePublishedTrack room identity => MutePublishedTrack s ctx room identity
  | QUpdateParticipant room identity name metadata attributes => UpdateParticipant s ctx room identity name metadata attributes
  | QUpdateSubscriptions room identity => UpdateSubscriptions s ctx room identity
  | QSendData room nonce => SendData s ctx room nonce
  | QUpdateRoomMetadata room metadata => UpdateRoomMetadata s ctx room metadata
  | QForwardParticipant room identity destination => ForwardParticipant s ctx room identity destination
  | QMoveParticipant room identity destination => MoveParticipant s ctx room identity destination
  | QPerformRpc room identity => PerformRpc s ctx room identity
  end.

(** The grant a request needs. *)
Definition needed (q : api_request) (v : VideoGrant) : bool :=
  match q with
  | QCreateRoom _ _ _ | QDeleteRoom _ => vg_RoomCreate v
  | QListRooms _ => vg_RoomList v
  | QListParticipants room | QGetParticipant room _ | QRemoveParticipant room _ | QMutePublishedTrack room _
  | QUpdateParticipant room _ _ _ _ | QUpdateSubscriptions room _ | QSendData room _ | QUpdateRoomMetadata room _
  | QPerformRpc room _ => vg_RoomAdmin v && String.eqb room (vg_Room v)
  | QForwardParticipant room _ destination | QMoveParticipant room _ destination =>
      vg_RoomAdmin v && String.eqb room (vg_Room v) && String.eqb destination (vg_DestinationRoom v)
  end.

(** ** What is refused does nothing *)

Definition inert {A} (m : rpc A) : Prop := m.1 = [] /\ exists e, m.2 = inl e.

Lemma inert_error {A} e : inert (rpc_ret (inl e) : rpc A).
Proof. split; [done|by exists e]. Qed.

Lemma inert_bind {A B} (m : rpc A) (f : A -> rpc B) : m.1 = [] -> (forall a, m.2 = inr a -> inert (f a)) -> inert (rpc_bind m f).
Proof.
  destruct m as [l [e|a]]; simpl; intros -> Hf; [split; [done|by exists e]|].
  specialize (Hf a eq_refl). destruct (f a) as [l' r']. exact Hf.
Qed.

Lemma inert_require {B} b e (f : unit -> rpc B) : (forall a, inert (f a)) -> inert (rpc_bind (require b e) f).
Proof. intros Hf. by apply inert_bind. Qed.

Lemma inert_denied {B} ok ctx (f : unit -> rpc B) :
  from_option ok false (video_grant ctx) = false -> inert (rpc_bind (twirpAuthError (granted ok ctx)) f).
Proof. intros E. unfold granted. rewrite E. split; [done|by eexists]. Qed.

Lemma denied_inert s ctx q : from_option (needed q) false (video_grant ctx) = false -> inert (room_api s ctx q).
Proof.
  intros E. destruct q; simpl in *; repeat first [by apply inert_denied | apply inert_require; intros _].
Qed.

Lemma acted_needed s ctx q : (room_api s ctx q).1 <> [] -> exists v, video_grant ctx = Some v /\ needed q v = true.
Proof.
  intros Hq. destruct (from_option (needed q) false (video_grant ctx)) eqn:E.
  - destruct (video_grant ctx) as [v|]; [by exists v|done].
  - by destruct (denied_inert s ctx q E) as [? _].
Qed.

(** ** What a validated connection is *)

Section validated.
Context `{GrantLaws} (d : Decoders) (limits : LimitConfig) (pl : Placement).

Lemma own_metadata_kept v params c c' : vg_CanUpdateOwnMetadata v = None -> own_metadata v params c = inr c' -> c' = c.
Proof.
  intros Hm. unfold own_metadata. rewrite (metadata_unset v Hm). simpl. rewrite !andb_true_r.
  destruct (String.eqb (pa_metadata params) ""); [|done]. simpl. by case_bool_decide; [|intros [= <-]].
Qed.

(** Admission keeps the room of the token, and its holder; a connection that
    only publishes is of somebody who may publish. *)
Lemma connect_kept ctx params res claims v :
  GetGrants ctx = Some claims -> cg_Video claims = Some v -> vg_Room v <> "" -> vg_CanUpdateOwnMetadata v = None ->
  ValidateConnectRequest limits pl ctx params = inr res ->
  vg_RoomJoin v = true /\ co_roomName res = vg_Room v /\
  ((pa_publish params = "" /\ co_grants res = claims) \/
   (pa_publish params <> "" /\ GetCanPublish v = true /\ co_grants res = publish_claims (pa_publish params) v claims)).
Proof.
  intros Hg Hv Hroom Hm. unfold ValidateConnectRequest, EnsureJoinPermission, video_grant. rewrite Hg. simpl. rewrite Hv.
  destruct (vg_RoomJoin v) eqn:Hj; [|done]. destruct (String.eqb (cg_Identity claims) ""); [done|]. destruct (negb _); [done|].
  rewrite !(proj2 (String.eqb_neq _ _) Hroom). destruct (CheckRoomNameLength limits (vg_Room v)); simpl negb; [|done].
  destruct (String.eqb_spec (pa_publish params) "") as [Hp|Hp]; simpl.
  - destruct (ValidateCreateRoom pl (vg_Room v)) as [[]|]; try done. destruct (node_full _ _); [done|].
    destruct (own_metadata v params claims) as [|c'] eqn:Ho; [done|]. intros [= <-]. simpl.
    apply own_metadata_kept in Ho as ->; [|done]. split; [done|split; [done|by left]].
  - destruct (GetCanPublish v) eqn:Hcp; simpl; [|done].
    destruct (ValidateCreateRoom pl (vg_Room v)) as [[]|]; try done. destruct (node_full _ _); [done|].
    destruct (own_metadata _ params _) as [|c'] eqn:Ho; [done|]. intros [= <-]. simpl.
    apply own_metadata_kept in Ho as ->; [|by rewrite set_can_subscribe]. split; [done|split; [done|by right]].
Qed.

Lemma connect_claims ctx params res : ValidateConnectRequest limits pl ctx params = inr res ->
  exists v, video_grant ctx = Some v /\ vg_RoomJoin v = true /\ (vg_Room v <> "" -> co_roomName res = vg_Room v).
Proof.
  unfold ValidateConnectRequest, EnsureJoinPermission, video_grant. destruct (GetGrants ctx) as [claims|]; simpl; [|done].
  destruct (cg_Video claims) as [v|]; [|done]. destruct (vg_RoomJoin v) eqn:Hj; [|done]. intros Hr. exists v. split_and!; [done..|].
  intros Hroom. revert Hr. destruct (String.eqb (cg_Identity claims) ""); [done|]. destruct (negb _); [done|].
  rewrite !(proj2 (String.eqb_neq _ _) Hroom). destruct (CheckRoomNameLength limits (vg_Room v)); simpl negb; [|done]. destruct (_ && _); [done|].
  destruct (ValidateCreateRoom pl (vg_Room v)) as [[]|]; try done. destruct (node_full _ _); [done|].
  destruct (own_metadata _ _ _); [done|]. by intros [= <-].
Qed.

(** Every successful validation is an admission. *)
Lemma validated_connect ctx r needs strict room pi : validateInternal d limits pl ctx r needs strict = Some (inr (room, pi)) ->
  exists params res, ValidateConnectRequest limits pl ctx params = inr res /\ room = co_roomName res /\
    pi_Grants pi = co_grants res /\ pi_Identity pi = cg_Identity (co_grants res) /\ pi_Name pi = cg_Name (co_grants res).
Proof.
  unfold validateInternal. destruct (video_grant ctx); [|done]. destruct (String.eqb _ "").
  - destruct (form_params _ _ _ _) as [|params]; [done|]. destruct (ValidateConnectRequest _ _ _ _) as [|res] eqn:E; [done|].
    intros [= <- <-]. by exists params, res.
  - destruct (wrapped_join _ _) as [|j]; [done|]. destruct (ValidateConnectRequest _ _ _ _) as [|res] eqn:E; [done|].
    unfold join_init. destruct (jr_ClientInfo j); [|done]. simpl. intros [= <- <-]. by eexists _, res.
Qed.
End validated.

(** ** Requests with a token *)

(** The request carries a token that one of the configured keys has signed. *)
Definition carries {Token} `{TokenSdk Token} (r : Request) (claims : ClaimGrants) : Prop :=
  exists tok t, request_token r = Some tok /\ tok <> "" /\ ParseAPIToken tok = Some t /\ GetSecret (APIKey t) <> "" /\
    Verify t (GetSecret (APIKey t)) = inr claims.

Lemma next_carries {Token} `{TokenSdk Token} r ctx : (ServeHTTP r None).2 = Next ctx ->
  match GetGrants ctx with Some claims => carries r claims | None => True end.
Proof.
  unfold ServeHTTP. simpl. destruct (request_token r) as [tok|] eqn:Et; [|done]. destruct (String.eqb_spec tok "") as [|Hne]; [by intros [= <-]|].
  destruct (ParseAPIToken tok) as [t|] eqn:Ep; [|done]. destruct (String.eqb_spec (GetSecret (APIKey t)) "") as [|Hs]; [done|].
  destruct (Verify t _) as [|claims] eqn:Ev; [done|]. intros [= <-]. simpl. by exists tok, t.
Qed.

(** The claims of the chat server's tokens: the fields that are not set are left out. *)
Definition claims_of (g : Grant) : ClaimGrants :=
  mkClaims (g_identity g) (g_name g)
    (Some (mkVideoGrant false false false false (g_RoomJoin g) (g_room g) "" false
      (Some (g_CanPublish g)) (Some (g_CanSubscribe g)) (Some (g_CanPublishData g)) None)) None "" None "" ∅.

(** What the SDK documents of signing: the token is verified, under the secret of
    its key, with the grant it was made of. *)
Definition signs {Token} `{TokenSdk Token} (to_jwt : Grant -> option string) : Prop :=
  forall g tok, to_jwt g = Some tok ->
    tok <> "" /\ exists t, ParseAPIToken tok = Some t /\ Verify t (GetSecret (APIKey t)) = inr (claims_of g).

Lemma room_named channelID : RoomName channelID <> "".
Proof. unfold RoomName. done. Qed.

End MediaAuth.
Export MediaAuth.

(** C21: the media server lets in whom the chat server lets in, for what it was
    let in. Whatever request comes: what the room API asks of the rest of the
    server, it asks for a token signed under a configured key whose grant covers
    the request; and a connection is only accepted with such a token that
    grants joining, into the room of the token. With a token of the chat server
    ([GenerateToken]) every request of the room API is refused and does
    nothing; a connection is the user of the token under its name, in the room
    of the channel, without metadata of its own, who may publish exactly when
    the token says so - and a second connection that only publishes, under the
    identity with a suffix, takes a token that allows publishing. *)
Theorem media_access {Token} `{TokenSdk Token, GrantLaws} d limits pl r ctx :
  (ServeHTTP r None).2 = Next ctx ->
  (forall s q, (room_api s ctx q).1 <> [] -> exists claims v, carries r claims /\ cg_Video claims = Some v /\ needed q v = true) /\
  (forall needs strict room pi, validateInternal d limits pl ctx r needs strict = Some (inr (room, pi)) ->
    exists claims v, carries r claims /\ cg_Video claims = Some v /\ vg_RoomJoin v = true /\ (vg_Room v <> "" -> room = vg_Room v)) /\
  (forall to_jwt userID username channelID pub sub tok,
    signs to_jwt -> GenerateToken to_jwt userID username channelID pub sub = Some tok -> request_token r = Some tok ->
    (forall s q, inert (room_api s ctx q)) /\
    (forall needs strict room pi, validateInternal d limits pl ctx r needs strict = Some (inr (room, pi)) ->
      room = RoomName channelID /\ pi_Name pi = username /\
      cg_Metadata (pi_Grants pi) = "" /\ cg_Attributes (pi_Grants pi) = ∅ /\
      (exists v, cg_Video (pi_Grants pi) = Some v /\ vg_CanPublish v = Some pub /\ vg_CanPublishData v = Some pub /\ vg_RoomAdmin v = false) /\
      (pi_Identity pi = Identity userID \/
       exists suffix, pub = true /\ suffix <> "" /\ pi_Identity pi = Identity userID +:+ "#" +:+ suffix))).
Proof.
  intros Hn. pose proof (next_carries r ctx Hn) as Hc. split; [|split].
  - intros s q Hq. destruct (acted_needed s ctx q Hq) as (v & Hv & Hnd). unfold video_grant in Hv.
    destruct (GetGrants ctx) as [claims|]; [|done]. by exists claims, v.
  - intros needs strict room pi Hval. destruct (validated_connect d limits pl _ _ _ _ _ _ Hval) as (params & res & E & -> & _).
    destruct (connect_claims limits pl _ _ _ E) as (v & Hv & Hj & Hroom). unfold video_grant in Hv.
    destruct (GetGrants ctx) as [claims|]; [|done]. by exists claims, v.
  - intros to_jwt userID username channelID pub sub tok Hsign Htok Ht. destruct (Hsign _ _ Htok) as (Hne & t & Hp & Hver).
    set (claims := claims_of _) in *.
    assert (Hctx : GetGrants ctx = Some claims).
    { revert Hn. unfold ServeHTTP. simpl. rewrite Ht, (proj2 (String.eqb_neq _ _) Hne), Hp.
      destruct (String.eqb _ ""); [done|]. rewrite Hver. by intros [= <-]. }
    split; [intros s q; apply denied_inert; unfold video_grant; rewrite Hctx; by destruct q|].
    intros needs strict room pi Hval. destruct (validated_connect d limits pl _ _ _ _ _ _ Hval) as (params & res & E & -> & Hg & Hi & Hname).
    rewrite Hg, Hi, Hname. eapply connect_kept in E; [|exact Hctx|reflexivity|apply room_named|reflexivity].
    destruct E as (_ & -> & [(_ & ->)|(Hs & Hcp & ->)]); simpl.
    + split_and!; try done; [by eexists|by left].
    + rewrite set_can_subscribe. split_and!; try done; [by eexists|]. right. exists (pa_publish params). split_and!; try done.
      by erewrite can_publish_set in Hcp by reflexivity.
Qed.

(** Two samples of the SDK, and a server. *)
#[local] Instance grant_eq_dec : EqDecision Grant.
Proof. solve_decision. Defined.

Definition sample_grant : Grant := voice_grant 5 "ada" 7 true true.
Definition sample_to_jwt (g : Grant) : option string := if decide (g = sample_grant) then Some "signed" else None.
#[local] Instance sample_tokens : TokenSdk string := {
  ParseAPIToken := fun tok => Some tok;
  APIKey := fun _ => "key";
  Verify := fun tok secret => if String.eqb tok "signed" && String.eqb secret "secret" then inr (claims_of sample_grant) else inl "bad signature";
  GetSecret := fun key => if String.eqb key "key" then "secret" else "" }.
#[local] Instance sample_grants : GrantSdk := {
  GetCanPublish := fun v => default true (vg_CanPublish v);
  GetCanUpdateOwnMetadata := fun v => default false (vg_CanUpdateOwnMetadata v);
  SetCanSubscribe := fun b v =>
    mkVideoGrant (vg_RoomCreate v) (vg_RoomList v) (vg_RoomRecord v) (vg_RoomAdmin v) (vg_RoomJoin v) (vg_Room v)
      (vg_DestinationRoom v) (vg_IngressAdmin v) (vg_CanPublish v) (Some b) (vg_CanPublishData v) (vg_CanUpdateOwnMetadata v) }.
#[local] Instance sample_grant_laws : GrantLaws.
Proof. split; [by intros v b E; simpl; rewrite E|by intros v E; simpl; rewrite E|done]. Defined.

Definition sample_decoders : Decoders :=
  mkDecoders (fun _ => Some []) (fun _ => None) (fun _ => Some (mkWrapped OtherCompression [])) (fun _ => None) (fun _ => None)
    (fun _ => mkAgent "" "" "" "" "" "").
Definition sample_request (form : string -> string) : Request :=
  mkRequest "/rtc" "Bearer signed" form (fun _ => "") "10.0.0.1:4000" "agent".
Definition sample_limits : LimitConfig := mkLimits 256 256 256 64000 64000.
Definition sample_placement : Placement := mkPlacement true (fun _ => inr tt) None (fun _ => None).
Definition form_of (name value : string) (field : string) : string := if String.eqb field name then value else "".

Lemma sample_signs : signs sample_to_jwt.
Proof. intros g tok. unfold sample_to_jwt. destruct (decide (g = sample_grant)) as [->|]; [|done]. intros [= <-]. split; [done|by exists "signed"]. Qed.

Lemma media_access_witness :
  exists ctx pi, (ServeHTTP (sample_request (form_of "publish" "cam")) None).2 = Next ctx /\
    validateInternal sample_decoders sample_limits sample_placement ctx (sample_request (form_of "publish" "cam")) false false =
      Some (inr ("channel-7", pi)) /\
    pi_Identity pi = "user-5#cam" /\ cg_Metadata (pi_Grants pi) = "" /\
    forall s q, inert (room_api s ctx q).
Proof.
  eexists _, _. split; [vm_compute; reflexivity|]. split; [vm_compute; reflexivity|]. split; [reflexivity|]. split; [reflexivity|].
  refine (proj1 (proj2 (proj2 (media_access sample_decoders sample_limits sample_placement (sample_request (form_of "publish" "cam")) _ _))
    sample_to_jwt 5 "ada" 7 true true "signed" sample_signs _ _)); vm_compute; reflexivity.
Defined.

(** A join request that does not describe its client stops the handler. *)
Example join_without_client_panics :
  (ServeHTTP (sample_request (form_of "join_request" "x")) None).2 = Next (Some (mkGrantsValue (claims_of sample_grant) "key")) /\
  validateInternal sample_decoders sample_limits sample_placement (Some (mkGrantsValue (claims_of sample_grant) "key"))
    (sample_request (form_of "join_request" "x")) true false = None.
Proof. split; vm_compute; reflexivity. Qed.

(** The identity of a connection that only publishes is not that of a user to the chat server. *)
Example publish_identity_unknown : parseIdentity "user-5#cam" = None.
Proof. vm_compute. reflexivity. Qed.
