(* ===== verification/DownTrack.v ===== *)
(** * What a subscriber is sent, and sent again

    Model of the packet path of pkg/sfu/downtrack.go of the media server:
    writing a translated packet, and the retransmissions, with the sequencer
    ([Sequencer]) and packettrailer. Packets go to the pacer in the order they
    are enqueued. Parameters: the packets of the source the receiver still has
    (the bucket of a third-party package, and the RTP parser), and what the
    forwarder makes of a packet or of a request. Statistics, notifications, the
    extension of the playout delay and those the pacer fills in are left out. *)

From S2P Require Import Prelude RangeMap Vp8 RtpMunger Sequencer.
#[local] Open Scope Z_scope.

Module DownTrack.

Definition wrap_int8 (z : Z) : Z := (z + 128) mod 256 - 128.

(** ** packettrailer *)

(** "LKTS" *)
Definition Magic : list Z := [76; 75; 84; 83].
Definition xorByte : Z := 0xFF.
Definition envelopeSize : nat := 5.

Definition StripTrailer (payload : list Z) (marker : bool) : nat :=
  let n := length payload in
  if negb marker || (n <? envelopeSize)%nat then 0 else
  if negb (bool_decide (drop (n - 4) payload = Magic)) then 0 else
  let trailerLen := Z.to_nat (Z.lxor (default 0 (payload !! (n - 5)%nat)) xorByte) in
  if (trailerLen <? envelopeSize)%nat || (n <? trailerLen)%nat then 0 else trailerLen.

Definition strip (on marker : bool) (payload : list Z) : list Z :=
  if on then take (length payload - StripTrailer payload marker) payload else payload.

(** ** The buffers of the pool *)

(** [copy(dst[at:], src)]; the caller has checked [at]. *)
Definition go_copy (at_ : nat) (src dst : list Z) : list Z :=
  take at_ dst ++ take (length dst - at_) src ++ drop (at_ + length src) dst.
Definition copied (at_ : nat) (src dst : list Z) : nat := min (length src) (length dst - at_).

(** [pool] is what the buffer holds from before. *)
Definition pool_size : nat := 1460.

(** The payload that is sent; [None] is a panic, [inl] a payload that is too long. *)
Definition write_payload (pool codecBytes payload : list Z) (incomingHeaderSize : nat) : option (result unit (list Z)) :=
  let buf := go_copy 0 codecBytes pool in
  if (length pool <? length codecBytes)%nat || (length payload <? incomingHeaderSize)%nat then None else
  let body := drop incomingHeaderSize payload in
  let n := copied (length codecBytes) body buf in
  if negb (n =? length body)%nat then Some (inl tt)
  else Some (inr (take (length codecBytes + n) (go_copy (length codecBytes) body buf))).

(** ** The track *)

(** A packet for the pacer. *)
Record Packet := mkPacket {
  sp_SSRC : Z; sp_PayloadType : Z; sp_SN : Z; sp_TS : Z; sp_Marker : bool; sp_Padding : bool;
  sp_dd : list Z; sp_act : list Z; sp_Payload : list Z; sp_IsProbe : bool; sp_IsRTX : bool }.

(** What does not change. *)
Record Params := mkParams {
  dp_ssrc : Z; dp_ssrcRTX : Z; dp_payloadTypeRTX : Z; dp_payloadType : Z; dp_isRED : bool; dp_upstreamPrimaryPT : Z; dp_primaryPT : Z;
  dp_ddExtID : Z; dp_actExtID : Z; dp_StripPacketTrailer : bool }.

Record DownTrack := mkDownTrack {
  dt_writable : bool; dt_sequencer : option sequencer; dt_rtxSequenceNumber : Z; dt_isNACKThrottled : bool; dt_sent : list Packet }.
Definition set_sequencer (s : sequencer) (d : DownTrack) : DownTrack :=
  mkDownTrack (dt_writable d) (Some s) (dt_rtxSequenceNumber d) (dt_isNACKThrottled d) (dt_sent d).
Definition enqueue (p : Packet) (d : DownTrack) : DownTrack :=
  mkDownTrack (dt_writable d) (dt_sequencer d) (dt_rtxSequenceNumber d) (dt_isNACKThrottled d) (dt_sent d ++ [p]).
Definition set_rtx (n : Z) (d : DownTrack) : DownTrack :=
  mkDownTrack (dt_writable d) (dt_sequencer d) n (dt_isNACKThrottled d) (dt_sent d).
Definition set_throttled (b : bool) (d : DownTrack) : DownTrack :=
  mkDownTrack (dt_writable d) (dt_sequencer d) (dt_rtxSequenceNumber d) b (dt_sent d).

(** A packet of the source, as it is parsed. *)
Record Source := mkSource { so_PayloadType : Z; so_Padding : bool; so_Payload : list Z }.

(** What the forwarder makes of a packet that is not dropped. *)
Record TranslationParams := mkTP {
  tp_rtp : TranslationParamsRTP; tp_ddBytes : option (list Z); tp_incomingHeaderSize : nat; tp_codecBytes : list Z; tp_marker : bool }.

(** A packet comes in: when, its number, whether it is a key frame, and the
    capture time that goes with it. *)
Record Incoming := mkIncoming {
  ic_Arrival : Z; ic_SN : Z; ic_IsKeyFrame : bool; ic_source : Source; ic_actBytes : list Z }.

Section track.
Context (c : Params).

Definition getTranslatedPayloadType (srcPT : Z) : Z :=
  if dp_isRED c && (srcPT =? dp_upstreamPrimaryPT c) && negb (dp_primaryPT c =? 0) then dp_primaryPT c else dp_payloadType c.

(** An extension is only set when it was negotiated, and there is something to set. *)
Definition extension (id : Z) (bytes : list Z) : list Z := if negb (id =? 0) then bytes else [].

(** What the sequencer keeps of a packet, whose payload was [full] before its trailer went. *)
Definition pushed_packet (pkt : Incoming) (layer : Z) (tp : TranslationParams) (full : list Z) : pushed :=
  mkPushed (ic_Arrival pkt) (ic_SN pkt) (tp_SN (tp_rtp tp)) (tp_TS (tp_rtp tp)) (tp_marker tp) (wrap_int8 layer)
    (take (length (tp_codecBytes tp)) full) (Z.of_nat (tp_incomingHeaderSize tp)) (default [] (tp_ddBytes tp))
    (extension (dp_actExtID c) (ic_actBytes pkt)).

Definition translated (pkt : Incoming) (tp : TranslationParams) (full : list Z) : Packet :=
  mkPacket (dp_ssrc c) (getTranslatedPayloadType (so_PayloadType (ic_source pkt))) (tp_SN (tp_rtp tp) mod 2 ^ 16)
    (tp_TS (tp_rtp tp) mod 2 ^ 32) (tp_marker tp) (so_Padding (ic_source pkt))
    (extension (dp_ddExtID c) (default [] (tp_ddBytes tp))) (extension (dp_actExtID c) (ic_actBytes pkt))
    (strip (dp_StripPacketTrailer c) (tp_marker tp) full) false false.

(** [None] is a panic; [tp = None] is a packet to be dropped. *)
Definition WriteRTP (pool : list Z) (pkt : Incoming) (layer : Z) (tp : option TranslationParams) (d : DownTrack) : option DownTrack :=
  if negb (dt_writable d) then Some d else
  match tp with
  | None => Some d
  | Some tp =>
      r ← write_payload pool (tp_codecBytes tp) (so_Payload (ic_source pkt)) (tp_incomingHeaderSize tp);
      match r with
      | inl _ => Some d
      | inr full =>
          let d := match dt_sequencer d with
            | Some s => set_sequencer (push (pushed_packet pkt layer tp full) s) d
            | None => d
            end in
          let d := enqueue (translated pkt tp full) d in
          Some (if ic_IsKeyFrame pkt then set_throttled false d else d)
      end
  end.

(** ** Padding *)

Definition RTPPaddingMaxPayloadSize : nat := 255.
Definition RTPPaddingEstimatedHeaderSize : nat := 20.
(** The last byte is the size. *)
Definition padding_payload : list Z := replicate (RTPPaddingMaxPayloadSize - 1) 0 ++ [Z.of_nat RTPPaddingMaxPayloadSize].
Definition padding_count (bytesToSend : Z) : Z :=
  Z.quot (bytesToSend + Z.of_nat RTPPaddingMaxPayloadSize + Z.of_nat RTPPaddingEstimatedHeaderSize - 1)
    (Z.of_nat RTPPaddingMaxPayloadSize + Z.of_nat RTPPaddingEstimatedHeaderSize).
Definition padding_packet (ssrc pt sn ts : Z) : Packet :=
  mkPacket ssrc pt (sn mod 2 ^ 16) (ts mod 2 ^ 32) false true [] [] padding_payload true false.
Definition enqueue_all (ps : list Packet) (d : DownTrack) : DownTrack := foldl (fun d p => enqueue p d) d ps.

(** [idle]: the stream is such that no padding is sent. [snts] are the numbers
    and timestamps the forwarder gives out for so many packets. *)
Definition WritePaddingRTP (idle paddingOnMute : bool) (bytesToSend : Z) (snts : Z -> option (list SnTs)) (d : DownTrack) : option DownTrack :=
  if negb (dt_writable d) then Some d else
  if negb paddingOnMute && idle then Some d else
  if padding_count bytesToSend =? 0 then Some d else
  match snts (padding_count bytesToSend) with
  | None => Some d
  | Some l =>
      d ← match dt_sequencer d with
          | Some s =>
              first ← head l; final ← last l;
              s ← pushPadding (st_SN first) (st_SN final) s;
              Some (set_sequencer s d)
          | None => Some d
          end;
      Some (enqueue_all (map (fun v => padding_packet (dp_ssrc c) (dp_payloadType c) (st_SN v) (st_TS v)) l) d)
  end.

(** ** Sending again *)

(** The payload of a retransmission; [None] is a panic. *)
Definition resend_payload (pool : list Z) (rtxOffset : nat) (m : packetMeta) (payload : list Z) : option (list Z) :=
  if (length payload <? Z.to_nat (numCodecBytesIn m))%nat then None else
  let buf := if (0 <? rtxOffset)%nat then go_copy 0 [targetSeqNo m / 256; targetSeqNo m mod 256] pool else pool in
  let body := drop (Z.to_nat (numCodecBytesIn m)) payload in
  let slice := sd_slice (codecBytes m) in
  if negb (length slice =? 0)%nat then
    let n := copied rtxOffset slice buf in
    let buf := go_copy rtxOffset slice buf in
    let k := copied (rtxOffset + n) body buf in
    Some (take (rtxOffset + n + k) (go_copy (rtxOffset + n) body buf))
  else
    let out := Z.to_nat (sd_size (codecBytes m)) in
    let buf := go_copy rtxOffset (take out (sd_array (codecBytes m))) buf in
    let size := (rtxOffset + out + (length payload - Z.to_nat (numCodecBytesIn m)))%nat in
    if (length buf <? rtxOffset + out)%nat || (length buf <? size)%nat then None
    else Some (take size (go_copy (rtxOffset + out) body buf)).

Definition on_rtx : bool := negb (dp_payloadTypeRTX c =? 0) && negb (dp_ssrcRTX c =? 0).

Section source.
(** What the receiver reads, what the RTP parser makes of it, and the size of the header of a packet. *)
Inductive read_result := ReadPacket (bytes : list Z) | ReadMissing | ReadEOF.
Context (ReadRTP : Z -> Z -> read_result) (unmarshal : list Z -> option Source) (header_size : Packet -> nat).

Definition resent_packet (m : packetMeta) (pkt : Source) (full : list Z) (isProbe : bool) (sn : Z) : Packet :=
  let off := (if on_rtx then 2 else 0)%nat in
  mkPacket (if on_rtx then dp_ssrcRTX c else dp_ssrc c)
    (if on_rtx then dp_payloadTypeRTX c else getTranslatedPayloadType (so_PayloadType pkt))
    (if on_rtx then sn mod 2 ^ 16 else targetSeqNo m) (pm_timestamp m) (pm_marker m) (so_Padding pkt)
    (extension (dp_ddExtID c) (stored_bytes (ddBytes m))) (extension (dp_actExtID c) (actBytes m))
    (take off full ++ strip (dp_StripPacketTrailer c) (pm_marker m) (drop off full)) isProbe (negb isProbe).

(** With the number of bytes that were sent. *)
Definition retransmitPacket (pool : list Z) (epm : extPacketMeta) (sourcePkt : list Z) (isProbe : bool) (d : DownTrack) : option (nat * DownTrack) :=
  match unmarshal sourcePkt with
  | None => Some (0%nat, d)
  | Some pkt =>
      let m := em_meta epm in
      let sn := wrap_uint64 (dt_rtxSequenceNumber d + 1) in
      let d := if on_rtx then set_rtx sn d else d in
      full ← resend_payload pool (if on_rtx then 2 else 0) m (so_Payload pkt);
      let p := resent_packet m pkt full isProbe sn in
      Some ((header_size p + length (sp_Payload p))%nat, enqueue p d)
  end.

(** The packets that are found, one after the other; [disallowed] tells the
    layers that are not sent again, an index beyond it is a panic. *)
Fixpoint resend_all (pool : list Z) (disallowed : list bool) (metas : list extPacketMeta) (d : DownTrack) : option DownTrack :=
  match metas with
  | [] => Some d
  | epm :: metas =>
      no ← (if pm_layer (em_meta epm) <? 0 then None else disallowed !! Z.to_nat (pm_layer (em_meta epm)));
      if no : bool then resend_all pool disallowed metas d else
      match ReadRTP (pm_layer (em_meta epm) mod 256) (sourceSeqNo (em_meta epm)) with
      | ReadEOF => Some d
      | ReadMissing => resend_all pool disallowed metas d
      | ReadPacket bytes => '(_, d) ← retransmitPacket pool epm bytes false d; resend_all pool disallowed metas d
      end
  end.

(** [filter] is what the forwarder lets through, and the layers it does not. *)
Definition retransmitPackets (pool : list Z) (filter : list Z -> list Z * list bool) (now : Z) (nacks : list Z) (d : DownTrack) : option DownTrack :=
  match dt_sequencer d with
  | None => Some d
  | Some s =>
      if dt_isNACKThrottled d then Some d else
      let '(filtered, disallowed) := filter nacks in
      if (length filtered =? 0)%nat then Some d else
      let '(metas, s) := getExtPacketMetas now filtered s in
      resend_all pool disallowed metas (set_sequencer s d)
  end.

(** ** Probes *)

Fixpoint rtx_padding (n : nat) (d : DownTrack) : DownTrack :=
  match n with
  | O => d
  | S n =>
      let sn := wrap_uint64 (dt_rtxSequenceNumber d + 1) in
      rtx_padding n (enqueue (padding_packet (dp_ssrcRTX c) (dp_payloadTypeRTX c) sn 0) (set_rtx sn d))
  end.

(** The last numbers that were sent; there are none when the first would be negative. *)
Definition probe_numbers (highest : Z) : list Z :=
  let start := wrap_uint64 (highest - 5) in if start <=? highest then map (fun i => start + i) [0; 1; 2; 3; 4; 5] else [].

Fixpoint probe_all (pool : list Z) (bytesToSend sent : Z) (esns : list Z) (s : sequencer) (d : DownTrack) : option DownTrack :=
  match esns with
  | [] => Some d
  | esn :: esns =>
      match lookupExtPacketMeta esn s with
      | None => probe_all pool bytesToSend sent esns s d
      | Some epm =>
          match ReadRTP (pm_layer (em_meta epm) mod 256) (sourceSeqNo (em_meta epm)) with
          | ReadEOF => Some d
          | ReadMissing => probe_all pool bytesToSend sent esns s d
          | ReadPacket bytes =>
              '(n, d) ← retransmitPacket pool epm bytes true d;
              let sent := sent + Z.of_nat n in
              if bytesToSend <=? sent then Some d else probe_all pool bytesToSend sent esns s d
          end
      end
  end.

(** [quiet]: the stream is not active, has no extension to measure with or no report yet. *)
Definition WriteProbePackets (pool : list Z) (idle quiet : bool) (bytesToSend : Z) (usePadding : bool) (snts : Z -> option (list SnTs))
    (highest : Z) (d : DownTrack) : option DownTrack :=
  if negb on_rtx then WritePaddingRTP idle false bytesToSend snts d else
  match dt_sequencer d with
  | None => Some d
  | Some s =>
      if negb (dt_writable d) || quiet then Some d else
      if usePadding
      then if padding_count bytesToSend <? 0 then None else Some (rtx_padding (Z.to_nat (padding_count bytesToSend)) d)
      else probe_all pool bytesToSend 0 (probe_numbers highest) s d
  end.

End source.
End track.
(** ** Payloads *)

(** What is written, as long as it fits. *)
Lemma take_go_copy at_ src dst : (at_ + length src <= length dst)%nat ->
  take (at_ + length src) (go_copy at_ src dst) = take at_ dst ++ src.
Proof.
  intros H. unfold go_copy. rewrite (take_ge src) by lia. rewrite app_assoc, take_app_length'; [done|].
  rewrite length_app, length_take. lia.
Qed.

Lemma length_go_copy at_ src dst : (at_ <= length dst)%nat -> length (go_copy at_ src dst) = length dst.
Proof. intros H. unfold go_copy. rewrite !length_app, !length_take, length_drop. lia. Qed.

Lemma take_go_copy_before n at_ src dst : (n <= at_ <= length dst)%nat -> take n (go_copy at_ src dst) = take n dst.
Proof. intros H. unfold go_copy. rewrite take_app_le by (rewrite length_take; lia). rewrite take_take. f_equal. lia. Qed.

Lemma copied_all at_ src dst : (at_ + length src <= length dst)%nat -> copied at_ src dst = length src.
Proof. unfold copied. lia. Qed.

Lemma write_payload_spec pool codec payload n : (length codec + length (drop n payload) <= length pool)%nat -> (n <= length payload)%nat ->
  write_payload pool codec payload n = Some (inr (codec ++ drop n payload)).
Proof.
  intros H Hn. unfold write_payload. rewrite (proj2 (Nat.ltb_ge _ _)), (proj2 (Nat.ltb_ge (length payload) n)) by lia. simpl.
  rewrite copied_all by (rewrite length_go_copy by lia; done). rewrite Nat.eqb_refl. simpl.
  rewrite take_go_copy by (rewrite length_go_copy by lia; done).
  change (length codec) with (0 + length codec)%nat. rewrite take_go_copy by (simpl; lia). done.
Qed.

(** The original number comes first on the retransmission stream. *)
Definition osn (off : nat) (sn : Z) : list Z := if (0 <? off)%nat then [sn / 256; sn mod 256] else [].

Lemma resend_payload_spec pool off m payload codec : off = 0%nat \/ off = 2%nat -> codecBytes m = store_bytes codec ->
  let n := Z.to_nat (numCodecBytesIn m) in
  (n <= length payload)%nat -> (off + length codec + length (drop n payload) <= length pool)%nat ->
  resend_payload pool off m payload = Some (osn off (targetSeqNo m) ++ codec ++ drop n payload).
Proof.
  intros Hoff Hc n Hn Hl. unfold resend_payload. fold n. rewrite (proj2 (Nat.ltb_ge _ _)) by done.
  set (buf := if (0 <? off)%nat then _ else pool).
  assert (Hb : length buf = length pool /\ take off buf = osn off (targetSeqNo m)).
  { unfold buf, osn. destruct Hoff as [-> | ->]; simpl; [done|]. split; [apply length_go_copy; lia|].
    apply (take_go_copy 0 [_; _]). simpl. lia. }
  destruct Hb as [Hb Ht]. clearbody buf. rewrite Hc. unfold store_bytes. destruct (Nat.ltb_spec 8 (length codec)); simpl.
  - rewrite (proj2 (Nat.eqb_neq _ _)) by lia. simpl. rewrite (copied_all off codec buf) by lia.
    rewrite copied_all by (rewrite length_go_copy by lia; lia). rewrite take_go_copy by (rewrite length_go_copy by lia; lia).
    rewrite take_go_copy by lia. by rewrite Ht, <- app_assoc.
  - rewrite Z.mod_small, Nat2Z.id by lia. rewrite take_app_length. rewrite length_go_copy by lia.
    rewrite <- length_drop. rewrite (proj2 (Nat.ltb_ge _ _)), (proj2 (Nat.ltb_ge _ _)) by lia. simpl.
    rewrite take_go_copy by (rewrite length_go_copy by lia; lia). rewrite take_go_copy by lia. by rewrite Ht, <- app_assoc.
Qed.

(** ** Runs *)

Section runs.
Context (c : Params) (ReadRTP : Z -> Z -> read_result) (unmarshal : list Z -> option Source) (header_size : Packet -> nat).
(** The packet the source sent on a layer, under a number. *)
Context (src : Z -> Z -> Source).

(** The receiver answers with the packet it was asked for, when it has it. *)
Definition reads_source : Prop :=
  forall layer sn bytes, 0 <= layer <= 2 -> ReadRTP layer sn = ReadPacket bytes -> unmarshal bytes = Some (src layer sn).

Inductive devent :=
  | DWrite (pool : list Z) (pkt : Incoming) (layer : Z) (tp : option TranslationParams)
  | DPad (idle paddingOnMute : bool) (bytesToSend : Z) (snts : Z -> option (list SnTs))
  | DNacks (pool : list Z) (filter : list Z -> list Z * list bool) (now : Z) (nacks : list Z)
  | DProbe (pool : list Z) (idle quiet : bool) (bytesToSend : Z) (usePadding : bool) (snts : Z -> option (list SnTs)) (highest : Z)
  | DPli
  | DRtt (rtt : Z).

(** A picture loss stops retransmissions until the next key frame. *)
Definition dstep (e : devent) (d : DownTrack) : option DownTrack :=
  match e with
  | DWrite pool pkt layer tp => WriteRTP c pool pkt layer tp d
  | DPad idle onMute n snts => WritePaddingRTP c idle onMute n snts d
  | DNacks pool filter now nacks => retransmitPackets c ReadRTP unmarshal header_size pool filter now nacks d
  | DProbe pool idle quiet n usePadding snts highest => WriteProbePackets c ReadRTP unmarshal header_size pool idle quiet n usePadding snts highest d
  | DPli => Some (set_throttled true d)
  | DRtt rtt => Some (match dt_sequencer d with Some s => if rtt =? 0 then d else set_sequencer (setRTT rtt s) d | None => d end)
  end.

(** The translation fits a buffer together with the two bytes of the original
    number, and its header is in the packet. *)
Definition fits_buffer (payload : list Z) (tp : TranslationParams) : Prop :=
  (tp_incomingHeaderSize tp <= length payload)%nat /\ (tp_incomingHeaderSize tp < 256)%nat /\
  (2 + length (tp_codecBytes tp) + length (drop (tp_incomingHeaderSize tp) payload) <= pool_size)%nat.

Definition padding_allowed (n : Z) (snts : Z -> option (list SnTs)) (d : DownTrack) : Prop :=
  forall s l, dt_sequencer d = Some s -> snts (padding_count n) = Some l ->
    exists first final, head l = Some first /\ last l = Some final /\ s_allowed (SPadding (st_SN first) (st_SN final)) s.

Definition d_allowed (e : devent) (d : DownTrack) : Prop :=
  match e with
  | DWrite pool pkt layer tp => length pool = pool_size /\ forall t, tp = Some t ->
      0 <= layer <= 2 /\ ic_source pkt = src layer (ic_SN pkt) /\ fits_buffer (so_Payload (ic_source pkt)) t /\
      forall s full, dt_sequencer d = Some s -> s_allowed (SPush (pushed_packet c pkt layer t full)) s
  | DPad _ _ n snts => padding_allowed n snts d
  | DNacks pool filter _ nacks => length pool = pool_size /\ Forall (fun sn => 0 <= sn < 65536) nacks /\
      (filter nacks).1 ⊆ nacks /\ length (filter nacks).2 = 3%nat
  | DProbe pool _ _ n _ snts highest => length pool = pool_size /\ padding_allowed n snts d /\ 0 <= n /\ 0 <= highest < two63
  | DPli | DRtt _ => True
  end.

Inductive dreach (d0 : DownTrack) : DownTrack -> Prop :=
  | dreach_refl : dreach d0 d0
  | dreach_step d e d' : dreach d0 d -> d_allowed e d -> dstep e d = Some d' -> dreach d0 d'.

(** ** What was recorded was sent *)

(** [q] is the packet that was recorded as [p]. *)
Definition recorded (p : pushed) (q : Packet) : Prop :=
  let s := src (pu_layer p) (pu_in p) in let n := Z.to_nat (pu_codec_in p) in
  0 <= pu_layer p <= 2 /\ 0 <= pu_codec_in p < 256 /\ (n <= length (so_Payload s))%nat /\
  (2 + length (pu_codec p) + length (drop n (so_Payload s)) <= pool_size)%nat /\ extension (dp_actExtID c) (pu_act p) = pu_act p /\
  q = mkPacket (dp_ssrc c) (getTranslatedPayloadType c (so_PayloadType s)) (pu_sn p mod 2 ^ 16) (pu_ts p mod 2 ^ 32) (pu_marker p) (so_Padding s)
        (extension (dp_ddExtID c) (pu_dd p)) (pu_act p) (strip (dp_StripPacketTrailer c) (pu_marker p) (pu_codec p ++ drop n (so_Payload s))) false false.

Definition original (q : Packet) : Prop := sp_IsProbe q = false /\ sp_IsRTX q = false.
Definition is_padding (q : Packet) : Prop := sp_IsProbe q = true /\ sp_Padding q = true /\ sp_Payload q = padding_payload.

(** [r] is [q] once more: on the retransmission stream the number of [q] is
    before its payload, and all else is as it was. *)
Definition again (q r : Packet) : Prop :=
  let x := on_rtx c in
  sp_SSRC r = (if x then dp_ssrcRTX c else sp_SSRC q) /\ sp_PayloadType r = (if x then dp_payloadTypeRTX c else sp_PayloadType q) /\
  (x = false -> sp_SN r = sp_SN q) /\ sp_TS r = sp_TS q /\ sp_Marker r = sp_Marker q /\ sp_Padding r = sp_Padding q /\
  sp_dd r = sp_dd q /\ sp_act r = sp_act q /\ sp_Payload r = (if x then [sp_SN q / 256; sp_SN q mod 256] else []) ++ sp_Payload q.

Definition d_inv (d : DownTrack) (log : list pushed) : Prop :=
  (forall s, dt_sequencer d = Some s -> seq_ok (s, log)) /\ (forall p, p ∈ log -> exists q, q ∈ dt_sent d /\ recorded p q).

(** From [d] to [d'] the packets sent are as [Q] says. *)
Definition sends (Q : Packet -> Prop) (d d' : DownTrack) : Prop :=
  dt_sequencer d' = dt_sequencer d /\ exists new, dt_sent d' = dt_sent d ++ new /\ Forall Q new.

Lemma sends_none Q d : sends Q d d.
Proof. split; [done|]. exists []. by rewrite app_nil_r. Qed.

Lemma sends_trans Q d1 d2 d3 : sends Q d1 d2 -> sends Q d2 d3 -> sends Q d1 d3.
Proof.
  intros [E1 (n1 & H1 & F1)] [E2 (n2 & H2 & F2)]. split; [by rewrite E2|]. exists (n1 ++ n2).
  split; [by rewrite H2, H1, app_assoc|]. by apply Forall_app.
Qed.

Lemma sends_enqueue (Q : Packet -> Prop) p d d0 : dt_sequencer d = dt_sequencer d0 -> dt_sent d = dt_sent d0 -> Q p -> sends Q d0 (enqueue p d).
Proof. intros E1 E2 H. split; [done|]. exists [p]. simpl. rewrite E2. split; [done|]. by apply Forall_singleton. Qed.

Lemma sends_all (Q : Packet -> Prop) ps d : Forall Q ps -> sends Q d (enqueue_all ps d).
Proof.
  intros H. revert d. induction H as [|p ps Hp _ IH]; intros d; [apply sends_none|]. simpl.
  eapply sends_trans; [by apply (sends_enqueue Q p d d)|apply IH].
Qed.

Lemma sends_inv Q d d' log : sends Q d d' -> d_inv d log -> d_inv d' log.
Proof.
  intros [E (new & Es & _)] [H1 H2]. split; [intros s; rewrite E; apply H1|].
  intros p Hp. destruct (H2 p Hp) as (q & Hq & Hr). exists q. split; [|done]. rewrite Es. apply elem_of_app. by left.
Qed.

Lemma extension_twice id b : extension id (extension id b) = extension id b.
Proof. unfold extension. by destruct (negb _). Qed.

Lemma write_sends pool pkt layer tp d log : d_inv d log -> d_allowed (DWrite pool pkt layer tp) d ->
  exists d' log', WriteRTP c pool pkt layer tp d = Some d' /\ d_inv d' log' /\ exists new, dt_sent d' = dt_sent d ++ new /\ Forall original new.
Proof.
  intros Hinv [Hp Ha]. pose proof Hinv as [Hs Hl]. assert (Hsame : exists new, dt_sent d = dt_sent d ++ new /\ Forall original new).
  { exists []. by rewrite app_nil_r. }
  unfold WriteRTP. destruct (dt_writable d); simpl; [|by exists d, log]. destruct tp as [tp|]; [|by exists d, log].
  destruct (Ha tp eq_refl) as (Hlay & Hsrc & (Hn & Hn8 & Hfit) & Hpush). rewrite write_payload_spec by lia. simpl.
  set (full := tp_codecBytes tp ++ _). set (p := pushed_packet c pkt layer tp full).
  assert (Hlayer : pu_layer p = layer). { unfold p, pushed_packet, wrap_int8. simpl. rewrite Z.mod_small; lia. }
  assert (Hcodec : pu_codec p = tp_codecBytes tp) by apply take_app_length.
  assert (Hrec : recorded p (translated c pkt tp full)).
  { unfold recorded. rewrite Hlayer, Hcodec. change (pu_in p) with (ic_SN pkt). change (pu_codec_in p) with (Z.of_nat (tp_incomingHeaderSize tp)).
    rewrite <- Hsrc, Nat2Z.id. split_and!; try done; try lia. apply extension_twice. }
  exists (let d := enqueue (translated c pkt tp full) (match dt_sequencer d with Some s => set_sequencer (push p s) d | None => d end) in
          if ic_IsKeyFrame pkt then set_throttled false d else d), (log ++ [p]).
  split; [done|]. assert (Hd : forall d', dt_sequencer d' = (match dt_sequencer d with Some s => Some (push p s) | None => None end) ->
    dt_sent d' = dt_sent d ++ [translated c pkt tp full] -> d_inv d' (log ++ [p]) /\ exists new, dt_sent d' = dt_sent d ++ new /\ Forall original new).
  { intros d' E1 E2. split; [|exists [translated c pkt tp full]; split; [done|by apply Forall_singleton]]. split.
    - intros s'. rewrite E1. destruct (dt_sequencer d) as [s|] eqn:E; [|done]. intros [= <-]. apply push_ok; [by apply Hs|by apply Hpush].
    - intros p'. rewrite E2. intros [Hp'|Hp']%elem_of_app.
      + destruct (Hl p' Hp') as (q & ? & ?). exists q. split; [apply elem_of_app; by left|done].
      + apply list_elem_of_singleton in Hp' as ->. eexists. split; [|exact Hrec]. apply elem_of_app. right. by apply list_elem_of_singleton. }
  destruct (ic_IsKeyFrame pkt); apply Hd; simpl; by destruct (dt_sequencer d) eqn:E; simpl; rewrite ?E.
Qed.

Lemma retransmit_sends pool epm bytes isProbe p q d : length pool = pool_size -> records (em_meta epm) p ->
  stored_bytes (ddBytes (em_meta epm)) = pu_dd p -> recorded p q -> unmarshal bytes = Some (src (pu_layer p) (pu_in p)) ->
  exists n d', retransmitPacket c unmarshal header_size pool epm bytes isProbe d = Some (n, d') /\
    sends (fun r => sp_IsProbe r = isProbe /\ sp_IsRTX r = negb isProbe /\ again q r) d d'.
Proof.
  intros Hpool (R1 & R2 & R3 & R4 & R5 & R6 & R7 & R8 & R9) Hdd (_ & Hin & Hn & Hfit & Hext & ->) Hun.
  unfold retransmitPacket. rewrite Hun. rewrite Z.mod_small in R7 by lia.
  pose proof (resend_payload_spec pool (if on_rtx c then 2 else 0) (em_meta epm) (so_Payload (src (pu_layer p) (pu_in p))) (pu_codec p)) as E.
  simpl in E. rewrite R7 in E. rewrite E; [|by destruct (on_rtx c); auto|done|done|destruct (on_rtx c); lia]. simpl. eexists _, _. split; [done|]. apply sends_enqueue; [by destruct (on_rtx c)..|]. split; [done|]. split; [done|].
  unfold again, resent_packet, osn. simpl. rewrite R2, R3, R4, R9, Hdd, Hext.
  by destruct (on_rtx c).
Qed.

(** A packet that may be sent again. *)
Definition resendable (sent : list Packet) (P : Packet -> Prop) (epm : extPacketMeta) : Prop :=
  exists p q, records (em_meta epm) p /\ stored_bytes (ddBytes (em_meta epm)) = pu_dd p /\ recorded p q /\ q ∈ sent /\ P q.

Lemma resendable_layer sent P epm : resendable sent P epm -> 0 <= pm_layer (em_meta epm) <= 2.
Proof. intros (p & q & (_ & _ & _ & _ & R5 & _) & _ & (Hl & _) & _). by rewrite R5. Qed.

Lemma resendable_answer s d log em : d_inv d log -> (exists p, p ∈ log /\ answers em p s) ->
  resendable (dt_sent d) (fun q => original q /\ sp_SN q = em_extSequenceNumber em mod 2 ^ 16) em.
Proof.
  intros [_ Hl] (p & Hp & Hn & Hr & _ & Hdd & _). destruct (Hl p Hp) as (q & Hq & Hrec). exists p, q.
  split; [done|]. split; [done|]. split; [done|]. split; [done|]. destruct Hrec as (_ & _ & _ & _ & _ & ->). split; [done|]. simpl. by rewrite Hn.
Qed.

(** One that is read is sent. *)
Lemma read_sends pool epm bytes isProbe sent P d : reads_source -> length pool = pool_size -> resendable sent P epm ->
  ReadRTP (pm_layer (em_meta epm) mod 256) (sourceSeqNo (em_meta epm)) = ReadPacket bytes ->
  exists n d', retransmitPacket c unmarshal header_size pool epm bytes isProbe d = Some (n, d') /\
    sends (fun r => sp_IsProbe r = isProbe /\ sp_IsRTX r = negb isProbe /\ exists q, q ∈ sent /\ P q /\ again q r) d d'.
Proof.
  intros Hsrc Hpool Hres Hread. pose proof (resendable_layer _ _ _ Hres) as Hlayer. rewrite Z.mod_small in Hread by lia.
  destruct Hres as (p & q & Hr & Hdd & Hrec & Hq & HP). apply Hsrc in Hread; [|done].
  destruct (retransmit_sends pool epm bytes isProbe p q d Hpool Hr Hdd Hrec) as (n & d' & E & Hd).
  { rewrite Hread. destruct Hr as (-> & _ & _ & _ & -> & _). done. }
  exists n, d'. split; [done|]. destruct Hd as [E1 (new & E2 & F)]. split; [done|]. exists new. split; [done|].
  eapply Forall_impl; [exact F|]. intros r (? & ? & ?). eauto 6.
Qed.

Lemma resend_all_sends pool disallowed sent P metas d : reads_source -> length pool = pool_size -> length disallowed = 3%nat ->
  Forall (resendable sent P) metas ->
  exists d', resend_all c ReadRTP unmarshal header_size pool disallowed metas d = Some d' /\
    sends (fun r => sp_IsProbe r = false /\ sp_IsRTX r = true /\ exists q, q ∈ sent /\ P q /\ again q r) d d'.
Proof.
  intros Hsrc Hpool Hdis Hall. revert d. induction Hall as [|epm metas Hres _ IH]; intros d; simpl; [eexists; split; [done|apply sends_none]|].
  pose proof (resendable_layer _ _ _ Hres) as Hlayer. rewrite (proj2 (Z.ltb_ge _ _)) by lia.
  destruct (lookup_lt_is_Some_2 disallowed (Z.to_nat (pm_layer (em_meta epm)))) as [no ->]; [lia|]. simpl. destruct no; [apply IH|].
  destruct (ReadRTP _ _) as [bytes| |] eqn:Hread; [|apply IH|eexists; split; [done|apply sends_none]].
  destruct (read_sends pool epm bytes false sent P d Hsrc Hpool Hres Hread) as (n & d1 & -> & H1). simpl.
  destruct (IH d1) as (d' & -> & H2). exists d'. split; [done|]. by eapply sends_trans.
Qed.

Lemma probe_all_sends pool n k esns s d0 d log : reads_source -> length pool = pool_size -> d_inv d0 log -> seq_ok (s, log) ->
  Forall (fun e => 0 <= e < two63) esns ->
  exists d', probe_all c ReadRTP unmarshal header_size pool n k esns s d = Some d' /\
    sends (fun r => sp_IsProbe r = true /\ exists q, q ∈ dt_sent d0 /\ original q /\ again q r) d d'.
Proof.
  intros Hsrc Hpool Hinv Hok Hall. revert k d. induction Hall as [|e esns He _ IH]; intros k d; simpl; [eexists; split; [done|apply sends_none]|].
  destruct (lookupExtPacketMeta e s) as [epm|] eqn:El; [|apply IH].
  pose proof (resendable_answer s d0 log epm Hinv (lookup_ok _ _ _ _ Hok He El)) as Hres.
  destruct (ReadRTP _ _) as [bytes| |] eqn:Hread; [|apply IH|eexists; split; [done|apply sends_none]].
  destruct (read_sends pool epm bytes true _ _ d Hsrc Hpool Hres Hread) as (m & d1 & -> & H1). simpl.
  assert (H1' : sends (fun r => sp_IsProbe r = true /\ exists q, q ∈ dt_sent d0 /\ original q /\ again q r) d d1).
  { destruct H1 as [E1 (new & E2 & F)]. split; [done|]. exists new. split; [done|].
    eapply Forall_impl; [exact F|]. intros r (? & _ & q & ? & [? _] & ?). eauto 6. }
  destruct (_ <=? _); [by exists d1|]. destruct (IH (k + Z.of_nat m) d1) as (d' & -> & H2). exists d'. split; [done|]. by eapply sends_trans.
Qed.

Lemma nacks_sends pool filter now nacks d log : reads_source -> d_inv d log -> d_allowed (DNacks pool filter now nacks) d ->
  exists d' d0, retransmitPackets c ReadRTP unmarshal header_size pool filter now nacks d = Some d' /\ d_inv d0 log /\ dt_sent d0 = dt_sent d /\
    sends (fun r => sp_IsProbe r = false /\ sp_IsRTX r = true /\ exists q, q ∈ dt_sent d /\ (original q /\ sp_SN q ∈ nacks) /\ again q r) d0 d'.
Proof.
  intros Hsrc Hinv (Hpool & Hrange & Hsub & Hdis). pose proof Hinv as [Hs Hl].
  assert (Hnone : forall d', d' = d -> exists d0 d1, Some d' = Some d0 /\ d_inv d1 log /\ dt_sent d1 = dt_sent d /\
    sends (fun r => sp_IsProbe r = false /\ sp_IsRTX r = true /\ exists q, q ∈ dt_sent d /\ (original q /\ sp_SN q ∈ nacks) /\ again q r) d1 d0).
  { intros ? ->. exists d, d. split_and!; try done. apply sends_none. }
  unfold retransmitPackets. destruct (dt_sequencer d) as [s|] eqn:E; [|by apply Hnone].
  destruct (dt_isNACKThrottled d); [by apply Hnone|]. destruct (filter nacks) as [filtered disallowed]. simpl in Hsub, Hdis.
  destruct (length filtered =? 0)%nat; [by apply Hnone|]. unfold getExtPacketMetas.
  destruct (initialized s) eqn:Ei; simpl; [|exists (set_sequencer s d), (set_sequencer s d); split; [done|split; [split; [intros ? [= <-]; by apply Hs|done]|split; [done|apply sends_none]]]].
  pose proof (get_metas_ok (getRefTime now s) filtered s log (Hs s eq_refl) Ei) as Hm. destruct (get_metas _ _ _) as [metas s'].
  destruct Hm as [Hok Hm]. { rewrite Forall_forall in Hrange |- *. intros x Hx. by apply Hrange, Hsub. }
  set (d0 := set_sequencer s' d). destruct (resend_all_sends pool disallowed (dt_sent d) (fun q => original q /\ sp_SN q ∈ nacks) metas d0) as (d' & -> & H); try done.
  { apply Forall_forall. intros em Hem. destruct (Hm em Hem) as [Hp Hin].
    destruct (resendable_answer s d log em Hinv Hp) as (p & q & ? & ? & ? & ? & Ho & Eq). exists p, q. split; [done|]. split; [done|]. split; [done|]. split; [done|]. split; [done|]. rewrite Eq. by apply Hsub. }
  exists d', d0. split; [done|]. split; [split; [by intros ? [= <-]|done]|done].
Qed.

Lemma padding_sends idle onMute n snts d log : d_inv d log -> padding_allowed n snts d ->
  exists d' d0, WritePaddingRTP c idle onMute n snts d = Some d' /\ d_inv d0 log /\ dt_sent d0 = dt_sent d /\ sends is_padding d0 d'.
Proof.
  intros Hinv Ha. assert (Hnone : forall d', d' = d -> exists d0 d1, Some d' = Some d0 /\ d_inv d1 log /\ dt_sent d1 = dt_sent d /\ sends is_padding d1 d0).
  { intros ? ->. exists d, d. split_and!; try done. apply sends_none. }
  unfold WritePaddingRTP. destruct (negb _); [by apply Hnone|]. destruct (_ && idle); [by apply Hnone|]. destruct (_ =? 0); [by apply Hnone|].
  destruct (snts _) as [l|] eqn:El; [|by apply Hnone].
  assert (Hp : Forall is_padding (map (fun v => padding_packet (dp_ssrc c) (dp_payloadType c) (st_SN v) (st_TS v)) l)).
  { apply Forall_map, Forall_true. done. }
  destruct (dt_sequencer d) as [s|] eqn:E; [|by exists (enqueue_all (map (fun v => padding_packet (dp_ssrc c) (dp_payloadType c) (st_SN v) (st_TS v)) l) d), d; split_and!; try done; apply sends_all].
  destruct (Ha s l E El) as (first & final & -> & -> & Hal). simpl. destruct Hinv as [Hs Hl].
  destruct (padding_seq_ok _ _ s log (Hs s E) Hal) as (s' & -> & Hok). simpl.
  eexists _, (set_sequencer s' d). split_and!; [done| |done|by apply sends_all]. split; [|done]. by intros ? [= <-].
Qed.

Lemma rtx_padding_sends n d : sends is_padding d (rtx_padding c n d).
Proof.
  revert d. induction n as [|n IH]; intros d; [apply sends_none|]. simpl. eapply sends_trans; [|apply IH]. by apply sends_enqueue.
Qed.

Lemma probe_numbers_range highest : 0 <= highest < two63 -> Forall (fun e => 0 <= e < two63) (probe_numbers highest).
Proof.
  intros H. unfold probe_numbers. destruct (Z.leb_spec (wrap_uint64 (highest - 5)) highest) as [Hle|]; [|done].
  destruct (Z.lt_ge_cases highest 5) as [Hlt|Hge].
  - exfalso. assert (E : wrap_uint64 (highest - 5) = highest - 5 + two64); [|unfold two63, two64 in *; lia].
    unfold wrap_uint64. rewrite <- (Z.mod_small (highest - 5 + two64) two64) by (unfold two63, two64 in *; lia).
    replace (highest - 5 + two64) with (highest - 5 + 1 * two64) by lia. symmetry. apply Z_mod_plus_full.
  - rewrite wrap_uint64_small by (unfold two63, two64 in *; lia). repeat constructor; lia.
Qed.

(** What a step may send. *)
Definition sent_by (e : devent) (d : DownTrack) (r : Packet) : Prop :=
  match e with
  | DWrite _ _ _ _ => original r
  | DPad _ _ _ _ => is_padding r
  | DNacks _ _ _ nacks => sp_IsProbe r = false /\ sp_IsRTX r = true /\ exists q, q ∈ dt_sent d /\ (original q /\ sp_SN q ∈ nacks) /\ again q r
  | DProbe _ _ _ _ _ _ _ => is_padding r \/ (sp_IsProbe r = true /\ exists q, q ∈ dt_sent d /\ original q /\ again q r)
  | DPli | DRtt _ => False
  end.

Lemma sends_impl (P Q : Packet -> Prop) d0 d d' : sends P d0 d' -> dt_sent d0 = dt_sent d -> (forall r, P r -> Q r) ->
  exists new, dt_sent d' = dt_sent d ++ new /\ Forall Q new.
Proof. intros [_ (new & E & F)] E0 H. exists new. rewrite E, E0. split; [done|]. by eapply Forall_impl. Qed.

Lemma probe_sends pool idle quiet n usePadding snts highest d log : reads_source -> d_inv d log ->
  let e := DProbe pool idle quiet n usePadding snts highest in d_allowed e d ->
  exists d', dstep e d = Some d' /\ d_inv d' log /\ exists new, dt_sent d' = dt_sent d ++ new /\ Forall (sent_by e d) new.
Proof.
  intros Hsrc Hinv e (Hpool & Hpad & Hn & Hh). simpl. unfold WriteProbePackets.
  assert (Hnone : exists d', Some d = Some d' /\ d_inv d' log /\ exists new, dt_sent d' = dt_sent d ++ new /\ Forall (sent_by e d) new).
  { exists d. split_and!; try done. exists []. by rewrite app_nil_r. }
  destruct (negb (on_rtx c)).
  { destruct (padding_sends idle false n snts d log Hinv Hpad) as (d' & d0 & -> & H0 & E & H). exists d'. split; [done|].
    split; [by eapply sends_inv|]. eapply sends_impl; [exact H|done|]. simpl. tauto. }
  destruct (dt_sequencer d) as [s|] eqn:E; [|done]. destruct (_ || quiet); [done|]. destruct usePadding.
  - rewrite (proj2 (Z.ltb_ge _ 0)); [|apply Z.quot_pos; [unfold RTPPaddingMaxPayloadSize, RTPPaddingEstimatedHeaderSize; lia|done]].
    eexists. split; [done|]. pose proof (rtx_padding_sends (Z.to_nat (padding_count n)) d) as H. split; [by eapply sends_inv|].
    eapply sends_impl; [exact H|done|]. simpl. tauto.
  - destruct (probe_all_sends pool n 0 (probe_numbers highest) s d d log Hsrc Hpool Hinv (proj1 Hinv s E) (probe_numbers_range _ Hh)) as (d' & -> & H).
    exists d'. split; [done|]. split; [by eapply sends_inv|]. eapply sends_impl; [exact H|done|]. simpl. tauto.
Qed.

Lemma rtt_seq_ok rtt s log : seq_ok (s, log) -> seq_ok (setRTT rtt s, log).
Proof.
  intros [H1 H2 H3]. split; simpl in *; try done.
  destruct (initialized s); [destruct H3 as [A1 A2 A3 A4 A5 A6]; by split|destruct H3 as [A1 A2 A3 A4 A5]; by split].
Qed.

Lemma step_sends e d log : reads_source -> d_inv d log -> d_allowed e d ->
  exists d' log', dstep e d = Some d' /\ d_inv d' log' /\ exists new, dt_sent d' = dt_sent d ++ new /\ Forall (sent_by e d) new.
Proof.
  intros Hsrc Hinv Ha. assert (Hnone : exists new, dt_sent d = dt_sent d ++ new /\ Forall (fun _ => False) new) by (exists []; by rewrite app_nil_r).
  destruct e as [pool pkt layer tp|idle onMute n snts|pool filter now nacks|pool idle quiet n up snts highest| |rtt].
  - by apply (write_sends pool pkt layer tp d log).
  - destruct (padding_sends idle onMute n snts d log Hinv Ha) as (d' & d0 & E & H0 & E0 & H). exists d', log. split; [done|].
    split; [by eapply sends_inv|]. by eapply sends_impl.
  - destruct (nacks_sends pool filter now nacks d log Hsrc Hinv Ha) as (d' & d0 & E & H0 & E0 & H). exists d', log. split; [done|].
    split; [by eapply sends_inv|]. by eapply sends_impl.
  - destruct (probe_sends pool idle quiet n up snts highest d log Hsrc Hinv Ha) as (d' & E & H). by exists d', log.
  - exists (set_throttled true d), log. split; [done|]. by split.
  - eexists _, log. split; [done|]. destruct Hinv as [Hs Hl]. destruct (dt_sequencer d) as [s|] eqn:E.
    + destruct (rtt =? 0); (split; [split; [|done]|done]); [by rewrite E|]. intros ? [= <-]. by apply rtt_seq_ok, Hs.
    + split; [split; [|done]|done]. by rewrite E.
Qed.

End runs.

End DownTrack.
Export DownTrack.

(** C27: what is sent again is what was sent. Whatever is written, padded,
    probed, lost and asked for in between - where the receiver answers with the
    packet of the source it is asked for or not at all, and a translated packet
    leaves two bytes of the buffer - no step panics, and a request for
    retransmission adds only copies of packets that were sent under the numbers
    asked for: on the retransmission stream the number of the original comes
    before its payload, else the packet has that number itself; payload,
    timestamp, marker, descriptor and capture time are those of the original.
    The same holds of the packets that are sent again to probe; all else that
    is sent to probe is padding. *)
Theorem retransmitted_as_sent c ReadRTP unmarshal header_size src now size sparse s0 d0 d :
  reads_source ReadRTP unmarshal src -> newSequencer now size sparse = Some s0 -> 1 <= size < two63 ->
  dt_sequencer d0 = Some s0 -> dt_sent d0 = [] -> dreach c ReadRTP unmarshal header_size src d0 d ->
  forall e, d_allowed c src e d -> exists d', dstep c ReadRTP unmarshal header_size e d = Some d' /\
    exists new, dt_sent d' = dt_sent d ++ new /\ Forall (sent_by c e d) new.
Proof.
  intros Hsrc Hnew Hsize Hs0 Hsent0 Hr. assert (Hinv : exists log, d_inv c src d log).
  { induction Hr as [|d e d' _ IH Ha E].
    - exists []. split; [|by intros ? ?%elem_of_nil]. rewrite Hs0. intros ? [= <-]. by eapply new_seq_ok.
    - destruct IH as (log & IH). destruct (step_sends c ReadRTP unmarshal header_size src e d log Hsrc IH Ha) as (d1 & log' & E1 & H & _).
      exists log'. congruence. }
  destruct Hinv as (log & Hinv). intros e Ha.
  destruct (step_sends c ReadRTP unmarshal header_size src e d log Hsrc Hinv Ha) as (d' & _ & E & _ & H). by exists d'.
Qed.

Definition sample_params : Params := mkParams 1111 2222 97 96 false 0 0 5 0 true.
Definition sample_src (layer sn : Z) : Source := mkSource 96 false [144; 128; 1; sn mod 256; layer].
Definition sample_read (layer sn : Z) : read_result := if sn =? 101 then ReadMissing else ReadPacket [layer; sn].
Definition sample_parse (bytes : list Z) : option Source :=
  match bytes with [layer; sn] => Some (sample_src layer sn) | _ => None end.
Definition sample_pool : list Z := replicate pool_size 7.
Definition sample_write (sn target : Z) : devent :=
  DWrite sample_pool (mkIncoming 1000000000 sn (sn =? 100) (sample_src 1 sn) []) 1
    (Some (mkTP (mkTpRTP Contiguous target (target * 3000)) (Some [9; 8]) 3 [144; 129; 0; 5] true)).
Definition sample_filter (nacks : list Z) : list Z * list bool := (nacks, [false; false; true]).
Definition sample_nacks (now : Z) : devent := DNacks sample_pool sample_filter now [400; 401; 403].
Definition sample_snts (n : Z) : option (list SnTs) := Some [mkSnTs 402 1206000; mkSnTs 403 1206000].
Definition sample_start (s : sequencer) : DownTrack := mkDownTrack true (Some s) 0 false [].

Lemma sample_reads : reads_source sample_read sample_parse sample_src.
Proof. intros layer sn bytes _. unfold sample_read. destruct (sn =? 101); [done|]. by intros [= <-]. Qed.

Lemma sample_write_allowed sn target d :
  match dt_sequencer d with Some s => s_allowedb (SPush (sample_push target)) s = true | None => True end -> 0 <= target * 3000 < two63 ->
  d_allowed sample_params sample_src (sample_write sn target) d.
Proof.
  intros Hs Ht. split; [done|]. intros t [= <-]. split; [lia|]. split; [done|]. split; [split_and!; simpl; unfold pool_size; lia|].
  intros s full E. rewrite E in Hs. apply s_allowedb_allowed in Hs as (H1 & _ & H3). by split.
Qed.

(** What is sent in answer, as number, timestamp and payload: one packet is
    found, one the receiver has no more, and one was padding. *)
Definition sample_answer (d : DownTrack) : option (list (Z * Z * list Z)) :=
  d' ← dstep sample_params sample_read sample_parse (fun _ => 20%nat) (sample_nacks 2000000000) d;
  Some (map (fun p => (sp_SN p, sp_TS p, sp_Payload p)) (drop (length (dt_sent d)) (dt_sent d'))).

Definition sample_events : list devent := [sample_write 100 400; sample_write 101 401; DPad false false 500 sample_snts].
Fixpoint sample_run (es : list devent) (d : DownTrack) : option DownTrack :=
  match es with [] => Some d | e :: es => d ← dstep sample_params sample_read sample_parse (fun _ => 20%nat) e d; sample_run es d end.
Definition sample_seq : sequencer := default (mkSeq 0 0 false 0 0 0 0 [] None 0) (newSequencer 0 8 true).
Definition sample_state (n : nat) : DownTrack := default (sample_start sample_seq) (sample_run (take n sample_events) (sample_start sample_seq)).

Lemma sample_reached : dreach sample_params sample_read sample_parse (fun _ => 20%nat) sample_src (sample_start sample_seq) (sample_state 3).
Proof.
  apply (dreach_step _ _ _ _ _ _ (sample_state 2) (DPad false false 500 sample_snts)); [| |vm_compute; reflexivity].
  - apply (dreach_step _ _ _ _ _ _ (sample_state 1) (sample_write 101 401)); [| |vm_compute; reflexivity].
    + apply (dreach_step _ _ _ _ _ _ (sample_state 0) (sample_write 100 400)); [apply dreach_refl| |vm_compute; reflexivity].
      apply sample_write_allowed; [vm_compute; reflexivity|unfold two63; lia].
    + apply sample_write_allowed; [vm_compute; reflexivity|unfold two63; lia].
  - intros s l E [= <-]. do 2 eexists. split; [done|]. split; [done|]. apply s_allowedb_allowed.
    revert E. vm_compute. intros [= <-]. reflexivity.
Qed.

Lemma retransmitted_as_sent_witness : sample_answer (sample_state 3) = Some [(1, 1200000, [1; 144; 144; 129; 0; 5; 100; 1])] /\
  exists d', dstep sample_params sample_read sample_parse (fun _ => 20%nat) (sample_nacks 2000000000) (sample_state 3) = Some d' /\
    exists new, dt_sent d' = dt_sent (sample_state 3) ++ new /\ Forall (sent_by sample_params (sample_nacks 2000000000) (sample_state 3)) new.
Proof.
  split; [vm_compute; reflexivity|].
  apply (retransmitted_as_sent sample_params sample_read sample_parse (fun _ => 20%nat) sample_src 0 8 true sample_seq (sample_start sample_seq));
    [apply sample_reads|vm_compute; reflexivity|unfold two63; lia|reflexivity|reflexivity|apply sample_reached|].
  split; [reflexivity|]. split; [repeat constructor; lia|]. split; [simpl; intros x Hx; exact Hx|reflexivity].
Defined.
