(* ===== verification/Layers.v ===== *)
(** * Which layers a subscriber gets

    Model of pkg/sfu/buffer/videolayer.go and pkg/sfu/videolayerselector of the
    media server: spatial and temporal layers, and the selectors that decide per
    packet whether it is of the layers a subscriber is to get, and switch layers
    where a decoder can follow. The selector for dependency descriptors is an
    interface ([DependencySelector]). Layers are [int32], far from its ends. *)

From S2P Require Import Prelude Vp8 Sps.
#[local] Open Scope Z_scope.

Module Layers.

Definition InvalidLayerTemporal : Z := -1.
Definition DefaultMaxLayerSpatial : Z := 2.
Definition DefaultMaxLayerTemporal : Z := 3.
Definition InvalidLayer : VideoLayer := mkLayer InvalidLayerSpatial InvalidLayerTemporal.

#[export] Instance layer_eq_dec : EqDecision VideoLayer.
Proof. solve_decision. Defined.

Definition layer_eqb (a b : VideoLayer) : bool := bool_decide (a = b).
Definition GreaterThan (v v2 : VideoLayer) : bool :=
  (ly_Spatial v2 <? ly_Spatial v) || ((ly_Spatial v =? ly_Spatial v2) && (ly_Temporal v2 <? ly_Temporal v)).
Definition IsValid (v : VideoLayer) : bool :=
  negb (ly_Spatial v =? InvalidLayerSpatial) && negb (ly_Temporal v =? InvalidLayerTemporal).
Definition set_Spatial (s : Z) (v : VideoLayer) : VideoLayer := mkLayer s (ly_Temporal v).
Definition set_Temporal (t : Z) (v : VideoLayer) : VideoLayer := mkLayer (ly_Spatial v) t.

(** The fields of the VP9 descriptor a selector looks at. *)
Record VP9Flags := mkVP9Flags { v9_U : bool; v9_B : bool; v9_E : bool; v9_P : bool }.

(** A packet of a source, with what the selectors look at. *)
Record XPacket := mkXPacket {
  xp_pkt : ExtPacket; xp_Spatial : Z; xp_Marker : bool; xp_Timestamp : Z; xp_vp9 : option VP9Flags; xp_has_dd : bool }.
Definition xp_VideoLayer (p : XPacket) : VideoLayer := mkLayer (xp_Spatial p) (ep_Temporal (xp_pkt p)).

(** ** The base of all selectors *)

(** Of the temporal selectors only that of VP8 is ever set. *)
Inductive TemporalLayerSelector := TemporalVP8.

Record Base := mkBase {
  bs_tls : option TemporalLayerSelector; maxLayer : VideoLayer; maxSeenLayer : VideoLayer;
  targetLayer : VideoLayer; previousTargetLayer : VideoLayer; requestSpatial : Z;
  currentLayer : VideoLayer; previousLayer : VideoLayer }.

Definition NewBase : Base :=
  mkBase None InvalidLayer InvalidLayer InvalidLayer InvalidLayer InvalidLayerSpatial InvalidLayer InvalidLayer.

Definition SetTemporalLayerSelector (t : TemporalLayerSelector) (b : Base) : Base :=
  mkBase (Some t) (maxLayer b) (maxSeenLayer b) (targetLayer b) (previousTargetLayer b) (requestSpatial b) (currentLayer b) (previousLayer b).
Definition SetMax (l : VideoLayer) (b : Base) : Base :=
  mkBase (bs_tls b) l (maxSeenLayer b) (targetLayer b) (previousTargetLayer b) (requestSpatial b) (currentLayer b) (previousLayer b).
Definition SetMaxSpatial (s : Z) (b : Base) : Base := SetMax (set_Spatial s (maxLayer b)) b.
Definition SetMaxTemporal (t : Z) (b : Base) : Base := SetMax (set_Temporal t (maxLayer b)) b.
Definition SetMaxSeen (l : VideoLayer) (b : Base) : Base :=
  mkBase (bs_tls b) (maxLayer b) l (targetLayer b) (previousTargetLayer b) (requestSpatial b) (currentLayer b) (previousLayer b).
Definition SetMaxSeenSpatial (s : Z) (b : Base) : Base := SetMaxSeen (set_Spatial s (maxSeenLayer b)) b.
Definition SetMaxSeenTemporal (t : Z) (b : Base) : Base := SetMaxSeen (set_Temporal t (maxSeenLayer b)) b.
Definition set_target (target previous : VideoLayer) (b : Base) : Base :=
  mkBase (bs_tls b) (maxLayer b) (maxSeenLayer b) target previous (requestSpatial b) (currentLayer b) (previousLayer b).
(** The previous target is the new one too. *)
Definition SetTarget (l : VideoLayer) (b : Base) : Base := set_target l l b.
Definition SetRequestSpatial (s : Z) (b : Base) : Base :=
  mkBase (bs_tls b) (maxLayer b) (maxSeenLayer b) (targetLayer b) (previousTargetLayer b) s (currentLayer b) (previousLayer b).
Definition set_current (current previous : VideoLayer) (b : Base) : Base :=
  mkBase (bs_tls b) (maxLayer b) (maxSeenLayer b) (targetLayer b) (previousTargetLayer b) (requestSpatial b) current previous.
Definition SetCurrent (l : VideoLayer) (b : Base) : Base := set_current l (previousLayer b) b.
Definition CheckSync (b : Base) : bool * Z := (requestSpatial b =? ly_Spatial (currentLayer b), requestSpatial b).

Definition Rollback (b : Base) : Base :=
  set_target (previousTargetLayer b) (previousTargetLayer b) (set_current (previousLayer b) (previousLayer b) b).

(** [this], the layer of the packet at hand, and [next]. *)
Definition SelectVP8 (p : XPacket) (current target : Z) : Z * Z :=
  if current =? target then (current, current) else
  match ep_vp8 (xp_pkt p) with
  | None => (current, current)
  | Some vp8 =>
      let tid := ep_Temporal (xp_pkt p) in
      if current <? target
      then if (current <? tid) && (tid <=? target) && bitS vp8 then (tid, tid) else (current, current)
      else if xp_Marker p then (current, target) else (current, current)
  end.

Definition SelectTemporal (p : XPacket) (b : Base) : Z * Base :=
  match bs_tls b with
  | Some TemporalVP8 =>
      let '(this, next) := SelectVP8 p (ly_Temporal (currentLayer b)) (ly_Temporal (targetLayer b)) in
      (this, if next =? ly_Temporal (currentLayer b) then b else SetCurrent (set_Temporal next (currentLayer b)) b)
  | None => (ly_Temporal (currentLayer b), b)
  end.

Record Result := mkResult {
  IsSelected : bool; IsRelevant : bool; IsSwitching : bool; IsResuming : bool; RTPMarker : bool; DescriptorExtension : option (list Z) }.
Definition not_selected : Result := mkResult false false false false false None.

(** ** Simulcast *)

(** What is current is also the target when it is as high as is wanted or seen. *)
Definition settle (layer : Z) (b : Base) : Base :=
  let top := (ly_Spatial (maxLayer b) <=? ly_Spatial (currentLayer b)) || (ly_Spatial (currentLayer b) =? ly_Spatial (maxSeenLayer b)) in
  set_target (if top then set_Spatial layer (targetLayer b) else targetLayer b) (targetLayer b) b.

(** A key frame of a layer on the way to the target. *)
Definition towards (key : bool) (layer : Z) (b : Base) : bool :=
  key &&
  (((ly_Spatial (currentLayer b) <? layer) && (layer <=? ly_Spatial (targetLayer b))) ||
   ((layer <? ly_Spatial (currentLayer b)) && (ly_Spatial (targetLayer b) <=? layer))).

Definition SelectSimulcast (p : XPacket) (layer : Z) (b : Base) : Result * Base :=
  let key := ep_IsKeyFrame (xp_pkt p) in
  let '(switching, resuming, b) :=
    if negb (ly_Spatial (currentLayer b) =? ly_Spatial (targetLayer b)) && towards key layer b then
      (true, negb (IsValid (currentLayer b)),
       settle layer (set_current (mkLayer layer (ep_Temporal (xp_pkt p))) (currentLayer b) b))
    else (false, false, b) in
  let '(switching, b) :=
    if (ly_Spatial (maxLayer b) <? ly_Spatial (currentLayer b)) && (layer <=? ly_Spatial (maxLayer b)) && key then
      (true, settle layer (set_current (set_Spatial layer (currentLayer b)) (currentLayer b) b))
    else (switching, b) in
  (mkResult (layer =? ly_Spatial (currentLayer b)) false switching resuming (xp_Marker p) None, b).

(** ** VP9 without descriptors *)

(** The layer the packet is judged by, and the one that is current after it. *)
Definition vp9_layers (p : XPacket) (v9 : VP9Flags) (b : Base) : option (VideoLayer * VideoLayer) :=
  let current := currentLayer b in let target := targetLayer b in
  if layer_eqb current target then Some (current, current) else
  if negb (IsValid current) then if negb (ep_IsKeyFrame (xp_pkt p)) then None else Some (current, xp_VideoLayer p) else
  let t := ep_Temporal (xp_pkt p) in let s := xp_Spatial p in
  let '(now, next) :=
    if ly_Temporal current =? ly_Temporal target then (current, current) else
    if ly_Temporal current <? ly_Temporal target then
      if (ly_Temporal current <? t) && (t <=? ly_Temporal target) && v9_U v9 && v9_B v9
      then (set_Temporal t current, set_Temporal t current) else (current, current)
    else if v9_E v9 then (current, set_Temporal (ly_Temporal target) current) else (current, current) in
  Some (
    if ly_Spatial current =? ly_Spatial target then (now, next) else
    if ly_Spatial current <? ly_Spatial target then
      if (ly_Spatial current <? s) && (s <=? ly_Spatial target) && negb (v9_P v9) && v9_B v9
      then (set_Spatial s now, set_Spatial s next) else (now, next)
    else if v9_E v9 then (now, set_Spatial (ly_Spatial target) next) else (now, next)).

Definition SelectVP9 (p : XPacket) (b : Base) : Result * Base :=
  match xp_vp9 p with
  | None => (not_selected, b)
  | Some v9 =>
      match vp9_layers p v9 b with
      | None => (not_selected, b)
      | Some (now, next) =>
          let switching := negb (layer_eqb next (currentLayer b)) in
          let resuming := switching && negb (IsValid (currentLayer b)) && IsValid next in
          let b := if switching then set_current next (currentLayer b) b else b in
          let marker := xp_Marker p || (v9_E v9 && (xp_Spatial p =? ly_Spatial now) &&
                          (v9_P v9 || (ly_Spatial (targetLayer b) <=? ly_Spatial (currentLayer b)))) in
          (mkResult (negb (GreaterThan (xp_VideoLayer p) now)) true switching resuming marker None, b)
      end
  end.

(** ** All selectors *)

(** What the selector for dependency descriptors does with the base and its own
    state [D], as simulcast. *)
Class DependencySelector (D : Type) := {
  dd_select : XPacket -> Z -> Base -> D -> Result * Base * D;
  dd_rollback : Base -> D -> Base * D;
  dd_new : D }.

Inductive VideoLayerSelector (D : Type) :=
  | VNull (b : Base) | VSimulcast (b : Base) | VVP9 (b : Base) | VDependencyDescriptor (b : Base) (d : D).
#[global] Arguments VNull {D}. #[global] Arguments VSimulcast {D}. #[global] Arguments VVP9 {D}. #[global] Arguments VDependencyDescriptor {D}.

Section selectors.
Context {D : Type} `{!DependencySelector D}.

Definition getBase (v : VideoLayerSelector D) : Base :=
  match v with VNull b | VSimulcast b | VVP9 b | VDependencyDescriptor b _ => b end.
Definition on_base (f : Base -> Base) (v : VideoLayerSelector D) : VideoLayerSelector D :=
  match v with
  | VNull b => VNull (f b) | VSimulcast b => VSimulcast (f b) | VVP9 b => VVP9 (f b)
  | VDependencyDescriptor b d => VDependencyDescriptor (f b) d
  end.
Definition IsOvershootOkay (v : VideoLayerSelector D) : bool := match v with VSimulcast _ => true | _ => false end.
Definition NewSimulcastFromOther (v : VideoLayerSelector D) : VideoLayerSelector D := VSimulcast (getBase v).
Definition NewVP9FromOther (v : VideoLayerSelector D) : VideoLayerSelector D := VVP9 (getBase v).
Definition NewDependencyDescriptorFromOther (v : VideoLayerSelector D) : VideoLayerSelector D := VDependencyDescriptor (getBase v) dd_new.

Definition Select (p : XPacket) (layer : Z) (v : VideoLayerSelector D) : Result * VideoLayerSelector D :=
  match v with
  | VNull b => (not_selected, VNull b)
  | VSimulcast b => let '(r, b) := SelectSimulcast p layer b in (r, VSimulcast b)
  | VVP9 b => let '(r, b) := SelectVP9 p b in (r, VVP9 b)
  | VDependencyDescriptor b d => let '(r, b, d) := dd_select p layer b d in (r, VDependencyDescriptor b d)
  end.

Definition RollbackAny (v : VideoLayerSelector D) : VideoLayerSelector D :=
  match v with
  | VDependencyDescriptor b d => let '(b, d) := dd_rollback b d in VDependencyDescriptor b d
  | _ => on_base Rollback v
  end.
Definition SelectTemporalAny (p : XPacket) (v : VideoLayerSelector D) : Z * VideoLayerSelector D :=
  let '(this, b) := SelectTemporal p (getBase v) in (this, on_base (fun _ => b) v).

End selectors.

(** The packet a VP9 stream without descriptors starts with is not selected: it is
    judged by the layer before the switch, which is none. *)
Lemma vp9_first_packet_lost p v9 b : xp_vp9 p = Some v9 -> currentLayer b = InvalidLayer -> targetLayer b <> InvalidLayer ->
  ep_IsKeyFrame (xp_pkt p) = true -> 0 <= xp_Spatial p ->
  IsSelected (fst (SelectVP9 p b)) = false /\ IsResuming (fst (SelectVP9 p b)) = IsValid (xp_VideoLayer p) /\
  currentLayer (snd (SelectVP9 p b)) = xp_VideoLayer p.
Proof.
  intros Hv Hc Ht Hk Hs. unfold SelectVP9, vp9_layers, layer_eqb. rewrite Hv, Hc, Hk. rewrite (bool_decide_eq_false_2 (InvalidLayer = _)) by congruence. simpl.
  rewrite (bool_decide_eq_false_2 (xp_VideoLayer p = _)) by (unfold xp_VideoLayer, InvalidLayer, InvalidLayerSpatial; intros [= E _]; lia). simpl.
  unfold GreaterThan. simpl. rewrite (proj2 (Z.ltb_lt _ _)) by (unfold InvalidLayerSpatial; lia). done.
Qed.

End Layers.
Export Layers.
