(* ===== verification/Forwarder.v ===== *)
(** * How much of a track a subscriber gets

    Model of the allocations of pkg/sfu/forwarder.go of the media server: which
    layers of a video are the target for one subscriber, given the bit rates of
    the layers and the bandwidth there is. The packet path of the same file is in
    Translation. Bit rates are bits per second, far below the 64 bits they are
    counted in; [None] is a panic (an index outside the table of bit rates). The
    distance to the layers wanted is kept as a fraction; dividing it as a
    [float64] keeps its order, the denominators being at most four. *)

From Stdlib Require Import SpecFloat.
From S2P Require Import Prelude RangeMap Vp8 RtpMunger Vp8Munger Sps Layers.
#[local] Open Scope Z_scope.

Module Forwarder.

Definition TransitionCostSpatial : Z := 10.

Inductive VideoPauseReason := PauseNone | PauseMuted | PausePubMuted | PauseFeedDry | PauseBandwidth.
#[export] Instance pause_eq_dec : EqDecision VideoPauseReason.
Proof. solve_decision. Defined.

(** By spatial layer, then by temporal layer. *)
Notation Bitrates := (list (list Z)).
Definition no_bitrates : Bitrates := replicate 3 (replicate 4 0).
Definition rate (brs : Bitrates) (l : VideoLayer) : option Z :=
  if (ly_Spatial l <? 0) || (ly_Temporal l <? 0) then None
  else row ← brs !! Z.to_nat (ly_Spatial l); row !! Z.to_nat (ly_Temporal l).

Record VideoAllocation := mkAllocation {
  PauseReason : VideoPauseReason; va_IsDeficient : bool; va_BandwidthRequested : Z; BandwidthDelta : Z; BandwidthNeeded : Z;
  va_Bitrates : Bitrates; TargetLayer : VideoLayer; RequestLayerSpatial : Z; va_MaxLayer : VideoLayer; va_Distance : Z * Z }.
Definition VideoAllocationDefault : VideoAllocation :=
  mkAllocation PauseFeedDry false 0 0 0 no_bitrates InvalidLayer InvalidLayerSpatial InvalidLayer (0, 1).

Record VideoAllocationProvisional := mkProvisional {
  vp_muted : bool; vp_pubMuted : bool; vp_maxSeenLayer : VideoLayer; vp_availableLayers : list Z; vp_bitrates : Bitrates;
  vp_maxLayer : VideoLayer; vp_currentLayer : VideoLayer; vp_allocatedLayer : VideoLayer }.
Definition set_allocated (l : VideoLayer) (p : VideoAllocationProvisional) : VideoAllocationProvisional :=
  mkProvisional (vp_muted p) (vp_pubMuted p) (vp_maxSeenLayer p) (vp_availableLayers p) (vp_bitrates p) (vp_maxLayer p) (vp_currentLayer p) l.

Record VideoTransition := mkTransition { tr_From : VideoLayer; tr_To : VideoLayer; tr_BandwidthDelta : Z }.

(** ** Going through the layers *)

Definition up (a b : Z) : list Z := map (fun i => a + Z.of_nat i) (seq 0 (Z.to_nat (b + 1 - a))).
Definition down (b : Z) : list Z := rev (up 0 b).
Definition layers (ss ts : list Z) : list VideoLayer := flat_map (fun s => map (mkLayer s) ts) ss.
#[global] Arguments layers : simpl never.
#[global] Arguments up : simpl never.
#[global] Arguments down : simpl never.

(** The first layer with a bit rate that will do. *)
Fixpoint first_such (ok : Z -> bool) (brs : Bitrates) (ls : list VideoLayer) : option (option (VideoLayer * Z)) :=
  match ls with
  | [] => Some None
  | l :: ls => r ← rate brs l; if ok r then Some (Some (l, r)) else first_such ok brs ls
  end.
Definition first_rate : Bitrates -> list VideoLayer -> option (option (VideoLayer * Z)) := first_such (fun r => negb (r =? 0)).

Definition getOptimalBandwidthNeeded (muted pubMuted : bool) (maxPublishedLayer : Z) (brs : Bitrates) (maxLayer : VideoLayer) : option Z :=
  if muted || pubMuted || (maxPublishedLayer =? InvalidLayerSpatial) then Some 0 else
  r ← first_rate brs (layers (down (ly_Spatial maxLayer)) (down (ly_Temporal maxLayer)));
  Some (match r with Some (_, r) => r | None => 0 end).

Definition getBandwidthNeeded (brs : Bitrates) (layer : VideoLayer) (fallback : Z) : option Z :=
  if negb (IsValid layer) then Some fallback else
  r ← rate brs layer; Some (if 0 <? r then r else fallback).

(** The highest layer with a bit rate, or that is said to be there: then with all temporal layers. *)
Definition max_available (brs : Bitrates) (availableLayers : list Z) (maxSeen : VideoLayer) : option (Z * Z) :=
  r ← first_rate brs (layers (down 2) (down 3));
  Some (foldl (fun '(s, t) l => if s <? l then (l, ly_Temporal maxSeen) else (s, t))
    (match r with Some (l, _) => ly_Spatial l | None => InvalidLayerSpatial end, InvalidLayerTemporal) availableLayers).

Definition adjusted_max (brs : Bitrates) (availableLayers : list Z) (maxSeen maxLayer : VideoLayer) : option VideoLayer :=
  '(availS, availT) ← max_available brs availableLayers maxSeen;
  let s := Z.min (ly_Spatial maxSeen) (Z.min availS (ly_Spatial maxLayer)) in
  availT ← (if s =? InvalidLayerSpatial then Some availT else
            r ← first_rate brs (layers [s] (down 3)); Some (match r with Some (l, _) => ly_Temporal l | None => availT end));
  let t := Z.min (ly_Temporal maxSeen) (Z.min availT (ly_Temporal maxLayer)) in
  Some (if IsValid (mkLayer s t) then mkLayer s t else mkLayer 0 0).

Definition getDistanceToDesired (muted pubMuted : bool) (maxSeen : VideoLayer) (availableLayers : list Z) (brs : Bitrates)
    (target maxLayer : VideoLayer) : option (Z * Z) :=
  if muted || pubMuted || negb (IsValid maxSeen) || negb (IsValid maxLayer) then Some (0, 1) else
  m ← adjusted_max brs availableLayers maxSeen maxLayer;
  let n := ly_Temporal maxSeen + 1 in
  let t := if IsValid target then target else mkLayer 0 0 in
  let distance := (ly_Spatial m - ly_Spatial t) * n + (ly_Temporal m - ly_Temporal t) in
  Some (if IsValid target then distance else distance + n, n).

(** ** The forwarder *)

Inductive Kind := KindAudio | KindVideo.
Inductive Mode := MODE_UNUSED | ONE_SPATIAL_LAYER_PER_STREAM | MULTIPLE_SPATIAL_LAYERS_PER_STREAM | ONE_SPATIAL_LAYER_PER_STREAM_INCOMPLETE_RTCP_SR.

Record Settings := mkSettings {
  st_mime : option codec; st_clockRate : Z; st_kind : Kind; st_skipReferenceTS : bool; st_disableOpportunistic : bool;
  st_mode : Mode; st_isDDAvailable : bool }.

(** The times of a sender report: NTP (zero for none), RTP in 32 bits and extended. *)
Record SenderReport := mkReport { sr_Ntp : Z; sr_Rtp : Z; sr_RtpExt : Z }.
Record refInfo := mkRefInfo { ri_senderReport : option SenderReport; ri_tsOffset : Z; ri_isTSOffsetValid : bool }.
Definition no_ref : refInfo := mkRefInfo None 0 false.

(** Where the stream comes from. [sf_preStartTime] is zero for none. *)
Record SourceState := mkSourceState {
  sf_started : bool; sf_preStartTime : Z; sf_extFirstTS : Z; sf_lastSSRC : Z; sf_lastReferencePayloadType : Z;
  sf_lastSwitchExtIncomingTS : Z; sf_referenceLayerSpatial : Z; sf_dummyStartTSOffset : Z; sf_refInfos : list refInfo;
  sf_resumeBehindThreshold : spec_float }.

Section forwarder.
(** [C] is the state of the codec munger. *)
Context {D C : Type} `{!DependencySelector D}.

Record Forwarder := mkForwarder {
  fw_settings : Settings; fw_muted : bool; fw_pubMuted : bool; fw_source : SourceState; fw_provisional : option VideoAllocationProvisional;
  fw_last : VideoAllocation; fw_munger : RTPMunger; fw_vls : VideoLayerSelector D; fw_codec : C }.

Definition set_muted (m : bool) (f : Forwarder) : Forwarder :=
  mkForwarder (fw_settings f) m (fw_pubMuted f) (fw_source f) (fw_provisional f) (fw_last f) (fw_munger f) (fw_vls f) (fw_codec f).
Definition set_pubMuted (m : bool) (f : Forwarder) : Forwarder :=
  mkForwarder (fw_settings f) (fw_muted f) m (fw_source f) (fw_provisional f) (fw_last f) (fw_munger f) (fw_vls f) (fw_codec f).
Definition set_source (s : SourceState) (f : Forwarder) : Forwarder :=
  mkForwarder (fw_settings f) (fw_muted f) (fw_pubMuted f) s (fw_provisional f) (fw_last f) (fw_munger f) (fw_vls f) (fw_codec f).
Definition set_provisional (p : VideoAllocationProvisional) (f : Forwarder) : Forwarder :=
  mkForwarder (fw_settings f) (fw_muted f) (fw_pubMuted f) (fw_source f) (Some p) (fw_last f) (fw_munger f) (fw_vls f) (fw_codec f).
Definition set_last_allocation (a : VideoAllocation) (f : Forwarder) : Forwarder :=
  mkForwarder (fw_settings f) (fw_muted f) (fw_pubMuted f) (fw_source f) (fw_provisional f) a (fw_munger f) (fw_vls f) (fw_codec f).
Definition set_vls (v : VideoLayerSelector D) (f : Forwarder) : Forwarder :=
  mkForwarder (fw_settings f) (fw_muted f) (fw_pubMuted f) (fw_source f) (fw_provisional f) (fw_last f) (fw_munger f) v (fw_codec f).

Definition base (f : Forwarder) : Base := getBase (fw_vls f).

(** [null] is the null munger. *)
Definition NewForwarder (kind : Kind) (skipReferenceTS disableOpportunistic : bool) (null : C) : Forwarder :=
  let b := match kind with KindVideo => SetMaxTemporal DefaultMaxLayerTemporal NewBase | KindAudio => NewBase end in
  mkForwarder (mkSettings None 0 kind skipReferenceTS disableOpportunistic MODE_UNUSED false) false false
    (mkSourceState false 0 0 0 (-1) 0 InvalidLayerSpatial 0 (replicate 3 no_ref) (S754_zero false))
    None VideoAllocationDefault NewRTPMunger (VNull b) null.
Definition set_base (g : Base -> Base) (f : Forwarder) : Forwarder := set_vls (on_base g (fw_vls f)) f.
Definition is_audio (f : Forwarder) : bool := match st_kind (fw_settings f) with KindAudio => true | KindVideo => false end.

(** 0.2 *)
Definition ResumeBehindThresholdSeconds : spec_float := S754_finite false 7205759403792794 (-55).

Definition resyncLocked (f : Forwarder) : Forwarder :=
  let s := fw_source f in
  set_source (mkSourceState (sf_started s) (sf_preStartTime s) (sf_extFirstTS s) 0 (sf_lastReferencePayloadType s)
    (sf_lastSwitchExtIncomingTS s) (sf_referenceLayerSpatial s) (sf_dummyStartTSOffset s) (sf_refInfos s)
    (if fw_pubMuted f then ResumeBehindThresholdSeconds else sf_resumeBehindThreshold s)) (set_base (SetCurrent InvalidLayer) f).

Definition SetMaxPublishedLayer (l : Z) (f : Forwarder) : bool * Forwarder :=
  if l <=? ly_Spatial (maxSeenLayer (base f)) then (false, f) else (true, set_base (SetMaxSeenSpatial l) f).
Definition SetMaxTemporalLayerSeen (l : Z) (f : Forwarder) : bool * Forwarder :=
  if l <=? ly_Temporal (maxSeenLayer (base f)) then (false, f) else (true, set_base (SetMaxSeenTemporal l) f).

Definition Mute (muted isSubscribeMutable : bool) (f : Forwarder) : bool * Forwarder :=
  if eqb (fw_muted f) muted then (false, f) else
  if muted && negb isSubscribeMutable then (false, f) else
  let f := set_muted muted f in (true, if muted then resyncLocked f else f).
Definition PubMute (pubMuted : bool) (f : Forwarder) : bool * Forwarder :=
  if eqb (fw_pubMuted f) pubMuted then (false, f) else
  let f := set_pubMuted pubMuted f in (true, if pubMuted then resyncLocked f else f).

Definition setTargetLayer (target : VideoLayer) (requestLayerSpatial : Z) (f : Forwarder) : Forwarder :=
  set_base (fun b => SetRequestSpatial (if IsValid target then requestLayerSpatial else InvalidLayerSpatial) (SetTarget target b)) f.

Definition set_TargetLayer (l : VideoLayer) (a : VideoAllocation) : VideoAllocation :=
  mkAllocation (PauseReason a) (va_IsDeficient a) (va_BandwidthRequested a) (BandwidthDelta a) (BandwidthNeeded a) (va_Bitrates a) l
    (RequestLayerSpatial a) (va_MaxLayer a) (va_Distance a).

Definition is_h264 (f : Forwarder) : bool := match st_mime (fw_settings f) with Some CodecH264 => true | _ => false end.

(** The allocation becomes the last one and the target follows it. *)
Definition updateAllocation (a : VideoAllocation) (f : Forwarder) : VideoAllocation * Forwarder :=
  let a := if IsValid (TargetLayer a) && is_h264 f then set_TargetLayer (set_Temporal 0 (TargetLayer a)) a else a in
  let f := setTargetLayer (TargetLayer a) (RequestLayerSpatial a) (set_last_allocation a f) in
  (a, if IsValid (targetLayer (base f)) then f else resyncLocked f).

Definition isDeficient (f : Forwarder) : bool := va_IsDeficient (fw_last f).

Definition SetMaxSpatialLayer (l : Z) (f : Forwarder) : option (bool * VideoLayer * Forwarder) :=
  if is_audio f then Some (false, InvalidLayer, f) else
  if l =? ly_Spatial (maxLayer (base f)) then Some (false, maxLayer (base f), f) else
  let f := set_base (SetMaxSpatial l) f in
  let max := maxLayer (base f) in
  let muted := match PauseReason (fw_last f) with PauseMuted | PausePubMuted => true | _ => false end in
  if st_disableOpportunistic (fw_settings f) || negb (ly_Spatial (targetLayer (base f)) =? InvalidLayerSpatial) || isDeficient f || muted
  then Some (true, max, f) else
  d ← getDistanceToDesired (fw_muted f) (fw_pubMuted f) (maxSeenLayer (base f)) [] no_bitrates max max;
  let a := fw_last f in
  let a := mkAllocation (PauseReason a) (va_IsDeficient a) 0 0 (BandwidthNeeded a) no_bitrates max (ly_Spatial max) max d in
  Some (true, max, snd (updateAllocation a f)).

Definition SetMaxTemporalLayer (l : Z) (f : Forwarder) : bool * VideoLayer * Forwarder :=
  if is_audio f then (false, InvalidLayer, f) else
  if l =? ly_Temporal (maxLayer (base f)) then (false, maxLayer (base f), f) else
  let f := set_base (SetMaxTemporal l) f in (true, maxLayer (base f), f).

Definition BandwidthRequested (brs : Bitrates) (f : Forwarder) : option Z :=
  getBandwidthNeeded brs (targetLayer (base f)) (va_BandwidthRequested (fw_last f)).
Definition DistanceToDesired (availableLayers : list Z) (brs : Bitrates) (f : Forwarder) : option (Z * Z) :=
  getDistanceToDesired (fw_muted f) (fw_pubMuted f) (maxSeenLayer (base f)) availableLayers brs (targetLayer (base f)) (maxLayer (base f)).

(** ** The best there is *)

(** Among the available layers: the highest up to [limit], the highest, the lowest. *)
Definition scan_step (limit : Z) (acc : Z * Z * Z) (al : Z) : Z * Z * Z :=
  let '(request, highest, lowest) := acc in
  (if (request <? al) && (al <=? limit) then al else request, if highest <? al then al else highest,
   if (lowest =? InvalidLayerSpatial) || (al <? lowest) then al else lowest).
Definition scan_available (limit : Z) (availableLayers : list Z) : Z * Z * Z :=
  foldl (scan_step limit) (InvalidLayerSpatial, InvalidLayerSpatial, InvalidLayerSpatial) availableLayers.

Definition optimal_temporal (max maxSeen : VideoLayer) : Z :=
  if negb (ly_Temporal maxSeen =? InvalidLayerTemporal) && (ly_Temporal maxSeen <? ly_Temporal max) then ly_Temporal maxSeen else ly_Temporal max.

(** The target and the layer to request, for a video that is not muted. *)
Definition optimal_target (availableLayers : list Z) (overshoot hold : bool) (b : Base) : VideoLayer * Z :=
  let max := maxLayer b in let maxSeen := maxSeenLayer b in
  let temporal := optimal_temporal max maxSeen in
  let limit := Z.min (ly_Spatial max) (ly_Spatial maxSeen) in
  let '(request, highest, lowest) := scan_available limit availableLayers in
  let request := if (request =? InvalidLayerSpatial) && negb (highest =? InvalidLayerSpatial) && overshoot then highest else request in
  if IsValid (currentLayer b) then
    let target :=
      if ((request =? requestSpatial b) && (ly_Spatial (currentLayer b) =? requestSpatial b)) || (request =? InvalidLayerSpatial)
      then mkLayer (ly_Spatial (currentLayer b)) temporal
      else if hold then mkLayer lowest 0 else mkLayer request temporal in
    (target, ly_Spatial target)
  else if hold then
    let target := mkLayer (if lowest =? InvalidLayerSpatial then 0 else lowest) 0 in (target, ly_Spatial target)
  else
    let maxSpatial := if overshoot && (ly_Spatial max <? ly_Spatial maxSeen) then ly_Spatial maxSeen else ly_Spatial max in
    (mkLayer (Z.min (ly_Spatial maxSeen) maxSpatial) temporal, if request =? InvalidLayerSpatial then limit else request).

Definition AllocateOptimal (availableLayers : list Z) (brs : Bitrates) (allowOvershoot hold : bool) (f : Forwarder)
  : option (VideoAllocation * Forwarder) :=
  if is_audio f then Some (fw_last f, f) else
  let b := base f in let max := maxLayer b in let maxSeen := maxSeenLayer b in
  needed ← getOptimalBandwidthNeeded (fw_muted f) (fw_pubMuted f) (ly_Spatial maxSeen) brs max;
  let reason := if needed =? 0 then PauseFeedDry else PauseNone in
  let '(reason, target, request) :=
    if negb (IsValid max) || (ly_Spatial maxSeen =? InvalidLayerSpatial) then (reason, InvalidLayer, requestSpatial b) else
    if fw_muted f then (PauseMuted, InvalidLayer, requestSpatial b) else
    if fw_pubMuted f then (PausePubMuted, InvalidLayer, requestSpatial b) else
    let '(target, request) := optimal_target availableLayers (allowOvershoot && IsOvershootOkay (fw_vls f)) hold b in
    (reason, target, request) in
  let '(target, request) := if IsValid target then (target, request) else (InvalidLayer, InvalidLayerSpatial) in
  requested ← (if IsValid target then getOptimalBandwidthNeeded (fw_muted f) (fw_pubMuted f) (ly_Spatial maxSeen) brs target else Some 0);
  before ← getBandwidthNeeded brs (targetLayer b) (va_BandwidthRequested (fw_last f));
  d ← getDistanceToDesired (fw_muted f) (fw_pubMuted f) maxSeen availableLayers brs target max;
  Some (updateAllocation (mkAllocation reason false requested (requested - before) needed brs target request max d) f).

(** ** In steps, for all tracks at once *)

Definition ProvisionalAllocatePrepare (availableLayers : list Z) (bitrates : Bitrates) (f : Forwarder) : Forwarder :=
  let b := base f in
  set_provisional (mkProvisional (fw_muted f) (fw_pubMuted f) (maxSeenLayer b) availableLayers bitrates (maxLayer b) (currentLayer b) InvalidLayer) f.

(** Without a preparation all of these dereference a nil pointer. *)
Definition ProvisionalAllocateReset (f : Forwarder) : option Forwarder :=
  p ← fw_provisional f; Some (set_provisional (set_allocated InvalidLayer p) f).

Definition ProvisionalAllocate (availableChannelCapacity : Z) (layer : VideoLayer) (allowPause allowOvershoot : bool) (f : Forwarder)
  : option (bool * Z * Forwarder) :=
  p ← fw_provisional f;
  if vp_muted p || vp_pubMuted p || (ly_Spatial (vp_maxSeenLayer p) =? InvalidLayerSpatial) || negb (IsValid (vp_maxLayer p)) ||
     ((negb allowOvershoot || negb (IsOvershootOkay (fw_vls f))) && GreaterThan layer (vp_maxLayer p)) then Some (false, 0, f) else
  required ← rate (vp_bitrates p) layer;
  if required =? 0 then Some (false, 0, f) else
  already ← (if IsValid (vp_allocatedLayer p) then rate (vp_bitrates p) (vp_allocatedLayer p) else Some 0);
  if negb (GreaterThan layer (vp_maxLayer p)) && (required <=? availableChannelCapacity + already)
  then Some (true, required - already, set_provisional (set_allocated layer p) f)
  else if negb allowPause && (negb (IsValid (vp_allocatedLayer p)) || negb (GreaterThan layer (vp_allocatedLayer p)))
  then Some (true, required - already, set_provisional (set_allocated layer p) f)
  else Some (false, 0, f).

(** The new target, and the bandwidth it takes beyond what is in use. *)
Definition transition (p : VideoAllocationProvisional) (from to : VideoLayer) (delta : Z) (f : Forwarder) : VideoTransition * Forwarder :=
  (mkTransition from to delta, set_provisional (set_allocated to p) f).

Definition found (r : option (VideoLayer * Z)) : VideoLayer * Z := default (InvalidLayer, 0) r.

(** The least there is for a stream that is paused. *)
Definition minimal_layer (p : VideoAllocationProvisional) (overshoot : bool) : option (VideoLayer * Z) :=
  let max := vp_maxLayer p in
  r ← first_rate (vp_bitrates p) (layers (up 0 (ly_Spatial max)) (up 0 (ly_Temporal max)));
  match r with
  | Some _ => Some (found r)
  | None =>
      if IsValid max && overshoot
      then r ← first_rate (vp_bitrates p) (layers (up (ly_Spatial max + 1) DefaultMaxLayerSpatial) (up 0 DefaultMaxLayerTemporal)); Some (found r)
      else Some (InvalidLayer, 0)
  end.

Definition ProvisionalAllocateGetCooperativeTransition (allowOvershoot : bool) (f : Forwarder) : option (VideoTransition * Forwarder) :=
  p ← fw_provisional f;
  let existing := targetLayer (base f) in
  before ← getBandwidthNeeded (vp_bitrates p) existing (va_BandwidthRequested (fw_last f));
  if vp_muted p || vp_pubMuted p then Some (transition p existing InvalidLayer (- before) f) else
  kept ← (if negb (IsValid existing) then Some None else
    r ← first_rate (vp_bitrates p) (layers (down (ly_Spatial (vp_maxLayer p))) (down (ly_Temporal (vp_maxLayer p))));
    match r with
    | None => Some None
    | Some (maximal, required) =>
        if GreaterThan existing maximal then Some (Some (maximal, required - before)) else
        now ← rate (vp_bitrates p) existing;
        Some (if negb (now =? 0) then Some (existing, 0) else None)
    end);
  match kept with
  | Some (to, delta) => Some (transition p existing to delta f)
  | None =>
      '(target, required) ← (if IsValid existing then Some (InvalidLayer, 0) else minimal_layer p (allowOvershoot && IsOvershootOkay (fw_vls f)));
      if IsValid target then Some (transition p existing target (required - before) f) else
      let target := vp_currentLayer p in
      required ← (if IsValid target then rate (vp_bitrates p) target else Some required);
      Some (transition p existing target (required - before) f)
  end.

(** [float32] arithmetic, rounding to the nearest. *)
Definition float32 (n : Z) : spec_float := binary_normalize 24 128 n 0 false.
Definition float32_div : spec_float -> spec_float -> spec_float := SFdiv 24 128.
Definition float_gt (x y : spec_float) : bool := match SFcompare x y with Some Gt => true | _ => false end.
Definition float_eq (x y : spec_float) : bool := match SFcompare x y with Some Eq => true | _ => false end.

(** What a move from [target] down to [l] is worth: the bits it saves by its cost. *)
Definition move_value (reachable existingBandwidth r : Z) (target l : VideoLayer) : Z * spec_float :=
  let delta := Z.max 0 (existingBandwidth - r) in
  let cost := (if ly_Spatial target =? ly_Spatial l then 0 else TransitionCostSpatial) +
    ((reachable + 1) * (ly_Spatial target - ly_Spatial l) + (ly_Temporal target - ly_Temporal l)) in
  (delta, if cost =? 0 then S754_zero false else float32_div (float32 delta) (float32 cost)).

Fixpoint best_move (brs : Bitrates) (reachable existingBandwidth : Z) (target : VideoLayer) (ls : list VideoLayer)
    (best : VideoLayer * Z * spec_float) : option (VideoLayer * Z * spec_float) :=
  match ls with
  | [] => Some best
  | l :: ls =>
      r ← rate brs l;
      let '(delta, value) := move_value reachable existingBandwidth r target l in
      let '(_, bestDelta, bestValue) := best in
      best_move brs reachable existingBandwidth target ls
        (if float_gt value bestValue || (float_eq value bestValue && (bestDelta <? delta)) then (l, delta, value) else best)
  end.

Definition ProvisionalAllocateGetBestWeightedTransition (f : Forwarder) : option (VideoTransition * Forwarder) :=
  p ← fw_provisional f;
  let target := targetLayer (base f) in
  before ← getBandwidthNeeded (vp_bitrates p) target (va_BandwidthRequested (fw_last f));
  if vp_muted p || vp_pubMuted p then Some (transition p target InvalidLayer (0 - before) f) else
  let max := vp_maxLayer p in
  r ← first_rate (vp_bitrates p) (flat_map (fun t => map (fun s => mkLayer s t) (down (ly_Spatial max))) (down (ly_Temporal max)));
  match r with
  | None => Some (transition p target (vp_currentLayer p) (0 - before) f)
  | Some (l, _) =>
      let below := List.filter (fun l => negb (layer_eqb l target)) (layers (up 0 (ly_Spatial target)) (up 0 (ly_Temporal target))) in
      '(best, delta, _) ← best_move (vp_bitrates p) (ly_Temporal l) before target below (InvalidLayer, 0, S754_zero false);
      Some (transition p target best (- delta) f)
  end.

Definition ProvisionalAllocateCommit (f : Forwarder) : option (VideoAllocation * Forwarder) :=
  p ← fw_provisional f;
  let brs := vp_bitrates p in let max := vp_maxLayer p in let l := vp_allocatedLayer p in
  needed ← getOptimalBandwidthNeeded (vp_muted p) (vp_pubMuted p) (ly_Spatial (vp_maxSeenLayer p)) brs max;
  before ← getBandwidthNeeded brs (targetLayer (base f)) (va_BandwidthRequested (fw_last f));
  d ← getDistanceToDesired (vp_muted p) (vp_pubMuted p) (vp_maxSeenLayer p) (vp_availableLayers p) brs l max;
  let alloc reason deficient requested delta target := mkAllocation reason deficient requested delta needed brs target (ly_Spatial target) max d in
  if vp_muted p then Some (updateAllocation (alloc PauseMuted false 0 (0 - before) l) f) else
  if vp_pubMuted p then Some (updateAllocation (alloc PausePubMuted false 0 (0 - before) l) f) else
  requested ← (if IsValid l then rate brs l else Some 0);
  if needed =? 0 then
    if IsValid l then Some (updateAllocation (alloc PauseNone false requested (requested - before) l) f)
    else if IsValid (vp_currentLayer p) && (ly_Spatial (vp_currentLayer p) <=? ly_Spatial max)
    then Some (updateAllocation (alloc PauseFeedDry false 0 (0 - before) (vp_currentLayer p)) (set_provisional (set_allocated (vp_currentLayer p) p) f))
    else Some (updateAllocation (alloc PauseFeedDry false 0 (0 - before) l) f)
  else if GreaterThan l max || (needed <=? requested)
  then Some (updateAllocation (alloc PauseNone false requested (requested - before) l) f)
  else Some (updateAllocation (alloc (if IsValid l then PauseNone else PauseBandwidth) true requested (requested - before) l) f).

(** ** One step up, and the pause *)

(** [None] in the result: no layer with a bit rate. *)
Definition try_higher (capacity : Z) (availableLayers : list Z) (brs : Bitrates) (overshoot : bool) (needed already : Z)
    (ls : list VideoLayer) (f : Forwarder) : option (option (VideoAllocation * bool * Forwarder)) :=
  let b := base f in
  r ← first_rate brs ls;
  match r with
  | None => Some None
  | Some (l, requested) =>
      if negb overshoot && (capacity <? requested - already) then Some (Some (fw_last f, false, f)) else
      d ← getDistanceToDesired (fw_muted f) (fw_pubMuted f) (maxSeenLayer b) availableLayers brs l (maxLayer b);
      let deficient := negb (GreaterThan l (maxLayer b) || (needed <=? requested)) in
      let '(a, f) := updateAllocation (mkAllocation PauseNone deficient requested (requested - already) needed brs l (ly_Spatial l) (maxLayer b) d) f in
      Some (Some (a, true, f))
  end.

Fixpoint try_each {A} (tries : list (option (option A))) (other : A) : option A :=
  match tries with
  | [] => Some other
  | t :: tries => r ← t; match r with Some a => Some a | None => try_each tries other end
  end.

(** The layers above [target], in the order they are tried. *)
Definition higher_layers (target max : VideoLayer) (overshoot : bool) : list (list VideoLayer) :=
  (if IsValid target then [layers [ly_Spatial target] (up (ly_Temporal target + 1) (ly_Temporal max))] else []) ++
  [layers (up (ly_Spatial target + 1) (ly_Spatial max)) (up 0 (ly_Temporal max))] ++
  (if overshoot && IsValid max then [layers (up (ly_Spatial max + 1) DefaultMaxLayerSpatial) (up 0 DefaultMaxLayerTemporal)] else []).

Definition AllocateNextHigher (capacity : Z) (availableLayers : list Z) (brs : Bitrates) (allowOvershoot : bool) (f : Forwarder)
  : option (VideoAllocation * bool * Forwarder) :=
  if is_audio f || negb (isDeficient f) then Some (fw_last f, false, f) else
  let b := base f in let target := targetLayer b in
  let overshoot := allowOvershoot && IsOvershootOkay (fw_vls f) in
  needed ← getOptimalBandwidthNeeded (fw_muted f) (fw_pubMuted f) (ly_Spatial (maxSeenLayer b)) brs (maxLayer b);
  already ← (if IsValid target then rate brs target else Some 0);
  try_each (map (fun ls => try_higher capacity availableLayers brs overshoot needed already ls f) (higher_layers target (maxLayer b) overshoot))
    (fw_last f, false, f).

Definition no_transition : VideoTransition := mkTransition (mkLayer 0 0) (mkLayer 0 0) 0.

Definition GetNextHigherTransition (brs : Bitrates) (allowOvershoot : bool) (f : Forwarder) : option (VideoTransition * bool) :=
  let b := base f in let target := targetLayer b in
  if is_audio f || negb (isDeficient f) || (IsValid target && negb (layer_eqb target (currentLayer b))) then Some (no_transition, false) else
  already ← (if IsValid target then rate brs target else Some 0);
  try_each (map (fun ls =>
      r ← first_such (fun r => negb ((r =? 0) || (r <? already))) brs ls;
      Some (match r with Some (l, r) => Some (mkTransition target l (r - already), true) | None => None end))
    (higher_layers target (maxLayer b) (allowOvershoot && IsOvershootOkay (fw_vls f)))) (no_transition, false).

Definition Pause (availableLayers : list Z) (brs : Bitrates) (f : Forwarder) : option (VideoAllocation * Forwarder) :=
  let b := base f in let max := maxLayer b in let maxSeen := maxSeenLayer b in
  needed ← getOptimalBandwidthNeeded (fw_muted f) (fw_pubMuted f) (ly_Spatial maxSeen) brs max;
  before ← getBandwidthNeeded brs (targetLayer b) (va_BandwidthRequested (fw_last f));
  d ← getDistanceToDesired (fw_muted f) (fw_pubMuted f) maxSeen availableLayers brs InvalidLayer max;
  let '(reason, deficient) :=
    if fw_muted f then (PauseMuted, false) else if fw_pubMuted f then (PausePubMuted, false) else
    if needed =? 0 then (PauseFeedDry, false) else (PauseBandwidth, true) in
  Some (updateAllocation (mkAllocation reason deficient 0 (0 - before) needed brs InvalidLayer InvalidLayerSpatial max d) f).


End forwarder.
#[global] Arguments Forwarder : clear implicits.

(** ** Nothing is read outside the table *)

Definition brs_ok (brs : Bitrates) : Prop := length brs = 3%nat /\ Forall (fun row => length row = 4%nat /\ Forall (fun r => 0 <= r) row) brs.
Definition in_table (l : VideoLayer) : Prop := 0 <= ly_Spatial l <= 2 /\ 0 <= ly_Temporal l <= 3.
Definition layer_ok (l : VideoLayer) : Prop := -1 <= ly_Spatial l <= 2 /\ -1 <= ly_Temporal l <= 3.

Lemma valid_in_table l : layer_ok l -> IsValid l = true -> in_table l.
Proof.
  unfold layer_ok, in_table, IsValid, InvalidLayerSpatial, InvalidLayerTemporal. intros H Hv.
  apply andb_true_iff in Hv as [H1 H2]. apply negb_true_iff, Z.eqb_neq in H1. apply negb_true_iff, Z.eqb_neq in H2. lia.
Qed.

Lemma in_table_valid l : in_table l -> IsValid l = true /\ layer_ok l.
Proof.
  unfold layer_ok, in_table, IsValid, InvalidLayerSpatial, InvalidLayerTemporal. intros H. split; [|lia].
  apply andb_true_iff. split; apply negb_true_iff, Z.eqb_neq; lia.
Qed.

Lemma invalid_ok : layer_ok InvalidLayer.
Proof. unfold layer_ok, InvalidLayer, InvalidLayerSpatial, InvalidLayerTemporal. simpl. lia. Qed.

Lemma rate_some brs l : brs_ok brs -> in_table l -> exists r, rate brs l = Some r /\ 0 <= r.
Proof.
  intros [Hl Hf] [Hs Ht]. unfold rate. rewrite (proj2 (Z.ltb_ge _ _)), (proj2 (Z.ltb_ge (ly_Temporal l) 0)) by lia. simpl.
  destruct (lookup_lt_is_Some_2 brs (Z.to_nat (ly_Spatial l))) as [row Hr]; [lia|]. rewrite Hr. simpl.
  destruct (Forall_lookup_1 _ _ _ _ Hf Hr) as [Hrl Hrf]. destruct (lookup_lt_is_Some_2 row (Z.to_nat (ly_Temporal l))) as [r Hrr]; [lia|].
  exists r. split; [done|]. by apply (Forall_lookup_1 _ _ _ _ Hrf Hrr).
Qed.

Lemma rate_nonneg brs l r : brs_ok brs -> rate brs l = Some r -> 0 <= r.
Proof.
  intros [_ Hf]. unfold rate. destruct (_ || _); [done|]. destruct (brs !! _) as [row|] eqn:Hr; [|done]. simpl. intros E.
  destruct (Forall_lookup_1 _ _ _ _ Hf Hr) as [_ Hrf]. by apply (Forall_lookup_1 _ _ _ _ Hrf E).
Qed.

Lemma elem_of_up a b x : x ∈ up a b <-> a <= x <= b.
Proof.
  unfold up. rewrite list_elem_of_fmap. setoid_rewrite elem_of_seq. split; [intros (i & -> & Hi); lia|].
  intros H. exists (Z.to_nat (x - a)). split; lia.
Qed.

Lemma elem_of_down b x : x ∈ down b <-> 0 <= x <= b.
Proof. unfold down. rewrite list_elem_of_In, <- in_rev, <- list_elem_of_In. rewrite elem_of_up. lia. Qed.

Lemma elem_of_layers ss ts l : l ∈ layers ss ts <-> ly_Spatial l ∈ ss /\ ly_Temporal l ∈ ts.
Proof.
  unfold layers. rewrite list_elem_of_In, in_flat_map. setoid_rewrite in_map_iff. setoid_rewrite <- list_elem_of_In. split.
  - by intros (s & Hs & t & <- & Ht).
  - intros [Hs Ht]. exists (ly_Spatial l). split; [done|]. exists (ly_Temporal l). split; [by destruct l|done].
Qed.

Lemma layers_in_table ss ts : (forall s, s ∈ ss -> 0 <= s <= 2) -> (forall t, t ∈ ts -> 0 <= t <= 3) -> Forall in_table (layers ss ts).
Proof. intros Hs Ht. apply Forall_forall. intros l [H1 H2]%elem_of_layers. split; auto. Qed.

Lemma first_such_some ok brs ls : brs_ok brs -> Forall in_table ls ->
  exists o, first_such ok brs ls = Some o /\
  match o with
  | Some (l, r) => l ∈ ls /\ rate brs l = Some r /\ ok r = true /\ 0 <= r
  | None => forall l r, l ∈ ls -> rate brs l = Some r -> ok r = false
  end.
Proof.
  intros Hb. induction 1 as [|l ls Hl _ (o & E & Ho)]; simpl.
  - exists None. split; [done|]. by intros l r ?%elem_of_nil.
  - destruct (rate_some brs l Hb Hl) as (r & Er & Hr). rewrite Er. simpl. destruct (ok r) eqn:Eo.
    + exists (Some (l, r)). split; [done|]. split_and!; try done. apply list_elem_of_here.
    + exists o. split; [done|]. destruct o as [[l' r']|].
      * destruct Ho as (H1 & H2). split; [by apply list_elem_of_further|done].
      * intros l' r' [->|Hl']%elem_of_cons E'; [congruence|by eapply Ho].
Qed.

Lemma down_range b x : b <= 3 -> x ∈ down b -> 0 <= x <= b.
Proof. intros _. apply elem_of_down. Qed.

Lemma max_layers_in_table l : layer_ok l -> Forall in_table (layers (down (ly_Spatial l)) (down (ly_Temporal l))).
Proof. intros [Hs Ht]. apply layers_in_table; intros x Hx%elem_of_down; lia. Qed.

Lemma optimal_some muted pub seen brs l : brs_ok brs -> layer_ok l ->
  exists r, getOptimalBandwidthNeeded muted pub seen brs l = Some r /\ 0 <= r.
Proof.
  intros Hb Hl. unfold getOptimalBandwidthNeeded. destruct (_ || _); [by exists 0|].
  destruct (first_such_some (fun r => negb (r =? 0)) brs _ Hb (max_layers_in_table l Hl)) as (o & E & Ho). unfold first_rate. rewrite E. simpl.
  destruct o as [[l' r]|]; [|by exists 0]. exists r. split; [done|]. apply Ho.
Qed.

Lemma needed_some brs l fallback : brs_ok brs -> layer_ok l -> exists r, getBandwidthNeeded brs l fallback = Some r.
Proof.
  intros Hb Hl. unfold getBandwidthNeeded. destruct (IsValid l) eqn:Ev; simpl; [|by exists fallback].
  destruct (rate_some brs l Hb (valid_in_table l Hl Ev)) as (r & -> & _). simpl. eauto.
Qed.

Lemma max_available_some brs al seen : brs_ok brs -> Forall (fun l => 0 <= l <= 2) al -> layer_ok seen ->
  exists s t, max_available brs al seen = Some (s, t) /\ -1 <= s <= 2 /\ -1 <= t <= 3.
Proof.
  intros Hb Hal Hseen. unfold max_available.
  destruct (first_such_some (fun r => negb (r =? 0)) brs (layers (down 2) (down 3)) Hb) as (o & E & Ho).
  { apply layers_in_table; intros x Hx%elem_of_down; lia. }
  unfold first_rate. rewrite E. simpl.
  assert (H0 : -1 <= match o with Some (l, _) => ly_Spatial l | None => InvalidLayerSpatial end <= 2).
  { destruct o as [[l r]|]; [|unfold InvalidLayerSpatial; lia]. destruct Ho as (Hin & _). apply elem_of_layers in Hin as [Hs%elem_of_down _]. lia. }
  revert H0. generalize (match o with Some (l, _) => ly_Spatial l | None => InvalidLayerSpatial end). clear E Ho.
  assert (H1 : -1 <= InvalidLayerTemporal <= 3) by (unfold InvalidLayerTemporal; lia). revert H1. generalize InvalidLayerTemporal.
  induction Hal as [|l al Hl _ IH]; intros t Ht s Hs; simpl; [by exists s, t|].
  destruct (s <? l); apply IH; try done; try lia. apply Hseen.
Qed.

Lemma adjusted_some brs al seen max : brs_ok brs -> Forall (fun l => 0 <= l <= 2) al -> layer_ok seen -> layer_ok max ->
  exists l, adjusted_max brs al seen max = Some l.
Proof.
  intros Hb Hal Hseen Hmax. unfold adjusted_max. destruct (max_available_some brs al seen Hb Hal Hseen) as (s & t & -> & Hs & Ht). simpl.
  destruct Hseen as [Hs1 _], Hmax as [Hs2 _]. set (m := Z.min _ _). assert (Hm : -1 <= m <= 2) by lia.
  destruct (Z.eqb_spec m InvalidLayerSpatial) as [|Hne]; simpl; [eauto|]. unfold InvalidLayerSpatial in Hne.
  destruct (first_such_some (fun r => negb (r =? 0)) brs (layers [m] (down 3)) Hb) as (o & E & _).
  { apply layers_in_table; [intros x ->%list_elem_of_singleton; lia|intros x Hx%elem_of_down; lia]. }
  unfold first_rate. rewrite E. simpl. eauto.
Qed.

Lemma distance_some muted pub seen al brs target max : brs_ok brs -> Forall (fun l => 0 <= l <= 2) al -> layer_ok seen -> layer_ok max ->
  exists d, getDistanceToDesired muted pub seen al brs target max = Some d.
Proof.
  intros Hb Hal Hseen Hmax. unfold getDistanceToDesired. destruct (_ || _); [eauto|].
  destruct (adjusted_some brs al seen max Hb Hal Hseen Hmax) as (l & ->). simpl. eauto.
Qed.

(** ** Allocations *)

Section allocations.
Context {D C : Type}.
Implicit Types f : Forwarder D C.

Record layers_ok f : Prop := {
  lo_max : layer_ok (maxLayer (base f)); lo_seen : layer_ok (maxSeenLayer (base f));
  lo_target : layer_ok (targetLayer (base f)); lo_current : layer_ok (currentLayer (base f)) }.

Record prov_ok (p : VideoAllocationProvisional) : Prop := {
  po_brs : brs_ok (vp_bitrates p); po_available : Forall (fun l => 0 <= l <= 2) (vp_availableLayers p);
  po_seen : layer_ok (vp_maxSeenLayer p); po_max : layer_ok (vp_maxLayer p); po_current : layer_ok (vp_currentLayer p);
  po_allocated : layer_ok (vp_allocatedLayer p) }.

Lemma base_on_base g (v : VideoLayerSelector D) : getBase (on_base g v) = g (getBase v).
Proof. by destruct v. Qed.

Lemma updateAllocation_ok a f : layers_ok f -> layer_ok (TargetLayer a) ->
  let '(a', f') := updateAllocation a f in
  layers_ok f' /\ fw_last f' = a' /\ va_BandwidthRequested a' = va_BandwidthRequested a /\ PauseReason a' = PauseReason a /\
  BandwidthDelta a' = BandwidthDelta a.
Proof.
  intros [H1 H2 H3 H4] Ht. unfold updateAllocation.
  set (a' := if _ && _ then _ else a). assert (Ha : layer_ok (TargetLayer a') /\ va_BandwidthRequested a' = va_BandwidthRequested a /\ PauseReason a' = PauseReason a /\ BandwidthDelta a' = BandwidthDelta a).
  { unfold a'. destruct (_ && _); [|done]. split; [|done]. split; simpl; [apply Ht|lia]. }
  clearbody a'. destruct Ha as (Ha & Hb & Hp & Hd). pose proof invalid_ok.
  set (f1 := setTargetLayer _ _ _). assert (Hf : layers_ok f1 /\ fw_last f1 = a').
  { split; [|done]. unfold f1, setTargetLayer. split; unfold base, set_base in *; simpl; rewrite base_on_base; done. }
  clearbody f1. destruct Hf as [[F1 F2 F3 F4] Hl]. destruct (IsValid _); [by split_and!|]. split_and!; try done.
  unfold resyncLocked. split; unfold base, set_base in *; simpl; rewrite base_on_base; done.
Qed.

(** The bit rate that is allocated so far. *)
Definition alloc_rate (p : VideoAllocationProvisional) : Z :=
  if IsValid (vp_allocatedLayer p) then default 0 (rate (vp_bitrates p) (vp_allocatedLayer p)) else 0.

Lemma prepare_ok al brs f : layers_ok f -> brs_ok brs -> Forall (fun l => 0 <= l <= 2) al ->
  exists p, fw_provisional (ProvisionalAllocatePrepare al brs f) = Some p /\ prov_ok p /\ vp_allocatedLayer p = InvalidLayer /\ vp_bitrates p = brs /\
    layers_ok (ProvisionalAllocatePrepare al brs f).
Proof. intros [H1 H2 H3 H4] Hb Hal. eexists. split; [done|]. split; [split; done|]. split; [done|]. split; [done|]. by split. Qed.

Lemma set_provisional_same p f : fw_provisional f = Some p -> set_provisional p f = f.
Proof. destruct f. simpl. by intros ->. Qed.

(** A layer that is wanted, and is there. *)
Definition wanted (p : VideoAllocationProvisional) (l : VideoLayer) : Prop :=
  vp_muted p = false /\ vp_pubMuted p = false /\ ly_Spatial (vp_maxSeenLayer p) <> InvalidLayerSpatial /\
  IsValid (vp_maxLayer p) = true /\ GreaterThan l (vp_maxLayer p) = false /\ rate (vp_bitrates p) l <> Some 0.

(** What one offer does: the layer is taken, or nothing changes. *)
Lemma provisional_spec capacity l pause over f p : fw_provisional f = Some p -> prov_ok p -> in_table l ->
  exists c used p', ProvisionalAllocate capacity l pause over f = Some (c, used, set_provisional p' f) /\
    (p' = p \/ p' = set_allocated l p) /\ alloc_rate p' = alloc_rate p + used /\
    (pause = true -> 0 <= capacity -> used <= capacity) /\ (pause = false -> wanted p l -> IsValid (vp_allocatedLayer p') = true).
Proof.
  intros Ep Hp Hl. pose proof Hp as [P1 P2 P3 P4 P5 P6]. destruct (in_table_valid l Hl) as [Hv Hlo]. unfold ProvisionalAllocate. rewrite Ep. simpl.
  assert (Hno : (pause = false -> wanted p l -> IsValid (vp_allocatedLayer p) = true) ->
    exists c used p', Some (false, 0, f) = Some (c, used, set_provisional p' f) /\ (p' = p \/ p' = set_allocated l p) /\ alloc_rate p' = alloc_rate p + used /\
    (pause = true -> 0 <= capacity -> used <= capacity) /\ (pause = false -> wanted p l -> IsValid (vp_allocatedLayer p') = true)).
  { intros Hw. exists false, 0, p. rewrite set_provisional_same by done. split; [done|split; [by left|split; [lia|split; [by intros|done]]]]. }
  destruct (_ || _) eqn:Eg.
  { apply Hno. intros _ (W1 & W2 & W3 & W4 & W5 & _). exfalso. rewrite W1, W2, W4, W5 in Eg. rewrite (proj2 (Z.eqb_neq _ _)) in Eg by done.
    by rewrite andb_false_r in Eg. }
  destruct (rate_some (vp_bitrates p) l P1 Hl) as (r & Er & Hr). rewrite Er. simpl.
  destruct (Z.eqb_spec r 0) as [->|Hr0]; [apply Hno; by intros _ (_ & _ & _ & _ & _ & W)|].
  assert (Ha : (if IsValid (vp_allocatedLayer p) then rate (vp_bitrates p) (vp_allocatedLayer p) else Some 0) = Some (alloc_rate p)).
  { unfold alloc_rate. destruct (IsValid (vp_allocatedLayer p)) eqn:Ev; [|done].
    destruct (rate_some (vp_bitrates p) _ P1 (valid_in_table _ P6 Ev)) as (a & -> & _). done. }
  rewrite Ha. simpl. assert (Hyes : alloc_rate (set_allocated l p) = alloc_rate p + (r - alloc_rate p)).
  { unfold alloc_rate at 1. simpl. rewrite Hv, Er. simpl. lia. }
  destruct (negb (GreaterThan l (vp_maxLayer p)) && (r <=? capacity + alloc_rate p)) eqn:Ef.
  { exists true, (r - alloc_rate p), (set_allocated l p). split; [done|split; [by right|split; [done|split; [|done]]]]. intros _ _. apply andb_true_iff in Ef as [_ Ef]. lia. }
  destruct pause; simpl; [by apply Hno|]. destruct (IsValid (vp_allocatedLayer p)) eqn:Ev; simpl; [|exists true, (r - alloc_rate p), (set_allocated l p); split; [done|split; [by right|done]]].
  destruct (GreaterThan l (vp_allocatedLayer p)); simpl; [by apply Hno|]. exists true, (r - alloc_rate p), (set_allocated l p). split; [done|split; [by right|done]].
Qed.

Lemma allocated_ok l p : prov_ok p -> layer_ok l -> prov_ok (set_allocated l p).
Proof. intros [P1 P2 P3 P4 P5 P6] Hl. by split. Qed.

Lemma alloc_rate_nonneg p : prov_ok p -> 0 <= alloc_rate p.
Proof.
  intros [P1 _ _ _ _ P6]. unfold alloc_rate. destruct (IsValid _) eqn:Ev; [|done].
  destruct (rate_some (vp_bitrates p) _ P1 (valid_in_table _ P6 Ev)) as (a & -> & Ha). done.
Qed.

(** A commitment requests no more than was allocated, and pauses for want of
    bandwidth only when nothing was allocated of what is wanted. *)
Lemma commit_spec f p : layers_ok f -> fw_provisional f = Some p -> prov_ok p ->
  exists a f', ProvisionalAllocateCommit f = Some (a, f') /\ layers_ok f' /\ fw_last f' = a /\ 0 <= va_BandwidthRequested a <= alloc_rate p /\
    (PauseReason a = PauseBandwidth -> IsValid (vp_allocatedLayer p) = false /\ vp_muted p = false /\ vp_pubMuted p = false /\
      exists r, getOptimalBandwidthNeeded false false (ly_Spatial (vp_maxSeenLayer p)) (vp_bitrates p) (vp_maxLayer p) = Some r /\ r <> 0).
Proof.
  intros Hf Ep Hp. pose proof Hp as [P1 P2 P3 P4 P5 P6]. unfold ProvisionalAllocateCommit. rewrite Ep. simpl.
  destruct (optimal_some (vp_muted p) (vp_pubMuted p) (ly_Spatial (vp_maxSeenLayer p)) _ _ P1 P4) as (needed & En & Hn). rewrite En. simpl.
  destruct (needed_some (vp_bitrates p) (targetLayer (base f)) (va_BandwidthRequested (fw_last f)) P1 (lo_target f Hf)) as (before & ->). simpl.
  destruct (distance_some (vp_muted p) (vp_pubMuted p) (vp_maxSeenLayer p) (vp_availableLayers p) (vp_bitrates p) (vp_allocatedLayer p) (vp_maxLayer p) P1 P2 P3 P4) as (d & ->). simpl.
  pose proof (alloc_rate_nonneg p Hp) as H0. unfold alloc_rate in *.
  assert (Hup : forall a, layer_ok (TargetLayer a) -> forall Q : Prop, (PauseReason a = PauseBandwidth -> Q) -> 0 <= va_BandwidthRequested a <= alloc_rate p ->
    exists a' f', Some (updateAllocation a f) = Some (a', f') /\ layers_ok f' /\ fw_last f' = a' /\ 0 <= va_BandwidthRequested a' <= alloc_rate p /\ (PauseReason a' = PauseBandwidth -> Q)).
  { intros a Ha Q HQ Hr. pose proof (updateAllocation_ok a f Hf Ha) as H. destruct (updateAllocation a f) as [a' f']. destruct H as (? & ? & E1 & E2 & _).
    exists a', f'. by rewrite E1, E2. }
  fold (alloc_rate p) in *.
  destruct (vp_muted p) eqn:E1; [by apply Hup|]. destruct (vp_pubMuted p) eqn:E2; [by apply Hup|].
  assert (Ha : (if IsValid (vp_allocatedLayer p) then rate (vp_bitrates p) (vp_allocatedLayer p) else Some 0) = Some (alloc_rate p)).
  { unfold alloc_rate. destruct (IsValid (vp_allocatedLayer p)) eqn:Ev; [|done].
    destruct (rate_some (vp_bitrates p) _ P1 (valid_in_table _ P6 Ev)) as (a & -> & _). done. }
  rewrite Ha. simpl. destruct (Z.eqb_spec needed 0) as [|Hn0].
  - destruct (IsValid (vp_allocatedLayer p)); [by apply Hup|]. destruct (_ && _); [|by apply Hup].
    set (q := set_allocated _ p). set (a := mkAllocation _ _ _ _ _ _ _ _ _ _).
    assert (Hq : layers_ok (set_provisional q f)) by (destruct Hf as [H1 H2 H3 H4]; by split).
    pose proof (updateAllocation_ok a (set_provisional q f) Hq P5) as H. destruct (updateAllocation a _) as [a' f']. destruct H as (? & ? & E3 & E4 & _).
    exists a', f'. rewrite E3, E4. split; [done|split; [done|split; [done|split; [done|done]]]].
  - destruct (_ || _); [by apply Hup|]. apply Hup; [done| |done]. simpl. destruct (IsValid (vp_allocatedLayer p)); [done|].
    intros _. split_and!; try done. by exists needed.
Qed.

Definition spatial_ok (x : Z * Z * Z) : Prop := let '(a, b, c) := x in -1 <= a <= 2 /\ -1 <= b <= 2 /\ -1 <= c <= 2.

Lemma scan_ok limit al : Forall (fun l => 0 <= l <= 2) al -> spatial_ok (scan_available limit al).
Proof.
  intros Hal. unfold scan_available.
  assert (H0 : spatial_ok (InvalidLayerSpatial, InvalidLayerSpatial, InvalidLayerSpatial)) by (unfold spatial_ok, InvalidLayerSpatial; lia).
  revert H0. generalize (InvalidLayerSpatial, InvalidLayerSpatial, InvalidLayerSpatial).
  induction Hal as [|l al Hl _ IH]; intros [[a b] c] Hx; [done|]. simpl. apply IH. unfold spatial_ok in *.
  split_and!; case_match; lia.
Qed.

Lemma optimal_target_ok al over hold b : Forall (fun l => 0 <= l <= 2) al -> layer_ok (maxLayer b) -> layer_ok (maxSeenLayer b) -> layer_ok (currentLayer b) ->
  IsValid (maxLayer b) = true -> layer_ok (optimal_target al over hold b).1.
Proof.
  intros Hal Hm Hs Hc Hv. unfold optimal_target. set (t := optimal_temporal _ _).
  assert (Ht : -1 <= t <= 3). { unfold t, optimal_temporal. destruct (_ && _); [apply Hs|apply Hm]. }
  set (limit := Z.min _ _). pose proof (scan_ok limit al Hal) as Hscan.
  destruct (scan_available limit al) as [[r h] lo]. destruct Hscan as (H1 & H2 & H3).
  assert (Hr : -1 <= (if (r =? InvalidLayerSpatial) && negb (h =? InvalidLayerSpatial) && over then h else r) <= 2) by (case_match; lia).
  revert Hr. generalize (if (r =? InvalidLayerSpatial) && negb (h =? InvalidLayerSpatial) && over then h else r). intros r' Hr.
  destruct Hm, Hs, Hc. repeat case_match; simpl; unfold layer_ok; simpl; lia.
Qed.

Lemma AllocateOptimal_total al brs over hold f : layers_ok f -> brs_ok brs -> Forall (fun l => 0 <= l <= 2) al ->
  exists a f', AllocateOptimal al brs over hold f = Some (a, f') /\ layers_ok f' /\ fw_last f' = a.
Proof.
  intros Hf Hb Hal. pose proof Hf as [F1 F2 F3 F4]. unfold AllocateOptimal. destruct (is_audio f); [by exists (fw_last f), f|].
  destruct (optimal_some (fw_muted f) (fw_pubMuted f) (ly_Spatial (maxSeenLayer (base f))) brs _ Hb F1) as (needed & -> & _). simpl.
  set (x := if negb (IsValid (maxLayer (base f))) || _ then _ else _). assert (Hx : layer_ok (x.1.2)).
  { unfold x. pose proof invalid_ok. destruct (IsValid (maxLayer (base f))) eqn:Ev; simpl; [|done]. destruct (_ =? _); [done|].
    destruct (fw_muted f); [done|]. destruct (fw_pubMuted f); [done|].
    pose proof (optimal_target_ok al (over && IsOvershootOkay (fw_vls f)) hold (base f) Hal F1 F2 F4 Ev). by destruct (optimal_target _ _ _ _). }
  clearbody x. destruct x as [[reason target] request]. simpl in Hx.
  set (y := if IsValid target then _ else _). assert (Hy : layer_ok y.1) by (unfold y; destruct (IsValid target); [done|apply invalid_ok]).
  clearbody y. destruct y as [target' request']. simpl in Hy.
  assert (Hr : exists r, (if IsValid target' then getOptimalBandwidthNeeded (fw_muted f) (fw_pubMuted f) (ly_Spatial (maxSeenLayer (base f))) brs target' else Some 0) = Some r).
  { destruct (IsValid target'); [|eauto]. destruct (optimal_some (fw_muted f) (fw_pubMuted f) (ly_Spatial (maxSeenLayer (base f))) brs _ Hb Hy) as (r & -> & _). eauto. }
  destruct Hr as (r & ->). simpl. destruct (needed_some brs (targetLayer (base f)) (va_BandwidthRequested (fw_last f)) Hb F3) as (before & ->). simpl.
  destruct (distance_some (fw_muted f) (fw_pubMuted f) (maxSeenLayer (base f)) al brs target' (maxLayer (base f)) Hb Hal F2 F1) as (d & ->). simpl.
  set (a := mkAllocation _ _ _ _ _ _ _ _ _ _). pose proof (updateAllocation_ok a f Hf Hy) as H. destruct (updateAllocation a f) as [a' f'].
  exists a', f'. split; [done|]. split; apply H.
Qed.

Lemma Pause_total al brs f : layers_ok f -> brs_ok brs -> Forall (fun l => 0 <= l <= 2) al ->
  exists a f', Pause al brs f = Some (a, f') /\ layers_ok f' /\ fw_last f' = a /\ va_BandwidthRequested a = 0.
Proof.
  intros Hf Hb Hal. pose proof Hf as [F1 F2 F3 F4]. unfold Pause.
  destruct (optimal_some (fw_muted f) (fw_pubMuted f) (ly_Spatial (maxSeenLayer (base f))) brs _ Hb F1) as (needed & -> & _). simpl.
  destruct (needed_some brs (targetLayer (base f)) (va_BandwidthRequested (fw_last f)) Hb F3) as (before & ->). simpl.
  destruct (distance_some (fw_muted f) (fw_pubMuted f) (maxSeenLayer (base f)) al brs InvalidLayer (maxLayer (base f)) Hb Hal F2 F1) as (d & ->). simpl.
  destruct (if fw_muted f then _ else _) as [reason deficient]. set (a := mkAllocation _ _ _ _ _ _ _ _ _ _).
  pose proof (updateAllocation_ok a f Hf invalid_ok) as H. destruct (updateAllocation a f) as [a' f'].
  exists a', f'. split; [done|]. split; [apply H|]. split; apply H.
Qed.

Definition shown (a : VideoAllocation) f : VideoLayer :=
  if IsValid (TargetLayer a) && is_h264 f then set_Temporal 0 (TargetLayer a) else TargetLayer a.

Lemma updateAllocation_target a f : let '(a', f') := updateAllocation a f in
  TargetLayer a' = shown a f /\ targetLayer (base f') = shown a f /\ fw_settings f' = fw_settings f.
Proof.
  unfold updateAllocation, shown. set (a' := if _ && _ then _ else a).
  assert (Ea : TargetLayer a' = (if IsValid (TargetLayer a) && is_h264 f then set_Temporal 0 (TargetLayer a) else TargetLayer a)) by (unfold a'; by destruct (_ && _)).
  rewrite <- Ea. clearbody a'. clear Ea. unfold setTargetLayer, resyncLocked, base, set_base. destruct (IsValid _); simpl; rewrite ?base_on_base; done.
Qed.

(** One step up: it fits, and it is a step up. *)
Definition boosted_to (capacity already : Z) (brs : Bitrates) (over : bool) (ls : list VideoLayer) (a : VideoAllocation) f f' : Prop :=
  exists l, l ∈ ls /\ rate brs l = Some (va_BandwidthRequested a) /\ 0 < va_BandwidthRequested a /\
    BandwidthDelta a = va_BandwidthRequested a - already /\ (over = false -> BandwidthDelta a <= capacity) /\
    targetLayer (base f') = (if is_h264 f then set_Temporal 0 l else l) /\ fw_settings f' = fw_settings f.

Lemma try_higher_spec capacity al brs over needed already ls f : layers_ok f -> brs_ok brs -> Forall (fun l => 0 <= l <= 2) al -> Forall in_table ls ->
  exists o, try_higher capacity al brs over needed already ls f = Some o /\
  match o with
  | None => True
  | Some (a, boosted, f') => layers_ok f' /\ fw_last f' = a /\ (if boosted then boosted_to capacity already brs over ls a f f' else f' = f)
  end.
Proof.
  intros Hf Hb Hal Hls. pose proof Hf as [F1 F2 F3 F4]. unfold try_higher.
  destruct (first_such_some (fun r => negb (r =? 0)) brs ls Hb Hls) as (o & E & Ho). unfold first_rate. rewrite E. cbn [mbind option_bind].
  destruct o as [[l r]|]; [|by exists None]. destruct Ho as (Hin & Er & Hr0 & Hr). apply negb_true_iff, Z.eqb_neq in Hr0.
  destruct (negb over && _) eqn:Eo; [by exists (Some (fw_last f, false, f))|].
  destruct (distance_some (fw_muted f) (fw_pubMuted f) (maxSeenLayer (base f)) al brs l (maxLayer (base f)) Hb Hal F2 F1) as (d & ->). cbn [mbind option_bind].
  rewrite Forall_forall in Hls. destruct (in_table_valid l (Hls l Hin)) as [Hv Hl].
  set (a := mkAllocation _ _ _ _ _ _ _ _ _ _). pose proof (updateAllocation_ok a f Hf Hl) as H. pose proof (updateAllocation_target a f) as H'.
  destruct (updateAllocation a f) as [a' f']. destruct H as (H1 & H2 & H3 & H4 & H5), H' as (_ & H6 & H7).
  exists (Some (a', true, f')). split; [done|]. simpl. split; [done|]. split; [done|]. exists l. rewrite H3, H5, H6. unfold shown. simpl. rewrite Hv. simpl.
  split_and!; try done; try lia. intros ->. simpl in Eo. lia.
Qed.

Lemma higher_in_table target max over : layer_ok target -> layer_ok max -> Forall (Forall in_table) (higher_layers target max over).
Proof.
  intros [Ht1 Ht2] [Hm1 Hm2]. unfold higher_layers, DefaultMaxLayerSpatial, DefaultMaxLayerTemporal. apply Forall_app. split.
  - destruct (IsValid target) eqn:Ev; [|done]. destruct (valid_in_table target ltac:(done) Ev). apply Forall_singleton, layers_in_table.
    + intros s ->%list_elem_of_singleton. lia.
    + intros t ?%elem_of_up. lia.
  - apply Forall_app. split; [apply Forall_singleton, layers_in_table; intros x ?%elem_of_up; lia|].
    destruct (_ && _); [|done]. apply Forall_singleton, layers_in_table; intros x ?%elem_of_up; lia.
Qed.

Lemma higher_total capacity al brs over f : layers_ok f -> brs_ok brs -> Forall (fun l => 0 <= l <= 2) al ->
  exists a boosted f', AllocateNextHigher capacity al brs over f = Some (a, boosted, f') /\ layers_ok f' /\ fw_last f' = a /\
  if boosted : bool then
    exists already ls, (if IsValid (targetLayer (base f)) then rate brs (targetLayer (base f)) else Some 0) = Some already /\
      ls ∈ higher_layers (targetLayer (base f)) (maxLayer (base f)) (over && IsOvershootOkay (fw_vls f)) /\
      boosted_to capacity already brs (over && IsOvershootOkay (fw_vls f)) ls a f f'
  else f' = f.
Proof.
  intros Hf Hb Hal. pose proof Hf as [F1 F2 F3 F4]. unfold AllocateNextHigher. destruct (_ || _); [by exists (fw_last f), false, f|].
  destruct (optimal_some (fw_muted f) (fw_pubMuted f) (ly_Spatial (maxSeenLayer (base f))) brs _ Hb F1) as (needed & -> & _). simpl.
  set (over' := over && _). set (hl := higher_layers _ _ over').
  assert (Halr : exists already, (if IsValid (targetLayer (base f)) then rate brs (targetLayer (base f)) else Some 0) = Some already).
  { destruct (IsValid _) eqn:Ev; [|eauto]. destruct (rate_some brs _ Hb (valid_in_table _ F3 Ev)) as (r & -> & _). eauto. }
  destruct Halr as (already & Ea). rewrite Ea. simpl.
  assert (Hall : Forall (fun ls => Forall in_table ls /\ ls ∈ hl) hl).
  { apply Forall_forall. intros ls Hls. split; [|done]. pose proof (higher_in_table _ _ over' F3 F1) as H. rewrite Forall_forall in H. by apply H. }
  revert Hall. generalize hl at 2 3. intros tries Hall. induction Hall as [|ls tl [H1 H2] _ IH]; [by exists (fw_last f), false, f|]. simpl.
  destruct (try_higher_spec capacity al brs over' needed already ls f Hf Hb Hal H1) as (o & -> & Ho). simpl.
  destruct o as [[[a boosted] f']|]; [|exact IH]. destruct Ho as (O1 & O2 & O3). exists a, boosted, f'. split; [done|]. split; [done|]. split; [done|].
  destruct boosted; [|done]. by exists already, ls.
Qed.

(** How high the target is. *)
Definition rank f : nat := if IsValid (targetLayer (base f)) then Z.to_nat (1 + 4 * ly_Spatial (targetLayer (base f)) + ly_Temporal (targetLayer (base f))) else 0.

Lemma rank_bound f : layers_ok f -> (rank f <= 12)%nat.
Proof. intros [_ _ [H1 H2] _]. unfold rank. destruct (IsValid _); lia. Qed.

(** H.264 is sent without temporal layers. *)
Definition flat_h264 (brs : Bitrates) f : Prop := is_h264 f = true -> forall l r, 0 < ly_Temporal l -> rate brs l = Some r -> r = 0.

(** The target is the layer that was found. *)
Lemma boosted_layer capacity already brs over ls a f f' : flat_h264 brs f -> boosted_to capacity already brs over ls a f f' ->
  exists l, l ∈ ls /\ targetLayer (base f') = l /\ IsValid l = true /\ 0 <= ly_Spatial l /\ 0 <= ly_Temporal l /\
    rate brs l = Some (va_BandwidthRequested a) /\ 0 < va_BandwidthRequested a /\ BandwidthDelta a = va_BandwidthRequested a - already /\
    (over = false -> BandwidthDelta a <= capacity) /\ fw_settings f' = fw_settings f.
Proof.
  intros Hflat (l & Hin & Er & Hr & Hd & Hcap & Et & Hset).
  assert (Htab : 0 <= ly_Spatial l /\ 0 <= ly_Temporal l).
  { unfold rate in Er. destruct (Z.ltb_spec (ly_Spatial l) 0), (Z.ltb_spec (ly_Temporal l) 0); simpl in Er; done. }
  exists l. split; [done|]. split; [|split_and!; try done; try tauto].
  - rewrite Et. destruct (is_h264 f) eqn:Eh; [|done]. destruct l as [s t]. unfold set_Temporal. simpl in *. f_equal.
    destruct (Z.lt_ge_cases 0 t) as [Hpos|]; [|lia]. pose proof (Hflat Eh (mkLayer s t) _ Hpos Er). lia.
  - unfold IsValid, InvalidLayerSpatial, InvalidLayerTemporal. apply andb_true_iff. split; apply negb_true_iff, Z.eqb_neq; lia.
Qed.

Lemma boosted_rank capacity already brs ls a f f' : layers_ok f -> flat_h264 brs f ->
  ls ∈ higher_layers (targetLayer (base f)) (maxLayer (base f)) false -> boosted_to capacity already brs false ls a f f' -> (rank f < rank f')%nat.
Proof.
  intros [_ _ F3 _] Hflat Hls Hb. destruct (boosted_layer _ _ _ _ _ _ _ _ Hflat Hb) as (l & Hin & El & Hv & H1 & H2 & _).
  unfold rank. rewrite El, Hv. destruct (IsValid (targetLayer (base f))) eqn:Ev; [|lia].
  destruct (valid_in_table _ F3 Ev) as [T1 T2]. unfold higher_layers in Hls. rewrite Ev in Hls. simpl in Hls.
  apply elem_of_cons in Hls as [->|Hls]; [|apply list_elem_of_singleton in Hls as ->]; apply elem_of_layers in Hin as [L1 L2].
  - apply list_elem_of_singleton in L1. apply elem_of_up in L2. lia.
  - apply elem_of_up in L1. apply elem_of_up in L2. lia.
Qed.

(** A step up adds no more to the bandwidth in use than it says. *)
Lemma boosted_usage capacity already brs over ls a f f' : layers_ok f -> brs_ok brs -> flat_h264 brs f -> 0 <= va_BandwidthRequested (fw_last f) ->
  (if IsValid (targetLayer (base f)) then rate brs (targetLayer (base f)) else Some 0) = Some already ->
  boosted_to capacity already brs over ls a f f' ->
  exists x x', BandwidthRequested brs f = Some x /\ BandwidthRequested brs f' = Some x' /\ x' <= x + BandwidthDelta a.
Proof.
  intros [_ _ F3 _] Hbrs Hflat Hlast Ha Hb. destruct (boosted_layer _ _ _ _ _ _ _ _ Hflat Hb) as (l & _ & El & Hv & _ & _ & Er & Hpos & Hd & _).
  unfold BandwidthRequested, getBandwidthNeeded. rewrite El, Hv, Er. simpl. rewrite (proj2 (Z.ltb_lt _ _)) by done.
  destruct (IsValid (targetLayer (base f))) eqn:Ev; simpl.
  - rewrite Ha. simpl. pose proof (rate_nonneg _ _ _ Hbrs Ha). do 2 eexists. split; [done|]. split; [done|]. destruct (Z.ltb_spec 0 already); lia.
  - do 2 eexists. split; [done|]. split; [done|]. injection Ha as <-. lia.
Qed.

End allocations.

End Forwarder.
Export Forwarder.
