(* ===== verification/Allocator.v ===== *)
(** * Sharing the bandwidth of a subscriber among its tracks

    Model of pkg/sfu/streamallocator of the media server: the video tracks one
    subscriber gets, and which layers of each when the channel is congested. The
    events are handled one after the other, by one goroutine. A track is known by
    its place in the list. The map of the tracks is gone through in any order,
    which [order] gives for every time it is; sorting a map is sorting the tracks
    in that order, so that ties may come in any order too. The bit rates of the
    layers, which the receivers measure, do not change while an event is handled.
    The estimator of the bandwidth, the prober and the pacer are not modelled:
    what they are told is recorded in a trace, what they answer is an input.
    [None] is a panic. *)

From Stdlib Require Import SpecFloat.
From S2P Require Import Prelude RangeMap Vp8 RtpMunger Vp8Munger Sps Layers Forwarder.
#[local] Open Scope Z_scope.

Module Allocator.

Definition cChannelCapacityInfinity : Z := 100 * 1000 * 1000.
Definition cPriorityMin : Z := 1.
Definition cPriorityMax : Z := 255.

Inductive StreamState := StreamStateInactive | StreamStateActive | StreamStatePaused.
#[export] Instance stream_state_eq_dec : EqDecision StreamState.
Proof. solve_decision. Defined.

Inductive AllocatorState := Stable | Deficient.
Inductive CongestionState := CongestionNone | CongestionEarlyWarning | CongestionCongested.

Section allocator.
Context {D C : Type} `{!DependencySelector D}.

(** [tk_availableLayers] and [tk_bitrates] are what the receiver measures. *)
Record Track := mkTrack {
  tk_forwarder : Forwarder D C; tk_screenShare : bool; tk_isMultiLayered : bool; tk_priority : Z; tk_maxLayer : VideoLayer;
  tk_isDirty : bool; tk_streamState : StreamState; tk_availableLayers : list Z; tk_bitrates : Bitrates }.

Definition with_forwarder (f : Forwarder D C) (t : Track) : Track :=
  mkTrack f (tk_screenShare t) (tk_isMultiLayered t) (tk_priority t) (tk_maxLayer t) (tk_isDirty t) (tk_streamState t)
    (tk_availableLayers t) (tk_bitrates t).
Definition SetStreamState (s : StreamState) (t : Track) : bool * Track :=
  if bool_decide (tk_streamState t = s) then (false, t) else
  (true, mkTrack (tk_forwarder t) (tk_screenShare t) (tk_isMultiLayered t) (tk_priority t) (tk_maxLayer t) (tk_isDirty t) s
    (tk_availableLayers t) (tk_bitrates t)).
Definition SetDirty (dirty : bool) (t : Track) : bool * Track :=
  if eqb (tk_isDirty t) dirty then (false, t) else
  (true, mkTrack (tk_forwarder t) (tk_screenShare t) (tk_isMultiLayered t) (tk_priority t) (tk_maxLayer t) dirty (tk_streamState t)
    (tk_availableLayers t) (tk_bitrates t)).
Definition SetPriority (priority : Z) (t : Track) : bool * Track :=
  let priority := if priority =? 0 then if tk_screenShare t then cPriorityMax else cPriorityMin else priority in
  if tk_priority t =? priority then (false, t) else
  (true, mkTrack (tk_forwarder t) (tk_screenShare t) (tk_isMultiLayered t) priority (tk_maxLayer t) (tk_isDirty t) (tk_streamState t)
    (tk_availableLayers t) (tk_bitrates t)).
Definition SetMaxLayer (l : VideoLayer) (t : Track) : bool * Track :=
  if layer_eqb (tk_maxLayer t) l then (false, t) else
  (true, mkTrack (tk_forwarder t) (tk_screenShare t) (tk_isMultiLayered t) (tk_priority t) l (tk_isDirty t) (tk_streamState t)
    (tk_availableLayers t) (tk_bitrates t)).
Definition IsManaged (t : Track) : bool := negb (tk_screenShare t) || tk_isMultiLayered t.
Definition IsSubscribeMutable (t : Track) : bool := negb (bool_decide (tk_streamState t = StreamStatePaused)).
Definition IsDeficient (t : Track) : bool := isDeficient (tk_forwarder t).
Definition track_bandwidth (t : Track) : option Z := BandwidthRequested (tk_bitrates t) (tk_forwarder t).
Definition track_distance (t : Track) : option (Z * Z) := DistanceToDesired (tk_availableLayers t) (tk_bitrates t) (tk_forwarder t).

(** What the other parts are told. *)
Inductive told := TellStopProbe | TellProbe (bandwidth usage desired : Z) | TellResetBWE | TellUpdate (changes : list (nat * StreamState)).

(** A configuration is free to name a mode there is not; it never probes. *)
Inductive ProbeMode := ProbeModePadding | ProbeModeMedia | ProbeModeOther.

Record Config := mkConfig {
  MinChannelCapacity : Z; DisableEstimationUnmanagedTracks : bool; cf_ProbeMode : ProbeMode; ProbeOveragePct : Z; ProbeMinBps : Z }.

Record StreamAllocator := mkAllocator {
  sa_config : Config; sa_enabled : bool; sa_allowPause : bool; sa_committedChannelCapacity : Z; sa_overriddenChannelCapacity : Z;
  sa_tracks : list Track; sa_state : AllocatorState; sa_probing : bool; sa_probeCongesting : bool;
  sa_probeGoalReached : bool; sa_told : list told }.

Definition set_tracks (l : list Track) (s : StreamAllocator) : StreamAllocator :=
  mkAllocator (sa_config s) (sa_enabled s) (sa_allowPause s) (sa_committedChannelCapacity s) (sa_overriddenChannelCapacity s) l (sa_state s)
    (sa_probing s) (sa_probeCongesting s) (sa_probeGoalReached s) (sa_told s).
Definition set_state (st : AllocatorState) (s : StreamAllocator) : StreamAllocator :=
  mkAllocator (sa_config s) (sa_enabled s) (sa_allowPause s) (sa_committedChannelCapacity s) (sa_overriddenChannelCapacity s) (sa_tracks s) st
    (sa_probing s) (sa_probeCongesting s) (sa_probeGoalReached s) (sa_told s).
Definition set_capacity (committed overridden : Z) (s : StreamAllocator) : StreamAllocator :=
  mkAllocator (sa_config s) (sa_enabled s) (sa_allowPause s) committed overridden (sa_tracks s) (sa_state s)
    (sa_probing s) (sa_probeCongesting s) (sa_probeGoalReached s) (sa_told s).
Definition set_allowPause (b : bool) (s : StreamAllocator) : StreamAllocator :=
  mkAllocator (sa_config s) (sa_enabled s) b (sa_committedChannelCapacity s) (sa_overriddenChannelCapacity s) (sa_tracks s) (sa_state s)
    (sa_probing s) (sa_probeCongesting s) (sa_probeGoalReached s) (sa_told s).
Definition set_probe (probing congesting : bool) (s : StreamAllocator) : StreamAllocator :=
  mkAllocator (sa_config s) (sa_enabled s) (sa_allowPause s) (sa_committedChannelCapacity s) (sa_overriddenChannelCapacity s) (sa_tracks s)
    (sa_state s) probing congesting (sa_probeGoalReached s) (sa_told s).
Definition tell (m : told) (s : StreamAllocator) : StreamAllocator :=
  mkAllocator (sa_config s) (sa_enabled s) (sa_allowPause s) (sa_committedChannelCapacity s) (sa_overriddenChannelCapacity s) (sa_tracks s)
    (sa_state s) (sa_probing s) (sa_probeCongesting s) (sa_probeGoalReached s) (sa_told s ++ [m]).
Definition set_goal (reached : bool) (s : StreamAllocator) : StreamAllocator :=
  mkAllocator (sa_config s) (sa_enabled s) (sa_allowPause s) (sa_committedChannelCapacity s) (sa_overriddenChannelCapacity s) (sa_tracks s)
    (sa_state s) (sa_probing s) (sa_probeCongesting s) reached (sa_told s).

(** The order in which the map is gone through the [n]th time. *)
Context (order : nat -> list nat -> list nat).

Definition track (i : nat) (s : StreamAllocator) : option Track := sa_tracks s !! i.
Definition getTracks (n : nat) (s : StreamAllocator) : list nat := order n (seq 0 (length (sa_tracks s))).

(** An operation of one track. *)
Definition on_track {A} (i : nat) (f : Track -> option (A * Forwarder D C)) (s : StreamAllocator) : option (A * StreamAllocator) :=
  t ← track i s; '(a, fw) ← f t; Some (a, set_tracks (<[i := with_forwarder fw t]> (sa_tracks s)) s).

(** A loop over tracks. *)
Fixpoint for_each {X S} (body : X -> S -> option S) (l : list X) (s : S) : option S :=
  match l with [] => Some s | i :: l => s ← body i s; for_each body l s end.

(** ** Orders *)

Definition managed (s : StreamAllocator) (i : nat) : bool := match track i s with Some t => IsManaged t | None => false end.

(** Higher priority first, then the larger layers; [Less] and not its converse. *)
Definition track_less (a b : Track) : bool :=
  if negb (tk_priority a =? tk_priority b) then tk_priority b <? tk_priority a else
  if negb (ly_Spatial (tk_maxLayer a) =? ly_Spatial (tk_maxLayer b)) then ly_Spatial (tk_maxLayer b) <? ly_Spatial (tk_maxLayer a)
  else ly_Temporal (tk_maxLayer b) <? ly_Temporal (tk_maxLayer a).
Definition farther (a b : option (Z * Z)) : bool :=
  match a, b with Some (x, n), Some (y, m) => y * n <? x * m | _, _ => false end.
Definition max_distance_less (a b : Track) : bool :=
  if negb (tk_priority a =? tk_priority b) then tk_priority b <? tk_priority a else farther (track_distance a) (track_distance b).
Definition min_distance_less (a b : Track) : bool :=
  if negb (tk_priority a =? tk_priority b) then tk_priority a <? tk_priority b else farther (track_distance b) (track_distance a).

Definition sorted_tracks (less : Track -> Track -> bool) (s : StreamAllocator) (l : list nat) : list nat :=
  sort_by (fun i j => match track i s, track j s with Some a, Some b => negb (less b a) | _, _ => true end) l.
Definition getSorted (n : nat) (s : StreamAllocator) : list nat :=
  sorted_tracks track_less s (List.filter (managed s) (getTracks n s)).
Definition getMinDistanceSorted (n exclude : nat) (s : StreamAllocator) : list nat :=
  sorted_tracks min_distance_less s (List.filter (fun i => managed s i && negb (i =? exclude)%nat) (getTracks n s)).
Definition deficient (s : StreamAllocator) (i : nat) : bool := match track i s with Some t => IsDeficient t | None => false end.
Definition getMaxDistanceSortedDeficient (n : nat) (s : StreamAllocator) : list nat :=
  sorted_tracks max_distance_less s (List.filter (fun i => managed s i && deficient s i) (getTracks n s)).

(** ** Headroom *)

Definition getAvailableChannelCapacity (allowOverride : bool) (s : StreamAllocator) : Z :=
  let capacity := Z.max (sa_committedChannelCapacity s) (MinChannelCapacity (sa_config s)) in
  if allowOverride && (0 <? sa_overriddenChannelCapacity s) then sa_overriddenChannelCapacity s else capacity.
Definition getExpectedBandwidthUsageWithoutTracks (n : nat) (without : list nat) (s : StreamAllocator) : option Z :=
  for_each (fun i expected =>
    if bool_decide (i ∈ without) then Some expected
    else t ← track i s; b ← track_bandwidth t; Some (expected + b)) (getTracks n s) 0.
Definition getExpectedBandwidthUsage (n : nat) (s : StreamAllocator) : option Z := getExpectedBandwidthUsageWithoutTracks n [] s.
Definition getAvailableHeadroomWithoutTracks (n : nat) (allowOverride : bool) (without : list nat) (s : StreamAllocator) : option Z :=
  usage ← getExpectedBandwidthUsageWithoutTracks n without s; Some (getAvailableChannelCapacity allowOverride s - usage).
Definition getAvailableHeadroom (n : nat) (allowOverride : bool) (s : StreamAllocator) : option Z :=
  getAvailableHeadroomWithoutTracks n allowOverride [] s.

(** ** States *)

(** Only an active or a paused stream is announced; a stream becomes active when it resumes. *)
Definition update_of (a : VideoAllocation) : option StreamState :=
  match PauseReason a with
  | PauseMuted | PausePubMuted => Some StreamStateInactive
  | PauseBandwidth => Some StreamStatePaused
  | _ => None
  end.
Definition announced (i : nat) (st : StreamState) : list (nat * StreamState) :=
  match st with StreamStateInactive => [] | _ => [(i, st)] end.
Definition updateStreamStateChange (i : nat) (a : VideoAllocation) (us : list (nat * StreamState) * StreamAllocator)
  : option (list (nat * StreamState) * StreamAllocator) :=
  let '(update, s) := us in
  match update_of a with
  | None => Some us
  | Some st =>
      t ← track i s;
      let '(updated, t) := SetStreamState st t in
      Some (if updated then update ++ announced i st else update, set_tracks (<[i := t]> (sa_tracks s)) s)
  end.
Definition maybeSendUpdate (update : list (nat * StreamState)) (s : StreamAllocator) : StreamAllocator :=
  if (length update =? 0)%nat then s else tell (TellUpdate update) s.

Definition maybeStopProbe (s : StreamAllocator) : StreamAllocator := if sa_probing s then tell TellStopProbe s else s.

Definition setState (st : AllocatorState) (s : StreamAllocator) : StreamAllocator :=
  match sa_state s, st with
  | Stable, Stable | Deficient, Deficient => s
  | _, Deficient => set_state Deficient s
  | _, Stable => set_probe false (sa_probeCongesting s) (tell TellResetBWE (maybeStopProbe (set_state Stable s)))
  end.
Definition adjustState (n : nat) (s : StreamAllocator) : StreamAllocator :=
  setState (if existsb (deficient s) (getTracks n s) then Deficient else Stable) s.

(** An allocation, with the change of state that comes with it. *)
Definition allocate (i : nat) (f : Track -> option (VideoAllocation * Forwarder D C)) (us : list (nat * StreamState) * StreamAllocator)
  : option (VideoAllocation * (list (nat * StreamState) * StreamAllocator)) :=
  let '(update, s) := us in
  '(a, s) ← on_track i f s; us ← updateStreamStateChange i a (update, s); Some (a, us).

Definition do_optimal (allowOvershoot hold : bool) (t : Track) : option (VideoAllocation * Forwarder D C) :=
  AllocateOptimal (tk_availableLayers t) (tk_bitrates t) allowOvershoot hold (tk_forwarder t).
Definition do_commit (t : Track) : option (VideoAllocation * Forwarder D C) := ProvisionalAllocateCommit (tk_forwarder t).
Definition do_pause (t : Track) : option (VideoAllocation * Forwarder D C) := Pause (tk_availableLayers t) (tk_bitrates t) (tk_forwarder t).
Definition do_higher (capacity : Z) (allowOvershoot : bool) (t : Track) : option ((VideoAllocation * bool) * Forwarder D C) :=
  AllocateNextHigher capacity (tk_availableLayers t) (tk_bitrates t) allowOvershoot (tk_forwarder t).
Definition do_prepare (t : Track) : option (unit * Forwarder D C) :=
  Some (tt, ProvisionalAllocatePrepare (tk_availableLayers t) (tk_bitrates t) (tk_forwarder t)).
Definition do_reset (t : Track) : option (unit * Forwarder D C) := f ← ProvisionalAllocateReset (tk_forwarder t); Some (tt, f).
Definition do_provisional (capacity : Z) (l : VideoLayer) (allowPause : bool) (t : Track) : option ((bool * Z) * Forwarder D C) :=
  ProvisionalAllocate capacity l allowPause false (tk_forwarder t).

(** ** Boosting the tracks that want more *)

(** The first track of the list that can be boosted. *)
Fixpoint boost_one (capacity : Z) (l : list nat) (us : list (nat * StreamState) * StreamAllocator)
  : option (option (Z * (list (nat * StreamState) * StreamAllocator))) :=
  match l with
  | [] => Some None
  | i :: l =>
      let '(update, s) := us in
      '((a, boosted), s') ← on_track i (do_higher capacity false) s;
      if negb boosted then boost_one capacity l (update, s') else
      us ← updateStreamStateChange i a (update, s'); Some (Some (BandwidthDelta a, us))
  end.

Fixpoint boost_loop (fuel n : nat) (capacity : Z) (l : list nat) (us : list (nat * StreamState) * StreamAllocator)
  : option (list (nat * StreamState) * StreamAllocator) :=
  match fuel with
  | O => None
  | S fuel =>
      r ← boost_one capacity l us;
      match r with
      | None => Some us
      | Some (delta, us) =>
          if capacity - delta <=? 0 then Some us else
          let l := getMaxDistanceSortedDeficient n us.2 in
          if (length l =? 0)%nat then Some us else boost_loop fuel (S n) (capacity - delta) l us
      end
  end.

Definition maybeBoostDeficientTracks (fuel n : nat) (s : StreamAllocator) : option StreamAllocator :=
  capacity ← getAvailableHeadroom n false s;
  if capacity <=? 0 then Some s else
  let l := getMaxDistanceSortedDeficient (S n) s in
  '(update, s) ← boost_loop fuel (2 + n) capacity l ([], s);
  Some (adjustState (2 + n + fuel) (maybeSendUpdate update s)).

(** ** One track changes *)

Definition all_layers : list VideoLayer := layers (up 0 DefaultMaxLayerSpatial) (up 0 DefaultMaxLayerTemporal).

(** The best layer that fits the capacity. *)
Fixpoint fit_layers (i : nat) (capacity : Z) (ls : list VideoLayer) (best : VideoLayer) (s : StreamAllocator)
  : option (VideoLayer * StreamAllocator) :=
  match ls with
  | [] => Some (best, s)
  | l :: ls =>
      '((candidate, used), s) ← on_track i (do_provisional capacity l (sa_allowPause s)) s;
      if capacity <? used then Some (best, s) else fit_layers i capacity ls (if candidate : bool then l else best) s
  end.

Definition do_cooperative (t : Track) : option (VideoTransition * Forwarder D C) :=
  ProvisionalAllocateGetCooperativeTransition false (tk_forwarder t).
Definition do_weighted (t : Track) : option (VideoTransition * Forwarder D C) :=
  ProvisionalAllocateGetBestWeightedTransition (tk_forwarder t).

(** The tracks that give up bandwidth, until there is enough. *)
Fixpoint gather (needed : Z) (l : list nat) (acquired : Z) (from : list nat) (s : StreamAllocator) : option (Z * list nat * StreamAllocator) :=
  match l with
  | [] => Some (acquired, from, s)
  | i :: l =>
      '(tx, s) ← on_track i do_weighted s;
      if 0 <=? tr_BandwidthDelta tx then gather needed l acquired from s else
      let acquired := acquired + - tr_BandwidthDelta tx in
      if needed <=? acquired then Some (acquired, from ++ [i], s) else gather needed l acquired (from ++ [i]) s
  end.

Definition commit_all (l : list nat) (us : list (nat * StreamState) * StreamAllocator) : option (list (nat * StreamState) * StreamAllocator) :=
  for_each (fun i us => '(_, us) ← allocate i do_commit us; Some us) l us.

(** The track takes what others give up for it. *)
Definition redistribute (n i : nat) (delta : Z) (s : StreamAllocator) : option StreamAllocator :=
  let others := getMinDistanceSorted n i s in
  s ← for_each (fun j s => '(_, s) ← on_track j do_prepare s; Some s) others s;
  '(acquired, from, s) ← gather delta others 0 [] s;
  us ← (if delta <=? acquired then commit_all from ([], s) else Some ([], s));
  '(_, (update, s)) ← allocate i (if negb (sa_allowPause s) || (delta <=? acquired) then do_commit else do_pause) us;
  Some (adjustState (S n) (maybeSendUpdate update s)).

Definition free_pass (congestion : CongestionState) (t : Track) (s : StreamAllocator) : bool :=
  negb (sa_enabled s) ||
  (match sa_state s, congestion with Stable, CongestionCongested => false | Stable, _ => true | Deficient, _ => false end) || negb (IsManaged t).
Definition holding (congestion : CongestionState) : bool := match congestion with CongestionEarlyWarning => true | _ => false end.

Definition allocateTrack (fuel n i : nat) (congestion : CongestionState) (s : StreamAllocator) : option StreamAllocator :=
  let s := maybeStopProbe s in
  t ← track i s;
  if free_pass congestion t s then
    '(_, (update, s)) ← allocate i (do_optimal true (holding congestion)) ([], s);
    Some (maybeSendUpdate update s)
  else
  '(_, s) ← on_track i do_prepare s;
  '(tx, s) ← on_track i do_cooperative s;
  if GreaterThan (tr_From tx) (tr_To tx) then
    '(_, (update, s)) ← allocate i do_commit ([], s);
    maybeBoostDeficientTracks fuel (S n) (adjustState n (maybeSendUpdate update s))
  else if layer_eqb (tr_From tx) (tr_To tx) then Some s
  else
  capacity ← getAvailableHeadroomWithoutTracks n false [i] s;
  if 0 <? capacity then
    '(_, s) ← on_track i do_reset s;
    '(best, s) ← fit_layers i capacity all_layers InvalidLayer s;
    if IsValid best then
      s ← (if GreaterThan best (tr_From tx)
           then '(_, (update, s)) ← allocate i do_commit ([], s); Some (maybeSendUpdate update s)
           else Some s);
      Some (adjustState (S n) s)
    else
      '(_, s) ← on_track i do_reset s;
      '(tx, s) ← on_track i do_cooperative s;
      redistribute (S n) i (tr_BandwidthDelta tx) s
  else redistribute (S n) i (tr_BandwidthDelta tx) s.

(** ** All tracks at once *)

(** The tracks that are exempt take what they want. *)
Definition exempt_tracks (l : list nat) (capacity : Z) (us : list (nat * StreamState) * StreamAllocator)
  : option (Z * (list (nat * StreamState) * StreamAllocator)) :=
  for_each (fun i '(capacity, us) =>
      if managed us.2 i then Some (capacity, us) else
      '(a, us) ← allocate i (do_optimal true false) us;
      Some (if DisableEstimationUnmanagedTracks (sa_config us.2) then capacity else capacity - va_BandwidthRequested a, us)) l (capacity, us).

Definition pause_managed (l : list nat) (us : list (nat * StreamState) * StreamAllocator) : option (list (nat * StreamState) * StreamAllocator) :=
  for_each (fun i us => if managed us.2 i then '(_, us) ← allocate i do_pause us; Some us else Some us) l us.

(** Every track is offered one layer after the other, and what it takes of the capacity is gone. *)
Definition offer (l : VideoLayer) (i : nat) (cs : Z * StreamAllocator) : option (Z * StreamAllocator) :=
  let '(capacity, s) := cs in
  '((_, used), s) ← on_track i (do_provisional capacity l (sa_allowPause s)) s;
  Some (Z.max 0 (capacity - used), s).
Definition offer_layers (sorted : list nat) (capacity : Z) (s : StreamAllocator) : option (Z * StreamAllocator) :=
  for_each (fun l cs => for_each (offer l) sorted cs) all_layers (capacity, s).

(** Offers and commitments to all that is managed. *)
Definition share_all (sorted : list nat) (capacity : Z) (update : list (nat * StreamState)) (s : StreamAllocator) :=
  s ← for_each (fun i s => '(_, s) ← on_track i do_prepare s; Some s) sorted s;
  '(_, s) ← offer_layers sorted capacity s;
  commit_all sorted (update, s).

Definition allocateAllTracks (n : nat) (s : StreamAllocator) : option StreamAllocator :=
  if negb (sa_enabled s) then Some s else
  let tracks := getTracks n s in
  '(capacity, us) ← exempt_tracks tracks (getAvailableChannelCapacity true s) ([], s);
  let capacity := Z.max 0 capacity in
  us ← (if (capacity =? 0) && sa_allowPause us.2 then pause_managed tracks us
        else
          let '(update, s) := us in
          share_all (getSorted (S n) s) capacity update s);
  let '(update, s) := us in
  Some (adjustState (2 + n) (maybeSendUpdate update s)).

(** ** Probes *)

(** More of the farthest track, to see whether the channel takes it. *)
Fixpoint probe_media (l : list nat) (s : StreamAllocator) : option StreamAllocator :=
  match l with
  | [] => Some s
  | i :: l =>
      '((a, boosted), s) ← on_track i (do_higher cChannelCapacityInfinity true) s;
      if negb boosted then probe_media l s else
      '(update, s) ← updateStreamStateChange i a ([], s);
      Some (tell TellResetBWE (maybeSendUpdate update s))
  end.
Fixpoint probe_padding (n : nat) (l : list nat) (s : StreamAllocator) : option StreamAllocator :=
  match l with
  | [] => Some s
  | i :: l =>
      t ← track i s;
      '(tx, available) ← GetNextHigherTransition (tk_bitrates t) true (tk_forwarder t);
      if negb available || (tr_BandwidthDelta tx <? 0) then probe_padding n l s else
      let more := Z.max (Z.quot (tr_BandwidthDelta tx * ProbeOveragePct (sa_config s)) 100) (ProbeMinBps (sa_config s)) in
      usage ← getExpectedBandwidthUsage n s;
      Some (tell (TellProbe (sa_committedChannelCapacity s) usage (usage + more)) s)
  end.

(** [canProbe] is what the estimator says. *)
Definition maybeProbe (n : nat) (canProbe : bool) (s : StreamAllocator) : option StreamAllocator :=
  if (0 <? sa_overriddenChannelCapacity s) || negb canProbe then Some s else
  match cf_ProbeMode (sa_config s) with
  | ProbeModeMedia => s ← probe_media (getMaxDistanceSortedDeficient n s) s; Some (adjustState (S n) s)
  | ProbeModePadding => probe_padding (S n) (getMaxDistanceSortedDeficient n s) s
  | ProbeModeOther => Some s
  end.

(** ** Events *)

Definition handleSignalAllocateTrack (fuel n i : nat) (congestion : CongestionState) (s : StreamAllocator) : option StreamAllocator :=
  match track i s with
  | None => Some s
  | Some t => allocateTrack fuel n i congestion (set_tracks (<[i := snd (SetDirty false t)]> (sa_tracks s)) s)
  end.
Definition handleSignalAllocateAllTracks (n : nat) (s : StreamAllocator) : option StreamAllocator :=
  match sa_state s with Deficient => allocateAllTracks n s | Stable => Some s end.
Definition handleSignalResume (i : nat) (s : StreamAllocator) : StreamAllocator :=
  match track i s with
  | None => s
  | Some t =>
      let '(updated, t) := SetStreamState StreamStateActive t in
      if updated : bool then maybeSendUpdate (announced i StreamStateActive) (set_tracks (<[i := t]> (sa_tracks s)) s) else s
  end.
Definition handleSignalSetChannelCapacity (n : nat) (capacity : Z) (s : StreamAllocator) : option StreamAllocator :=
  let s := set_capacity (sa_committedChannelCapacity s) capacity s in
  if 0 <? capacity then allocateAllTracks n s else Some s.

Definition handleSignalCongestionStateChange (n : nat) (from to : CongestionState) (estimate : Z) (s : StreamAllocator) : option StreamAllocator :=
  let s := match to with CongestionNone => s | _ => maybeStopProbe s end in
  s ← (match from, to, sa_state s with
       | CongestionEarlyWarning, CongestionNone, Stable =>
           '(update, s) ← for_each (fun i us => '(_, us) ← allocate i (do_optimal true false) us; Some us) (getTracks n s) ([], s);
           Some (maybeSendUpdate update s)
       | _, _, _ => Some s
       end);
  match to with
  | CongestionCongested =>
      if sa_probing s then Some (set_probe true true s)
      else allocateAllTracks (S n) (set_capacity estimate (sa_overriddenChannelCapacity s) s)
  | _ => Some s
  end.

(** The result of a probe that is finished: whether it congests, and the capacity it found. *)
Definition probe_finalized (fuel n : nat) (congesting : bool) (capacity : Z) (s : StreamAllocator) : option StreamAllocator :=
  let s := set_probe false (sa_probeCongesting s) s in
  if congesting then Some s else
  maybeBoostDeficientTracks fuel n (set_capacity (Z.max capacity (sa_committedChannelCapacity s)) (sa_overriddenChannelCapacity s) s).

Definition handleSignalAdjustState (n : nat) (s : StreamAllocator) : StreamAllocator := adjustState n s.
Definition handleSignalProbeClusterSwitch (s : StreamAllocator) : StreamAllocator := set_goal false (set_probe true false s).
Definition handleSignalSetAllowPause (allow : bool) (s : StreamAllocator) : StreamAllocator := set_allowPause allow s.

(** What the estimator and the pacer say when the timer ticks: the state of the
    channel, that nothing was sent for long, that the goal of the probe is reached,
    the result of a probe that is finished, whether a probe may start. *)
Record Ping := mkPing {
  pg_congestion : CongestionState; pg_quiet : bool; pg_goalReached : bool; pg_finalized : option (bool * Z); pg_canProbe : bool }.

(** Nothing is sent to measure the channel with: measure afresh. *)
Definition reset_quiet (p : Ping) (s : StreamAllocator) : StreamAllocator :=
  match sa_state s, pg_congestion p with
  | Stable, _ | _, CongestionNone => s
  | Deficient, _ =>
      if sa_allowPause s && pg_quiet p then set_probe false (sa_probeCongesting s) (tell TellResetBWE (maybeStopProbe s)) else s
  end.
Definition handleSignalPeriodicPing (fuel n : nat) (p : Ping) (s : StreamAllocator) : option StreamAllocator :=
  let s := reset_quiet p s in
  s ← (if sa_probing s then
         let s := if negb (sa_probeCongesting s) && negb (sa_probeGoalReached s) && pg_goalReached p
                  then maybeStopProbe (set_goal true s) else s in
         match pg_finalized p with
         | Some (congesting, capacity) => probe_finalized fuel n congesting capacity s
         | None => Some s
         end
       else Some s);
  match sa_state s with
  | Deficient => maybeProbe (3 + n + fuel) (pg_canProbe p) s
  | Stable => Some s
  end.

End allocator.

(** ** Loops and sums *)

Lemma for_each_ind {X S} (body : X -> S -> option S) (I : list X -> S -> Prop) l s0 : I [] s0 ->
  (forall seen x rest s, l = seen ++ x :: rest -> I seen s -> exists s', body x s = Some s' /\ I (seen ++ [x]) s') ->
  exists s', for_each body l s0 = Some s' /\ I l s'.
Proof.
  intros H0 Hstep. cut (forall rest seen s, l = seen ++ rest -> I seen s -> exists s', for_each body rest s = Some s' /\ I l s').
  { intros H. by apply (H l [] s0). }
  induction rest as [|x rest IH]; intros seen s El Hs; simpl.
  - exists s. split; [done|]. by rewrite El, app_nil_r.
  - destruct (Hstep seen x rest s El Hs) as (s' & -> & Hs'). simpl. apply (IH (seen ++ [x])); [by rewrite <- app_assoc|done].
Qed.

Definition sumZ (v : nat -> Z) (l : list nat) : Z := foldr (fun i acc => v i + acc) 0 l.

Lemma sumZ_app v l k : sumZ v (l ++ k) = sumZ v l + sumZ v k.
Proof. induction l as [|i l IH]; simpl; lia. Qed.

Lemma sumZ_perm v l k : l ≡ₚ k -> sumZ v l = sumZ v k.
Proof. induction 1; simpl; lia. Qed.

Lemma sumZ_ext v w l : (forall i, i ∈ l -> v i = w i) -> sumZ v l = sumZ w l.
Proof.
  induction l as [|i l IH]; intros H; simpl; [done|]. rewrite IH by (intros j Hj; apply H; by apply list_elem_of_further).
  rewrite (H i) by apply list_elem_of_here. done.
Qed.

Lemma sumZ_le v w l : (forall i, i ∈ l -> v i <= w i) -> sumZ v l <= sumZ w l.
Proof.
  induction l as [|i l IH]; intros H; simpl; [done|]. pose proof (H i (list_elem_of_here _ _)).
  assert (sumZ v l <= sumZ w l) by (apply IH; intros j Hj; apply H; by apply list_elem_of_further). lia.
Qed.

Lemma sumZ_update v w l i : NoDup l -> i ∈ l -> (forall j, j <> i -> w j = v j) -> sumZ w l = sumZ v l + (w i - v i).
Proof.
  intros Hnd Hi Hne. induction Hnd as [|j l Hj Hnd IH]; [by apply elem_of_nil in Hi|]. simpl.
  apply elem_of_cons in Hi as [->|Hi].
  - rewrite (sumZ_ext w v l); [lia|]. intros k Hk. apply Hne. by intros ->.
  - rewrite IH by done. rewrite Hne; [lia|]. by intros ->.
Qed.

(** ** One track at a time *)

Section facts.
Context {D C : Type} `{!DependencySelector D}.
Implicit Types (s : StreamAllocator (D := D) (C := C)) (t : Track (D := D) (C := C)).

Definition requested t : Z := va_BandwidthRequested (fw_last (tk_forwarder t)).

Record track_ok t : Prop := {
  to_layers : layers_ok (tk_forwarder t); to_brs : brs_ok (tk_bitrates t); to_available : Forall (fun l => 0 <= l <= 2) (tk_availableLayers t) }.
Definition sa_ok s : Prop := Forall track_ok (sa_tracks s).

(** What an allocation leaves as it is. *)
Definition static t t' : Prop :=
  IsManaged t' = IsManaged t /\ tk_bitrates t' = tk_bitrates t /\ tk_availableLayers t' = tk_availableLayers t.

(** Only the track [i] is another. *)
Record near (i : nat) s s' : Prop := {
  ne_length : length (sa_tracks s') = length (sa_tracks s);
  ne_other : forall j, j <> i -> track j s' = track j s;
  ne_static : forall t, track i s = Some t -> exists t', track i s' = Some t' /\ static t t';
  ne_pause : sa_allowPause s' = sa_allowPause s;
  ne_config : sa_config s' = sa_config s }.

Lemma track_insert i j t s : track j (set_tracks (<[i := t]> (sa_tracks s)) s) = (if decide (i = j) then (if decide (i < length (sa_tracks s))%nat then Some t else None) else track j s).
Proof.
  unfold track. simpl. destruct (decide (i = j)) as [<-|Hne]; [|by rewrite list_lookup_insert_ne].
  destruct (decide _); [by apply list_lookup_insert_eq|]. rewrite list_insert_ge by lia. apply lookup_ge_None. lia.
Qed.

Lemma insert_near i t t' s : track i s = Some t -> static t t' -> near i s (set_tracks (<[i := t']> (sa_tracks s)) s) /\ track i (set_tracks (<[i := t']> (sa_tracks s)) s) = Some t'.
Proof.
  intros Ht Hst. pose proof (lookup_lt_Some _ _ _ Ht) as Hlt.
  assert (E : track i (set_tracks (<[i := t']> (sa_tracks s)) s) = Some t').
  { rewrite track_insert. rewrite decide_True by done. by rewrite decide_True. }
  split; [|done]. split; simpl; [by rewrite length_insert| |by intros ? [= <-]%(eq_trans (eq_sym Ht)); eauto|done|done].
  intros j Hj. rewrite track_insert. by rewrite decide_False.
Qed.

Lemma sa_ok_track s i t : sa_ok s -> track i s = Some t -> track_ok t.
Proof. intros H Ht. by apply (Forall_lookup_1 _ _ _ _ H Ht). Qed.

Lemma near_ok i s s' t' : sa_ok s -> near i s s' -> track i s' = Some t' -> track_ok t' -> sa_ok s'.
Proof.
  intros H Hn Ht Hok. apply Forall_lookup. intros j u Hj. destruct (decide (j = i)) as [->|Hne].
  - unfold track in Ht. congruence.
  - apply (sa_ok_track s j u H). by rewrite <- (ne_other _ _ _ Hn).
Qed.

Lemma on_track_spec {A} i (f : Track -> option (A * Forwarder D C)) s t a fw : track i s = Some t -> f t = Some (a, fw) ->
  exists s', on_track i f s = Some (a, s') /\ near i s s' /\ track i s' = Some (with_forwarder fw t).
Proof.
  intros Ht Ef. unfold on_track. rewrite Ht. simpl. rewrite Ef. simpl. eexists. split; [done|]. by apply (insert_near i t).
Qed.

Lemma near_trans i s1 s2 s3 : near i s1 s2 -> near i s2 s3 -> near i s1 s3.
Proof.
  intros [A1 A2 A3 A4 A5] [B1 B2 B3 B4 B5]. split; [congruence| | |congruence|congruence].
  - intros j Hj. by rewrite B2, A2.
  - intros t Ht. destruct (A3 t Ht) as (t2 & Ht2 & S1 & S2 & S3). destruct (B3 t2 Ht2) as (t3 & Ht3 & S4 & S5 & S6).
    exists t3. split; [done|]. split; [|split]; congruence.
Qed.

Lemma update_spec i a update s t : track i s = Some t ->
  exists update' s' t', updateStreamStateChange i a (update, s) = Some (update', s') /\ near i s s' /\ track i s' = Some t' /\
    tk_forwarder t' = tk_forwarder t /\ static t t'.
Proof.
  intros Ht. unfold updateStreamStateChange. destruct (update_of a) as [st|].
  - rewrite Ht. simpl. unfold SetStreamState. destruct (bool_decide _); simpl.
    + destruct (insert_near i t t s Ht) as [H1 H2]; [done|]. by do 3 eexists.
    + edestruct (insert_near i t) as [H1 H2]; [exact Ht| |do 3 eexists; split; [done|]; split; [exact H1|]; split; [exact H2|done]]. done.
  - do 3 eexists. split; [done|]. split; [|done]. split; try done. intros u Hu. by exists u.
Qed.

Lemma allocate_spec i (f : Track -> option (VideoAllocation * Forwarder D C)) update s t a fw : track i s = Some t -> f t = Some (a, fw) ->
  exists update' s' t', allocate i f (update, s) = Some (a, (update', s')) /\ near i s s' /\ track i s' = Some t' /\ tk_forwarder t' = fw /\ static t t'.
Proof.
  intros Ht Ef. unfold allocate. destruct (on_track_spec i f s t a fw Ht Ef) as (s1 & -> & Hn & Ht1). cbn [mbind option_bind].
  destruct (update_spec i a update s1 _ Ht1) as (u & s2 & t2 & -> & Hn2 & Ht2 & Hf & Hst). cbn [mbind option_bind].
  exists u, s2, t2. split; [done|]. split; [by eapply near_trans|]. done.
Qed.

(** After any steps: the same tracks, apart from what allocations change. *)
Record evolves s s' : Prop := {
  ev_length : length (sa_tracks s') = length (sa_tracks s);
  ev_static : forall j t, track j s = Some t -> exists t', track j s' = Some t' /\ static t t';
  ev_pause : sa_allowPause s' = sa_allowPause s;
  ev_config : sa_config s' = sa_config s }.

Lemma evolves_itself s : evolves s s.
Proof. split; try done. intros j t Ht. by exists t. Qed.

Lemma evolves_near i s0 s s' : evolves s0 s -> near i s s' -> evolves s0 s'.
Proof.
  intros [A1 A2 A3 A4] [B1 B2 B3 B4 B5]. split; [congruence| |congruence|congruence].
  intros j t Ht. destruct (A2 j t Ht) as (t' & Ht' & S1 & S2 & S3). destruct (decide (j = i)) as [->|Hne].
  - destruct (B3 t' Ht') as (t2 & Ht2 & S4 & S5 & S6). exists t2. split; [done|]. split; [|split]; congruence.
  - exists t'. split; [by rewrite B2|done].
Qed.

Lemma evolves_managed s s' i : evolves s s' -> managed s' i = managed s i.
Proof.
  intros [A1 A2 _ _]. unfold managed. destruct (track i s) as [t|] eqn:E.
  - destruct (A2 i t E) as (t' & -> & Hm & _). done.
  - unfold track in *. apply lookup_ge_None in E. destruct (sa_tracks s' !! i) eqn:E'; [|done]. apply lookup_lt_Some in E'. lia.
Qed.

(** ** Everything that is managed fits *)

Definition req s (i : nat) : Z := match track i s with Some t => requested t | None => 0 end.
Definition prov s (i : nat) : option VideoAllocationProvisional := t ← track i s; fw_provisional (tk_forwarder t).
Definition alloc s (i : nat) : Z := match prov s i with Some p => alloc_rate p | None => 0 end.

Lemma near_same i j s s' : near i s s' -> j <> i -> track j s' = track j s.
Proof. intros H. apply (ne_other _ _ _ H). Qed.

Lemma near_req i j s s' : near i s s' -> j <> i -> req s' j = req s j.
Proof. intros H Hj. unfold req. by rewrite (near_same i j s s'). Qed.

Lemma near_prov i j s s' : near i s s' -> j <> i -> prov s' j = prov s j.
Proof. intros H Hj. unfold prov. by rewrite (near_same i j s s'). Qed.

Lemma in_range i s : (i < length (sa_tracks s))%nat -> exists t, track i s = Some t.
Proof. intros H. destruct (lookup_lt_is_Some_2 (sa_tracks s) i H) as [t Ht]. by exists t. Qed.

Lemma NoDup_middle {A} (l k : list A) x : NoDup (l ++ x :: k) -> x ∉ l.
Proof. intros H Hx. apply NoDup_app in H as (_ & H & _). apply (H x Hx). apply list_elem_of_here. Qed.

(** *** Preparation *)

Lemma prepare_loop l s0 : sa_ok s0 -> NoDup l -> (forall i, i ∈ l -> (i < length (sa_tracks s0))%nat) ->
  exists s, for_each (fun i s => '(_, s) ← on_track i do_prepare s; Some s) l s0 = Some s /\ sa_ok s /\ evolves s0 s /\
    (forall i, i ∈ l -> exists p, prov s i = Some p /\ prov_ok p /\ vp_allocatedLayer p = InvalidLayer) /\
    (forall i, i ∉ l -> track i s = track i s0) /\ (forall i, req s i = req s0 i).
Proof.
  intros Hok Hnd Hl.
  apply (for_each_ind (fun i s => '(_, s) ← on_track i do_prepare s; Some s) (fun seen s => sa_ok s /\ evolves s0 s /\
    (forall i, i ∈ seen -> exists p, prov s i = Some p /\ prov_ok p /\ vp_allocatedLayer p = InvalidLayer) /\
    (forall i, i ∉ seen -> track i s = track i s0) /\ (forall i, req s i = req s0 i))).
  { split; [done|]. split; [apply evolves_itself|]. split; [by intros i ?%elem_of_nil|done]. }
  intros seen i rest s El (Hs & Hev & Hseen & Hrest & Hreq). assert (Hi : i ∉ seen) by (apply (NoDup_middle _ rest); by rewrite <- El).
  destruct (in_range i s) as [t Ht]. { rewrite (ev_length _ _ Hev). apply Hl. rewrite El. apply elem_of_app. right. apply list_elem_of_here. }
  pose proof (sa_ok_track s i t Hs Ht) as [T1 T2 T3].
  destruct (prepare_ok (tk_availableLayers t) (tk_bitrates t) (tk_forwarder t) T1 T2 T3) as (p & Ep & Hp & Hinv & _ & Hlo).
  destruct (on_track_spec i do_prepare s t tt (ProvisionalAllocatePrepare (tk_availableLayers t) (tk_bitrates t) (tk_forwarder t)) Ht eq_refl) as (s' & E & Hn & Ht').
  rewrite E. simpl. exists s'. split; [done|].
  assert (Hpi : prov s' i = Some p) by (unfold prov; rewrite Ht'; exact Ep).
  split; [eapply near_ok; [exact Hs|exact Hn|exact Ht'|by split]|]. split; [by eapply evolves_near|]. split; [|split].
  - intros j [Hj|Hj]%elem_of_app; [|apply list_elem_of_singleton in Hj as ->; by exists p]. rewrite (near_prov i j s s' Hn); [by apply Hseen|]. by intros ->.
  - intros j Hj. rewrite not_elem_of_app in Hj. destruct Hj as [Hj1 Hj2]. rewrite (near_same i j s s' Hn); [by apply Hrest|].
    intros ->. apply Hj2. apply list_elem_of_here.
  - intros j. destruct (decide (j = i)) as [->|Hne]; [|by rewrite (near_req i j s s' Hn)]. rewrite <- Hreq. unfold req. by rewrite Ht', Ht.
Qed.

(** *** Offers *)

(** What holds while layers are offered to the tracks [ids]: [offered i l] says that [l] was offered to [i]. *)
Record offering (ids : list nat) (capacity0 : Z) s0 (offered : nat -> VideoLayer -> Prop) (capacity : Z) s : Prop := {
  of_ok : sa_ok s; of_evolves : evolves s0 s; of_other : forall i, i ∉ ids -> track i s = track i s0; of_req : forall i, req s i = req s0 i;
  of_prov : forall i, i ∈ ids -> exists p, prov s i = Some p /\ prov_ok p /\
    (sa_allowPause s0 = false -> forall l, offered i l -> wanted p l -> IsValid (vp_allocatedLayer p) = true);
  of_capacity : 0 <= capacity; of_sum : sa_allowPause s0 = true -> capacity + sumZ (alloc s) ids = capacity0 }.

Lemma wanted_allocated l k p : wanted (set_allocated l p) k <-> wanted p k.
Proof. done. Qed.

Lemma offer_step ids c0 s0 offered c s i l : offering ids c0 s0 offered c s -> NoDup ids -> i ∈ ids -> in_table l ->
  exists c' s', offer l i (c, s) = Some (c', s') /\ offering ids c0 s0 (fun j k => offered j k \/ (j = i /\ k = l)) c' s'.
Proof.
  intros [H1 H2 H3 H4 H5 H6 H7] Hnd Hi Hl. destruct (H5 i Hi) as (p & Ep & Hp & Hw).
  unfold prov in Ep. destruct (track i s) as [t|] eqn:Ht; [|done]. simpl in Ep. pose proof (sa_ok_track s i t H1 Ht) as [T1 T2 T3].
  destruct (provisional_spec c l (sa_allowPause s) false (tk_forwarder t) p Ep Hp Hl) as (cand & used & p' & E & Hp' & Ha & Hle & Hv).
  unfold offer. destruct (on_track_spec i (do_provisional c l (sa_allowPause s)) s t (cand, used) (set_provisional p' (tk_forwarder t)) Ht E) as (s' & -> & Hn & Ht').
  simpl. eexists _, s'. split; [done|]. destruct (in_table_valid l Hl) as [Hvl Hlo].
  assert (Hpok : prov_ok p') by (destruct Hp' as [->| ->]; [done|by apply allocated_ok]).
  assert (Hpi : prov s' i = Some p') by (unfold prov; by rewrite Ht').
  assert (Hpo : forall j, j <> i -> prov s' j = prov s j) by (intros j; by apply near_prov).
  split.
  - eapply near_ok; [exact H1|exact Hn|exact Ht'|]. split; [|done|done]. destruct T1 as [L1 L2 L3 L4]. by split.
  - by eapply evolves_near.
  - intros j Hj. rewrite (near_same i j s s' Hn); [by apply H3|]. by intros ->.
  - intros j. rewrite <- H4. destruct (decide (j = i)) as [->|Hne]; [unfold req; by rewrite Ht', Ht|by apply (near_req i j s s')].
  - intros j Hj. destruct (decide (j = i)) as [->|Hne].
    + exists p'. split; [done|]. split; [done|]. intros Hpause k Hk Hwk. assert (Hwp : wanted p k) by (by destruct Hp' as [->| ->]).
      destruct Hk as [Hk|[_ ->]]; [|apply Hv; [by rewrite (ev_pause _ _ H2)|done]]. specialize (Hw Hpause k Hk Hwp). by destruct Hp' as [->| ->].
    + rewrite Hpo by done. destruct (H5 j Hj) as (q & Eq & Hq & Hwq). exists q. split; [done|]. split; [done|].
      intros Hpause k [Hk|[? _]]; [by eapply Hwq|done].
  - lia.
  - intros Hpause. specialize (H7 Hpause). assert (Hle' : used <= c) by (apply Hle; [by rewrite (ev_pause _ _ H2)|done]).
    rewrite (sumZ_update (alloc s) (alloc s') ids i Hnd Hi) by (intros j Hj; unfold alloc; by rewrite Hpo).
    assert (Ei : alloc s' i = alloc s i + used). { unfold alloc. rewrite Hpi. unfold prov. rewrite Ht. simpl. by rewrite Ep. }
    rewrite Ei. lia.
Qed.

Lemma offering_weaken ids c0 s0 (P Q : nat -> VideoLayer -> Prop) c s : offering ids c0 s0 P c s -> (forall i l, i ∈ ids -> Q i l -> P i l) -> offering ids c0 s0 Q c s.
Proof.
  intros [H1 H2 H3 H4 H5 H6 H7] HPQ. split; try done. intros i Hi. destruct (H5 i Hi) as (p & ? & ? & Hw). exists p. split; [done|]. split; [done|]. eauto.
Qed.

Lemma all_layers_table : Forall in_table all_layers.
Proof. apply layers_in_table; intros x ?%elem_of_up; unfold DefaultMaxLayerSpatial, DefaultMaxLayerTemporal in *; lia. Qed.

Lemma offer_row ids c0 s0 offered c s l : offering ids c0 s0 offered c s -> NoDup ids -> in_table l ->
  exists c' s', for_each (offer l) ids (c, s) = Some (c', s') /\ offering ids c0 s0 (fun j k => offered j k \/ k = l) c' s'.
Proof.
  intros H Hnd Hl.
  destruct (for_each_ind (offer l) (fun seen cs => offering ids c0 s0 (fun j k => offered j k \/ (j ∈ seen /\ k = l)) cs.1 cs.2) ids (c, s)) as ([c' s'] & E & H').
  - eapply offering_weaken; [exact H|]. intros j k _ [?|[?%elem_of_nil _]]; done.
  - intros seen i rest [c1 s1] El H1. destruct (offer_step ids c0 s0 _ c1 s1 i l H1 Hnd) as (c2 & s2 & E2 & H2); [|done|].
    { rewrite El. apply elem_of_app. right. apply list_elem_of_here. }
    exists (c2, s2). split; [done|]. eapply offering_weaken; [exact H2|]. intros j k _ [?|[[Hj| ->%list_elem_of_singleton]%elem_of_app ->]]; eauto.
  - exists c', s'. split; [done|]. eapply offering_weaken; [exact H'|]. intros j k Hj [?| ->]; eauto.
Qed.

Lemma offers_all ids c0 s0 s : offering ids c0 s0 (fun _ _ => False) c0 s -> NoDup ids ->
  exists c' s', offer_layers ids c0 s = Some (c', s') /\ offering ids c0 s0 (fun _ k => k ∈ all_layers) c' s'.
Proof.
  intros H Hnd. unfold offer_layers.
  destruct (for_each_ind (fun l cs => for_each (offer l) ids cs) (fun seen cs => offering ids c0 s0 (fun _ k => k ∈ seen) cs.1 cs.2) all_layers (c0, s)) as ([c' s'] & E & H').
  - eapply offering_weaken; [exact H|]. by intros j k _ ?%elem_of_nil.
  - intros seen l rest [c1 s1] El H1. destruct (offer_row ids c0 s0 _ c1 s1 l H1 Hnd) as (c2 & s2 & E2 & H2).
    { pose proof all_layers_table as Hall. rewrite El in Hall. apply Forall_app in Hall as [_ Hall]. by apply Forall_cons in Hall as [? _]. }
    exists (c2, s2). split; [done|]. eapply offering_weaken; [exact H2|]. intros j k _ [?|?%list_elem_of_singleton]%elem_of_app; eauto.
  - by exists c', s'.
Qed.

(** *** Commitments *)

(** Nothing of a table that is offered in full is left when there is something below the maximum. *)
Lemma optimal_wanted p r : prov_ok p -> vp_muted p = false -> vp_pubMuted p = false ->
  getOptimalBandwidthNeeded false false (ly_Spatial (vp_maxSeenLayer p)) (vp_bitrates p) (vp_maxLayer p) = Some r -> r <> 0 ->
  exists l, l ∈ all_layers /\ wanted p l.
Proof.
  intros [P1 P2 P3 P4 P5 P6] Hm Hpm. unfold getOptimalBandwidthNeeded. simpl. destruct (Z.eqb_spec (ly_Spatial (vp_maxSeenLayer p)) InvalidLayerSpatial) as [|Hs]; [congruence|].
  destruct (first_such_some (fun r => negb (r =? 0)) (vp_bitrates p) _ P1 (max_layers_in_table _ P4)) as (o & E & Ho). unfold first_rate. rewrite E. simpl.
  destruct o as [[l x]|]; [|congruence]. intros [= ->] Hr. destruct Ho as (Hin & Er & _). apply elem_of_layers in Hin as [H1%elem_of_down H2%elem_of_down].
  destruct P4 as [M1 M2]. exists l. split; [apply elem_of_layers; split; apply elem_of_up; unfold DefaultMaxLayerSpatial, DefaultMaxLayerTemporal; lia|].
  assert (Hv : IsValid (vp_maxLayer p) = true).
  { unfold IsValid, InvalidLayerSpatial, InvalidLayerTemporal. apply andb_true_iff. split; apply negb_true_iff, Z.eqb_neq; lia. }
  split_and!; try done; [|congruence]. unfold GreaterThan. apply orb_false_iff. split; [lia|]. apply andb_false_iff.
  destruct (Z.eqb_spec (ly_Spatial l) (ly_Spatial (vp_maxLayer p))); [right; lia|by left].
Qed.

Lemma commit_loop ids s0 c c0 update s : NoDup ids -> offering ids c0 s0 (fun _ k => k ∈ all_layers) c s ->
  exists update' s', commit_all ids (update, s) = Some (update', s') /\ sa_ok s' /\ evolves s0 s' /\ (forall i, i ∉ ids -> track i s' = track i s0) /\
    (forall i, i ∈ ids -> 0 <= req s' i <= alloc s i /\
       (sa_allowPause s0 = false -> forall t, track i s' = Some t -> PauseReason (fw_last (tk_forwarder t)) <> PauseBandwidth)).
Proof.
  intros Hnd [H1 H2 H3 _ H5 _ _]. unfold commit_all.
  destruct (for_each_ind (fun i us => '(_, us) ← allocate i do_commit us; Some us)
    (fun seen us => sa_ok us.2 /\ evolves s0 us.2 /\ (forall i, i ∉ seen -> track i us.2 = track i s) /\
      (forall i, i ∈ seen -> 0 <= req us.2 i <= alloc s i /\
       (sa_allowPause s0 = false -> forall t, track i us.2 = Some t -> PauseReason (fw_last (tk_forwarder t)) <> PauseBandwidth))) ids (update, s)) as ([u' s'] & E & J1 & J2 & J3 & J4).
  - split; [done|]. split; [done|]. split; [done|]. by intros i ?%elem_of_nil.
  - intros seen i rest [u1 s1] El (J1 & J2 & J3 & J4). simpl in J1, J2, J3, J4.
    assert (Hi : i ∉ seen) by (apply (NoDup_middle _ rest); by rewrite <- El).
    assert (Hin : i ∈ ids). { rewrite El. apply elem_of_app. right. apply list_elem_of_here. }
    destruct (H5 i Hin) as (p & Ep & Hp & Hw). pose proof Ep as Epi. unfold prov in Ep. rewrite <- (J3 i Hi) in Ep. destruct (track i s1) as [t|] eqn:Ht; [|done]. simpl in Ep.
    pose proof (sa_ok_track s1 i t J1 Ht) as [T1 T2 T3].
    destruct (commit_spec (tk_forwarder t) p T1 Ep Hp) as (a & f' & Ec & Hlo & Hlast & Hreq & Hpz).
    destruct (allocate_spec i do_commit u1 s1 t a f' Ht Ec) as (u2 & s2 & t2 & E2 & Hn & Ht2 & Hf2 & (S1 & S2 & S3)).
    rewrite E2. cbn [mbind option_bind]. exists (u2, s2). split; [done|]. simpl.
    split; [eapply near_ok; [exact J1|exact Hn|exact Ht2|]; split; [by rewrite Hf2|by rewrite S2|by rewrite S3]|].
    split; [by eapply evolves_near|]. split.
    + intros j Hj. rewrite not_elem_of_app in Hj. destruct Hj as [Hj1 Hj2]. rewrite (near_same i j s1 s2 Hn); [by apply J3|]. intros ->. apply Hj2, list_elem_of_here.
    + intros j [Hj|Hj]%elem_of_app.
      * assert (Hne : j <> i) by (by intros ->). rewrite (near_req i j s1 s2 Hn Hne), (near_same i j s1 s2 Hn Hne). by apply J4.
      * apply list_elem_of_singleton in Hj as ->. unfold req, requested. rewrite Ht2, Hf2, Hlast. unfold alloc. rewrite Epi. split; [done|].
        intros Hpause t' [= <-]. rewrite Hf2, Hlast. intros Hb. destruct (Hpz Hb) as (Hnv & Hm & Hpm & r & Eo & Hr).
        destruct (optimal_wanted p r Hp Hm Hpm Eo Hr) as (l & Hl & Hwl). pose proof (Hw Hpause l Hl Hwl). congruence.
  - exists u', s'. simpl in *. split; [done|]. split; [done|]. split; [done|]. split; [|done]. intros i Hi. rewrite J3 by done. by apply H3.
Qed.

(** *** The tracks that are exempt, and the pause *)

Definition exempt s (i : nat) : Z := if managed s i then 0 else req s i.

Lemma exempt_loop l c0 update s0 : sa_ok s0 -> NoDup l -> (forall i, i ∈ l -> (i < length (sa_tracks s0))%nat) ->
  exists update' s, exempt_tracks l c0 (update, s0) =
      Some (c0 - (if DisableEstimationUnmanagedTracks (sa_config s0) then 0 else sumZ (exempt s) l), (update', s)) /\
    sa_ok s /\ evolves s0 s.
Proof.
  intros Hok Hnd Hl. unfold exempt_tracks. set (body := fun (i : nat) (x : Z * (list (nat * StreamState) * StreamAllocator)) => _).
  destruct (for_each_ind body (fun seen x => sa_ok x.2.2 /\ evolves s0 x.2.2 /\
      x.1 = c0 - (if DisableEstimationUnmanagedTracks (sa_config s0) then 0 else sumZ (exempt x.2.2) seen)) l (c0, (update, s0)))
    as ([c [u s]] & E & J1 & J2 & J3).
  - simpl. split; [done|]. split; [apply evolves_itself|]. destruct (DisableEstimationUnmanagedTracks _); lia.
  - intros seen i rest [c [u s]] El (J1 & J2 & J3). simpl in J1, J2, J3.
    assert (Hi : i ∉ seen) by (apply (NoDup_middle _ rest); by rewrite <- El).
    destruct (in_range i s) as [t Ht]. { rewrite (ev_length _ _ J2). apply Hl. rewrite El. apply elem_of_app. right. apply list_elem_of_here. }
    unfold body. cbn [snd]. destruct (managed s i) eqn:Em.
    + exists (c, (u, s)). split; [done|]. split; [done|]. split; [done|]. simpl. rewrite J3. destruct (DisableEstimationUnmanagedTracks _); [lia|].
      rewrite sumZ_app. simpl. unfold exempt at 3. rewrite Em. lia.
    + pose proof (sa_ok_track s i t J1 Ht) as [T1 T2 T3].
      destruct (AllocateOptimal_total (tk_availableLayers t) (tk_bitrates t) true false (tk_forwarder t) T1 T2 T3) as (a & f' & Ea & Hlo & Hlast).
      destruct (allocate_spec i (do_optimal true false) u s t a f' Ht Ea) as (u2 & s2 & t2 & E2 & Hn & Ht2 & Hf2 & (S1 & S2 & S3)).
      rewrite E2. cbn [mbind option_bind snd]. eexists. split; [done|]. cbn [fst snd].
      split; [eapply near_ok; [exact J1|exact Hn|exact Ht2|]; split; [by rewrite Hf2|by rewrite S2|by rewrite S3]|].
      pose proof (evolves_near i s0 s s2 J2 Hn) as J2'. split; [done|]. rewrite (ev_config _ _ J2'), J3.
      destruct (DisableEstimationUnmanagedTracks _); [lia|]. rewrite sumZ_app. simpl.
      assert (Em2 : managed s2 i = false) by (by rewrite (evolves_managed s0 s2 i J2'), <- (evolves_managed s0 s i J2)).
      assert (Ei : exempt s2 i = va_BandwidthRequested a). { unfold exempt, req, requested. by rewrite Em2, Ht2, Hf2, Hlast. }
      assert (Es : sumZ (exempt s2) seen = sumZ (exempt s) seen).
      { apply sumZ_ext. intros j Hj. assert (Hne : j <> i) by (by intros ->). unfold exempt, managed. by rewrite (near_same i j s s2 Hn Hne), (near_req i j s s2 Hn Hne). }
      rewrite Ei, Es. lia.
  - simpl in *. exists u, s. rewrite E, J3. done.
Qed.

Lemma pause_loop l update s0 : sa_ok s0 -> NoDup l -> (forall i, i ∈ l -> (i < length (sa_tracks s0))%nat) ->
  exists update' s, pause_managed l (update, s0) = Some (update', s) /\ sa_ok s /\ evolves s0 s /\
    (forall i, managed s0 i = false -> track i s = track i s0) /\ (forall i, i ∈ l -> managed s0 i = true -> req s i = 0).
Proof.
  intros Hok Hnd Hl. unfold pause_managed. set (body := fun (i : nat) (x : list (nat * StreamState) * StreamAllocator) => _).
  destruct (for_each_ind body (fun seen x => sa_ok x.2 /\ evolves s0 x.2 /\ (forall i, managed s0 i = false -> track i x.2 = track i s0) /\
      (forall i, i ∈ seen -> managed s0 i = true -> req x.2 i = 0)) l (update, s0)) as ([u s] & E & J).
  - split; [done|]. split; [apply evolves_itself|]. split; [done|]. by intros i ?%elem_of_nil.
  - intros seen i rest [u s] El (J1 & J2 & J3 & J4). simpl in J1, J2, J3, J4.
    destruct (in_range i s) as [t Ht]. { rewrite (ev_length _ _ J2). apply Hl. rewrite El. apply elem_of_app. right. apply list_elem_of_here. }
    unfold body. cbn [snd]. rewrite (evolves_managed s0 s i J2). destruct (managed s0 i) eqn:Em.
    + pose proof (sa_ok_track s i t J1 Ht) as [T1 T2 T3].
      destruct (Pause_total (tk_availableLayers t) (tk_bitrates t) (tk_forwarder t) T1 T2 T3) as (a & f' & Ea & Hlo & Hlast & Hz).
      destruct (allocate_spec i do_pause u s t a f' Ht Ea) as (u2 & s2 & t2 & E2 & Hn & Ht2 & Hf2 & (S1 & S2 & S3)).
      rewrite E2. cbn [mbind option_bind]. exists (u2, s2). split; [done|]. cbn [snd].
      split; [eapply near_ok; [exact J1|exact Hn|exact Ht2|]; split; [by rewrite Hf2|by rewrite S2|by rewrite S3]|].
      split; [by eapply evolves_near|]. split.
      * intros j Hj. rewrite (near_same i j s s2 Hn); [by apply J3|]. intros ->. congruence.
      * intros j Hj Hmj. destruct (decide (j = i)) as [->|Hne]; [unfold req, requested; by rewrite Ht2, Hf2, Hlast|].
        rewrite (near_req i j s s2 Hn Hne). apply J4; [|done]. apply elem_of_app in Hj as [?|?%list_elem_of_singleton]; done.
    + exists (u, s). split; [done|]. split; [done|]. split; [done|]. split; [done|]. intros j [Hj| ->%list_elem_of_singleton]%elem_of_app Hmj; [by apply J4|congruence].
  - exists u, s. by rewrite E.
Qed.

(** *** Sums over the tracks *)

Definition total (P : Track (D := D) (C := C) -> bool) (l : list Track) : Z := foldr (fun t acc => (if P t then requested t else 0) + acc) 0 l.

Definition value_in (P : Track (D := D) (C := C) -> bool) (l : list Track) (i : nat) : Z :=
  match l !! i with Some t => if P t then requested t else 0 | None => 0 end.

Lemma total_sum P l : total P l = sumZ (value_in P l) (seq 0 (length l)).
Proof.
  induction l as [|t l IH]; [done|]. simpl. f_equal. rewrite IH, <- seq_shift. unfold sumZ. clear IH.
  induction (seq 0 (length l)) as [|i k IHk]; [done|]. simpl. by rewrite IHk.
Qed.

Lemma sumZ_filter p v l : sumZ v (List.filter p l) = sumZ (fun i => if p i then v i else 0) l.
Proof. induction l as [|i l IH]; simpl; [done|]. destruct (p i); simpl; lia. Qed.

Lemma total_managed s : total IsManaged (sa_tracks s) = sumZ (req s) (List.filter (managed s) (seq 0 (length (sa_tracks s)))).
Proof.
  rewrite total_sum, sumZ_filter. apply sumZ_ext. intros i _. unfold value_in, managed, req, track. by destruct (sa_tracks s !! i).
Qed.

Lemma total_exempt s : total (fun t => negb (IsManaged t)) (sa_tracks s) = sumZ (exempt s) (seq 0 (length (sa_tracks s))).
Proof.
  rewrite total_sum. apply sumZ_ext. intros i _. unfold value_in, exempt, managed, req, track. destruct (sa_tracks s !! i) as [t|]; [|done].
  by destruct (IsManaged t).
Qed.

Context (order : nat -> list nat -> list nat) (Horder : forall n l, order n l ≡ₚ l).

Lemma getTracks_perm n s : getTracks order n s ≡ₚ seq 0 (length (sa_tracks s)).
Proof. apply Horder. Qed.

Lemma getSorted_perm n s : getSorted order n s ≡ₚ List.filter (managed s) (seq 0 (length (sa_tracks s))).
Proof.
  unfold getSorted, sorted_tracks. rewrite sort_by_Permutation. induction (getTracks_perm n s); simpl.
  - done.
  - case_match; [by apply perm_skip|done].
  - repeat case_match; try done; by apply perm_swap.
  - by eapply Permutation_trans.
Qed.

Lemma perm_ids (l : list nat) n : l ≡ₚ seq 0 n -> NoDup l /\ (forall i, i ∈ l <-> (i < n)%nat).
Proof.
  intros H. split; [rewrite H; apply NoDup_seq|]. intros i. rewrite H, elem_of_seq. lia.
Qed.

Lemma elem_of_filterb (p : nat -> bool) (i : nat) l : i ∈ List.filter p l <-> p i = true /\ i ∈ l.
Proof. rewrite !list_elem_of_In, filter_In. tauto. Qed.

Lemma evolves_trans s1 s2 s3 : evolves s1 s2 -> evolves s2 s3 -> evolves s1 s3.
Proof.
  intros [A1 A2 A3 A4] [B1 B2 B3 B4]. split; [congruence| |congruence|congruence].
  intros j t Ht. destruct (A2 j t Ht) as (t2 & Ht2 & S1 & S2 & S3). destruct (B2 j t2 Ht2) as (t3 & Ht3 & S4 & S5 & S6).
  exists t3. split; [done|]. split; [|split]; congruence.
Qed.

Lemma send_tracks update n s : sa_tracks (adjustState order n (maybeSendUpdate update s)) = sa_tracks s.
Proof.
  unfold adjustState, setState, maybeSendUpdate, maybeStopProbe. destruct (length update =? 0)%nat; repeat case_match; done.
Qed.

Lemma alloc_fresh s ids : (forall i, i ∈ ids -> exists p, prov s i = Some p /\ prov_ok p /\ vp_allocatedLayer p = InvalidLayer) -> sumZ (alloc s) ids = 0.
Proof.
  intros H. rewrite (sumZ_ext _ (fun _ => 0)); [by induction ids as [|i l IH]; simpl; [|rewrite IH; [|intros j Hj; apply H; by apply list_elem_of_further]]|].
  intros i Hi. destruct (H i Hi) as (p & Ep & _ & Ei). unfold alloc, alloc_rate. by rewrite Ep, Ei.
Qed.

Lemma sorted_facts n s : NoDup (getSorted order n s) /\ forall i, i ∈ getSorted order n s <-> managed s i = true /\ (i < length (sa_tracks s))%nat.
Proof.
  pose proof (getSorted_perm n s) as H. split.
  - rewrite H. apply NoDup_ListNoDup, List.NoDup_filter, NoDup_ListNoDup, NoDup_seq.
  - intros i. rewrite H, elem_of_filterb, elem_of_seq. split; intros [? ?]; split; (done || lia).
Qed.

Lemma share_spec n capacity update s : sa_ok s -> 0 <= capacity -> let sorted := getSorted order n s in
  exists update' s', share_all sorted capacity update s = Some (update', s') /\ sa_ok s' /\ evolves s s' /\
    (forall i, managed s i = false -> track i s' = track i s) /\
    (sa_allowPause s = true -> total IsManaged (sa_tracks s') <= capacity) /\
    (sa_allowPause s = false -> forall t, t ∈ sa_tracks s' -> IsManaged t = true -> PauseReason (fw_last (tk_forwarder t)) <> PauseBandwidth).
Proof.
  intros Hok Hc sorted. destruct (sorted_facts n s) as [Hnd Hin]. fold sorted in Hnd, Hin. unfold share_all.
  destruct (prepare_loop sorted s Hok Hnd) as (s1 & -> & P1 & P2 & P3 & P4 & P5); [intros i Hi; by apply Hin|]. cbn [mbind option_bind].
  destruct (offers_all sorted capacity s s1) as (c2 & s2 & -> & O); [|done|].
  { split; try done.
    - intros i Hi. destruct (P3 i Hi) as (p & ? & ? & ?). by exists p.
    - intros _. rewrite (alloc_fresh s1 sorted P3). lia. }
  cbn [mbind option_bind]. destruct (commit_loop sorted s c2 capacity update s2 Hnd O) as (u & s3 & -> & C1 & C2 & C3 & C4).
  exists u, s3. split; [done|]. split; [done|]. split; [done|]. split; [|split].
  - intros i Hi. apply C3. rewrite Hin. intros [? _]. congruence.
  - intros Hpause. rewrite total_managed. assert (Ef : List.filter (managed s3) (seq 0 (length (sa_tracks s3))) ≡ₚ sorted).
    { unfold sorted. rewrite getSorted_perm, (ev_length _ _ C2). apply reflexive_eq, List.filter_ext. intros i. apply (evolves_managed s s3 i C2). }
    rewrite (sumZ_perm _ _ _ Ef). pose proof (of_sum _ _ _ _ _ _ O Hpause). pose proof (of_capacity _ _ _ _ _ _ O).
    pose proof (sumZ_le (req s3) (alloc s2) sorted ltac:(intros i Hi; apply (C4 i Hi))). lia.
  - intros Hpause t Ht Hm. apply list_elem_of_lookup in Ht as [i Hi]. apply (C4 i); [|done|done]. apply Hin.
    split; [|rewrite <- (ev_length _ _ C2); by eapply lookup_lt_Some]. rewrite <- (evolves_managed s s3 i C2). unfold managed, track. by rewrite Hi.
Qed.

(** *** Boosts *)

(** A track that can be boosted: H.264 has no temporal layers. *)
Record boost_ok t : Prop := {
  bo_ok : track_ok t; bo_requested : 0 <= requested t; bo_flat : flat_h264 (tk_bitrates t) (tk_forwarder t) }.
Definition boosts_ok s : Prop := Forall boost_ok (sa_tracks s).

Definition bandwidth s (i : nat) : Z := match track i s with Some t => default 0 (track_bandwidth t) | None => 0 end.
Definition height s (i : nat) : Z := match track i s with Some t => Z.of_nat (rank (tk_forwarder t)) | None => 0 end.
Definition places s : list nat := seq 0 (length (sa_tracks s)).
Definition usage s : Z := sumZ (bandwidth s) (places s).
Definition heights s : Z := sumZ (height s) (places s).

Lemma sumZ_bound v l b : (forall i, i ∈ l -> v i <= b) -> sumZ v l <= b * Z.of_nat (length l).
Proof.
  intros H. etransitivity; [apply (sumZ_le v (fun _ => b)); exact H|]. clear H. induction l as [|i l IH]; cbn [sumZ foldr length]; [lia|].
  unfold sumZ in IH. lia.
Qed.

Lemma heights_bound s : boosts_ok s -> heights s <= 12 * Z.of_nat (length (sa_tracks s)).
Proof.
  intros H. unfold heights. etransitivity; [apply (sumZ_bound _ _ 12)|unfold places; by rewrite length_seq].
  intros i _. unfold height. destruct (track i s) as [t|] eqn:E; [|lia]. pose proof (Forall_lookup_1 _ _ _ _ H E) as [[Hl _ _] _ _].
  pose proof (rank_bound _ Hl). lia.
Qed.

Lemma boosts_sa_ok s : boosts_ok s -> sa_ok s.
Proof. intros H. eapply Forall_impl; [exact H|]. by intros t [? _ _]. Qed.

Lemma send_usage update n s : usage (adjustState order n (maybeSendUpdate update s)) = usage s.
Proof. unfold usage, places, bandwidth, track. by rewrite send_tracks. Qed.

Lemma usage_spec n s : sa_ok s -> getExpectedBandwidthUsage order n s = Some (usage s).
Proof.
  intros Hok. unfold getExpectedBandwidthUsage, getExpectedBandwidthUsageWithoutTracks, usage. rewrite <- (sumZ_perm _ _ _ (getTracks_perm n s)).
  destruct (perm_ids _ _ (getTracks_perm n s)) as [_ Hin]. set (l := getTracks order n s) in *. set (body := fun (i : nat) (e : Z) => _).
  destruct (for_each_ind body (fun seen e => e = sumZ (bandwidth s) seen) l 0) as (e & -> & ->); [done| |done].
  intros seen i rest e El ->. unfold body. rewrite bool_decide_false by apply not_elem_of_nil.
  destruct (in_range i s) as [t Ht]. { apply Hin. rewrite El. apply elem_of_app. right. apply list_elem_of_here. }
  pose proof (sa_ok_track s i t Hok Ht) as [[T1 T2 T3 T4] B _].
  destruct (needed_some (tk_bitrates t) (targetLayer (base (tk_forwarder t))) (va_BandwidthRequested (fw_last (tk_forwarder t))) B T3) as (b & Eb).
  rewrite Ht. simpl. unfold track_bandwidth, BandwidthRequested. rewrite Eb. simpl. eexists. split; [done|].
  rewrite sumZ_app. simpl. unfold bandwidth at 3. rewrite Ht. unfold track_bandwidth, BandwidthRequested. rewrite Eb. simpl. lia.
Qed.

Lemma on_track_same {A} i (f : Track -> option (A * Forwarder D C)) s t a : track i s = Some t -> f t = Some (a, tk_forwarder t) ->
  on_track i f s = Some (a, s).
Proof.
  intros Ht Ef. unfold on_track. rewrite Ht. simpl. rewrite Ef. simpl.
  assert (Et : with_forwarder (tk_forwarder t) t = t) by (by destruct t). rewrite Et, list_insert_id by done. by destruct s.
Qed.

(** Another value at one place only. *)
Lemma sumZ_near (v : StreamAllocator (D := D) (C := C) -> nat -> Z) i s s' t : near i s s' -> track i s = Some t ->
  (forall j, j <> i -> v s' j = v s j) -> sumZ (v s') (places s') = sumZ (v s) (places s) + (v s' i - v s i).
Proof.
  intros Hn Ht Hv. unfold places. rewrite (ne_length _ _ _ Hn). apply sumZ_update; [apply NoDup_seq| |done].
  apply elem_of_seq. pose proof (lookup_lt_Some _ _ _ Ht). lia.
Qed.

Lemma boost_one_spec capacity l update s : boosts_ok s -> (forall i, i ∈ l -> (i < length (sa_tracks s))%nat) ->
  exists r, boost_one capacity l (update, s) = Some r /\
  match r with
  | None => True
  | Some (delta, (_, s')) => boosts_ok s' /\ evolves s s' /\ delta <= capacity /\ usage s' <= usage s + delta /\ heights s + 1 <= heights s'
  end.
Proof.
  intros Hb Hl. induction l as [|i l IH]; simpl; [by exists None|].
  destruct (in_range i s) as [t Ht]; [apply Hl; apply list_elem_of_here|].
  pose proof (Forall_lookup_1 _ _ _ _ Hb Ht) as [[T1 T2 T3] Hreq Hflat].
  destruct (higher_total capacity (tk_availableLayers t) (tk_bitrates t) false (tk_forwarder t) T1 T2 T3) as (a & boosted & f' & E & Hlo & Hlast & Hb').
  destruct boosted; simpl in Hb'.
  - destruct Hb' as (already & ls & Ea & Hls & Hto).
    destruct (on_track_spec i (do_higher capacity false) s t (a, true) f' Ht E) as (s1 & -> & Hn1 & Ht1). cbn [mbind option_bind negb].
    destruct (update_spec i a update s1 _ Ht1) as (u & s2 & t2 & E2 & Hn2 & Ht2 & Hf2 & S1 & S2 & S3). simpl in Hf2, S2, S3. cbn [updateStreamStateChange] in E2. rewrite E2. cbn [mbind option_bind].
    eexists. split; [done|]. simpl. pose proof (near_trans _ _ _ _ Hn1 Hn2) as Hn.
    pose proof (boosted_rank _ _ _ _ _ _ _ T1 Hflat Hls Hto) as Hrank.
    destruct (boosted_usage _ _ _ _ _ _ _ _ T1 T2 Hflat Hreq Ea Hto) as (x & x' & Ex & Ex' & Hx).
    destruct (boosted_layer _ _ _ _ _ _ _ _ Hflat Hto) as (_ & _ & _ & _ & _ & _ & _ & Hpos & _ & Hcap & Hset).
    split; [|split; [by eapply evolves_near; [apply evolves_itself|]|split; [by apply Hcap|]]].
    + apply Forall_lookup. intros j t' Hj. destruct (decide (j = i)) as [->|Hne].
      * unfold track in Ht2. rewrite Ht2 in Hj. injection Hj as <-. split; [split; [by rewrite Hf2|by rewrite S2|by rewrite S3]| |].
        -- unfold requested. rewrite Hf2, Hlast. lia.
        -- rewrite S2, Hf2. unfold flat_h264, is_h264. rewrite Hset. exact Hflat.
      * apply (Forall_lookup_1 _ _ j _ Hb). rewrite <- Hj. symmetry. exact (ne_other _ _ _ Hn j Hne).
    + unfold usage, heights. rewrite (sumZ_near bandwidth i s s2 t Hn Ht) by (intros j Hj; unfold bandwidth; by rewrite (near_same i j s s2 Hn Hj)).
      rewrite (sumZ_near height i s s2 t Hn Ht) by (intros j Hj; unfold height; by rewrite (near_same i j s s2 Hn Hj)).
      unfold bandwidth at 2 3, height at 3 4. rewrite Ht, Ht2. unfold track_bandwidth. rewrite Hf2, S2, Ex, Ex'. simpl. lia.
  - subst f'. rewrite (on_track_same i (do_higher capacity false) s t (a, false) Ht E). cbn [mbind option_bind negb].
    apply IH. intros j Hj. apply Hl. by apply list_elem_of_further.
Qed.

Lemma deficient_places n s i : i ∈ getMaxDistanceSortedDeficient order n s -> (i < length (sa_tracks s))%nat.
Proof.
  unfold getMaxDistanceSortedDeficient, sorted_tracks. rewrite elem_of_sort_by. intros [_ Hi]%elem_of_filterb.
  by apply (perm_ids _ _ (getTracks_perm n s)).
Qed.

Lemma boost_loop_spec fuel : forall n capacity l update s, boosts_ok s -> (forall i, i ∈ l -> (i < length (sa_tracks s))%nat) -> 0 <= capacity ->
  12 * Z.of_nat (length (sa_tracks s)) - heights s < Z.of_nat fuel ->
  exists update' s', boost_loop order fuel n capacity l (update, s) = Some (update', s') /\ boosts_ok s' /\ evolves s s' /\ usage s' <= usage s + capacity.
Proof.
  induction fuel as [|fuel IH]; intros n capacity l update s Hb Hl Hc Hf.
  - pose proof (heights_bound s Hb). lia.
  - cbn [boost_loop]. destruct (boost_one_spec capacity l update s Hb Hl) as (r & -> & Hr). cbn [mbind option_bind].
    destruct r as [[delta [u s1]]|]; [|exists update, s; split; [done|]; split; [done|]; split; [apply evolves_itself|lia]].
    destruct Hr as (R1 & R2 & R3 & R4 & R5).
    destruct (Z.leb_spec (capacity - delta) 0); [exists u, s1; split; [done|]; split; [done|]; split; [done|lia]|]. simpl.
    destruct (_ =? 0)%nat; [exists u, s1; split; [done|]; split; [done|]; split; [done|lia]|].
    destruct (IH (S n) (capacity - delta) (getMaxDistanceSortedDeficient order n s1) u s1 R1 (deficient_places n s1)) as (u2 & s2 & -> & P1 & P2 & P3);
      [lia|rewrite (ev_length _ _ R2); lia|].
    exists u2, s2. split; [done|]. split; [done|]. split; [by eapply evolves_trans|lia].
Qed.

End facts.

End Allocator.
Export Allocator.

(** C28: Sharing the channel among the tracks of a subscriber never fails. When
    pausing is allowed, what the allocations of the managed tracks request fits
    into the capacity that is left after the tracks that are exempt; when it is
    not allowed, no managed track ends paused for want of bandwidth. Whatever the
    order in which the map of the tracks is gone through. *)
Theorem bandwidth_shared {D C : Type} `{!DependencySelector D} (order : nat -> list nat -> list nat) (n : nat) (s : StreamAllocator (D := D) (C := C)) :
  (forall n l, order n l ≡ₚ l) -> sa_ok s -> sa_enabled s = true ->
  exists s', allocateAllTracks order n s = Some s' /\ sa_ok s' /\
    let left := Z.max 0 (getAvailableChannelCapacity true s -
      (if DisableEstimationUnmanagedTracks (sa_config s) then 0 else total (fun t => negb (IsManaged t)) (sa_tracks s'))) in
    (sa_allowPause s = true -> total IsManaged (sa_tracks s') <= left) /\
    (sa_allowPause s = false -> forall t, t ∈ sa_tracks s' -> IsManaged t = true -> PauseReason (fw_last (tk_forwarder t)) <> PauseBandwidth).
Proof.
  intros Horder Hok Hen. unfold allocateAllTracks. rewrite Hen. cbn [negb].
  destruct (perm_ids _ _ (getTracks_perm order Horder n s)) as [Hnd Hin]. set (tracks := getTracks order n s) in *.
  destruct (exempt_loop tracks (getAvailableChannelCapacity true s) [] s Hok Hnd) as (u & s1 & -> & X1 & X2); [by intros i Hi; apply Hin|].
  cbn [mbind option_bind snd]. set (left1 := Z.max 0 _).
  assert (Eleft : forall s', evolves s1 s' -> (forall i, managed s1 i = false -> track i s' = track i s1) ->
    Z.max 0 (getAvailableChannelCapacity true s - (if DisableEstimationUnmanagedTracks (sa_config s) then 0 else total (fun t => negb (IsManaged t)) (sa_tracks s'))) = left1).
  { intros s' Hev Hsame. unfold left1. rewrite total_exempt, (ev_length _ _ Hev), (ev_length _ _ X2).
    rewrite (sumZ_perm _ _ _ (getTracks_perm order Horder n s)).
    rewrite (sumZ_ext (exempt s') (exempt s1)); [done|]. intros i _. unfold exempt. rewrite (evolves_managed _ _ i Hev).
    destruct (managed s1 i) eqn:Em; [done|]. unfold req. by rewrite Hsame. }
  destruct ((left1 =? 0) && sa_allowPause s1) eqn:Ep.
  - apply andb_true_iff in Ep as [E0 Ep]. apply Z.eqb_eq in E0.
    destruct (pause_loop tracks u s1 X1 Hnd) as (u2 & s2 & -> & P1 & P2 & P3 & P4); [intros i Hi; rewrite (ev_length _ _ X2); by apply Hin|].
    cbn [mbind option_bind]. eexists. split; [done|]. unfold sa_ok. rewrite send_tracks. split; [done|]. cbn zeta. rewrite (Eleft s2 P2 P3). split.
    + intros _. rewrite total_managed, (sumZ_ext _ (fun _ => 0)).
      * rewrite E0. clear. induction (List.filter _ _); simpl; lia.
      * intros i [Hm Hi%elem_of_seq]%elem_of_filterb. apply P4; [|by rewrite <- (evolves_managed _ _ i P2)].
        apply Hin. rewrite (ev_length _ _ P2), (ev_length _ _ X2) in Hi. lia.
    + rewrite <- (ev_pause _ _ X2), Ep. done.
  - destruct (share_spec order Horder (S n) left1 u s1 X1) as (u2 & s2 & -> & P1 & P2 & P3 & P4 & P5); [lia|].
    cbn [mbind option_bind]. eexists. split; [done|]. unfold sa_ok. rewrite send_tracks. split; [done|]. cbn zeta. rewrite (Eleft s2 P2 P3).
    rewrite <- (ev_pause _ _ X2). by split.
Qed.

(** C29: After a probe, or when a track needs less, the deficient tracks are
    boosted one step after the other: this ends, after at most twelve steps for
    each track, and the bandwidth that is expected to be in use is then at most
    the capacity, unless it was more already, and then nothing is boosted. *)
Theorem headroom_boosted {D C : Type} `{!DependencySelector D} (order : nat -> list nat -> list nat) (fuel n m : nat) (s : StreamAllocator (D := D) (C := C)) (before : Z) :
  (forall n l, order n l ≡ₚ l) -> boosts_ok s -> (12 * length (sa_tracks s) < fuel)%nat -> getExpectedBandwidthUsage order n s = Some before ->
  exists s' after, maybeBoostDeficientTracks order fuel n s = Some s' /\ boosts_ok s' /\ getExpectedBandwidthUsage order m s' = Some after /\
    after <= Z.max before (getAvailableChannelCapacity false s) /\ (getAvailableChannelCapacity false s <= before -> s' = s).
Proof.
  intros Horder Hb Hf. rewrite (usage_spec order Horder n s (boosts_sa_ok s Hb)). intros [= <-].
  unfold maybeBoostDeficientTracks, getAvailableHeadroom, getAvailableHeadroomWithoutTracks.
  fold (getExpectedBandwidthUsage order n s). rewrite (usage_spec order Horder n s (boosts_sa_ok s Hb)). cbn [mbind option_bind].
  destruct (Z.leb_spec (getAvailableChannelCapacity false s - usage s) 0).
  - exists s, (usage s). split; [done|]. split; [done|]. split; [by apply usage_spec, boosts_sa_ok|]. split; [lia|done].
  - assert (Hh : 0 <= heights s). { unfold heights. clear. induction (places s) as [|i l IH]; cbn [sumZ foldr]; [lia|]. unfold sumZ in IH. unfold height at 1. case_match; lia. }
    destruct (boost_loop_spec order Horder fuel (2 + n) (getAvailableChannelCapacity false s - usage s) (getMaxDistanceSortedDeficient order (S n) s) [] s Hb
      (deficient_places order Horder (S n) s)) as (u & s' & -> & P1 & P2 & P3); [lia|lia|]. cbn [mbind option_bind].
    eexists _, (usage s'). split; [done|]. assert (Hb' : boosts_ok (adjustState order (2 + n + fuel) (maybeSendUpdate u s'))) by (unfold boosts_ok; by rewrite send_tracks).
    split; [done|]. split; [rewrite usage_spec by (try done; by apply boosts_sa_ok); by rewrite send_usage|]. lia.
Qed.

(** *** At concrete tracks *)

#[local] Instance sample_selector : DependencySelector unit := {
  dd_select := fun _ _ b d => (not_selected, b, d); dd_rollback := fun b d => (Rollback b, d); dd_new := tt }.

(** Three spatial layers with two temporal layers each. *)
Definition sample_rates : Bitrates := [[100; 150; 0; 0]; [300; 450; 0; 0]; [1000; 1500; 0; 0]].
Definition sample_forwarder : Forwarder unit unit :=
  set_base (fun b => SetMaxSeenTemporal 1 (SetMaxSeenSpatial 2 (SetMaxSpatial 2 b)))
    (set_vls (VSimulcast (SetMaxTemporal 1 NewBase)) (NewForwarder KindVideo false false tt)).
Definition sample_track (screen multi : bool) (priority : Z) : Track (D := unit) (C := unit) :=
  mkTrack sample_forwarder screen multi priority (mkLayer 2 1) false StreamStateInactive [0; 1; 2] sample_rates.
Definition sample_allocator (pause : bool) (capacity : Z) : StreamAllocator (D := unit) (C := unit) :=
  mkAllocator (mkConfig 0 false ProbeModeMedia 120 200) true pause capacity 0 [sample_track true false 255; sample_track false true 1; sample_track false true 2]
    Deficient false false false [].

(** What the tracks get: the target layer, what it takes, and why nothing. *)
Definition got (s : StreamAllocator (D := unit) (C := unit)) : list (VideoLayer * Z * VideoPauseReason) :=
  map (fun t => let a := fw_last (tk_forwarder t) in (TargetLayer a, va_BandwidthRequested a, PauseReason a)) (sa_tracks s).

Lemma sample_forwarder_ok : layers_ok sample_forwarder.
Proof. split; vm_compute; split; split; discriminate. Qed.

Lemma sample_ok pause capacity : sa_ok (sample_allocator pause capacity).
Proof.
  assert (H : forall a b c, track_ok (sample_track a b c)).
  { intros a b c. split; [apply sample_forwarder_ok| |repeat constructor; lia]. split; [done|]. repeat constructor; lia. }
  unfold sa_ok. simpl. by repeat (apply Forall_cons; split; [apply H|]).
Qed.

(** Of 2500, the first takes 1500 whatever there is; the other two share 1000: the one of higher priority is offered first. *)
Lemma bandwidth_shared_witness :
  (forall n l, (fun (_ : nat) (l : list nat) => rev l) n l ≡ₚ l) /\
  got (default (sample_allocator true 2500) (allocateAllTracks (fun _ l => rev l) 0 (sample_allocator true 2500))) =
    [(mkLayer 2 1, 1500, PauseNone); (mkLayer 1 1, 450, PauseNone); (mkLayer 1 1, 450, PauseNone)] /\
  exists s', allocateAllTracks (fun _ l => rev l) 0 (sample_allocator true 1600) = Some s' /\ sa_ok s' /\
    (sa_allowPause (sample_allocator true 1600) = true -> total IsManaged (sa_tracks s') <=
      Z.max 0 (getAvailableChannelCapacity true (sample_allocator true 1600) - total (fun t => negb (IsManaged t)) (sa_tracks s'))).
Proof.
  assert (H : forall n l, (fun (_ : nat) (l : list nat) => rev l) n l ≡ₚ l) by (intros _ l; symmetry; apply Permutation_rev).
  split; [exact H|]. split; [vm_compute; reflexivity|].
  destruct (bandwidth_shared (fun (_ : nat) (l : list nat) => rev l) 0 (sample_allocator true 1600) H (sample_ok true 1600) eq_refl) as (s' & E & Hok & Hp & _).
  exists s'. split; [exact E|]. split; [exact Hok|exact Hp].
Defined.

(** The channel recovers, after the two of low priority got little. *)
Definition sample_recovered (capacity : Z) : StreamAllocator (D := unit) (C := unit) :=
  set_capacity capacity 0 (default (sample_allocator true 1600) (allocateAllTracks (fun _ l => l) 0 (sample_allocator true 1600))).

Lemma sample_recovered_ok capacity : boosts_ok (sample_recovered capacity).
Proof.
  unfold boosts_ok, sample_recovered. set (l := sa_tracks _). vm_compute in l. subst l.
  repeat (apply Forall_cons; split); [| | |done];
    (split; [split; [split; vm_compute; split; split; discriminate|split; [done|]; repeat constructor; lia|repeat constructor; lia]|vm_compute; discriminate|discriminate]).
Qed.

(** There are 1300 for the two: one of them gets all layers but the last, the other what is left. *)
Lemma headroom_boosted_witness :
  (forall n l, (fun (_ : nat) (l : list nat) => l) n l ≡ₚ l) /\
  got (sample_recovered 2800) = [(mkLayer 2 1, 1500, PauseNone); (InvalidLayer, 0, PauseBandwidth); (mkLayer 0 0, 100, PauseNone)] /\
  got (default (sample_recovered 0) (maybeBoostDeficientTracks (fun _ l => l) 37 0 (sample_recovered 2800))) =
    [(mkLayer 2 1, 1500, PauseNone); (mkLayer 1 0, 300, PauseNone); (mkLayer 2 0, 1000, PauseNone)] /\
  exists s' after, maybeBoostDeficientTracks (fun _ l => l) 37 0 (sample_recovered 2800) = Some s' /\ boosts_ok s' /\
    getExpectedBandwidthUsage (fun _ l => l) 0 s' = Some after /\ after <= Z.max 1600 2800.
Proof.
  split; [intros _ l; reflexivity|]. split; [vm_compute; reflexivity|]. split; [vm_compute; reflexivity|].
  destruct (headroom_boosted (fun _ l => l) 37 0 0 (sample_recovered 2800) 1600) as (s' & after & E & Hb & Ea & Hle & _);
    [intros _ l; reflexivity|apply sample_recovered_ok|vm_compute; lia|vm_compute; reflexivity|].
  exists s', after. split; [exact E|]. split; [exact Hb|]. split; [exact Ea|exact Hle].
Defined.
