(* ===== verification/StreamNumbers.v ===== *)
(** * The numbers of a stream from switch to switch

    Lemmas on RtpMunger for a stream whose source may be gone for a while: while no
    source is forwarded, packets may still be counted and padding may go out
    ([mweak]); a switch brings the full invariant back. What was sent is kept as a
    log, of the source and the incoming number or of padding, with the number it
    went out under ([linked]). *)

From S2P Require Import Prelude RangeMap Vp8 RtpMunger.
#[local] Open Scope Z_scope.

Module StreamNumbers.

(** ** While no source is forwarded *)

Record mweak (r : RTPMunger) (ep : nat) (sent : list (item * Z)) : Prop := {
  mw_map : rm_ok (snRangeMap r);
  mw_high : 0 <= extHighestIncomingSN r < sn_limit;
  mw_last : 0 <= extLastSN r < two63;
  mw_open : open_start (snRangeMap r) <= extHighestIncomingSN r + 1;
  mw_offset : snOffset r = open_value (snRangeMap r);
  mw_next : exists d, 0 <= d <= 1 /\ wrap_uint64 (extHighestIncomingSN r + 1 - snOffset r) = extLastSN r + d;
  mw_unique : unique_sent sent;
  mw_sent : forall i o, (i, o) ∈ sent -> o <= extLastSN r /\ match i with Pkt e _ => (e <= ep)%nat | Pad n => (n < length sent)%nat end }.

Lemma ok_weak r ph ep sent : munger_ok (mkMState r ph ep sent) -> mweak r ep sent.
Proof.
  intros [Hm Hh HL Ho Hoff Hn (g & [_ _ _ Hgs]) Hu _]. simpl in *. split; try done.
  - exists (pending ph). split; [destruct ph; simpl; lia|done].
  - intros i o Hi. apply Hgs in Hi as [Hi1 Hi2]. simpl in *. split; [destruct ph; simpl in *; lia|].
    destruct i as [e k|n]; [|apply Hi2]. destruct Hi2 as [[? _]|[-> _]]; lia.
Qed.

Lemma weak_last r r' ep sent : mweak r ep sent -> extLastSN r <= extLastSN r' ->
  forall i o, (i, o) ∈ sent -> o <= extLastSN r' /\ match i with Pkt e _ => (e <= ep)%nat | Pad n => (n < length sent)%nat end.
Proof. intros H Hle i o Hi. apply (mw_sent _ _ _ H) in Hi as [? ?]. split; [lia|done]. Qed.

(** A packet in order, counted as one that is sent. *)
Lemma weak_in_order p mk ord r ep sent : mweak r ep sent -> extHighestIncomingSN r < ep_ExtSequenceNumber p < sn_limit -> extLastSN r < sn_limit ->
  let '(tp, r') := forward_in_order p mk ord r in mweak r' ep sent /\ snOrdering tp = ord /\
    extHighestIncomingSN r' = ep_ExtSequenceNumber p /\ extSecondLastSN r' = extLastSN r.
Proof.
  intros H Hsn HL2. pose proof H as [Hm Hh HL Ho Hoff (d & Hd & Hn) Hu _].
  pose proof (forward_in_order_facts p mk ord r) as Hf. destruct (forward_in_order p mk ord r) as [tp r'].
  destruct Hf as (-> & F1 & F2 & F3 & F4 & F5). simpl in F3. split_and!; try done.
  assert (E : extLastSN r' = extLastSN r + d + (ep_ExtSequenceNumber p - extHighestIncomingSN r - 1)).
  { rewrite F3. replace (ep_ExtSequenceNumber p - snOffset r) with (extHighestIncomingSN r + 1 - snOffset r + (ep_ExtSequenceNumber p - extHighestIncomingSN r - 1)) by lia.
    apply wrap_add; [done|]. unfold sn_limit, two64 in *. lia. }
  split; rewrite ?F1, ?F2, ?F5; try done; try lia.
  - rewrite E. unfold sn_limit, two63 in *. lia.
  - exists 1. split; [lia|]. replace (ep_ExtSequenceNumber p + 1 - snOffset r) with (ep_ExtSequenceNumber p - snOffset r + 1) by lia.
    apply wrap_add; [by rewrite F3|]. rewrite E. unfold sn_limit, two64 in *. lia.
  - apply (weak_last r r' ep sent H). lia.
Qed.

(** The next number is taken out. *)
Lemma weak_removed r r' ep sent : mweak r ep sent -> extHighestIncomingSN r' = extHighestIncomingSN r + 1 -> extHighestIncomingSN r' < sn_limit ->
  rm_ok (snRangeMap r') -> open_start (snRangeMap r') = extHighestIncomingSN r' + 1 ->
  open_value (snRangeMap r') = wrap_uint64 (open_value (snRangeMap r) + 1) ->
  extLastSN r' = extLastSN r -> snOffset r' = open_value (snRangeMap r') -> mweak r' ep sent.
Proof.
  intros H E1 Hsn Hm' Ho' Hv' E2 E3. pose proof H as [Hm Hh HL Ho Hoff (d & Hd & Hn) Hu _].
  split; rewrite ?E2; try done; try lia.
  - exists d. split; [done|]. rewrite E1, E3, Hv', wrap_sub_wrap, <- Hoff. rewrite <- Hn. f_equal. lia.
  - intros i o Hi. pose proof (weak_last r r' ep sent H ltac:(lia) i o Hi) as [? ?]. by rewrite <- E2.
Qed.

Lemma next_open m sn : rm_ok m -> 0 <= sn < sn_limit -> open_start m = sn + 1 -> GetValue (wrap_uint64 (sn + 1)) m = inr (open_value m).
Proof.
  intros Hm Hsn Ho. rewrite wrap_u64_id by (unfold sn_limit, two63 in *; lia).
  apply value_at_settled; [done|unfold sn_limit, two63 in *; lia|]. apply value_at_open; [done|lia].
Qed.

(** A packet of whatever source is counted: nothing panics, and it can be taken back when it came in order. *)
Lemma weak_update p mk r ep sent : mweak r ep sent -> fits (ep_ExtSequenceNumber p) = true -> extLastSN r < sn_limit ->
  exists res m, UpdateAndGetSnTs p mk r = Some (res, m) /\ mweak m ep sent /\
    match res with
    | inl e => e <> PaddingNotOnFrameBoundary
    | inr tp => snOrdering tp <> Duplicate /\ (snOrdering tp = Contiguous -> exists m', PacketDropped p m = Some m' /\ mweak m' ep sent)
    end.
Proof.
  intros H Hsn%fits_range HL2. pose proof H as [Hm Hh HL Ho Hoff Hn Hu _]. unfold UpdateAndGetSnTs.
  rewrite diff_signed by (apply limit_small; lia). set (d := ep_ExtSequenceNumber p - extHighestIncomingSN r).
  destruct ((d =? 1) && _ || (1 <? d)) eqn:Hd; [|destruct (Z.ltb_spec d 0) as [Hneg|Hneg]; [|destruct (Z.eqb_spec d 1) as [Hone|Hone]]].
  - assert (Hd1 : 1 <= d) by (apply orb_true_iff in Hd as [Hd|Hd]; bools; lia).
    pose proof (weak_in_order p mk (if 1 <? d then Gap else Contiguous) r ep sent H ltac:(lia) HL2) as Hf.
    pose proof (forward_in_order_facts p mk (if 1 <? d then Gap else Contiguous) r) as Hf'.
    destruct (forward_in_order _ _ _ _) as [tp m]. destruct Hf as (W & Eo & E1 & E2). destruct Hf' as (_ & _ & F2 & _).
    eexists _, m. split; [done|]. split; [done|]. rewrite Eo. split; [by destruct (1 <? d)|]. destruct (Z.ltb_spec 1 d) as [|Hle]; [done|]. intros _.
    unfold PacketDropped. rewrite E1, Z.eqb_refl. simpl. pose proof W as [Wm Wh _ _ _ _ _ _].
    destruct (exclude_highest_ok m Wm Wh) as (m2 & -> & Hm2 & _ & _ & Ho2 & Hv2); [rewrite F2, E1; lia|].
    simpl. eexists. split; [done|]. apply (weak_removed r); simpl; try done; try lia; rewrite ?E1, ?F2 in *; try done.
    by rewrite (next_open m2) by done.
  - destruct (forward_late p r) as [e|tp] eqn:El; (eexists _, r; split; [done|]; split; [done|]); unfold forward_late in El; repeat case_match; by simplify_eq.
  - destruct (exclude_highest_ok (set_sns (ep_ExtSequenceNumber p) (snRangeMap r) (extLastSN r) (extSecondLastSN r) r)) as (m & -> & Hm' & _ & _ & Ho' & Hv'); simpl in *; [done|lia|lia|].
    eexists _, _. split; [done|]. split; [|done]. apply (weak_removed r); simpl; try done; try lia.
    by rewrite (next_open m) by (done || lia).
  - eexists _, r. done.
Qed.

(** Where padding goes: right after the last number. *)
Lemma padding_items (sent : list (item * Z)) (last : Z) (vals : list SnTs) : st_SN <$> vals = seqZ (last + 1) (Z.of_nat (length vals)) ->
  forall i o, (i, o) ∈ pad_items (length sent) vals ->
  last < o <= last + Z.of_nat (length vals) /\ exists k, i = Pad (length sent + k) /\ o = last + 1 + Z.of_nat k /\ (k < length vals)%nat.
Proof.
  intros Hv i o (k & v & [= -> ->] & Hk')%elem_of_lookup_imap. assert (Hk2 : (st_SN <$> vals) !! k = Some (st_SN v)) by by rewrite list_lookup_fmap, Hk'.
  rewrite Hv in Hk2. apply lookup_seqZ in Hk2 as [Hk2 Hk3]. split; [lia|]. exists k. split_and!; [done|lia|]. by eapply lookup_lt_Some.
Qed.

Definition pads_of (res : result munger_error (list SnTs)) : list SnTs := match res with inr vals => vals | inl _ => [] end.

Lemma weak_padding num c fr force ts r ep sent : mweak r ep sent -> 0 <= num < sn_limit -> extLastSN r < sn_limit ->
  exists res m, UpdateAndGetPaddingSnTs num c fr force ts r = Some (res, m) /\ mweak m ep (sent ++ pad_items (length sent) (pads_of res)).
Proof.
  intros H Hnum HL2. pose proof H as [Hm Hh HL Ho Hoff (d & Hd & Hn) Hu _]. unfold UpdateAndGetPaddingSnTs.
  assert (Hsame : mweak r ep (sent ++ pad_items (length sent) [])) by by rewrite app_nil_r.
  destruct (Z.eqb_spec num 0) as [->|Hn0]; [by eexists _, _|]. destruct (_ && _); [by eexists _, _|]. rewrite (proj2 (Z.ltb_ge num 0)) by lia.
  destruct (padding_sns (Z.to_nat num) 0 c fr (negb (lastMarker r)) ts (extLastSN r) (extLastTS r) (extLastTS r)) as [Hv Hl].
  { lia. } { unfold sn_limit, two64 in *. lia. }
  rewrite Z2Nat.id in Hv, Hl by lia. destruct (padding_vals _ _ _ _ _ _ _ _ _) as [vals [lsn lts]]. simpl in Hv, Hl. subst lsn.
  assert (Hlen : Z.of_nat (length vals) = num) by (apply (f_equal length) in Hv; rewrite length_fmap, length_seqZ in Hv; lia). rewrite <- Hlen in Hv.
  destruct (DecValue_spec (extHighestIncomingSN r) (wrap_uint64 num) (snRangeMap r) Hm) as (m & -> & Hm' & _ & Ho' & Hv').
  { unfold sn_limit, two63 in *. lia. } { done. }
  simpl. rewrite wrap_sub_wrap in Hv'. eexists _, _. split; [done|]. simpl.
  pose proof (updateSnOffset_open (set_sns (extHighestIncomingSN r) m (extLastSN r + num) (wrap_uint64 (extLastSN r + num - 1)) r) Hm') as Hoff'.
  simpl in Hoff'. specialize (Hoff' ltac:(unfold sn_limit, two63 in *; lia) Ho'). pose proof (padding_items sent (extLastSN r) vals Hv) as Hnew.
  assert (Hlp : length (pad_items (length sent) vals) = length vals) by (unfold pad_items; by rewrite length_imap).
  set (pads := pad_items _ vals) in *. clearbody pads. rewrite <- Hlp in Hlen. split; simpl; try done.
  - unfold sn_limit, two63 in *. lia.
  - exists d. split; [done|]. rewrite Hoff', Hv', wrap_sub_wrap, <- Hoff.
    replace (extHighestIncomingSN r + 1 - (snOffset r - num)) with (extHighestIncomingSN r + 1 - snOffset r + num) by lia.
    erewrite wrap_add; [|exact Hn|]; [lia|]. unfold sn_limit, two64, two63 in *. lia.
  - apply (unique_app _ _ (extLastSN r)); try done.
    + intros i o Hi. by apply (mw_sent _ _ _ H) in Hi as [? _].
    + intros i j o o' (? & k & -> & -> & ?)%Hnew (? & k' & -> & -> & ?)%Hnew. split; [intros [= ?]; lia|]. intros E. f_equal. lia.
    + intros i o Hi%Hnew. lia.
    + intros i o o' Hi (? & k & -> & _)%Hnew. apply (mw_sent _ _ _ H) in Hi as (_ & Hi). lia.
  - intros i o [Hi|Hi]%elem_of_app; rewrite length_app.
    + apply (mw_sent _ _ _ H) in Hi as [? ?]. split; [lia|]. destruct i; lia.
    + apply Hnew in Hi as (? & k & -> & ? & ?). split; [lia|]. lia.
Qed.

(** A switch starts afresh. *)
Lemma weak_switch p ts r ep sent : mweak r ep sent -> fits (ep_ExtSequenceNumber p) = true -> extLastSN r < sn_limit ->
  munger_ok (mkMState (UpdateSnTsOffsets p 1 ts r) Aligned (S ep) sent).
Proof.
  intros [Hm Hh HL Ho Hoff Hn Hu Hs] Hsn%fits_range HL2. unfold UpdateSnTsOffsets. set (sn := ep_ExtSequenceNumber p) in *. clearbody sn.
  pose proof (limit_small sn ltac:(lia) ltac:(lia)) as Hsn2.
  set (v := wrap_uint64 (sn - extLastSN r - 1)). assert (Hv : 0 <= v < two64) by apply wrap_uint64_range.
  assert (Hw : wrap_uint64 (sn - 1) = sn - 1) by (apply wrap_u64_id; lia). rewrite Hw.
  set (m := ClearAndResetValue sn v (snRangeMap r)). assert (Hm' : rm_ok m) by by apply ClearAndResetValue_ok.
  pose proof (updateSnOffset_open (set_sns (sn - 1) m (extLastSN r) (extSecondLastSN r) r) Hm') as Hoff'.
  simpl in Hoff'. specialize (Hoff' ltac:(lia)). unfold open_start in Hoff'. simpl in Hoff'. specialize (Hoff' ltac:(lia)).
  split; simpl; try done; try lia.
  - unfold open_start. simpl. lia.
  - rewrite Hoff', Z.sub_add. unfold open_value. simpl. unfold v. rewrite wrap_sub_wrap.
    replace (sn - (sn - extLastSN r - 1)) with (extLastSN r + 1) by lia. apply wrap_uint64_small. unfold two63, two64 in *. lia.
  - exists (fun _ => None). split; simpl; try done.
    + intros k w Hk. unfold value_at, lookup. simpl. by rewrite (proj2 (Z.ltb_lt _ _)) by lia.
    + intros i o Hi. apply Hs in Hi as [Hi1 Hi2]. split; [lia|]. destruct i as [e k|n]; [left; split; [lia|done]|split; [done|done]].
Qed.

(** ** The log *)

(** What went out: a packet by its source and incoming number, or padding. *)
Notation sent_log := (list (option (Z * Z) * Z)).

Definition log_unique (log : sent_log) : Prop :=
  forall i j x y o, log !! i = Some (x, o) -> log !! j = Some (y, o) -> i <> j -> x = y /\ x <> None.

(** The source [src] names for every epoch. *)
Definition entry_ok (sent : list (item * Z)) (src : nat -> Z) (ep : nat) (e : option (Z * Z) * Z) : Prop :=
  match e with
  | (Some (ssrc, sn), o) => exists k, (k <= ep)%nat /\ src k = ssrc /\ (Pkt k sn, o) ∈ sent
  | (None, o) => exists n, (Pad n, o) ∈ sent
  end.

(** The stream is that of the source [ssrc], or of none when it is zero. *)
Definition linked (r : RTPMunger) (ssrc : Z) (log : sent_log) : Prop := exists ep sent src,
  mweak r ep sent /\ Forall (entry_ok sent src ep) log /\ log_unique log /\
  (ssrc <> 0 -> src ep = ssrc /\ exists ph, ph <> Stale /\ munger_ok (mkMState r ph ep sent)).

Lemma linked_none r ssrc log : linked r ssrc log -> linked r 0 log.
Proof. intros (ep & sent & src & ? & ? & ? & _). by exists ep, sent, src. Qed.

Lemma log_unique_prefix log k : log_unique (log ++ k) -> log_unique log.
Proof. intros H i j x y o Hi Hj. apply (H i j x y o); by apply lookup_app_l_Some. Qed.

Lemma linked_prefix r ssrc log k : linked r ssrc (log ++ k) -> linked r ssrc log.
Proof.
  intros (ep & sent & src & H1 & H2 & H3 & H4). exists ep, sent, src. apply Forall_app in H2 as [H2 _]. apply log_unique_prefix in H3. done.
Qed.

Lemma entry_grows sent sent' src ep e : (forall x, x ∈ sent -> x ∈ sent') -> entry_ok sent src ep e -> entry_ok sent' src ep e.
Proof. intros H. destruct e as [[[ssrc sn]|] o]; simpl; intros; destruct_and?; repeat match goal with H : exists _, _ |- _ => destruct H end; destruct_and?; eauto 6. Qed.

Lemma log_snoc log x o : log_unique log -> (forall j y, log !! j = Some (y, o) -> x = y /\ x <> None) -> log_unique (log ++ [(x, o)]).
Proof.
  intros Hl Hx i j a b v Hi Hj Hij. apply lookup_snoc_Some in Hi as [[Hi1 Hi]|[-> Hi]], Hj as [[Hj1 Hj]|[-> Hj]]; simplify_eq; try done.
  - by eapply Hl.
  - destruct (Hx _ _ Hi) as [-> ?]. done.
  - by apply (Hx j).
Qed.

Lemma linked_start p r ssrc : rm_ok (snRangeMap r) -> fits (ep_ExtSequenceNumber p) = true -> linked (SetLastSnTs p r) ssrc [].
Proof.
  intros Hr Hf. pose proof (mstart_ok p r Hr Hf) as Hok. exists 0%nat, [], (fun _ => ssrc). split; [by apply ok_weak in Hok|].
  split; [done|]. split; [by intros i j x y o Hi; rewrite lookup_nil in Hi|]. intros _. split; [done|]. by exists Unused.
Qed.

Lemma linked_switch p ts r old ssrc log : linked r old log -> fits (ep_ExtSequenceNumber p) = true -> extLastSN r < sn_limit ->
  linked (UpdateSnTsOffsets p 1 ts r) ssrc log.
Proof.
  intros (ep & sent & src & H1 & H2 & H3 & _) Hf HL. pose proof (weak_switch p ts r ep sent H1 Hf HL) as Hok.
  exists (S ep), sent, (fun k => if decide (k = S ep) then ssrc else src k). split; [by apply ok_weak in Hok|]. split; [|split; [done|]].
  - eapply Forall_impl; [exact H2|]. intros [[[s sn]|] o]; simpl; [|done]. intros (k & Hk & Hs & Hi). exists k. rewrite decide_False by lia. split; [lia|done].
  - intros _. rewrite decide_True by done. split; [done|]. by exists Aligned.
Qed.

(** A packet of the source. *)
Lemma linked_packet p mk r ssrc log : linked r ssrc log -> ssrc <> 0 -> fits (ep_ExtSequenceNumber p) = true -> extLastSN r < sn_limit ->
  exists res m, UpdateAndGetSnTs p mk r = Some (res, m) /\
    match res with
    | inl e => e <> PaddingNotOnFrameBoundary /\ linked m ssrc log
    | inr tp => snOrdering tp <> Duplicate /\ linked m ssrc (log ++ [(Some (ssrc, ep_ExtSequenceNumber p), tp_SN tp)]) /\
        (snOrdering tp = Contiguous -> exists m', PacketDropped p m = Some m' /\ linked m' ssrc log)
    end.
Proof.
  intros (ep & sent & src & H1 & H2 & H3 & H4) Hne Hf HL. destruct (H4 Hne) as (Hsrc & ph & Hph & Hok).
  destruct (weak_update p mk r ep sent H1 Hf HL) as (res & m & E & _ & Hres). exists res, m. split; [done|].
  assert (Ha : forall drop, allowed (EPacket p mk drop) (mkMState r ph ep sent) = true).
  { intros drop. unfold allowed. simpl. rewrite Hf, (proj2 (Z.ltb_lt _ _)) by done. by destruct ph. }
  assert (Hkeep : forall m', munger_ok (mkMState m' ph ep sent) -> linked m' ssrc log).
  { intros m' Hm'. exists ep, sent, src. split; [by apply ok_weak in Hm'|]. split; [done|]. split; [done|]. intros _. split; [done|]. by exists ph. }
  assert (Hsend : forall m' ph' o, ph' <> Stale -> munger_ok (send (Pkt ep (ep_ExtSequenceNumber p)) o (mkMState m' ph' ep sent)) ->
    linked m' ssrc (log ++ [(Some (ssrc, ep_ExtSequenceNumber p), o)])).
  { intros m' ph' o Hph' Hm'. unfold send in Hm'. simpl in Hm'. exists ep, (sent ++ [(Pkt ep (ep_ExtSequenceNumber p), o)]), src.
    assert (Hin : (Pkt ep (ep_ExtSequenceNumber p), o) ∈ sent ++ [(Pkt ep (ep_ExtSequenceNumber p), o)]) by (apply elem_of_app; right; apply list_elem_of_here).
    split; [by apply ok_weak in Hm'|]. split; [|split; [|intros _; split; [done|by exists ph']]].
    - apply Forall_app. split; [|apply Forall_singleton; simpl; exists ep; done]. eapply Forall_impl; [exact H2|]. intros e. apply entry_grows. intros x Hx. apply elem_of_app. by left.
    - apply log_snoc; [done|]. intros j y Hj. rewrite Forall_forall in H2. apply list_elem_of_lookup_2, H2 in Hj. pose proof (mo_unique _ Hm') as Hu. simpl in Hu.
      destruct y as [[s sn]|]; simpl in Hj; [destruct Hj as (k & Hk & <- & Hi)|destruct Hj as (n & Hi)];
        (assert (Hi' := proj2 (elem_of_app sent [(Pkt ep (ep_ExtSequenceNumber p), o)] _) (or_introl Hi)); pose proof (proj2 (Hu _ _ _ _ Hin Hi') eq_refl) as E'; simplify_eq).
      done. }
  destruct (packet_ok p mk false _ Hok (Ha false)) as (s' & E1 & Hok1). revert E1. unfold mstep, packet_step. simpl. rewrite E. simpl.
  destruct res as [e|tp]; [intros [= <-]; split; [done|]; by apply Hkeep|]. destruct Hres as [Hd _]. split; [done|].
  rename H1 into Hw. revert E1. intros E1. split.
  - destruct (snOrdering tp) eqn:Eo; injection E1 as <-; [by apply (Hsend m Aligned)|by apply (Hsend m ph)|by apply (Hsend m Aligned)|done].
  - intros Eo. destruct (packet_ok p mk true _ Hok (Ha true)) as (s2 & E2 & Hok2). revert E2. unfold mstep, packet_step. simpl. rewrite E. simpl. rewrite Eo.
    destruct (PacketDropped p m) as [m'|]; [|done]. intros [= <-]. exists m'. split; [done|]. by apply Hkeep.
Qed.

(** A packet that is only counted. *)
Lemma linked_counted p mk r ssrc log : linked r ssrc log -> fits (ep_ExtSequenceNumber p) = true -> extLastSN r < sn_limit ->
  exists res m, UpdateAndGetSnTs p mk r = Some (res, m) /\ linked m ssrc log /\
    match res with
    | inr tp => snOrdering tp = Contiguous -> exists m', PacketDropped p m = Some m' /\ linked m' ssrc log
    | inl _ => True
    end.
Proof.
  intros Hl Hf HL. destruct (decide (ssrc = 0)) as [->|Hne].
  - destruct Hl as (ep & sent & src & H1 & H2 & H3 & _). destruct (weak_update p mk r ep sent H1 Hf HL) as (res & m & E & Hm & Hres). exists res, m. split; [done|].
    assert (Hk : forall m', mweak m' ep sent -> linked m' 0 log) by (intros m' Hm'; by exists ep, sent, src).
    split; [by apply Hk|]. destruct res as [|tp]; [done|]. intros Eo. destruct (proj2 Hres Eo) as (m' & ? & ?). exists m'. split; [done|]. by apply Hk.
  - destruct (linked_packet p mk r ssrc log Hl Hne Hf HL) as (res & m & E & Hres). exists res, m. split; [done|]. destruct res as [e|tp]; [by destruct Hres|].
    destruct Hres as (_ & Hl' & Hc). split; [by eapply linked_prefix|done].
Qed.

Definition log_pads (vals : list SnTs) : sent_log := map (fun v => (None, st_SN v)) vals.

(** Padding, once something of the source was sent. *)
Lemma linked_padding num c fr force ts r ssrc log : linked r ssrc log -> (ssrc = 0 \/ log <> []) -> 0 <= num < sn_limit -> extLastSN r < sn_limit ->
  exists res m, UpdateAndGetPaddingSnTs num c fr force ts r = Some (res, m) /\ linked m ssrc (log ++ log_pads (pads_of res)).
Proof.
  intros (ep & sent & src & H1 & H2 & H3 & H4) Hlog Hnum HL.
  destruct (weak_padding num c fr force ts r ep sent H1 Hnum HL) as (res & m & E & Hm). exists res, m. split; [done|].
  set (vals := pads_of res) in *. exists ep, (sent ++ pad_items (length sent) vals), src. split; [done|].
  assert (Hin : forall k v, vals !! k = Some v -> (Pad (length sent + k), st_SN v) ∈ sent ++ pad_items (length sent) vals).
  { intros k v Hk. apply elem_of_app. right. unfold pad_items. apply elem_of_lookup_imap. by exists k, v. }
  split; [|split].
  - apply Forall_app. split; [eapply Forall_impl; [exact H2|]; intros e; apply entry_grows; intros x Hx; apply elem_of_app; by left|].
    apply Forall_forall. intros [x o] Hx. unfold log_pads in Hx. apply list_elem_of_fmap in Hx as (v & [= -> ->] & Hv). apply list_elem_of_lookup in Hv as [k Hk].
    simpl. eexists. by apply Hin.
  - assert (Hold : forall i x o k v, log !! i = Some (x, o) -> vals !! k = Some v -> o = st_SN v -> False).
    { intros i x o k v Hi Hk ->. rewrite Forall_forall in H2. apply list_elem_of_lookup_2, H2 in Hi. pose proof (mw_unique _ _ _ Hm) as Hu.
      destruct x as [[s sn]|]; simpl in Hi; [destruct Hi as (k' & _ & _ & Hi)|destruct Hi as (n & Hi)];
        pose proof (proj2 (Hu _ _ _ _ (proj2 (elem_of_app _ _ _) (or_introl Hi)) (Hin k v Hk)) eq_refl); simplify_eq.
      apply (mw_sent _ _ _ H1) in Hi as [_ Hi]. lia. }
    assert (Hpad : forall j x o, log_pads vals !! j = Some (x, o) -> x = None /\ exists v, vals !! j = Some v /\ o = st_SN v).
    { intros j x o Hj. unfold log_pads in Hj. rewrite list_lookup_fmap in Hj. destruct (vals !! j) as [v|]; [|done]. simpl in Hj. simplify_eq. eauto. }
    intros i j x y o Hi Hj Hij. apply lookup_app_Some in Hi as [Hi|[Hi1 Hi]], Hj as [Hj|[Hj1 Hj]].
    + by eapply H3.
    + apply Hpad in Hj as (-> & v & Hv & ->). exfalso. by eapply Hold.
    + apply Hpad in Hi as (-> & v & Hv & ->). exfalso. by eapply Hold.
    + apply Hpad in Hi as (-> & v & Hv & ->), Hj as (-> & w & Hw & Evw). exfalso. pose proof (mw_unique _ _ _ Hm) as Hu.
      pose proof (Hin _ _ Hv) as A1. pose proof (Hin _ _ Hw) as A2. pose proof (proj2 (Hu _ _ _ _ A1 A2) Evw). simplify_eq. lia.
  - intros Hne. destruct (H4 Hne) as (Hsrc & ph & Hph & Hok). split; [done|]. destruct Hlog as [|Hlog]; [done|].
    assert (ph = Aligned) as ->.
    { destruct ph; [exfalso|done|done]. destruct (mo_unused _ Hok eq_refl) as [Hs _]. simpl in Hs. subst sent.
      destruct log as [|[[[s sn]|] o] log]; [done|..]; apply Forall_cons in H2 as [H2 _]; simpl in H2; [destruct H2 as (? & _ & _ & H2)|destruct H2 as (? & H2)]; by apply elem_of_nil in H2. }
    exists Aligned. split; [done|]. destruct (padding_ok num c fr force ts _ Hok) as (s' & E' & Hok').
    { unfold allowed. simpl. rewrite (proj2 (Z.ltb_lt _ _)) by done. simpl. apply andb_true_iff. split; [apply Z.leb_le|apply Z.ltb_lt]; lia. }
    unfold mstep in E'. simpl in E'. rewrite E in E'. simpl in E'. destruct res as [e|[|v vs]]; simpl in *; simplify_eq; [..|done];
      unfold set_r in Hok'; simpl in Hok'; unfold vals, pads_of, pad_items; simpl; by rewrite app_nil_r.
Qed.

End StreamNumbers.
Export StreamNumbers.
