(* ===== verification/Translation.v ===== *)
(** * What becomes of a packet on its way to a subscriber

    Model of the packet path of pkg/sfu/forwarder.go of the media server, on top
    of the selectors of layers, the mungers of numbers and of VP8 descriptors. A
    packet is dropped or translated; the subscriber sees one stream, whatever
    source it comes from. The clock comes in as [Clock]: what the statistics
    expect the timestamp to be now, and the time since the start. Seconds are
    [float64]. [ntp_time] is the time of an NTP timestamp in nanoseconds, of the
    mediatransportutil package. [None] is a panic. *)

From Stdlib Require Import SpecFloat.
From S2P Require Import Prelude RangeMap Vp8 RtpMunger StreamNumbers Vp8Munger Sps DownTrack Layers Forwarder.
#[local] Open Scope Z_scope.

Module Translation.

Definition wrap_uint32 (z : Z) : Z := z mod 2 ^ 32.

(** ** The munger of a codec *)

(** VP8MungerState of the protocol package. *)
Record VP8MungerState := mkVP8State {
  ExtLastPictureId : Z; PictureIdUsed : bool; LastTl0PicIdx : Z; Tl0PicIdxUsed : bool; TidUsed : bool; LastKeyIdx : Z; KeyIdxUsed : bool }.

Section codecs.
Context {M : Type -> Type} `{!OrderedMap M}.

Definition GetState_VP8 (v : VP8M (M := M)) : VP8MungerState :=
  mkVP8State (extLastPictureId v) (pictureIdUsed v) (lastTl0PicIdx v) (tl0PicIdxUsed v) (tidUsed v) (lastKeyIdx v) (keyIdxUsed v).
Definition SeedState_VP8 (s : option VP8MungerState) (v : VP8M (M := M)) : VP8M (M := M) :=
  match s with
  | None => v
  | Some s =>
      set_last (ExtLastPictureId s) (LastTl0PicIdx s mod 256) (LastKeyIdx s mod 256)
        (set_used (PictureIdUsed s) (Tl0PicIdxUsed s) (TidUsed s) (KeyIdxUsed s) v)
  end.

(** The null munger keeps the state it was given. *)
Inductive CodecMunger := CMNull (seededState : option VP8MungerState) | CMVP8 (v : VP8M (M := M)).

Definition NewVP8FromOther (c : CodecMunger) : CodecMunger :=
  CMVP8 (SeedState_VP8 (match c with CMNull s => s | CMVP8 v => Some (GetState_VP8 v) end) NewVP8).
Definition cm_GetState (c : CodecMunger) : option VP8MungerState := match c with CMNull _ => None | CMVP8 v => Some (GetState_VP8 v) end.
Definition cm_SeedState (s : option VP8MungerState) (c : CodecMunger) : CodecMunger :=
  match c with CMNull _ => CMNull s | CMVP8 v => CMVP8 (SeedState_VP8 s v) end.
Definition cm_SetLast (p : ExtPacket) (c : CodecMunger) : CodecMunger := match c with CMNull s => CMNull s | CMVP8 v => CMVP8 (SetLast p v) end.
Definition cm_UpdateOffsets (p : ExtPacket) (c : CodecMunger) : CodecMunger :=
  match c with CMNull s => CMNull s | CMVP8 v => CMVP8 (UpdateOffsets p v) end.
Definition cm_UpdateAndGet (p : ExtPacket) (late gap : bool) (maxTemporal : Z) (c : CodecMunger)
  : option (result codec_error (Z * list Z) * CodecMunger) :=
  match c with
  | CMNull s => Some (inr (0, []), CMNull s)
  | CMVP8 v => '(r, v) ← UpdateAndGet p late gap maxTemporal v; Some (r, CMVP8 v)
  end.
Definition cm_UpdateAndGetPadding (newPicture : bool) (c : CodecMunger) : option (result vp8_error (list Z) * CodecMunger) :=
  match c with
  | CMNull s => Some (inr [], CMNull s)
  | CMVP8 v => '(r, v) ← UpdateAndGetPadding newPicture v; Some (r, CMVP8 v)
  end.

End codecs.
#[global] Arguments CodecMunger : clear implicits.

(** ** The clock *)

(** What the statistics of the sender say: nothing when there are none, an error
    before the first packet. *)
Inductive Expected := NoStats | StatsError | StatsAt (extTS : Z).
Record Clock := mkClock { ck_expected : Expected; ck_since : Z }.

Definition float64 (n : Z) : spec_float := binary_normalize 53 1024 n 0 false.
Definition float64_zero : spec_float := S754_zero false.
Definition float_lt (x y : spec_float) : bool := match SFcompare x y with Some Lt => true | _ => false end.
(** [float64(int64(a - b)) / float64(clockRate)] *)
Definition seconds_between (a b clockRate : Z) : spec_float := SFdiv 53 1024 (float64 (wrap_int64 (a - b))) (float64 clockRate).
(** 2 and 0.05 *)
Definition ResumeBehindHighThresholdSeconds : spec_float := float64 2.
Definition LayerSwitchBehindThresholdSeconds : spec_float := S754_finite false 7205759403792794 (-57).

Inductive forward_error :=
  | SkipStartOnOutOfOrderPacket | SwitchPointTooFarBehind | InvalidLayers | UnavailableLayerRef
  | MungerError (e : munger_error) | CodecError (e : codec_error).

(** What becomes of a packet. *)
Record Translated := mkTranslated { shouldDrop : bool; isStarting : bool; isResuming : bool; isSwitching : bool; tr_params : TranslationParams }.
Definition no_params : TranslationParams := mkTP (mkTpRTP Contiguous 0 0) None 0 [] false.
Definition dropped_packet : Translated := mkTranslated true false false false no_params.
Definition drop_packet (t : Translated) : Translated := mkTranslated true (isStarting t) (isResuming t) (isSwitching t) (tr_params t).
Definition set_starting (b : bool) (t : Translated) : Translated := mkTranslated (shouldDrop t) b (isResuming t) (isSwitching t) (tr_params t).
Definition set_params (p : TranslationParams) (t : Translated) : Translated :=
  mkTranslated (shouldDrop t) (isStarting t) (isResuming t) (isSwitching t) p.

(** RTPForwarderState of the protocol package. *)
Record ForwarderState := mkForwarderState {
  fs_Started : bool; fs_ReferenceLayerSpatial : Z; fs_PreStartTime : Z; fs_ExtFirstTimestamp : Z; fs_DummyStartTimestampOffset : Z;
  fs_RtpMunger : RTPMungerState; fs_CodecMunger : option VP8MungerState; fs_SenderReportState : list (option SenderReport) }.

Section translation.
Context {D : Type} `{!DependencySelector D} {M : Type -> Type} `{!OrderedMap M} (ntp_time : Z -> Z).
Notation Fwd := (Forwarder D (CodecMunger M)).
Implicit Types f : Fwd.

Definition set_munger (r : RTPMunger) (f : Fwd) : Fwd :=
  mkForwarder (fw_settings f) (fw_muted f) (fw_pubMuted f) (fw_source f) (fw_provisional f) (fw_last f) r (fw_vls f) (fw_codec f).
Definition set_codec (c : CodecMunger M) (f : Fwd) : Fwd :=
  mkForwarder (fw_settings f) (fw_muted f) (fw_pubMuted f) (fw_source f) (fw_provisional f) (fw_last f) (fw_munger f) (fw_vls f) c.
Definition set_settings (s : Settings) (f : Fwd) : Fwd :=
  mkForwarder s (fw_muted f) (fw_pubMuted f) (fw_source f) (fw_provisional f) (fw_last f) (fw_munger f) (fw_vls f) (fw_codec f).

Definition set_started (s : SourceState) : SourceState :=
  mkSourceState true (sf_preStartTime s) (sf_extFirstTS s) (sf_lastSSRC s) (sf_lastReferencePayloadType s)
    (sf_lastSwitchExtIncomingTS s) (sf_referenceLayerSpatial s) (sf_dummyStartTSOffset s) (sf_refInfos s) (sf_resumeBehindThreshold s).
Definition set_first (preStartTime extFirstTS : Z) (s : SourceState) : SourceState :=
  mkSourceState (sf_started s) preStartTime extFirstTS (sf_lastSSRC s) (sf_lastReferencePayloadType s)
    (sf_lastSwitchExtIncomingTS s) (sf_referenceLayerSpatial s) (sf_dummyStartTSOffset s) (sf_refInfos s) (sf_resumeBehindThreshold s).
Definition set_feed (ssrc payloadType extTS : Z) (s : SourceState) : SourceState :=
  mkSourceState (sf_started s) (sf_preStartTime s) (sf_extFirstTS s) ssrc payloadType extTS
    (sf_referenceLayerSpatial s) (sf_dummyStartTSOffset s) (sf_refInfos s) (sf_resumeBehindThreshold s).
Definition set_reference (layer : Z) (s : SourceState) : SourceState :=
  mkSourceState (sf_started s) (sf_preStartTime s) (sf_extFirstTS s) (sf_lastSSRC s) (sf_lastReferencePayloadType s)
    (sf_lastSwitchExtIncomingTS s) layer (sf_dummyStartTSOffset s) (sf_refInfos s) (sf_resumeBehindThreshold s).
Definition set_dummy (offset : Z) (s : SourceState) : SourceState :=
  mkSourceState (sf_started s) (sf_preStartTime s) (sf_extFirstTS s) (sf_lastSSRC s) (sf_lastReferencePayloadType s)
    (sf_lastSwitchExtIncomingTS s) (sf_referenceLayerSpatial s) offset (sf_refInfos s) (sf_resumeBehindThreshold s).
Definition set_refInfos (l : list refInfo) (s : SourceState) : SourceState :=
  mkSourceState (sf_started s) (sf_preStartTime s) (sf_extFirstTS s) (sf_lastSSRC s) (sf_lastReferencePayloadType s)
    (sf_lastSwitchExtIncomingTS s) (sf_referenceLayerSpatial s) (sf_dummyStartTSOffset s) l (sf_resumeBehindThreshold s).
Definition set_threshold (x : spec_float) (s : SourceState) : SourceState :=
  mkSourceState (sf_started s) (sf_preStartTime s) (sf_extFirstTS s) (sf_lastSSRC s) (sf_lastReferencePayloadType s)
    (sf_lastSwitchExtIncomingTS s) (sf_referenceLayerSpatial s) (sf_dummyStartTSOffset s) (sf_refInfos s) x.
Definition on_source (g : SourceState -> SourceState) (f : Fwd) : Fwd := set_source (g (fw_source f)) f.

(** ** The codec *)

Definition is_simulcast (m : Mode) : bool :=
  match m with ONE_SPATIAL_LAYER_PER_STREAM | ONE_SPATIAL_LAYER_PER_STREAM_INCOMPLETE_RTCP_SR => true | _ => false end.

(** [ddAvailable]: the extension of the dependency descriptor is among the extensions. *)
Definition DetermineCodec (mime : codec) (clockRate : Z) (ddAvailable : bool) (mode : Mode) (f : Fwd) : Fwd :=
  let st := fw_settings f in
  let skip := match mode with ONE_SPATIAL_LAYER_PER_STREAM_INCOMPLETE_RTCP_SR => true | _ => st_skipReferenceTS st end in
  let dd := match mime with CodecVP9 | CodecAV1 => if is_simulcast mode then st_isDDAvailable st else ddAvailable | _ => st_isDDAvailable st end in
  let f := set_settings (mkSettings (Some mime) clockRate (st_kind st) skip (st_disableOpportunistic st) mode dd) f in
  match mime with
  | CodecVP8 =>
      let f := set_vls (NewSimulcastFromOther (fw_vls f)) (set_codec (NewVP8FromOther (fw_codec f)) f) in
      set_base (SetTemporalLayerSelector TemporalVP8) f
  | CodecH264 | CodecH265 => set_vls (NewSimulcastFromOther (fw_vls f)) (set_codec (CMNull None) f)
  | CodecVP9 =>
      let f := set_codec (CMNull None) f in
      set_vls (if is_simulcast mode then NewSimulcastFromOther (fw_vls f)
               else if ddAvailable then NewDependencyDescriptorFromOther (fw_vls f) else NewVP9FromOther (fw_vls f)) f
  | CodecAV1 =>
      let f := set_codec (CMNull None) f in
      set_vls (if negb (is_simulcast mode) && ddAvailable then NewDependencyDescriptorFromOther (fw_vls f)
               else NewSimulcastFromOther (fw_vls f)) f
  | CodecOther => f
  end.

(** ** State that moves with the subscriber *)

Definition GetForwarderState (f : Fwd) : option ForwarderState :=
  let s := fw_source f in
  if negb (sf_started s) then None else
  Some (mkForwarderState true (sf_referenceLayerSpatial s) (sf_preStartTime s) (sf_extFirstTS s) (sf_dummyStartTSOffset s)
    (GetState (fw_munger f)) (cm_GetState (fw_codec f)) (map ri_senderReport (sf_refInfos s))).

(** A report beyond the last layer is an index out of range. *)
Fixpoint seed_reports (l : list (option SenderReport)) (refs : list refInfo) : option (list refInfo) :=
  match l, refs with
  | [], refs => Some refs
  | _ :: _, [] => None
  | sr :: l, _ :: refs =>
      rest ← seed_reports l refs;
      Some (match sr with Some r => if sr_Ntp r =? 0 then no_ref else mkRefInfo (Some r) 0 false | None => no_ref end :: rest)
  end.
Definition SeedForwarderState (st : option ForwarderState) (f : Fwd) : option Fwd :=
  match st with
  | None => Some f
  | Some st =>
      if negb (fs_Started st) then Some f else
      refs ← seed_reports (fs_SenderReportState st) (sf_refInfos (fw_source f));
      let f := set_codec (cm_SeedState (fs_CodecMunger st) (fw_codec f)) (set_munger (SeedState (fs_RtpMunger st) (fw_munger f)) f) in
      Some (on_source (fun s => set_dummy (fs_DummyStartTimestampOffset st) (set_first (if fs_PreStartTime st =? 0 then sf_preStartTime s else fs_PreStartTime st)
        (fs_ExtFirstTimestamp st) (set_reference (fs_ReferenceLayerSpatial st) (set_started (set_refInfos refs s))))) f)
  end.

Definition Resync (f : Fwd) : Fwd := resyncLocked f.
Definition Restart (f : Fwd) : Fwd :=
  let f := setTargetLayer InvalidLayer InvalidLayerSpatial (resyncLocked f) in
  let st := fw_settings f in
  let f := set_settings (mkSettings (st_mime st) (st_clockRate st) (st_kind st) (st_skipReferenceTS st) (st_disableOpportunistic st) MODE_UNUSED (st_isDDAvailable st)) f in
  on_source (fun s => set_feed (sf_lastSSRC s) (-1) 0 (set_refInfos (map (fun _ => no_ref) (sf_refInfos s)) (set_reference InvalidLayerSpatial s))) f.

(** ** Sender reports *)

(** The reference layer may be out of range. *)
Definition GetMaxSubscribedSpatial (f : Fwd) : option Z :=
  if fw_muted f then Some InvalidLayerSpatial else
  let layer := Z.max (ly_Spatial (maxLayer (base f))) (ly_Spatial (currentLayer (base f))) in
  let ref := sf_referenceLayerSpatial (fw_source f) in
  if (ref =? InvalidLayerSpatial) || negb (layer <? ref) then Some layer else
  if ref <? 0 then None else
  r ← sf_refInfos (fw_source f) !! Z.to_nat ref;
  Some (match ri_senderReport r with None => ref | Some _ => layer end).

(** The layer reports are taken from, and the one they are for. *)
Definition getRefLayer (f : Fwd) : Z * Z :=
  if sf_lastSSRC (fw_source f) =? 0 then (InvalidLayerSpatial, InvalidLayerSpatial) else
  if is_audio f then (0, 0) else
  let current := ly_Spatial (currentLayer (base f)) in
  if (current <? 0) || (DefaultMaxLayerSpatial <? current) then (InvalidLayerSpatial, InvalidLayerSpatial) else
  match st_mode (fw_settings f) with MULTIPLE_SPATIAL_LAYERS_PER_STREAM => (0, current) | _ => (current, current) end.

Definition SetRefSenderReport (layer : Z) (sr : SenderReport) (f : Fwd) : Fwd :=
  let s := fw_source f in
  if (0 <=? layer) && (layer <? Z.of_nat (length (sf_refInfos s))) then
    let valid := (layer =? fst (getRefLayer f)) && (sf_lastSwitchExtIncomingTS s <=? sr_RtpExt sr) in
    on_source (set_refInfos (<[Z.to_nat layer := mkRefInfo (Some sr) (if valid then GetTSOffset (fw_munger f) else 0) valid]> (sf_refInfos s))) f
  else f.

Definition GetSenderReportParams (f : Fwd) : option (Z * bool * Z * option SenderReport) :=
  let '(ref, current) := getRefLayer f in
  if ref =? InvalidLayerSpatial then Some (InvalidLayerSpatial, false, 0, None) else
  r ← sf_refInfos (fw_source f) !! Z.to_nat ref;
  Some (match ri_senderReport r with
        | Some sr => if ri_isTSOffsetValid r
                     then (current, match st_mode (fw_settings f) with MULTIPLE_SPATIAL_LAYERS_PER_STREAM => true | _ => false end, ri_tsOffset r, Some sr)
                     else (InvalidLayerSpatial, false, 0, None)
        | None => (InvalidLayerSpatial, false, 0, None)
        end).

(** All the numbers that are asked for again, and the layers that are not sent again. *)
Definition FilterRTX_layers (nacks : list Z) (f : Fwd) : list Z * list bool :=
  let current := ly_Spatial (currentLayer (base f)) in
  let target := ly_Spatial (targetLayer (base f)) in
  (nacks, map (fun layer => isDeficient f && ((target <? current) || (current <? layer))) (up 0 DefaultMaxLayerSpatial)).

(** The timestamp on the layer of reference. *)
Definition getRefLayerRTPTimestamp (ts refLayer targetLayer : Z) (f : Fwd) : option (result forward_error Z) :=
  let refs := sf_refInfos (fw_source f) in
  let n := Z.of_nat (length refs) in
  if (refLayer <? 0) || (n <? refLayer) || (targetLayer <? 0) || (n <? targetLayer) then Some (inl InvalidLayers) else
  if (refLayer =? targetLayer) || match st_mode (fw_settings f) with MULTIPLE_SPATIAL_LAYERS_PER_STREAM => true | _ => false end then Some (inr ts) else
  ref ← refs !! Z.to_nat refLayer;
  target ← refs !! Z.to_nat targetLayer;
  Some (match ri_senderReport ref, ri_senderReport target with
        | Some srRef, Some srTarget =>
            if (sr_Ntp srRef =? 0) || (sr_Ntp srTarget =? 0) then inl UnavailableLayerRef else
            let rtpDiff := Z.quot (wrap_int64 ((ntp_time (sr_Ntp srRef) - ntp_time (sr_Ntp srTarget)) * st_clockRate (fw_settings f))) 1000000000 in
            let offset := wrap_uint32 (sr_Rtp srRef - wrap_uint32 (sr_Rtp srTarget + wrap_uint32 rtpDiff)) in
            inr (wrap_uint32 (ts + offset))
        | _, _ => inl UnavailableLayerRef
        end).

(** ** A switch of the source *)

(** The timestamp of reference, extended so that it is near the last one sent. *)
Definition extend_reference (extLastTS refTS dummy : Z) : Z :=
  let extRefTS := wrap_uint64 (Z.land extLastTS 0xFFFFFFFF00000000 + refTS + dummy) in
  let lastTS := wrap_uint32 extLastTS in let refTS := wrap_uint32 extRefTS in
  let extRefTS := if (wrap_uint32 (refTS - lastTS) <? 2 ^ 31) && (refTS <? lastTS) then wrap_uint64 (extRefTS + 2 ^ 32) else extRefTS in
  if (wrap_uint32 (lastTS - refTS) <? 2 ^ 31) && (lastTS <? refTS) && (2 ^ 32 <=? extRefTS) then wrap_uint64 (extRefTS - 2 ^ 32) else extRefTS.

(** What the clock expects, what the reports say, and the offset of a stream that
    began with packets of its own. *)
Definition reference_times (ck : Clock) (extLastTS refTS : Z) (f : Fwd) : Z * Z * Z :=
  let s := fw_source f in
  let extRefTS := extend_reference extLastTS refTS (sf_dummyStartTSOffset s) in
  let refTS := wrap_uint32 extRefTS in
  match ck_expected ck with
  | NoStats => (extLastTS, extRefTS, sf_dummyStartTSOffset s)
  | StatsAt ts =>
      if sf_lastReferencePayloadType s =? -1 then (ts, ts, wrap_uint64 (ts - refTS)) else (ts, extRefTS, sf_dummyStartTSOffset s)
  | StatsError =>
      if sf_preStartTime s =? 0 then (extLastTS, extRefTS, sf_dummyStartTSOffset s) else
      let rtpDiff := wrap_uint64 (Z.quot (wrap_int64 (ck_since ck * st_clockRate (fw_settings f))) 1000000000) in
      let expected := wrap_uint64 (sf_extFirstTS s + rtpDiff) in
      if sf_dummyStartTSOffset s =? 0 then (expected, expected, wrap_uint64 (expected - refTS)) else (expected, extRefTS, sf_dummyStartTSOffset s)
  end.

(** The next timestamp after a resumption. *)
Definition resume_at (extExpectedTS extRefTS : Z) (f : Fwd) : Z :=
  let behind := seconds_between extExpectedTS extRefTS (st_clockRate (fw_settings f)) in
  let threshold := sf_resumeBehindThreshold (fw_source f) in
  if float_gt behind float64_zero || float_eq behind float64_zero then
    if (float_gt threshold float64_zero && float_gt behind threshold) || float_gt behind ResumeBehindHighThresholdSeconds
    then extExpectedTS else extRefTS
  else extRefTS.

(** The next timestamp after a switch between layers: none when the new layer lags too far. *)
Definition switch_at (extLastTS extRefTS : Z) (f : Fwd) : option Z :=
  let ahead := seconds_between extRefTS extLastTS (st_clockRate (fw_settings f)) in
  if float_lt ahead float64_zero then
    if float_gt (SFabs ahead) LayerSwitchBehindThresholdSeconds then None else Some (wrap_uint64 (extLastTS + 1))
  else Some extRefTS.

Definition switch_source (p : XPacket) (layer : Z) (ck : Clock) (f : Fwd) : option (option forward_error * Fwd) :=
  let extLastTS := extLastTS (fw_munger f) in
  r ← (if st_skipReferenceTS (fw_settings f) then Some (inr (wrap_uint32 extLastTS))
       else getRefLayerRTPTimestamp (xp_Timestamp p) (sf_referenceLayerSpatial (fw_source f)) layer f);
  match r with
  | inl e => Some (Some e, f)
  | inr refTS =>
      let '(expected, extRefTS, dummy) := reference_times ck extLastTS refTS f in
      let f := on_source (set_dummy dummy) f in
      let '(next, f) :=
        if sf_lastSSRC (fw_source f) =? 0 then (Some (resume_at expected extRefTS f), on_source (set_threshold float64_zero) f)
        else (switch_at extLastTS extRefTS f, f) in
      match next with
      | None => Some (Some SwitchPointTooFarBehind, f)
      | Some next =>
          let next := if wrap_int64 (next - extLastTS) <=? 0 then wrap_uint64 (extLastTS + 1) else next in
          Some (None, set_codec (cm_UpdateOffsets (xp_pkt p) (fw_codec f))
                        (set_munger (UpdateSnTsOffsets (xp_pkt p) 1 (wrap_uint64 (next - extLastTS)) (fw_munger f)) f))
      end
  end.

Definition processSourceSwitch (p : XPacket) (layer : Z) (ck : Clock) (f : Fwd) : option (bool * option forward_error * Fwd) :=
  let ep := xp_pkt p in let s := fw_source f in
  if negb (sf_started s) then
    if ep_IsOutOfOrder ep then Some (false, Some SkipStartOnOutOfOrderPacket, f) else
    Some (true, None, set_codec (cm_SetLast ep (fw_codec f)) (set_munger (SetLastSnTs ep (fw_munger f))
      (on_source (fun s => set_reference layer (set_started s)) f)))
  else if sf_referenceLayerSpatial s =? InvalidLayerSpatial then
    if ep_IsOutOfOrder ep then Some (false, Some SkipStartOnOutOfOrderPacket, f) else
    '(e, f) ← switch_source p layer ck (set_codec (cm_SetLast ep (fw_codec f)) (on_source (set_reference layer) f));
    Some (true, e, f)
  else '(e, f) ← switch_source p layer ck f; Some (false, e, f).

(** ** A packet *)

(** The error is the one that is returned; the packet says whether it is dropped. *)
Definition translateCodecHeader (p : XPacket) (tp : Translated) (f : Fwd) : option (option forward_error * Translated * Fwd) :=
  let '(tl, v) := SelectTemporalAny p (fw_vls f) in
  let f := set_vls v f in
  let ps := tr_params tp in
  let ordering := snOrdering (tp_rtp ps) in
  '(r, c) ← cm_UpdateAndGet (xp_pkt p) (match ordering with OutOfOrder => true | _ => false end)
              (match ordering with Gap => true | _ => false end) tl (fw_codec f);
  let f := set_codec c f in
  match r with
  | inl FilteredTemporalLayer => m ← PacketDropped (xp_pkt p) (fw_munger f); Some (None, drop_packet tp, set_munger m f)
  | inl PictureIdCacheMiss => Some (None, drop_packet tp, f)
  | inl e => Some (Some (CodecError e), drop_packet tp, f)
  | inr (size, bytes) => Some (None, set_params (mkTP (tp_rtp ps) (tp_ddBytes ps) (Z.to_nat size) bytes (tp_marker ps)) tp, f)
  end.

Definition getTranslationParamsCommon (p : XPacket) (layer : Z) (ck : Clock) (tp : Translated) (f : Fwd)
  : option (option forward_error * Translated * Fwd) :=
  let ep := xp_pkt p in
  '(starting, e, f) ← (if sf_lastSSRC (fw_source f) =? ep_SSRC ep then Some (false, None, f) else
    '(starting, e, f) ← processSourceSwitch p layer ck f;
    Some (starting, e, match e with
                       | Some _ => set_vls (RollbackAny (fw_vls f)) f
                       | None => on_source (set_feed (ep_SSRC ep) (wrap_int8 (ep_PayloadType ep)) (ep_ExtTimestamp ep)) f
                       end));
  let tp := set_starting starting tp in
  match e with
  | Some _ => Some (None, drop_packet tp, f)
  | None =>
      let ps := tr_params tp in
      '(r, m) ← UpdateAndGetSnTs ep (tp_marker ps) (fw_munger f);
      let f := set_munger m f in
      match r with
      | inl (PaddingOnlyPacket | DuplicatePacket | OutOfOrderCacheMiss) => Some (None, drop_packet tp, f)
      | inl e => Some (Some (MungerError e), drop_packet tp, f)
      | inr rtp =>
          let tp := set_params (mkTP rtp (tp_ddBytes ps) (tp_incomingHeaderSize ps) (tp_codecBytes ps) (tp_marker ps)) tp in
          if (0 <? length (ep_Payload ep))%nat then translateCodecHeader p tp f else Some (None, tp, f)
      end
  end.

Definition getTranslationParamsAudio (p : XPacket) (layer : Z) (ck : Clock) (f : Fwd) : option (option forward_error * Translated * Fwd) :=
  '(e, tp, f) ← getTranslationParamsCommon p layer ck (mkTranslated false false false false no_params) f;
  Some (e, match e with Some _ => drop_packet tp | None => tp end, f).

(** A packet of a layer that is not sent. *)
Definition not_wanted (p : XPacket) (r : Result) (f : Fwd) : option (option forward_error * Translated * Fwd) :=
  let st := fw_settings f in
  let f := if st_isDDAvailable st && negb (xp_has_dd p) then
      let f := set_settings (mkSettings (st_mime st) (st_clockRate st) (st_kind st) (st_skipReferenceTS st) (st_disableOpportunistic st) (st_mode st) false) f in
      match st_mime st with
      | Some CodecVP9 => set_vls (NewVP9FromOther (fw_vls f)) f
      | Some CodecAV1 => set_vls (NewSimulcastFromOther (fw_vls f)) f
      | _ => f
      end
    else f in
  if sf_started (fw_source f) && IsRelevant r then
    '(res, m) ← UpdateAndGetSnTs (xp_pkt p) (RTPMarker r) (fw_munger f);
    m ← (match res with
         | inr rtp => match snOrdering rtp with Contiguous => PacketDropped (xp_pkt p) m | _ => Some m end
         | inl _ => Some m
         end);
    Some (None, dropped_packet, set_munger m f)
  else Some (None, dropped_packet, f).

Definition getTranslationParamsVideo (p : XPacket) (layer : Z) (ck : Clock) (f : Fwd) : option (option forward_error * Translated * Fwd) :=
  if negb (IsValid (targetLayer (base f))) then Some (None, dropped_packet, f) else
  let '(r, v) := Select p layer (fw_vls f) in
  let f := set_vls v f in
  if negb (IsSelected r) then not_wanted p r f else
  let tp := mkTranslated false false (IsResuming r) (IsSwitching r) (mkTP (mkTpRTP Contiguous 0 0) (DescriptorExtension r) 0 [] (RTPMarker r)) in
  '(e, tp, f) ← getTranslationParamsCommon p layer ck tp f;
  if shouldDrop tp then Some (e, tp, f) else
  if isDeficient f && (ly_Spatial (targetLayer (base f)) <? ly_Spatial (currentLayer (base f))) then Some (None, drop_packet tp, f) else Some (None, tp, f).

Definition GetTranslationParams (p : XPacket) (layer : Z) (ck : Clock) (f : Fwd) : option (option forward_error * Translated * Fwd) :=
  if fw_muted f || fw_pubMuted f then Some (None, dropped_packet, f) else
  if is_audio f then getTranslationParamsAudio p layer ck f else getTranslationParamsVideo p layer ck f.

(** ** Padding *)

(** The packet a stream that starts with padding is made up from: random numbers in the third quarter. *)
Definition dummy_packet (sn ts : Z) : ExtPacket := mkExtPacket 0 sn ts 0 0 [] None false false.

(** [now] is the time, not zero; [sn] and [ts] are random numbers of 14 and 30 bits. *)
Definition maybeStart (now sn ts : Z) (f : Fwd) : Fwd :=
  if sf_started (fw_source f) then f else
  let sn := sn + 2 ^ 15 in let ts := ts + 2 ^ 31 in
  on_source (fun s => set_first now ts (set_started s)) (set_munger (SetLastSnTs (dummy_packet sn ts) (fw_munger f)) f).

Definition GetSnTsForPadding (now sn ts num frameRate : Z) (forceMarker : bool) (f : Fwd) : option (result munger_error (list SnTs) * Fwd) :=
  let f := maybeStart now sn ts f in
  let forceMarker := forceMarker || negb (IsValid (targetLayer (base f))) in
  '(r, m) ← UpdateAndGetPaddingSnTs num (st_clockRate (fw_settings f)) frameRate forceMarker (extLastTS (fw_munger f)) (fw_munger f);
  Some (r, set_munger m f).

Definition GetSnTsForBlankFrames (now sn ts frameRate numPackets : Z) (ck : Clock) (f : Fwd) : option (result munger_error (list SnTs) * bool * Fwd) :=
  let f := maybeStart now sn ts f in
  let frameEndNeeded := negb (IsOnFrameBoundary (fw_munger f)) in
  let numPackets := if frameEndNeeded then numPackets + 1 else numPackets in
  let last := extLastTS (fw_munger f) in
  let expected := match ck_expected ck with StatsAt ts => ts | _ => last end in
  let expected := if wrap_int64 (expected - last) <=? 0 then wrap_uint64 (last + 1) else expected in
  '(r, m) ← UpdateAndGetPaddingSnTs numPackets (st_clockRate (fw_settings f)) frameRate frameEndNeeded expected (fw_munger f);
  Some (r, frameEndNeeded, set_munger m f).

Definition GetPadding (frameEndNeeded : bool) (f : Fwd) : option (result vp8_error (list Z) * Fwd) :=
  '(r, c) ← cm_UpdateAndGetPadding (negb frameEndNeeded) (fw_codec f); Some (r, set_codec c f).

End translation.
(** ** Everything else that happens to a forwarder *)

Section runs.
Context {D : Type} `{!DependencySelector D} {M : Type -> Type} `{!OrderedMap M, !OrderedMapLaws M} (ntp_time : Z -> Z).
Notation Fwd := (Forwarder D (CodecMunger M)).
Implicit Types f : Fwd.

Inductive control :=
  | CMute (muted mutable : bool) | CPubMute (muted : bool) | CMaxSpatial (l : Z) | CMaxTemporal (l : Z) | CMaxPublished (l : Z)
  | CMaxTemporalSeen (l : Z) | CResync | CRestart | CDetermineCodec (mime : codec) (clockRate : Z) (dd : bool) (mode : Mode)
  | CSenderReport (layer : Z) (sr : SenderReport)
  | COptimal (al : list Z) (brs : Bitrates) (over hold : bool) | CPrepare (al : list Z) (brs : Bitrates) | CReset
  | CProvisional (capacity : Z) (l : VideoLayer) (pause over : bool) | CCooperative (over : bool) | CWeighted | CCommit
  | CHigher (capacity : Z) (al : list Z) (brs : Bitrates) (over : bool) | CPause (al : list Z) (brs : Bitrates)
  | CGetPadding (frameEndNeeded : bool).

Definition control_step (c : control) (f : Fwd) : option Fwd :=
  match c with
  | CMute muted mutable => Some (snd (Mute muted mutable f))
  | CPubMute muted => Some (snd (PubMute muted f))
  | CMaxSpatial l => '(_, f) ← SetMaxSpatialLayer l f; Some f
  | CMaxTemporal l => Some (snd (SetMaxTemporalLayer l f))
  | CMaxPublished l => Some (snd (SetMaxPublishedLayer l f))
  | CMaxTemporalSeen l => Some (snd (SetMaxTemporalLayerSeen l f))
  | CResync => Some (Resync f)
  | CRestart => Some (Restart f)
  | CDetermineCodec mime clockRate dd mode => Some (DetermineCodec mime clockRate dd mode f)
  | CSenderReport layer sr => Some (SetRefSenderReport layer sr f)
  | COptimal al brs over hold => '(_, f) ← AllocateOptimal al brs over hold f; Some f
  | CPrepare al brs => Some (ProvisionalAllocatePrepare al brs f)
  | CReset => ProvisionalAllocateReset f
  | CProvisional capacity l pause over => '(_, f) ← ProvisionalAllocate capacity l pause over f; Some f
  | CCooperative over => '(_, f) ← ProvisionalAllocateGetCooperativeTransition over f; Some f
  | CWeighted => '(_, f) ← ProvisionalAllocateGetBestWeightedTransition f; Some f
  | CCommit => '(_, f) ← ProvisionalAllocateCommit f; Some f
  | CHigher capacity al brs over => '(_, f) ← AllocateNextHigher capacity al brs over f; Some f
  | CPause al brs => '(_, f) ← Pause al brs f; Some f
  | CGetPadding frameEndNeeded => '(_, f) ← GetPadding frameEndNeeded f; Some f
  end.

(** None of it changes the numbers of the stream; the source may be forgotten. *)
Record keeps f f' : Prop := {
  kp_munger : fw_munger f' = fw_munger f;
  kp_started : sf_started (fw_source f') = sf_started (fw_source f);
  kp_refs : length (sf_refInfos (fw_source f')) = length (sf_refInfos (fw_source f));
  kp_ref : sf_referenceLayerSpatial (fw_source f') = sf_referenceLayerSpatial (fw_source f) \/ sf_referenceLayerSpatial (fw_source f') = InvalidLayerSpatial;
  kp_ssrc : sf_lastSSRC (fw_source f') = sf_lastSSRC (fw_source f) \/ sf_lastSSRC (fw_source f') = 0 }.

Lemma keeps_refl f : keeps f f.
Proof. split; auto. Qed.

Lemma keeps_same f f' : fw_munger f' = fw_munger f -> fw_source f' = fw_source f -> keeps f f'.
Proof. intros E1 E2. split; rewrite ?E1, ?E2; auto. Qed.

Lemma keeps_trans f1 f2 f3 : keeps f1 f2 -> keeps f2 f3 -> keeps f1 f3.
Proof. intros [A1 A2 A3 A4 A5] [B1 B2 B3 B4 B5]. split; [congruence..| |]; [destruct B4, A4|destruct B5, A5]; (left; congruence) || (right; congruence). Qed.

Lemma resync_keeps f : keeps f (resyncLocked f).
Proof. split; simpl; auto. Qed.

Lemma updateAllocation_keeps a f : keeps f (updateAllocation a f).2.
Proof.
  unfold updateAllocation. set (a' := if _ && _ then _ else a). cbv zeta. cbn [snd]. set (f1 := setTargetLayer _ _ _).
  assert (H : keeps f f1) by (by apply keeps_same). clearbody f1. clear a'. destruct (IsValid _); [exact H|]. eapply keeps_trans; [exact H|apply resync_keeps].
Qed.

Lemma try_higher_keeps capacity al brs over needed already ls f a b f' :
  try_higher capacity al brs over needed already ls f = Some (Some (a, b, f')) -> keeps f f'.
Proof.
  unfold try_higher. destruct (first_rate brs ls) as [[[l r]|]|]; cbn [mbind option_bind]; [|done|done]. destruct (_ && _); [intros [= <- <- <-]; apply keeps_refl|].
  destruct (getDistanceToDesired _ _ _ _ _ _ _); cbn [mbind option_bind]; [|done]. set (a0 := mkAllocation _ _ _ _ _ _ _ _ _ _).
  pose proof (updateAllocation_keeps a0 f) as H. destruct (updateAllocation a0 f) as [a1 f1]. intros [= <- <- <-]. exact H.
Qed.

Lemma higher_keeps capacity al brs over f a b f' : AllocateNextHigher capacity al brs over f = Some (a, b, f') -> keeps f f'.
Proof.
  unfold AllocateNextHigher. destruct (_ || _); [intros [= <- <- <-]; apply keeps_refl|].
  destruct (getOptimalBandwidthNeeded _ _ _ _ _) as [needed|]; cbn [mbind option_bind]; [|done]. destruct (if IsValid _ then _ else _) as [already|]; cbn [mbind option_bind]; [|done].
  induction (higher_layers _ _ _) as [|ls hl IH]; cbn [map try_each mbind option_bind]; [intros [= <- <- <-]; apply keeps_refl|].
  destruct (try_higher _ _ _ _ _ _ ls f) as [[[[a1 b1] f1]|]|] eqn:E; cbn [mbind option_bind]; [intros [= <- <- <-]; by eapply try_higher_keeps|exact IH|done].
Qed.

Lemma update_some a f x f' : Some (updateAllocation a f) = Some (x, f') -> keeps f f'.
Proof. intros E. pose proof (updateAllocation_keeps a f) as H. apply Some_inj in E. rewrite E in H. exact H. Qed.

Lemma update_second {A} a f (y x : A) f' : Some (y, snd (updateAllocation a f)) = Some (x, f') -> keeps f f'.
Proof. intros E. pose proof (updateAllocation_keeps a f) as H. apply Some_inj in E. apply (f_equal snd) in E. unfold snd at 1 3 in E. by rewrite E in H. Qed.

Ltac next_option := match goal with |- ?x ≫= _ = _ -> _ => destruct x; cbn [mbind option_bind]; [|discriminate] end.

Lemma optimal_keeps al brs over hold f a f' : AllocateOptimal al brs over hold f = Some (a, f') -> keeps f f'.
Proof.
  unfold AllocateOptimal. destruct (is_audio f); [intros [= <- <-]; apply keeps_refl|].
  next_option. destruct (if _ || _ then _ else _) as [[? ?] ?]. destruct (if IsValid _ then _ else _) as [? ?].
  next_option. next_option. next_option.
  apply update_some.
Qed.

Lemma commit_keeps f a f' : ProvisionalAllocateCommit f = Some (a, f') -> keeps f f'.
Proof.
  unfold ProvisionalAllocateCommit. destruct (fw_provisional f) as [p|]; cbn [mbind option_bind]; [|done].
  next_option. next_option. next_option.
  destruct (vp_muted p); [apply update_some|]. destruct (vp_pubMuted p); [apply update_some|].
  next_option. destruct (_ =? _).
  - destruct (IsValid _); [apply update_some|]. destruct (_ && _); [|apply update_some].
    intros E. eapply keeps_trans; [|exact (update_some _ _ _ _ E)]. by apply keeps_same.
  - destruct (_ || _); apply update_some.
Qed.

Lemma pause_keeps al brs f a f' : Pause al brs f = Some (a, f') -> keeps f f'.
Proof.
  unfold Pause. next_option. next_option. next_option.
  destruct (if fw_muted f then _ else _) as [? ?]. apply update_some.
Qed.

Lemma max_spatial_keeps l f x f' : SetMaxSpatialLayer l f = Some (x, f') -> keeps f f'.
Proof.
  unfold SetMaxSpatialLayer. destruct (is_audio f); [intros [= <- <-]; apply keeps_refl|]. destruct (_ =? _); [intros [= <- <-]; apply keeps_refl|].
  set (f1 := set_base _ f). assert (H : keeps f f1) by (by apply keeps_same). destruct (_ || _); [by intros [= <- <-]|].
  next_option. intros E. eapply keeps_trans; [exact H|exact (update_second _ _ _ _ _ E)].
Qed.

Lemma provisional_keeps c l pause over f x f' : ProvisionalAllocate c l pause over f = Some (x, f') -> keeps f f'.
Proof.
  unfold ProvisionalAllocate. destruct (fw_provisional f) as [p|]; cbn [mbind option_bind]; [|done]. destruct (_ || _); [intros [= <- <-]; apply keeps_refl|].
  next_option. destruct (_ =? 0); [intros [= <- <-]; apply keeps_refl|]. next_option.
  destruct (_ && _); [intros [= <- <-]; by apply keeps_same|]. destruct (_ && _); intros [= <- <-]; [by apply keeps_same|apply keeps_refl].
Qed.

Lemma cooperative_keeps over f x f' : ProvisionalAllocateGetCooperativeTransition over f = Some (x, f') -> keeps f f'.
Proof.
  unfold ProvisionalAllocateGetCooperativeTransition, transition. destruct (fw_provisional f) as [p|]; cbn [mbind option_bind]; [|done]. next_option.
  destruct (_ || _); [intros [= <- <-]; by apply keeps_same|]. next_option. match goal with |- match ?x with _ => _ end = _ -> _ => destruct x as [[to delta]|]; [intros [= <- <-]; by apply keeps_same|] end.
  next_option. match goal with |- (let '(_, _) := ?x in _) = _ -> _ => destruct x as [t q] end. destruct (IsValid t); [intros [= <- <-]; by apply keeps_same|].
  next_option. intros [= <- <-]. by apply keeps_same.
Qed.

Lemma weighted_keeps f x f' : ProvisionalAllocateGetBestWeightedTransition f = Some (x, f') -> keeps f f'.
Proof.
  unfold ProvisionalAllocateGetBestWeightedTransition, transition. destruct (fw_provisional f) as [p|]; cbn [mbind option_bind]; [|done]. next_option.
  destruct (_ || _); [intros [= <- <-]; by apply keeps_same|]. destruct (first_rate _ _) as [[[l r]|]|]; cbn [mbind option_bind]; [|intros [= <- <-]; by apply keeps_same|done].
  destruct (best_move _ _ _ _ _ _) as [[[b d] v]|]; cbn [mbind option_bind]; [|done]. intros [= <- <-]. by apply keeps_same.
Qed.

Lemma control_keeps c f f' : control_step c f = Some f' -> keeps f f'.
Proof.
  destruct c; simpl.
  - intros [= <-]. unfold Mute. destruct (eqb _ _); [apply keeps_refl|]. destruct (_ && _); [apply keeps_refl|]. destruct muted; [|by apply keeps_same].
    eapply keeps_trans; [|apply resync_keeps]. by apply keeps_same.
  - intros [= <-]. unfold PubMute. destruct (eqb _ _); [apply keeps_refl|]. destruct muted; [|by apply keeps_same].
    eapply keeps_trans; [|apply resync_keeps]. by apply keeps_same.
  - destruct (SetMaxSpatialLayer l f) as [[x f1]|] eqn:E; cbn [mbind option_bind]; [|done]. intros [= <-]. by eapply max_spatial_keeps.
  - intros [= <-]. unfold SetMaxTemporalLayer. destruct (is_audio f); [apply keeps_refl|]. destruct (_ =? _); [apply keeps_refl|by apply keeps_same].
  - intros [= <-]. unfold SetMaxPublishedLayer. destruct (_ <=? _); [apply keeps_refl|by apply keeps_same].
  - intros [= <-]. unfold SetMaxTemporalLayerSeen. destruct (_ <=? _); [apply keeps_refl|by apply keeps_same].
  - intros [= <-]. apply resync_keeps.
  - intros [= <-]. split; simpl; auto. by rewrite length_map.
  - intros [= <-]. unfold DetermineCodec. destruct mime; try (by apply keeps_same); destruct (is_simulcast mode), dd; by apply keeps_same.
  - intros [= <-]. unfold SetRefSenderReport. destruct (_ && _); [|apply keeps_refl]. split; simpl; auto. by rewrite length_insert.
  - destruct (AllocateOptimal _ _ _ _ f) as [[x f1]|] eqn:E; cbn [mbind option_bind]; [|done]. intros [= <-]. by eapply optimal_keeps.
  - intros [= <-]. by apply keeps_same.
  - unfold ProvisionalAllocateReset. destruct (fw_provisional f); cbn [mbind option_bind]; [|done]. intros [= <-]. by apply keeps_same.
  - destruct (ProvisionalAllocate _ _ _ _ f) as [[x f1]|] eqn:E; cbn [mbind option_bind]; [|done]. intros [= <-]. by eapply provisional_keeps.
  - destruct (ProvisionalAllocateGetCooperativeTransition _ f) as [[x f1]|] eqn:E; cbn [mbind option_bind]; [|done]. intros [= <-]. by eapply cooperative_keeps.
  - destruct (ProvisionalAllocateGetBestWeightedTransition f) as [[x f1]|] eqn:E; cbn [mbind option_bind]; [|done]. intros [= <-]. by eapply weighted_keeps.
  - destruct (ProvisionalAllocateCommit f) as [[x f1]|] eqn:E; cbn [mbind option_bind]; [|done]. intros [= <-]. by eapply commit_keeps.
  - destruct (AllocateNextHigher _ _ _ _ f) as [[[x b] f1]|] eqn:E; cbn [mbind option_bind]; [|done]. intros [= <-]. by eapply higher_keeps.
  - destruct (Pause _ _ f) as [[x f1]|] eqn:E; cbn [mbind option_bind]; [|done]. intros [= <-]. by eapply pause_keeps.
  - unfold GetPadding. destruct (cm_UpdateAndGetPadding _ _) as [[r c]|]; cbn [mbind option_bind]; [|done]. intros [= <-]. by apply keeps_same.
Qed.

(** The offset of a stream that began with packets of its own is computed from a
    timestamp that has the old offset in it already. After a restart, or in a
    forwarder that was seeded, the next source is off by the old offset: at the same
    instant, for the same timestamp of the source, 40000 in place of 50000. *)
Lemma dummy_offset_lost (f : Fwd) : sf_lastReferencePayloadType (fw_source f) = -1 -> sf_dummyStartTSOffset (fw_source f) = 10000 ->
  reference_times (mkClock (StatsAt 50000) 0) 20000 5000 f = (50000, 50000, 35000) /\ extend_reference 50000 5000 35000 = 40000.
Proof. intros E1 E2. unfold reference_times. rewrite E1, E2. by vm_compute. Qed.

End runs.
End Translation.
Export Translation.
