(* ===== verification/ForwardThms.v ===== *)
(** * The stream a subscriber gets

    What holds of the packets the forwarder of Translation lets through, in any
    order of packets, padding, allocations, mutes and sender reports: their
    numbers are those of StreamNumbers, and a switch of the source goes on where
    the stream was. *)

From Stdlib Require Import SpecFloat.
From S2P Require Import Prelude RangeMap Vp8 RtpMunger StreamNumbers Vp8Munger Sps DownTrack Layers Forwarder Translation.
#[local] Open Scope Z_scope.

Module ForwardThms.
Section stream.
Context {D : Type} `{!DependencySelector D} {M : Type -> Type} `{!OrderedMap M, !OrderedMapLaws M} (ntp_time : Z -> Z).
Notation Fwd := (Forwarder D (CodecMunger M)).
Implicit Types f : Fwd.

Definition ssrc_of f : Z := sf_lastSSRC (fw_source f).
Definition started f : bool := sf_started (fw_source f).

Definition refs_ok f : Prop := length (sf_refInfos (fw_source f)) = 3%nat /\ -1 <= sf_referenceLayerSpatial (fw_source f) <= 2.
Record finv f (log : sent_log) : Prop := {
  fi_refs : refs_ok f; fi_linked : linked (fw_munger f) (ssrc_of f) log; fi_fresh : started f = false -> ssrc_of f = 0 /\ log = [] }.

(** A packet as the receiver gives it: numbered, of a source, of one of the three
    layers, and with its descriptor parsed from bytes. *)
Record p_allowed (p : XPacket) (layer : Z) f : Prop := {
  pa_sn : fits (ep_ExtSequenceNumber (xp_pkt p)) = true;
  pa_ssrc : ep_SSRC (xp_pkt p) <> 0;
  pa_layer : 0 <= layer <= 2;
  pa_last : extLastSN (fw_munger f) < sn_limit;
  pa_vp8 : forall v, ep_vp8 (xp_pkt p) = Some v -> exists payload, Forall (fun b => 0 <= b < 256) payload /\ Unmarshal (Some payload) = inr v }.

Definition forwarded (p : XPacket) (tp : Translated) : sent_log :=
  if shouldDrop tp then [] else [(Some (ep_SSRC (xp_pkt p), ep_ExtSequenceNumber (xp_pkt p)), tp_SN (tp_rtp (tr_params tp)))].

(** ** The forwarder follows the munger *)

Lemma finv_prefix f log k : finv f (log ++ k) -> finv f log.
Proof. intros [H1 H2 H3]. split; [done|by eapply linked_prefix|]. intros [? [? _]%app_nil]%H3. done. Qed.

Lemma finv_keeps f f' log : finv f log -> keeps f f' -> finv f' log.
Proof.
  intros [[R1 R2] L F] [K1 K2 K3 K4 K5]. unfold ssrc_of, started in *. split.
  - split; [congruence|]. unfold InvalidLayerSpatial in K4. destruct K4; lia.
  - rewrite K1. unfold ssrc_of. destruct K5 as [-> | ->]; [done|by eapply linked_none].
  - unfold started, ssrc_of. rewrite K2. intros Hs. destruct (F Hs) as [E ->]. split; [|done]. destruct K5; congruence.
Qed.

Lemma finv_munger f log m log' : finv f log -> started f = true -> linked m (ssrc_of f) log' -> finv (set_munger m f) log'.
Proof. intros [H1 _ H3] Hs Hl. split; [done|done|]. unfold started in *. simpl. by rewrite Hs. Qed.

Lemma finv_same f f' log : finv f log -> fw_munger f' = fw_munger f -> fw_source f' = fw_source f -> finv f' log.
Proof. intros H E1 E2. apply (finv_keeps f); [done|by apply keeps_same]. Qed.

Lemma codec_total p late gap tl (c : CodecMunger M) :
  (forall v, ep_vp8 p = Some v -> exists payload, Forall (fun b => 0 <= b < 256) payload /\ Unmarshal (Some payload) = inr v) ->
  exists r c', cm_UpdateAndGet p late gap tl c = Some (r, c') /\ (r = inl FilteredTemporalLayer -> late = false /\ gap = false).
Proof.
  intros Hp. destruct c as [s|v]; [by eexists _, _|]. simpl. destruct (ep_vp8 p) as [vp8|] eqn:Ev.
  - destruct (Hp vp8 eq_refl) as (payload & Hb & Hu).
    destruct (UpdateAndGet_reads payload vp8 p late gap tl v (Unmarshal_parsed _ _ Hb Hu) Ev) as (r & v' & E & _). rewrite E. simpl. eexists _, _. split; [done|].
    intros ->. revert E. unfold UpdateAndGet, update_late, marshalled. rewrite Ev. destruct (Unwrap _ _ _) as [ext h]. destruct late.
    + destruct (om_get _ _); simpl; [|done]. destruct (Marshal _) as [[]|]; simpl; done.
    + destruct gap; [|done]. simpl. destruct (Marshal _) as [[]|]; simpl; done.
  - unfold UpdateAndGet. rewrite Ev. simpl. by eexists _, _.
Qed.

(** The header: the packet is dropped, and perhaps taken back, or goes out under its number. *)
Lemma header_total p tp f log log' : finv f (log ++ log') -> started f = true -> shouldDrop tp = false ->
  (forall v, ep_vp8 (xp_pkt p) = Some v -> exists payload, Forall (fun b => 0 <= b < 256) payload /\ Unmarshal (Some payload) = inr v) ->
  snOrdering (tp_rtp (tr_params tp)) <> Duplicate ->
  (snOrdering (tp_rtp (tr_params tp)) = Contiguous -> exists m', PacketDropped (xp_pkt p) (fw_munger f) = Some m' /\ linked m' (ssrc_of f) log) ->
  exists e tp' f', translateCodecHeader p tp f = Some (e, tp', f') /\ started f' = true /\
    finv f' (log ++ if shouldDrop tp' then [] else log') /\ (shouldDrop tp' = false -> e = None /\ tp_rtp (tr_params tp') = tp_rtp (tr_params tp)).
Proof.
  intros Hf Hs Hd Hp Hdup Hdrop. unfold translateCodecHeader. destruct (SelectTemporalAny p (fw_vls f)) as [tl v].
  destruct (codec_total (xp_pkt p) (match snOrdering (tp_rtp (tr_params tp)) with OutOfOrder => true | _ => false end)
    (match snOrdering (tp_rtp (tr_params tp)) with Gap => true | _ => false end) tl (fw_codec (set_vls v f)) Hp) as (r & c & -> & Hr). cbn [mbind option_bind].
  assert (Hsame : finv (set_codec c (set_vls v f)) (log ++ log')) by (by apply (finv_same f)).
  assert (Hout : finv (set_codec c (set_vls v f)) (log ++ [])) by (rewrite app_nil_r; by apply finv_prefix in Hsame).
  destruct r as [[| | |e]|[n bytes]].
  - by eexists _, _, _.
  - by eexists _, _, _.
  - destruct (Hr eq_refl) as [H1 H2]. destruct Hdrop as (m & Em & Hm); [by destruct (snOrdering _)|]. simpl fw_munger. rewrite Em. cbn [mbind option_bind].
    eexists _, _, _. split; [done|]. split; [done|]. split; [|done]. simpl. rewrite app_nil_r. apply (finv_munger _ log); [by rewrite app_nil_r in Hout|done|done].
  - by eexists _, _, _.
  - eexists _, _, _. split; [done|]. split; [done|]. simpl. rewrite Hd. by split.
Qed.

(** ** A switch of the source *)

(** What a switch gets through: the munger, at the packet. *)
Record switched (p : XPacket) f f' : Prop := {
  sw_refs : refs_ok f'; sw_started : started f' = true; sw_last : extLastSN (fw_munger f') < sn_limit;
  sw_how : (started f = false /\ fw_munger f' = SetLastSnTs (xp_pkt p) (fw_munger f)) \/
           (started f = true /\ exists d, fw_munger f' = UpdateSnTsOffsets (xp_pkt p) 1 d (fw_munger f) /\ 0 < wrap_int64 d) }.

Lemma lookup_ref f l : refs_ok f -> 0 <= l <= 2 -> exists r, sf_refInfos (fw_source f) !! Z.to_nat l = Some r.
Proof. intros [E _] Hl. destruct (lookup_lt_is_Some_2 (sf_refInfos (fw_source f)) (Z.to_nat l)) as [r Hr]; [lia|eauto]. Qed.

Lemma ref_timestamp_total ts ref l f : refs_ok f -> -1 <= ref <= 2 -> 0 <= l <= 2 -> exists r, getRefLayerRTPTimestamp ntp_time ts ref l f = Some r.
Proof.
  intros Hf Hr Hl. unfold getRefLayerRTPTimestamp. destruct (Z.ltb_spec ref 0); [simpl; eauto|].
  destruct (lookup_ref f ref Hf ltac:(lia)) as [a ->], (lookup_ref f l Hf Hl) as [b ->]. cbn [mbind option_bind]. repeat case_match; eauto.
Qed.

(** The next timestamp is after the last. *)
Lemma next_after next last : 0 < wrap_int64 (wrap_uint64 ((if wrap_int64 (next - last) <=? 0 then wrap_uint64 (last + 1) else next) - last)).
Proof.
  assert (Hmod : forall z, wrap_int64 (wrap_uint64 z) = wrap_int64 z).
  { intros z. unfold wrap_int64, wrap_uint64. by rewrite Zplus_mod_idemp_l. }
  destruct (Z.leb_spec (wrap_int64 (next - last)) 0); rewrite Hmod; [|lia].
  assert (E : wrap_int64 (wrap_uint64 (last + 1) - last) = wrap_int64 (wrap_uint64 (wrap_uint64 (last + 1) - last))) by by rewrite Hmod.
  rewrite E. unfold wrap_uint64 at 1 2. rewrite Zminus_mod_idemp_l. replace (last + 1 - last) with 1 by lia. done.
Qed.

Lemma switch_source_total p layer ck f : refs_ok f -> 0 <= layer <= 2 -> extLastSN (fw_munger f) < sn_limit -> started f = true ->
  exists e f', switch_source ntp_time p layer ck f = Some (e, f') /\
    match e with
    | Some _ => keeps f f'
    | None => switched p f f'
    end.
Proof.
  intros Hf Hl HL Hs. unfold switch_source.
  assert (Hr : exists r, (if st_skipReferenceTS (fw_settings f) then Some (inr (wrap_uint32 (extLastTS (fw_munger f)))) else
    getRefLayerRTPTimestamp ntp_time (xp_Timestamp p) (sf_referenceLayerSpatial (fw_source f)) layer f) = Some r).
  { destruct (st_skipReferenceTS _); [eauto|]. apply ref_timestamp_total; [done|apply Hf|done]. }
  destruct Hr as [r ->]. cbn [mbind option_bind]. destruct r as [e|refTS]; [exists (Some e), f; split; [done|apply keeps_refl]|].
  destruct (reference_times ck _ refTS f) as [[expected ref] dummy]. set (f1 := on_source (set_dummy dummy) f).
  set (x := if sf_lastSSRC (fw_source f1) =? 0 then _ else _).
  assert (Hx : keeps f x.2 /\ refs_ok x.2) by (unfold x; destruct (_ =? 0); (split; [split; simpl; auto|done])). clearbody x. destruct x as [next f2]. simpl in Hx.
  destruct Hx as [[K1 K2 K3 K4 K5] R2]. destruct next as [next|]; [|exists (Some SwitchPointTooFarBehind), f2; split; [done|by split]].
  eexists None, _. split; [done|]. split; [done|unfold started in *; simpl; congruence|simpl; by rewrite K1|right]. split; [done|].
  eexists. simpl. rewrite K1. split; [done|]. apply next_after.
Qed.

Lemma source_switch_total p layer ck f : refs_ok f -> 0 <= layer <= 2 -> fits (ep_ExtSequenceNumber (xp_pkt p)) = true -> extLastSN (fw_munger f) < sn_limit ->
  exists st e f', processSourceSwitch ntp_time p layer ck f = Some (st, e, f') /\
    match e with
    | Some _ => refs_ok f' /\ fw_munger f' = fw_munger f /\ started f' = started f /\ (ssrc_of f' = ssrc_of f \/ ssrc_of f' = 0)
    | None => switched p f f'
    end.
Proof.
  intros Hf Hl Hsn%fits_range HL. unfold processSourceSwitch. destruct (negb (sf_started (fw_source f))) eqn:Es.
  - apply negb_true_iff in Es. destruct (ep_IsOutOfOrder (xp_pkt p)); [eexists _, _, _; split; [done|simpl; auto]|]. eexists _, _, _. split; [done|]. destruct Hf as [R1 R2].
    split; [split; [done|simpl; lia]|done| |left; done]. simpl. lia.
  - apply negb_false_iff in Es. destruct (Z.eqb_spec (sf_referenceLayerSpatial (fw_source f)) InvalidLayerSpatial) as [Ei|Ei].
    + destruct (ep_IsOutOfOrder (xp_pkt p)); [eexists _, _, _; split; [done|simpl; auto]|]. set (f1 := set_codec _ _).
      assert (R1 : refs_ok f1) by (destruct Hf as [R1 R2]; split; [done|simpl; lia]).
      destruct (switch_source_total p layer ck f1 R1 Hl HL Es) as (e & f2 & -> & He). cbn [mbind option_bind]. eexists _, e, f2. split; [done|].
      destruct e as [e|]; [|destruct He as [S1 S2 S3 [[S4 _]|[_ S5]]]; [unfold started in *; simpl in *; congruence|split; [done|done|done|right; split; [exact Es|exact S5]]]].
      destruct He as [K1 K2 K3 K4 K5]. split; [destruct R1 as [A B]; split; [congruence|unfold InvalidLayerSpatial in *; destruct K4 as [->| ->]; [done|lia]]|]. done.
    + destruct (switch_source_total p layer ck f Hf Hl HL Es) as (e & f2 & -> & He). cbn [mbind option_bind]. eexists _, e, f2. split; [done|].
      destruct e as [e|]; [|done]. destruct He as [K1 K2 K3 K4 K5]. split; [|done]. destruct Hf as [A B]. split; [congruence|].
      unfold InvalidLayerSpatial in *. destruct K4 as [->| ->]; [done|lia].
Qed.

Lemma switched_linked p f f' log : finv f log -> fits (ep_ExtSequenceNumber (xp_pkt p)) = true -> extLastSN (fw_munger f) < sn_limit ->
  switched p f f' -> linked (fw_munger f') (ep_SSRC (xp_pkt p)) log.
Proof.
  intros [_ L F] Hsn HL [_ _ _ [[Hs E]|[Hs (d & E & _)]]]; rewrite E.
  - destruct (F Hs) as [_ ->]. apply linked_start; [|done]. destruct L as (? & ? & ? & W & _). apply W.
  - by eapply linked_switch.
Qed.

(** ** A packet *)

Lemma common_total p layer ck tp f log : finv f log -> p_allowed p layer f -> shouldDrop tp = false ->
  exists e tp' f', getTranslationParamsCommon ntp_time p layer ck tp f = Some (e, tp', f') /\ finv f' (log ++ forwarded p tp') /\
    (shouldDrop tp' = false -> e = None /\ started f' = true).
Proof.
  intros Hf [P1 P2 P3 P4 P5] Hd. unfold getTranslationParamsCommon.
  set (sw := if _ =? _ then _ else _).
  assert (Hsw : exists st e f1, sw = Some (st, e, f1) /\ match e with Some _ => finv f1 log
    | None => finv f1 log /\ started f1 = true /\ ssrc_of f1 = ep_SSRC (xp_pkt p) /\ extLastSN (fw_munger f1) < sn_limit end).
  { unfold sw. destruct (Z.eqb_spec (sf_lastSSRC (fw_source f)) (ep_SSRC (xp_pkt p))) as [Eq|Hne].
    - eexists _, _, _. split; [done|]. split; [done|]. split; [|done]. destruct (started f) eqn:Es; [done|].
      destruct Hf as [_ _ F]. destruct (F Es) as [E _]. unfold ssrc_of in E. congruence.
    - destruct (source_switch_total p layer ck f (fi_refs _ _ Hf) P3 P1 P4) as (st & e & f1 & -> & He). cbn [mbind option_bind]. eexists _, e, _. split; [done|].
      destruct e as [e|].
      + destruct He as (R & Em & Es & Ess). destruct Hf as [_ L F]. split; [done| |].
        * simpl. rewrite Em. unfold ssrc_of in *. simpl. destruct Ess as [->| ->]; [done|by eapply linked_none].
        * unfold started, ssrc_of in *. simpl. rewrite Es. intros Hs. destruct (F Hs) as [E ->]. split; [|done]. destruct Ess; congruence.
      + pose proof (switched_linked p f f1 log Hf P1 P4 He) as L. destruct He as [R Hs HL _].
        split; [split; [done|done|]|done]. unfold started in *. simpl. congruence. }
  destruct Hsw as (st & e & f1 & -> & H1). cbn [mbind option_bind]. destruct e as [e|].
  { eexists _, _, _. split; [done|]. unfold forwarded. simpl. rewrite app_nil_r. by split. }
  destruct H1 as (H1 & Hs & Ess & HL). destruct (linked_packet (xp_pkt p) (tp_marker (tr_params (set_starting st tp))) (fw_munger f1) (ssrc_of f1) log (fi_linked _ _ H1)) as (r & m & -> & Hr);
    [congruence|done|done|]. cbn [mbind option_bind]. destruct r as [er|rtp].
  - destruct Hr as [Her Hl]. pose proof (finv_munger f1 log m log H1 Hs Hl) as Hm.
    destruct er; try done; (eexists _, _, _; split; [done|]; unfold forwarded; simpl; rewrite app_nil_r; by split).
  - destruct Hr as (Hdup & Hl & Hc). rewrite Ess in Hl. set (tp1 := set_params _ _). set (k := [(Some _, tp_SN rtp)]) in Hl.
    assert (Hm : finv (set_munger m f1) (log ++ k)) by (apply (finv_munger f1 log); [done|done|by rewrite Ess]).
    destruct (0 <? length (ep_Payload (xp_pkt p)))%nat.
    + destruct (header_total p tp1 (set_munger m f1) log k Hm Hs) as (e & tp' & f' & -> & S & Hf' & Htp); [done|done|done|done|].
      eexists _, _, _. split; [done|]. split; [|intros Hn; destruct (Htp Hn); done]. unfold forwarded. destruct (shouldDrop tp'); [done|]. destruct (Htp eq_refl) as [_ ->]. done.
    + eexists _, _, _. split; [done|]. unfold forwarded. simpl. rewrite Hd. by split.
Qed.

Lemma not_wanted_total p layer r f log : finv f log -> p_allowed p layer f ->
  exists f', not_wanted p r f = Some (None, dropped_packet, f') /\ finv f' log.
Proof.
  intros Hf [P1 P2 P3 P4 P5]. unfold not_wanted. cbv zeta. set (f1 := if _ && _ then _ else f).
  assert (E : fw_munger f1 = fw_munger f /\ fw_source f1 = fw_source f).
  { unfold f1. destruct (_ && _); [|done]. by destruct (st_mime _) as [[]|]. }
  destruct E as [E1 E2]. pose proof (finv_same f f1 log Hf E1 E2) as Hf1. clearbody f1. destruct (sf_started (fw_source f1) && IsRelevant r) eqn:Es; [|by eexists _].
  apply andb_true_iff in Es as [Es _].
  destruct (linked_counted (xp_pkt p) (RTPMarker r) (fw_munger f1) (ssrc_of f1) log (fi_linked _ _ Hf1) P1) as (res & m & -> & Hm & Hc); [by rewrite E1|].
  cbn [mbind option_bind]. destruct res as [e|rtp]; [|destruct (snOrdering rtp)]; cbn [mbind option_bind]; try (eexists; split; [done|]; by apply (finv_munger f1 log)).
  destruct (Hc eq_refl) as (m' & -> & Hm'). cbn [mbind option_bind]. eexists. split; [done|]. by apply (finv_munger f1 log).
Qed.

Lemma packet_total p layer ck f log : finv f log -> p_allowed p layer f ->
  exists e tp f', GetTranslationParams ntp_time p layer ck f = Some (e, tp, f') /\ finv f' (log ++ forwarded p tp).
Proof.
  intros Hf Hp. assert (Hnone : forall f', finv f' log -> finv f' (log ++ forwarded p dropped_packet)) by (intros f'; unfold forwarded; simpl; by rewrite app_nil_r).
  unfold GetTranslationParams. destruct (_ || _); [by eexists _, _, _; split; [done|apply Hnone]|]. destruct (is_audio f).
  - unfold getTranslationParamsAudio. destruct (common_total p layer ck (mkTranslated false false false false no_params) f log Hf Hp eq_refl) as (e & tp & f' & -> & Hf' & Hd).
    cbn [mbind option_bind]. eexists _, _, _. split; [done|]. destruct e; [|done]. destruct (shouldDrop tp) eqn:Ed; [|by destruct (Hd eq_refl)].
    unfold forwarded in *. simpl. by rewrite Ed in Hf'.
  - unfold getTranslationParamsVideo. destruct (negb (IsValid _)); [by eexists _, _, _; split; [done|apply Hnone]|]. destruct (Select p layer (fw_vls f)) as [r v].
    assert (Hv : finv (set_vls v f) log) by (by apply (finv_same f)). assert (Hpv : p_allowed p layer (set_vls v f)) by (by destruct Hp; split).
    destruct (negb (IsSelected r)).
    + destruct (not_wanted_total p layer r (set_vls v f) log Hv Hpv) as (f' & -> & Hf'). eexists _, _, _. split; [done|]. by apply Hnone.
    + destruct (common_total p layer ck (mkTranslated false false (IsResuming r) (IsSwitching r) (mkTP (mkTpRTP Contiguous 0 0) (DescriptorExtension r) 0 [] (RTPMarker r)))
        (set_vls v f) log Hv Hpv eq_refl) as (e & tp & f' & -> & Hf' & Hd). cbn [mbind option_bind]. destruct (shouldDrop tp) eqn:Ed; [by eexists _, _, _|].
      destruct (_ && _); [|by eexists _, _, _]. eexists _, _, _. split; [done|]. unfold forwarded in *. simpl. rewrite app_nil_r. by eapply finv_prefix.
Qed.

(** ** Padding *)

(** Padding goes out between sources, or once something of the source was sent. *)
Definition pad_allowed (num : Z) f (log : sent_log) : Prop := 0 <= num < sn_limit - 1 /\ extLastSN (fw_munger f) < sn_limit /\ (ssrc_of f = 0 \/ log <> []).

Lemma maybeStart_ok now sn ts f log num : finv f log -> 0 <= sn < 2 ^ 14 -> pad_allowed num f log ->
  finv (maybeStart now sn ts f) log /\ pad_allowed num (maybeStart now sn ts f) log /\ started (maybeStart now sn ts f) = true.
Proof.
  intros Hf Hsn (H1 & H2 & H3). unfold maybeStart. destruct (sf_started (fw_source f)) eqn:Es; [done|]. destruct Hf as [R L F]. destruct (F Es) as [E ->].
  split; [|split; [|done]].
  - split; [done| |done]. unfold ssrc_of in *. simpl. apply linked_start; [destruct L as (? & ? & ? & W & _); apply W|].
    simpl. unfold fits, sn_limit. apply andb_true_iff. split; [apply Z.leb_le|apply Z.ltb_lt]; lia.
  - split; [done|]. split; [simpl; unfold sn_limit in *; lia|by left].
Qed.

Lemma padding_total now sn ts num frameRate force f log : finv f log -> 0 <= sn < 2 ^ 14 -> pad_allowed num f log ->
  exists r f', GetSnTsForPadding now sn ts num frameRate force f = Some (r, f') /\ finv f' (log ++ log_pads (pads_of r)).
Proof.
  intros Hf Hsn Ha. unfold GetSnTsForPadding. destruct (maybeStart_ok now sn ts f log num Hf Hsn Ha) as (Hf1 & (A1 & A2 & A3) & Hs). set (f1 := maybeStart now sn ts f) in *. clearbody f1.
  destruct (linked_padding num (st_clockRate (fw_settings f1)) frameRate (force || negb (IsValid (targetLayer (base f1)))) (extLastTS (fw_munger f1)) (fw_munger f1) (ssrc_of f1) log (fi_linked _ _ Hf1))
    as (r & m & -> & Hm); [done|lia|done|]. cbn [mbind option_bind]. eexists _, _. split; [done|]. by apply (finv_munger f1 log).
Qed.

Lemma blank_total now sn ts frameRate num ck f log : finv f log -> 0 <= sn < 2 ^ 14 -> pad_allowed num f log ->
  exists r b f', GetSnTsForBlankFrames now sn ts frameRate num ck f = Some (r, b, f') /\ finv f' (log ++ log_pads (pads_of r)).
Proof.
  intros Hf Hsn Ha. unfold GetSnTsForBlankFrames. destruct (maybeStart_ok now sn ts f log num Hf Hsn Ha) as (Hf1 & (A1 & A2 & A3) & Hs). set (f1 := maybeStart now sn ts f) in *. clearbody f1.
  cbv zeta. set (n := if negb _ then num + 1 else num). set (ex := if _ <=? 0 then _ else _).
  destruct (linked_padding n (st_clockRate (fw_settings f1)) frameRate (negb (IsOnFrameBoundary (fw_munger f1))) ex (fw_munger f1) (ssrc_of f1) log (fi_linked _ _ Hf1))
    as (r & m & -> & Hm); [done|unfold n; destruct (negb _); lia|done|]. cbn [mbind option_bind]. eexists _, _, _. split; [done|]. by apply (finv_munger f1 log).
Qed.

(** ** Runs *)

(** The forwarder after any number of steps, and what went out under which number. *)
Inductive freach : Fwd -> sent_log -> Prop :=
  | fr_new kind skip disable s : freach (NewForwarder kind skip disable (CMNull s)) []
  | fr_packet f log p layer ck e tp f' : freach f log -> p_allowed p layer f ->
      GetTranslationParams ntp_time p layer ck f = Some (e, tp, f') -> freach f' (log ++ forwarded p tp)
  | fr_padding f log now sn ts num frameRate force r f' : freach f log -> 0 <= sn < 2 ^ 14 -> pad_allowed num f log ->
      GetSnTsForPadding now sn ts num frameRate force f = Some (r, f') -> freach f' (log ++ log_pads (pads_of r))
  | fr_blank f log now sn ts frameRate num ck r b f' : freach f log -> 0 <= sn < 2 ^ 14 -> pad_allowed num f log ->
      GetSnTsForBlankFrames now sn ts frameRate num ck f = Some (r, b, f') -> freach f' (log ++ log_pads (pads_of r))
  | fr_control f log c f' : freach f log -> control_step c f = Some f' -> freach f' log.

Lemma new_munger_linked : linked NewRTPMunger 0 [].
Proof.
  exists 0%nat, [], (fun _ => 0). split; [|split; [done|]; split; [by intros i j x y o Hi; rewrite lookup_nil in Hi|done]].
  split; simpl; try done.
  - by exists 1.
  - by intros i j o o' Hi%elem_of_nil.
  - by intros i o Hi%elem_of_nil.
Qed.

Lemma freach_inv f log : freach f log -> finv f log.
Proof.
  induction 1 as [kind skip disable s|f log p layer ck e tp f' _ IH Hp E|f log now sn ts num fr force r f' _ IH Hsn Ha E|f log now sn ts fr num ck r b f' _ IH Hsn Ha E|f log c f' _ IH E].
  - split; [by split|apply new_munger_linked|done].
  - destruct (packet_total p layer ck f log IH Hp) as (e' & tp' & f2 & E' & Hf). rewrite E' in E. by injection E as <- <- <-.
  - destruct (padding_total now sn ts num fr force f log IH Hsn Ha) as (r' & f2 & E' & Hf). rewrite E' in E. by injection E as <- <-.
  - destruct (blank_total now sn ts fr num ck f log IH Hsn Ha) as (r' & b' & f2 & E' & Hf). rewrite E' in E. by injection E as <- <- <-.
  - eapply finv_keeps; [exact IH|]. by eapply control_keeps.
Qed.

(** ** Where a switch goes on *)

Lemma wrap_int64_wrap z : wrap_int64 (wrap_uint64 z) = wrap_int64 z.
Proof. unfold wrap_int64, wrap_uint64. by rewrite Zplus_mod_idemp_l. Qed.

Lemma switch_numbers p mk d r : rm_ok (snRangeMap r) -> fits (ep_ExtSequenceNumber p) = true -> 0 <= extLastSN r < sn_limit -> ep_Payload p <> [] ->
  exists m, UpdateAndGetSnTs p mk (UpdateSnTsOffsets p 1 d r) = Some (inr (mkTpRTP Contiguous (extLastSN r + 1) (wrap_uint64 (extLastTS r + d))), m).
Proof.
  intros Hm Hsn%fits_range HL Hpay. set (sn := ep_ExtSequenceNumber p) in *. pose proof (limit_small sn ltac:(lia) ltac:(lia)) as Hs.
  set (v := wrap_uint64 (sn - extLastSN r - 1)). set (m := ClearAndResetValue sn v (snRangeMap r)).
  assert (Hw : wrap_uint64 (sn - 1) = sn - 1) by (apply wrap_u64_id; lia).
  assert (Eoff : snOffset (UpdateSnTsOffsets p 1 d r) = v).
  { unfold UpdateSnTsOffsets. fold sn. rewrite Hw. fold v. fold m. simpl.
    assert (Hm' : rm_ok m) by (apply ClearAndResetValue_ok; [done|done|apply wrap_uint64_range]).
    assert (E : GetValue (wrap_uint64 (sn - 1 + 1)) m = inr (open_value m)) by (apply next_open; [done|lia|unfold open_start; simpl; lia]). by rewrite E. }
  assert (Eh : extHighestIncomingSN (UpdateSnTsOffsets p 1 d r) = sn - 1) by exact Hw.
  assert (Ets : tsOffset (UpdateSnTsOffsets p 1 d r) = wrap_uint64 (ep_ExtTimestamp p - extLastTS r - d)) by done.
  revert Eoff Eh Ets. generalize (UpdateSnTsOffsets p 1 d r). intros r' Eoff Eh Ets.
  unfold UpdateAndGetSnTs. fold sn. rewrite Eh, diff_signed by lia. replace (sn - (sn - 1)) with 1 by lia. simpl.
  replace (Z.of_nat (length (ep_Payload p)) =? 0) with false by (destruct (ep_Payload p); [done|by symmetry; apply Z.eqb_neq]). simpl.
  assert (A : wrap_uint64 (sn - v) = extLastSN r + 1).
  { unfold v. rewrite wrap_sub_wrap. replace (sn - (sn - extLastSN r - 1)) with (extLastSN r + 1) by lia.
    apply wrap_uint64_small. unfold sn_limit, two64 in *. lia. }
  assert (B : wrap_uint64 (ep_ExtTimestamp p - wrap_uint64 (ep_ExtTimestamp p - extLastTS r - d)) = wrap_uint64 (extLastTS r + d)).
  { rewrite wrap_sub_wrap. f_equal. lia. }
  eexists. rewrite Eoff, Ets. fold sn. by rewrite A, B.
Qed.

Lemma header_rtp p tp f e tp' f' : translateCodecHeader p tp f = Some (e, tp', f') -> shouldDrop tp' = false -> tp_rtp (tr_params tp') = tp_rtp (tr_params tp).
Proof.
  unfold translateCodecHeader. destruct (SelectTemporalAny p (fw_vls f)) as [tl v]. destruct (cm_UpdateAndGet _ _ _ _ _) as [[r c]|]; cbn [mbind option_bind]; [|done].
  destruct r as [[| | |er]|[n bytes]]; try (by intros [= <- <- <-]). destruct (PacketDropped _ _); cbn [mbind option_bind]; [|done]. by intros [= <- <- <-].
Qed.

(** The packet goes out right after the last one, and later. *)
Definition goes_on f (tp : Translated) : Prop :=
  tp_SN (tp_rtp (tr_params tp)) = extLastSN (fw_munger f) + 1 /\ 0 < wrap_int64 (tp_TS (tp_rtp (tr_params tp)) - extLastTS (fw_munger f)).

Lemma common_goes_on p layer ck tp f log e tp' f' : finv f log -> p_allowed p layer f -> started f = true -> ssrc_of f <> ep_SSRC (xp_pkt p) ->
  ep_Payload (xp_pkt p) <> [] -> getTranslationParamsCommon ntp_time p layer ck tp f = Some (e, tp', f') -> shouldDrop tp' = false -> goes_on f tp'.
Proof.
  intros Hf [P1 P2 P3 P4 P5] Hs Hne Hpay. unfold getTranslationParamsCommon, ssrc_of in *. rewrite (proj2 (Z.eqb_neq _ _)) by done.
  destruct (source_switch_total p layer ck f (fi_refs _ _ Hf) P3 P1 P4) as (st & er & f1 & -> & He). cbn [mbind option_bind]. destruct er as [er|]; [by intros [= <- <- <-]|].
  destruct He as [_ _ _ [[? _]|[_ (d & Em & Hd)]]]; [congruence|]. simpl fw_munger. rewrite Em.
  destruct (fi_linked _ _ Hf) as (? & ? & ? & W & _). destruct W as [Wm _ WL _ _ _ _ _].
  destruct (switch_numbers (xp_pkt p) (tp_marker (tr_params (set_starting st tp))) d (fw_munger f) Wm P1 ltac:(lia) Hpay) as (m & ->). cbn [mbind option_bind].
  set (tp1 := set_params _ _). assert (H1 : goes_on f tp1).
  { unfold goes_on, tp1. simpl. split; [done|]. rewrite <- wrap_int64_wrap. unfold wrap_uint64. rewrite Zminus_mod_idemp_l.
    replace (extLastTS (fw_munger f) + d - extLastTS (fw_munger f)) with d by lia. fold (wrap_uint64 d). by rewrite wrap_int64_wrap. }
  destruct (0 <? length _)%nat; [|by intros [= <- <- <-]]. intros E Hdrop. unfold goes_on. by rewrite (header_rtp _ _ _ _ _ _ E Hdrop).
Qed.

(** ** Runs that can be computed *)

Inductive fevent :=
  | FPacket (p : XPacket) (layer : Z) (ck : Clock) | FPadding (sn ts num frameRate : Z) (force : bool) | FControl (c : control).

#[export] Instance vp8_eq_dec : EqDecision VP8.
Proof. solve_decision. Defined.

Definition parsedb (p : ExtPacket) : bool :=
  match ep_vp8 p with
  | None => true
  | Some v => forallb (fun b => (0 <=? b) && (b <? 256)) (ep_Payload p) &&
      match Unmarshal (Some (ep_Payload p)) with inr v' => bool_decide (v' = v) | inl _ => false end
  end.

Definition fstep (e : fevent) (x : Fwd * sent_log) : option (Fwd * sent_log) :=
  let '(f, log) := x in
  match e with
  | FPacket p layer ck =>
      if fits (ep_ExtSequenceNumber (xp_pkt p)) && negb (ep_SSRC (xp_pkt p) =? 0) && ((0 <=? layer) && (layer <=? 2)) &&
         (extLastSN (fw_munger f) <? sn_limit) && parsedb (xp_pkt p)
      then '(e, tp, f') ← GetTranslationParams ntp_time p layer ck f; Some (f', log ++ forwarded p tp) else None
  | FPadding sn ts num frameRate force =>
      if ((0 <=? sn) && (sn <? 2 ^ 14)) && ((0 <=? num) && (num <? sn_limit - 1)) && (extLastSN (fw_munger f) <? sn_limit) &&
         ((ssrc_of f =? 0) || negb (length log =? 0)%nat)
      then '(r, f') ← GetSnTsForPadding 1 sn ts num frameRate force f; Some (f', log ++ log_pads (pads_of r)) else None
  | FControl c => f' ← control_step c f; Some (f', log)
  end.
Fixpoint frun (es : list fevent) (x : Fwd * sent_log) : option (Fwd * sent_log) :=
  match es with [] => Some x | e :: es => x ← fstep e x; frun es x end.

Lemma parsedb_ok p : parsedb p = true -> forall v, ep_vp8 p = Some v -> exists payload, Forall (fun b => 0 <= b < 256) payload /\ Unmarshal (Some payload) = inr v.
Proof.
  unfold parsedb. intros H v Ev. rewrite Ev in H. apply andb_true_iff in H as [H1 H2]. exists (ep_Payload p). split.
  - apply Forall_forall. intros b Hb. rewrite forallb_forall in H1. apply list_elem_of_In, H1, andb_true_iff in Hb as [? ?]. lia.
  - destruct (Unmarshal _); [done|]. by apply bool_decide_eq_true in H2 as ->.
Qed.

Lemma fstep_reach e f log x : freach f log -> fstep e (f, log) = Some x -> freach x.1 x.2.
Proof.
  intros Hr. destruct e as [p layer ck|sn ts num fr force|c]; simpl.
  - destruct (_ && _) eqn:E; [|done]. destruct (GetTranslationParams _ _ _ _ _) as [[[e tp] f']|] eqn:Et; cbn [mbind option_bind]; [|done]. intros [= <-]. simpl.
    eapply fr_packet; [exact Hr| |exact Et]. rewrite !andb_true_iff, negb_true_iff in E. destruct E as [[[[E1 E2] [E3 E3']] E4] E5].
    split; [done|by apply Z.eqb_neq|lia|lia|by apply parsedb_ok].
  - destruct (_ && _) eqn:E; [|done]. destruct (GetSnTsForPadding _ _ _ _ _ _ _) as [[r f']|] eqn:Et; cbn [mbind option_bind]; [|done]. intros [= <-]. simpl.
    rewrite !andb_true_iff, orb_true_iff, negb_true_iff in E. destruct E as [[[[E1 E2] [E3 E3']] E4] E5].
    eapply fr_padding; [exact Hr| | |exact Et]; [lia|]. split; [lia|]. split; [lia|]. destruct E5 as [E5|E5]; [left; lia|right]. by destruct log.
  - destruct (control_step c f) as [f'|] eqn:Ec; cbn [mbind option_bind]; [|done]. intros [= <-]. by eapply fr_control.
Qed.

Lemma frun_reach es f log x : freach f log -> frun es (f, log) = Some x -> freach x.1 x.2.
Proof.
  revert f log. induction es as [|e es IH]; intros f log Hr; cbn [frun]; [by intros [= <-]|].
  destruct (fstep e (f, log)) as [[f1 log1]|] eqn:E; cbn [mbind option_bind]; [|done]. apply IH. by apply (fstep_reach _ _ _ _ Hr E).
Qed.

End stream.
End ForwardThms.
Export ForwardThms.

(** C24: No subscriber gets two packets under one number from the forwarder: in every
    run of packets of any sources, padding and blank frames, mutes, allocations,
    changes of the layers and sender reports, two packets that were let through
    under the same number are copies of the same packet of the same source, and no
    packet shares its number with padding. And on every packet whose descriptor was
    parsed from bytes the forwarder decides without a panic. Padding is to go out
    between sources or after something of the source. *)
Theorem forwarded_once {D} `{!DependencySelector D} {M} `{!OrderedMap M, !OrderedMapLaws M} (ntp_time : Z -> Z)
    (f : Forwarder D (CodecMunger M)) (log : sent_log) : freach ntp_time f log ->
  (forall i j x y o, log !! i = Some (x, o) -> log !! j = Some (y, o) -> i <> j -> exists ssrc sn, x = Some (ssrc, sn) /\ y = Some (ssrc, sn)) /\
  (forall p layer ck, p_allowed p layer f -> is_Some (GetTranslationParams ntp_time p layer ck f)).
Proof.
  intros H%freach_inv. split.
  - destruct (fi_linked _ _ H) as (ep & sent & src & _ & _ & Hu & _). intros i j x y o Hi Hj Hij. destruct (Hu i j x y o Hi Hj Hij) as [-> Hx].
    destruct y as [[ssrc sn]|]; [by exists ssrc, sn|done].
  - intros p layer ck Hp. destruct (packet_total ntp_time p layer ck f log H Hp) as (e & tp & f' & -> & _). by eexists.
Qed.

(** C25: A switch of the source goes on where the stream was: whatever the clock, the
    sender reports and the timestamps of the sources say, the first packet of the
    new source that is let through gets the next sequence number, and a timestamp
    after the last one sent, as 64 bit counters go. *)
Theorem switch_goes_on {D} `{!DependencySelector D} {M} `{!OrderedMap M, !OrderedMapLaws M} (ntp_time : Z -> Z)
    (f : Forwarder D (CodecMunger M)) (log : sent_log) (p : XPacket) (layer : Z) (ck : Clock) e tp f' :
  freach ntp_time f log -> p_allowed p layer f -> sf_started (fw_source f) = true -> sf_lastSSRC (fw_source f) <> ep_SSRC (xp_pkt p) ->
  ep_Payload (xp_pkt p) <> [] -> GetTranslationParams ntp_time p layer ck f = Some (e, tp, f') -> shouldDrop tp = false ->
  tp_SN (tp_rtp (tr_params tp)) = extLastSN (fw_munger f) + 1 /\
  0 < wrap_int64 (tp_TS (tp_rtp (tr_params tp)) - extLastTS (fw_munger f)).
Proof.
  intros H%freach_inv Hp Hs Hne Hpay. unfold GetTranslationParams. destruct (_ || _); [by intros [= <- <- <-]|]. destruct (is_audio f).
  - unfold getTranslationParamsAudio. destruct (getTranslationParamsCommon _ _ _ _ _ _) as [[[e1 tp1] f1]|] eqn:E; cbn [mbind option_bind]; [|done].
    intros [= <- <- <-]. destruct e1; [done|]. by apply (common_goes_on ntp_time p layer ck _ f log _ _ _ H Hp Hs Hne Hpay E).
  - unfold getTranslationParamsVideo. destruct (negb (IsValid _)); [by intros [= <- <- <-]|]. destruct (Select p layer (fw_vls f)) as [r v].
    assert (Hv : finv (set_vls v f) log) by (by apply (finv_same f)). assert (Hpv : p_allowed p layer (set_vls v f)) by (by destruct Hp; split).
    destruct (negb (IsSelected r)).
    { destruct (not_wanted_total p layer r (set_vls v f) log Hv Hpv) as (f2 & -> & _). by intros [= <- <- <-]. }
    destruct (getTranslationParamsCommon _ _ _ _ _ _) as [[[e1 tp1] f1]|] eqn:E; cbn [mbind option_bind]; [|done].
    pose proof (common_goes_on ntp_time p layer ck _ (set_vls v f) log _ _ _ Hv Hpv Hs Hne Hpay E) as Hgo.
    destruct (shouldDrop tp1) eqn:Ed; [intros [= <- <- <-]; congruence|]. destruct (_ && _); intros [= <- <- <-]; [done|]. intros _. by apply Hgo.
Qed.

(** *** A run *)

#[local] Instance sample_selector : DependencySelector unit := {
  dd_select := fun _ _ b d => (not_selected, b, d); dd_rollback := fun b d => (Rollback b, d); dd_new := tt }.

Definition sample_forwarder : Forwarder unit (CodecMunger ListMap) := NewForwarder KindVideo false false (CMNull None).

(** A VP8 packet of temporal layer 0; the picture has the number of the packet. *)
Definition sample_xpacket (ssrc sn ts : Z) (key : bool) : XPacket :=
  mkXPacket (mkExtPacket 0 sn ts ssrc 96 (sample_payload sn) (Some (sample_vp8 sn)) key false) 0 true ts None false.
Definition sample_clock : Clock := mkClock NoStats 0.
Definition sample_rates : Bitrates := [[100; 0; 0; 0]; [300; 0; 0; 0]; [0; 0; 0; 0]].

(** Two layers, the lower one first; then more bandwidth, padding, and the higher one, whose clock is far ahead. *)
Definition sample_start : list fevent :=
  [FControl (CDetermineCodec CodecVP8 90000 false ONE_SPATIAL_LAYER_PER_STREAM); FControl (CMaxPublished 1); FControl (CMaxSpatial 0);
   FControl (COptimal [0; 1] sample_rates false false);
   FPacket (sample_xpacket 1111 100 9000 true) 0 sample_clock; FPacket (sample_xpacket 1111 101 12000 false) 0 sample_clock;
   FPacket (sample_xpacket 2222 5000 800000 false) 1 sample_clock;
   FPadding 0 0 2 30 false;
   FControl (CSenderReport 0 (mkReport 4000000000 12000 12000)); FControl (CSenderReport 1 (mkReport 4000000000 800000 800000));
   FControl (CMaxSpatial 1); FControl (COptimal [0; 1] sample_rates false false)].
Definition sample_events : list fevent :=
  sample_start ++ [FPacket (sample_xpacket 2222 5002 806000 true) 1 sample_clock; FPacket (sample_xpacket 2222 5003 809000 false) 1 sample_clock;
    FPacket (sample_xpacket 1111 102 15000 false) 0 sample_clock; FPacket (sample_xpacket 2222 5003 809000 false) 1 sample_clock].
Definition sample_run (es : list fevent) : Forwarder unit (CodecMunger ListMap) * sent_log :=
  default (sample_forwarder, []) (frun (fun t => t) es (sample_forwarder, [])).


Lemma sample_reach (es : list fevent) x : frun (fun t => t) es (sample_forwarder, []) = Some x -> freach (fun t => t) x.1 x.2.
Proof. apply frun_reach, fr_new. Qed.

Lemma forwarded_once_witness :
  (sample_run sample_events).2 =
    [(Some (1111, 100), 100); (Some (1111, 101), 101); (None, 102); (None, 103); (Some (2222, 5002), 104); (Some (2222, 5003), 105)] /\
  (forall i j x y o, (sample_run sample_events).2 !! i = Some (x, o) -> (sample_run sample_events).2 !! j = Some (y, o) -> i <> j ->
    exists ssrc sn, x = Some (ssrc, sn) /\ y = Some (ssrc, sn)).
Proof.
  split; [by vm_compute|]. apply (forwarded_once (fun t => t) (sample_run sample_events).1 (sample_run sample_events).2).
  apply (sample_reach sample_events). by vm_compute.
Defined.

(** The packet with which the higher layer takes over. *)
Definition sample_switch := GetTranslationParams (fun t => t) (sample_xpacket 2222 5002 806000 true) 1 sample_clock (sample_run sample_start).1.
Definition sample_tp : Translated := match sample_switch with Some (_, tp, _) => tp | None => dropped_packet end.
Definition sample_after := match sample_switch with Some (_, _, f) => f | None => sample_forwarder end.

Lemma switch_goes_on_witness :
  tp_SN (tp_rtp (tr_params sample_tp)) = 104 /\ tp_TS (tp_rtp (tr_params sample_tp)) = 18001 /\
  (tp_SN (tp_rtp (tr_params sample_tp)) = extLastSN (fw_munger (sample_run sample_start).1) + 1 /\
   0 < wrap_int64 (tp_TS (tp_rtp (tr_params sample_tp)) - extLastTS (fw_munger (sample_run sample_start).1))).
Proof.
  split; [by vm_compute|]. split; [by vm_compute|].
  refine (switch_goes_on (fun t => t) (sample_run sample_start).1 (sample_run sample_start).2 (sample_xpacket 2222 5002 806000 true) 1 sample_clock
    None sample_tp sample_after _ _ _ _ _ _ _).
  - apply (sample_reach sample_start). vm_compute. reflexivity.
  - split; [by vm_compute|by vm_compute|by vm_compute|by vm_compute|]. apply parsedb_ok. by vm_compute.
  - vm_compute. reflexivity.
  - vm_compute. discriminate.
  - vm_compute. discriminate.
  - vm_compute. reflexivity.
  - vm_compute. reflexivity.
Defined.
